(* ===== verification/_CoqProject ===== *)
-Q . S2P
Prelude.v
MachineInt.v
Binary64.v
Text.v
CurvesMath.v
CurveTrait.v
LinearCurve.v
OffsetProgressiveCurve.v
Fees.v
Events.v
Errors.v
CircuitBreaker.v
Retry.v
Supervisor.v
Watchdog.v
ConnectionManager.v
EventSource.v
Checkpoint.v
WorkerWorld.v
Traits.v
SurrealQl.v
SurrealReader.v
SurrealSink.v
SurrealProjections.v
DeadLetter.v
DemoWorld.v
PgWorker.v
SurrealWorker.v
CoreEntitiesWorker.v
BatchWorker.v
Shard.v
PgTx.v
Crash.v
TxCode.v
DemoDatabase.v
DualTx.v
PgCommon.v
VaultRepo.v
KgMarket.v
VaultState.v
VaultStateDual.v
VaultHolders.v
VaultHoldersDual.v
KgGraph.v
CoreEntities.v
AtomContext.v
Ingestion.v
IngestHandlers.v
IngestRead.v
IngestOrder.v
MultiVaultAbi.v
EventLog.v
SignalsAnalytics.v
PositionTracking.v
AccountRegistry.v
ProtocolStats.v
AbortableTx.v
LeaderboardMarker.v
ActivityMarker.v
LeaderboardRefresh.v
ActivityDaily.v
UserActivity.v
UserSegments.v
Focus.v
TopicAffinity.v
RetentionCohorts.v
ActivityCycle.v
Funnels.v
TermAggregates.v
Metrics.v
Config.v
Startup.v
Coordinator.v
Composition.v
SurrealConnect.v
Readiness.v
IngestMetrics.v
IndexerGlue.v
IndexedLogs.v
IngestMain.v
