(* ===== verification/Prelude.v ===== *)
(** * Intuition Core: a verification library for the chain-to-graph pipeline

    Intuition Core follows the MultiVault contract of an EVM chain. An ingestion
    process stores the contract's events with a global sequence number; the
    projection service ([src/crates/projections]) reads them in that order and
    maintains PostgreSQL/TimescaleDB tables and a SurrealDB graph; a library
    ([src/crates/curves]) recomputes the contract's bonding-curve quotes off
    chain. This development translates the three into Rocq functions and proves what
    makes them correct. All paths below are relative
    to [src/crates].

    ** The program and its parts

    A worker runs one projection: read the checkpoint, read the next events, hand
    them to the projection under retry and a circuit breaker, save the
    checkpoint. A supervisor restarts a worker that ends, a watchdog cancels one
    that hangs, a connection manager sizes the pools and replaces the SurrealDB
    handle. A projection applies a batch of events to its tables in one
    transaction. The files follow these parts, each requiring those before it it
    needs.

    - Shared: this file ([result] with its bind, lists, sorting, maps), MachineInt (the
      ranges of [u32], [u64], [i64], [U256] and their checked, wrapping and saturating
      operations), Binary64 ([f64], with what is exact about it), Text (characters,
      searching, integers, UTF-8, and the class of the [hex] and [chrono] codecs).
    - Bonding curves ([curves/src]): CurvesMath ([math.rs], [errors.rs],
      [types.rs]), CurveTrait ([traits.rs] as the class [Curve], with the class
      [LawfulCurve] of the laws its clients use), LinearCurve ([linear.rs]),
      OffsetProgressiveCurve ([offset_progressive.rs]) and Fees ([fees.rs],
      generic in the curve). Every operation that can fail,
      wrap or round does so where the code does.
    - Data ([shared/src]): Events ([types.rs], [models.rs], [parsed_event.rs])
      and Errors ([errors.rs] and [projections/src/error.rs]).
    - Resilience ([projections/src/resilience]): CircuitBreaker, Retry,
      Supervisor, Watchdog, ConnectionManager and Checkpoint, one per source
      file.
    - Reading and dead letters ([projections/src/event],
      [repo/dead_letter_repo.rs]): EventSource, DeadLetter.
    - Workers ([projections/src/worker]): WorkerWorld (the class of the calls a
      worker makes, [WorkerLaws] which it relies on, the invariant [no_skip]),
      Traits (the projection and sink traits), PgWorker ([pg.rs]), SurrealWorker
      ([surreal.rs]), CoreEntitiesWorker ([core_entities.rs]), BatchWorker
      ([batch.rs]). Crash has the runs of a supervised worker that end in the middle.
      DemoWorld is a concrete instance for the witnesses.
    - PostgreSQL projections ([projections/src/projection/timescaledb] and
      [repo]): Shard ([shard.rs]), PgTx (transactions, the loop the projections
      share, and what transactions leave in a database other writers share), PgCommon, VaultRepo and VaultState ([vault_repo.rs],
      [vault_state.rs]), VaultHolders, EventLog, SignalsAnalytics,
      PositionTracking (with [position_repo.rs]), AccountRegistry, ProtocolStats,
      LeaderboardMarker, ActivityMarker and TermAggregates, one per source file;
      AbortableTx is the loop of the two markers, which goes on after an error.
      DemoDatabase is a concrete instance for the witnesses.
    - SurrealDB ([projections/src/projection/surreal], [sink/surreal.rs]): SurrealQl (the
      query text), SurrealReader (a reader of that text), SurrealSink (sending it and
      reading its errors), SurrealProjections
      (the six projections, typed and raw).
    - Dual writes ([projections/src/projection/dual], [repo/kg_market_repo.rs]): DualTx
      (two transactions, committed one after the other), KgMarket (the market schema),
      VaultStateDual, VaultHoldersDual, KgGraph (the graph schema), CoreEntities
      (the plan and the three stores) and AtomContext.
    - Ingestion ([rindexer-ingestion/src]): TxCode (transactions whose statements answer
      and may panic), Ingestion ([storage.rs]), IngestHandlers ([handlers.rs]),
      IngestRead (what the readers of EventSource see of the ingested tables) and
      IngestOrder (when the sequence numbers of overlapping writes become visible).
      The way there: MultiVaultAbi (the events of [multi_vault_abi_gen.rs] and their
      topics, with the hash of Ethereum as their specification), IndexerGlue ([typings], and the registrations and closures of
      [handlers.rs]), IngestMetrics ([metrics.rs]), IndexedLogs (the pieces put together,
      from a log of the chain to the tables) and IngestMain ([main.rs]).
    - Timer-driven projections: LeaderboardRefresh ([leaderboard_refresh.rs],
      [leaderboard_repo.rs]), Funnels ([funnel_tracker.rs], [funnel_repo.rs]), and the
      user-activity projection ([user_activity_repo.rs], [user_activity_batch.rs]):
      ActivityDaily (daily rollups), UserActivity (backfill, profiles, checkpoint),
      UserSegments (scores and segments), TopicAffinity, RetentionCohorts, and
      ActivityCycle, where the phases run on their views (Focus) of one set of tables.
    - The process ([projections/src/config.rs], [main.rs], [coordinator.rs],
      [shared/src/config.rs], [graph_flags.rs]): Config (the variables, their parsers and
      the flags), Startup (pools, connections, the projections built, the exit),
      Coordinator (factories, spawning, tokens). Composition puts the parts together:
      the supervised vault-state workers of a running service, whose processes may crash,
      and the writers of the vault tables.
      SurrealConnect has what one attempt to connect to SurrealDB asks of the client.
      Metrics ([projections/src/metrics.rs]) has every metric, the calls that record them
      and the health endpoints, and Readiness the reports of the workers, interleaved, and
      the head poller.

    ** How effects are modelled

    A task that shares state with others (a worker, the retry loop) runs over a
    world [W], a parameter with a type class of the calls on it. Whatever the
    databases, the clock, the network and the other tasks do between two calls is
    the freedom of the instance; a law of the class says only what the code
    relies on. An atomic section (a method under its mutex, one access to an
    atomic) is one step; tasks that share an atomic or a lock (Watchdog,
    ConnectionManager, Readiness) are step relations closed under interleaving. A worker is
    stateful code with explicit state passing: [poll] is one turn of its loop,
    [poll_loop] iterates it. A SQL statement is a function on the tables it
    touches, a query a function of them, an open transaction the composition of its
    statements. Rows that several statements may have written under one sequence
    (IngestOrder) are a step relation of begin, insert, commit and abandon.

    ** What the theorems show

    - Nothing is lost. [pg_worker_never_skips], [core_entities_never_skips] and
      [surreal_worker_never_skips]: in any execution, with failures of any call
      and across restarts, the checkpoint never passes a canonical event whose
      effects did not reach the target. [pg_worker_catches_up] is the
      corresponding liveness: as long as the calls succeed, every event is
      written. [typed_reader_equivalent]: the two readers return the same
      batches; [ingested_readers_agree] the same of whatever the ingestion wrote.
      [serial_ingestion_appends] proves the premise of the workers, that the log only
      grows at its end, for callbacks that wait for each other, and
      [overlapping_ingestion_skips] that it fails for those that overlap.
      [refused_events_dead_lettered], [dual_failure_routing],
      [batch_worker_stops_only_when_cancelled] and [checkpoint_get_save] settle
      the remaining branches.
    - A batch does what its events say. [vault_state_refines]: under any failing
      database the handler commits all of its batch or nothing, and the whole is
      the fold of its events. [vault_accounting], [positions_balance],
      [holder_counts_exact], [protocol_stats_totals], [term_aggregates_books],
      [account_registry_times]: what the tables hold afterwards, in terms of the
      events. [shards_equal_whole] and [exactly_one_owner]: running the shards
      in any order equals running unsharded.
    - What is ingested. [dual_write_outcome], [ingestion_keeps_books],
      [handler_delivers], [numeric_ids_exact]: a batch of logs is stored whole or not at
      all, under one number in both of its tables, and every delivered log is there.
      [topic_hashes] computes the registered topics from the ABI; [indexed_logs_stored]
      goes from the logs the contract emits, through registration, decoder and callback,
      to the rows of both tables. [ingestion_start_up] says when the process comes to that, and
      [progress_measured_from_start] what its progress gauges show.
    - Two databases. [dual_vault_state_refines], [dual_success_keeps_agreement],
      [dual_holder_counts_exact], [core_write_order], [core_replay_converges],
      [core_graph_stays_linked], [atom_context_lossless]: how far each store may be
      behind the other, what a replay repairs, and ([dual_replay_drifts]) what it does
      not.
    - The graph. [projected_text_reads_back]: the text sent to SurrealDB reads back as the
      statements of the operations, and no event data leaves its literal.
      [raw_fallback_equivalent], [plan_matches_projections], [graph_balances],
      [surreal_batch_outcomes]; [atom_payload_retyped] is about the payloads the sink
      takes for its own markers.
    - The running service. [start_up], [config_reads_back], [pool_covers_budgets] and
      [workers_have_permits]: what the environment has to give for the service to run, and
      that it runs what the configuration says. [factories_rebuild] and
      [checkpoint_keys_distinct]: which workers there are, that a restart brings back the
      same one, and that none reads another's checkpoint. [supervised_workers_never_skip]
      is the invariant of the PostgreSQL worker for the vault-state workers of a service,
      with the handler they run, across restarts and crashes after any call: the checkpoint
      never passes an event no committed transaction has applied. A crash is a world in
      which the calls of the process stop (Crash), so the same lemmas are about runs that
      crash and runs that do not. [service_shards_equal_whole] and
      [both_vault_writers_count_twice] are about the vault tables under a whole
      configuration; [watchdog_spares_workers] and [exit_waits_for_all] about the tokens
      and the end of the process. [readiness_follows_workers]: what the readiness endpoint
      answers, however the reports of the workers overlap; [seeded_labels],
      [names_distinct] and [batch_lag_exact] are about the series and the lag gauges.
    - Timers. [refresh_brings_up_to_date], [account_pnl_books], [account_pnl_at_par],
      [daily_rollups_agree], [backfill_keeps_up], [refresh_is_for_today],
      [checkpoint_keys_kept], [rfm_scores_ranked], [partial_sweeps_agree],
      [segments_sound], [funnel_cycles_converge], [funnel_rows_backed]: what a cycle
      recomputes, that an interrupted one is resumed, and where it falls short of its
      description. [cycle_leaves_nothing_due] is about the user-activity cycle as a whole,
      [affinities_follow_changes], [affinities_capped], [change_between_is_lost] and
      [lost_checkpoint_counts_twice] about its fifth phase, [cohorts_count_weeks] about
      the sixth, and [recorded_sweep_not_repeated] about a classification that failed.
    - Replays and faults. [event_log_replay_safe] proves one projection
      idempotent; [replayed_batch_counts_twice], [replayed_signals_duplicate],
      [redeem_before_deposit_loses_debit], [marker_error_loses_batch] and
      [activity_marks_or_nothing] state
      precisely how others are not, or lose work.
    - Recovery machinery. [retry_settles], [circuit_rejection_is_exact],
      [circuit_trips_at_threshold], [circuit_breaker_safe],
      [failed_probes_stop_rejecting], [supervisor_restarts],
      [healthy_reset_window], [watchdog_detects_stalls],
      [watchdog_cancels_once_per_stall], [reconnect_is_exclusive]: termination,
      bounds, and the invariants of the state machines.
    - Events. [parse_or_unknown_lossless] and [parsed_event_round_trip].
    - Money. [offset_vault_redeemable], [linear_price_never_falls],
      [offset_rounding_favours_vault], [fee_round_trip_never_profits],
      [deposit_quote_balances]: every quote rounds in the vault's favour, no
      sequence of operations leaves shares a vault cannot pay, and no round trip
      earns.

    ** Fuel

    [poll_loop] takes the number of turns: a worker loops until it is cancelled,
    so the invariants hold for every number and [pg_worker_catches_up] gives a
    number that is enough, one turn per row of the log. The retry loops recurse
    on the list of their attempts, whose length is [max_retries], and the
    supervisor on the list of what the environment does in each turn. The backfill
    takes the number of days left ([backfill_keeps_up] shows that it never runs out),
    a list is cut into chunks with its length as fuel, and a prefix is
    trimmed as often as its text has characters. Everything else is
    structural recursion.

    ** What is assumed

    - [WorkerLaws]: reading runs the query on the log at some moment of the call,
      the log grows by rows with larger sequence numbers only, the checkpoint is
      what the last save stored (a failed one may have), and nothing else writes
      it. The theorems about one worker and any handler also assume [call_ok] of the
      handler: a batch that returned success is in the target. The handlers of the two
      markers are not of that kind ([marker_error_loses_batch]); for vault_state it is
      proved, from [CommitLaws]: a commit that reported success has taken effect. Errors
      are unrestricted.
    - [TxLaws]: a transaction takes effect at its commit only, a failed commit may
      or may not have taken effect, and nobody else writes the tables of the
      projection while its batch runs. [ReadLaws] adds that a query changes nothing and
      answers from the open transaction; [DualPoolLaws] and the laws of CoreEntities say
      the same of two databases and SurrealDB, whose calls leave each other alone.
    - Columns of amounts ([NUMERIC(78,0)], [BigDecimal] of [uint256]) are integers
      of unbounded size. The two divisions of amounts in [position_tracking.rs]
      are parameters, as are the order in which a [HashSet] is iterated
      ([HashOrder]), the [ahash] function, the big-integer square root of the [ruint]
      crate, the clock ([Clock]), how alloy prints addresses and hashes
      ([AlloyFormat]), how chrono prints dates ([DateText]), the defaults of columns an
      insert leaves out, and PostgreSQL's percentiles, logarithm and the order of
      rows with equal keys ([PgFunctions]). Sessions run in UTC.
    - The derived [serde] codecs of the records decode what they encoded (class
      [Codec]).
    - What answers a connection attempt at start-up is the class [Databases]; cancellation
      tokens are the class [CancellationTokens], whose laws say that a token is cancelled
      when it or an ancestor was, and which Coordinator implements with paths. The
      environment is a map from names to texts.
    - How the alloy crate decodes a log and reads a hash is the class [Alloy], with
      [AlloyLaws]: it decodes what the contract encoded and refuses a log of another
      topic. The manifest, the client and the indexing of rindexer are the class
      [Rindexer]; a callback is given what rindexer decoded with the decoder registered
      for the topic. A vector of Prometheus is a map from label values.
    - The client of SurrealDB and the timeouts around its calls are the class
      [SurrealClient], without laws.
    - [f64] is the binary64 of the Standard Library's [SpecFloat], rounding to nearest.
    - [float8] and [REAL] arithmetic of the database is a parameter ([Float8]), as are the advisory locks
      ([AdvisoryLocks]).
    - PostgreSQL aborts a transaction at the first failed statement and answers
      its [COMMIT] with a rollback that is not an error (LeaderboardMarker).

    Each theorem with such a hypothesis has a witness that applies it to a
    concrete instance.

    ** What is not modelled

    The workers and projections call the functions of Metrics, and nothing they do depends
    on it: the calls are left out of their models, and Readiness has them as a task's
    actions. Not modelled at all: logging and tracing, the text of the SQL statements (of
    SurrealQL it is modelled) and of the [/metrics] answer, [created_at]-like columns no
    statement reads, the signal handlers of the processes, the functions, errors and
    constructor of the contract's ABI and the result types of the events that are not
    indexed (nothing uses them), the sample indexer that code generation leaves beside the
    typings, [shared/src/locking.rs] (nothing calls it), test support, and the TypeScript
    services. *)

From stdpp Require Export base numbers list strings gmap sorting.
From Stdlib Require Export ZArith Lia.

#[global] Open Scope Z_scope.
#[global] Set Default Goal Selector "!".

(** ** Lists *)

Lemma filter_none {A} (P : A -> Prop) `{!forall x, Decision (P x)} (l : list A) :
  Forall (fun x => ~ P x) l -> filter P l = [].
Proof. induction 1; [done|]. by rewrite filter_cons_False. Qed.

Lemma filter_all {A} (P : A -> Prop) `{!forall x, Decision (P x)} (l : list A) :
  Forall P l -> filter P l = l.
Proof. induction 1; [done|]. rewrite filter_cons_True by done. by f_equal. Qed.

Lemma filter_ext_in {A} (P Q : A -> Prop) `{!forall x, Decision (P x), !forall x, Decision (Q x)}
    (l : list A) :
  (forall x, x ∈ l -> (P x <-> Q x)) -> filter P l = filter Q l.
Proof.
  induction l as [|x l IH]; intros HPQ; [done|].
  assert (Hx : P x <-> Q x) by (apply HPQ; left). rewrite !filter_cons.
  rewrite IH by (intros; apply HPQ; by right). repeat case_decide; tauto.
Qed.

Lemma filter_concat {A} (P : A -> Prop) `{!forall x, Decision (P x)} (ls : list (list A)) :
  filter P (concat ls) = concat (map (filter P) ls).
Proof. induction ls as [|l ls IH]; simpl; [done|]. by rewrite filter_app, IH. Qed.

(** ** Rust's [Result] *)

Inductive result (A E : Type) : Type :=
  | Ok (a : A)
  | Err (e : E).
Arguments Ok {A E} a.
Arguments Err {A E} e.

(** The [?] operator: continue with the payload of [Ok], return [Err] early. *)
Definition res_bind {A B E} (m : result A E) (k : A -> result B E) : result B E :=
  match m with
  | Ok a => k a
  | Err e => Err e
  end.

Definition ok_or {A E} (o : option A) (e : E) : result A E :=
  match o with Some a => Ok a | None => Err e end.

Definition is_ok {A E} (m : result A E) : bool :=
  match m with Ok _ => true | Err _ => false end.

Declare Scope rust_scope.
Delimit Scope rust_scope with rust.
#[global] Open Scope rust_scope.

Notation "'let?' x := m 'in' k" := (res_bind m (fun x => k))
  (at level 10, x name, m at level 100, k at level 200,
   format "'[v' 'let?'  x  :=  m  'in' '/' k ']'") : rust_scope.
Notation "'check?' m 'in' k" := (res_bind m (fun _ => k))
  (at level 10, m at level 100, k at level 200) : rust_scope.

Lemma res_bind_ok {A B E} (m : result A E) (k : A -> result B E) b :
  res_bind m k = Ok b <-> exists a, m = Ok a /\ k a = Ok b.
Proof.
  destruct m as [a|e]; simpl; [|split; [done|by intros (? & ? & ?)]].
  split; [eauto|by intros (? & [= ->] & ?)].
Qed.

Lemma res_bind_err {A B E} (m : result A E) (k : A -> result B E) e :
  res_bind m k = Err e <-> m = Err e \/ exists a, m = Ok a /\ k a = Err e.
Proof.
  destruct m as [a|e']; simpl.
  - split; [intros ?; right; by exists a|].
    intros [H|(? & H & ?)]; [discriminate H|]. injection H as <-. done.
  - split; [intros ?; left; congruence|]. intros [?|(? & H & ?)]; [congruence|discriminate H].
Qed.

Lemma ok_or_ok {A E} (o : option A) (e : E) a : ok_or o e = Ok a <-> o = Some a.
Proof. destruct o; simpl; naive_solver. Qed.

Lemma res_bind_intro {A B E} a (m : result A E) (k : A -> result B E) r :
  m = Ok a -> k a = r -> res_bind m k = r.
Proof. by intros -> <-. Qed.

(** Split every [let?] chain that is known to return [Ok]. *)
Ltac inv_res :=
  repeat match goal with
  | H : res_bind ?m ?k = Ok _ |- _ =>
      let a := fresh "r" in let Ha := fresh "Hr" in
      apply res_bind_ok in H as (a & Ha & H); cbv beta in H
  | H : ok_or _ _ = Ok _ |- _ => apply ok_or_ok in H
  | H : Ok _ = Ok _ |- _ => injection H as H
  | H : Err _ = Ok _ |- _ => discriminate H
  | H : Ok _ = Err _ |- _ => discriminate H
  | H : (if ?b then _ else _) = Ok _ |- _ =>
      lazymatch b with
      | Z.eqb ?x ?y => destruct (Z.eqb_spec x y)
      | Z.ltb ?x ?y => destruct (Z.ltb_spec x y)
      | Z.leb ?x ?y => destruct (Z.leb_spec x y)
      | _ => let E := fresh "E" in destruct b eqn:E
      end; try discriminate H
  | u : unit |- _ => destruct u
  end.

(** Filtering by a stronger predicate that drops one more element. *)
Lemma length_filter_le_impl {A} (P Q : A -> Prop) `{!forall x, Decision (P x)} `{!forall x, Decision (Q x)}
  (l : list A) : (forall x, Q x -> P x) -> (length (filter Q l) <= length (filter P l))%nat.
Proof.
  intros HQP. induction l as [|x l IH]; [done|]. rewrite !filter_cons.
  repeat case_decide; simpl; try lia; naive_solver.
Qed.

Lemma length_filter_lt_impl {A} (P Q : A -> Prop) `{!forall x, Decision (P x)} `{!forall x, Decision (Q x)}
  (l : list A) x : (forall x, Q x -> P x) -> x ∈ l -> P x -> ~ Q x ->
  (length (filter Q l) < length (filter P l))%nat.
Proof.
  intros HQP Hx HP HQ. induction Hx as [x l|y x l Hx IH].
  - rewrite (filter_cons_True P), (filter_cons_False Q) by done. simpl.
    pose proof (length_filter_le_impl P Q l HQP). lia.
  - specialize (IH HP HQ). rewrite !filter_cons. repeat case_decide; simpl; try lia; naive_solver.
Qed.

Lemma elem_of_concat {A} (x : A) (ls : list (list A)) :
  x ∈ concat ls <-> exists l, l ∈ ls /\ x ∈ l.
Proof.
  rewrite list_elem_of_In, in_concat.
  split; intros (l & ? & ?); exists l; by rewrite !list_elem_of_In in *.
Qed.

(** ** Strings *)

(** stdpp keeps [simpl] from unfolding [append]. *)
Lemma append_nil (s : string) : "" +:+ s = s.
Proof. done. Qed.

Lemma append_cons c (s t : string) : String c s +:+ t = String c (s +:+ t).
Proof. done. Qed.
