(* ===== verification/MachineInt.v ===== *)
(** * Machine integers

    The fixed-width arithmetic the Rust sources use, on [Z]: the ranges of
    [u32], [u64], [i32], [i64] and [U256], the checked, wrapping and saturating
    operations, and the rounding lemmas of integer division every numeric
    component shares. *)

From S2P Require Import Prelude.

Definition U32_MAX : Z := 2 ^ 32 - 1.
Definition U64_MAX : Z := 2 ^ 64 - 1.
Definition U256_MAX : Z := 2 ^ 256 - 1.
Definition I32_MAX : Z := 2 ^ 31 - 1.
Definition I64_MIN : Z := - 2 ^ 63.
Definition I64_MAX : Z := 2 ^ 63 - 1.
#[global] Arguments U32_MAX : simpl never.
#[global] Arguments U64_MAX : simpl never.
#[global] Arguments U256_MAX : simpl never.

Definition is_u32 (x : Z) : Prop := 0 <= x <= U32_MAX.
Definition is_u64 (x : Z) : Prop := 0 <= x <= U64_MAX.
Definition is_u256 (x : Z) : Prop := 0 <= x <= U256_MAX.

(** [+=] on a [u32] in a release build (overflow checks off). *)
Definition wrapping_add_u32 (x y : Z) : Z := (x + y) mod 2 ^ 32.
Definition saturating_add_u32 (x y : Z) : Z := Z.min (x + y) U32_MAX.

(** [u64]: [as u64] keeps the low 64 bits. *)
Definition as_u64 (x : Z) : Z := x mod 2 ^ 64.
Definition wrapping_add_u64 (x y : Z) : Z := as_u64 (x + y).
Definition wrapping_mul_u64 (x y : Z) : Z := as_u64 (x * y).
Definition saturating_mul_u64 (x y : Z) : Z := Z.min (x * y) U64_MAX.

(** [U256::checked_add] and [U256::checked_sub]. *)
Definition checked_add (a b : Z) : option Z :=
  if U256_MAX <? a + b then None else Some (a + b).
Definition checked_sub (a b : Z) : option Z :=
  if a <? b then None else Some (a - b).

(** Division rounded up, as [q + (r != 0)]. *)
Definition ceil_div (a b : Z) : Z :=
  let q := a / b in
  let r := a mod b in
  if r =? 0 then q else q + 1.

Lemma U32_MAX_pos : 0 < U32_MAX.
Proof. done. Qed.
Lemma U64_MAX_pos : 0 < U64_MAX.
Proof. done. Qed.
Lemma U256_MAX_pos : 0 < U256_MAX.
Proof. done. Qed.

Lemma checked_add_some a b s :
  checked_add a b = Some s <-> s = a + b /\ a + b <= U256_MAX.
Proof. unfold checked_add. destruct (Z.ltb_spec U256_MAX (a + b)); naive_solver lia. Qed.

Lemma checked_sub_some a b d : checked_sub a b = Some d <-> d = a - b /\ b <= a.
Proof. unfold checked_sub. destruct (Z.ltb_spec a b); naive_solver lia. Qed.

Lemma div_spec a b : 0 < b -> a / b * b <= a < (a / b + 1) * b.
Proof.
  intros Hb. pose proof (Z.mul_div_le a b Hb). pose proof (Z.mul_succ_div_gt a b Hb). nia.
Qed.

Lemma div_ge a b q : 0 < b -> q * b <= a -> q <= a / b.
Proof. intros Hb Hq. apply Z.div_le_lower_bound; lia. Qed.

Lemma ceil_div_spec a b : 0 < b -> (ceil_div a b - 1) * b < a <= ceil_div a b * b.
Proof.
  intros Hb. unfold ceil_div. pose proof (div_spec a b Hb) as Hd.
  pose proof (Z.div_mod a b ltac:(lia)) as Hm.
  pose proof (Z.mod_pos_bound a b Hb).
  destruct (Z.eqb_spec (a mod b) 0); nia.
Qed.

Lemma ceil_div_bounds a b : 0 < b -> a / b <= ceil_div a b <= a / b + 1.
Proof. intros. unfold ceil_div. destruct (_ =? _); lia. Qed.

Lemma ceil_div_nonneg a b : 0 < b -> 0 <= a -> 0 <= ceil_div a b.
Proof. intros Hb Ha. pose proof (Z.div_pos a b Ha Hb). pose proof (ceil_div_bounds a b Hb). lia. Qed.

Lemma ceil_div_mono a a' b : 0 < b -> a <= a' -> ceil_div a b <= ceil_div a' b.
Proof. intros Hb Ha. pose proof (ceil_div_spec a b Hb). pose proof (ceil_div_spec a' b Hb). nia. Qed.

Lemma as_u64_range x : is_u64 (as_u64 x).
Proof. unfold is_u64, as_u64, U64_MAX. pose proof (Z.mod_pos_bound x (2 ^ 64)). lia. Qed.

Lemma saturating_add_u32_range x y : is_u32 x -> 0 <= y -> is_u32 (saturating_add_u32 x y).
Proof. unfold is_u32, saturating_add_u32. pose proof U32_MAX_pos. lia. Qed.

Create HintDb mint discriminated.
#[export] Hint Resolve U32_MAX_pos U64_MAX_pos U256_MAX_pos as_u64_range : mint.
