(* ===== verification/Binary64.v ===== *)
(** * The [f64] of the gauges

    Prometheus gauges hold an [f64]. Its arithmetic is the binary64 of the Standard
    Library's [SpecFloat], which computes; the conversions and comparisons the
    metrics use, and the lemmas that say when they are exact. *)

From Stdlib Require Import Floats.SpecFloat.
From S2P Require Import Prelude MachineInt.

Abbreviation f64 := spec_float.

(** [n as f64] *)
Definition f64_of (n : Z) : f64 := binary_normalize 53 1024 n 0 false.

Definition f64_sub : f64 -> f64 -> f64 := SFsub 53 1024.
Definition f64_mul : f64 -> f64 -> f64 := SFmul 53 1024.
Definition f64_div : f64 -> f64 -> f64 := SFdiv 53 1024.

(** [f64::max], [f64::min] and [f64::clamp]: the first two prefer a number to a NaN. *)
Definition f64_max (x y : f64) : f64 :=
  match x with S754_nan => y | _ => if SFltb x y then y else x end.
Definition f64_min (x y : f64) : f64 :=
  match x with S754_nan => y | _ => if SFltb y x then y else x end.
Definition f64_clamp (x lo hi : f64) : f64 :=
  let x := if SFltb x lo then lo else x in
  if SFltb hi x then hi else x.

(** [(a as f64 / b as f64) * 100.0] *)
Definition percent (a b : f64) : f64 := f64_mul (f64_div a b) (f64_of 100).

(** ** Rounding

    Round to nearest, ties to even, of [m / d]. *)
Definition rne (m d : Z) : Z :=
  let q := m / d in
  match Z.compare (2 * (m mod d)) d with
  | Lt => q
  | Gt => q + 1
  | Eq => if Z.even q then q else q + 1
  end.

Lemma rne_bounds m d : m / d <= rne m d <= m / d + 1.
Proof. unfold rne. repeat case_match; lia. Qed.

Lemma rne_exact k d : 0 < d -> rne (k * d) d = k.
Proof.
  intros Hd. unfold rne. rewrite Z.div_mul, Z.mod_mul by lia. destruct (Z.compare_spec (2 * 0) d); lia.
Qed.

Lemma digits2_pos_spec p : 2 ^ (Z.pos (digits2_pos p) - 1) <= Z.pos p < 2 ^ Z.pos (digits2_pos p).
Proof.
  induction p as [p IH|p IH|]; cbn [digits2_pos]; [| |done];
    rewrite Pos2Z.inj_succ; replace (Z.succ (Z.pos (digits2_pos p)) - 1) with (Z.pos (digits2_pos p)) by lia;
    rewrite Z.pow_succ_r by lia;
    replace (2 ^ Z.pos (digits2_pos p)) with (2 * 2 ^ (Z.pos (digits2_pos p) - 1)) in *
      by (rewrite <- Z.pow_succ_r by lia; f_equal; lia); lia.
Qed.

Lemma digits_spec m : 0 < m -> 0 < Zdigits2 m /\ 2 ^ (Zdigits2 m - 1) <= m < 2 ^ Zdigits2 m.
Proof. intros Hm. destruct m as [|p|p]; try lia. split; [done|]. apply digits2_pos_spec. Qed.

Lemma digits_unique d m : 0 < d -> 2 ^ (d - 1) <= m < 2 ^ d -> Zdigits2 m = d.
Proof.
  intros Hd Hm. assert (0 < 2 ^ (d - 1)) by (apply Z.pow_pos_nonneg; lia).
  destruct (digits_spec m ltac:(lia)) as [H0 Hs].
  destruct (Z.lt_trichotomy (Zdigits2 m) d) as [Hlt|[?|Hlt]]; [|done|].
  - assert (2 ^ Zdigits2 m <= 2 ^ (d - 1)) by (apply Z.pow_le_mono_r; lia). lia.
  - assert (2 ^ d <= 2 ^ (Zdigits2 m - 1)) by (apply Z.pow_le_mono_r; lia). lia.
Qed.

(** A shift record that holds [m0 / d]: its quotient, and where the rest lies. *)
Record shifted (m0 d : Z) (mrs : shr_record) (rest : Z) : Prop := {
  sh_quot : m0 = shr_m mrs * d + rest;
  sh_pos : 0 <= shr_m mrs;
  sh_rest : 0 <= rest < d;
  sh_loc : Z.compare (2 * rest) d =
    (if shr_r mrs then if shr_s mrs then Gt else Eq else Lt);
  sh_exact : rest = 0 <-> shr_r mrs = false /\ shr_s mrs = false
}.

Lemma shr_1_parts mrs : 0 <= shr_m mrs ->
  shr_m mrs = 2 * shr_m (shr_1 mrs) + Z.b2z (shr_r (shr_1 mrs)) /\ 0 <= shr_m (shr_1 mrs) /\
  shr_s (shr_1 mrs) = (shr_r mrs || shr_s mrs)%bool.
Proof. destruct mrs as [[|[p|p|]|p] r s]; cbn; intros Hm; split_and!; try done; lia. Qed.

Lemma shifted_step m0 d mrs rest : shifted m0 d mrs rest ->
  shifted m0 (2 * d) (shr_1 mrs) (Z.b2z (shr_r (shr_1 mrs)) * d + rest).
Proof.
  intros [Hq Hp Hr Hl He]. destruct (shr_1_parts mrs Hp) as (Hm & Hp' & Hs). rewrite Hm in Hq.
  destruct (shr_1 mrs) as [m' r' s']. cbn [shr_m shr_r shr_s] in *. subst s'.
  split; cbn [shr_m shr_r shr_s]; [destruct r'; cbn [Z.b2z] in *; lia|done|destruct r'; cbn [Z.b2z]; lia| |].
  - destruct (Z.compare_spec (2 * rest) d), (Z.compare_spec (2 * (Z.b2z r' * d + rest)) (2 * d)),
      r', (shr_r mrs), (shr_s mrs); cbn [Z.b2z orb] in *; try done; naive_solver lia.
  - destruct r', (shr_r mrs), (shr_s mrs); cbn [Z.b2z orb] in *; naive_solver lia.
Qed.

Lemma iter_pos_nat {A} (f : A -> A) p x : SpecFloat.iter_pos f p x = Nat.iter (Pos.to_nat p) f x.
Proof.
  revert x. induction p as [p IH|p IH|]; intros x; cbn [SpecFloat.iter_pos]; [| |done].
  - rewrite !IH, <- Nat.iter_add. rewrite Pos2Nat.inj_xI.
    replace (S (2 * Pos.to_nat p)) with ((Pos.to_nat p + Pos.to_nat p) + 1)%nat by lia.
    by rewrite (Nat.iter_add (Pos.to_nat p + Pos.to_nat p) 1).
  - rewrite !IH, <- Nat.iter_add. f_equal. lia.
Qed.

Lemma shr_shifted m0 d mrs rest e n : shifted m0 d mrs rest -> 0 <= n ->
  exists mrs' rest', shr mrs e n = (mrs', e + n) /\ shifted m0 (d * 2 ^ n) mrs' rest'.
Proof.
  intros Hs Hn. unfold shr. destruct n as [|p|p]; [exists mrs, rest; by rewrite Z.add_0_r, Z.mul_1_r| |lia].
  rewrite iter_pos_nat, <- (positive_nat_Z p).
  induction (Pos.to_nat p) as [|k (mrs' & rest' & [= E] & Hk)];
    [exists mrs, rest; split; [f_equal; lia|by rewrite Z.mul_1_r]|].
  eexists (shr_1 mrs'), _. rewrite Nat2Z.inj_succ, Z.pow_succ_r by lia. split; [by rewrite <- E|].
  replace (d * (2 * 2 ^ Z.of_nat k)) with (2 * (d * 2 ^ Z.of_nat k)) by lia. by apply shifted_step.
Qed.

Lemma shifted_rne m0 d mrs rest : shifted m0 d mrs rest ->
  shr_m mrs = m0 / d /\ round_nearest_even (shr_m mrs) (loc_of_shr_record mrs) = rne m0 d.
Proof.
  intros [Hq Hp Hr Hl He].
  assert (Hdiv : shr_m mrs = m0 / d) by (apply Z.div_unique with rest; lia).
  assert (Hmod : rest = m0 mod d) by (apply Z.mod_unique with (shr_m mrs); lia).
  split; [done|]. unfold rne. rewrite <- Hmod, <- Hdiv, Hl.
  destruct mrs as [m [] []]; cbn [shr_m shr_r shr_s] in *; try done.
Qed.

Lemma shifted_start m : 0 <= m -> shifted m 1 (shr_record_of_loc m loc_Exact) 0.
Proof. intros Hm. by split; cbn; try lia. Qed.

(** [SpecFloat] is stated with the core library's integers. *)
Ltac stdlib_z :=
  change IntDef.Z.even with Z.even in *; change IntDef.Z.eqb with Z.eqb in *;
  change IntDef.Z.compare with Z.compare in *; change IntDef.Z.mul with Z.mul in *;
  change IntDef.Z.add with Z.add in *; change IntDef.Z.sub with Z.sub in *; change IntDef.Z.max with Z.max in *;
  change IntDef.Z.min with Z.min in *; change IntDef.Z.leb with Z.leb in *;
  change IntDef.Z.div_eucl with Z.div_eucl in *; change IntDef.Z.shiftl with Z.shiftl in *;
  change PosDef.Pos.mul with Pos.mul in *; change IntDef.Z.opp with Z.opp in *.

Lemma shifted_division m d : 0 <= m -> 0 < d ->
  shifted m d (shr_record_of_loc (m / d) (new_location d (m mod d))) (m mod d).
Proof.
  intros Hm Hd. pose proof (Z.mod_pos_bound m d Hd). pose proof (Z.div_mod m d ltac:(lia)).
  assert (0 <= m / d) by (apply Z.div_pos; lia).
  assert (Hodd : Z.even d = false -> 2 * (m mod d) <> d).
  { intros Hev E. rewrite <- E, Z.even_mul in Hev. done. }
  unfold new_location, new_location_even, new_location_odd. stdlib_z.
  destruct (Z.even d); cbn beta; destruct (Z.eqb_spec (m mod d) 0) as [E|E],
    (Z.compare_spec (2 * (m mod d)) d), (Z.compare_spec (2 * (m mod d) + 1) d);
    cbn [shr_record_of_loc]; (split; cbn [shr_m shr_r shr_s]; [lia..| |naive_solver lia]);
    first [apply Z.compare_lt_iff; lia|apply Z.compare_eq_iff; lia|apply Z.compare_gt_iff; lia|specialize (Hodd eq_refl); lia].
Qed.

(** ** Normal numbers

    The nonnegative numbers of 53 digits, and the result of rounding to them; a carry
    moves to the next exponent. *)
Definition normal (m e : Z) : Prop := 2 ^ 52 <= m < 2 ^ 53 /\ -1074 <= e <= 971.
Definition fin (m e : Z) : f64 := S754_finite false (Z.to_pos m) e.
Definition carried (m e : Z) : f64 := if m =? 2 ^ 53 then fin (2 ^ 52) (e + 1) else fin m e.

Lemma normal_fexp m e : 2 ^ 52 <= m < 2 ^ 53 -> -1074 <= e -> fexp 53 1024 (Zdigits2 m + e) = e.
Proof.
  intros Hm He. rewrite (digits_unique 53 m) by lia. unfold fexp, emin. stdlib_z. lia.
Qed.

(** What [binary_round_aux] makes of a quotient [m0 / d], [q] of it and the location
    of the rest being known. *)
Lemma round_division m0 d q loc e k :
  0 <= m0 -> 0 < d -> 0 <= k ->
  shifted m0 d (shr_record_of_loc q loc) (m0 mod d) -> 2 ^ (52 + k) <= q < 2 ^ (53 + k) -> -1074 <= e + k <= 970 ->
  binary_round_aux 53 1024 false q e loc = carried (rne m0 (d * 2 ^ k)) (e + k).
Proof.
  intros Hm0 Hd Hk Hs Hq He. unfold binary_round_aux, shr_fexp at 1. stdlib_z.
  assert (Hdig : Zdigits2 q = 53 + k).
  { apply digits_unique; [lia|]. by replace (53 + k - 1) with (52 + k) by lia. }
  assert (Hf : fexp 53 1024 (Zdigits2 q + e) = e + k) by (rewrite Hdig; unfold fexp, emin; stdlib_z; lia).
  rewrite Hf. replace (e + k - e) with k by lia.
  destruct (shr_shifted m0 d _ _ e k Hs Hk) as (mrs & rest & -> & Hs').
  assert (Hdk : 0 < 2 ^ k) by (by apply Z.pow_pos_nonneg).
  destruct (shifted_rne _ _ _ _ Hs') as [Hq' ->].
  assert (Hquot : q = m0 / d).
  { destruct Hs as [Hquot Hpos Hrest _ _]. apply Z.div_unique with (m0 mod d); [lia|].
    destruct loc as [|[]]; cbn in Hquot; lia. }
  assert (Hb : 2 ^ 52 <= m0 / (d * 2 ^ k) < 2 ^ 53).
  { rewrite <- Z.div_div, <- Hquot by lia. rewrite !Z.pow_add_r in Hq by lia.
    split; [apply Z.div_le_lower_bound; lia|apply Z.div_lt_upper_bound; lia]. }
  pose proof (rne_bounds m0 (d * 2 ^ k)) as Hr. set (r := rne m0 (d * 2 ^ k)) in *.
  assert (Hcases : r = 2 ^ 53 \/ 2 ^ 52 <= r < 2 ^ 53) by lia.
  unfold shr_fexp, carried, fin. stdlib_z. destruct Hcases as [->|Hn].
  - vm_compute (Zdigits2 (2 ^ 53)). rewrite Z.eqb_refl.
    replace (fexp 53 1024 (54 + (e + k)) - (e + k)) with 1 by (unfold fexp, emin; stdlib_z; lia).
    cbn [shr]. stdlib_z. vm_compute (SpecFloat.iter_pos shr_1 1 _). cbn [shr_m].
    destruct (Z.leb_spec (e + k + 1) (1024 - 53)); [done|lia].
  - rewrite normal_fexp by lia. replace (e + k - (e + k)) with 0 by lia. cbn [shr shr_record_of_loc shr_m].
    destruct (Z.eqb_spec r (2 ^ 53)); [lia|]. destruct r as [|p|p] eqn:E; [lia| |lia].
    destruct (Z.leb_spec (e + k) (1024 - 53)); [done|lia].
Qed.

(** ** Integers below 2^53 are exact *)

Definition exponent (n : Z) : Z := Zdigits2 n - 53.
Definition mantissa (n : Z) : Z := n * 2 ^ (- exponent n).

Lemma exponent_bounds n : 0 < n < 2 ^ 53 -> -52 <= exponent n <= 0.
Proof.
  intros Hn. unfold exponent. destruct (digits_spec n ltac:(lia)) as [H0 Hs].
  destruct (Z.le_gt_cases (Zdigits2 n) 53) as [?|Hgt]; [lia|].
  assert (2 ^ 53 <= 2 ^ (Zdigits2 n - 1)) by (apply Z.pow_le_mono_r; lia). lia.
Qed.

Lemma mantissa_bounds n : 0 < n < 2 ^ 53 -> 2 ^ 52 <= mantissa n < 2 ^ 53.
Proof.
  intros Hn. pose proof (exponent_bounds n Hn) as He. unfold mantissa, exponent in *.
  destruct (digits_spec n ltac:(lia)) as [H0 [Hl Hu]].
  replace 52 with ((Zdigits2 n - 1) + (- (Zdigits2 n - 53))) by lia.
  replace 53 with (Zdigits2 n + (- (Zdigits2 n - 53))) at 4 by lia.
  rewrite !Z.pow_add_r by lia. assert (0 < 2 ^ (- (Zdigits2 n - 53))) by (apply Z.pow_pos_nonneg; lia). nia.
Qed.

Lemma iter_xO p k : Z.pos (Pos.iter xO p k) = Z.pos p * 2 ^ Z.pos k.
Proof.
  induction k as [|k IH] using Pos.peano_ind; [cbn; lia|].
  rewrite Pos.iter_succ, Pos2Z.inj_succ, Z.pow_succ_r by lia. lia.
Qed.

Lemma f64_of_normal n : 0 < n < 2 ^ 53 -> f64_of n = fin (mantissa n) (exponent n).
Proof.
  intros Hn. pose proof (exponent_bounds n Hn) as He. pose proof (mantissa_bounds n Hn) as Hm.
  destruct n as [|p|p]; try lia. unfold f64_of, binary_normalize, binary_round. stdlib_z.
  assert (Hf : fexp 53 1024 (Z.pos (digits2_pos p) + 0) = exponent (Z.pos p)).
  { unfold exponent, fexp, emin in *. cbn [Zdigits2] in *. stdlib_z. lia. }
  rewrite Hf. unfold shl_align. stdlib_z. rewrite Z.sub_0_r.
  assert (Hgo : forall q, Z.pos q = mantissa (Z.pos p) ->
    binary_round_aux 53 1024 false (Z.pos q) (exponent (Z.pos p)) loc_Exact = fin (mantissa (Z.pos p)) (exponent (Z.pos p))).
  { intros q Hq. rewrite (round_division (Z.pos q) 1 _ _ _ 0); try lia.
    - rewrite Z.add_0_r, <- (Z.mul_1_r (Z.pos q)), rne_exact, Hq by lia. unfold carried.
      destruct (Z.eqb_spec (mantissa (Z.pos p)) (2 ^ 53)); [lia|done].
    - rewrite Z.mod_1_r. by apply shifted_start. }
  destruct (exponent (Z.pos p)) as [|k|k] eqn:E; [|lia|]; rewrite <- E in *; cbn [Z.opp] in *; apply Hgo.
  - unfold mantissa. rewrite E. cbn [Z.opp]. lia.
  - rewrite iter_xO. unfold mantissa. by rewrite E.
Qed.

Lemma fin_ltb m1 e1 m2 e2 : 0 < m1 -> 0 < m2 ->
  SFltb (fin m1 e1) (fin m2 e2) = (e1 <? e2) || ((e1 =? e2) && (m1 <? m2)).
Proof.
  intros H1 H2. unfold fin, SFltb, SFcompare. stdlib_z.
  destruct (Z.compare_spec e1 e2), (Z.ltb_spec e1 e2), (Z.eqb_spec e1 e2); try lia; try done.
  change (PosDef.Pos.compare_cont Eq (Z.to_pos m1) (Z.to_pos m2)) with (Pos.compare (Z.to_pos m1) (Z.to_pos m2)).
  cbn [orb andb]. destruct (Pos.compare_spec (Z.to_pos m1) (Z.to_pos m2)), (Z.ltb_spec m1 m2); try done; lia.
Qed.

(** The exponent decides first, then the mantissa. *)
Lemma exponent_order a b : 0 < a < 2 ^ 53 -> 0 < b < 2 ^ 53 ->
  a < b <-> exponent a < exponent b \/ (exponent a = exponent b /\ mantissa a < mantissa b).
Proof.
  intros Ha Hb. unfold mantissa, exponent.
  destruct (digits_spec a ltac:(lia)) as [Ha0 [Hal Hau]], (digits_spec b ltac:(lia)) as [Hb0 [Hbl Hbu]].
  destruct (Z.lt_trichotomy (Zdigits2 a) (Zdigits2 b)) as [H|[H|H]].
  - assert (2 ^ Zdigits2 a <= 2 ^ (Zdigits2 b - 1)) by (apply Z.pow_le_mono_r; lia). lia.
  - rewrite H. pose proof (exponent_bounds b Hb). unfold exponent in *.
    assert (0 < 2 ^ (- (Zdigits2 b - 53))) by (apply Z.pow_pos_nonneg; lia). nia.
  - assert (2 ^ Zdigits2 b <= 2 ^ (Zdigits2 a - 1)) by (apply Z.pow_le_mono_r; lia). lia.
Qed.

Lemma f64_of_ltb a b : 0 <= a < 2 ^ 53 -> 0 <= b < 2 ^ 53 -> SFltb (f64_of a) (f64_of b) = (a <? b).
Proof.
  intros Ha Hb. destruct (Z.eq_dec a 0) as [->|Ha0], (Z.eq_dec b 0) as [->|Hb0]; [done|..].
  - rewrite (f64_of_normal b) by lia. by destruct (Z.ltb_spec 0 b); [|lia].
  - rewrite (f64_of_normal a) by lia. by destruct (Z.ltb_spec a 0); [lia|].
  - rewrite !f64_of_normal by lia. pose proof (mantissa_bounds a). pose proof (mantissa_bounds b).
    rewrite fin_ltb by lia. pose proof (exponent_order a b ltac:(lia) ltac:(lia)) as Ho.
    destruct (Z.ltb_spec a b), (Z.ltb_spec (exponent a) (exponent b)), (Z.eqb_spec (exponent a) (exponent b)),
      (Z.ltb_spec (mantissa a) (mantissa b)); try done; cbn; lia.
Qed.

Lemma normalize_scaled n k : 0 <= n < 2 ^ 53 -> 0 <= k <= 52 ->
  binary_normalize 53 1024 (n * 2 ^ k) (- k) false = f64_of n.
Proof.
  intros Hn Hk. destruct (Z.eq_dec n 0) as [->|Hn0]; [done|]. rewrite f64_of_normal by lia.
  pose proof (exponent_bounds n ltac:(lia)) as He. pose proof (mantissa_bounds n ltac:(lia)) as Hm.
  destruct (digits_spec n ltac:(lia)) as [Hd0 Hds]. assert (Hk0 : 0 < 2 ^ k) by (apply Z.pow_pos_nonneg; lia).
  assert (Hd : Zdigits2 (n * 2 ^ k) = Zdigits2 n + k).
  { apply digits_unique; [lia|]. replace (Zdigits2 n + k - 1) with ((Zdigits2 n - 1) + k) by lia.
    rewrite !Z.pow_add_r by lia. nia. }
  destruct (n * 2 ^ k) as [|p|p] eqn:E; [lia| |nia]. unfold binary_normalize, binary_round. stdlib_z.
  assert (Hf : fexp 53 1024 (Z.pos (digits2_pos p) + - k) = exponent n).
  { unfold exponent, fexp, emin in *. cbn [Zdigits2] in Hd. rewrite Hd. stdlib_z. lia. }
  rewrite Hf. unfold shl_align. stdlib_z. assert (Hround : forall q k', 0 <= k' -> Z.pos q = mantissa n * 2 ^ k' ->
    binary_round_aux 53 1024 false (Z.pos q) (exponent n - k') loc_Exact = fin (mantissa n) (exponent n)).
  { intros q k' Hk' Hq. assert (0 < 2 ^ k') by (apply Z.pow_pos_nonneg; lia).
    rewrite (round_division (Z.pos q) 1 _ _ _ k'); try lia.
    - rewrite Z.mul_1_l, Hq, rne_exact, Z.sub_add by done. unfold carried.
      destruct (Z.eqb_spec (mantissa n) (2 ^ 53)); [lia|done].
    - rewrite Z.mod_1_r. by apply shifted_start.
    - rewrite Hq, !Z.pow_add_r by lia. nia. }
  destruct (exponent n - - k) as [|s|s] eqn:Es.
  - replace (- k) with (exponent n - 0) by lia. apply Hround; [lia|]. rewrite <- E. unfold mantissa.
    replace (- exponent n) with k by lia. lia.
  - replace (- k) with (exponent n - Z.pos s) by lia. apply Hround; [lia|]. rewrite <- E. unfold mantissa.
    rewrite <- Z.mul_assoc, <- Z.pow_add_r by lia. do 2 f_equal. lia.
  - replace (exponent n) with (exponent n - 0) at 1 by lia. apply Hround; [lia|]. rewrite iter_xO, <- E. unfold mantissa.
    rewrite <- Z.mul_assoc, <- Z.pow_add_r by lia. rewrite Z.mul_1_r. do 2 f_equal. lia.
Qed.

Lemma shl_align_value m e ez : 0 < m -> ez <= e -> Z.pos (fst (shl_align (Z.to_pos m) e ez)) = m * 2 ^ (e - ez).
Proof.
  intros Hm He. unfold shl_align. stdlib_z. destruct (ez - e) as [|s|s] eqn:E; [|lia|]; cbn [fst].
  - replace (e - ez) with 0 by lia. lia.
  - rewrite iter_xO, Z2Pos.id by lia. by replace (e - ez) with (Z.pos s) by lia.
Qed.

Lemma f64_of_sub a b : 0 <= b <= a -> a < 2 ^ 53 -> f64_sub (f64_of a) (f64_of b) = f64_of (a - b).
Proof.
  intros Hb Ha. destruct (Z.eq_dec b 0) as [->|Hb0].
  { rewrite Z.sub_0_r. destruct (Z.eq_dec a 0) as [->|Ha0]; [done|]. by rewrite f64_of_normal by lia. }
  rewrite (f64_of_normal a), (f64_of_normal b) by lia. unfold f64_sub, fin, SFsub. cbn [cond_Zopp]. stdlib_z.
  pose proof (exponent_bounds a ltac:(lia)). pose proof (exponent_bounds b ltac:(lia)).
  pose proof (mantissa_bounds a ltac:(lia)). pose proof (mantissa_bounds b ltac:(lia)).
  assert (Hle : exponent b <= exponent a).
  { destruct (Z.eq_dec a b) as [->|Hne]; [lia|]. pose proof (exponent_order b a). lia. }
  rewrite Z.min_r by lia. rewrite !shl_align_value by lia.
  rewrite Z.sub_diag, Z.mul_1_r. rewrite <- (normalize_scaled (a - b) (- exponent b)) by lia. rewrite Z.opp_involutive. f_equal.
  unfold mantissa. rewrite <- Z.mul_assoc, <- Z.pow_add_r by lia.
  replace (- exponent a + (exponent a - exponent b)) with (- exponent b) by lia. lia.
Qed.

(** ** A percentage reaches 100 exactly when the whole is done *)

Lemma carried_normal m e : 2 ^ 52 <= m <= 2 ^ 53 -> exists m' e', carried m e = fin m' e' /\ 2 ^ 52 <= m' < 2 ^ 53 /\
  (m < 2 ^ 53 /\ m' = m /\ e' = e \/ m = 2 ^ 53 /\ m' = 2 ^ 52 /\ e' = e + 1).
Proof. intros Hm. unfold carried. destruct (Z.eqb_spec m (2 ^ 53)); eexists _, _; split; try done; lia. Qed.

Lemma rne_below m d : 0 < d -> 2 * (m mod d) < d -> rne m d = m / d.
Proof. intros Hd Hm. unfold rne. destruct (Z.compare_spec (2 * (m mod d)) d); lia. Qed.

Lemma div_eucl_eq a b : Z.div_eucl a b = (a / b, a mod b).
Proof. unfold Z.div, Z.modulo. by destruct (Z.div_eucl a b). Qed.

(** Dividing two mantissas: one more digit when the first is not smaller. *)
Lemma mantissa_quotient ma mb :
  2 ^ 52 <= ma < 2 ^ 53 -> 2 ^ 52 <= mb < 2 ^ 53 ->
  let k := if mb <=? ma then 1 else 0 in
  2 ^ (52 + k) <= ma * 2 ^ 53 / mb < 2 ^ (53 + k) /\ 2 ^ 52 <= ma * 2 ^ 53 / (mb * 2 ^ k) < 2 ^ 53.
Proof.
  intros Ha Hb. destruct (Z.leb_spec mb ma); cbn zeta; cbn [Z.add]; split; split;
    first [apply Z.div_le_lower_bound; lia|apply Z.div_lt_upper_bound; lia].
Qed.

(** The quotient of two such integers is at least one exactly when it should be. *)
Lemma div_normal a b : 0 < a < 2 ^ 53 -> 0 < b < 2 ^ 53 ->
  exists m e, f64_div (f64_of a) (f64_of b) = fin m e /\ 2 ^ 52 <= m < 2 ^ 53 /\ -110 <= e <= 53 /\ (b <= a <-> -52 <= e).
Proof.
  intros Ha Hb. rewrite !f64_of_normal by done.
  pose proof (exponent_bounds a Ha) as Hea. pose proof (exponent_bounds b Hb) as Heb.
  pose proof (mantissa_bounds a Ha) as Hma. pose proof (mantissa_bounds b Hb) as Hmb.
  pose proof (exponent_order a b Ha Hb) as Ho.
  assert (Hgap : a < b -> exponent a + 1 = exponent b -> mantissa a <= 2 * mantissa b - 2).
  { intros Hlt He. unfold mantissa. replace (- exponent a) with (- exponent b + 1) by lia.
    rewrite Z.pow_add_r by lia. assert (0 < 2 ^ (- exponent b)) by (apply Z.pow_pos_nonneg; lia). nia. }
  set (ma := mantissa a) in *. set (mb := mantissa b) in *. set (ea := exponent a) in *. set (eb := exponent b) in *.
  unfold f64_div, fin, SFdiv, SFdiv_core_binary. rewrite !Z2Pos.id by lia. stdlib_z. cbn [xorb].
  rewrite (digits_unique 53 ma), (digits_unique 53 mb) by lia.
  assert (He' : Z.min (fexp 53 1024 (53 + ea - (53 + eb))) (ea - eb) = ea - eb - 53) by (unfold fexp, emin; stdlib_z; lia).
  rewrite He'. replace (ea - eb - (ea - eb - 53)) with 53 by lia. cbn iota.
  rewrite div_eucl_eq, Z.shiftl_mul_pow2 by lia.
  destruct (mantissa_quotient ma mb Hma Hmb) as [Hq Hr]. set (k := if mb <=? ma then 1 else 0) in *.
  assert (Hk : 0 <= k <= 1) by (unfold k; destruct (Z.leb_spec mb ma); lia).
  rewrite (round_division (ma * 2 ^ 53) mb _ _ _ k); try lia; [|apply shifted_division; lia].
  pose proof (rne_bounds (ma * 2 ^ 53) (mb * 2 ^ k)) as Hrne.
  assert (Hsmall : ma * 2 ^ 53 < mb * 2 ^ k * (2 ^ 53 - 1) -> rne (ma * 2 ^ 53) (mb * 2 ^ k) < 2 ^ 53).
  { intros Hlt. apply Z.div_lt_upper_bound in Hlt; [lia|]. assert (0 < 2 ^ k) by (apply Z.pow_pos_nonneg; lia). lia. }
  destruct (carried_normal (rne (ma * 2 ^ 53) (mb * 2 ^ k)) (ea - eb - 53 + k) ltac:(lia)) as (m & e & -> & Hm & Hcase).
  exists m, e. split; [done|]. split; [done|]. unfold k in *. clear k Hr Hq.
  destruct (Z.leb_spec mb ma) as [Hle|Hlt]; cbn [Z.pow] in *; lia.
Qed.

Lemma hundred : f64_of 100 = fin 7036874417766400 (-46).
Proof. vm_compute. reflexivity. Qed.

Lemma mul_fin m1 e1 m2 e2 : 0 < m1 -> 0 < m2 ->
  f64_mul (fin m1 e1) (fin m2 e2) = binary_round_aux 53 1024 false (m1 * m2) (e1 + e2) loc_Exact.
Proof.
  intros H1 H2. unfold f64_mul, fin, SFmul. stdlib_z. cbn [xorb]. by rewrite Pos2Z.inj_mul, !Z2Pos.id by lia.
Qed.

Lemma mul_hundred m e : 2 ^ 52 <= m < 2 ^ 53 -> -110 <= e <= 53 ->
  exists m' e', f64_mul (fin m e) (f64_of 100) = fin m' e' /\ 2 ^ 52 <= m' < 2 ^ 53 /\
    (SFltb (fin m' e') (f64_of 100) = true <-> e < -52).
Proof.
  intros Hm He. rewrite hundred. set (h := 7036874417766400).
  rewrite mul_fin by (unfold h; lia). set (k := if m * h <? 2 ^ 105 then 52 else 53).
  assert (Hk : 52 <= k <= 53 /\ 2 ^ (52 + k) <= m * h < 2 ^ (53 + k) /\ 2 ^ 52 <= m * h / 2 ^ k < 2 ^ 53).
  { unfold k, h. destruct (Z.ltb_spec (m * 7036874417766400) (2 ^ 105)); cbn [Z.add]; (split; [lia|]);
      (split; [lia|]); split; first [apply Z.div_le_lower_bound; lia|apply Z.div_lt_upper_bound; lia]. }
  destruct Hk as (Hk & Hdig & Hquot).
  rewrite (round_division (m * h) 1 _ _ _ k); try lia; [|rewrite Z.mod_1_r; apply shifted_start; lia].
  rewrite Z.mul_1_l. pose proof (rne_bounds (m * h) (2 ^ k)) as Hrne.
  assert (Hlow : k = 52 -> h <= rne (m * h) (2 ^ k)).
  { intros ->. assert (h <= m * h / 2 ^ 52) by (apply Z.div_le_lower_bound; lia). lia. }
  assert (Hhigh : k = 53 -> rne (m * h) (2 ^ k) < h).
  { intros ->. assert (Hle : m * h / 2 ^ 53 < h) by (apply Z.div_lt_upper_bound; unfold h in *; lia).
    destruct (Z.eq_dec (m * h / 2 ^ 53) (h - 1)) as [E|?]; [|lia].
    pose proof (Z.div_mod (m * h) (2 ^ 53) ltac:(lia)) as Hd. rewrite rne_below by (unfold h in *; lia). lia. }
  destruct (carried_normal (rne (m * h) (2 ^ k)) (e + -46 + k) ltac:(lia)) as (m' & e' & -> & Hm' & Hcase).
  exists m', e'. split; [done|]. split; [done|].
  rewrite fin_ltb by (unfold h; lia).
  assert (k = 52 \/ k = 53) as [-> | ->] by lia; [specialize (Hlow eq_refl)|specialize (Hhigh eq_refl)];
    destruct (Z.ltb_spec e' (-46)), (Z.eqb_spec e' (-46)), (Z.ltb_spec m' h); cbn; (split; [intros|intros]); try done; unfold h in *; lia.
Qed.

(** The percentage is a number from 0, and below 100 exactly when [a < b]. *)
Lemma percent_spec a b : 0 <= a < 2 ^ 53 -> 0 < b < 2 ^ 53 ->
  SFltb (percent (f64_of a) (f64_of b)) (f64_of 100) = (a <? b) /\
  SFltb (percent (f64_of a) (f64_of b)) (f64_of 0) = false /\ percent (f64_of a) (f64_of b) <> S754_nan.
Proof.
  intros Ha Hb. unfold percent. destruct (Z.eq_dec a 0) as [->|Ha0].
  { rewrite (f64_of_normal b) by lia. destruct (Z.ltb_spec 0 b); [|lia]. split; [by vm_compute|split; [by vm_compute|done]]. }
  destruct (div_normal a b ltac:(lia) Hb) as (m & e & -> & Hm & He & Hiff).
  destruct (mul_hundred m e Hm He) as (m' & e' & -> & Hm' & Hlt).
  split; [|split; done]. destruct (SFltb _ _), (Z.ltb_spec a b); try done; [|assert (false = true) by (apply Hlt; lia)]; naive_solver lia.
Qed.

(** ** Signs *)

Lemma round_aux_sign m e loc : binary_round_aux 53 1024 true m e loc = SFopp (binary_round_aux 53 1024 false m e loc).
Proof.
  unfold binary_round_aux. destruct (shr_fexp _ _ m e loc) as [mrs e']. destruct (shr_fexp _ _ _ e' loc_Exact) as [mrs' e''].
  destruct (shr_m mrs') as [|p|p]; try done. by case_match.
Qed.

Lemma normalize_opp m e : m <> 0 -> binary_normalize 53 1024 (- m) e false = SFopp (binary_normalize 53 1024 m e false).
Proof.
  intros Hm. destruct m as [|p|p]; [done|change (- Z.pos p) with (Z.neg p)|change (- Z.neg p) with (Z.pos p)];
    unfold binary_normalize, binary_round;
    destruct (shl_align _ _ _) as [mz ez]; rewrite round_aux_sign; [done|]. by destruct (binary_round_aux _ _ _ _ _ _) as [[]|[]| |[]].
Qed.

Lemma f64_sub_opp a b : 0 <= a < b -> b < 2 ^ 53 -> f64_sub (f64_of a) (f64_of b) = SFopp (f64_of (b - a)).
Proof.
  intros Ha Hb. rewrite <- (f64_of_sub b a) by lia.
  destruct (Z.eq_dec a 0) as [->|Ha0]; [by rewrite (f64_of_normal b) by lia|].
  rewrite (f64_of_normal a), (f64_of_normal b) by lia. unfold f64_sub, fin, SFsub. cbn [cond_Zopp]. stdlib_z.
  rewrite (Z.min_comm (exponent b)). set (ez := Z.min _ _).
  rewrite <- normalize_opp; [f_equal; lia|].
  pose proof (exponent_order a b ltac:(lia) ltac:(lia)) as Ho.
  pose proof (mantissa_bounds a ltac:(lia)). pose proof (mantissa_bounds b ltac:(lia)).
  assert (exponent a <= exponent b) by lia. assert (Hez : ez = exponent a) by (unfold ez; lia). rewrite Hez.
  rewrite !shl_align_value by lia. rewrite Z.sub_diag.
  assert (1 <= 2 ^ (exponent b - exponent a)) by (apply (Z.pow_le_mono_r 2 0); lia).
  destruct (Z.eq_dec (exponent a) (exponent b)) as [E|E]; [rewrite E, Z.sub_diag; lia|].
  assert (2 <= 2 ^ (exponent b - exponent a)) by (apply (Z.pow_le_mono_r 2 1); lia). nia.
Qed.

(** [(a - b).max(0.0)] *)
Lemma f64_behind a b : 0 <= b < 2 ^ 53 -> 0 < a < 2 ^ 53 ->
  f64_max (f64_sub (f64_of a) (f64_of b)) (f64_of 0) = f64_of (Z.max 0 (a - b)).
Proof.
  intros Hb Ha. destruct (Z.le_gt_cases b a) as [Hle|Hgt].
  - rewrite f64_of_sub, Z.max_r by lia. destruct (Z.eq_dec (a - b) 0) as [->|Hne]; [done|].
    pose proof (f64_of_ltb (a - b) 0 ltac:(lia) ltac:(lia)) as Hlt. unfold f64_max. rewrite Hlt.
    destruct (Z.ltb_spec (a - b) 0); [lia|]. by rewrite f64_of_normal by lia.
  - rewrite f64_sub_opp, Z.max_l, f64_of_normal by lia. done.
Qed.

Lemma SFltb_asym x y : SFltb x y = true -> SFltb y x = false.
Proof.
  unfold SFltb. destruct x as [[]|[]| |[] m1 e1], y as [[]|[]| |[] m2 e2]; cbn [SFcompare]; try done; stdlib_z;
    change (PosDef.Pos.compare_cont Eq) with Pos.compare; rewrite (Z.compare_antisym e1 e2);
    destruct (e1 ?= e2); try done; rewrite (Pos.compare_antisym m1 m2); by destruct (m1 ?= m2)%positive.
Qed.

Lemma SFleb_ltb x y : x <> S754_nan -> y <> S754_nan -> SFleb y x = negb (SFltb x y).
Proof.
  intros Hx Hy. unfold SFleb, SFltb. destruct x as [[]|[]| |[] m1 e1], y as [[]|[]| |[] m2 e2]; cbn [SFcompare]; try done; stdlib_z;
    change (PosDef.Pos.compare_cont Eq) with Pos.compare; rewrite (Z.compare_antisym e1 e2);
    destruct (e1 ?= e2); try done; rewrite (Pos.compare_antisym m1 m2); by destruct (m1 ?= m2)%positive.
Qed.

(** [(..).min(100.0) >= 100.0] *)
Lemma percent_done a b : 0 <= a < 2 ^ 53 -> 0 < b < 2 ^ 53 ->
  SFleb (f64_of 100) (f64_min (percent (f64_of a) (f64_of b)) (f64_of 100)) = (b <=? a).
Proof.
  intros Ha Hb. destruct (percent_spec a b Ha Hb) as (Hlt & _ & Hnan). unfold f64_min.
  set (x := percent _ _) in *. assert (E : SFleb (f64_of 100) (if SFltb (f64_of 100) x then f64_of 100 else x) = (b <=? a)).
  { destruct (SFltb (f64_of 100) x) eqn:E.
    - apply SFltb_asym in E. rewrite Hlt in E. destruct (Z.ltb_spec a b); [done|]. vm_compute (SFleb _ _). symmetry. by apply Z.leb_le.
    - rewrite SFleb_ltb, Hlt by done. destruct (Z.ltb_spec a b), (Z.leb_spec b a); done || lia. }
  by destruct x.
Qed.
