(* ===== verification/Text.v ===== *)
(** * Strings

    The operations of Rust's [str] and [String] the sources use, on byte strings:
    prefixes, splitting, the digits of integers and the validity of UTF-8. A
    Rust string is the string of its UTF-8 bytes; the characters the sources
    look for are ASCII, so looking for their bytes is the same. At the
    end, the encodings of other crates, as a class. *)

From Stdlib Require Import Ascii.
From stdpp Require Import pretty.
From S2P Require Import Prelude MachineInt.

Definition newline : ascii := "010"%char.
Definition carriage_return : ascii := "013"%char.
Definition nul : ascii := "000"%char.
Definition text_of (c : ascii) : string := String c "".

(** [s.strip_prefix(p)] *)
Fixpoint strip_prefix (p s : string) : option string :=
  match p, s with
  | "", _ => Some s
  | String a p, String b s => if Ascii.eqb a b then strip_prefix p s else None
  | _, _ => None
  end%string.

Definition starts_with (p s : string) : bool :=
  match strip_prefix p s with Some _ => true | None => false end.

(** [s.find(c)] and the two parts around it. *)
Fixpoint split_once (c : ascii) (s : string) : option (string * string) :=
  match s with
  | EmptyString => None
  | String a s =>
      if Ascii.eqb a c then Some (EmptyString, s)
      else match split_once c s with
           | Some (l, r) => Some (String a l, r)
           | None => None
           end
  end.

(** [s.split(c)]: one part more than there are separators. *)
Fixpoint split (c : ascii) (s : string) : list string :=
  match s with
  | EmptyString => [EmptyString]
  | String a s =>
      if Ascii.eqb a c then EmptyString :: split c s
      else match split c s with
           | part :: parts => String a part :: parts
           | [] => [String a EmptyString]
           end
  end.

(** [parts.join(sep)] *)
Definition join (sep : string) (parts : list string) : string := String.concat sep parts.

(** Every character of [s] satisfies [p]; some does. *)
Fixpoint all_chars (p : ascii -> bool) (s : string) : bool :=
  match s with
  | EmptyString => true
  | String a s => p a && all_chars p s
  end.

Definition contains_char (c : ascii) (s : string) : bool := negb (all_chars (fun a => negb (Ascii.eqb a c)) s).

(** [s.contains(t)] *)
Fixpoint contains (t s : string) : bool :=
  starts_with t s ||
  match s with
  | EmptyString => false
  | String _ s => contains t s
  end.

Definition to_ascii_lowercase_char (c : ascii) : ascii :=
  let n := Ascii.N_of_ascii c in
  if (65 <=? n)%N && (n <=? 90)%N then Ascii.ascii_of_N (n + 32) else c.
Fixpoint to_ascii_lowercase (s : string) : string :=
  match s with
  | EmptyString => EmptyString
  | String c s => String (to_ascii_lowercase_char c) (to_ascii_lowercase s)
  end.

(** ** Integers *)

Definition digit (c : ascii) : option Z :=
  let n := Z.of_N (Ascii.N_of_ascii c) in
  if (48 <=? n) && (n <=? 57) then Some (n - 48) else None.
Definition is_ascii_digit (c : ascii) : bool := match digit c with Some _ => true | None => false end.

Fixpoint digits_value (acc : Z) (s : string) : option Z :=
  match s with
  | EmptyString => Some acc
  | String c s =>
      match digit c with
      | Some d => digits_value (acc * 10 + d) s
      | None => None
      end
  end.

Definition natural (s : string) : option Z :=
  match s with EmptyString => None | _ => digits_value 0 s end.

(** The integer [s] writes, with an optional sign, of any size. *)
Definition integer (s : string) : option Z :=
  match s with
  | String "+" s => natural s
  | String "-" s => Z.opp <$> natural s
  | _ => natural s
  end.

Definition in_range (lo hi : Z) (n : option Z) : option Z :=
  match n with
  | Some n => if (lo <=? n) && (n <=? hi) then Some n else None
  | None => None
  end.

(** [s.parse::<i64>()], [s.parse::<u64>()], .. *)
Definition parse_i64 (s : string) : option Z := in_range I64_MIN I64_MAX (integer s).
Definition parse_unsigned (max : Z) (s : string) : option Z :=
  in_range 0 max (match s with String "+" s => natural s | _ => natural s end).

(** ** UTF-8 *)

Definition byte (c : ascii) : Z := Z.of_N (Ascii.N_of_ascii c).
Definition byte_in (lo hi : Z) (c : ascii) : bool := (lo <=? byte c) && (byte c <=? hi).
Definition continuation : ascii -> bool := byte_in 128 191.

(** The second byte of a sequence of three or four bytes: no overlong form, no
    surrogate and nothing above U+10FFFF. *)
Definition second_byte (first : Z) (c : ascii) : bool :=
  if first =? 224 then byte_in 160 191 c
  else if first =? 237 then byte_in 128 159 c
  else if first =? 240 then byte_in 144 191 c
  else if first =? 244 then byte_in 128 143 c
  else continuation c.

Fixpoint valid_utf8 (s : string) : bool :=
  match s with
  | EmptyString => true
  | String a s =>
      if byte a <=? 127 then valid_utf8 s
      else if byte_in 194 223 a then
        match s with
        | String b s => continuation b && valid_utf8 s
        | _ => false
        end
      else if byte_in 224 239 a then
        match s with
        | String b (String c s) => second_byte (byte a) b && continuation c && valid_utf8 s
        | _ => false
        end
      else if byte_in 240 244 a then
        match s with
        | String b (String c (String d s)) =>
            second_byte (byte a) b && continuation c && continuation d && valid_utf8 s
        | _ => false
        end
      else false
  end.

(** [String::from_utf8(bytes).ok()] *)
Definition from_utf8 (bytes : string) : option string := if valid_utf8 bytes then Some bytes else None.

(** ** Lemmas *)

#[global] Arguments Ascii.eqb : simpl never.

Lemma strip_prefix_app p s : strip_prefix p (p +:+ s) = Some s.
Proof. induction p as [|a p IH]; [done|]. rewrite append_cons. cbn. by rewrite Ascii.eqb_refl. Qed.

Lemma strip_prefix_some p s r : strip_prefix p s = Some r -> s = p +:+ r.
Proof.
  revert s. induction p as [|a p IH]; intros s Hs; cbn in Hs; [by injection Hs|].
  destruct s as [|b s]; [done|]. destruct (Ascii.eqb_spec a b) as [->|]; [|done].
  by rewrite append_cons, (IH s Hs).
Qed.

Lemma all_chars_app p s t : all_chars p (s +:+ t) = all_chars p s && all_chars p t.
Proof. induction s as [|a s IH]; [done|]. rewrite append_cons. cbn. by rewrite IH, andb_assoc. Qed.

Lemma all_chars_impl p q s :
  (forall c, p c = true -> q c = true) -> all_chars p s = true -> all_chars q s = true.
Proof.
  intros Hpq. induction s as [|c s IH]; [done|]. cbn. rewrite !andb_true_iff. naive_solver.
Qed.

Lemma append_assoc (s t u : string) : (s +:+ t) +:+ u = s +:+ (t +:+ u).
Proof. induction s as [|c s IH]; [done|]. by rewrite !append_cons, IH. Qed.

Lemma append_empty (s : string) : s +:+ "" = s.
Proof. induction s as [|c s IH]; [done|]. by rewrite append_cons, IH. Qed.

Lemma digit_pretty n : (n < 10)%N -> digit (pretty_N_char n) = Some (Z.of_N n).
Proof.
  intros Hn. assert (Hc : n = 0%N \/ n = 1%N \/ n = 2%N \/ n = 3%N \/ n = 4%N \/ n = 5%N \/
    n = 6%N \/ n = 7%N \/ n = 8%N \/ n = 9%N) by lia.
  repeat (destruct Hc as [->|Hc]; [done|]). by rewrite Hc.
Qed.

Lemma digits_value_pretty n s : digits_value 0 (pretty_N_go n s) = digits_value (Z.of_N n) s.
Proof.
  revert s. induction (N.lt_wf_0 n) as [n _ IH]; intros s.
  destruct (decide (n = 0%N)) as [->|Hn]; [done|].
  rewrite pretty_N_go_step by lia. rewrite IH by (apply N.div_lt; lia).
  cbn [digits_value]. rewrite digit_pretty by (apply N.mod_lt; lia).
  f_equal. pose proof (N.div_mod n 10). lia.
Qed.

(** What every character of a printed integer is. *)
Definition is_numeric (c : ascii) : bool := is_ascii_digit c || Ascii.eqb c "-"%char.

Lemma pretty_N_go_numeric n s : all_chars is_numeric (pretty_N_go n s) = all_chars is_numeric s.
Proof.
  revert s. induction (N.lt_wf_0 n) as [n _ IH]; intros s.
  destruct (decide (n = 0%N)) as [->|Hn]; [done|].
  rewrite pretty_N_go_step by lia. rewrite IH by (apply N.div_lt; lia). cbn [all_chars].
  unfold is_numeric at 1, is_ascii_digit. by rewrite digit_pretty by (apply N.mod_lt; lia).
Qed.

Lemma pretty_N_go_nonempty n s : n <> 0%N -> pretty_N_go n s <> EmptyString.
Proof.
  revert s. induction (N.lt_wf_0 n) as [n _ IH]; intros s Hn.
  rewrite pretty_N_go_step by lia. destruct (decide (n / 10 = 0)%N) as [->|Hd]; [done|].
  apply IH; [apply N.div_lt; lia|done].
Qed.

Lemma natural_pretty n : natural (pretty n) = Some (Z.of_N n).
Proof.
  unfold pretty, pretty_N. case_decide as Hn; [by subst|].
  unfold natural. pose proof (pretty_N_go_nonempty n "" Hn).
  pose proof (digits_value_pretty n "") as Hd. by destruct (pretty_N_go n "").
Qed.

(** Printing an integer and reading it back. *)
Lemma integer_pretty (z : Z) : integer (pretty z) = Some z.
Proof.
  destruct z as [|p|p]; [done| |].
  - change (pretty (Zpos p)) with (pretty (Npos p)).
    pose proof (natural_pretty (Npos p)) as Hn. unfold pretty, pretty_N in *.
    case_decide; [done|]. pose proof (pretty_N_go_numeric (Npos p) "") as Hnum.
    destruct (pretty_N_go (Npos p) "") as [|c s]; [done|]. cbn [all_chars] in Hnum.
    apply andb_true_iff in Hnum as [Hc _]. unfold integer.
    destruct c as [[] [] [] [] [] [] [] []]; try done.
  - change (pretty (Zneg p)) with ("-" +:+ pretty (Npos p))%string.
    cbn [integer]. rewrite append_cons, append_nil. cbn [integer]. by rewrite natural_pretty.
Qed.

Lemma pretty_numeric (z : Z) : all_chars is_numeric (pretty z) = true.
Proof.
  assert (Hn : forall n : N, all_chars is_numeric (pretty n) = true).
  { intros n. unfold pretty, pretty_N. case_decide; [done|]. by rewrite pretty_N_go_numeric. }
  destruct z as [|p|p]; [done|apply (Hn (Npos p))|].
  change (pretty (Zneg p)) with ("-" +:+ pretty (Npos p))%string.
  rewrite all_chars_app. apply (Hn (Npos p)).
Qed.

Lemma join_cons sep p ps : ps <> [] -> join sep (p :: ps) = p +:+ sep +:+ join sep ps.
Proof. by destruct ps. Qed.

Lemma starts_with_spec p s : starts_with p s = true <-> exists r, s = p +:+ r.
Proof.
  unfold starts_with. split.
  - destruct (strip_prefix p s) as [r|] eqn:Hs; [|done]. intros _. exists r. by apply strip_prefix_some.
  - intros [r ->]. by rewrite strip_prefix_app.
Qed.

Lemma contains_spec t s : contains t s = true <-> exists a b, s = a +:+ t +:+ b.
Proof.
  split.
  - induction s as [|c s IH]; cbn [contains]; rewrite orb_true_iff, starts_with_spec.
    + intros [[r Hr]|?]; [|done]. by exists "", r.
    + intros [[r Hr]|Hs]; [by exists "", r|]. destruct (IH Hs) as (a & b & ->). by exists (String c a), b.
  - intros (a & b & ->). induction a as [|c a IH].
    + rewrite append_nil. assert (Hs : starts_with t (t +:+ b) = true) by (apply starts_with_spec; eauto).
      destruct (t +:+ b); cbn [contains]; by rewrite Hs.
    + rewrite append_cons. cbn [contains]. by rewrite IH, orb_true_r.
Qed.

Lemma lowercase_app s t : to_ascii_lowercase (s +:+ t) = to_ascii_lowercase s +:+ to_ascii_lowercase t.
Proof. induction s as [|c s IH]; [done|]. rewrite append_cons. cbn. by rewrite IH, append_cons. Qed.

(** A part of a joined text is in it. *)
Lemma join_part sep p ps : p ∈ ps -> exists a b, join sep ps = a +:+ p +:+ b.
Proof.
  induction ps as [|q ps IH]; [by intros ?%not_elem_of_nil|].
  destruct (decide (ps = [])) as [->|Hne].
  - intros [->|Hp]%elem_of_cons; [|by apply not_elem_of_nil in Hp]. exists "", "".
    by rewrite append_nil, append_empty.
  - rewrite join_cons by done. intros [->|Hp]%elem_of_cons.
    + by exists "", (sep +:+ join sep ps).
    + destruct (IH Hp) as (a & b & ->). exists (q +:+ sep +:+ a), b. by rewrite !append_assoc.
Qed.

Lemma natural_pretty_nonneg (z : Z) : 0 <= z -> natural (pretty z) = Some z.
Proof. destruct z as [|p|p]; [done| |lia]. intros _. apply (natural_pretty (Npos p)). Qed.

Lemma integer_negated (z : Z) : 0 <= z -> integer ("-" +:+ pretty z) = Some (- z).
Proof. intros Hz. rewrite append_cons, append_nil. cbn [integer]. by rewrite natural_pretty_nonneg. Qed.

(** ** Encodings of other crates

    What the sources take from the [hex] crate, [chrono]'s RFC 3339 rendering and
    [serde_json]'s number parser, as a class; and a concrete instance, used to
    run the code on concrete inputs: hexadecimal as [hex] documents it, the
    integers of JSON numbers, and timestamps printed as their count. *)

Class Encodings := {
  hex_decode : string -> option string;
  hex_encode : string -> string;
  hex_decode_encode bytes : hex_decode (hex_encode bytes) = Some bytes;
  to_rfc3339 : Z -> string;
  number_from_str : string -> option string;
  number_of_uint256 n : 0 <= n <= U256_MAX -> is_Some (number_from_str (pretty n))
}.

Definition hex_digit (n : N) : ascii := if (n <? 10)%N then Ascii.ascii_of_N (48 + n) else Ascii.ascii_of_N (87 + n).
Definition hex_value (c : ascii) : option N :=
  let n := Ascii.N_of_ascii c in
  if (48 <=? n)%N && (n <=? 57)%N then Some (n - 48)%N
  else if (97 <=? n)%N && (n <=? 102)%N then Some (n - 87)%N
  else if (65 <=? n)%N && (n <=? 70)%N then Some (n - 55)%N
  else None.

Fixpoint demo_hex_encode (bytes : string) : string :=
  match bytes with
  | EmptyString => EmptyString
  | String b bytes =>
      let n := Ascii.N_of_ascii b in
      String (hex_digit (n / 16)) (String (hex_digit (n mod 16)) (demo_hex_encode bytes))
  end.

Fixpoint demo_hex_decode (s : string) : option string :=
  match s with
  | EmptyString => Some EmptyString
  | String _ EmptyString => None
  | String a (String b s) =>
      match hex_value a, hex_value b with
      | Some x, Some y => String (Ascii.ascii_of_N (16 * x + y)) <$> demo_hex_decode s
      | _, _ => None
      end
  end.

Lemma demo_hex_round bytes : demo_hex_decode (demo_hex_encode bytes) = Some bytes.
Proof.
  induction bytes as [|b bytes IH]; [done|]. cbn [demo_hex_encode demo_hex_decode]. rewrite IH.
  destruct b as [[] [] [] [] [] [] [] []]; reflexivity.
Qed.

Definition demo_encodings : Encodings.
Proof.
  refine {|
    hex_decode := demo_hex_decode; hex_encode := demo_hex_encode; hex_decode_encode := demo_hex_round;
    to_rfc3339 ts := pretty (ts : Z);
    number_from_str s := match natural s with Some _ => Some s | None => None end
  |}.
  intros n [Hn _]. by rewrite natural_pretty_nonneg.
Defined.
