(* ===== verification/CurvesMath.v ===== *)
(** * Curve arithmetic

    [crates/curves/src/math.rs], [errors.rs] and [types.rs]: 256-bit unsigned
    values, multiply-then-divide with both roundings, the UD60x18 square root
    and the domain checks that every curve operation starts and ends with. *)

From S2P Require Import Prelude MachineInt.

Inductive CurveError :=
  | InvalidSlope
  | AssetsExceedTotalAssets
  | SharesExceedTotalShares
  | AssetsOverflowMax
  | SharesOverflowMax
  | DomainExceeded
  | DivisionByZero
  | MathOverflow
  | MathUnderflow.

#[global] Instance CurveError_eq_dec : EqDecision CurveError.
Proof. solve_decision. Defined.

(** The [thiserror] message of each variant. *)
Definition CurveError_to_string (self : CurveError) : string :=
  match self with
  | InvalidSlope => "invalid slope: expected a non-zero even wad"
  | AssetsExceedTotalAssets => "assets exceed total assets"
  | SharesExceedTotalShares => "shares exceed total shares"
  | AssetsOverflowMax => "assets overflow max assets"
  | SharesOverflowMax => "shares overflow max shares"
  | DomainExceeded => "curve domain exceeded"
  | DivisionByZero => "division by zero"
  | MathOverflow => "math overflow"
  | MathUnderflow => "math underflow"
  end.

Record CurveState := { total_assets : Z; total_shares : Z }.

Abbreviation curve_res := (result Z CurveError).

(** [BigUint::sqrt] of the num-bigint crate, by its documented contract: the
    truncated principal square root. *)
Class BigUintSqrt := {
  big_sqrt : Z -> Z;
  big_sqrt_spec n :
    0 <= n -> 0 <= big_sqrt n /\ big_sqrt n * big_sqrt n <= n < (big_sqrt n + 1) * (big_sqrt n + 1)
}.

(** The contract is satisfiable: the integer square root of the Standard Library. *)
Definition floor_sqrt : BigUintSqrt.
Proof.
  refine {| big_sqrt := Z.sqrt |}. intros n Hn.
  pose proof (Z.sqrt_nonneg n). pose proof (Z.sqrt_spec n Hn) as Hs. cbv zeta in Hs.
  rewrite <- Z.add_1_r in Hs. lia.
Defined.

Definition unit_wad : Z := 1000000000000000000.
#[global] Arguments unit_wad : simpl never.

Definition max_u256 : Z := Z.shiftl 1 256 - 1.

(** A [U256] and the [BigUint] with the same value are the same number. *)
Definition to_big (value : Z) : Z := value.

Definition from_big (value : Z) : curve_res :=
  if max_u256 <? value then Err MathOverflow else Ok value.

Definition add (a b : Z) : curve_res := ok_or (checked_add a b) MathOverflow.
Definition sub (a b : Z) : curve_res := ok_or (checked_sub a b) MathUnderflow.

Definition mul_div (x y denominator : Z) : curve_res :=
  if denominator =? 0 then Err DivisionByZero
  else
    let q := (to_big x * to_big y) / to_big denominator in
    from_big q.

Definition mul_div_up (x y denominator : Z) : curve_res :=
  if denominator =? 0 then Err DivisionByZero
  else
    let denominator_big := to_big denominator in
    let product := to_big x * to_big y in
    let q := product / denominator_big in
    let r := product mod denominator_big in
    let rounded := if r =? 0 then q else q + 1 in
    from_big rounded.

Definition sqrt_ud60x18 `{BigUintSqrt} (raw : Z) : curve_res :=
  from_big (big_sqrt (to_big raw * to_big unit_wad)).

Definition square (x : Z) : curve_res := mul_div x x unit_wad.
Definition square_up (x : Z) : curve_res := mul_div_up x x unit_wad.
Definition mul_up (x y : Z) : curve_res := mul_div_up x y unit_wad.
Definition div_up (x y : Z) : curve_res := mul_div_up x unit_wad y.

Definition fee_on_raw (amount fee denominator : Z) : curve_res :=
  mul_div_up amount fee denominator.

Definition market_cap (total_shares share_price : Z) : curve_res :=
  mul_div total_shares share_price unit_wad.

Definition check_curve_domains (total_assets total_shares max_assets max_shares : Z)
    : result unit CurveError :=
  match total_assets ?= max_assets, total_shares ?= max_shares with
  | Gt, _ | _, Gt => Err DomainExceeded
  | _, _ => Ok tt
  end.

Definition check_withdraw (assets total_assets : Z) : result unit CurveError :=
  if total_assets <? assets then Err AssetsExceedTotalAssets else Ok tt.

Definition check_redeem (shares total_shares : Z) : result unit CurveError :=
  if total_shares <? shares then Err SharesExceedTotalShares else Ok tt.

Definition check_deposit_bounds (assets total_assets max_assets : Z) : result unit CurveError :=
  let? remaining := ok_or (checked_sub max_assets total_assets) DomainExceeded in
  if remaining <? assets then Err AssetsOverflowMax else Ok tt.

Definition check_deposit_out (shares_out total_shares max_shares : Z) : result unit CurveError :=
  let? remaining := ok_or (checked_sub max_shares total_shares) DomainExceeded in
  if remaining <? shares_out then Err SharesOverflowMax else Ok tt.

Definition check_mint_bounds (shares total_shares max_shares : Z) : result unit CurveError :=
  let? remaining := ok_or (checked_sub max_shares total_shares) DomainExceeded in
  if remaining <? shares then Err SharesOverflowMax else Ok tt.

Definition check_mint_out (assets_out total_assets max_assets : Z) : result unit CurveError :=
  let? remaining := ok_or (checked_sub max_assets total_assets) DomainExceeded in
  if remaining <? assets_out then Err AssetsOverflowMax else Ok tt.

(** ** Characterisations used by the curves *)

Lemma unit_wad_pos : 0 < unit_wad.
Proof. done. Qed.

Lemma max_u256_eq : max_u256 = U256_MAX.
Proof. done. Qed.

Lemma from_big_ok v r : from_big v = Ok r <-> r = v /\ v <= U256_MAX.
Proof.
  unfold from_big. rewrite max_u256_eq.
  destruct (Z.ltb_spec U256_MAX v); naive_solver lia.
Qed.

Lemma add_ok a b s : add a b = Ok s <-> s = a + b /\ a + b <= U256_MAX.
Proof. unfold add. by rewrite ok_or_ok, checked_add_some. Qed.

Lemma sub_ok a b d : sub a b = Ok d <-> d = a - b /\ b <= a.
Proof. unfold sub. by rewrite ok_or_ok, checked_sub_some. Qed.

Lemma mul_div_ok x y d r :
  mul_div x y d = Ok r <-> d <> 0 /\ r = x * y / d /\ x * y / d <= U256_MAX.
Proof.
  unfold mul_div, to_big. destruct (Z.eqb_spec d 0); [naive_solver|].
  rewrite from_big_ok. naive_solver.
Qed.

Lemma mul_div_up_ok x y d r :
  mul_div_up x y d = Ok r <-> d <> 0 /\ r = ceil_div (x * y) d /\ ceil_div (x * y) d <= U256_MAX.
Proof.
  unfold mul_div_up, to_big, ceil_div. destruct (Z.eqb_spec d 0); [naive_solver|].
  cbv zeta. rewrite from_big_ok. naive_solver.
Qed.

Lemma square_ok x r : square x = Ok r <-> r = x * x / unit_wad /\ x * x / unit_wad <= U256_MAX.
Proof. unfold square. rewrite mul_div_ok. pose proof unit_wad_pos. naive_solver lia. Qed.

Lemma square_up_ok x r :
  square_up x = Ok r <-> r = ceil_div (x * x) unit_wad /\ ceil_div (x * x) unit_wad <= U256_MAX.
Proof. unfold square_up. rewrite mul_div_up_ok. pose proof unit_wad_pos. naive_solver lia. Qed.

Lemma sqrt_ud60x18_ok `{BigUintSqrt} raw r :
  0 <= raw -> sqrt_ud60x18 raw = Ok r ->
  0 <= r <= U256_MAX /\ r * r <= raw * unit_wad < (r + 1) * (r + 1).
Proof.
  unfold sqrt_ud60x18, to_big. rewrite from_big_ok. intros Hraw [-> Hmax].
  pose proof unit_wad_pos. pose proof (big_sqrt_spec (raw * unit_wad) ltac:(lia)). lia.
Qed.

Lemma check_curve_domains_ok ta ts ma ms :
  check_curve_domains ta ts ma ms = Ok tt <-> ta <= ma /\ ts <= ms.
Proof.
  unfold check_curve_domains.
  destruct (Z.compare_spec ta ma), (Z.compare_spec ts ms); split; intros; try done; try lia.
Qed.

Lemma check_withdraw_ok a ta : check_withdraw a ta = Ok tt <-> a <= ta.
Proof. unfold check_withdraw. destruct (Z.ltb_spec ta a); naive_solver lia. Qed.

Lemma check_redeem_ok s ts : check_redeem s ts = Ok tt <-> s <= ts.
Proof. unfold check_redeem. destruct (Z.ltb_spec ts s); naive_solver lia. Qed.

Lemma check_remaining_ok (e e' : CurveError) x t m :
  (let? remaining := ok_or (checked_sub m t) e in
   if remaining <? x then Err e' else Ok tt) = Ok tt <-> t <= m /\ x <= m - t.
Proof.
  rewrite res_bind_ok. setoid_rewrite ok_or_ok. setoid_rewrite checked_sub_some. split.
  - intros (r & [-> ?] & Hlt). destruct (Z.ltb_spec (m - t) x); [done|lia].
  - intros [? ?]. exists (m - t). split; [lia|]. destruct (Z.ltb_spec (m - t) x); [lia|done].
Qed.

Lemma check_deposit_bounds_ok a t m : check_deposit_bounds a t m = Ok tt <-> t <= m /\ a <= m - t.
Proof. apply check_remaining_ok. Qed.
Lemma check_deposit_out_ok a t m : check_deposit_out a t m = Ok tt <-> t <= m /\ a <= m - t.
Proof. apply check_remaining_ok. Qed.
Lemma check_mint_bounds_ok a t m : check_mint_bounds a t m = Ok tt <-> t <= m /\ a <= m - t.
Proof. apply check_remaining_ok. Qed.
Lemma check_mint_out_ok a t m : check_mint_out a t m = Ok tt <-> t <= m /\ a <= m - t.
Proof. apply check_remaining_ok. Qed.

Create Rewrite HintDb curves.
#[export] Hint Rewrite @add_ok @sub_ok mul_div_ok mul_div_up_ok square_ok square_up_ok
  check_curve_domains_ok check_withdraw_ok check_redeem_ok check_deposit_bounds_ok
  check_deposit_out_ok check_mint_bounds_ok check_mint_out_ok : curves.

(** Turn the successful steps of a curve operation into arithmetic facts. *)
Ltac curve_facts := inv_res; autorewrite with curves in *; destruct_and?; subst.
