(* ===== verification/CurveTrait.v ===== *)
(** * The [Curve] trait and what its implementors promise

    [crates/curves/src/traits.rs] as a type class, the vault transitions its
    quotes induce, and the laws a bonding curve owes the fee layer and the
    vault: every rounding favours the vault. *)

From S2P Require Import Prelude MachineInt CurvesMath.

Class Curve (C : Type) := {
  max_shares : C -> Z;
  max_assets : C -> Z;
  preview_deposit : C -> Z -> CurveState -> curve_res;
  preview_mint : C -> Z -> CurveState -> curve_res;
  preview_withdraw : C -> Z -> CurveState -> curve_res;
  preview_redeem : C -> Z -> CurveState -> curve_res;
  convert_to_shares : C -> Z -> CurveState -> curve_res;
  convert_to_assets : C -> Z -> CurveState -> curve_res;
  current_price : C -> CurveState -> curve_res
}.

(** A state whose two fields are [U256] values. *)
Definition state_u256 (st : CurveState) : Prop :=
  is_u256 (total_assets st) /\ is_u256 (total_shares st).

Definition empty_vault : CurveState := {| total_assets := 0; total_shares := 0 |}.

Definition after_deposit (st : CurveState) (assets shares : Z) : CurveState :=
  {| total_assets := total_assets st + assets; total_shares := total_shares st + shares |}.

Definition after_redeem (st : CurveState) (assets shares : Z) : CurveState :=
  {| total_assets := total_assets st - assets; total_shares := total_shares st - shares |}.

(** A vault that honours the quotes of its curve. Redeeming and withdrawing
    burn existing shares and pay existing assets. *)
Inductive vault_step {C} `{Curve C} (c : C) (st : CurveState) : CurveState -> Prop :=
  | step_deposit a sh :
      is_u256 a -> preview_deposit c a st = Ok sh -> vault_step c st (after_deposit st a sh)
  | step_mint a sh :
      is_u256 sh -> preview_mint c sh st = Ok a -> vault_step c st (after_deposit st a sh)
  | step_redeem a sh :
      is_u256 sh -> preview_redeem c sh st = Ok a -> a <= total_assets st ->
      vault_step c st (after_redeem st a sh)
  | step_withdraw a sh :
      is_u256 a -> preview_withdraw c a st = Ok sh -> sh <= total_shares st ->
      vault_step c st (after_redeem st a sh).

(** The states a vault opened on [c] can reach, in any interleaving of operations. *)
Inductive vault_reachable {C} `{Curve C} (c : C) : CurveState -> Prop :=
  | reach_empty : vault_reachable c empty_vault
  | reach_step st st' : vault_reachable c st -> vault_step c st st' -> vault_reachable c st'.

(** Depositing and redeeming the shares at once returns no more than was paid. *)
Definition deposit_then_redeem_le {C} `{Curve C} (c : C) (st : CurveState) : Prop :=
  forall a sh a', is_u256 a ->
    preview_deposit c a st = Ok sh ->
    preview_redeem c sh (after_deposit st a sh) = Ok a' -> a' <= a.

(** Paying what [preview_mint] asks buys at least the minted shares. *)
Definition mint_price_suffices {C} `{Curve C} (c : C) (st : CurveState) : Prop :=
  forall sh a sh', is_u256 sh ->
    preview_mint c sh st = Ok a -> preview_deposit c a st = Ok sh' -> sh <= sh'.

(** Burning what [preview_withdraw] asks is worth at least the withdrawn assets. *)
Definition withdraw_burn_suffices {C} `{Curve C} (c : C) (st : CurveState) : Prop :=
  forall a sh a', is_u256 a ->
    preview_withdraw c a st = Ok sh -> preview_redeem c sh st = Ok a' -> a <= a'.

Definition rounding_favours_vault {C} `{Curve C} (c : C) (st : CurveState) : Prop :=
  deposit_then_redeem_le c st /\ mint_price_suffices c st /\ withdraw_burn_suffices c st.

(** A successful deposit or mint leaves both totals within the curve's domain. *)
Definition growth_stays_in_domain {C} `{Curve C} (c : C) (st : CurveState) : Prop :=
  (forall a sh, is_u256 a -> preview_deposit c a st = Ok sh ->
     0 <= sh /\ total_assets st + a <= max_assets c /\ total_shares st + sh <= max_shares c) /\
  (forall a sh, is_u256 sh -> preview_mint c sh st = Ok a ->
     0 <= a /\ total_assets st + a <= max_assets c /\ total_shares st + sh <= max_shares c).

(** The interface the fee layer is proved against. *)
Class LawfulCurve (C : Type) `{Curve C} := {
  curve_wf : C -> Prop;
  state_ok : C -> CurveState -> Prop;
  lawful_rounding c st :
    curve_wf c -> state_ok c st -> state_u256 st -> rounding_favours_vault c st;
  lawful_growth c st :
    curve_wf c -> state_ok c st -> state_u256 st -> growth_stays_in_domain c st;
  lawful_redeem_range c st sh a :
    curve_wf c -> state_ok c st -> state_u256 st -> is_u256 sh ->
    preview_redeem c sh st = Ok a -> is_u256 a
}.
