(* ===== verification/LinearCurve.v ===== *)
(** * [LinearCurve]

    [crates/curves/src/linear.rs]: shares and assets convert pro rata, the
    first depositor gets one share per asset. *)

From S2P Require Import Prelude MachineInt CurvesMath CurveTrait.

Module LinearCurve.

Inductive LinearCurve := new.

Definition max_shares (self : LinearCurve) : Z := U256_MAX.
Definition max_assets (self : LinearCurve) : Z := U256_MAX.

Definition convert_to_shares_unchecked (assets : Z) (state : CurveState) : curve_res :=
  if total_shares state =? 0 then Ok assets
  else mul_div assets (total_shares state) (total_assets state).

Definition convert_to_assets_unchecked (shares : Z) (state : CurveState) : curve_res :=
  if total_shares state =? 0 then Ok shares
  else mul_div shares (total_assets state) (total_shares state).

Definition preview_deposit (self : LinearCurve) (assets : Z) (state : CurveState) : curve_res :=
  check? check_curve_domains (total_assets state) (total_shares state)
           (max_assets self) (max_shares self) in
  check? check_deposit_bounds assets (total_assets state) (max_assets self) in
  let? shares := convert_to_shares_unchecked assets state in
  check? check_deposit_out shares (total_shares state) (max_shares self) in
  Ok shares.

Definition preview_mint (self : LinearCurve) (shares : Z) (state : CurveState) : curve_res :=
  check? check_curve_domains (total_assets state) (total_shares state)
           (max_assets self) (max_shares self) in
  check? check_mint_bounds shares (total_shares state) (max_shares self) in
  let? assets := (if total_shares state =? 0 then Ok shares
                  else mul_div_up shares (total_assets state) (total_shares state)) in
  check? check_mint_out assets (total_assets state) (max_assets self) in
  Ok assets.

Definition preview_withdraw (self : LinearCurve) (assets : Z) (state : CurveState) : curve_res :=
  check? check_curve_domains (total_assets state) (total_shares state)
           (max_assets self) (max_shares self) in
  check? check_withdraw assets (total_assets state) in
  if total_shares state =? 0 then Ok assets
  else mul_div_up assets (total_shares state) (total_assets state).

Definition preview_redeem (self : LinearCurve) (shares : Z) (state : CurveState) : curve_res :=
  check? check_curve_domains (total_assets state) (total_shares state)
           (max_assets self) (max_shares self) in
  check? check_redeem shares (total_shares state) in
  convert_to_assets_unchecked shares state.

Definition convert_to_shares (self : LinearCurve) (assets : Z) (state : CurveState) : curve_res :=
  preview_deposit self assets state.

Definition convert_to_assets (self : LinearCurve) (shares : Z) (state : CurveState) : curve_res :=
  check? check_curve_domains (total_assets state) (total_shares state)
           (max_assets self) (max_shares self) in
  check? check_redeem shares (total_shares state) in
  convert_to_assets_unchecked shares state.

Definition current_price (self : LinearCurve) (state : CurveState) : curve_res :=
  check? check_curve_domains (total_assets state) (total_shares state)
           (max_assets self) (max_shares self) in
  convert_to_assets_unchecked 1000000000000000000 state.

#[global] Instance linear_curve : Curve LinearCurve := {|
  CurveTrait.max_shares := max_shares;
  CurveTrait.max_assets := max_assets;
  CurveTrait.preview_deposit := preview_deposit;
  CurveTrait.preview_mint := preview_mint;
  CurveTrait.preview_withdraw := preview_withdraw;
  CurveTrait.preview_redeem := preview_redeem;
  CurveTrait.convert_to_shares := convert_to_shares;
  CurveTrait.convert_to_assets := convert_to_assets;
  CurveTrait.current_price := current_price
|}.

(** Without shares the vault holds no assets. *)
Definition consistent (st : CurveState) : Prop := total_shares st = 0 -> total_assets st = 0.

(** ** What a successful quote says *)

Lemma linear_preview_deposit_ok c a st sh :
  preview_deposit c a st = Ok sh ->
  total_assets st + a <= U256_MAX /\ total_shares st + sh <= U256_MAX /\
  (total_shares st = 0 /\ sh = a \/
   total_shares st <> 0 /\ total_assets st <> 0 /\ sh = a * total_shares st / total_assets st).
Proof.
  unfold preview_deposit, convert_to_shares_unchecked, max_assets, max_shares. intros H.
  curve_facts; lia.
Qed.

Lemma linear_preview_mint_ok c sh st a :
  preview_mint c sh st = Ok a ->
  total_assets st + a <= U256_MAX /\ total_shares st + sh <= U256_MAX /\
  (total_shares st = 0 /\ a = sh \/
   total_shares st <> 0 /\ a = ceil_div (sh * total_assets st) (total_shares st)).
Proof.
  unfold preview_mint, max_assets, max_shares. intros H.
  curve_facts; lia.
Qed.

Lemma linear_preview_withdraw_ok c a st sh :
  preview_withdraw c a st = Ok sh ->
  a <= total_assets st /\
  (total_shares st = 0 /\ sh = a \/
   total_shares st <> 0 /\ total_assets st <> 0 /\
   sh = ceil_div (a * total_shares st) (total_assets st)).
Proof.
  unfold preview_withdraw, max_assets, max_shares. intros H.
  curve_facts; lia.
Qed.

Lemma linear_preview_redeem_ok c sh st a :
  preview_redeem c sh st = Ok a ->
  sh <= total_shares st /\
  (total_shares st = 0 /\ a = sh \/
   total_shares st <> 0 /\ a = sh * total_assets st / total_shares st).
Proof.
  unfold preview_redeem, convert_to_assets_unchecked, max_assets, max_shares. intros H.
  curve_facts; lia.
Qed.

(** ** Laws *)

Section Laws.
Context (c : LinearCurve) (st : CurveState).
Context (Hst : state_u256 st) (Hcons : consistent st).

Lemma linear_deposit_then_redeem : deposit_then_redeem_le c st.
Proof.
  intros a sh a' [Ha _] Hd Hr. destruct Hst as [[HA _] [HS _]].
  apply linear_preview_deposit_ok in Hd as (_ & _ & Hd).
  apply linear_preview_redeem_ok in Hr as (_ & Hr).
  unfold after_deposit in *; simpl in *.
  destruct Hr as [[? ->]|[Hne ->]]; [lia|].
  destruct Hd as [[H0 ->]|(HS0 & HA0 & ->)].
  { pose proof (Hcons H0) as HA0. rewrite H0, HA0, !Z.add_0_l in *. rewrite Z.div_mul; lia. }
  set (q := a * total_shares st / total_assets st) in *.
  assert (Hq : q * total_assets st <= a * total_shares st)
    by (apply div_spec; lia).
  assert (0 <= q) by (apply Z.div_pos; nia).
  apply Z.div_le_upper_bound; nia.
Qed.

Lemma linear_mint_price : mint_price_suffices c st.
Proof.
  intros sh a sh' [Hsh _] Hm Hd. destruct Hst as [[HA _] [HS _]].
  apply linear_preview_mint_ok in Hm as (_ & _ & Hm).
  apply linear_preview_deposit_ok in Hd as (_ & _ & Hd).
  destruct Hm as [[? ->]|[Hne ->]], Hd as [[? ->]|(? & HA0 & ->)]; try lia.
  apply div_ge; [lia|]. pose proof (ceil_div_spec (sh * total_assets st) (total_shares st)). nia.
Qed.

Lemma linear_withdraw_burn : withdraw_burn_suffices c st.
Proof.
  intros a sh a' [Ha _] Hw Hr. destruct Hst as [[HA _] [HS _]].
  apply linear_preview_withdraw_ok in Hw as (_ & Hw).
  apply linear_preview_redeem_ok in Hr as (_ & Hr).
  destruct Hw as [[? ->]|(? & HA0 & ->)], Hr as [[? ->]|[? ->]]; try lia.
  apply div_ge; [lia|].
  pose proof (ceil_div_spec (a * total_shares st) (total_assets st)). nia.
Qed.

Lemma linear_growth : growth_stays_in_domain c st.
Proof.
  destruct Hst as [[HA ?] [HS ?]]. split.
  - intros a sh [Ha _] (? & ? & Hd)%linear_preview_deposit_ok. simpl.
    unfold max_assets, max_shares. split; [|lia].
    destruct Hd as [[? ->]|(? & ? & ->)]; [lia|]. apply Z.div_pos; nia.
  - intros a sh [Ha _] (? & ? & Hd)%linear_preview_mint_ok. simpl.
    unfold max_assets, max_shares. split; [|lia].
    destruct Hd as [[? ->]|(? & ->)]; [lia|]. apply ceil_div_nonneg; nia.
Qed.

Lemma linear_redeem_range sh a : is_u256 sh -> preview_redeem c sh st = Ok a -> is_u256 a.
Proof.
  intros [Hsh _] (? & Hr)%linear_preview_redeem_ok. destruct Hst as [[HA ?] [HS ?]].
  unfold is_u256. destruct Hr as [[? ->]|[? ->]]; [lia|].
  split; [apply Z.div_pos; nia|].
  transitivity (total_assets st); [|lia]. apply Z.div_le_upper_bound; nia.
Qed.
End Laws.

(** Withdrawing is the only transition that can leave assets without shares. *)
Lemma consistent_step c st st' :
  state_u256 st -> consistent st -> vault_step c st st' ->
  consistent st' \/ exists a sh, preview_withdraw c a st = Ok sh /\ st' = after_redeem st a sh.
Proof.
  intros [[HA _] [HS _]] Hc [a sh [Ha _] Hd|a sh [Hs _] Hm|a sh [Hs _] Hr Hle|a sh ? Hw ?];
    [left|left|left|right; eauto].
  - apply linear_preview_deposit_ok in Hd as (_ & _ & Hd). unfold consistent in *; simpl.
    destruct Hd as [[? ->]|(? & ? & ->)]; [lia|].
    pose proof (Z.div_pos (a * total_shares st) (total_assets st)). nia.
  - apply linear_preview_mint_ok in Hm as (_ & _ & Hm). unfold consistent in *; simpl.
    destruct Hm as [[? ->]|[? ->]]; lia.
  - apply linear_preview_redeem_ok in Hr as (? & Hr). unfold consistent in *; simpl.
    destruct Hr as [[? ->]|[? ->]]; [lia|]. intros Hz.
    replace sh with (total_shares st) by lia. rewrite Z.mul_comm, Z.div_mul; lia.
Qed.

(** A step never lowers the assets behind a share. *)
Lemma linear_price_step c st st' :
  state_u256 st -> consistent st -> vault_step c st st' ->
  total_assets st * total_shares st' <= total_assets st' * total_shares st.
Proof.
  intros [[HA _] [HS _]] Hc [a sh [Ha _] Hd|a sh [Hs _] Hm|a sh [Hs _] Hr Hle|a sh [Ha _] Hw Hle];
    simpl.
  - apply linear_preview_deposit_ok in Hd as (_ & _ & [[H0 ->]|(? & ? & ->)]).
    { rewrite (Hc H0), H0. lia. }
    pose proof (div_spec (a * total_shares st) (total_assets st)). nia.
  - apply linear_preview_mint_ok in Hm as (_ & _ & [[H0 ->]|(? & ->)]).
    { rewrite (Hc H0), H0. lia. }
    pose proof (ceil_div_spec (sh * total_assets st) (total_shares st)). nia.
  - apply linear_preview_redeem_ok in Hr as (_ & [[H0 ->]|(? & ->)]).
    { rewrite (Hc H0), H0. lia. }
    pose proof (div_spec (sh * total_assets st) (total_shares st)). nia.
  - apply linear_preview_withdraw_ok in Hw as (_ & [[H0 ->]|(? & ? & ->)]).
    { rewrite (Hc H0), H0. lia. }
    pose proof (ceil_div_spec (a * total_shares st) (total_assets st)). nia.
Qed.

#[global] Instance linear_lawful : LawfulCurve LinearCurve := {|
  curve_wf _ := True;
  state_ok _ st := consistent st;
  lawful_rounding c st _ Hc Hu :=
    conj (linear_deposit_then_redeem c st Hu Hc)
      (conj (linear_mint_price c st Hu) (linear_withdraw_burn c st Hu));
  lawful_growth c st _ _ Hu := linear_growth c st Hu;
  lawful_redeem_range c st sh a _ _ Hu Hsh Hr := linear_redeem_range c st Hu sh a Hsh Hr
|}.

(** The values of [tests/fixtures/parity.json] and the errors of [tests/parity.rs]. *)
Example linear_parity_fixtures :
  preview_deposit new (10 ^ 18) empty_vault = Ok (10 ^ 18) /\
  preview_mint new (10 ^ 18)
    {| total_assets := 3 * 10 ^ 18 + 1; total_shares := 2 * 10 ^ 18 |} = Ok 1500000000000000001 /\
  preview_withdraw new (10 ^ 18)
    {| total_assets := 3 * 10 ^ 18; total_shares := 2 * 10 ^ 18 |} = Ok 666666666666666667 /\
  current_price new {| total_assets := U256_MAX; total_shares := U256_MAX |} = Ok (10 ^ 18) /\
  convert_to_assets new 1 empty_vault = Err SharesExceedTotalShares /\
  preview_deposit new 1 {| total_assets := U256_MAX; total_shares := 0 |}
    = Err AssetsOverflowMax /\
  preview_mint new 1 {| total_assets := 0; total_shares := U256_MAX |} = Err SharesOverflowMax.
Proof. vm_compute. repeat split. Qed.

(** ** Properties *)

(** Linear curve, rounding. On a vault that holds no assets without
    shares, the four quotes of [LinearCurve] round in the vault's favour: a
    deposit redeemed at once returns no more than was paid, the price of a mint
    buys at least the minted shares, the burn of a withdrawal is worth at least
    the withdrawn assets. *)
Theorem linear_rounding_favours_vault (c : LinearCurve) (st : CurveState)
  (Hst : state_u256 st) (Hcons : consistent st) : rounding_favours_vault c st.
Proof.
  repeat split; [apply linear_deposit_then_redeem|apply linear_mint_price
                |apply linear_withdraw_burn]; done.
Qed.

Lemma linear_rounding_favours_vault_witness :
  preview_deposit new 100 {| total_assets := 7; total_shares := 3 |} = Ok 42 /\
  rounding_favours_vault new {| total_assets := 7; total_shares := 3 |}.
Proof.
  split; [reflexivity|]. apply linear_rounding_favours_vault.
  - vm_compute. repeat split; discriminate.
  - discriminate.
Defined.

(** Linear curve, share price. No operation on a linear vault lowers the
    assets behind a share: after any deposit, mint, redeem or withdrawal the
    ratio of assets to shares is at least what it was, cross-multiplied. *)
Theorem linear_price_never_falls (c : LinearCurve) (st st' : CurveState)
  (Hst : state_u256 st) (Hcons : consistent st) (Hstep : vault_step c st st') :
  total_assets st * total_shares st' <= total_assets st' * total_shares st.
Proof. by eapply linear_price_step. Qed.

Lemma linear_price_never_falls_witness :
  7 * 45 <= 107 * 3.
Proof.
  pose (st := {| total_assets := 7; total_shares := 3 |}).
  refine (linear_price_never_falls new st (after_deposit st 100 42) _ _ _).
  - vm_compute. repeat split; discriminate.
  - discriminate.
  - apply step_deposit; [vm_compute; split; discriminate|reflexivity].
Defined.
End LinearCurve.
