(* ===== verification/OffsetProgressiveCurve.v ===== *)
(** * [OffsetProgressiveCurve]

    [crates/curves/src/offset_progressive.rs]: the price of a share grows
    linearly with the supply shifted by [offset], so the assets behind [S]
    shares are the area under that line, in UD60x18 fixed point. *)

From S2P Require Import Prelude MachineInt CurvesMath CurveTrait.

Module OffsetProgressiveCurve.

Record OffsetProgressiveCurve := {
  slope : Z;
  half_slope : Z;
  offset : Z;
  max_shares : Z;
  max_assets : Z
}.

Section Operations.
Context `{BigUintSqrt}.

Definition new (slope offset : Z) : result OffsetProgressiveCurve CurveError :=
  if (slope =? 0) || Z.testbit slope 0 then Err InvalidSlope
  else
    let half_slope := Z.shiftr slope 1 in
    let? max_shares :=
      (let? v := from_big (to_big U256_MAX / to_big unit_wad) in
       let? max_shares_before_offset := sqrt_ud60x18 v in
       sub max_shares_before_offset offset) in
    let? max_assets :=
      (let? max_shares_with_offset := add max_shares offset in
       let? upper := square max_shares_with_offset in
       let? lower := square_up offset in
       let? assets_span := sub upper lower in
       mul_div assets_span half_slope unit_wad) in
    Ok {| slope := slope; half_slope := half_slope; offset := offset;
          max_shares := max_shares; max_assets := max_assets |}.

Definition convert_to_shares_internal (self : OffsetProgressiveCurve) (assets : Z)
    (state : CurveState) : curve_res :=
  check? check_curve_domains (total_assets state) (total_shares state)
           (max_assets self) (max_shares self) in
  check? check_deposit_bounds assets (total_assets state) (max_assets self) in
  let? s := add (total_shares state) (offset self) in
  let? sq := square s in
  let? grown := mul_div assets unit_wad (half_slope self) in
  let? inner := add sq grown in
  let? root := sqrt_ud60x18 inner in
  let? shares := sub root s in
  check? check_deposit_out shares (total_shares state) (max_shares self) in
  Ok shares.

Definition convert_to_assets_internal (self : OffsetProgressiveCurve) (shares : Z)
    (state : CurveState) : curve_res :=
  check? check_curve_domains (total_assets state) (total_shares state)
           (max_assets self) (max_shares self) in
  check? check_redeem shares (total_shares state) in
  let? s := add (total_shares state) (offset self) in
  let? s_next := sub s shares in
  let? sq := square s in
  let? sq_next := square s_next in
  let? area := sub sq sq_next in
  mul_div area (half_slope self) unit_wad.

Definition preview_deposit (self : OffsetProgressiveCurve) (assets : Z) (state : CurveState)
    : curve_res :=
  convert_to_shares_internal self assets state.

Definition preview_mint (self : OffsetProgressiveCurve) (shares : Z) (state : CurveState)
    : curve_res :=
  check? check_curve_domains (total_assets state) (total_shares state)
           (max_assets self) (max_shares self) in
  check? check_mint_bounds shares (total_shares state) (max_shares self) in
  let? s := add (total_shares state) (offset self) in
  let? s_next := add s shares in
  let? upper := square_up s_next in
  let? lower := square s in
  let? area := sub upper lower in
  let? assets := mul_up area (half_slope self) in
  check? check_mint_out assets (total_assets state) (max_assets self) in
  Ok assets.

Definition preview_withdraw (self : OffsetProgressiveCurve) (assets : Z) (state : CurveState)
    : curve_res :=
  check? check_curve_domains (total_assets state) (total_shares state)
           (max_assets self) (max_shares self) in
  check? check_withdraw assets (total_assets state) in
  let? s := add (total_shares state) (offset self) in
  let? deduct := div_up assets (half_slope self) in
  let? sq := square s in
  let? inner := sub sq deduct in
  let? root := sqrt_ud60x18 inner in
  sub s root.

Definition preview_redeem (self : OffsetProgressiveCurve) (shares : Z) (state : CurveState)
    : curve_res :=
  convert_to_assets_internal self shares state.

Definition convert_to_shares (self : OffsetProgressiveCurve) (assets : Z) (state : CurveState)
    : curve_res :=
  convert_to_shares_internal self assets state.

Definition convert_to_assets (self : OffsetProgressiveCurve) (shares : Z) (state : CurveState)
    : curve_res :=
  convert_to_assets_internal self shares state.

Definition current_price (self : OffsetProgressiveCurve) (state : CurveState) : curve_res :=
  check? check_curve_domains (total_assets state) (total_shares state)
           (max_assets self) (max_shares self) in
  let? s := add (total_shares state) (offset self) in
  mul_div s (slope self) unit_wad.

#[global] Instance offset_curve : Curve OffsetProgressiveCurve := {|
  CurveTrait.max_shares := max_shares;
  CurveTrait.max_assets := max_assets;
  CurveTrait.preview_deposit := preview_deposit;
  CurveTrait.preview_mint := preview_mint;
  CurveTrait.preview_withdraw := preview_withdraw;
  CurveTrait.preview_redeem := preview_redeem;
  CurveTrait.convert_to_shares := convert_to_shares;
  CurveTrait.convert_to_assets := convert_to_assets;
  CurveTrait.current_price := current_price
|}.
End Operations.

(** What the constructor establishes. *)
Record wf (c : OffsetProgressiveCurve) : Prop := {
  wf_half : 0 < half_slope c;
  wf_slope : slope c = 2 * half_slope c;
  wf_offset : 0 <= offset c;
  wf_max_shares : 0 <= max_shares c;
  wf_max_assets : 0 <= max_assets c <= U256_MAX;
  wf_domain : (max_shares c + offset c) * (max_shares c + offset c) <= U256_MAX;
  wf_area : max_assets c =
    ((max_shares c + offset c) * (max_shares c + offset c) / unit_wad
     - ceil_div (offset c * offset c) unit_wad) * half_slope c / unit_wad
}.

(** The shifted supply the curve integrates over. *)
Definition supply (c : OffsetProgressiveCurve) (st : CurveState) : Z := total_shares st + offset c.

(** The curve primitive: the area behind [x] (offset) shares before the slope applies. *)
Definition sq (x : Z) : Z := x * x / unit_wad.

Lemma sq_nonneg x : 0 <= sq x.
Proof. apply Z.div_pos; [nia|done]. Qed.

Lemma sq_mono x y : 0 <= x <= y -> sq x <= sq y.
Proof. intros. apply Z.div_le_mono; [done|nia]. Qed.

Lemma sq_root x n : x * x <= n * unit_wad -> sq x <= n.
Proof. intros. apply Z.div_le_upper_bound; [done|lia]. Qed.

(** ** What a successful quote says *)

Section Quotes.
Context `{BigUintSqrt} (c : OffsetProgressiveCurve) (Hwf : wf c) (st : CurveState).
Context (HA : 0 <= total_assets st) (HS : 0 <= total_shares st).

Local Abbreviation s := (supply c st).

Lemma offset_preview_deposit_ok a sh :
  0 <= a -> preview_deposit c a st = Ok sh ->
  0 <= sh /\ total_assets st + a <= max_assets c /\ total_shares st + sh <= max_shares c /\
  (s + sh) * (s + sh) <= (sq s + a * unit_wad / half_slope c) * unit_wad
    < (s + sh + 1) * (s + sh + 1).
Proof.
  destruct Hwf. intros Ha Hd. unfold preview_deposit, convert_to_shares_internal in Hd.
  curve_facts. fold (supply c st) in *. fold (sq s) in *.
  match goal with Hq : sqrt_ud60x18 _ = Ok ?r |- _ =>
    apply sqrt_ud60x18_ok in Hq as [? ?]; [replace (s + (r - s)) with r by lia|] end; [lia|].
  pose proof (sq_nonneg s). pose proof (Z.div_pos (a * unit_wad) (half_slope c)).
  pose proof unit_wad_pos. nia.
Qed.

Lemma offset_preview_mint_ok a sh :
  preview_mint c sh st = Ok a ->
  total_assets st + a <= max_assets c /\ total_shares st + sh <= max_shares c /\
  sq s <= ceil_div ((s + sh) * (s + sh)) unit_wad /\
  a = ceil_div ((ceil_div ((s + sh) * (s + sh)) unit_wad - sq s) * half_slope c) unit_wad.
Proof.
  intros Hm. unfold preview_mint, mul_up in Hm. curve_facts. fold (supply c st) in *. fold (sq s) in *. lia.
Qed.

Lemma offset_preview_withdraw_ok a sh :
  preview_withdraw c a st = Ok sh ->
  a <= total_assets st /\ 0 <= sh <= s /\
  ceil_div (a * unit_wad) (half_slope c) <= sq s /\
  (s - sh) * (s - sh) <= (sq s - ceil_div (a * unit_wad) (half_slope c)) * unit_wad.
Proof.
  destruct Hwf. intros Hw. unfold preview_withdraw, div_up in Hw.
  curve_facts. fold (supply c st) in *. fold (sq s) in *.
  match goal with Hq : sqrt_ud60x18 _ = Ok ?r |- _ =>
    apply sqrt_ud60x18_ok in Hq as [? ?]; [replace (s - (s - r)) with r by lia|lia] end.
  lia.
Qed.

Lemma offset_preview_redeem_ok a sh :
  preview_redeem c sh st = Ok a ->
  sh <= total_shares st /\ total_assets st <= max_assets c /\ total_shares st <= max_shares c /\
  sq (s - sh) <= sq s /\ a = (sq s - sq (s - sh)) * half_slope c / unit_wad /\ a <= U256_MAX.
Proof.
  intros Hr. unfold preview_redeem, convert_to_assets_internal in Hr.
  curve_facts. fold (supply c st) in *. fold (sq s) (sq (s - sh)) in *. lia.
Qed.
End Quotes.

(** ** Laws *)

Section Laws.
Context `{BigUintSqrt}.

Lemma new_wf sl off c : is_u256 sl -> is_u256 off -> new sl off = Ok c -> wf c.
Proof.
  intros [Hs _] [Ho _] Hn. unfold new, to_big in Hn.
  destruct (Z.eqb_spec sl 0) as [|Hs0]; cbn [orb] in Hn; [discriminate Hn|].
  destruct (Z.testbit sl 0) eqn:Hbit; [discriminate Hn|].
  rewrite Z.bit0_odd in Hbit. apply (f_equal negb) in Hbit. rewrite Z.negb_odd in Hbit.
  apply Z.even_spec in Hbit as [k ->]. rewrite Z.shiftr_div_pow2 in Hn by lia.
  change (2 ^ 1) with 2 in Hn. rewrite Z.mul_comm, Z.div_mul in Hn by lia.
  inv_res. rewrite ?from_big_ok in *. curve_facts. fold (sq off) in *.
  match goal with Hq : sqrt_ud60x18 _ = Ok ?r |- _ => apply sqrt_ud60x18_ok in Hq as [? [Hr _]] end;
    [|apply Z.div_pos; done].
  pose proof (div_spec U256_MAX unit_wad unit_wad_pos).
  split; simpl; rewrite ?Z.sub_add in *; try lia.
  split; [|lia]. apply Z.div_pos; [nia|done].
Qed.

Context (c : OffsetProgressiveCurve) (Hwf : wf c).

Lemma offset_deposit_then_redeem st : state_u256 st -> deposit_then_redeem_le c st.
Proof.
  intros [[HA _] [HS _]] a sh a' [Ha _] Hd Hr.
  apply (offset_preview_deposit_ok c Hwf st) in Hd as (Hsh & _ & _ & [Hle _]); [|done..].
  apply offset_preview_redeem_ok in Hr as (_ & _ & _ & _ & -> & _).
  apply sq_root in Hle. revert Hle. unfold after_deposit, supply; simpl. destruct Hwf.
  replace (total_shares st + sh + offset c - sh) with (total_shares st + offset c) by lia.
  replace (total_shares st + sh + offset c) with (total_shares st + offset c + sh) by lia.
  intros Hle. pose proof (div_spec (a * unit_wad) (half_slope c)).
  apply Z.div_le_upper_bound; [done|]. nia.
Qed.

Lemma offset_mint_price st : state_u256 st -> mint_price_suffices c st.
Proof.
  intros [[HA _] [HS _]] sh a sh' [Hsh _] Hm Hd.
  apply offset_preview_mint_ok in Hm as (_ & _ & Harea & Heq).
  set (up := ceil_div ((supply c st + sh) * (supply c st + sh)) unit_wad) in *.
  assert (Hup : (supply c st + sh) * (supply c st + sh) <= up * unit_wad)
    by (apply ceil_div_spec; done).
  assert (Ha : (up - sq (supply c st)) * half_slope c <= a * unit_wad)
    by (subst a; apply ceil_div_spec; done).
  destruct Hwf. assert (0 <= a) by (subst a; apply ceil_div_nonneg; [done|nia]).
  apply (offset_preview_deposit_ok c Hwf st) in Hd as (Hsh' & _ & _ & [_ Hlt]); [|done..].
  assert (up - sq (supply c st) <= a * unit_wad / half_slope c) by (apply div_ge; [done|exact Ha]).
  pose proof unit_wad_pos. assert (0 <= supply c st) by (unfold supply; lia).
  assert (up * unit_wad <= (sq (supply c st) + a * unit_wad / half_slope c) * unit_wad) by nia.
  destruct (Z.le_gt_cases sh sh') as [|Hgt]; [done|exfalso].
  assert ((supply c st + sh' + 1) * (supply c st + sh' + 1)
            <= (supply c st + sh) * (supply c st + sh)) by (apply Z.square_le_mono_nonneg; lia).
  lia.
Qed.

Lemma offset_withdraw_burn st : state_u256 st -> withdraw_burn_suffices c st.
Proof.
  intros [[HA _] [HS _]] a sh a' [Ha _] Hw Hr.
  apply (offset_preview_withdraw_ok c Hwf st) in Hw as (_ & _ & Hded & Hle); [|done..].
  apply offset_preview_redeem_ok in Hr as (_ & _ & _ & _ & -> & _).
  apply sq_root in Hle. destruct Hwf.
  pose proof (ceil_div_spec (a * unit_wad) (half_slope c)).
  apply div_ge; [done|]. nia.
Qed.

Lemma offset_growth st : state_u256 st -> growth_stays_in_domain c st.
Proof.
  intros [[HA _] [HS _]]. split.
  - intros a sh [Ha _] Hd. apply (offset_preview_deposit_ok c Hwf st) in Hd; [|done..]. simpl. lia.
  - intros a sh [Hsh _] Hm. apply offset_preview_mint_ok in Hm as (? & ? & ? & ->). simpl.
    split; [|lia]. destruct Hwf. apply ceil_div_nonneg; [done|nia].
Qed.

Lemma offset_redeem_range st sh a : preview_redeem c sh st = Ok a -> is_u256 a.
Proof.
  intros (_ & _ & _ & ? & -> & ?)%offset_preview_redeem_ok. destruct Hwf.
  split; [|done]. apply Z.div_pos; [nia|done].
Qed.
End Laws.

#[global] Instance offset_lawful `{BigUintSqrt} : LawfulCurve OffsetProgressiveCurve := {|
  curve_wf := wf;
  state_ok _ _ := True;
  lawful_rounding c st Hw _ Hu :=
    conj (offset_deposit_then_redeem c Hw st Hu)
      (conj (offset_mint_price c Hw st Hu) (offset_withdraw_burn c Hw st Hu));
  lawful_growth c st Hw _ Hu := offset_growth c Hw st Hu;
  lawful_redeem_range c st sh a Hw _ _ _ Hr := offset_redeem_range c Hw st sh a Hr
|}.

(** ** Solvency *)

(** The assets cover the whole area under the curve up to the supply, exactly
    (before the final division by the unit). *)
Definition backed (c : OffsetProgressiveCurve) (st : CurveState) : Prop :=
  0 <= total_assets st /\ 0 <= total_shares st /\
  half_slope c * (sq (supply c st) - sq (offset c)) <= total_assets st * unit_wad.

Section Solvency.
Context `{BigUintSqrt} (c : OffsetProgressiveCurve) (Hwf : wf c).

Lemma backed_step st st' : backed c st -> vault_step c st st' -> backed c st'.
Proof.
  intros (HA & HS & Hb) Hstep. destruct Hwf. pose proof unit_wad_pos.
  destruct Hstep as [a sh [Ha _] Hd|a sh [Hsh _] Hm|a sh [Hsh _] Hr Hle|a sh [Ha _] Hw Hle];
    unfold backed; simpl.
  - apply (offset_preview_deposit_ok c Hwf st) in Hd as (? & _ & _ & [Hq%sq_root _]); [|done..].
    replace (supply c (after_deposit st a sh)) with (supply c st + sh)
      by (unfold supply; simpl; lia).
    pose proof (div_spec (a * unit_wad) (half_slope c)). repeat split; nia.
  - apply offset_preview_mint_ok in Hm as (_ & _ & Har & ->).
    replace (supply c (after_deposit st _ sh)) with (supply c st + sh)
      by (unfold supply; simpl; lia).
    set (up := ceil_div _ unit_wad) in *.
    assert (Hq : sq (supply c st + sh) <= up) by (apply ceil_div_bounds; done).
    pose proof (ceil_div_spec ((up - sq (supply c st)) * half_slope c) unit_wad).
    pose proof (ceil_div_nonneg ((up - sq (supply c st)) * half_slope c) unit_wad).
    repeat split; nia.
  - apply offset_preview_redeem_ok in Hr as (? & _ & _ & ? & Heq & _).
    replace (supply c (after_redeem st a sh)) with (supply c st - sh)
      by (unfold supply; simpl; lia).
    pose proof (div_spec ((sq (supply c st) - sq (supply c st - sh)) * half_slope c) unit_wad).
    repeat split; [lia|lia|]. rewrite Heq. nia.
  - apply (offset_preview_withdraw_ok c Hwf st) in Hw as (? & ? & ? & Hq%sq_root); [|done..].
    replace (supply c (after_redeem st a sh)) with (supply c st - sh)
      by (unfold supply; simpl; lia).
    pose proof (ceil_div_spec (a * unit_wad) (half_slope c)).
    repeat split; [lia|lia|]. nia.
Qed.

Lemma backed_reachable st : vault_reachable c st -> backed c st.
Proof.
  induction 1; [|eauto using backed_step].
  unfold backed, supply; cbn. repeat split; [done..|]. by rewrite Z.sub_diag, Z.mul_0_r.
Qed.

Lemma backed_redeem_covered st sh a :
  backed c st -> is_u256 sh -> preview_redeem c sh st = Ok a -> a <= total_assets st.
Proof.
  intros (HA & HS & Hb) [? _] (? & _ & _ & ? & -> & _)%offset_preview_redeem_ok. destruct Hwf.
  assert (sq (offset c) <= sq (supply c st - sh)) by (apply sq_mono; unfold supply; lia).
  apply Z.div_le_upper_bound; [done|]. nia.
Qed.

(** Inside the domain, redeeming is total when the curve's largest payout
    (one rounding unit above [max_assets]) fits in 256 bits. *)
Lemma redeem_total st sh :
  0 <= total_shares st <= max_shares c -> total_assets st <= max_assets c ->
  0 <= sh <= total_shares st ->
  max_assets c + half_slope c / unit_wad + 2 <= U256_MAX ->
  exists a, preview_redeem c sh st = Ok a.
Proof.
  intros HS HA Hsh Hmax. destruct Hwf. pose proof unit_wad_pos.
  assert (Hdom : forall x, 0 <= x <= max_shares c + offset c -> x * x / unit_wad <= U256_MAX).
  { intros x Hx. apply Z.div_le_upper_bound; [done|]. nia. }
  assert (Hfit : forall x, 0 <= x <= max_shares c + offset c -> x <= U256_MAX) by (intros; nia).
  exists ((sq (supply c st) - sq (supply c st - sh)) * half_slope c / unit_wad).
  assert (sq (supply c st - sh) <= sq (supply c st)) by (apply sq_mono; unfold supply; lia).
  assert (Harea : (sq (supply c st) - sq (supply c st - sh)) * half_slope c / unit_wad <= U256_MAX).
  { assert (Htop : sq (supply c st) <= sq (max_shares c + offset c))
      by (apply sq_mono; unfold supply; lia).
    assert (Hlow : sq (offset c) <= sq (supply c st - sh)) by (apply sq_mono; unfold supply; lia).
    pose proof (ceil_div_bounds (offset c * offset c) unit_wad unit_wad_pos) as Hc.
    fold (sq (offset c)) in Hc. rewrite wf_area0 in Hmax. fold (sq (max_shares c + offset c)) in Hmax.
    set (span := sq (max_shares c + offset c) - ceil_div (offset c * offset c) unit_wad) in *.
    pose proof (div_spec (span * half_slope c) unit_wad).
    pose proof (div_spec (half_slope c) unit_wad).
    apply Z.lt_le_incl, Z.div_lt_upper_bound; [done|]. nia. }
  unfold preview_redeem, convert_to_assets_internal.
  apply (res_bind_intro tt); [apply check_curve_domains_ok; lia|].
  apply (res_bind_intro tt); [apply check_redeem_ok; lia|].
  apply (res_bind_intro (supply c st)); [apply add_ok; unfold supply; split; [done|apply Hfit; lia]|].
  apply (res_bind_intro (supply c st - sh)); [apply sub_ok; unfold supply; lia|].
  apply (res_bind_intro (sq (supply c st)));
    [apply square_ok; split; [done|apply Hdom; unfold supply; lia]|].
  apply (res_bind_intro (sq (supply c st - sh)));
    [apply square_ok; split; [done|apply Hdom; unfold supply; lia]|].
  apply (res_bind_intro (sq (supply c st) - sq (supply c st - sh))); [apply sub_ok; lia|].
  apply mul_div_ok. done.
Qed.

Lemma domain_step st st' :
  state_u256 st -> total_assets st <= max_assets c -> total_shares st <= max_shares c ->
  vault_step c st st' ->
  total_assets st' <= max_assets c /\ total_shares st' <= max_shares c.
Proof.
  intros Hu ? ? [a sh Ha Hd|a sh Hsh Hm|a sh Hsh Hr _|a sh [Ha _] Hw _]; simpl.
  - destruct (offset_growth c Hwf st Hu) as [Hg _]. by apply (Hg a sh) in Hd as (_ & ? & ?).
  - destruct (offset_growth c Hwf st Hu) as [_ Hg]. by apply (Hg a sh) in Hm as (_ & ? & ?).
  - apply offset_redeem_range in Hr as [? _]; [|done]. destruct Hsh. lia.
  - destruct Hu as [[? _] [? _]]. apply offset_preview_withdraw_ok in Hw; [|done..]. lia.
Qed.

Lemma domain_u256 st :
  backed c st -> total_assets st <= max_assets c -> total_shares st <= max_shares c ->
  state_u256 st.
Proof. intros (? & ? & _) ? ?. destruct Hwf. repeat split; try lia. nia. Qed.

Lemma domain_reachable st :
  vault_reachable c st -> total_assets st <= max_assets c /\ total_shares st <= max_shares c.
Proof.
  induction 1 as [|st st' Hr [IHa IHs] Hstep]; [destruct Hwf; simpl; lia|].
  eapply domain_step; [|done..]. by apply domain_u256; [apply backed_reachable| |].
Qed.
End Solvency.

(** ** Properties *)

(** Progressive curve, rounding. The quotes of every curve the
    constructor accepts round in the vault's favour, in every state of the
    256-bit totals: no deposit can be redeemed at once for more than was paid,
    the mint price buys the minted shares, the withdrawal burn covers the
    assets. *)
Theorem offset_rounding_favours_vault `{BigUintSqrt} (slope offset : Z)
  (c : OffsetProgressiveCurve) (st : CurveState)
  (Hs : is_u256 slope) (Ho : is_u256 offset) (Hnew : new slope offset = Ok c)
  (Hst : state_u256 st) : rounding_favours_vault c st.
Proof.
  pose proof (new_wf slope offset c Hs Ho Hnew).
  repeat split; [apply offset_deposit_then_redeem|apply offset_mint_price
                |apply offset_withdraw_burn]; done.
Qed.

(** The curve of [tests/fixtures/parity.json]: slope 2, offset 0.5 in UD60x18. *)
Definition sample_slope : Z := 2000000000000000000.
Definition sample_offset : Z := 500000000000000000.
Definition sample : OffsetProgressiveCurve :=
  match @new floor_sqrt sample_slope sample_offset with
  | Ok c => c
  | Err _ => Build_OffsetProgressiveCurve 0 0 0 0 0
  end.
Definition sample_vault : CurveState := {| total_assets := 10 ^ 18; total_shares := 10 ^ 19 |}.

(** The model computes the fixture's values. *)
Example parity_fixtures :
  max_shares sample = 340282366920938463462874607431768211455 /\
  max_assets sample = 115792089237316195423570985008687907852589169931798687112530 /\
  current_price sample empty_vault = Ok (10 ^ 18) /\
  @preview_deposit floor_sqrt sample (10 ^ 18) empty_vault = Ok 618033988749894848 /\
  preview_mint sample (10 ^ 18) {| total_assets := 0; total_shares := 10 ^ 19 |}
    = Ok 22000000000000000000 /\
  preview_redeem sample (10 ^ 18) {| total_assets := 0; total_shares := 10 ^ 19 |}
    = Ok 20000000000000000000 /\
  @preview_withdraw floor_sqrt sample (10 ^ 18) sample_vault = Ok 47727519816563834 /\
  @new floor_sqrt 3 sample_offset = Err InvalidSlope.
Proof. vm_compute. repeat split. Qed.

Lemma offset_rounding_favours_vault_witness :
  is_ok (@preview_deposit floor_sqrt sample (10 ^ 18) sample_vault) = true /\
  @rounding_favours_vault _ (@offset_curve floor_sqrt) sample sample_vault.
Proof.
  split; [vm_compute; reflexivity|].
  apply (@offset_rounding_favours_vault floor_sqrt sample_slope sample_offset).
  1,2: vm_compute; split; discriminate.
  - vm_compute. reflexivity.
  - vm_compute. repeat split; discriminate.
Defined.

(** C10 (progressive curve, solvency). Open a vault on any curve the
    constructor accepts and run deposits, mints, redemptions and withdrawals in
    any order. Then any number of the existing shares can be redeemed: the
    quote does not fail and the vault holds the assets it pays. The one
    assumption is that the curve's domain keeps a rounding unit of headroom
    below 256 bits. *)
Theorem offset_vault_redeemable `{BigUintSqrt} (slope offset : Z) (c : OffsetProgressiveCurve)
  (st : CurveState) (shares : Z)
  (Hs : is_u256 slope) (Ho : is_u256 offset) (Hnew : new slope offset = Ok c)
  (Hroom : max_assets c + half_slope c / unit_wad + 2 <= U256_MAX)
  (Hreach : vault_reachable c st) (Hsh : 0 <= shares <= total_shares st) :
  exists assets, preview_redeem c shares st = Ok assets /\ 0 <= assets <= total_assets st.
Proof.
  pose proof (new_wf slope offset c Hs Ho Hnew) as Hwf.
  pose proof (backed_reachable c Hwf st Hreach) as Hb.
  destruct (domain_reachable c Hwf st Hreach).
  destruct (redeem_total c Hwf st shares) as [a Ha]; try done; [lia|].
  exists a. split; [done|].
  pose proof (domain_u256 c Hwf st Hb) as [_ [? ?]]; [done..|].
  split; [eapply offset_redeem_range; done|].
  eapply backed_redeem_covered; [done..| |done]. split; lia.
Qed.

Lemma offset_vault_redeemable_witness :
  exists assets, preview_redeem sample (10 ^ 6)
      (after_deposit empty_vault (10 ^ 18) 618033988749894848) = Ok assets /\
    0 <= assets <= 10 ^ 18.
Proof.
  apply (@offset_vault_redeemable floor_sqrt sample_slope sample_offset).
  1,2: vm_compute; split; discriminate.
  - vm_compute. reflexivity.
  - vm_compute. discriminate.
  - eapply reach_step; [apply reach_empty|apply step_deposit].
    + vm_compute; split; discriminate.
    + vm_compute. reflexivity.
  - vm_compute; split; discriminate.
Defined.
End OffsetProgressiveCurve.
