(* ===== verification/Fees.v ===== *)
(** * Fee-aware quotes

    [crates/curves/src/fees.rs]: the fee schedule of a vault, the breakdown of
    the fees a quote charges, and the deposit and redeem previews. The
    previews are generic in the curve, so their theorems use only the
    [LawfulCurve] interface. *)

From S2P Require Import Prelude MachineInt CurvesMath CurveTrait LinearCurve.

Module FeeSchedule.
Record FeeSchedule := {
  denominator : Z;
  protocol_fee : Z;
  entry_fee : Z;
  exit_fee : Z
}.

(** A schedule whose fields are [U256] values. *)
Definition valid (f : FeeSchedule) : Prop :=
  is_u256 (denominator f) /\ is_u256 (protocol_fee f) /\ is_u256 (entry_fee f) /\
  is_u256 (exit_fee f).
End FeeSchedule.

Record AtomFees := { atom_wallet_deposit_fee : Z }.

Module TripleFees.
Record TripleFees := { atom_deposit_fraction : Z }.
End TripleFees.

Module FeeBreakdown.
Record FeeBreakdown := {
  protocol_fee : Z;
  entry_fee : Z;
  exit_fee : Z;
  atom_wallet_fee : Z;
  atom_deposit_fraction : Z
}.

Definition total (self : FeeBreakdown) : curve_res :=
  let? a := ok_or (checked_add (protocol_fee self) (entry_fee self)) MathOverflow in
  let? b := ok_or (checked_add a (exit_fee self)) MathOverflow in
  let? c := ok_or (checked_add b (atom_wallet_fee self)) MathOverflow in
  ok_or (checked_add c (atom_deposit_fraction self)) MathOverflow.

Definition parts (self : FeeBreakdown) : list Z :=
  [protocol_fee self; entry_fee self; exit_fee self; atom_wallet_fee self;
   atom_deposit_fraction self].

End FeeBreakdown.

Record DepositQuote := {
  dq_shares : Z;
  dq_assets_before_fees : Z;
  dq_assets_after_fees : Z;
  dq_fees : FeeBreakdown.FeeBreakdown
}.

Record RedeemQuote := {
  rq_shares : Z;
  rq_assets_before_fees : Z;
  rq_assets_after_fees : Z;
  rq_fees : FeeBreakdown.FeeBreakdown
}.

(** [if charge { fee_on_raw(..)? } else { U256::ZERO }] *)
Definition fee_if (charge : bool) (assets fee denominator : Z) : curve_res :=
  if charge then fee_on_raw assets fee denominator else Ok 0.

Section Previews.
Context {C : Type} `{Curve C}.

Definition preview_deposit_with_fees (curve : C) (assets_before_fees : Z) (state : CurveState)
    (fees : FeeSchedule.FeeSchedule) (charge_entry_fee : bool)
    : result DepositQuote CurveError :=
  let? protocol_fee := fee_on_raw assets_before_fees (FeeSchedule.protocol_fee fees)
                         (FeeSchedule.denominator fees) in
  let? entry_fee := fee_if charge_entry_fee assets_before_fees (FeeSchedule.entry_fee fees)
                      (FeeSchedule.denominator fees) in
  let? total_fees := ok_or (checked_add protocol_fee entry_fee) MathOverflow in
  let? assets_after_fees :=
    ok_or (checked_sub assets_before_fees total_fees) MathUnderflow in
  let? shares := preview_deposit curve assets_after_fees state in
  Ok {| dq_shares := shares;
        dq_assets_before_fees := assets_before_fees;
        dq_assets_after_fees := assets_after_fees;
        dq_fees := {| FeeBreakdown.protocol_fee := protocol_fee;
                      FeeBreakdown.entry_fee := entry_fee;
                      FeeBreakdown.exit_fee := 0;
                      FeeBreakdown.atom_wallet_fee := 0;
                      FeeBreakdown.atom_deposit_fraction := 0 |} |}.

Definition preview_redeem_with_fees (curve : C) (shares : Z) (state : CurveState)
    (fees : FeeSchedule.FeeSchedule) (charge_exit_fee : bool) : result RedeemQuote CurveError :=
  let? assets_before_fees := preview_redeem curve shares state in
  let? protocol_fee := fee_on_raw assets_before_fees (FeeSchedule.protocol_fee fees)
                         (FeeSchedule.denominator fees) in
  let? exit_fee := fee_if charge_exit_fee assets_before_fees (FeeSchedule.exit_fee fees)
                     (FeeSchedule.denominator fees) in
  let? total_fees := ok_or (checked_add protocol_fee exit_fee) MathOverflow in
  let? assets_after_fees :=
    ok_or (checked_sub assets_before_fees total_fees) MathUnderflow in
  Ok {| rq_shares := shares;
        rq_assets_before_fees := assets_before_fees;
        rq_assets_after_fees := assets_after_fees;
        rq_fees := {| FeeBreakdown.protocol_fee := protocol_fee;
                      FeeBreakdown.entry_fee := 0;
                      FeeBreakdown.exit_fee := exit_fee;
                      FeeBreakdown.atom_wallet_fee := 0;
                      FeeBreakdown.atom_deposit_fraction := 0 |} |}.

Definition preview_atom_deposit (curve : C) (assets : Z) (state : CurveState)
    (fees : FeeSchedule.FeeSchedule) (atom_fees : AtomFees) (charge_entry_fee : bool)
    : result DepositQuote CurveError :=
  let? protocol_fee := fee_on_raw assets (FeeSchedule.protocol_fee fees)
                         (FeeSchedule.denominator fees) in
  let? entry_fee := fee_if charge_entry_fee assets (FeeSchedule.entry_fee fees)
                      (FeeSchedule.denominator fees) in
  let? atom_wallet_fee := fee_on_raw assets (atom_wallet_deposit_fee atom_fees)
                            (FeeSchedule.denominator fees) in
  let? subtotal := ok_or (checked_add protocol_fee entry_fee) MathOverflow in
  let? total := ok_or (checked_add subtotal atom_wallet_fee) MathOverflow in
  let? assets_after_fees := ok_or (checked_sub assets total) MathUnderflow in
  let? shares := preview_deposit curve assets_after_fees state in
  Ok {| dq_shares := shares;
        dq_assets_before_fees := assets;
        dq_assets_after_fees := assets_after_fees;
        dq_fees := {| FeeBreakdown.protocol_fee := protocol_fee;
                      FeeBreakdown.entry_fee := entry_fee;
                      FeeBreakdown.exit_fee := 0;
                      FeeBreakdown.atom_wallet_fee := atom_wallet_fee;
                      FeeBreakdown.atom_deposit_fraction := 0 |} |}.

Definition preview_triple_deposit (curve : C) (assets : Z) (state : CurveState)
    (fees : FeeSchedule.FeeSchedule) (triple_fees : TripleFees.TripleFees)
    (charge_entry_fee charge_atom_deposit_fraction : bool) : result DepositQuote CurveError :=
  let? protocol_fee := fee_on_raw assets (FeeSchedule.protocol_fee fees)
                         (FeeSchedule.denominator fees) in
  let? entry_fee := fee_if charge_entry_fee assets (FeeSchedule.entry_fee fees)
                      (FeeSchedule.denominator fees) in
  let? atom_deposit_fraction :=
    fee_if charge_atom_deposit_fraction assets (TripleFees.atom_deposit_fraction triple_fees)
      (FeeSchedule.denominator fees) in
  let? subtotal := ok_or (checked_add protocol_fee entry_fee) MathOverflow in
  let? total := ok_or (checked_add subtotal atom_deposit_fraction) MathOverflow in
  let? assets_after_fees := ok_or (checked_sub assets total) MathUnderflow in
  let? shares := preview_deposit curve assets_after_fees state in
  Ok {| dq_shares := shares;
        dq_assets_before_fees := assets;
        dq_assets_after_fees := assets_after_fees;
        dq_fees := {| FeeBreakdown.protocol_fee := protocol_fee;
                      FeeBreakdown.entry_fee := entry_fee;
                      FeeBreakdown.exit_fee := 0;
                      FeeBreakdown.atom_wallet_fee := 0;
                      FeeBreakdown.atom_deposit_fraction := atom_deposit_fraction |} |}.
End Previews.

(** ** Balance *)

Lemma fee_on_raw_ok amount fee d r :
  0 <= amount -> 0 <= fee -> 0 <= d -> fee_on_raw amount fee d = Ok r ->
  0 <= r /\ (r - 1) * d < amount * fee <= r * d.
Proof.
  unfold fee_on_raw. intros ? ? ? (? & -> & _)%mul_div_up_ok.
  split; [apply ceil_div_nonneg; nia|apply ceil_div_spec; lia].
Qed.

Lemma fee_if_nonneg charge amount fee d r :
  0 <= amount -> 0 <= fee -> 0 <= d -> fee_if charge amount fee d = Ok r -> 0 <= r.
Proof.
  intros. destruct charge; simpl in *; [|by simplify_eq].
  by eapply (fee_on_raw_ok amount fee d r).
Qed.

(** The breakdown of a quote accounts for exactly what was deducted. *)
Definition balanced (before after : Z) (fees : FeeBreakdown.FeeBreakdown) : Prop :=
  Forall (fun z => 0 <= z) (FeeBreakdown.parts fees) /\ 0 <= after /\
  exists t, FeeBreakdown.total fees = Ok t /\ before = after + t.

Lemma balanced_intro before after p e x w f :
  before <= U256_MAX -> 0 <= p -> 0 <= e -> 0 <= x -> 0 <= w -> 0 <= f -> 0 <= after ->
  before = after + (p + e + x + w + f) ->
  balanced before after
    {| FeeBreakdown.protocol_fee := p; FeeBreakdown.entry_fee := e; FeeBreakdown.exit_fee := x;
       FeeBreakdown.atom_wallet_fee := w; FeeBreakdown.atom_deposit_fraction := f |}.
Proof.
  intros. split; [by repeat constructor|]. split; [done|].
  exists (p + e + x + w + f). split; [|done]. unfold FeeBreakdown.total; simpl.
  apply (res_bind_intro (p + e)); [apply ok_or_ok, checked_add_some; lia|].
  apply (res_bind_intro (p + e + x)); [apply ok_or_ok, checked_add_some; lia|].
  apply (res_bind_intro (p + e + x + w)); [apply ok_or_ok, checked_add_some; lia|].
  apply ok_or_ok, checked_add_some; lia.
Qed.

(** Every way a deposit can be quoted. *)
Inductive deposit_quoted {C} `{Curve C} (c : C) (st : CurveState) (f : FeeSchedule.FeeSchedule)
    (assets : Z) (q : DepositQuote) : Prop :=
  | quoted_plain charge :
      preview_deposit_with_fees c assets st f charge = Ok q -> deposit_quoted c st f assets q
  | quoted_atom af charge :
      is_u256 (atom_wallet_deposit_fee af) ->
      preview_atom_deposit c assets st f af charge = Ok q -> deposit_quoted c st f assets q
  | quoted_triple tf charge charge' :
      is_u256 (TripleFees.atom_deposit_fraction tf) ->
      preview_triple_deposit c assets st f tf charge charge' = Ok q ->
      deposit_quoted c st f assets q.

Ltac fee_facts :=
  inv_res; rewrite ?checked_add_some, ?checked_sub_some in *; destruct_and?; subst;
  repeat match goal with
  | Hf : fee_on_raw ?a ?f ?d = Ok ?r |- _ =>
      lazymatch goal with
      | _ : 0 <= r |- _ => fail
      | _ => assert (0 <= r) by (eapply fee_on_raw_ok; [| | |exact Hf]; lia)
      end
  | Hf : fee_if ?b ?a ?f ?d = Ok ?r |- _ =>
      lazymatch goal with
      | _ : 0 <= r |- _ => fail
      | _ => assert (0 <= r) by (eapply fee_if_nonneg; [| | |exact Hf]; lia)
      end
  end.

Lemma deposit_quoted_spec {C} `{Curve C} (c : C) st f assets q :
  FeeSchedule.valid f -> is_u256 assets -> deposit_quoted c st f assets q ->
  dq_assets_before_fees q = assets /\
  balanced assets (dq_assets_after_fees q) (dq_fees q) /\
  preview_deposit c (dq_assets_after_fees q) st = Ok (dq_shares q).
Proof.
  intros ([? _] & [? _] & [? _] & [? _]) [? ?] [charge Hq|af charge [? _] Hq|tf c1 c2 [? _] Hq];
    [unfold preview_deposit_with_fees in Hq|unfold preview_atom_deposit in Hq
    |unfold preview_triple_deposit in Hq];
    fee_facts; simpl; (split; [done|split; [apply balanced_intro; lia|done]]).
Qed.

Lemma redeem_quoted_spec {C} `{LawfulCurve C} (c : C) st f charge shares q :
  curve_wf c -> state_ok c st -> state_u256 st -> FeeSchedule.valid f -> is_u256 shares ->
  preview_redeem_with_fees c shares st f charge = Ok q ->
  rq_shares q = shares /\ preview_redeem c shares st = Ok (rq_assets_before_fees q) /\
  balanced (rq_assets_before_fees q) (rq_assets_after_fees q) (rq_fees q).
Proof.
  intros Hw Hs Hu ([? _] & [? _] & [? _] & [? _]) Hsh Hq.
  unfold preview_redeem_with_fees in Hq. inv_res.
  match goal with Hp : preview_redeem _ _ _ = Ok ?a |- _ =>
    destruct (lawful_redeem_range c st shares a Hw Hs Hu Hsh Hp) end.
  fee_facts; simpl. split; [done|split; [done|apply balanced_intro; lia]].
Qed.

Lemma balanced_after_le before after fees : balanced before after fees -> 0 <= after <= before.
Proof.
  intros (Hparts & ? & t & Ht & ->). split; [done|].
  unfold FeeBreakdown.parts in Hparts. repeat (inversion Hparts as [|?? ? Hparts']; subst;
    clear Hparts; rename Hparts' into Hparts).
  unfold FeeBreakdown.total in Ht. inv_res. rewrite ?checked_add_some in *. destruct_and?. lia.
Qed.

(** ** Properties *)

(** Fees, balance. For any schedule and any of the three deposit previews,
    a successful quote prices exactly the deposit net of fees on the curve, and
    its breakdown accounts for the difference to the unit: the five parts are
    non-negative, [FeeBreakdown::total] does not overflow on them, and the
    assets before fees are the assets after fees plus that total. *)
Theorem deposit_quote_balances {C} `{Curve C} (c : C) (st : CurveState)
  (f : FeeSchedule.FeeSchedule) (assets : Z) (q : DepositQuote)
  (Hf : FeeSchedule.valid f) (Ha : is_u256 assets) (Hq : deposit_quoted c st f assets q) :
  dq_assets_before_fees q = assets /\
  balanced assets (dq_assets_after_fees q) (dq_fees q) /\
  preview_deposit c (dq_assets_after_fees q) st = Ok (dq_shares q).
Proof. by eapply deposit_quoted_spec. Qed.

(** Fees, no profit. On any lawful curve, whatever fees are charged on the
    way in and out: depositing and redeeming the quoted shares at once returns
    at most the assets paid in, and the redeem quote balances as well. *)
Theorem fee_round_trip_never_profits {C} `{LawfulCurve C} (c : C) (st : CurveState)
  (f g : FeeSchedule.FeeSchedule) (assets : Z) (q : DepositQuote) (r : RedeemQuote) (charge : bool)
  (Hw : curve_wf c) (Hs : state_ok c st) (Hu : state_u256 st)
  (Hf : FeeSchedule.valid f) (Hg : FeeSchedule.valid g) (Ha : is_u256 assets)
  (Hq : deposit_quoted c st f assets q)
  (st' := after_deposit st (dq_assets_after_fees q) (dq_shares q))
  (Hs' : state_ok c st') (Hu' : state_u256 st')
  (Hr : preview_redeem_with_fees c (dq_shares q) st' g charge = Ok r) :
  rq_assets_after_fees r <= assets /\
  balanced (rq_assets_before_fees r) (rq_assets_after_fees r) (rq_fees r).
Proof.
  destruct (deposit_quoted_spec c st f assets q Hf Ha Hq) as (_ & Hbal & Hd).
  pose proof (balanced_after_le _ _ _ Hbal).
  assert (Hau : is_u256 (dq_assets_after_fees q)) by (destruct Ha; split; lia).
  destruct (lawful_growth c st Hw Hs Hu) as [Hgr _].
  destruct (Hgr _ _ Hau Hd) as [Hsh _].
  assert (Hshu : is_u256 (dq_shares q)).
  { destruct Hu' as [_ [_ Hmax]], Hu as [_ [? _]]. subst st'. simpl in Hmax. split; lia. }
  destruct (redeem_quoted_spec c st' g charge _ r Hw Hs' Hu' Hg Hshu Hr) as (_ & Hred & Hbr).
  split; [|done]. pose proof (balanced_after_le _ _ _ Hbr).
  destruct (lawful_rounding c st Hw Hs Hu) as [Hround _].
  pose proof (Hround _ _ _ Hau Hd Hred). lia.
Qed.

(** One percent protocol fee, half a percent on entry and exit. *)
Definition sample_fees : FeeSchedule.FeeSchedule :=
  {| FeeSchedule.denominator := 10000; FeeSchedule.protocol_fee := 100;
     FeeSchedule.entry_fee := 50; FeeSchedule.exit_fee := 50 |}.
Definition sample_quote : DepositQuote :=
  {| dq_shares := 421; dq_assets_before_fees := 1001; dq_assets_after_fees := 984;
     dq_fees := {| FeeBreakdown.protocol_fee := 11; FeeBreakdown.entry_fee := 6;
                   FeeBreakdown.exit_fee := 0; FeeBreakdown.atom_wallet_fee := 0;
                   FeeBreakdown.atom_deposit_fraction := 0 |} |}.
Definition sample_state : CurveState := {| total_assets := 7; total_shares := 3 |}.
Definition sample_redeem : RedeemQuote :=
  {| rq_shares := 421; rq_assets_before_fees := 983; rq_assets_after_fees := 968;
     rq_fees := {| FeeBreakdown.protocol_fee := 10; FeeBreakdown.entry_fee := 0;
                   FeeBreakdown.exit_fee := 5; FeeBreakdown.atom_wallet_fee := 0;
                   FeeBreakdown.atom_deposit_fraction := 0 |} |}.

Example sample_quote_computes :
  preview_deposit_with_fees LinearCurve.new 1001 sample_state sample_fees true = Ok sample_quote /\
  preview_redeem_with_fees LinearCurve.new (dq_shares sample_quote)
    (after_deposit sample_state 984 (dq_shares sample_quote)) sample_fees true = Ok sample_redeem.
Proof. vm_compute. split; reflexivity. Qed.

Lemma deposit_quote_balances_witness :
  balanced 1001 984 (dq_fees sample_quote).
Proof.
  refine (proj1 (proj2 (deposit_quote_balances LinearCurve.new sample_state sample_fees 1001
    sample_quote _ _ _))).
  - vm_compute. repeat split; discriminate.
  - vm_compute. split; discriminate.
  - apply (quoted_plain _ _ _ _ _ true). vm_compute. reflexivity.
Defined.

Lemma fee_round_trip_never_profits_witness : 968 <= 1001.
Proof.
  refine (proj1 (fee_round_trip_never_profits LinearCurve.new sample_state sample_fees sample_fees
    1001 sample_quote sample_redeem true I _ _ _ _ _ _ _ _ _)).
  1,7: discriminate.
  1,2,3,4,6: vm_compute; repeat split; discriminate.
  - apply (quoted_plain _ _ _ _ _ true). vm_compute. reflexivity.
  - vm_compute. reflexivity.
Defined.
