(* ===== verification/Events.v ===== *)
(** * Events

    [crates/shared/src/types.rs], [models.rs] and [parsed_event.rs]: the event
    types and their canonical names, the stored event, the typed records, and
    the parse that lifts a stored event to a typed one without ever losing it.

    Timestamps are counted in microseconds since the epoch. The [BigDecimal]
    fields of the records hold [uint256] values of the contract and are
    integers here. [serde_json] appears as its public [Value] type and, for the
    derived record codecs, as the class [Codec] with its round-trip law. *)

From S2P Require Import Prelude.

(** The public [serde_json::Value]; a number keeps its literal text. *)
#[warnings="-register-all"]
Inductive Value :=
  | Null
  | Bool (b : bool)
  | Number (literal : string)
  | VString (s : string)
  | Array (vs : list Value)
  | Object (fields : list (string * Value)).

(** [serde_json::Error], by its message. *)
Definition SerdeError : Type := string.

Abbreviation BlockNumber := Z (only parsing).
Abbreviation LogIndex := Z (only parsing).
Abbreviation SequenceNumber := Z (only parsing).
Abbreviation DateTime := Z (only parsing).
Abbreviation BigDecimal := Z (only parsing).

(** ** Event types *)

Module EventType.
Inductive EventType :=
  | AtomCreated
  | AtomContextRegistered
  | TripleCreated
  | Deposited
  | Redeemed
  | SharePriceChanged
  | ProtocolFeeAccrued.

#[global] Instance EventType_eq_dec : EqDecision EventType.
Proof. solve_decision. Defined.

Definition as_str (self : EventType) : string :=
  match self with
  | AtomCreated => "AtomCreated"
  | AtomContextRegistered => "AtomContextRegistered"
  | TripleCreated => "TripleCreated"
  | Deposited => "Deposited"
  | Redeemed => "Redeemed"
  | SharePriceChanged => "SharePriceChanged"
  | ProtocolFeeAccrued => "ProtocolFeeAccrued"
  end.

Definition _event_type_exhaustive_check (et : EventType) : string :=
  match et with
  | AtomCreated => "AtomCreated"
  | AtomContextRegistered => "AtomContextRegistered"
  | TripleCreated => "TripleCreated"
  | Deposited => "Deposited"
  | Redeemed => "Redeemed"
  | SharePriceChanged => "SharePriceChanged"
  | ProtocolFeeAccrued => "ProtocolFeeAccrued"
  end.

Record UnknownEventType := { unknown : string }.

Definition from_str (s : string) : result EventType UnknownEventType :=
  if decide (s = "AtomCreated") then Ok AtomCreated
  else if decide (s = "AtomContextRegistered") then Ok AtomContextRegistered
  else if decide (s = "TripleCreated") then Ok TripleCreated
  else if decide (s = "Deposited") then Ok Deposited
  else if decide (s = "Redeemed") then Ok Redeemed
  else if decide (s = "SharePriceChanged") then Ok SharePriceChanged
  else if decide (s = "ProtocolFeeAccrued") then Ok ProtocolFeeAccrued
  else Err {| unknown := s |}.

Lemma from_as_str t : from_str (as_str t) = Ok t.
Proof. destruct t; reflexivity. Qed.

Lemma from_str_ok s t : from_str s = Ok t <-> s = as_str t.
Proof.
  split; [|intros ->; apply from_as_str].
  unfold from_str. repeat (case_decide; [by intros [= <-]|]). done.
Qed.

Lemma from_str_err s e : from_str s = Err e -> e = {| unknown := s |}.
Proof. unfold from_str. repeat (case_decide; [done|]). by intros [= <-]. Qed.
End EventType.

Module VaultType.
Inductive VaultType := Atom | Triple | Unknown.
Definition to_string (self : VaultType) : string :=
  match self with Atom => "Atom" | Triple => "Triple" | Unknown => "Unknown" end.
End VaultType.

Module IngestionMode.
Inductive IngestionMode := Historical | Realtime.
Definition to_string (self : IngestionMode) : string :=
  match self with Historical => "historical" | Realtime => "realtime" end.
End IngestionMode.

(** ** The stored event and the typed records *)

Module StoredEvent.
Record StoredEvent := {
  sequence_number : SequenceNumber;
  block_number : BlockNumber;
  block_timestamp : DateTime;
  block_hash : string;
  transaction_hash : string;
  log_index : LogIndex;
  event_type : string;
  event_data : Value;
  term_id : option string;
  entity_id : option string;
  is_canonical : bool;
  ingested_at : DateTime
}.
End StoredEvent.
Abbreviation StoredEvent := StoredEvent.StoredEvent.

Record AtomCreatedRecord := {
  ac_creator : string; ac_term_id : string; ac_atom_data : string; ac_atom_wallet : string }.

Record AtomContextRegisteredRecord := {
  acr_registrant : string; acr_term_id : string; acr_uris : list string }.

Record TripleCreatedRecord := {
  tc_creator : string; tc_term_id : string; tc_subject_id : string;
  tc_predicate_id : string; tc_object_id : string }.

Record DepositedRecord := {
  dep_sender : string; dep_receiver : string; dep_term_id : string; dep_curve_id : BigDecimal;
  dep_assets : BigDecimal; dep_assets_after_fees : BigDecimal; dep_shares : BigDecimal;
  dep_total_shares : BigDecimal; dep_vault_type : Z }.

Record RedeemedRecord := {
  red_sender : string; red_receiver : string; red_term_id : string; red_curve_id : BigDecimal;
  red_shares : BigDecimal; red_total_shares : BigDecimal; red_assets : BigDecimal;
  red_fees : BigDecimal; red_vault_type : Z }.

Record SharePriceChangedRecord := {
  spc_term_id : string; spc_curve_id : BigDecimal; spc_share_price : BigDecimal;
  spc_total_assets : BigDecimal; spc_total_shares : BigDecimal; spc_vault_type : Z }.

Record ProtocolFeeAccruedRecord := {
  pfa_epoch : BigDecimal; pfa_sender : string; pfa_amount : BigDecimal }.

(** [serde_json::{to_value, from_value}] at a type that derives both traits. *)
Class Codec (A : Type) := {
  to_value : A -> result Value SerdeError;
  from_value : Value -> result A SerdeError;
  codec_round_trip a v : to_value a = Ok v -> from_value v = Ok a
}.

Class EventCodecs := {
  #[global] codec_atom_created :: Codec AtomCreatedRecord;
  #[global] codec_atom_context :: Codec AtomContextRegisteredRecord;
  #[global] codec_triple_created :: Codec TripleCreatedRecord;
  #[global] codec_deposited :: Codec DepositedRecord;
  #[global] codec_redeemed :: Codec RedeemedRecord;
  #[global] codec_share_price :: Codec SharePriceChangedRecord;
  #[global] codec_protocol_fee :: Codec ProtocolFeeAccruedRecord
}.

Module EventMetadata.
Record EventMetadata := {
  sequence_number : SequenceNumber;
  block_number : BlockNumber;
  block_timestamp : DateTime;
  block_hash : string;
  transaction_hash : string;
  log_index : LogIndex;
  event_type : string;
  term_id : option string;
  entity_id : option string;
  is_canonical : bool;
  ingested_at : DateTime
}.

Definition from_event (event : StoredEvent) : EventMetadata := {|
  sequence_number := StoredEvent.sequence_number event;
  block_number := StoredEvent.block_number event;
  block_timestamp := StoredEvent.block_timestamp event;
  block_hash := StoredEvent.block_hash event;
  transaction_hash := StoredEvent.transaction_hash event;
  log_index := StoredEvent.log_index event;
  event_type := StoredEvent.event_type event;
  term_id := StoredEvent.term_id event;
  entity_id := StoredEvent.entity_id event;
  is_canonical := StoredEvent.is_canonical event;
  ingested_at := StoredEvent.ingested_at event
|}.
End EventMetadata.
Abbreviation EventMetadata := EventMetadata.EventMetadata.

(** Shared by the typed and the raw view of an event's envelope. *)
Module EventMetadataRef.
Inductive EventMetadataRef :=
  | Owned (m : EventMetadata)
  | Raw (e : StoredEvent).

Definition sequence_number (self : EventMetadataRef) : SequenceNumber :=
  match self with
  | Owned m => EventMetadata.sequence_number m | Raw e => StoredEvent.sequence_number e end.
Definition block_number (self : EventMetadataRef) : BlockNumber :=
  match self with
  | Owned m => EventMetadata.block_number m | Raw e => StoredEvent.block_number e end.
Definition block_timestamp (self : EventMetadataRef) : DateTime :=
  match self with
  | Owned m => EventMetadata.block_timestamp m | Raw e => StoredEvent.block_timestamp e end.
Definition block_hash (self : EventMetadataRef) : string :=
  match self with
  | Owned m => EventMetadata.block_hash m | Raw e => StoredEvent.block_hash e end.
Definition transaction_hash (self : EventMetadataRef) : string :=
  match self with
  | Owned m => EventMetadata.transaction_hash m | Raw e => StoredEvent.transaction_hash e end.
Definition log_index (self : EventMetadataRef) : LogIndex :=
  match self with
  | Owned m => EventMetadata.log_index m | Raw e => StoredEvent.log_index e end.
Definition event_type (self : EventMetadataRef) : string :=
  match self with
  | Owned m => EventMetadata.event_type m | Raw e => StoredEvent.event_type e end.
Definition term_id (self : EventMetadataRef) : option string :=
  match self with
  | Owned m => EventMetadata.term_id m | Raw e => StoredEvent.term_id e end.
Definition entity_id (self : EventMetadataRef) : option string :=
  match self with
  | Owned m => EventMetadata.entity_id m | Raw e => StoredEvent.entity_id e end.
Definition is_canonical (self : EventMetadataRef) : bool :=
  match self with
  | Owned m => EventMetadata.is_canonical m | Raw e => StoredEvent.is_canonical e end.
Definition ingested_at (self : EventMetadataRef) : DateTime :=
  match self with
  | Owned m => EventMetadata.ingested_at m | Raw e => StoredEvent.ingested_at e end.

(** Everything the accessors read, as one value. *)
Definition envelope (self : EventMetadataRef) : EventMetadata := {|
  EventMetadata.sequence_number := sequence_number self;
  EventMetadata.block_number := block_number self;
  EventMetadata.block_timestamp := block_timestamp self;
  EventMetadata.block_hash := block_hash self;
  EventMetadata.transaction_hash := transaction_hash self;
  EventMetadata.log_index := log_index self;
  EventMetadata.event_type := event_type self;
  EventMetadata.term_id := term_id self;
  EventMetadata.entity_id := entity_id self;
  EventMetadata.is_canonical := is_canonical self;
  EventMetadata.ingested_at := ingested_at self
|}.

Lemma envelope_raw e : envelope (Raw e) = EventMetadata.from_event e.
Proof. done. Qed.

Lemma envelope_owned m : envelope (Owned m) = m.
Proof. by destruct m. Qed.
End EventMetadataRef.

(** ** Parsed events *)

Module ParsedEvent.
Inductive ParsedEvent :=
  | AtomCreated (metadata : EventMetadata) (data : AtomCreatedRecord)
  | AtomContextRegistered (metadata : EventMetadata) (data : AtomContextRegisteredRecord)
  | TripleCreated (metadata : EventMetadata) (data : TripleCreatedRecord)
  | Deposited (metadata : EventMetadata) (data : DepositedRecord)
  | Redeemed (metadata : EventMetadata) (data : RedeemedRecord)
  | SharePriceChanged (metadata : EventMetadata) (data : SharePriceChangedRecord)
  | ProtocolFeeAccrued (metadata : EventMetadata) (data : ProtocolFeeAccruedRecord)
  | Unknown (e : StoredEvent).

Record ParseError := { pe_event_type : string; pe_source : SerdeError }.

Section Parsing.
Context `{EventCodecs}.

Definition parse_variant {A} `{Codec A} (event_type : EventType.EventType)
    (variant : EventMetadata -> A -> ParsedEvent) (metadata : EventMetadata) (event_data : Value)
    : result ParsedEvent ParseError :=
  match from_value event_data with
  | Ok data => Ok (variant metadata data)
  | Err source => Err {| pe_event_type := EventType.as_str event_type; pe_source := source |}
  end.

Definition parse (event : StoredEvent) : result ParsedEvent ParseError :=
  let metadata := EventMetadata.from_event event in
  let data := StoredEvent.event_data event in
  match EventType.from_str (StoredEvent.event_type event) with
  | Err _ => Ok (Unknown event)
  | Ok event_type =>
      match event_type with
      | EventType.AtomCreated => parse_variant event_type AtomCreated metadata data
      | EventType.AtomContextRegistered =>
          parse_variant event_type AtomContextRegistered metadata data
      | EventType.TripleCreated => parse_variant event_type TripleCreated metadata data
      | EventType.Deposited => parse_variant event_type Deposited metadata data
      | EventType.Redeemed => parse_variant event_type Redeemed metadata data
      | EventType.SharePriceChanged => parse_variant event_type SharePriceChanged metadata data
      | EventType.ProtocolFeeAccrued => parse_variant event_type ProtocolFeeAccrued metadata data
      end
  end.

Definition parse_or_unknown (event : StoredEvent) : ParsedEvent * option ParseError :=
  let raw := event in
  match parse event with
  | Ok parsed => (parsed, None)
  | Err err => (Unknown raw, Some err)
  end.

Definition metadata (self : ParsedEvent) : EventMetadataRef.EventMetadataRef :=
  match self with
  | AtomCreated metadata _ | AtomContextRegistered metadata _ | TripleCreated metadata _
  | Deposited metadata _ | Redeemed metadata _ | SharePriceChanged metadata _
  | ProtocolFeeAccrued metadata _ => EventMetadataRef.Owned metadata
  | Unknown e => EventMetadataRef.Raw e
  end.

Definition event_type (self : ParsedEvent) : string :=
  match self with
  | AtomCreated metadata _ | AtomContextRegistered metadata _ | TripleCreated metadata _
  | Deposited metadata _ | Redeemed metadata _ | SharePriceChanged metadata _
  | ProtocolFeeAccrued metadata _ => EventMetadata.event_type metadata
  | Unknown e => StoredEvent.event_type e
  end.

Definition sequence_number (self : ParsedEvent) : SequenceNumber :=
  match self with
  | AtomCreated metadata _ | AtomContextRegistered metadata _ | TripleCreated metadata _
  | Deposited metadata _ | Redeemed metadata _ | SharePriceChanged metadata _
  | ProtocolFeeAccrued metadata _ => EventMetadata.sequence_number metadata
  | Unknown e => StoredEvent.sequence_number e
  end.

Definition stored_event_from_parts (metadata : EventMetadata) (event_data : Value) : StoredEvent := {|
  StoredEvent.sequence_number := EventMetadata.sequence_number metadata;
  StoredEvent.block_number := EventMetadata.block_number metadata;
  StoredEvent.block_timestamp := EventMetadata.block_timestamp metadata;
  StoredEvent.block_hash := EventMetadata.block_hash metadata;
  StoredEvent.transaction_hash := EventMetadata.transaction_hash metadata;
  StoredEvent.log_index := EventMetadata.log_index metadata;
  StoredEvent.event_type := EventMetadata.event_type metadata;
  StoredEvent.event_data := event_data;
  StoredEvent.term_id := EventMetadata.term_id metadata;
  StoredEvent.entity_id := EventMetadata.entity_id metadata;
  StoredEvent.is_canonical := EventMetadata.is_canonical metadata;
  StoredEvent.ingested_at := EventMetadata.ingested_at metadata
|}.

Definition reserialise {A} `{Codec A} (metadata : EventMetadata) (data : A)
    : result StoredEvent SerdeError :=
  let? v := to_value data in Ok (stored_event_from_parts metadata v).

Definition as_stored_event (self : ParsedEvent) : result StoredEvent SerdeError :=
  match self with
  | Unknown e => Ok e
  | AtomCreated metadata data => reserialise metadata data
  | AtomContextRegistered metadata data => reserialise metadata data
  | TripleCreated metadata data => reserialise metadata data
  | Deposited metadata data => reserialise metadata data
  | Redeemed metadata data => reserialise metadata data
  | SharePriceChanged metadata data => reserialise metadata data
  | ProtocolFeeAccrued metadata data => reserialise metadata data
  end.

(** The event type a typed variant stands for. *)
Definition _parsed_event_exhaustive_check (self : ParsedEvent) : option EventType.EventType :=
  match self with
  | AtomCreated _ _ => Some EventType.AtomCreated
  | AtomContextRegistered _ _ => Some EventType.AtomContextRegistered
  | TripleCreated _ _ => Some EventType.TripleCreated
  | Deposited _ _ => Some EventType.Deposited
  | Redeemed _ _ => Some EventType.Redeemed
  | SharePriceChanged _ _ => Some EventType.SharePriceChanged
  | ProtocolFeeAccrued _ _ => Some EventType.ProtocolFeeAccrued
  | Unknown _ => None
  end.

(** What a typed variant remembers of the event it was parsed from. *)
Definition typed_of (event : StoredEvent) (p : ParsedEvent) : Prop :=
  exists t, _parsed_event_exhaustive_check p = Some t /\
    StoredEvent.event_type event = EventType.as_str t /\
    metadata p = EventMetadataRef.Owned (EventMetadata.from_event event).

Lemma parse_ok event p :
  parse event = Ok p ->
  typed_of event p \/
  p = Unknown event /\ forall t, StoredEvent.event_type event <> EventType.as_str t.
Proof.
  unfold parse. destruct (EventType.from_str _) as [t|u] eqn:Ht.
  - apply EventType.from_str_ok in Ht. intros Hp. left. exists t.
    destruct t; unfold parse_variant in Hp; destruct (from_value _); by simplify_eq.
  - intros [= <-]. right. split; [done|]. intros t Heq.
    by rewrite (proj2 (EventType.from_str_ok _ t) Heq) in Ht.
Qed.

Lemma parse_err event err :
  parse event = Err err ->
  StoredEvent.event_type event = pe_event_type err /\
  exists t, StoredEvent.event_type event = EventType.as_str t.
Proof.
  unfold parse. destruct (EventType.from_str _) as [t|u] eqn:Ht; [|done].
  apply EventType.from_str_ok in Ht. intros Hp.
  destruct t; unfold parse_variant in Hp; destruct (from_value _); simplify_eq; simpl; eauto.
Qed.

Lemma typed_envelope event p :
  typed_of event p ->
  EventMetadataRef.envelope (metadata p) = EventMetadata.from_event event /\
  event_type p = StoredEvent.event_type event /\
  sequence_number p = StoredEvent.sequence_number event.
Proof.
  intros (t & Ht & _ & Hm). destruct p; simplify_eq/=; done.
Qed.

Lemma from_parts_metadata m v :
  EventMetadata.from_event (stored_event_from_parts m v) = m.
Proof. by destruct m. Qed.

Lemma parse_variant_reserialise {A} `{Codec A} t (variant : EventMetadata -> A -> ParsedEvent) m
    (d : A) e' :
  reserialise m d = Ok e' ->
  EventMetadata.from_event e' = m /\
  parse_variant t variant (EventMetadata.from_event e') (StoredEvent.event_data e')
    = Ok (variant m d).
Proof.
  unfold reserialise. intros Hr. inv_res. subst e'. rewrite from_parts_metadata.
  split; [done|]. simpl. unfold parse_variant. by erewrite codec_round_trip by done.
Qed.

Lemma parse_as_stored_event event p e' :
  parse event = Ok p -> as_stored_event p = Ok e' ->
  EventMetadata.from_event e' = EventMetadata.from_event event /\ parse e' = Ok p.
Proof.
  intros Hp Hs. destruct (parse_ok _ _ Hp) as [(t & Ht & Htype & Hm)|[-> _]].
  - apply EventType.from_str_ok in Htype. destruct p; simplify_eq/=;
      (edestruct @parse_variant_reserialise as [Hmeta Hpar]; [exact Hs|]; split; [done|];
       assert (Het : StoredEvent.event_type e' = StoredEvent.event_type event)
         by exact (f_equal EventMetadata.event_type Hmeta);
       unfold parse; rewrite Het, Htype; exact Hpar).
  - simpl in Hs. simplify_eq. done.
Qed.
End Parsing.
End ParsedEvent.
Abbreviation ParsedEvent := ParsedEvent.ParsedEvent.

(** ** Properties *)

(** Event types. The two string mappings of [EventType] are inverse to each
    other: a string parses to a type exactly when it is that type's canonical
    name, so no two types share a name and no other string parses; every other
    string comes back in the error, unchanged. *)
Theorem event_type_names (s : string) (t : EventType.EventType) :
  (EventType.from_str s = Ok t <-> s = EventType.as_str t) /\
  ((forall t', s <> EventType.as_str t') <->
   EventType.from_str s = Err {| EventType.unknown := s |}).
Proof.
  split; [apply EventType.from_str_ok|]. split.
  - intros Hne. destruct (EventType.from_str s) as [t'|e] eqn:He.
    + by apply EventType.from_str_ok, Hne in He.
    + by apply EventType.from_str_err in He as ->.
  - intros He t' ->. by rewrite EventType.from_as_str in He.
Qed.

(** Parsing never drops an event. [parse_or_unknown] returns an event for
    every stored event: its envelope, type name and sequence number are those of
    the input; an untyped result is the input itself, payload included; a typed
    result has the variant its name says; and an error accompanies exactly the
    events of a known type that stayed untyped. *)
Theorem parse_or_unknown_lossless `{EventCodecs} (event : StoredEvent) :
  let p := fst (ParsedEvent.parse_or_unknown event) in
  let err := snd (ParsedEvent.parse_or_unknown event) in
  EventMetadataRef.envelope (ParsedEvent.metadata p) = EventMetadata.from_event event /\
  ParsedEvent.event_type p = StoredEvent.event_type event /\
  ParsedEvent.sequence_number p = StoredEvent.sequence_number event /\
  match ParsedEvent._parsed_event_exhaustive_check p with
  | None => p = ParsedEvent.Unknown event /\
      (is_Some err <-> exists t, StoredEvent.event_type event = EventType.as_str t)
  | Some t => err = None /\ StoredEvent.event_type event = EventType.as_str t
  end.
Proof.
  unfold ParsedEvent.parse_or_unknown.
  destruct (ParsedEvent.parse event) as [p|err] eqn:Hp; simpl.
  - destruct (ParsedEvent.parse_ok _ _ Hp) as [Hty|[-> Hno]].
    + destruct (ParsedEvent.typed_envelope _ _ Hty) as (? & ? & ?).
      destruct Hty as (t & -> & ? & _). done.
    + simpl. repeat split; [by intros [? ?]|]. intros [t Ht]. by destruct (Hno t).
  - destruct (ParsedEvent.parse_err _ _ Hp) as [_ ?]. repeat split; eauto.
Qed.

(** Parsed events round trip. Handing a parsed event back to an untyped
    consumer and parsing it again loses nothing: when [as_stored_event]
    succeeds on the result of [parse], it rebuilds the envelope of the original
    event and parses to the same typed event. *)
Theorem parsed_event_round_trip `{EventCodecs} (event e' : StoredEvent) (p : ParsedEvent)
  (Hp : ParsedEvent.parse event = Ok p) (Hs : ParsedEvent.as_stored_event p = Ok e') :
  EventMetadata.from_event e' = EventMetadata.from_event event /\ ParsedEvent.parse e' = Ok p.
Proof. by apply ParsedEvent.parse_as_stored_event. Qed.

(** A codec for [AtomCreated] payloads and none for the other records. *)
Definition atom_created_codec : Codec AtomCreatedRecord.
Proof.
  refine {|
    to_value r := Ok (Object [("creator", VString (ac_creator r)); ("term_id", VString (ac_term_id r));
      ("atom_data", VString (ac_atom_data r)); ("atom_wallet", VString (ac_atom_wallet r))]);
    from_value v := match v with
      | Object [("creator", VString c); ("term_id", VString t); ("atom_data", VString d);
                ("atom_wallet", VString w)] =>
          Ok {| ac_creator := c; ac_term_id := t; ac_atom_data := d; ac_atom_wallet := w |}
      | _ => Err "missing field"
      end
  |}.
  by intros [] v [= <-].
Defined.
Definition no_codec (A : Type) : Codec A.
Proof.
  refine {| to_value _ := Err "unsupported"; from_value _ := Err "unsupported" |}. done.
Defined.
Definition sample_codecs : EventCodecs :=
  Build_EventCodecs atom_created_codec (no_codec _) (no_codec _) (no_codec _) (no_codec _)
    (no_codec _) (no_codec _).

Definition sample_event (seq : Z) (ty : string) (data : Value) : StoredEvent := {|
  StoredEvent.sequence_number := seq; StoredEvent.block_number := 1000;
  StoredEvent.block_timestamp := 0; StoredEvent.block_hash := "0xblock";
  StoredEvent.transaction_hash := "0xtx"; StoredEvent.log_index := 3;
  StoredEvent.event_type := ty; StoredEvent.event_data := data;
  StoredEvent.term_id := Some "0x07"; StoredEvent.entity_id := None;
  StoredEvent.is_canonical := true; StoredEvent.ingested_at := 0 |}.
Definition sample_atom_data : Value :=
  Object [("creator", VString "0xCreator"); ("term_id", VString "0x07");
          ("atom_data", VString "ipfs://QmFoo"); ("atom_wallet", VString "0xWallet")].

Lemma parsed_event_round_trip_witness :
  let e := sample_event 42 "AtomCreated" sample_atom_data in
  ParsedEvent._parsed_event_exhaustive_check (fst (@ParsedEvent.parse_or_unknown sample_codecs e))
    = Some EventType.AtomCreated /\
  EventMetadata.from_event e = EventMetadata.from_event e /\
  @ParsedEvent.parse sample_codecs e = Ok (fst (@ParsedEvent.parse_or_unknown sample_codecs e)).
Proof.
  intros e. split; [reflexivity|].
  apply (@parsed_event_round_trip sample_codecs e e); vm_compute; reflexivity.
Defined.
