(* ===== verification/Errors.v ===== *)
(** * Errors and their classification

    [crates/shared/src/errors.rs] and [crates/projections/src/error.rs]. The
    payloads that belong to other crates ([sqlx::Error], [redis::RedisError],
    [surrealdb::Error], [serde_json::Error], [std::io::Error], [anyhow::Error])
    are carried by their messages. *)

From S2P Require Import Prelude.

Module IndexerError.
Inductive IndexerErrorClass := Fatal | Retriable.

#[global] Instance IndexerErrorClass_eq_dec : EqDecision IndexerErrorClass.
Proof. solve_decision. Defined.

Inductive IndexerError :=
  | Database (e : string)
  | Redis (e : string)
  | Rpc (e : string)
  | Serialization (e : string)
  | Config (e : string)
  | DependencyMissing (e : string)
  | ReorgDetected (block : Z)
  | LeaderElection (e : string)
  | Projection (e : string)
  | InvalidEventData (e : string)
  | EventDecoding (e : string)
  | Io (e : string)
  | Metrics (e : string)
  | ConnectionPool (e : string)
  | Other (e : string).

Definition classify (self : IndexerError) : IndexerErrorClass :=
  match self with
  | Database _ => Retriable
  | Redis _ => Retriable
  | Rpc _ => Retriable
  | DependencyMissing _ => Retriable
  | ConnectionPool _ => Retriable
  | Io _ => Retriable
  | Serialization _ => Fatal
  | Config _ => Fatal
  | ReorgDetected _ => Fatal
  | LeaderElection _ => Fatal
  | Projection _ => Fatal
  | InvalidEventData _ => Fatal
  | EventDecoding _ => Fatal
  | Metrics _ => Fatal
  | Other _ => Fatal
  end.

Definition is_dependency_error (self : IndexerError) : bool :=
  match self with DependencyMissing _ => true | _ => false end.

Definition is_retriable (self : IndexerError) : bool :=
  match classify self with Retriable => true | Fatal => false end.
End IndexerError.

Module ErrorClass.
Inductive ErrorClass := Fatal | Transient | CircuitProtected.

#[global] Instance ErrorClass_eq_dec : EqDecision ErrorClass.
Proof. solve_decision. Defined.
End ErrorClass.

Module ProjectionError.
Inductive ProjectionError :=
  | Database (e : string)
  | Surreal (e : string)
  | InvalidEventData (e : string)
  | MissingField (e : string)
  | Serialization (e : string)
  | Config (e : string)
  | Sink (e : string)
  | UniqueConstraintViolation (e : string)
  | CircuitOpen (e : string).

Definition classify (self : ProjectionError) : ErrorClass.ErrorClass :=
  match self with
  | Database _ => ErrorClass.Transient
  | Surreal _ => ErrorClass.Transient
  | Sink _ => ErrorClass.Transient
  | CircuitOpen _ => ErrorClass.CircuitProtected
  | InvalidEventData _ => ErrorClass.Fatal
  | MissingField _ => ErrorClass.Fatal
  | Serialization _ => ErrorClass.Fatal
  | Config _ => ErrorClass.Fatal
  | UniqueConstraintViolation _ => ErrorClass.Fatal
  end.

(** The [thiserror] message of each variant. *)
Definition to_string (self : ProjectionError) : string :=
  match self with
  | Database e => "Database error: " +:+ e
  | Surreal e => "SurrealDB error: " +:+ e
  | InvalidEventData e => "Invalid event data: " +:+ e
  | MissingField e => "Missing field in event_data: " +:+ e
  | Serialization e => "Serialization error: " +:+ e
  | Config e => "Configuration error: " +:+ e
  | Sink e => "Sink error: " +:+ e
  | UniqueConstraintViolation e => "Unique constraint violation: " +:+ e
  | CircuitOpen e => "Circuit breaker open: " +:+ e
  end.
End ProjectionError.
Abbreviation ProjectionError := ProjectionError.ProjectionError.
