(* ===== verification/CircuitBreaker.v ===== *)
(** * The circuit breaker

    [crates/projections/src/resilience/circuit_breaker.rs] and
    [src/util.rs]: the three-state machine guarding a database. The mutex makes
    each method one atomic step, so the breaker is a value threaded through the
    calls; the clock and the random source are arguments. Instants and durations
    count nanoseconds. A method that would panic returns [None]. *)

From S2P Require Import Prelude MachineInt.

Definition Instant : Type := Z.
Definition Duration : Type := Z.

(** [Instant::elapsed] at time [now]; it saturates at zero. *)
Definition elapsed (since now : Instant) : Duration := Z.max 0 (now - since).
Definition secs (n : Z) : Duration := n * 1000000000.

(** [util::rand_u64] from its two inputs, the call counter and the clock. *)
Definition rand_u64 (tick nanos : Z) : Z :=
  let x := wrapping_add_u64 (wrapping_mul_u64 tick 6364136223846793005) (as_u64 nanos) in
  let x := Z.lxor x (Z.shiftr x 30) in
  let x := wrapping_mul_u64 x 13787848793156543929 in
  Z.lxor x (Z.shiftr x 27).

Module CircuitState.
Inductive CircuitState := Closed | Open | HalfOpen.

#[global] Instance CircuitState_eq_dec : EqDecision CircuitState.
Proof. solve_decision. Defined.
End CircuitState.
Abbreviation CircuitState := CircuitState.CircuitState.

Record CircuitOpen := {
  co_name : string;
  opened_duration : Duration;
  next_probe_in : Duration
}.

Record CircuitBreakerConfig := {
  failure_threshold : Z;
  initial_probe_interval : Duration;
  max_probe_interval : Duration
}.

Definition default_config : CircuitBreakerConfig := {|
  failure_threshold := 5;
  initial_probe_interval := secs 5;
  max_probe_interval := secs 30
|}.

Record CircuitBreaker := {
  cb_name : string;
  config : CircuitBreakerConfig;
  state : CircuitState;
  consecutive_failures : Z;
  probe_interval : Duration;
  opened_at : option Instant;
  open_count : Z
}.

Definition new (name : string) (config : CircuitBreakerConfig) : CircuitBreaker := {|
  cb_name := name;
  config := config;
  state := CircuitState.Closed;
  consecutive_failures := 0;
  probe_interval := initial_probe_interval config;
  opened_at := None;
  open_count := 0
|}.

Definition with_defaults (name : string) : CircuitBreaker := new name default_config.

Definition set_state (self : CircuitBreaker) (s : CircuitState) : CircuitBreaker := {|
  cb_name := cb_name self; config := config self; state := s;
  consecutive_failures := consecutive_failures self; probe_interval := probe_interval self;
  opened_at := opened_at self; open_count := open_count self |}.

Definition check (self : CircuitBreaker) (now : Instant)
    : option (result unit CircuitOpen * CircuitBreaker) :=
  match state self with
  | CircuitState.Closed | CircuitState.HalfOpen => Some (Ok tt, self)
  | CircuitState.Open =>
      match opened_at self with
      | None => None
      | Some opened_at =>
          let elapsed := elapsed opened_at now in
          if probe_interval self <=? elapsed then
            Some (Ok tt, set_state self CircuitState.HalfOpen)
          else
            let next_probe_in := Z.max 0 (probe_interval self - elapsed) in
            Some (Err {| co_name := cb_name self; opened_duration := elapsed;
                         next_probe_in := next_probe_in |}, self)
      end
  end.

Definition record_success (self : CircuitBreaker) : CircuitBreaker :=
  let inner :=
    if decide (state self = CircuitState.HalfOpen) then
      {| cb_name := cb_name self; config := config self; state := CircuitState.Closed;
         consecutive_failures := consecutive_failures self;
         probe_interval := initial_probe_interval (config self);
         opened_at := None; open_count := 0 |}
    else self in
  {| cb_name := cb_name inner; config := config inner; state := state inner;
     consecutive_failures := 0; probe_interval := probe_interval inner;
     opened_at := opened_at inner; open_count := open_count inner |}.

(** [rand] is the value [rand_u64()] returns in this call. *)
Definition next_probe_interval (self : CircuitBreaker) (attempt rand : Z) : Duration :=
  let base_nanos := as_u64 (initial_probe_interval (config self)) in
  let max_nanos := as_u64 (max_probe_interval (config self)) in
  let shift := Z.min attempt 62 in
  let cap_nanos := Z.min (saturating_mul_u64 base_nanos (Z.shiftl 1 shift)) max_nanos in
  let half := cap_nanos / 2 in
  let jitter := if 0 <? half then rand mod half else 0 in
  half + jitter.

Definition record_failure (self : CircuitBreaker) (now : Instant) (rand : Z) : CircuitBreaker :=
  let failures := wrapping_add_u32 (consecutive_failures self) 1 in
  let open_count' := saturating_add_u32 (open_count self) 1 in
  match state self with
  | CircuitState.Closed =>
      if failure_threshold (config self) <=? failures then
        {| cb_name := cb_name self; config := config self; state := CircuitState.Open;
           consecutive_failures := failures;
           probe_interval := next_probe_interval self open_count' rand;
           opened_at := Some now; open_count := open_count' |}
      else
        {| cb_name := cb_name self; config := config self; state := state self;
           consecutive_failures := failures; probe_interval := probe_interval self;
           opened_at := opened_at self; open_count := open_count self |}
  | CircuitState.HalfOpen =>
      {| cb_name := cb_name self; config := config self; state := CircuitState.Open;
         consecutive_failures := failures;
         probe_interval := next_probe_interval self open_count' rand;
         opened_at := opened_at self; open_count := open_count' |}
  | CircuitState.Open =>
      {| cb_name := cb_name self; config := config self; state := state self;
         consecutive_failures := failures; probe_interval := probe_interval self;
         opened_at := opened_at self; open_count := open_count self |}
  end.

(** ** Executions *)

(** A call made by some task at some time. *)
Inductive call :=
  | CallCheck (now : Instant)
  | CallSuccess
  | CallFailure (now : Instant) (rand : Z).

Definition apply_call (cb : CircuitBreaker) (c : call) : option CircuitBreaker :=
  match c with
  | CallCheck now => snd <$> check cb now
  | CallSuccess => Some (record_success cb)
  | CallFailure now rand => Some (record_failure cb now rand)
  end.

Definition run_calls (cb : CircuitBreaker) (cs : list call) : option CircuitBreaker :=
  foldl (fun acc c => acc ≫= fun cb => apply_call cb c) (Some cb) cs.

(** A configuration whose values a [u32] and a [u64] of nanoseconds hold. *)
Definition config_ok (cfg : CircuitBreakerConfig) : Prop :=
  0 < failure_threshold cfg <= U32_MAX /\
  is_u64 (initial_probe_interval cfg) /\ is_u64 (max_probe_interval cfg).

(** What every reachable breaker satisfies. *)
Record cb_inv (cb : CircuitBreaker) : Prop := {
  inv_config : config_ok (config cb);
  inv_failures : is_u32 (consecutive_failures cb);
  inv_closed : state cb = CircuitState.Closed ->
    consecutive_failures cb < failure_threshold (config cb) /\ opened_at cb = None;
  inv_opened : state cb <> CircuitState.Closed ->
    is_Some (opened_at cb) /\ 0 <= probe_interval cb <= max_probe_interval (config cb);
  inv_count : is_u32 (open_count cb)
}.

Lemma as_u64_id x : is_u64 x -> as_u64 x = x.
Proof. unfold is_u64, as_u64, U64_MAX. intros. apply Z.mod_small. lia. Qed.

(** The interval lies in the upper half of the exponential cap. *)
Lemma next_probe_interval_bounds cb attempt rand :
  config_ok (config cb) -> 0 <= attempt ->
  let cap := Z.min (initial_probe_interval (config cb) * 2 ^ Z.min attempt 62)
               (max_probe_interval (config cb)) in
  cap / 2 <= next_probe_interval cb attempt rand <= cap /\ 0 <= cap.
Proof.
  intros (_ & [Hi1 Hi2] & [Hm1 Hm2]) Ha cap. unfold next_probe_interval.
  rewrite !as_u64_id by (split; done). unfold saturating_mul_u64.
  rewrite Z.shiftl_mul_pow2, Z.mul_1_l by lia.
  assert (Hcap : 0 <= cap) by (pose proof (Z.pow_nonneg 2 (Z.min attempt 62)); nia).
  replace (Z.min (Z.min (initial_probe_interval (config cb) * 2 ^ Z.min attempt 62) U64_MAX)
             (max_probe_interval (config cb))) with cap by lia.
  pose proof (div_spec cap 2 ltac:(lia)) as Hd. split; [|done].
  destruct (Z.ltb_spec 0 (cap / 2)); [|lia].
  pose proof (Z.mod_pos_bound rand (cap / 2)). lia.
Qed.

Lemma wrapping_add_u32_range x y : is_u32 (wrapping_add_u32 x y).
Proof. unfold is_u32, wrapping_add_u32, U32_MAX. pose proof (Z.mod_pos_bound (x + y) (2 ^ 32)). lia. Qed.

Lemma wrapping_add_u32_small x : 0 <= x < U32_MAX -> wrapping_add_u32 x 1 = x + 1.
Proof. unfold wrapping_add_u32, U32_MAX. intros. apply Z.mod_small. lia. Qed.

Lemma new_inv name cfg : config_ok cfg -> cb_inv (new name cfg).
Proof. intros Hc. pose proof Hc as ([? ?] & _). split; simpl; try done. Qed.

Lemma check_inv cb now r cb' : cb_inv cb -> check cb now = Some (r, cb') -> cb_inv cb'.
Proof.
  intros Hinv. unfold check.
  destruct (state cb) eqn:Hs; [by intros [= <- <-]| |by intros [= <- <-]].
  destruct (opened_at cb) as [t|] eqn:Ho; [|done].
  case_match; intros [= <- <-]; [|done].
  destruct Hinv. split; simpl; try done. intros _. apply inv_opened0. congruence.
Qed.

Lemma record_success_inv cb : cb_inv cb -> cb_inv (record_success cb).
Proof.
  intros [Hcfg ? Hcl Hop ?]. pose proof Hcfg as ([? ?] & _). unfold record_success.
  case_decide; split; simpl; try done; intros; split; (lia || naive_solver).
Qed.

Lemma record_failure_inv cb now rand : cb_inv cb -> cb_inv (record_failure cb now rand).
Proof.
  intros [Hcfg Hf Hcl Hop Hc]. unfold record_failure.
  pose proof (saturating_add_u32_range (open_count cb) 1 Hc ltac:(lia)) as Hcnt.
  pose proof (wrapping_add_u32_range (consecutive_failures cb) 1).
  pose proof (next_probe_interval_bounds cb _ rand Hcfg (proj1 Hcnt)) as [Hnext Hcap].
  destruct (state cb) eqn:Hs.
  - destruct (Z.leb_spec (failure_threshold (config cb))
                (wrapping_add_u32 (consecutive_failures cb) 1));
      split; simpl; rewrite ?Hs; try done.
    + intros _. split; [done|]. pose proof (Z.div_pos _ 2 Hcap). lia.
    + intros _. destruct (Hcl eq_refl). done.
  - split; simpl; rewrite ?Hs; try done.
  - split; simpl; try done. intros _. destruct Hop as [? ?]; [done|]. split; [done|].
    pose proof (Z.div_pos _ 2 Hcap). lia.
Qed.

(** No call panics and every call preserves the invariant. *)
Lemma apply_call_inv cb c : cb_inv cb -> exists cb', apply_call cb c = Some cb' /\ cb_inv cb'.
Proof.
  intros Hinv. destruct c as [now| |now rand]; simpl.
  - destruct (check cb now) as [[r cb']|] eqn:Hc; simpl.
    + eexists. split; [done|]. by eapply check_inv.
    + exfalso. unfold check in Hc. destruct (state cb) eqn:Hs; try done.
      destruct (inv_opened cb Hinv) as [[t Ht] _]; [congruence|]. rewrite Ht in Hc. by case_match.
  - eexists. split; [done|]. by apply record_success_inv.
  - eexists. split; [done|]. by apply record_failure_inv.
Qed.

Lemma run_calls_app cb cs c :
  run_calls cb (cs ++ [c]) = run_calls cb cs ≫= fun cb' => apply_call cb' c.
Proof. unfold run_calls. by rewrite foldl_app. Qed.

Lemma run_calls_inv cb cs : cb_inv cb -> exists cb', run_calls cb cs = Some cb' /\ cb_inv cb'.
Proof.
  intros Hinv. induction cs as [|c cs IH] using rev_ind; [by exists cb|].
  destruct IH as (cb' & Hr & Hi). rewrite run_calls_app, Hr. simpl. by apply apply_call_inv.
Qed.

Lemma record_failure_config cb now rand : config (record_failure cb now rand) = config cb.
Proof. unfold record_failure. repeat case_match; done. Qed.

Lemma check_config cb now r cb' : check cb now = Some (r, cb') -> config cb' = config cb.
Proof. unfold check. intros. repeat case_match; naive_solver. Qed.

(** A run of failures without a success in between. *)
Definition failures (fs : list (Instant * Z)) : list call :=
  map (fun '(now, rand) => CallFailure now rand) fs.

Lemma failures_snoc fs now rand :
  failures (fs ++ [(now, rand)]) = failures fs ++ [CallFailure now rand].
Proof. unfold failures. by rewrite map_app. Qed.

Lemma closed_failures cb fs :
  cb_inv cb -> state cb = CircuitState.Closed ->
  consecutive_failures cb + Z.of_nat (length fs) < failure_threshold (config cb) ->
  exists cb', run_calls cb (failures fs) = Some cb' /\ cb_inv cb' /\ config cb' = config cb /\
    state cb' = CircuitState.Closed /\
    consecutive_failures cb' = consecutive_failures cb + Z.of_nat (length fs).
Proof.
  intros Hinv Hs. induction fs as [|[now rand] fs IH] using rev_ind; intros Hlt.
  { exists cb. simpl. split; [done|]. split; [done|]. split; [done|]. split; [done|]. simpl. lia. }
  rewrite length_app in *. simpl in *.
  destruct IH as (cb' & Hr & Hi & Hc & Hs' & Hn); [lia|].
  rewrite failures_snoc, run_calls_app, Hr. simpl.
  eexists. split; [done|]. split; [by apply record_failure_inv|].
  split; [by rewrite record_failure_config|].
  destruct (inv_failures cb' Hi) as [? ?]. destruct (inv_config cb' Hi) as ([? ?] & _).
  assert (Hw : wrapping_add_u32 (consecutive_failures cb') 1 = consecutive_failures cb' + 1)
    by (apply wrapping_add_u32_small; rewrite Hc in *; lia).
  unfold record_failure. rewrite Hs', Hw.
  destruct (Z.leb_spec (failure_threshold (config cb')) (consecutive_failures cb' + 1));
    [rewrite Hc in *; lia|]. simpl. split; [done|]. lia.
Qed.

(** Time until which an open breaker may reject. *)
Definition deadline (cb : CircuitBreaker) (t : Instant) : Instant :=
  t + max_probe_interval (config cb).

Lemma check_past_deadline cb t now :
  cb_inv cb -> state cb <> CircuitState.Closed -> opened_at cb = Some t -> deadline cb t <= now ->
  check cb now = Some (Ok tt, set_state cb CircuitState.HalfOpen).
Proof.
  intros Hinv Hs Ho Hd. unfold check, deadline in *.
  destruct (inv_opened cb Hinv Hs) as [_ [? ?]].
  destruct (state cb) eqn:Hst; [done| |].
  - rewrite Ho. unfold elapsed. destruct (Z.leb_spec (probe_interval cb) (Z.max 0 (now - t))); [done|lia].
  - destruct cb; simpl in *; subst. done.
Qed.

(** A probe that fails: a check at [c], then a failure at [f]. *)
Definition probes (rs : list (Instant * Instant * Z)) : list call :=
  rs ≫= fun '(c, f, rand) => [CallCheck c; CallFailure f rand].

Lemma probes_snoc rs c f rand :
  probes (rs ++ [(c, f, rand)]) = (probes rs ++ [CallCheck c]) ++ [CallFailure f rand].
Proof. unfold probes. rewrite bind_app. simpl. by rewrite <- app_assoc. Qed.

(** Past the deadline a failed probe leaves the breaker open since the same time. *)
Lemma failed_probes cb t rs :
  cb_inv cb -> state cb <> CircuitState.Closed -> opened_at cb = Some t ->
  Forall (fun '(c, _, _) => deadline cb t <= c) rs ->
  exists cb', run_calls cb (probes rs) = Some cb' /\ cb_inv cb' /\
    state cb' <> CircuitState.Closed /\ opened_at cb' = Some t /\ config cb' = config cb.
Proof.
  intros Hinv Hs Ho. induction rs as [|[[c f] rand] rs IH] using rev_ind; [by exists cb|].
  intros [Hrs [Hc _]%Forall_cons_1]%Forall_app.
  destruct IH as (cb' & Hr & Hi & Hs' & Ho' & Hcfg); [done|].
  assert (Hchk : check cb' c = Some (Ok tt, set_state cb' CircuitState.HalfOpen))
    by (apply (check_past_deadline cb' t); [done..|unfold deadline in *; rewrite Hcfg; lia]).
  rewrite probes_snoc, !run_calls_app, Hr. simpl. rewrite Hchk. simpl.
  eexists. split; [done|]. split; [by eapply record_failure_inv, check_inv|].
  rewrite record_failure_config. done.
Qed.

(** ** Properties *)

(** Circuit breaker, safety. Whatever sequence of checks, successes and
    failures the workers make, at whatever times and with whatever jitter, no
    call panics, the counters stay within [u32], a closed breaker has fewer
    failures than the threshold, and a breaker that is not closed knows when it
    opened and waits at most [max_probe_interval]. *)
Theorem circuit_breaker_safe (name : string) (cfg : CircuitBreakerConfig) (cs : list call)
  (Hcfg : config_ok cfg) :
  exists cb, run_calls (new name cfg) cs = Some cb /\ cb_inv cb.
Proof. apply run_calls_inv. by apply new_inv. Qed.

Lemma circuit_breaker_safe_witness :
  exists cb, run_calls (with_defaults "pg")
    (replicate 5 (CallFailure 0 7) ++ [CallCheck (secs 1); CallCheck (secs 40); CallFailure (secs 41) 3;
       CallCheck (secs 42); CallSuccess]) = Some cb /\ cb_inv cb.
Proof.
  apply circuit_breaker_safe. vm_compute. repeat split; discriminate.
Defined.

(** Circuit breaker, tripping. Counting from a reset breaker, the circuit
    stays closed while fewer than [failure_threshold] consecutive failures were
    recorded and opens, stamped with the time of the last failure, exactly when
    the threshold is reached. *)
Theorem circuit_trips_at_threshold (cb : CircuitBreaker) (fs : list (Instant * Z))
  (now : Instant) (rand : Z)
  (Hinv : cb_inv cb) (Hclosed : state cb = CircuitState.Closed)
  (Hreset : consecutive_failures cb = 0)
  (Hlen : Z.of_nat (length fs) < failure_threshold (config cb)) :
  exists cb', run_calls cb (failures fs) = Some cb' /\ state cb' = CircuitState.Closed /\
    (Z.of_nat (length fs) + 1 = failure_threshold (config cb) ->
     exists cb'', run_calls cb (failures (fs ++ [(now, rand)])) = Some cb'' /\
       state cb'' = CircuitState.Open /\ opened_at cb'' = Some now).
Proof.
  destruct (closed_failures cb fs Hinv Hclosed) as (cb' & Hr & Hi & Hc & Hs' & Hn); [lia|].
  exists cb'. split; [done|]. split; [done|]. intros Hth.
  rewrite failures_snoc, run_calls_app, Hr. simpl.
  eexists. split; [done|]. destruct (inv_config cb' Hi) as ([? ?] & _).
  unfold record_failure. rewrite Hs', wrapping_add_u32_small by (rewrite Hc in *; lia).
  destruct (Z.leb_spec (failure_threshold (config cb')) (consecutive_failures cb' + 1));
    [done|rewrite Hc in *; lia].
Qed.

Lemma circuit_trips_at_threshold_witness :
  exists cb', run_calls (with_defaults "pg") (failures [(1, 1); (2, 1); (3, 1); (4, 1)]) = Some cb' /\
    state cb' = CircuitState.Closed /\
    (4 + 1 = 5 -> exists cb'', run_calls (with_defaults "pg")
        (failures ([(1, 1); (2, 1); (3, 1); (4, 1)] ++ [(9, 1)])) = Some cb'' /\
      state cb'' = CircuitState.Open /\ opened_at cb'' = Some 9).
Proof.
  apply (circuit_trips_at_threshold (with_defaults "pg") [(1, 1); (2, 1); (3, 1); (4, 1)] 9 1).
  - apply new_inv. vm_compute. repeat split; discriminate.
  - reflexivity.
  - reflexivity.
  - vm_compute. reflexivity.
Defined.

(** Circuit breaker, rejections. A rejected check changes nothing, and the
    waiting time it reports is exact: it is positive, at most
    [max_probe_interval], and a later check without an intervening call is
    admitted, moving to half-open, if and only if that time has passed. *)
Theorem circuit_rejection_is_exact (cb cb' : CircuitBreaker) (now : Instant) (o : CircuitOpen)
  (t : Instant) (Hinv : cb_inv cb) (Hopened : opened_at cb = Some t) (Hpast : t <= now)
  (Hrej : check cb now = Some (Err o, cb')) :
  cb' = cb /\ 0 < next_probe_in o <= max_probe_interval (config cb) /\
  opened_duration o + next_probe_in o = probe_interval cb /\
  forall later, now <= later ->
    if decide (now + next_probe_in o <= later)
    then check cb later = Some (Ok tt, set_state cb CircuitState.HalfOpen)
    else exists o', check cb later = Some (Err o', cb).
Proof.
  unfold check in *. destruct (state cb) eqn:Hs; [done| |done]. rewrite Hopened in *.
  destruct (inv_opened cb Hinv) as [_ [? ?]]; [congruence|].
  unfold elapsed in *. destruct (Z.leb_spec (probe_interval cb) (Z.max 0 (now - t))); [done|].
  injection Hrej as <- <-. simpl. split; [done|]. split; [lia|]. split; [lia|].
  intros later Hl. case_decide;
    destruct (Z.leb_spec (probe_interval cb) (Z.max 0 (later - t))); try lia; eauto.
Qed.

(** A breaker with default settings after five failures at time 0. *)
Definition tripped : CircuitBreaker := {|
  cb_name := "pg"; config := default_config; state := CircuitState.Open;
  consecutive_failures := 5; probe_interval := secs 5; opened_at := Some 0; open_count := 1 |}.

Lemma tripped_inv : cb_inv tripped.
Proof. split; vm_compute; repeat split; try discriminate; eauto. Qed.

Lemma circuit_rejection_is_exact_witness :
  run_calls (with_defaults "pg") (replicate 5 (CallFailure 0 0)) = Some tripped /\
  0 < 2000000000 <= secs 30.
Proof.
  split; [vm_compute; reflexivity|].
  exact (proj1 (proj2 (circuit_rejection_is_exact tripped tripped (secs 3)
    {| co_name := "pg"; opened_duration := secs 3; next_probe_in := secs 2 |} 0
    tripped_inv eq_refl (fun H => match H with eq_refl => I end) eq_refl))).
Defined.

(** Circuit breaker, failed probes. Once [max_probe_interval] has passed
    since the circuit first opened, failed probes no longer close it off: they
    keep the original opening time, so after any number of them the next check
    is admitted at once, whatever interval the last failure computed. The
    breaker rejects nothing again until a success resets it. *)
Theorem failed_probes_stop_rejecting (cb : CircuitBreaker) (t : Instant)
  (rs : list (Instant * Instant * Z)) (later : Instant)
  (Hinv : cb_inv cb) (Hopen : state cb = CircuitState.Open) (Hopened : opened_at cb = Some t)
  (Hrs : Forall (fun '(c, _, _) => deadline cb t <= c) rs) (Hlater : deadline cb t <= later) :
  exists cb', run_calls cb (probes rs) = Some cb' /\ opened_at cb' = Some t /\
    check cb' later = Some (Ok tt, set_state cb' CircuitState.HalfOpen).
Proof.
  assert (Hs : state cb <> CircuitState.Closed) by congruence.
  destruct (failed_probes cb t rs Hinv Hs Hopened Hrs) as (cb' & Hr & Hi & Hs' & Ho' & Hcfg).
  exists cb'. split; [done|]. split; [done|]. apply (check_past_deadline cb' t); [done..|].
  unfold deadline in *. rewrite Hcfg. lia.
Qed.

Lemma failed_probes_stop_rejecting_witness :
  exists cb', run_calls tripped (probes [(secs 30, secs 30, 99); (secs 31, secs 31, 5)]) = Some cb' /\
    opened_at cb' = Some 0 /\
    check cb' (secs 31) = Some (Ok tt, set_state cb' CircuitState.HalfOpen).
Proof.
  apply (failed_probes_stop_rejecting tripped 0 _ _ tripped_inv eq_refl eq_refl).
  - repeat constructor; discriminate.
  - discriminate.
Defined.
