(* ===== verification/Retry.v ===== *)
(** * Retry with backoff

    [crates/projections/src/resilience/retry.rs]: the retry policies, the
    jittered delay and the loop every worker wraps its database work in. The
    loop runs over a world it shares with other tasks: the breaker is read and
    written atomically, while the operation and the sleeps may change anything,
    the breaker included. Each run also returns the log of what it did. *)

From S2P Require Import Prelude MachineInt Errors CircuitBreaker.

Record WorkerConfig := {
  batch_size : Z;
  poll_interval_ms : Z
}.

Record RetryPolicy := {
  max_retries : Z;
  base_backoff_secs : Z;
  max_backoff_secs : Z
}.

Definition event_driven : RetryPolicy :=
  {| max_retries := 8; base_backoff_secs := 1; max_backoff_secs := 30 |}.
Definition batch : RetryPolicy :=
  {| max_retries := 5; base_backoff_secs := 2; max_backoff_secs := 30 |}.

Record RetryContext := {
  projection_name : string;
  target : string;
  has_heartbeat : bool
}.

Inductive metric :=
  | SetCircuitState (projection target : string) (s : CircuitState)
  | RecordCircuitOpen (projection target : string).

(** What one run of the loop did, in order. *)
Inductive action :=
  | Rejected (open : CircuitOpen)
  | Called (r : result unit ProjectionError)
  | Slept (d : Duration)
  | Beat.

(** The world of a worker task. [sleep] and the operation are the await points,
    where time passes and other tasks run; [next_rand] is whatever the shared
    random source returns next. *)
Class RetryWorld (W : Type) := {
  breaker : W -> CircuitBreaker;
  set_breaker : CircuitBreaker -> W -> W;
  now : W -> Instant;
  next_rand : W -> Z * W;
  sleep : Duration -> W -> W;
  beat : W -> W;
  emit : metric -> W -> W
}.

Definition compute_jitter_ms (delay_secs rand : Z) : Z :=
  let jitter := wrapping_add_u64 (wrapping_mul_u64 delay_secs 500)
                  (rand mod wrapping_add_u64 (wrapping_mul_u64 delay_secs 500) 1) in
  wrapping_add_u64 (wrapping_mul_u64 delay_secs 1000) jitter.

Definition millis (n : Z) : Duration := n * 1000000.

(** [(delay_secs * 2).min(policy.max_backoff_secs)] *)
Definition next_delay (policy : RetryPolicy) (delay_secs : Z) : Z :=
  Z.min (wrapping_mul_u64 delay_secs 2) (max_backoff_secs policy).

Section Loop.
Context {W : Type} `{RetryWorld W} (circuit_open_message : CircuitOpen -> string).
Context (policy : RetryPolicy) (ctx : RetryContext).
Context (operation : W -> result unit ProjectionError * W).

Definition beat_if_any (w : W) : W := if has_heartbeat ctx then beat w else w.

Definition beats : list action := if has_heartbeat ctx then [Beat] else [].

Definition emit_state (w : W) : W :=
  emit (SetCircuitState (projection_name ctx) (target ctx) (state (breaker w))) w.

(** [None] in the result is a panic. *)
Fixpoint retry_attempts (attempts : list Z) (delay_secs : Z) (w : W)
    : option (result unit ProjectionError) * W * list action :=
  match attempts with
  | [] => (None, w, [])
  | attempt :: rest =>
      match check (breaker w) (now w) with
      | None => (None, w, [])
      | Some (Err open, cb) =>
          let w := emit_state (set_breaker cb w) in
          if attempt <? max_retries policy then
            let w := beat_if_any (sleep (next_probe_in open) w) in
            let '(r, w, log) := retry_attempts rest (next_delay policy delay_secs) w in
            (r, w, Rejected open :: Slept (next_probe_in open) :: beats ++ log)
          else (Some (Err (ProjectionError.CircuitOpen (circuit_open_message open))), w,
                [Rejected open])
      | Some (Ok _, cb) =>
          let '(res, w) := operation (set_breaker cb w) in
          match res with
          | Ok _ =>
              let w := emit_state (set_breaker (record_success (breaker w)) w) in
              (Some (Ok tt), w, [Called (Ok tt)])
          | Err e =>
              match ProjectionError.classify e with
              | ErrorClass.Transient | ErrorClass.CircuitProtected =>
                  let '(rand, w) := next_rand w in
                  let w := set_breaker (record_failure (breaker w) (now w) rand) w in
                  let w := if decide (state (breaker w) = CircuitState.Open)
                           then emit (RecordCircuitOpen (projection_name ctx) (target ctx)) w
                           else w in
                  let w := emit_state w in
                  if attempt <? max_retries policy then
                    let '(rand', w) := next_rand w in
                    let sleep_ms := compute_jitter_ms delay_secs rand' in
                    let w := beat_if_any (sleep (millis sleep_ms) w) in
                    let '(r, w, log) := retry_attempts rest (next_delay policy delay_secs) w in
                    (r, w, Called (Err e) :: Slept (millis sleep_ms) :: beats ++ log)
                  else (Some (Err e), w, [Called (Err e)])
              | ErrorClass.Fatal => (Some (Err e), w, [Called (Err e)])
              end
          end
      end
  end.

Definition retry_with_backoff (w : W) : option (result unit ProjectionError) * W * list action :=
  retry_attempts (seqZ 1 (max_retries policy)) (base_backoff_secs policy) w.

(** A call that is admitted and succeeds is the only one. *)
Lemma retry_first_try cb w w' :
  1 <= max_retries policy -> check (breaker w) (now w) = Some (Ok tt, cb) ->
  operation (set_breaker cb w) = (Ok tt, w') ->
  retry_with_backoff w =
    (Some (Ok tt), emit_state (set_breaker (record_success (breaker w')) w'), [Called (Ok tt)]).
Proof.
  intros Hm Hc Ho. unfold retry_with_backoff. rewrite seqZ_cons by lia. cbn [retry_attempts].
  by rewrite Hc, Ho.
Qed.

(** ** The schedule a run follows *)

(** The nominal delay after [n] failed attempts. *)
Definition backoff (n : nat) : Z :=
  Z.min (base_backoff_secs policy * 2 ^ Z.of_nat n) (max_backoff_secs policy).

(** The logs of a run that has made [n] attempts and returns [r]. *)
Inductive schedule : nat -> list action -> result unit ProjectionError -> Prop :=
  | sched_ok n : Z.of_nat n < max_retries policy -> schedule n [Called (Ok tt)] (Ok tt)
  | sched_fatal n e :
      Z.of_nat n < max_retries policy -> ProjectionError.classify e = ErrorClass.Fatal ->
      schedule n [Called (Err e)] (Err e)
  | sched_exhausted n e :
      Z.of_nat n + 1 = max_retries policy -> ProjectionError.classify e <> ErrorClass.Fatal ->
      schedule n [Called (Err e)] (Err e)
  | sched_open n open :
      Z.of_nat n + 1 = max_retries policy ->
      schedule n [Rejected open]
        (Err (ProjectionError.CircuitOpen (circuit_open_message open)))
  | sched_retry n e ms log r :
      Z.of_nat n + 1 < max_retries policy -> ProjectionError.classify e <> ErrorClass.Fatal ->
      1500 * backoff n <= ms <= 2000 * backoff n -> schedule (S n) log r ->
      schedule n (Called (Err e) :: Slept (millis ms) :: beats ++ log) r
  | sched_wait n open log r :
      Z.of_nat n + 1 < max_retries policy -> schedule (S n) log r ->
      schedule n (Rejected open :: Slept (next_probe_in open) :: beats ++ log) r.

(** A policy whose numbers do not overflow, with room for one attempt. *)
Definition policy_ok : Prop :=
  1 <= max_retries policy /\ 1 <= base_backoff_secs policy <= max_backoff_secs policy /\
  max_backoff_secs policy <= 2 ^ 32.

(** The world keeps the breaker's invariant across await points, and the other
    primitives leave the breaker alone. *)
Record world_ok : Prop := {
  ok_set cb w : breaker (set_breaker cb w) = cb;
  ok_rand w : breaker (snd (next_rand w)) = breaker w /\ 0 <= fst (next_rand w);
  ok_beat w : breaker (beat w) = breaker w;
  ok_emit m w : breaker (emit m w) = breaker w;
  ok_sleep d w : cb_inv (breaker w) -> cb_inv (breaker (sleep d w));
  ok_operation w : cb_inv (breaker w) -> cb_inv (breaker (snd (operation w)))
}.

Lemma jitter_bounds d rand :
  1 <= d <= 2 ^ 32 -> 0 <= rand -> 1500 * d <= compute_jitter_ms d rand <= 2000 * d.
Proof.
  intros Hd Hr. unfold compute_jitter_ms, wrapping_mul_u64, wrapping_add_u64.
  pose proof (Z.mod_pos_bound rand (d * 500 + 1) ltac:(lia)).
  rewrite !(as_u64_id (d * 500)), !(as_u64_id (d * 500 + 1)), (as_u64_id (d * 1000)),
    (as_u64_id (d * 500 + _)), as_u64_id; unfold is_u64, U64_MAX; lia.
Qed.

Lemma next_delay_backoff n : policy_ok -> next_delay policy (backoff n) = backoff (S n).
Proof.
  intros (_ & [? ?] & ?). unfold next_delay, backoff, wrapping_mul_u64.
  pose proof (Z.pow_pos_nonneg 2 (Z.of_nat n)).
  rewrite as_u64_id by (unfold is_u64, U64_MAX; lia).
  rewrite Nat2Z.inj_succ, Z.pow_succ_r by lia. lia.
Qed.

Lemma backoff_bounds n : policy_ok -> 1 <= backoff n <= max_backoff_secs policy.
Proof.
  intros (_ & [? ?] & ?). unfold backoff.
  pose proof (Z.pow_pos_nonneg 2 (Z.of_nat n)). nia.
Qed.

Lemma beat_if_any_breaker w : world_ok -> breaker (beat_if_any w) = breaker w.
Proof. intros Hw. unfold beat_if_any. case_match; [by apply ok_beat|done]. Qed.

Lemma check_total cb t : cb_inv cb -> exists r cb', check cb t = Some (r, cb') /\ cb_inv cb'.
Proof.
  intros Hi. destruct (apply_call_inv cb (CallCheck t) Hi) as (cb' & Hc & Hi').
  simpl in Hc. destruct (check cb t) as [[r cb'']|]; simplify_eq/=. eauto.
Qed.

Lemma emit_state_breaker w : world_ok -> breaker (emit_state w) = breaker w.
Proof. intros Hw. unfold emit_state. by apply ok_emit. Qed.

(** One failed attempt keeps the breaker's invariant. *)
Lemma failure_inv w rand m :
  world_ok -> cb_inv (breaker w) ->
  let w1 := set_breaker (record_failure (breaker w) (now w) rand) w in
  cb_inv (breaker (emit_state (if decide (state (breaker w1) = CircuitState.Open)
                               then emit m w1 else w1))).
Proof.
  intros Hw Hi w1. rewrite emit_state_breaker by done. subst w1.
  case_decide; rewrite ?(ok_emit Hw), (ok_set Hw); by apply record_failure_inv.
Qed.

(** A run from attempt [n] on returns, on schedule, and keeps the invariant. *)
Definition follows_schedule (n : nat)
    (run : option (result unit ProjectionError) * W * list action) : Prop :=
  exists r w' log, run = (Some r, w', log) /\ schedule n log r /\ cb_inv (breaker w').

Lemma attempt_schedule n rest w :
  policy_ok -> world_ok -> Z.of_nat n + 1 <= max_retries policy -> cb_inv (breaker w) ->
  (Z.of_nat n + 1 < max_retries policy -> forall w1, cb_inv (breaker w1) ->
    follows_schedule (S n) (retry_attempts rest (backoff (S n)) w1)) ->
  follows_schedule n (retry_attempts ((1 + Z.of_nat n) :: rest) (backoff n) w).
Proof.
  intros Hp Hw Hn Hi Hrec. cbn [retry_attempts]. rewrite (next_delay_backoff n Hp).
  destruct (check_total (breaker w) (now w) Hi) as (chk & cb & -> & Hcb).
  assert (Hset : cb_inv (breaker (set_breaker cb w))) by by rewrite (ok_set Hw).
  assert (Hbeat : forall d w0, cb_inv (breaker w0) -> cb_inv (breaker (beat_if_any (sleep d w0))))
    by (intros; rewrite beat_if_any_breaker by done; by apply (ok_sleep Hw)).
  destruct chk as [[]|open].
  - pose proof (ok_operation Hw _ Hset) as Hop.
    destruct (operation (set_breaker cb w)) as [[[]|e] w1]; simpl in Hop.
    + eexists _, _, _. split; [done|]. split; [apply sched_ok; lia|].
      rewrite emit_state_breaker, (ok_set Hw) by done. by apply record_success_inv.
    + destruct (ProjectionError.classify e) eqn:He.
      { eexists _, _, _. split; [done|]. split; [apply sched_fatal; [lia|done]|done]. }
      all: pose proof (ok_rand Hw w1) as [Hr1 _];
        destruct (next_rand w1) as [rand w2]; simpl in Hr1; rewrite <- Hr1 in Hop;
        pose proof (failure_inv w2 rand (RecordCircuitOpen (projection_name ctx) (target ctx)) Hw Hop)
          as Hf; cbv zeta in Hf;
        set (w3 := emit_state _) in *;
        destruct (Z.ltb_spec (1 + Z.of_nat n) (max_retries policy)) as [Hlt|Hge];
        [|eexists _, _, _; split; [done|]; split; [apply sched_exhausted; [lia|congruence]|done]].
      all: pose proof (ok_rand Hw w3) as [Hr3 Hpos];
        destruct (next_rand w3) as [rand' w4]; simpl in Hr3, Hpos; rewrite <- Hr3 in Hf;
        destruct (Hrec ltac:(lia) _ (Hbeat (millis (compute_jitter_ms (backoff n) rand')) _ Hf))
          as (r & w' & log & -> & Hs & Hi');
        eexists _, _, _; split; [done|]; split; [|done];
        (apply sched_retry; [lia|congruence| |done]);
        apply jitter_bounds; [|done]; pose proof (backoff_bounds n Hp); destruct Hp; lia.
  - assert (Hem : cb_inv (breaker (emit_state (set_breaker cb w))))
      by by rewrite emit_state_breaker.
    destruct (Z.ltb_spec (1 + Z.of_nat n) (max_retries policy)).
    + destruct (Hrec ltac:(lia) _ (Hbeat (next_probe_in open) _ Hem))
        as (r & w' & log & -> & Hs & Hi').
      eexists _, _, _. split; [done|]. split; [apply sched_wait; [lia|done]|done].
    + eexists _, _, _. split; [done|]. split; [apply sched_open; lia|done].
Qed.

Lemma retry_attempts_schedule k n w :
  policy_ok -> world_ok -> Z.of_nat (n + S k) = max_retries policy -> cb_inv (breaker w) ->
  follows_schedule n (retry_attempts (seqZ (1 + Z.of_nat n) (Z.of_nat (S k))) (backoff n) w).
Proof.
  intros Hp Hw. revert n w. induction k as [|k IH]; intros n w Hn Hi;
    rewrite seqZ_cons by lia; (apply attempt_schedule; [done..|lia|done|]); [lia|].
  intros _ w1 Hi1. specialize (IH (S n) w1 ltac:(lia) Hi1).
  replace (Z.succ (1 + Z.of_nat n)) with (1 + Z.of_nat (S n)) by lia.
  replace (Z.pred (Z.of_nat (S (S k)))) with (Z.of_nat (S k)) by lia. done.
Qed.

Lemma retry_with_backoff_schedule w :
  policy_ok -> world_ok -> cb_inv (breaker w) -> follows_schedule 0 (retry_with_backoff w).
Proof.
  intros Hp Hw Hi. pose proof Hp as (? & [? ?] & ?). unfold retry_with_backoff.
  pose proof (retry_attempts_schedule (Z.to_nat (max_retries policy - 1)) 0 w Hp Hw) as Hs.
  replace (Z.of_nat (S (Z.to_nat (max_retries policy - 1)))) with (max_retries policy) in Hs by lia.
  replace (backoff 0) with (base_backoff_secs policy) in Hs by (unfold backoff; simpl; lia).
  apply Hs; [lia|done].
Qed.

(** ** What a run leaves behind *)

(** Any preorder on worlds that each primitive and the operation respect relates
    the ends of a run, and a successful run contains a successful call. *)
Section Reaches.
Context (R : W -> W -> Prop) `{!PreOrder R}.

Record steps_in : Prop := {
  in_set cb w : (cb_inv (breaker w) -> cb_inv cb) -> R w (set_breaker cb w);
  in_rand w : R w (snd (next_rand w));
  in_sleep d w : R w (sleep d w);
  in_beat w : R w (beat w);
  in_emit m w : R w (emit m w);
  in_operation w : R w (snd (operation w))
}.

Definition reaches (w : W) (run : option (result unit ProjectionError) * W * list action) : Prop :=
  let '(r, w', _) := run in
  R w w' /\
  (r = Some (Ok tt) -> exists w1 w2, R w w1 /\ operation w1 = (Ok tt, w2) /\ R w2 w').

Lemma reaches_from w w1 run : R w w1 -> reaches w1 run -> reaches w run.
Proof.
  destruct run as [[r w'] log]. intros Hw [Hr Hop]. split; [by transitivity w1|].
  intros Hok. destruct (Hop Hok) as (w2 & w3 & ? & ? & ?).
  exists w2, w3. split; [by transitivity w1|done].
Qed.

Lemma beat_if_any_in w : steps_in -> R w (beat_if_any w).
Proof. intros Hs. unfold beat_if_any. case_match; [by apply (in_beat Hs)|done]. Qed.

Lemma record_failure_in w rand : steps_in ->
  let w' := set_breaker (record_failure (breaker w) (now w) rand) w in
  R w (emit_state (if decide (state (breaker w') = CircuitState.Open)
                   then emit (RecordCircuitOpen (projection_name ctx) (target ctx)) w' else w')).
Proof.
  intros Hs w'. assert (R w w') by (apply (in_set Hs); intros; by apply record_failure_inv).
  unfold emit_state. etransitivity; [|apply (in_emit Hs)].
  case_decide; [etransitivity; [done|apply (in_emit Hs)]|done].
Qed.

Lemma sleep_beat_in d w : steps_in -> R w (beat_if_any (sleep d w)).
Proof. intros Hs. etransitivity; [apply (in_sleep Hs)|by apply beat_if_any_in]. Qed.

Lemma retry_attempts_reaches attempts d w :
  steps_in -> reaches w (retry_attempts attempts d w).
Proof.
  intros Hs. revert d w. induction attempts as [|a rest IH]; intros d w; cbn [retry_attempts];
    [by split|].
  destruct (check (breaker w) (now w)) as [[r cb]|] eqn:Hc; [|by split].
  assert (Hset : R w (set_breaker cb w)).
  { apply (in_set Hs). intros Hi. by eapply check_inv. }
  destruct r as [u|open].
  - destruct (operation (set_breaker cb w)) as [res w1] eqn:Hop.
    assert (H1 : R w w1).
    { etransitivity; [exact Hset|]. pose proof (in_operation Hs (set_breaker cb w)) as Ho.
      by rewrite Hop in Ho. }
    destruct res as [[]|e].
    + assert (H2 : R w1 (emit_state (set_breaker (record_success (breaker w1)) w1))).
      { etransitivity; [apply (in_set Hs), record_success_inv|apply (in_emit Hs)]. }
      split; [by etransitivity|]. intros _. eauto.
    + destruct (ProjectionError.classify e); [by split| |].
      all: pose proof (in_rand Hs w1) as Hr; destruct (next_rand w1) as [rand w2]; cbv zeta;
        pose proof (record_failure_in w2 rand Hs) as Hfail; cbv zeta in Hfail;
        set (w3 := emit_state _) in *;
        assert (Hw3 : R w w3) by (transitivity w1; [done|]; by transitivity w2);
        case_match; [|by split];
        pose proof (in_rand Hs w3) as Hr3; destruct (next_rand w3) as [rand' w4];
        set (w5 := beat_if_any _);
        assert (Hw5 : R w w5)
          by (transitivity w3; [done|]; transitivity w4; [done|]; by apply sleep_beat_in);
        pose proof (reaches_from _ _ _ Hw5 (IH (next_delay policy d) w5)) as Hrec;
        by destruct (retry_attempts _ _ _) as [[? ?] ?].
  - assert (He : R w (emit_state (set_breaker cb w)))
      by (etransitivity; [exact Hset|apply (in_emit Hs)]).
    case_match; [|by split].
    set (w5 := beat_if_any _).
    assert (Hw5 : R w w5) by (etransitivity; [exact He|by apply sleep_beat_in]).
    pose proof (reaches_from _ _ _ Hw5 (IH (next_delay policy d) w5)) as Hrec.
    by destruct (retry_attempts _ _ _) as [[? ?] ?].
Qed.

Lemma retry_with_backoff_reaches w : steps_in -> reaches w (retry_with_backoff w).
Proof. apply retry_attempts_reaches. Qed.
End Reaches.

(** ** What the schedule implies *)

Definition is_attempt (a : action) : bool :=
  match a with Called _ | Rejected _ => true | _ => false end.
Definition attempts (log : list action) : list action := List.filter is_attempt log.

Lemma attempts_beats log : attempts (beats ++ log) = attempts log.
Proof. unfold attempts, beats. case_match; done. Qed.

(** An attempt that does not settle the run. *)
Definition retryable (a : action) : Prop :=
  match a with
  | Rejected _ => True
  | Called (Err e) => ProjectionError.classify e <> ErrorClass.Fatal
  | _ => False
  end.

(** The attempt that ends the run, and the result it gives. *)
Definition settles (a : action) (r : result unit ProjectionError) : Prop :=
  match a with
  | Called res => r = res
  | Rejected open => r = Err (ProjectionError.CircuitOpen (circuit_open_message open))
  | _ => False
  end.

Lemma schedule_attempts n log r :
  schedule n log r ->
  exists init a, attempts log = init ++ [a] /\ Forall retryable init /\ settles a r /\
    Z.of_nat (n + length (attempts log)) <= max_retries policy /\
    (retryable a -> Z.of_nat (n + length (attempts log)) = max_retries policy).
Proof.
  induction 1 as [n Hn|n e Hn He|n e Hn He|n open Hn|n e ms log r Hn He Hms _ IH|n open log r Hn _ IH].
  1-4: eexists [], _; split; [done|]; split; [done|]; split; [done|]; simpl; split; [lia|].
  1-4: intros Hra; simpl in Hra; first [contradiction|lia].
  all: destruct IH as (init & a & Hat & Hall & Hset & Hle & Heq);
    (eexists (_ :: init), a); cbn [attempts List.filter is_attempt];
    fold (attempts (beats ++ log)); rewrite attempts_beats; rewrite Hat; rewrite Hat in Hle, Heq;
    (split; [done|]); (split; [by constructor|]); (split; [done|]);
    cbn [length app]; (split; [lia|intros Hra; specialize (Heq Hra); lia]).
Qed.

Lemma attempts_length_beats pre post : beats = pre ++ post -> attempts pre = [].
Proof. unfold beats. case_match; destruct pre as [|? [|??]]; intros; by simplify_eq/=. Qed.

(** Every pause after a failed call is within the jitter window of its attempt. *)
Lemma schedule_pauses n log r pre e d post :
  schedule n log r -> log = pre ++ Called (Err e) :: Slept d :: post ->
  let k := (n + length (attempts pre))%nat in
  millis (1500 * backoff k) <= d <= millis (2000 * backoff k).
Proof.
  intros Hs. revert pre. induction Hs as [| | | |n e' ms log r Hn He Hms _ IH|n open log r Hn _ IH];
    intros pre Hlog.
  1-4: destruct pre as [|? [|??]]; simplify_eq/=.
  all: destruct pre as [|a1 [|a2 pre]]; simplify_eq/=.
  1: rewrite Nat.add_0_r; unfold millis; lia.
  all: assert (Hpre : exists pre', pre = beats ++ pre' /\
         log = pre' ++ Called (Err e) :: Slept d :: post) by
       (unfold beats in *; case_match; [|by exists pre];
        destruct pre as [|? pre']; simplify_eq/=; by exists pre').
  all: destruct Hpre as (pre' & -> & ->); rewrite attempts_beats;
       specialize (IH pre' eq_refl); simpl in IH;
       replace (n + S (length (attempts pre')))%nat with (S (n + length (attempts pre'))) by lia;
       exact IH.
Qed.
End Loop.

(** Both policies of the service are within the assumptions. *)
Lemma policies_ok : policy_ok event_driven /\ policy_ok batch.
Proof. split; vm_compute; repeat split; discriminate. Qed.

(** ** Properties *)

(** C32 (retry, termination and result). Under any behaviour of the operation, of
    the other users of the breaker and of the clock that keeps the breaker's
    invariant, [retry_with_backoff] returns without panicking. It makes at most
    [max_retries] attempts, a breaker rejection counting as one; every attempt
    but the last failed with a retryable error or was rejected, so a fatal error
    or a success ends the run at once; the result is that of the last attempt;
    and a retryable failure is only returned once all attempts are used. *)
Theorem retry_settles {W} `{RetryWorld W} (msg : CircuitOpen -> string) (policy : RetryPolicy)
  (ctx : RetryContext) (operation : W -> result unit ProjectionError * W) (w : W)
  (Hp : policy_ok policy) (Hw : world_ok operation) (Hi : cb_inv (breaker w)) :
  exists r w' log init a,
    retry_with_backoff msg policy ctx operation w = (Some r, w', log) /\
    attempts log = init ++ [a] /\ Forall retryable init /\ settles msg a r /\
    Z.of_nat (length (attempts log)) <= max_retries policy /\
    (retryable a -> Z.of_nat (length (attempts log)) = max_retries policy) /\
    cb_inv (breaker w').
Proof.
  destruct (retry_with_backoff_schedule msg policy ctx operation w Hp Hw Hi)
    as (r & w' & log & -> & Hs & Hi').
  destruct (schedule_attempts _ _ _ _ _ _ Hs) as (init & a & ? & ? & ? & ? & ?).
  exists r, w', log, init, a. done.
Qed.

(** Retry, pauses. The pause after a failed call that was the [k]-th
    attempt (from 0) lies between 1.5 and 2 times the nominal delay
    [min (base * 2^k) max], counting rejected attempts: the delay doubles up to
    the ceiling and the jitter never shortens it. *)
Theorem retry_pauses {W} `{RetryWorld W} (msg : CircuitOpen -> string) (policy : RetryPolicy)
  (ctx : RetryContext) (operation : W -> result unit ProjectionError * W) (w : W)
  (Hp : policy_ok policy) (Hw : world_ok operation) (Hi : cb_inv (breaker w)) :
  exists r w' log, retry_with_backoff msg policy ctx operation w = (r, w', log) /\
    forall pre e d post, log = pre ++ Called (Err e) :: Slept d :: post ->
      let nominal := backoff policy (length (attempts pre)) in
      millis (1500 * nominal) <= d <= millis (2000 * nominal).
Proof.
  destruct (retry_with_backoff_schedule msg policy ctx operation w Hp Hw Hi)
    as (r & w' & log & -> & Hs & _).
  eexists _, _, _. split; [done|]. intros pre e d post Hlog.
  exact (schedule_pauses msg policy ctx 0 log r pre e d post Hs Hlog).
Qed.

(** A concrete world: a clock, a breaker and the errors the operation returns
    before it succeeds. *)
Record demo_world := {
  d_time : Z; d_breaker : CircuitBreaker; d_errors : list ProjectionError; d_tick : Z }.

#[global] Instance demo_retry_world : RetryWorld demo_world := {|
  breaker := d_breaker;
  set_breaker cb w := {| d_time := d_time w; d_breaker := cb; d_errors := d_errors w;
                         d_tick := d_tick w |};
  now := d_time;
  next_rand w := (rand_u64 (d_tick w) (d_time w),
    {| d_time := d_time w; d_breaker := d_breaker w; d_errors := d_errors w;
       d_tick := d_tick w + 1 |});
  sleep d w := {| d_time := d_time w + d; d_breaker := d_breaker w; d_errors := d_errors w;
                  d_tick := d_tick w |};
  beat w := w;
  emit _ w := w
|}.

Definition demo_operation (w : demo_world) : result unit ProjectionError * demo_world :=
  match d_errors w with
  | [] => (Ok tt, w)
  | e :: es => (Err e, {| d_time := d_time w; d_breaker := d_breaker w; d_errors := es;
                          d_tick := d_tick w |})
  end.

Definition demo_context : RetryContext :=
  {| projection_name := "vault_state"; target := "pg"; has_heartbeat := true |}.
Definition demo_start (es : list ProjectionError) : demo_world :=
  {| d_time := 0; d_breaker := with_defaults "pg"; d_errors := es; d_tick := 0 |}.

Lemma as_u64_nonneg x : 0 <= as_u64 x.
Proof. apply as_u64_range. Qed.

Lemma rand_u64_nonneg tick nanos : 0 <= rand_u64 tick nanos.
Proof.
  unfold rand_u64. cbv zeta. apply Z.lxor_nonneg.
  split; [intros _; apply Z.shiftr_nonneg|intros _]; apply as_u64_nonneg.
Qed.

Lemma demo_world_ok : world_ok demo_operation.
Proof.
  split; try done.
  - intros w. split; [done|]. simpl. apply rand_u64_nonneg.
  - intros w Hi. unfold demo_operation. by destruct (d_errors w).
Qed.

Lemma demo_breaker_inv es : cb_inv (breaker (demo_start es)).
Proof. apply new_inv. vm_compute. repeat split; discriminate. Qed.

Lemma retry_settles_witness :
  exists r w' log init a,
    retry_with_backoff (fun _ => "open") event_driven demo_context demo_operation
      (demo_start [ProjectionError.Database "reset"; ProjectionError.Config "bad"])
      = (Some r, w', log) /\
    attempts log = init ++ [a] /\ Forall retryable init /\ settles (fun _ => "open") a r /\
    Z.of_nat (length (attempts log)) <= 8 /\
    (retryable a -> Z.of_nat (length (attempts log)) = 8) /\ cb_inv (breaker w').
Proof.
  exact (retry_settles (fun _ => "open") event_driven demo_context demo_operation _
    (proj1 policies_ok) demo_world_ok (demo_breaker_inv _)).
Defined.

Lemma retry_pauses_witness :
  exists r w' log,
    retry_with_backoff (fun _ => "open") batch demo_context demo_operation
      (demo_start [ProjectionError.Sink "timeout"; ProjectionError.Sink "timeout"]) = (r, w', log) /\
    forall pre e d post, log = pre ++ Called (Err e) :: Slept d :: post ->
      let nominal := backoff batch (length (attempts pre)) in
      millis (1500 * nominal) <= d <= millis (2000 * nominal).
Proof.
  exact (retry_pauses (fun _ => "open") batch demo_context demo_operation _
    (proj2 policies_ok) demo_world_ok (demo_breaker_inv _)).
Defined.
