(* ===== verification/Supervisor.v ===== *)
(** * The supervisor

    [crates/projections/src/resilience/supervisor.rs] and
    [supervised_adapters.rs]: a loop that restarts a worker until it fails
    fatally or the service shuts down. What the environment decides in one turn
    of the loop, the clock readings, the way the worker ended and where the
    shutdown signal was seen, is a [Turn]; the loop consumes one per restart. *)

From S2P Require Import Prelude MachineInt Errors CircuitBreaker Retry.

Definition MIN_BACKOFF : Duration := secs 1.
Definition MAX_BACKOFF : Duration := secs 30.
Definition HEALTHY_RESET_AFTER : Duration := secs 300.

Module WorkerError.
Inductive WorkerError :=
  | Transient (msg : string)
  | Fatal (msg : string).
End WorkerError.
Abbreviation WorkerError := WorkerError.WorkerError.

Definition to_worker_error (e : ProjectionError) : WorkerError :=
  match ProjectionError.classify e with
  | ErrorClass.Transient | ErrorClass.CircuitProtected =>
      WorkerError.Transient (ProjectionError.to_string e)
  | ErrorClass.Fatal => WorkerError.Fatal (ProjectionError.to_string e)
  end.

(** An adapter: the worker is taken out on the first [run]; a second [run] of
    the same instance panics ([None]). *)
Record adapter (Wk : Type) := { label : string; inner : option Wk }.
Arguments label {Wk} _.
Arguments inner {Wk} _.

Definition adapter_new {Wk} (label : string) (worker : Wk) : adapter Wk :=
  {| label := label; inner := Some worker |}.

Definition adapter_run {Wk} (run : Wk -> result unit ProjectionError) (self : adapter Wk)
    : option (result unit WorkerError) * adapter Wk :=
  let self' := {| label := label self; inner := None |} in
  match inner self with
  | None => (None, self')
  | Some worker =>
      (Some match run worker with Ok _ => Ok tt | Err e => Err (to_worker_error e) end, self')
  end.

Record Supervisor := {
  sup_name : string;
  restart_count : Z;
  consecutive_failures : Z;
  current_backoff : Duration;
  last_healthy_at : option Instant;
  min_backoff : Duration;
  max_backoff : Duration;
  healthy_reset_after : Duration
}.

Definition new (name : string) : Supervisor := {|
  sup_name := name;
  restart_count := 0;
  consecutive_failures := 0;
  current_backoff := MIN_BACKOFF;
  last_healthy_at := None;
  min_backoff := MIN_BACKOFF;
  max_backoff := MAX_BACKOFF;
  healthy_reset_after := HEALTHY_RESET_AFTER
|}.

Definition with_backoff (self : Supervisor) (b : Duration) : Supervisor := {|
  sup_name := sup_name self; restart_count := restart_count self;
  consecutive_failures := consecutive_failures self; current_backoff := b;
  last_healthy_at := last_healthy_at self; min_backoff := min_backoff self;
  max_backoff := max_backoff self; healthy_reset_after := healthy_reset_after self |}.

Definition with_healthy (self : Supervisor) (t : option Instant) : Supervisor := {|
  sup_name := sup_name self; restart_count := restart_count self;
  consecutive_failures := consecutive_failures self; current_backoff := current_backoff self;
  last_healthy_at := t; min_backoff := min_backoff self;
  max_backoff := max_backoff self; healthy_reset_after := healthy_reset_after self |}.

Definition with_counts (self : Supervisor) (restarts failures : Z) : Supervisor := {|
  sup_name := sup_name self; restart_count := restarts;
  consecutive_failures := failures; current_backoff := current_backoff self;
  last_healthy_at := last_healthy_at self; min_backoff := min_backoff self;
  max_backoff := max_backoff self; healthy_reset_after := healthy_reset_after self |}.

Definition record_transient_failure (self : Supervisor) (run_started_at now : Instant)
    : Supervisor :=
  let self := with_counts self (restart_count self)
                (wrapping_add_u32 (consecutive_failures self) 1) in
  if healthy_reset_after self <=? elapsed run_started_at now
  then with_healthy self (Some run_started_at)
  else self.

Definition maybe_reset_backoff (self : Supervisor) (now : Instant) : Supervisor :=
  let should_reset :=
    match last_healthy_at self with
    | Some t => elapsed t now <? healthy_reset_after self * 2
    | None => false
    end in
  if should_reset
  then with_healthy (with_counts (with_backoff self (min_backoff self)) (restart_count self) 0) None
  else self.

Definition apply_jitter (base : Duration) (rand : Z) : Duration :=
  let base_ms := as_u64 (base / 1000000) in
  if base_ms =? 0 then base
  else
    let half_ms := base_ms / 2 in
    let jitter_ms := wrapping_add_u64 half_ms (rand mod wrapping_add_u64 base_ms 1) in
    millis jitter_ms.

(** How the spawned task ended: with the worker's result, or without one (a
    panic, or the runtime aborting it). *)
Inductive Outcome :=
  | Returned (r : result unit WorkerError)
  | JoinError (is_panic : bool).

Record Turn := {
  cancelled_at_top : bool;
  reset_time : Instant;
  run_started_at : Instant;
  outcome : Outcome;
  cancelled_after_run : bool;
  run_ended_at : Instant;
  cancelled_after_clean : bool;
  rand : Z;
  cancelled_in_sleep : bool
}.

Inductive Exit := ShutDown | FatalStop (msg : string).

(** What a turn did: leave the loop, or sleep and go round again. *)
Inductive turn_result :=
  | Exited (e : Exit)
  | Continued (slept : Duration) (self : Supervisor).

Definition restart_after (self : Supervisor) (t : Turn) : turn_result :=
  let backoff := current_backoff self in
  let jittered := apply_jitter backoff (rand t) in
  if cancelled_in_sleep t then Exited ShutDown
  else Continued jittered (with_backoff self (Z.min (backoff * 2) (max_backoff self))).

Definition turn (self : Supervisor) (t : Turn) : turn_result :=
  if cancelled_at_top t then Exited ShutDown
  else
    let self := maybe_reset_backoff self (reset_time t) in
    let self := with_counts self (wrapping_add_u32 (restart_count self) 1)
                  (consecutive_failures self) in
    if cancelled_after_run t then Exited ShutDown
    else
      match outcome t with
      | Returned (Ok _) =>
          let self := if healthy_reset_after self <=? elapsed (run_started_at t) (run_ended_at t)
                      then with_healthy self (Some (run_started_at t)) else self in
          if cancelled_after_clean t then Exited ShutDown
          else if cancelled_in_sleep t then Exited ShutDown
          else Continued (min_backoff self) self
      | Returned (Err (WorkerError.Transient _)) =>
          restart_after (record_transient_failure self (run_started_at t) (run_ended_at t)) t
      | Returned (Err (WorkerError.Fatal msg)) => Exited (FatalStop msg)
      | JoinError _ =>
          restart_after (record_transient_failure self (run_started_at t) (run_ended_at t)) t
      end.

(** [Supervisor::run] over the turns the environment plays: the sleeps taken,
    and how it ended, if it did. *)
Fixpoint run (self : Supervisor) (ts : list Turn) : list Duration * (Exit + Supervisor) :=
  match ts with
  | [] => ([], inr self)
  | t :: ts =>
      match turn self t with
      | Exited e => ([], inl e)
      | Continued d self' => let '(ds, r) := run self' ts in (d :: ds, r)
      end
  end.

(** ** Invariant *)

Record sup_inv (s : Supervisor) : Prop := {
  inv_min : 0 < min_backoff s;
  inv_backoff : min_backoff s <= current_backoff s <= max_backoff s;
  inv_restarts : is_u32 (restart_count s);
  inv_fails : is_u32 (consecutive_failures s)
}.

Lemma new_sup_inv name : sup_inv (new name).
Proof. split; vm_compute; try split; congruence. Qed.

Lemma maybe_reset_inv s now : sup_inv s -> sup_inv (maybe_reset_backoff s now).
Proof.
  intros Hs. unfold maybe_reset_backoff. case_match; [|done].
  destruct Hs. split; simpl; try done; try lia.
Qed.

Lemma with_counts_inv s r f : sup_inv s -> is_u32 r -> is_u32 f -> sup_inv (with_counts s r f).
Proof. intros [] ? ?. by split. Qed.

Lemma with_healthy_inv s t : sup_inv s -> sup_inv (with_healthy s t).
Proof. intros []. by split. Qed.

Lemma record_transient_inv s t0 t1 : sup_inv s -> sup_inv (record_transient_failure s t0 t1).
Proof.
  intros Hs. unfold record_transient_failure.
  assert (sup_inv (with_counts s (restart_count s) (wrapping_add_u32 (consecutive_failures s) 1)))
    by (apply with_counts_inv; [done|by destruct Hs|apply wrapping_add_u32_range]).
  case_match; [by apply with_healthy_inv|done].
Qed.

(** The backoff configuration is fixed. *)
Definition same_bounds (s s' : Supervisor) : Prop :=
  min_backoff s' = min_backoff s /\ max_backoff s' = max_backoff s /\
  healthy_reset_after s' = healthy_reset_after s.

Lemma maybe_reset_bounds s now : same_bounds s (maybe_reset_backoff s now).
Proof. unfold maybe_reset_backoff. case_match; done. Qed.

Lemma record_transient_bounds s t0 t1 : same_bounds s (record_transient_failure s t0 t1).
Proof. unfold record_transient_failure. case_match; done. Qed.

(** The sleep a turn takes is a jittered backoff or the minimum. *)
Definition sleep_ok (s : Supervisor) (t : Turn) (d : Duration) : Prop :=
  d = min_backoff s \/
  exists b, min_backoff s <= b <= max_backoff s /\ d = apply_jitter b (rand t).

Lemma restart_after_inv s t d s' :
  sup_inv s -> restart_after s t = Continued d s' ->
  sup_inv s' /\ same_bounds s s' /\ sleep_ok s t d.
Proof.
  intros [] Hra. unfold restart_after in Hra. case_match; [done|]. injection Hra as <- <-.
  split; [split; simpl; first [done|lia]|]. split; [done|]. right. by exists (current_backoff s).
Qed.

Lemma turn_inv s t d s' :
  sup_inv s -> turn s t = Continued d s' -> sup_inv s' /\ same_bounds s s' /\ sleep_ok s t d.
Proof.
  intros Hs Ht. unfold turn in Ht. case_match; [done|]. cbv zeta in Ht.
  pose proof (maybe_reset_inv s (reset_time t) Hs) as Hs1.
  destruct (maybe_reset_bounds s (reset_time t)) as (Hmin1 & Hmax1 & Hh1).
  set (s1 := maybe_reset_backoff s (reset_time t)) in *.
  pose proof (with_counts_inv s1 (wrapping_add_u32 (restart_count s1) 1) (consecutive_failures s1)
    Hs1 (wrapping_add_u32_range _ _) (inv_fails s1 Hs1)) as Hs2.
  set (s2 := with_counts s1 _ _) in *. case_match; [done|].
  pose proof (record_transient_inv s2 (run_started_at t) (run_ended_at t) Hs2) as Hs3.
  destruct (record_transient_bounds s2 (run_started_at t) (run_ended_at t)) as (Hmin3 & Hmax3 & Hh3).
  assert (Hrestart : restart_after
      (record_transient_failure s2 (run_started_at t) (run_ended_at t)) t = Continued d s' ->
    sup_inv s' /\ same_bounds s s' /\ sleep_ok s t d).
  { intros (Hi & (Hmin4 & Hmax4 & Hh4) & Hd)%restart_after_inv; [|done].
    simpl in *. split; [done|]. split; [unfold same_bounds; repeat split; congruence|].
    unfold sleep_ok in *. rewrite Hmin3, Hmax3, Hmin1, Hmax1 in Hd. done. }
  destruct (outcome t) as [[[]|[msg|msg]]|panic]; [|by apply Hrestart|done|by apply Hrestart].
  case_match; [done|]. case_match; [done|]. injection Ht as <- <-.
  split; [case_match; [by apply with_healthy_inv|done]|].
  split; [case_match; done|]. left. by case_match.
Qed.

Lemma jitter_window b r :
  millis 1 <= b <= secs 3600 -> 0 <= r ->
  b / 1000000 / 2 <= apply_jitter b r / 1000000 <= b / 1000000 / 2 + b / 1000000 /\
  apply_jitter b r mod 1000000 = 0.
Proof.
  unfold millis, secs. intros Hb Hr. unfold apply_jitter.
  assert (Hms : 1 <= b / 1000000 <= 3600000).
  { split; [apply Z.div_le_lower_bound; lia|apply Z.div_le_upper_bound; lia]. }
  rewrite (as_u64_id (b / 1000000)) by (unfold is_u64, U64_MAX; lia).
  destruct (Z.eqb_spec (b / 1000000) 0); [lia|].
  unfold wrapping_add_u64, millis. rewrite (as_u64_id (b / 1000000 + 1)) by (unfold is_u64, U64_MAX; lia).
  pose proof (Z.mod_pos_bound r (b / 1000000 + 1) ltac:(lia)).
  pose proof (div_spec (b / 1000000) 2 ltac:(lia)).
  rewrite as_u64_id by (unfold is_u64, U64_MAX; lia).
  rewrite Z.div_mul, Z.mod_mul by lia. lia.
Qed.

Lemma jitter_range b r :
  secs 1 <= b <= secs 30 -> 0 <= r -> millis 500 <= apply_jitter b r <= secs 45.
Proof.
  intros Hb Hr. destruct (jitter_window b r) as [Hw _]; [unfold millis, secs in *; lia|done|].
  unfold millis, secs in *.
  assert (1000 <= b / 1000000 <= 30000)
    by (split; [apply Z.div_le_lower_bound|apply Z.div_le_upper_bound]; lia).
  pose proof (div_spec (b / 1000000) 2 ltac:(lia)).
  pose proof (div_spec (apply_jitter b r) 1000000 ltac:(lia)).
  destruct (jitter_window b r) as [_ Hm]; [unfold millis, secs in *; lia|done|].
  pose proof (Z.div_mod (apply_jitter b r) 1000000 ltac:(lia)). lia.
Qed.

(** A turn in which nobody asked to stop. *)
Definition uncancelled (t : Turn) : Prop :=
  cancelled_at_top t = false /\ cancelled_after_run t = false /\
  cancelled_after_clean t = false /\ cancelled_in_sleep t = false.

Definition fatal (t : Turn) : Prop :=
  exists msg, outcome t = Returned (Err (WorkerError.Fatal msg)).

Lemma turn_continues s t :
  uncancelled t -> ~ fatal t -> exists d s', turn s t = Continued d s'.
Proof.
  intros (Ht & Hr & Hc & Hs) Hf. unfold turn, restart_after. rewrite Ht, Hr, Hc, Hs.
  destruct (outcome t) as [[[]|[msg|msg]]|p] eqn:Ho; cbv zeta; eauto.
  destruct Hf. by exists msg.
Qed.

Lemma turn_exit s t e :
  turn s t = Exited e ->
  match e with ShutDown => ~ uncancelled t
  | FatalStop msg => outcome t = Returned (Err (WorkerError.Fatal msg)) end.
Proof.
  intros Ht. destruct e as [|msg].
  - intros (H1 & H2 & H3 & H4). unfold turn, restart_after in Ht. rewrite H1, H2, H3, H4 in Ht.
    by destruct (outcome t) as [[[]|[msg|msg]]|p].
  - unfold turn, restart_after in Ht. repeat case_match; naive_solver.
Qed.

(** A run that failed, or panicked, before it counted as healthy. *)
Definition quick_failure (s : Supervisor) (t : Turn) : Prop :=
  uncancelled t /\ elapsed (run_started_at t) (run_ended_at t) < healthy_reset_after s /\
  match outcome t with
  | Returned (Err (WorkerError.Transient _)) | JoinError _ => True
  | _ => False
  end.

Lemma quick_turn s t :
  last_healthy_at s = None -> quick_failure s t ->
  exists s', turn s t = Continued (apply_jitter (current_backoff s) (rand t)) s' /\
    same_bounds s s' /\ last_healthy_at s' = None /\
    current_backoff s' = Z.min (current_backoff s * 2) (max_backoff s).
Proof.
  intros Hl ((Ht & Hr & Hc & Hs) & Hq & Ho). unfold turn, restart_after. rewrite Ht, Hr, Hs.
  unfold maybe_reset_backoff, record_transient_failure. rewrite Hl. cbv zeta. simpl.
  destruct (Z.leb_spec (healthy_reset_after s) (elapsed (run_started_at t) (run_ended_at t))); [lia|].
  destruct (outcome t) as [[[]|[msg|msg]]|p]; try done; eexists; (split; [done|]); by simpl.
Qed.

Lemma quick_failures_backoff s ts b :
  last_healthy_at s = None -> 1 <= b -> 0 <= max_backoff s ->
  current_backoff s = Z.min (secs b) (max_backoff s) -> Forall (quick_failure s) ts ->
  exists s', run s ts = (imap (fun k t =>
      apply_jitter (Z.min (secs (b * 2 ^ Z.of_nat k)) (max_backoff s)) (rand t)) ts, inr s') /\
    current_backoff s' = Z.min (secs (b * 2 ^ Z.of_nat (length ts))) (max_backoff s).
Proof.
  intros Hl Hb Hm Hcur Hts. revert s b Hl Hb Hm Hcur Hts.
  induction ts as [|t ts IH]; intros s b Hl Hb Hm Hcur Hts.
  { exists s. simpl. rewrite Z.mul_1_r. done. }
  apply Forall_cons_1 in Hts as [Ht Hts].
  destruct (quick_turn s t Hl Ht) as (s1 & Hturn & (Hmin & Hmax & Hh) & Hl1 & Hc1).
  destruct (IH s1 (b * 2)) as (s' & Hrun & Hc'); [done|lia|congruence| | |].
  - rewrite Hc1, Hmax, Hcur. unfold secs in *. lia.
  - eapply Forall_impl; [exact Hts|]. intros t'. unfold quick_failure. by rewrite Hh.
  - exists s'. cbn [run]. rewrite Hturn, Hrun. split.
    + rewrite imap_cons. simpl. rewrite Z.mul_1_r, Hcur, Hmax. do 2 f_equal.
      apply imap_ext. intros k t' _. simpl. do 3 f_equal.
      rewrite Nat2Z.inj_succ, Z.pow_succ_r by lia. lia.
    + rewrite Hc', Hmax. cbn [length]. rewrite Nat2Z.inj_succ, Z.pow_succ_r by lia. do 2 f_equal. lia.
Qed.

(** ** Properties *)

(** C39 (supervisor, restarts). Drive a fresh supervisor through any turns. Every
    pause before a restart is between half a second and 45 seconds. It leaves
    the loop only in a turn where shutdown was requested or the worker failed
    fatally; otherwise it restarts the worker in every turn, panics and
    transient failures included, with its counters in range and its backoff
    between one and thirty seconds. *)
Theorem supervisor_restarts (name : string) (ts : list Turn)
  (Hrand : Forall (fun t => 0 <= rand t) ts) :
  let '(ds, r) := run (new name) ts in
  Forall (fun d => millis 500 <= d <= secs 45) ds /\
  match r with
  | inl ShutDown => Exists (fun t => ~ uncancelled t) ts
  | inl (FatalStop msg) =>
      Exists (fun t => outcome t = Returned (Err (WorkerError.Fatal msg))) ts
  | inr s => length ds = length ts /\ is_u32 (restart_count s) /\
             secs 1 <= current_backoff s <= secs 30
  end.
Proof.
  assert (Hgen : forall s, sup_inv s -> min_backoff s = secs 1 -> max_backoff s = secs 30 ->
    let '(ds, r) := run s ts in
    Forall (fun d => millis 500 <= d <= secs 45) ds /\
    match r with
    | inl ShutDown => Exists (fun t => ~ uncancelled t) ts
    | inl (FatalStop msg) =>
        Exists (fun t => outcome t = Returned (Err (WorkerError.Fatal msg))) ts
    | inr s => length ds = length ts /\ is_u32 (restart_count s) /\
               secs 1 <= current_backoff s <= secs 30
    end); [|by apply Hgen; [apply new_sup_inv| |]].
  induction Hrand as [|t ts Ht Hts IH]; intros s Hs Hmin Hmax; simpl.
  { split; [done|]. destruct Hs. rewrite Hmin, Hmax in *. done. }
  destruct (turn s t) as [e|d s'] eqn:Hturn.
  - split; [done|]. apply turn_exit in Hturn. destruct e; by left.
  - destruct (turn_inv s t d s' Hs Hturn) as (Hs' & (Hmin' & Hmax' & _) & Hd).
    specialize (IH s' Hs' ltac:(congruence) ltac:(congruence)).
    destruct (run s' ts) as [ds r]. destruct IH as [IH1 IH2]. split.
    + constructor; [|done].
      destruct Hd as [->|(b & Hb & ->)]; [rewrite Hmin; unfold millis, secs; lia|].
      apply jitter_range; [by rewrite <- Hmin, <- Hmax|done].
    + destruct r as [[|msg]|s'']; simpl; [by right|by right|]. naive_solver.
Qed.

(** A shutdown-free turn whose run lasts from [start] to [stop] and ends in [o]. *)
Definition plain_turn (start stop : Instant) (o : Outcome) : Turn := {|
  cancelled_at_top := false; reset_time := start; run_started_at := start; outcome := o;
  cancelled_after_run := false; run_ended_at := stop; cancelled_after_clean := false;
  rand := 12345; cancelled_in_sleep := false |}.
Definition transient : Outcome := Returned (Err (WorkerError.Transient "connection reset")).
Definition sample_turns : list Turn :=
  [plain_turn 0 (secs 1) transient; plain_turn (secs 3) (secs 4) (JoinError true);
   plain_turn (secs 9) (secs 10) (Returned (Ok tt))].

Lemma supervisor_restarts_witness :
  snd (run (new "vault_state:pg") (sample_turns ++ [plain_turn (secs 12) (secs 13)
    (Returned (Err (WorkerError.Fatal "config")))])) = inl (FatalStop "config") /\
  let '(ds, r) := run (new "vault_state:pg") sample_turns in
  Forall (fun d => millis 500 <= d <= secs 45) ds /\
  match r with
  | inl ShutDown => Exists (fun t => ~ uncancelled t) sample_turns
  | inl (FatalStop msg) =>
      Exists (fun t => outcome t = Returned (Err (WorkerError.Fatal msg))) sample_turns
  | inr s => length ds = length sample_turns /\ is_u32 (restart_count s) /\
             secs 1 <= current_backoff s <= secs 30
  end.
Proof.
  split; [vm_compute; reflexivity|].
  apply (supervisor_restarts "vault_state:pg" sample_turns).
  repeat constructor; discriminate.
Defined.

(** Supervisor, backoff. In a row of failures that come before a run counts
    as healthy, the pause after the [k]-th failure (from 0) is the jitter of
    [min (2^k) 30] seconds: the delay doubles up to the ceiling and is never
    reset in between. *)
Theorem supervisor_backoff_doubles (name : string) (ts : list Turn)
  (Hts : Forall (quick_failure (new name)) ts) :
  exists s, run (new name) ts =
      (imap (fun k t => apply_jitter (Z.min (secs (2 ^ Z.of_nat k)) (secs 30)) (rand t)) ts, inr s) /\
    current_backoff s = Z.min (secs (2 ^ Z.of_nat (length ts))) (secs 30).
Proof.
  destruct (quick_failures_backoff (new name) ts 1) as (s & Hrun & Hc); [done|lia|done|done|done|].
  exists s. rewrite Hrun, Hc, Z.mul_1_l. split; [|done]. f_equal. apply imap_ext.
  intros. by rewrite Z.mul_1_l.
Qed.

Lemma supervisor_backoff_doubles_witness :
  exists s, run (new "price:surreal") [plain_turn 0 (secs 1) transient; plain_turn 2 3 (JoinError true)]
      = (imap (fun k t => apply_jitter (Z.min (secs (2 ^ Z.of_nat k)) (secs 30)) (rand t))
           [plain_turn 0 (secs 1) transient; plain_turn 2 3 (JoinError true)], inr s) /\
    current_backoff s = Z.min (secs (2 ^ 2)) (secs 30).
Proof.
  apply (supervisor_backoff_doubles "price:surreal"
           [plain_turn 0 (secs 1) transient; plain_turn 2 3 (JoinError true)]).
  repeat constructor.
Defined.

(** Supervisor, healthy reset. After a failed run the backoff returns to
    the minimum at the next start exactly when the run lasted at least
    [healthy_reset_after] and that start comes less than twice that after the
    run began. So a run that stayed up for twice the period or longer never
    resets the backoff: the worker resumes with the delay of its old failures. *)
Theorem healthy_reset_window (s : Supervisor) (start stop next : Instant)
  (Hfresh : last_healthy_at s = None) (Hpos : 0 < healthy_reset_after s)
  (Horder : start <= stop <= next) :
  let s' := maybe_reset_backoff (record_transient_failure s start stop) next in
  current_backoff s' =
    (if decide (healthy_reset_after s <= stop - start /\ next - start < 2 * healthy_reset_after s)
     then min_backoff s else current_backoff s) /\
  (2 * healthy_reset_after s <= stop - start -> current_backoff s' = current_backoff s).
Proof.
  cbv zeta. unfold maybe_reset_backoff, record_transient_failure, elapsed. cbv zeta. simpl.
  destruct (Z.leb_spec (healthy_reset_after s) (Z.max 0 (stop - start))); simpl; rewrite ?Hfresh;
    [destruct (Z.ltb_spec (Z.max 0 (next - start)) (healthy_reset_after s * 2)); simpl|];
    (split; [case_decide; try done; lia|lia || done]).
Qed.

Lemma healthy_reset_window_witness :
  let s := with_backoff (new "atom:surreal") (secs 16) in
  current_backoff (maybe_reset_backoff (record_transient_failure s 0 (secs 3600)) (secs 3616))
    = secs 16.
Proof.
  intros s. refine (proj2 (healthy_reset_window s 0 (secs 3600) (secs 3616) eq_refl _ _) _);
    vm_compute; first [reflexivity|split; discriminate|discriminate].
Defined.
