(* ===== verification/Watchdog.v ===== *)
(** * The watchdog

    [crates/projections/src/resilience/watchdog.rs]: heartbeats, and the tick
    that cancels the token of a worker that stopped beating. The heartbeat is an
    atomic shared between a worker and the watchdog, so an execution interleaves
    beats of the workers with ticks of the watchdog. *)

From S2P Require Import Prelude MachineInt CircuitBreaker.

Definition NEVER_BEATEN : Z := -1.

Record Heartbeat := {
  last_beat_ms : Z;
  reference : Instant
}.

Definition heartbeat_new (now : Instant) : Heartbeat :=
  {| last_beat_ms := NEVER_BEATEN; reference := now |}.

(** [self.reference.elapsed().as_millis() as i64] *)
Definition elapsed_ms (self : Heartbeat) (now : Instant) : Z :=
  elapsed (reference self) now / 1000000.

Definition do_beat (self : Heartbeat) (now : Instant) : Heartbeat :=
  {| last_beat_ms := elapsed_ms self now; reference := reference self |}.

Definition elapsed_since_last_beat (self : Heartbeat) (now : Instant) : option Duration :=
  let last_ms := last_beat_ms self in
  if last_ms =? NEVER_BEATEN then None
  else
    let now_ms := elapsed_ms self now in
    let elapsed_ms := Z.max (now_ms - last_ms) 0 in
    Some (elapsed_ms * 1000000).

(** The token is a flag here: cancelling is idempotent and never undone. *)
Record WatchedWorker := {
  ww_name : string;
  heartbeat : Heartbeat;
  cancel_token : bool
}.

Record Watchdog := {
  workers : list WatchedWorker;
  check_interval : Duration;
  stall_threshold : Duration
}.

Definition new (check_interval stall_threshold : Duration) : Watchdog :=
  {| workers := []; check_interval := check_interval; stall_threshold := stall_threshold |}.

Definition with_defaults : Watchdog := new (secs 10) (secs 120).

Definition register (self : Watchdog) (worker : WatchedWorker) : Watchdog :=
  {| workers := workers self ++ [worker]; check_interval := check_interval self;
     stall_threshold := stall_threshold self |}.

(** What a tick did to one worker. *)
Inductive verdict := Ignored | Cancelled | Recovered.

#[global] Instance verdict_eq_dec : EqDecision verdict.
Proof. solve_decision. Defined.

Definition cancel (w : WatchedWorker) : WatchedWorker :=
  {| ww_name := ww_name w; heartbeat := heartbeat w; cancel_token := true |}.

(** One iteration of the inner loop: worker [i] and its entry of [stalled]. *)
Definition inspect (threshold : Duration) (now : Instant) (entry : WatchedWorker * bool)
    : WatchedWorker * bool * verdict :=
  let '(worker, stalled) := entry in
  match elapsed_since_last_beat (heartbeat worker) now with
  | None => (worker, stalled, Ignored)
  | Some elapsed =>
      if (threshold <? elapsed) && negb stalled then (cancel worker, true, Cancelled)
      else if threshold <? elapsed then (worker, stalled, Ignored)
      else if stalled then (worker, false, Recovered)
      else (worker, stalled, Ignored)
  end.

(** The state of the running watchdog, and what the tasks do to it. *)
Abbreviation entries := (list (WatchedWorker * bool)).

Inductive event :=
  | WorkerBeat (i : nat) (now : Instant)
  | Tick (now : Instant).

Definition beat_entry (now : Instant) (entry : WatchedWorker * bool) : WatchedWorker * bool :=
  let '(w, s) := entry in
  ({| ww_name := ww_name w; heartbeat := do_beat (heartbeat w) now;
      cancel_token := cancel_token w |}, s).

Fixpoint run_events (threshold : Duration) (es : entries) (evs : list event)
    : entries * list (list verdict) :=
  match evs with
  | [] => (es, [])
  | WorkerBeat i now :: evs => run_events threshold (alter (beat_entry now) i es) evs
  | Tick now :: evs =>
      let out := map (inspect threshold now) es in
      let '(es', rows) := run_events threshold (map fst out) evs in
      (es', map snd out :: rows)
  end.

(** [Watchdog::run]: no worker is stalled at the start. *)
Definition run (self : Watchdog) (evs : list event) : entries * list (list verdict) :=
  run_events (stall_threshold self) (map (fun w => (w, false)) (workers self)) evs.

(** ** One worker at a time *)

Fixpoint run_one (threshold : Duration) (i : nat) (e : WatchedWorker * bool) (evs : list event)
    : (WatchedWorker * bool) * list verdict :=
  match evs with
  | [] => (e, [])
  | WorkerBeat j now :: evs =>
      run_one threshold i (if decide (i = j) then beat_entry now e else e) evs
  | Tick now :: evs =>
      let '(e', v) := inspect threshold now e in
      let '(e'', vs) := run_one threshold i e' evs in
      (e'', v :: vs)
  end.

(** Workers do not disturb each other. *)
Lemma run_events_lookup th es evs i e :
  es !! i = Some e ->
  fst (run_events th es evs) !! i = Some (fst (run_one th i e evs)) /\
  map (fun row => row !! i) (snd (run_events th es evs)) = map Some (snd (run_one th i e evs)).
Proof.
  revert es e. induction evs as [|[j t|t] evs IH]; intros es e He; cbn [run_events run_one]; [done| |].
  - apply IH. case_decide as Hij; [subst; by rewrite list_lookup_alter_eq, He|].
    by rewrite list_lookup_alter_ne.
  - destruct (inspect th t e) as [e' v] eqn:Hi.
    specialize (IH (map fst (map (inspect th t) es)) e').
    rewrite !list_lookup_fmap, He in IH. simpl in IH. rewrite Hi in IH. destruct (IH eq_refl) as [IH1 IH2].
    destruct (run_events _ _ evs), (run_one _ _ e' evs). simpl in *. split; [done|].
    rewrite IH2, !list_lookup_fmap, He. simpl. by rewrite Hi.
Qed.

(** Verdicts that change the stall flag alternate, starting from its value. *)
Fixpoint alternates (stalled : bool) (vs : list verdict) : Prop :=
  match vs with
  | [] => True
  | Ignored :: vs => alternates stalled vs
  | Cancelled :: vs => stalled = false /\ alternates true vs
  | Recovered :: vs => stalled = true /\ alternates false vs
  end.

Lemma inspect_flag th t w s w' s' v :
  inspect th t (w, s) = (w', s', v) ->
  heartbeat w' = heartbeat w /\
  match v with
  | Ignored => w' = w /\ s' = s
  | Cancelled => w' = cancel w /\ s = false /\ s' = true
  | Recovered => w' = w /\ s = true /\ s' = false
  end.
Proof.
  unfold inspect. destruct (elapsed_since_last_beat _ _) as [d|]; [|by intros [= <- <- <-]].
  destruct (th <? d), s; simpl; intros [= <- <- <-]; done.
Qed.

Lemma run_one_alternates th i w s evs : alternates s (snd (run_one th i (w, s) evs)).
Proof.
  revert w s. induction evs as [|[j t|t] evs IH]; intros w s; cbn [run_one]; [done| |].
  - case_decide; [apply IH|apply IH].
  - destruct (inspect th t (w, s)) as [[w' s'] v] eqn:Hi. apply inspect_flag in Hi as [_ Hi].
    specialize (IH w' s'). destruct (run_one th i (w', s') evs); simpl in *.
    destruct v; simpl in *; destruct_and?; subst; done.
Qed.

Lemma run_one_token th i w s evs :
  cancel_token (fst (fst (run_one th i (w, s) evs))) = true <->
  cancel_token w = true \/ Cancelled ∈ snd (run_one th i (w, s) evs).
Proof.
  revert w s. induction evs as [|[j t|t] evs IH]; intros w s; cbn [run_one].
  - split; [by left|intros [?|H]; [done|inversion H]].
  - case_decide; simpl; by rewrite IH.
  - destruct (inspect th t (w, s)) as [[w' s'] v] eqn:Hi. apply inspect_flag in Hi as [_ Hi].
    specialize (IH w' s'). destruct (run_one th i (w', s') evs); simpl in *.
    rewrite IH, elem_of_cons. destruct v; destruct Hi as [-> _]; simpl; intuition congruence.
Qed.

Lemma beat_elapsed hb b t :
  reference hb <= b -> b <= t ->
  exists d, elapsed_since_last_beat (do_beat hb b) t = Some (d * 1000000) /\
    t - b - 1000000 < d * 1000000 < t - b + 1000000 /\ 0 <= d.
Proof.
  intros Hb Ht. unfold elapsed_since_last_beat, do_beat, elapsed_ms, elapsed; simpl.
  rewrite (Z.max_r 0 (b - reference hb)), (Z.max_r 0 (t - reference hb)) by lia.
  pose proof (Z.div_pos (b - reference hb) 1000000 ltac:(lia) ltac:(lia)).
  destruct (Z.eqb_spec ((b - reference hb) / 1000000) NEVER_BEATEN) as [He|];
    [unfold NEVER_BEATEN in He; lia|].
  eexists. split; [done|]. pose proof (div_spec (b - reference hb) 1000000 ltac:(lia)).
  pose proof (div_spec (t - reference hb) 1000000 ltac:(lia)). lia.
Qed.

(** ** Properties *)

(** Watchdog, one cancel per stall. In any interleaving of beats and ticks
    the verdicts on a worker that change its stall flag alternate: the first is
    a cancel, and two cancels are always separated by a recovery. Its token ends
    up cancelled exactly when some tick cancelled it or it was cancelled before,
    and other workers' beats and stalls have no influence. *)
Theorem watchdog_cancels_once_per_stall (wd : Watchdog) (evs : list event) (i : nat)
  (w : WatchedWorker) (Hw : workers wd !! i = Some w) :
  exists vs w' s',
    map (fun row => row !! i) (snd (run wd evs)) = map Some vs /\
    fst (run wd evs) !! i = Some (w', s') /\
    alternates false vs /\ (cancel_token w' = true <-> cancel_token w = true \/ Cancelled ∈ vs).
Proof.
  unfold run. destruct (run_events_lookup (stall_threshold wd)
    (map (fun w => (w, false)) (workers wd)) evs i (w, false)) as [He Hv].
  { by rewrite list_lookup_fmap, Hw. }
  pose proof (run_one_alternates (stall_threshold wd) i w false evs).
  pose proof (run_one_token (stall_threshold wd) i w false evs).
  destruct (run_one (stall_threshold wd) i (w, false) evs) as [[w' s'] vs]. simpl in *.
  exists vs, w', s'. done.
Qed.

(** Watchdog, detection. With a threshold of whole milliseconds, a tick
    cancels a worker that is not already marked when its last beat is more than a
    millisecond past the threshold, and leaves it alone while the beat is within
    the threshold; a worker that never beat is always left alone. *)
Theorem watchdog_detects_stalls (k : Z) (w : WatchedWorker) (b t : Instant)
  (Hb : reference (heartbeat w) <= b) (Ht : b <= t)
  (beaten := {| ww_name := ww_name w; heartbeat := do_beat (heartbeat w) b;
                cancel_token := cancel_token w |}) :
  (k * 1000000 + 1000000 <= t - b ->
   inspect (k * 1000000) t (beaten, false) = (cancel beaten, true, Cancelled)) /\
  (t - b <= k * 1000000 -> inspect (k * 1000000) t (beaten, false) = (beaten, false, Ignored)) /\
  (last_beat_ms (heartbeat w) = NEVER_BEATEN -> forall s,
   inspect (k * 1000000) t (w, s) = (w, s, Ignored)).
Proof.
  destruct (beat_elapsed (heartbeat w) b t Hb Ht) as (d & Hd & Hbounds & Hpos).
  unfold inspect. split; [|split].
  - intros Hlate. simpl. rewrite Hd. destruct (Z.ltb_spec (k * 1000000) (d * 1000000)); [done|lia].
  - intros Hok. simpl. rewrite Hd. destruct (Z.ltb_spec (k * 1000000) (d * 1000000)); [lia|done].
  - intros Hn s. unfold elapsed_since_last_beat. by rewrite Hn.
Qed.

Definition sample_worker : WatchedWorker :=
  {| ww_name := "vault_state:pg"; heartbeat := heartbeat_new 0; cancel_token := false |}.

Lemma watchdog_cancels_once_per_stall_witness :
  snd (run (register with_defaults sample_worker)
         [Tick (secs 10); WorkerBeat 0 (secs 15); Tick (secs 200); Tick (secs 210);
          WorkerBeat 0 (secs 211); Tick (secs 220)])
    = [[Ignored]; [Cancelled]; [Ignored]; [Recovered]] /\
  exists vs w' s',
    map (fun row => row !! 0%nat) (snd (run (register with_defaults sample_worker) [Tick 5]))
      = map Some vs /\
    fst (run (register with_defaults sample_worker) [Tick 5]) !! 0%nat = Some (w', s') /\
    alternates false vs /\ (cancel_token w' = true <-> false = true \/ Cancelled ∈ vs).
Proof.
  split; [vm_compute; reflexivity|].
  exact (watchdog_cancels_once_per_stall (register with_defaults sample_worker) [Tick 5] 0
           sample_worker eq_refl).
Defined.

Lemma watchdog_detects_stalls_witness :
  let beaten := {| ww_name := "vault_state:pg"; heartbeat := do_beat (heartbeat_new 0) (secs 1);
                   cancel_token := false |} in
  inspect (120000 * 1000000) (secs 122) (beaten, false) = (cancel beaten, true, Cancelled).
Proof.
  intros beaten. refine (proj1 (watchdog_detects_stalls 120000 sample_worker (secs 1) (secs 122) _ _) _);
    vm_compute; discriminate.
Defined.
