(* ===== verification/ConnectionManager.v ===== *)
(** * Connection management

    [crates/projections/src/resilience/connection_manager.rs]: the pool
    partitioner's sizing, and the reconnecting SurrealDB handle as an
    interleaving of the tasks that share it. Each atomic access, to the flag or
    to the [RwLock], is one step of a task; the lock is the documented
    [tokio::sync::RwLock]: readers exclude writers, and [try_write] fails while
    anyone holds the lock. *)

From S2P Require Import Prelude MachineInt CircuitBreaker.

(** ** Pool partitioner *)

Module ConnectionTier.
Inductive ConnectionTier := Critical | Standard | Batch.
Definition permits (self : ConnectionTier) : Z :=
  match self with Critical => 4 | Standard => 2 | Batch => 2 end.
End ConnectionTier.
Abbreviation ConnectionTier := ConnectionTier.ConnectionTier.

Inductive ConnectionError :=
  | AcquireTimeout (projection : string) (timeout : Duration)
  | UnknownProjection (name : string).

Definition DEFAULT_BASE_PER_PROJECTION : Z := 3.
Definition DEFAULT_OVERHEAD : Z := 5.
Definition DEFAULT_ACQUIRE_TIMEOUT_SECS : Z := 5.

(** A semaphore by the permits it has left. *)
Record PoolPartitioner := {
  semaphores : gmap string Z;
  pool_size : Z;
  acquire_timeout : Duration
}.

(** [pool_env] and [timeout_env] are the parsed environment overrides. *)
Definition new (projections : list (string * ConnectionTier)) (pool_env timeout_env : option Z)
    (pool_override acquire_timeout_secs : option Z) : PoolPartitioner :=
  let pool_override := match pool_env with Some v => Some v | None => pool_override end in
  let acquire_timeout_secs :=
    match timeout_env with Some v => Some v | None => acquire_timeout_secs end in
  {| semaphores := foldl (fun m '(name, tier) => <[name := ConnectionTier.permits tier]> m) ∅
                     projections;
     pool_size := default
       ((DEFAULT_BASE_PER_PROJECTION * Z.of_nat (length projections) + DEFAULT_OVERHEAD)
          mod 2 ^ 32) pool_override;
     acquire_timeout := secs (default DEFAULT_ACQUIRE_TIMEOUT_SECS acquire_timeout_secs) |}.

Definition total_pool_size (self : PoolPartitioner) : Z := pool_size self.

Definition available_permits (self : PoolPartitioner) (name : string) : option Z :=
  semaphores self !! name.

Definition set_permits (self : PoolPartitioner) (name : string) (n : Z) : PoolPartitioner :=
  {| semaphores := <[name := n]> (semaphores self); pool_size := pool_size self;
     acquire_timeout := acquire_timeout self |}.

(** [acquire] when it is decided: at once if a permit is left, else by the
    timeout expiring. *)
Definition acquire (self : PoolPartitioner) (name : string)
    : result unit ConnectionError * PoolPartitioner :=
  match semaphores self !! name with
  | None => (Err (UnknownProjection name), self)
  | Some n =>
      if 0 <? n then (Ok tt, set_permits self name (n - 1))
      else (Err (AcquireTimeout name (acquire_timeout self)), self)
  end.

(** Dropping the [SemaphorePermit]. *)
Definition release (self : PoolPartitioner) (name : string) : PoolPartitioner :=
  match semaphores self !! name with
  | None => self
  | Some n => set_permits self name (n + 1)
  end.

(** ** ReconnectingSurreal *)

(** Connections are told apart by number. *)
Definition Conn : Type := nat.

(** Where a task stands. The first group is [get_connection], from the load of
    the flag to the guard it returns; the second is [mark_disconnected]. *)
Inductive pc :=
  | Idle
  | FastPath                       (* saw connected = true, waits for the read lock *)
  | SlowPath                       (* saw connected = false, waits for the write lock *)
  | WriteHeld                      (* holds the write lock, about to re-check the slot *)
  | Reconnecting                   (* holds the write lock, slot empty, connecting *)
  | WantRead                       (* released the write lock, waits for the read lock *)
  | Returned (guard : option Conn) (* holds the read lock, has returned Ok(guard) *)
  | Failed                         (* has returned Err *)
  | Marking.                       (* stored connected = false, about to try_write *)

#[global] Instance pc_eq_dec : EqDecision pc.
Proof. solve_decision. Defined.

Record Surreal := {
  slot : option Conn;
  connected : bool;
  tasks : list pc
}.

Definition reads (p : pc) : bool := match p with Returned _ => true | _ => false end.
Definition writes (p : pc) : bool :=
  match p with WriteHeld | Reconnecting => true | _ => false end.

Definition lock_free (s : Surreal) : bool := forallb (fun p => negb (reads p || writes p)) (tasks s).
Definition no_writer (s : Surreal) : bool := forallb (fun p => negb (writes p)) (tasks s).

(** The steps a task can take. *)
Inductive op :=
  | LoadFlag              (* get_connection starts: [self.connected.load] *)
  | LockRead              (* [self.connection.read().await] is granted *)
  | LockWrite             (* [self.connection.write().await] is granted *)
  | Recheck               (* [if guard.is_some()] under the write lock *)
  | Connected (c : Conn)  (* connect and health check succeed with a new connection *)
  | ConnectFailed         (* either of them fails or times out *)
  | DropGuard             (* the caller drops the guard, or moves on from an error *)
  | MarkFlag              (* mark_disconnected: [self.connected.store(false)] *)
  | TryWrite.             (* mark_disconnected: [self.connection.try_write()] *)

Definition goto (s : Surreal) (i : nat) (p : pc) : Surreal :=
  {| slot := slot s; connected := connected s; tasks := <[i := p]> (tasks s) |}.

Definition set_slot (s : Surreal) (v : option Conn) (flag : bool) : Surreal :=
  {| slot := v; connected := flag; tasks := tasks s |}.

(** One step of task [i]; [None] when the step is not enabled. *)
Definition step (s : Surreal) (i : nat) (o : op) : option Surreal :=
  match tasks s !! i, o with
  | Some Idle, LoadFlag => Some (goto s i (if connected s then FastPath else SlowPath))
  | Some FastPath, LockRead | Some WantRead, LockRead =>
      if no_writer s then Some (goto s i (Returned (slot s))) else None
  | Some SlowPath, LockWrite => if lock_free s then Some (goto s i WriteHeld) else None
  | Some WriteHeld, Recheck =>
      match slot s with
      | Some c => Some (goto (set_slot s (Some c) true) i WantRead)
      | None => Some (goto s i Reconnecting)
      end
  | Some Reconnecting, Connected c => Some (goto (set_slot s (Some c) true) i WantRead)
  | Some Reconnecting, ConnectFailed => Some (goto s i Failed)
  | Some (Returned _), DropGuard | Some Failed, DropGuard => Some (goto s i Idle)
  | Some Idle, MarkFlag => Some (goto (set_slot s (slot s) false) i Marking)
  | Some Marking, TryWrite =>
      if lock_free s then Some (goto (set_slot s None (connected s)) i Idle)
      else Some (goto s i Idle)
  | _, _ => None
  end.

(** [ReconnectingSurreal::new], shared by [n] tasks. *)
Definition start (c : Conn) (n : nat) : Surreal :=
  {| slot := Some c; connected := true; tasks := replicate n Idle |}.

Definition run (s : Surreal) (sched : list (nat * op)) : option Surreal :=
  foldl (fun acc '(i, o) => acc ≫= fun s => step s i o) (Some s) sched.

(** ** Locking discipline *)

(** A writer is alone with the lock; guards show the slot as it is; the slot is
    empty while a task reconnects. *)
Record lock_inv (s : Surreal) : Prop := {
  inv_exclusive i j p q :
    tasks s !! i = Some p -> tasks s !! j = Some q -> writes p = true ->
    reads q = true \/ writes q = true -> i = j;
  inv_guard i v : tasks s !! i = Some (Returned v) -> v = slot s;
  inv_empty i : tasks s !! i = Some Reconnecting -> slot s = None
}.

Lemma no_writer_spec s : no_writer s = true <-> forall i p, tasks s !! i = Some p -> writes p = false.
Proof.
  unfold no_writer. rewrite forallb_forall. split.
  - intros H i p Hi. apply negb_true_iff, H, list_elem_of_In. by eapply list_elem_of_lookup_2.
  - intros H p Hp. apply list_elem_of_In, list_elem_of_lookup in Hp as [i Hi].
    apply negb_true_iff. by eapply H.
Qed.

Lemma lock_free_spec s :
  lock_free s = true <-> forall i p, tasks s !! i = Some p -> reads p = false /\ writes p = false.
Proof.
  unfold lock_free. rewrite forallb_forall. split.
  - intros H i p Hi. apply orb_false_iff, negb_true_iff, H, list_elem_of_In.
    by eapply list_elem_of_lookup_2.
  - intros H p Hp. apply list_elem_of_In, list_elem_of_lookup in Hp as [i Hi].
    apply negb_true_iff, orb_false_iff. by eapply H.
Qed.

Lemma lookup_goto s i p j q :
  tasks (goto s i p) !! j = Some q ->
  (i = j /\ q = p) \/ (i <> j /\ tasks s !! j = Some q).
Proof.
  simpl. destruct (decide (i = j)) as [->|Hne].
  - intros Hq. left. split; [done|].
    assert (j < length (tasks s))%nat
      by (rewrite <- (length_insert (tasks s) j p); by eapply lookup_lt_Some).
    by rewrite list_lookup_insert_eq in Hq by done; simplify_eq.
  - rewrite list_lookup_insert_ne by done. by right.
Qed.

Lemma start_inv c n : lock_inv (start c n).
Proof.
  split; simpl; intros i; intros.
  all: repeat match goal with H : replicate _ _ !! _ = Some _ |- _ =>
         apply lookup_replicate_1 in H as [H _] end; simplify_eq/=.
Qed.

(** Moving one task to a state without a lock keeps the discipline. *)
Lemma goto_unlocked s i p :
  lock_inv s -> reads p = false -> writes p = false -> lock_inv (goto s i p).
Proof.
  intros [Hex Hg Hem] Hr Hw. split.
  - intros a b x y Ha Hb Hwx Hy.
    apply lookup_goto in Ha as [[-> ->]|[_ Ha]]; [congruence|].
    apply lookup_goto in Hb as [[-> ->]|[_ Hb]]; [destruct Hy; congruence|]. eauto.
  - intros a v Ha. apply lookup_goto in Ha as [[-> <-]|[_ Ha]]; [done|]. by eapply Hg.
  - intros a Ha. apply lookup_goto in Ha as [[-> <-]|[_ Ha]]; [done|]. by eapply Hem.
Qed.

Lemma goto_read s i :
  lock_inv s -> no_writer s = true -> lock_inv (goto s i (Returned (slot s))).
Proof.
  intros [Hex Hg Hem] Hnw. rewrite no_writer_spec in Hnw. split.
  - intros a b x y Ha Hb Hwx Hy.
    apply lookup_goto in Ha as [[-> ->]|[_ Ha]]; [done|]. rewrite (Hnw _ _ Ha) in Hwx. done.
  - intros a v Ha. apply lookup_goto in Ha as [[-> Hv]|[_ Ha]]; [by simplify_eq|]. by eapply Hg.
  - intros a Ha. apply lookup_goto in Ha as [[-> Hv]|[_ Ha]]; [done|]. by eapply Hem.
Qed.

(** The task that holds the write lock stays alone with it. *)
Lemma goto_write s i p q :
  lock_inv s -> tasks s !! i = Some p ->
  (writes p = true \/ lock_free s = true) -> reads q = false ->
  (q = Reconnecting -> slot s = None) -> lock_inv (goto s i q).
Proof.
  intros [Hex Hg Hem] Hi Hp Hq Hrec.
  assert (Hothers : forall j x, i <> j -> tasks s !! j = Some x -> reads x = false /\ writes x = false).
  { intros j x Hne Hj. destruct Hp as [Hp|Hf]; [|by eapply lock_free_spec].
    split; apply not_true_is_false; intros Hx; apply Hne; eapply (Hex i j p x); eauto. }
  split.
  - intros a b x y Ha Hb Hwx Hy.
    apply lookup_goto in Ha as [[-> ->]|[Hna Ha]], Hb as [[-> ->]|[Hnb Hb]];
      [done| | |by eapply Hex]; [edestruct (Hothers b y)|edestruct (Hothers a x)]; eauto;
      destruct Hy; congruence.
  - intros a v Ha. apply lookup_goto in Ha as [[-> Hv]|[_ Ha]]; [|by eapply Hg].
    by rewrite <- Hv in Hq.
  - intros a Ha. apply lookup_goto in Ha as [[-> Hv]|[_ Ha]]; [by apply Hrec|]. by eapply Hem.
Qed.

(** When the writer lets go of the lock, nobody holds it. *)
Lemma writer_alone s i p q :
  lock_inv s -> tasks s !! i = Some p -> writes p = true -> reads q = false -> writes q = false ->
  lock_free (goto s i q) = true.
Proof.
  intros [Hex _ _] Hi Hp Hr Hw. apply lock_free_spec. intros j x Hj.
  apply lookup_goto in Hj as [[-> ->]|[Hne Hj]]; [done|].
  split; apply not_true_is_false; intros Hx; apply Hne; eapply (Hex i j p x); eauto.
Qed.

(** A free lock lets the slot change. *)
Lemma set_slot_free s v f : lock_inv s -> lock_free s = true -> lock_inv (set_slot s v f).
Proof.
  intros [Hex _ _] Hf. rewrite lock_free_spec in Hf. split; [done| |]; simpl.
  - intros i v' Hi. by apply Hf in Hi as [? _].
  - intros i Hi. by apply Hf in Hi as [_ ?].
Qed.

Lemma set_flag s f : lock_inv s -> lock_inv (set_slot s (slot s) f).
Proof. by intros []. Qed.

Lemma goto_set_slot s v f i p : goto (set_slot s v f) i p = set_slot (goto s i p) v f.
Proof. done. Qed.

Lemma step_inv s i o s' : lock_inv s -> step s i o = Some s' -> lock_inv s'.
Proof.
  intros Hinv Hstep. unfold step in Hstep. destruct (tasks s !! i) as [p|] eqn:Hi; [|done].
  destruct p, o; try done.
  - injection Hstep as <-. apply goto_unlocked; by destruct (connected s).
  - injection Hstep as <-. apply goto_unlocked; [by apply set_flag|done..].
  - destruct (no_writer s) eqn:Hn; [|done]. injection Hstep as <-. by apply goto_read.
  - destruct (lock_free s) eqn:Hf; [|done]. injection Hstep as <-. by eapply goto_write; eauto.
  - destruct (slot s) as [c|] eqn:Hs; injection Hstep as <-.
    + apply goto_unlocked; [|done..]. rewrite <- Hs. by apply set_flag.
    + by eapply goto_write; eauto.
  - injection Hstep as <-. rewrite goto_set_slot. apply set_slot_free; [by apply goto_unlocked|].
    by eapply writer_alone.
  - injection Hstep as <-. by apply goto_unlocked.
  - destruct (no_writer s) eqn:Hn; [|done]. injection Hstep as <-. by apply goto_read.
  - injection Hstep as <-. by apply goto_unlocked.
  - injection Hstep as <-. by apply goto_unlocked.
  - destruct (lock_free s) eqn:Hf; injection Hstep as <-; (apply goto_unlocked; [|done..]);
      [by apply set_slot_free|done].
Qed.

Lemma run_ops_inv s sched s' : lock_inv s -> run s sched = Some s' -> lock_inv s'.
Proof.
  revert s'. induction sched as [|[i o] sched IH] using rev_ind; intros s' Hi; unfold run;
    [by intros [= <-]|].
  rewrite foldl_app. simpl. fold (run s sched). destruct (run s sched) as [s1|]; [|done].
  simpl. intros Hs. eapply step_inv; [|done]. by apply IH.
Qed.

(** ** Properties *)

(** Reconnection is exclusive. Share one handle between any number of tasks
    and run them in any order: at most one task reconnects at a time, no caller
    holds the connection meanwhile, the slot it will fill is empty, and every
    guard that a caller holds shows the current slot. *)
Theorem reconnect_is_exclusive (c : Conn) (n : nat) (sched : list (nat * op)) (s : Surreal)
  (i j : nat) (q : pc)
  (Hrun : run (start c n) sched = Some s)
  (Hi : tasks s !! i = Some Reconnecting) (Hj : tasks s !! j = Some q) :
  slot s = None /\ (q = Reconnecting -> i = j) /\ (forall v, q <> Returned v) /\
  (forall k v, tasks s !! k = Some (Returned v) -> v = slot s).
Proof.
  pose proof (run_ops_inv _ _ _ (start_inv c n) Hrun) as [Hex Hg Hem].
  split; [by eapply Hem|]. split; [|split; [|done]].
  - intros ->. by eapply (Hex i j); eauto.
  - intros v ->. assert (i = j) as <- by (eapply (Hex i j); eauto). congruence.
Qed.

Definition reconnect_schedule : list (nat * op) :=
  [(0, MarkFlag); (0, TryWrite); (0, LoadFlag); (1, LoadFlag); (0, LockWrite); (0, Recheck)]%nat.

Lemma reconnect_is_exclusive_witness :
  let s := {| slot := None; connected := false; tasks := [Reconnecting; SlowPath] |} in
  slot s = None /\ (SlowPath = Reconnecting -> 0%nat = 1%nat) /\ (forall v, SlowPath <> Returned v) /\
  (forall k v, tasks s !! k = Some (Returned v) -> v = slot s).
Proof.
  intros s. apply (reconnect_is_exclusive 0%nat 2 reconnect_schedule s 0 1 SlowPath);
    vm_compute; reflexivity.
Defined.

(** Get_connection may return an empty guard. The callers of
    [get_connection] rely on its guard being full. It is not always: a task that
    saw the flag up can be overtaken by another task's [mark_disconnected]
    before it gets the read lock, and then returns the emptied slot. *)
Theorem get_connection_may_return_none (c : Conn) :
  exists sched s, run (start c 2) sched = Some s /\ tasks s !! 0%nat = Some (Returned None).
Proof.
  exists [(0, LoadFlag); (1, MarkFlag); (1, TryWrite); (0, LockRead)]%nat.
  eexists. split; [vm_compute; reflexivity|reflexivity].
Qed.

(** A failed connection can survive. When another task holds a guard, the
    [try_write] of [mark_disconnected] fails although nobody is writing, and the
    slot keeps the failed connection. The next [get_connection] of the task that
    reported the failure finds the slot full, raises the flag again and hands
    out that same connection without reconnecting. *)
Theorem mark_disconnected_can_be_lost (c : Conn) :
  exists before after s1 s2,
    run (start c 2) before = Some s1 /\ tasks s1 !! 0%nat = Some Idle /\ connected s1 = false /\
    run s1 after = Some s2 /\ tasks s2 !! 0%nat = Some (Returned (Some c)) /\
    connected s2 = true /\
    Forall (fun '(i, o) => i = 0%nat -> o <> MarkFlag) after /\
    Forall (fun '(_, o) => forall c', o <> Connected c') (before ++ after).
Proof.
  exists [(1, LoadFlag); (1, LockRead); (0, MarkFlag); (0, TryWrite)]%nat.
  exists [(1, DropGuard); (0, LoadFlag); (0, LockWrite); (0, Recheck); (0, LockRead)]%nat.
  eexists _, _. do 6 (split; [vm_compute; reflexivity|]).
  split; repeat constructor; done.
Qed.
