(* ===== verification/EventSource.v ===== *)
(** * Reading events

    [crates/projections/src/event/]: the two implementations of the
    [EventSource] trait, over the monolithic [event_store] table and over the
    per-type tables with a [UNION ALL] of limited sub-queries. A table is the
    list of its rows; [ORDER BY sequence_number] is an insertion sort, which is
    the only order the query can return because sequence numbers are unique. *)

From stdpp Require Import pretty.
From S2P Require Import Prelude Events Errors.

Abbreviation seq := StoredEvent.sequence_number.

(** ** Sorting and limiting *)

Fixpoint insert_by_seq (e : StoredEvent) (l : list StoredEvent) : list StoredEvent :=
  match l with
  | [] => [e]
  | x :: l' => if seq e <=? seq x then e :: l else x :: insert_by_seq e l'
  end.

Definition order_by_seq (l : list StoredEvent) : list StoredEvent := foldr insert_by_seq [] l.

(** [ORDER BY sequence_number ASC LIMIT n] *)
Definition order_limit (n : Z) (l : list StoredEvent) : list StoredEvent :=
  take (Z.to_nat n) (order_by_seq l).

Definition seq_le (x y : StoredEvent) : Prop := seq x <= seq y.
Abbreviation sorted := (StronglySorted seq_le).
Abbreviation unique_seqs l := (NoDup (map (fun e => seq e) l)).

Lemma insert_perm e l : insert_by_seq e l ≡ₚ e :: l.
Proof.
  induction l as [|x l IH]; simpl; [done|]. case_match; [done|]. rewrite IH. apply Permutation_swap.
Qed.

Lemma order_perm l : order_by_seq l ≡ₚ l.
Proof. induction l as [|x l IH]; simpl; [done|]. by rewrite insert_perm, IH. Qed.

Lemma insert_sorted e l : sorted l -> sorted (insert_by_seq e l).
Proof.
  induction 1 as [|x l Hl IH Hx]; simpl; [repeat constructor|].
  destruct (Z.leb_spec (seq e) (seq x)).
  - constructor; [by constructor|]. constructor; [done|].
    eapply Forall_impl; [done|]. unfold seq_le. intros; lia.
  - constructor; [done|]. rewrite insert_perm. constructor; [unfold seq_le; lia|done].
Qed.

Lemma order_sorted l : sorted (order_by_seq l).
Proof. induction l; simpl; [constructor|by apply insert_sorted]. Qed.

(** Sorted lists with unique sequence numbers are determined by their elements. *)
Lemma sorted_unique l1 l2 :
  sorted l1 -> sorted l2 -> unique_seqs l1 -> l1 ≡ₚ l2 -> l1 = l2.
Proof.
  intros H1. revert l2. induction H1 as [|x l1 Hl1 IH Hx]; intros l2 H2 Hnd Hp.
  { by apply Permutation_nil in Hp. }
  destruct l2 as [|y l2]; [by apply Permutation_nil_r in Hp|].
  assert (x = y) as <-.
  { assert (Hy : y ∈ x :: l1) by (rewrite Hp; left).
    apply elem_of_cons in Hy as [<-|Hy]; [done|].
    assert (Hxin : x ∈ y :: l2) by (rewrite <- Hp; left).
    apply elem_of_cons in Hxin as [->|Hxin]; [done|].
    apply StronglySorted_inv in H2 as [_ H2].
    rewrite Forall_forall in Hx, H2. specialize (Hx y Hy). specialize (H2 x Hxin).
    simpl in Hnd. apply NoDup_cons in Hnd as [Hni _]. destruct Hni.
    apply list_elem_of_fmap. exists y. unfold seq_le in *. split; [lia|done]. }
  f_equal. apply NoDup_cons in Hnd as [_ Hnd]. apply StronglySorted_inv in H2 as [H2 _].
  apply IH; [done|done|]. by apply Permutation_cons_inv in Hp.
Qed.

Lemma order_perm_eq l1 l2 : unique_seqs l1 -> l1 ≡ₚ l2 -> order_by_seq l1 = order_by_seq l2.
Proof.
  intros Hnd Hp. apply sorted_unique; [apply order_sorted..| |].
  - by rewrite order_perm.
  - by rewrite !order_perm.
Qed.

(** An element above the first [n] does not change them. *)
Lemma take_insert n d l :
  sorted l -> (n <= length l)%nat -> Forall (fun x => seq x < seq d) (take n l) ->
  take n (insert_by_seq d l) = take n l.
Proof.
  intros Hl. revert n. induction Hl as [|x l Hl IH Hx]; intros n Hn Hlt.
  { by replace n with 0%nat by (simpl in Hn; lia). }
  destruct n as [|n]; [done|]. simpl in *. apply Forall_cons_1 in Hlt as [Hxd Hlt].
  destruct (Z.leb_spec (seq d) (seq x)); [lia|]. simpl. rewrite IH; [done|lia|done].
Qed.

Lemma sorted_prefix_below n d l :
  sorted l -> (n <= length (filter (fun x => (seq x < seq d)%Z) l))%nat ->
  Forall (fun x => seq x < seq d) (take n l).
Proof.
  intros Hl. revert n. induction Hl as [|x l Hl IH Hx]; intros n Hn.
  { by destruct n. }
  destruct n as [|n]; [constructor|]. rewrite filter_cons in Hn. case_decide as Hd.
  - simpl in *. constructor; [done|]. apply IH. lia.
  - rewrite filter_none in Hn; [simpl in Hn; lia|].
    eapply Forall_impl; [done|]. unfold seq_le. intros; lia.
Qed.

(** Adding rows above [n] others leaves the first [n] rows alone. *)
Lemma take_order_drop n p d l :
  length p = n -> Forall (fun x => seq x < seq d) p ->
  take n (order_by_seq (d :: p ++ l)) = take n (order_by_seq (p ++ l)).
Proof.
  intros <- Hp. simpl. apply take_insert; [apply order_sorted| |].
  - rewrite order_perm, length_app. lia.
  - apply sorted_prefix_below; [apply order_sorted|].
    rewrite order_perm, filter_app, length_app, filter_all by done. lia.
Qed.

Lemma take_order_app n p ds l :
  length p = n -> (forall x d, x ∈ p -> d ∈ ds -> seq x < seq d) ->
  unique_seqs (p ++ ds ++ l) ->
  take n (order_by_seq (p ++ ds ++ l)) = take n (order_by_seq (p ++ l)).
Proof.
  intros Hn Hlt. induction ds as [|d ds IH]; intros Hnd; [done|].
  assert (Hperm : p ++ (d :: ds) ++ l ≡ₚ d :: p ++ ds ++ l) by (simpl; solve_Permutation).
  rewrite (order_perm_eq _ _ Hnd Hperm).
  rewrite take_order_drop; [|done|].
  - apply IH; [intros; apply Hlt; [done|by right]|].
    rewrite Hperm in Hnd. by apply NoDup_cons in Hnd as [_ ?].
  - apply Forall_forall. intros x Hx. apply Hlt; [done|left].
Qed.

Lemma sorted_app_lt l1 l2 x y :
  sorted (l1 ++ l2) -> unique_seqs (l1 ++ l2) -> x ∈ l1 -> y ∈ l2 -> seq x < seq y.
Proof.
  induction l1 as [|z l1 IH]; simpl; intros Hs Hnd Hx Hy; [by apply not_elem_of_nil in Hx|].
  apply StronglySorted_inv in Hs as [Hs Hz]. apply NoDup_cons in Hnd as [Hni Hnd].
  apply elem_of_cons in Hx as [->|Hx]; [|by apply IH].
  rewrite Forall_forall in Hz. specialize (Hz y ltac:(apply elem_of_app; by right)).
  unfold seq_le in Hz. destruct (decide (seq z = seq y)) as [Heq|]; [|lia].
  destruct Hni. apply list_elem_of_fmap. exists y. split; [done|]. apply elem_of_app. by right.
Qed.

(** Limiting a sub-query before the outer sort changes nothing. *)
Lemma order_limit_pushdown n a b :
  unique_seqs (a ++ b) -> order_limit n (a ++ b) = order_limit n (order_limit n a ++ b).
Proof.
  intros Hnd. unfold order_limit. set (k := Z.to_nat n).
  assert (Ha : a ≡ₚ take k (order_by_seq a) ++ drop k (order_by_seq a))
    by by rewrite take_drop, order_perm.
  assert (Hperm : a ++ b ≡ₚ take k (order_by_seq a) ++ drop k (order_by_seq a) ++ b)
    by by rewrite Ha at 1; rewrite app_assoc.
  rewrite (order_perm_eq _ _ Hnd Hperm).
  destruct (decide (length (order_by_seq a) <= k)%nat) as [Hle|Hgt].
  { by rewrite drop_ge by done. }
  apply take_order_app; [rewrite length_take; lia| |by rewrite <- Hperm].
  intros x d Hx Hd. eapply sorted_app_lt; [| |exact Hx|exact Hd]; rewrite take_drop.
  - apply order_sorted.
  - rewrite order_perm. rewrite map_app in Hnd. by apply NoDup_app in Hnd as (? & _ & _).
Qed.

Lemma order_limit_submseteq n l : order_limit n l ⊆+ l.
Proof.
  unfold order_limit. rewrite <- (order_perm l) at 2.
  rewrite <- (take_drop (Z.to_nat n) (order_by_seq l)) at 2. by apply submseteq_inserts_r.
Qed.

Lemma unique_submseteq l1 l2 : l1 ⊆+ l2 -> unique_seqs l2 -> unique_seqs l1.
Proof.
  intros [k Hk]%submseteq_Permutation Hnd. rewrite Hk, map_app in Hnd.
  by apply NoDup_app in Hnd as (? & _ & _).
Qed.

Lemma order_limit_union n b ts :
  unique_seqs (b ++ concat ts) ->
  order_limit n (b ++ concat ts) = order_limit n (b ++ concat (map (order_limit n) ts)).
Proof.
  revert b. induction ts as [|t ts IH]; intros b Hnd; simpl; [done|].
  simpl in Hnd. assert (Hp1 : b ++ t ++ concat ts ≡ₚ t ++ b ++ concat ts) by solve_Permutation.
  assert (Hnd1 : unique_seqs (t ++ b ++ concat ts)) by by rewrite <- Hp1.
  transitivity (order_limit n (order_limit n t ++ b ++ concat ts)).
  { rewrite <- order_limit_pushdown by done. unfold order_limit. by rewrite (order_perm_eq _ _ Hnd Hp1). }
  assert (Hnd2 : unique_seqs (order_limit n t ++ b ++ concat ts)).
  { eapply unique_submseteq; [|exact Hnd1]. apply submseteq_skips_r, order_limit_submseteq. }
  assert (Hp2 : order_limit n t ++ b ++ concat ts ≡ₚ (b ++ order_limit n t) ++ concat ts)
    by (rewrite <- app_assoc; solve_Permutation).
  unfold order_limit at 1. rewrite (order_perm_eq _ _ Hnd2 Hp2). fold (order_limit n ((b ++ order_limit n t) ++ concat ts)).
  rewrite IH by by rewrite <- Hp2. by rewrite <- app_assoc.
Qed.

(** ** [EventReader] *)

(** The [WHERE] clause of the query. *)
Definition wanted (event_types : list string) (after_sequence : Z) (e : StoredEvent) : Prop :=
  StoredEvent.event_type e ∈ event_types /\ after_sequence < seq e /\
  StoredEvent.is_canonical e = true.

#[global] Instance wanted_dec types after e : Decision (wanted types after e).
Proof. unfold wanted. apply _. Defined.

Definition event_reader_read (event_store : list StoredEvent) (event_types : list string)
    (after_sequence batch_size : Z) : list StoredEvent :=
  order_limit batch_size (filter (wanted event_types after_sequence) event_store).

(** ** [TypedEventReader] *)

(** The envelope columns every typed table has, and its typed columns. *)
Record TypedRow (A : Type) := {
  row_sequence_number : Z;
  row_block_number : Z;
  row_block_timestamp : DateTime;
  row_block_hash : string;
  row_transaction_hash : string;
  row_log_index : Z;
  row_data : A
}.
Arguments row_sequence_number {A} _.
Arguments row_block_number {A} _.
Arguments row_block_timestamp {A} _.
Arguments row_block_hash {A} _.
Arguments row_transaction_hash {A} _.
Arguments row_log_index {A} _.
Arguments row_data {A} _.

Record TypedTables := {
  atom_created_events : list (TypedRow AtomCreatedRecord);
  atom_context_registered_events : list (TypedRow AtomContextRegisteredRecord);
  triple_created_events : list (TypedRow TripleCreatedRecord);
  deposited_events : list (TypedRow DepositedRecord);
  redeemed_events : list (TypedRow RedeemedRecord);
  share_price_changed_events : list (TypedRow SharePriceChangedRecord);
  protocol_fee_accrued_events : list (TypedRow ProtocolFeeAccruedRecord)
}.

(** The 12 columns a fragment selects. *)
Definition select_row {A} (ty : string) (event_data : A -> Value) (term_id entity_id : A -> option string)
    (r : TypedRow A) : StoredEvent := {|
  StoredEvent.sequence_number := row_sequence_number r;
  StoredEvent.block_number := row_block_number r;
  StoredEvent.block_timestamp := row_block_timestamp r;
  StoredEvent.block_hash := row_block_hash r;
  StoredEvent.transaction_hash := row_transaction_hash r;
  StoredEvent.log_index := row_log_index r;
  StoredEvent.event_type := ty;
  StoredEvent.event_data := event_data (row_data r);
  StoredEvent.term_id := term_id (row_data r);
  StoredEvent.entity_id := entity_id (row_data r);
  StoredEvent.is_canonical := true;
  StoredEvent.ingested_at := row_block_timestamp r
|}.

(** A [::TEXT] cast and a plain integer, as [jsonb_build_object] renders them. *)
Definition text (z : BigDecimal) : Value := VString (pretty z).
Definition int (z : Z) : Value := Number (pretty z).

(** The rows of one typed table as stored events, before the [WHERE]. *)
Definition fragment_rows (t : EventType.EventType) (db : TypedTables) : list StoredEvent :=
  match t with
  | EventType.AtomCreated =>
      map (select_row "AtomCreated" (fun d => Object [("creator", VString (ac_creator d));
             ("term_id", VString (ac_term_id d)); ("atom_data", VString (ac_atom_data d));
             ("atom_wallet", VString (ac_atom_wallet d))])
             (fun d => Some (ac_term_id d)) (fun _ => None)) (atom_created_events db)
  | EventType.AtomContextRegistered =>
      map (select_row "AtomContextRegistered" (fun d => Object [
             ("registrant", VString (acr_registrant d)); ("term_id", VString (acr_term_id d));
             ("uris", Array (map VString (acr_uris d)))])
             (fun d => Some (acr_term_id d)) (fun _ => None)) (atom_context_registered_events db)
  | EventType.TripleCreated =>
      map (select_row "TripleCreated" (fun d => Object [("creator", VString (tc_creator d));
             ("term_id", VString (tc_term_id d)); ("subject_id", VString (tc_subject_id d));
             ("predicate_id", VString (tc_predicate_id d)); ("object_id", VString (tc_object_id d))])
             (fun d => Some (tc_term_id d)) (fun _ => None)) (triple_created_events db)
  | EventType.Deposited =>
      map (select_row "Deposited" (fun d => Object [("sender", VString (dep_sender d));
             ("receiver", VString (dep_receiver d)); ("term_id", VString (dep_term_id d));
             ("curve_id", text (dep_curve_id d)); ("assets", text (dep_assets d));
             ("assets_after_fees", text (dep_assets_after_fees d)); ("shares", text (dep_shares d));
             ("total_shares", text (dep_total_shares d)); ("vault_type", int (dep_vault_type d))])
             (fun d => Some (dep_term_id d)) (fun d => Some (dep_receiver d))) (deposited_events db)
  | EventType.Redeemed =>
      map (select_row "Redeemed" (fun d => Object [("sender", VString (red_sender d));
             ("receiver", VString (red_receiver d)); ("term_id", VString (red_term_id d));
             ("curve_id", text (red_curve_id d)); ("shares", text (red_shares d));
             ("total_shares", text (red_total_shares d)); ("assets", text (red_assets d));
             ("fees", text (red_fees d)); ("vault_type", int (red_vault_type d))])
             (fun d => Some (red_term_id d)) (fun d => Some (red_receiver d))) (redeemed_events db)
  | EventType.SharePriceChanged =>
      map (select_row "SharePriceChanged" (fun d => Object [("term_id", VString (spc_term_id d));
             ("curve_id", text (spc_curve_id d)); ("share_price", text (spc_share_price d));
             ("total_assets", text (spc_total_assets d)); ("total_shares", text (spc_total_shares d));
             ("vault_type", int (spc_vault_type d))])
             (fun d => Some (spc_term_id d)) (fun _ => None)) (share_price_changed_events db)
  | EventType.ProtocolFeeAccrued =>
      map (select_row "ProtocolFeeAccrued" (fun d => Object [("epoch", text (pfa_epoch d));
             ("sender", VString (pfa_sender d)); ("amount", text (pfa_amount d))])
             (fun _ => None) (fun d => Some (pfa_sender d))) (protocol_fee_accrued_events db)
  end.

(** A fragment is the query [SELECT .. FROM table WHERE sequence_number > $1]. *)
Definition sql_fragment (event_type : string) : option (TypedTables -> Z -> list StoredEvent) :=
  match EventType.from_str event_type with
  | Ok t => Some (fun db after_sequence => filter (fun e => after_sequence < seq e) (fragment_rows t db))
  | Err _ => None
  end.

(** The rows [build_union_query] selects; without a fragment the text is not SQL. *)
Definition build_union_query (event_types : list string) (db : TypedTables)
    (after_sequence batch_size : Z) : result (list StoredEvent) ProjectionError :=
  let fragments := omap sql_fragment event_types in
  match fragments with
  | [] => Err (ProjectionError.Database "syntax error at or near ORDER")
  | [f] => Ok (order_limit batch_size (f db after_sequence))
  | _ => Ok (order_limit batch_size
               (concat (map (fun f => order_limit batch_size (f db after_sequence)) fragments)))
  end.

Definition typed_reader_read (db : TypedTables) (event_types : list string)
    (after_sequence batch_size : Z) : result (list StoredEvent) ProjectionError :=
  match event_types with
  | [] => Ok []
  | _ => build_union_query event_types db after_sequence batch_size
  end.

(** ** Equivalence of the readers *)

Definition all_types : list EventType.EventType :=
  [EventType.AtomCreated; EventType.AtomContextRegistered; EventType.TripleCreated;
   EventType.Deposited; EventType.Redeemed; EventType.SharePriceChanged;
   EventType.ProtocolFeeAccrued].

(** The [event_store] the typed tables are a decomposition of. *)
Definition event_store_of (db : TypedTables) : list StoredEvent :=
  concat (map (fun t => fragment_rows t db) all_types).

Lemma fragment_rows_type t db e :
  e ∈ fragment_rows t db ->
  StoredEvent.event_type e = EventType.as_str t /\ StoredEvent.is_canonical e = true.
Proof. destruct t; simpl; intros (? & -> & _)%list_elem_of_fmap; done. Qed.

Lemma sql_fragment_as_str t :
  sql_fragment (EventType.as_str t) =
    Some (fun db after => filter (fun e => after < seq e) (fragment_rows t db)).
Proof. unfold sql_fragment. by rewrite EventType.from_as_str. Qed.

Lemma omap_fragments ts :
  omap sql_fragment (map EventType.as_str ts) =
    map (fun t db after => filter (fun e => after < seq e) (fragment_rows t db)) ts.
Proof.
  induction ts as [|t ts IH]; [done|]. cbn [map omap list_omap].
  rewrite sql_fragment_as_str. f_equal. apply IH.
Qed.

Lemma as_str_inj t t' : EventType.as_str t = EventType.as_str t' -> t = t'.
Proof. destruct t, t'; done. Qed.

Lemma all_types_complete t : t ∈ all_types.
Proof. destruct t; unfold all_types; rewrite !elem_of_cons; tauto. Qed.

Lemma types_permutation ts : NoDup ts -> filter (fun t => t ∈ ts) all_types ≡ₚ ts.
Proof.
  intros Hnd. apply NoDup_Permutation; [apply NoDup_filter|done|].
  - refine (bool_decide_unpack _ _). vm_compute. done.
  - intros t. rewrite list_elem_of_filter. pose proof (all_types_complete t). tauto.
Qed.

Lemma filter_wanted_fragment ts after t db :
  filter (wanted (map EventType.as_str ts) after) (fragment_rows t db) =
    if decide (t ∈ ts) then filter (fun e => after < seq e) (fragment_rows t db) else [].
Proof.
  case_decide as Ht.
  - apply filter_ext_in. intros e [Hty Hc]%fragment_rows_type. unfold wanted. rewrite Hty, Hc.
    split; [tauto|]. intros ?. split; [|done]. by apply list_elem_of_fmap_2.
  - apply filter_none, Forall_forall. intros e [Hty _]%fragment_rows_type (Hin & _).
    rewrite Hty in Hin. apply list_elem_of_fmap in Hin as (t' & <-%as_str_inj & ?). done.
Qed.

Lemma concat_map_if {A} (ts : list EventType.EventType) (f : EventType.EventType -> list A) us :
  concat (map (fun t => if decide (t ∈ ts) then f t else []) us) =
  concat (map f (filter (fun t => t ∈ ts) us)).
Proof.
  induction us as [|u us IH]; [done|]. simpl. rewrite filter_cons, IH. by case_decide.
Qed.

Lemma concat_permutation {A} (l1 l2 : list (list A)) : l1 ≡ₚ l2 -> concat l1 ≡ₚ concat l2.
Proof.
  induction 1; simpl; [done|by f_equiv|by rewrite !app_assoc, (Permutation_app_comm x)|by etrans].
Qed.

(** The fragments of some types hold exactly the wanted rows of the store. *)
Lemma fragments_wanted ts after db :
  NoDup ts ->
  concat (map (fun t => filter (fun e => after < seq e) (fragment_rows t db)) ts) ≡ₚ
  filter (wanted (map EventType.as_str ts) after) (event_store_of db).
Proof.
  intros Hnd. unfold event_store_of. rewrite filter_concat, map_map.
  erewrite (map_ext _ _ (fun t => filter_wanted_fragment ts after t db)).
  rewrite (concat_map_if ts (fun t => filter (fun e => after < seq e) (fragment_rows t db))).
  apply concat_permutation, Permutation_map. by rewrite types_permutation.
Qed.

Lemma filter_unique (P : StoredEvent -> Prop) `{!forall x, Decision (P x)} l :
  unique_seqs l -> unique_seqs (filter P l).
Proof. intros Hnd. eapply unique_submseteq; [|exact Hnd]. by apply sublist_submseteq, sublist_filter. Qed.

(** ** What a batch contains *)

Section Batch.
Context (rows : list StoredEvent) (types : list string) (after n : Z).
Context (Hunique : unique_seqs rows).

Abbreviation batch := (event_reader_read rows types after n).

Lemma batch_rows e : e ∈ batch -> e ∈ rows /\ wanted types after e.
Proof.
  intros He. assert (Hin : e ∈ filter (wanted types after) rows).
  { eapply elem_of_submseteq; [exact He|apply order_limit_submseteq]. }
  apply list_elem_of_filter in Hin. tauto.
Qed.

Lemma batch_sorted : sorted batch.
Proof.
  unfold event_reader_read, order_limit.
  pose proof (order_sorted (filter (wanted types after) rows)) as Hs.
  rewrite <- (take_drop (Z.to_nat n)) in Hs. by apply StronglySorted_app in Hs as (_ & ? & _).
Qed.

Lemma batch_split : exists rest, batch ++ rest ≡ₚ filter (wanted types after) rows /\
  sorted (batch ++ rest) /\ unique_seqs (batch ++ rest) /\
  (rest = [] \/ Z.of_nat (length batch) = Z.max 0 n).
Proof.
  unfold event_reader_read, order_limit. set (l := order_by_seq _).
  exists (drop (Z.to_nat n) l). rewrite take_drop. split; [apply order_perm|].
  split; [apply order_sorted|]. split.
  - unfold l. rewrite order_perm. by apply filter_unique.
  - destruct (decide (length l <= Z.to_nat n)%nat); [left; by apply drop_ge|right].
    rewrite length_take. lia.
Qed.

(** No wanted row is skipped: every row up to the last one is in the batch. *)
Lemma batch_no_gap last e :
  list.last batch = Some last -> e ∈ rows -> wanted types after e -> seq e <= seq last -> e ∈ batch.
Proof.
  intros Hlast He Hw Hle. destruct batch_split as (rest & Hp & Hs & Hnd & _).
  assert (Hin : e ∈ batch ++ rest) by (rewrite Hp; by apply list_elem_of_filter).
  apply elem_of_app in Hin as [|Hin]; [done|].
  pose proof (sorted_app_lt _ _ last e Hs Hnd ltac:(by apply last_Some_elem_of) Hin). lia.
Qed.

Lemma batch_complete e :
  Z.of_nat (length batch) < n -> e ∈ rows -> wanted types after e -> e ∈ batch.
Proof.
  intros Hlen He Hw. destruct batch_split as (rest & Hp & _ & _ & [->|Hn]); [|lia].
  rewrite app_nil_r in Hp. rewrite Hp. by apply list_elem_of_filter.
Qed.

Lemma batch_last_max last e : list.last batch = Some last -> e ∈ batch -> seq e <= seq last.
Proof.
  intros Hl He. pose proof batch_sorted as Hs.
  apply last_Some in Hl as [init Hl]. rewrite Hl in *.
  apply elem_of_app in He as [He| ->%list_elem_of_singleton]; [|lia].
  destruct batch_split as (rest & _ & _ & Hnd & _). rewrite Hl in Hnd.
  rewrite map_app in Hnd. apply NoDup_app in Hnd as (Hnd & _ & _).
  pose proof (sorted_app_lt init [last] e last Hs Hnd He ltac:(by left)). lia.
Qed.
End Batch.

(** ** Properties *)

(** The readers agree. Reading any set of event types from the per-type
    tables, where each sub-query is sorted and limited on its own before the
    outer sort and limit, returns exactly the batch the monolithic query returns
    on the [event_store] those tables decompose: same events, same order. *)
Theorem typed_reader_equivalent (db : TypedTables) (ts : list EventType.EventType)
  (after_sequence batch_size : Z)
  (Hunique : unique_seqs (event_store_of db)) (Hts : NoDup ts) (Hne : ts <> []) :
  typed_reader_read db (map EventType.as_str ts) after_sequence batch_size =
  Ok (event_reader_read (event_store_of db) (map EventType.as_str ts) after_sequence batch_size).
Proof.
  set (frags := map (fun t => filter (fun e => after_sequence < seq e) (fragment_rows t db)) ts).
  pose proof (fragments_wanted ts after_sequence db Hts) as Hp. fold frags in Hp.
  assert (Hnd : unique_seqs (concat frags)) by (rewrite Hp; by apply filter_unique).
  assert (Hread : event_reader_read (event_store_of db) (map EventType.as_str ts) after_sequence batch_size
                  = order_limit batch_size (concat frags)).
  { unfold event_reader_read, order_limit. by rewrite (order_perm_eq _ _ Hnd Hp). }
  rewrite Hread. unfold typed_reader_read, build_union_query. rewrite omap_fragments, map_map.
  fold frags. destruct ts as [|t [|t' ts]]; [done| |].
  - simpl. unfold frags. simpl. by rewrite app_nil_r.
  - cbn [map]. f_equal. pose proof (order_limit_union batch_size [] frags Hnd) as Hu.
    cbn [app] in Hu. rewrite Hu. unfold frags. by rewrite map_map.
Qed.

(** Two typed tables whose rows interleave in the event log. *)
Definition typed_row {A} (s : Z) (d : A) : TypedRow A := {|
  row_sequence_number := s; row_block_number := 100 + s; row_block_timestamp := 0;
  row_block_hash := "0xblock"; row_transaction_hash := "0xtx"; row_log_index := 0; row_data := d |}.
Definition sample_deposit : DepositedRecord := {|
  dep_sender := "0xs"; dep_receiver := "0xr"; dep_term_id := "0x07"; dep_curve_id := 1;
  dep_assets := 1000; dep_assets_after_fees := 980; dep_shares := 950; dep_total_shares := 5000;
  dep_vault_type := 1 |}.
Definition sample_fee : ProtocolFeeAccruedRecord :=
  {| pfa_epoch := 42; pfa_sender := "0xs"; pfa_amount := 5 |}.
Definition sample_db : TypedTables := {|
  atom_created_events := []; atom_context_registered_events := []; triple_created_events := [];
  deposited_events := [typed_row 4 sample_deposit; typed_row 1 sample_deposit; typed_row 6 sample_deposit];
  redeemed_events := []; share_price_changed_events := [];
  protocol_fee_accrued_events := [typed_row 5 sample_fee; typed_row 2 sample_fee] |}.

Lemma typed_reader_equivalent_witness :
  let ts := [EventType.Deposited; EventType.ProtocolFeeAccrued] in
  map (fun e => seq e) (event_reader_read (event_store_of sample_db) (map EventType.as_str ts) 1 3)
    = [2; 4; 5] /\
  typed_reader_read sample_db (map EventType.as_str ts) 1 3 =
    Ok (event_reader_read (event_store_of sample_db) (map EventType.as_str ts) 1 3).
Proof.
  intros ts. split; [vm_compute; reflexivity|].
  apply typed_reader_equivalent; [| |discriminate];
    refine (bool_decide_unpack _ _); vm_compute; exact I.
Defined.
