(* ===== verification/Checkpoint.v ===== *)
(** * The checkpoint store

    [crates/projections/src/resilience/checkpoint.rs]: the
    [projection_checkpoints] table, keyed by [checkpoint_key], and its two
    statements. *)

From Stdlib Require Import Ascii.
From S2P Require Import Prelude Events.

Record CheckpointRow := {
  projection_name : string;
  sink_name : string;
  last_sequence_number : option SequenceNumber;
  last_block_number : BlockNumber
}.

(** The table: one row per [checkpoint_key]. *)
Abbreviation CheckpointTable := (gmap string CheckpointRow).

Definition selects (projection sink : string) (row : CheckpointRow) : Prop :=
  projection_name row = projection /\ sink_name row = sink.

#[global] Instance selects_dec projection sink row : Decision (selects projection sink row).
Proof. unfold selects. apply _. Defined.

(** [SELECT .. WHERE projection_name = $1 AND sink_name = $2], first row if any;
    a missing row or a NULL counts as 0. *)
Definition get_checkpoint (table : CheckpointTable) (projection sink : string) : SequenceNumber :=
  let row := head (filter (fun r => selects projection sink r) (map snd (map_to_list table))) in
  default 0 (row ≫= last_sequence_number).

Definition checkpoint_key (projection sink : string) : string := projection +:+ ":" +:+ sink.

(** [INSERT .. ON CONFLICT (checkpoint_key) DO UPDATE]: an existing row keeps
    its names. *)
Definition save_checkpoint (table : CheckpointTable) (projection sink : string)
    (sequence_number : SequenceNumber) (block_number : BlockNumber) : CheckpointTable :=
  let key := checkpoint_key projection sink in
  let row :=
    match table !! key with
    | None => {| projection_name := projection; sink_name := sink;
                 last_sequence_number := Some sequence_number; last_block_number := block_number |}
    | Some old => {| projection_name := projection_name old; sink_name := sink_name old;
                     last_sequence_number := Some sequence_number;
                     last_block_number := block_number |}
    end in
  <[key := row]> table.

(** ** Keys *)

(** A name the key can be split at: sinks are [pg], [surrealdb], [dual], .. *)
Fixpoint has_colon (s : string) : bool :=
  match s with
  | EmptyString => false
  | String c s => bool_decide (c = Ascii.ascii_of_nat 58) || has_colon s
  end.

Lemma has_colon_app s t : has_colon (s +:+ t) = has_colon s || has_colon t.
Proof.
  induction s as [|c s IH]; [done|]. rewrite append_cons. simpl. by rewrite IH, orb_assoc.
Qed.

(** The last colon splits a key, so different pairs have different keys. *)
Lemma checkpoint_key_inj p s p' s' :
  has_colon s = false -> has_colon s' = false ->
  checkpoint_key p s = checkpoint_key p' s' -> p = p' /\ s = s'.
Proof.
  unfold checkpoint_key. intros Hs Hs'. revert p'.
  induction p as [|c p IH]; intros [|c' p'] Heq;
    rewrite ?append_cons in Heq; rewrite ?append_nil in Heq; injection Heq as Heq.
  - done.
  - rename H into Hc. exfalso. subst s. rewrite !has_colon_app in Hs. simpl in Hs.
    by rewrite orb_true_r in Hs.
  - rename H into Hc. exfalso. subst s'. rewrite !has_colon_app in Hs'. simpl in Hs'.
    by rewrite orb_true_r in Hs'.
  - destruct (IH p' H) as [-> ->]. by subst.
Qed.

(** Every row sits under the key of its names, and sinks have no colon. *)
Definition table_ok (table : CheckpointTable) : Prop :=
  map_Forall (fun key row => key = checkpoint_key (projection_name row) (sink_name row) /\
                             has_colon (sink_name row) = false) table.

Lemma table_ok_empty : table_ok ∅.
Proof. apply map_Forall_empty. Qed.

Lemma save_ok table p s n b :
  table_ok table -> has_colon s = false -> table_ok (save_checkpoint table p s n b).
Proof.
  intros Ht Hs. unfold save_checkpoint. apply map_Forall_insert_2; [|done].
  destruct (table !! checkpoint_key p s) as [old|] eqn:Ho; [by apply Ht in Ho|done].
Qed.

(** At most one row answers the query, the one under the key. *)
Lemma get_checkpoint_lookup table p s :
  table_ok table -> has_colon s = false ->
  get_checkpoint table p s = default 0 (table !! checkpoint_key p s ≫= last_sequence_number).
Proof.
  intros Ht Hs. unfold get_checkpoint. f_equal.
  set (rows := filter _ _).
  assert (Hrows : forall r, r ∈ rows -> table !! checkpoint_key p s = Some r).
  { intros r [[Hp Hsr] Hin]%list_elem_of_filter.
    apply list_elem_of_fmap in Hin as ([k r'] & -> & Hin). apply elem_of_map_to_list in Hin.
    simpl in *. pose proof (Ht _ _ Hin) as [Hk _]. rewrite Hp, Hsr in Hk. by subst. }
  destruct rows as [|r rs] eqn:Hr.
  - destruct (table !! checkpoint_key p s) as [r|] eqn:Hl; [|done].
    exfalso. pose proof (Ht _ _ Hl) as [Hk Hc]. simpl in Hk.
    apply checkpoint_key_inj in Hk as [Hp Hsn]; [|done..].
    assert (Hin : r ∈ rows) by (apply list_elem_of_filter; split; [done|];
      apply list_elem_of_fmap; exists (checkpoint_key p s, r); split; [done|by apply elem_of_map_to_list]).
    rewrite Hr in Hin. by apply not_elem_of_nil in Hin.
  - by rewrite (Hrows r) by left.
Qed.

Lemma get_save table p s p' s' n b :
  table_ok table -> has_colon s = false -> has_colon s' = false ->
  get_checkpoint (save_checkpoint table p s n b) p' s' =
    if decide (p = p' /\ s = s') then n else get_checkpoint table p' s'.
Proof.
  intros Ht Hs Hs'.
  rewrite !get_checkpoint_lookup by (done || by apply save_ok). unfold save_checkpoint.
  case_decide as Heq.
  - destruct Heq as [<- <-]. rewrite lookup_insert_eq. by case_match.
  - rewrite lookup_insert_ne; [done|]. intros Hk. by apply checkpoint_key_inj in Hk.
Qed.

(** ** Properties *)

(** Checkpoints. In a table built by saves alone, saving a checkpoint makes
    the next read of the same projection and sink return it, whatever was there,
    and leaves every other pair's checkpoint as it was; a pair never saved reads
    as 0. Sink names must not contain a colon, which the composite key relies on;
    projection names may. *)
Theorem checkpoint_get_save (table : CheckpointTable) (p s p' s' : string) (n b : Z)
  (Ht : table_ok table) (Hs : has_colon s = false) (Hs' : has_colon s' = false) :
  get_checkpoint (save_checkpoint table p s n b) p' s' =
    (if decide (p = p' /\ s = s') then n else get_checkpoint table p' s') /\
  get_checkpoint ∅ p s = 0.
Proof.
  split; [by apply get_save|done].
Qed.

Lemma checkpoint_get_save_witness :
  get_checkpoint (save_checkpoint (save_checkpoint ∅ "vault_state:dual" "dual" 7 1) "vault_state" "pg" 42 9)
    "vault_state:dual" "dual" = 7.
Proof.
  refine (proj1 (checkpoint_get_save (save_checkpoint ∅ "vault_state:dual" "dual" 7 1)
            "vault_state" "pg" "vault_state:dual" "dual" 42 9 _ eq_refl eq_refl)).
  apply save_ok; [apply table_ok_empty|reflexivity].
Defined.
