(* ===== verification/WorkerWorld.v ===== *)
(** * What the workers share

    The world the four workers of [crates/projections/src/worker/] run in: the
    calls they make on the checkpoint store, the event source, the pool
    partitioner, the cancellation token and the metrics, over the breaker, clock
    and sleeps of [Retry]. [WorkerLaws] is what a worker relies on; [no_skip]
    is what all workers must keep. *)

From S2P Require Import Prelude Events Errors CircuitBreaker Retry EventSource.

Inductive worker_metric :=
  | RecordStatus (projection sink : string) (status : Z)
  | RecordError (projection sink : string)
  | RecordParseError (projection event_type : string)
  | RecordBatchProcessed (projection sink : string) (count : Z) (duration : Duration)
      (sequence : SequenceNumber)
  | RecordDeadLetter (projection event_type : string)
  | SetSemaphoreAvailable (projection : string) (available : Z).

(** The calls a worker makes. A permit is held from [acquire] to [release];
    an error of [acquire] is its message. *)
Class WorkerWorld (W : Type) := {
  worker_retry_world :: RetryWorld W;
  is_cancelled : W -> bool;
  sleep_or_cancel : Z -> W -> W;
  get_checkpoint : string -> string -> W -> result SequenceNumber ProjectionError * W;
  save_checkpoint : string -> string -> SequenceNumber -> BlockNumber -> W ->
    result unit ProjectionError * W;
  read_batch_multi : list string -> SequenceNumber -> Z -> W ->
    result (list StoredEvent) ProjectionError * W;
  acquire : string -> W -> result unit string * W;
  release : string -> W -> W;
  available_permits : string -> W -> option Z;
  record : worker_metric -> W -> W
}.

(** How one poll cycle ends: the loop goes on, or [retry_with_backoff] panicked. *)
Inductive cycle :=
  | Continue
  | Panicked.

(** [loop { if token.is_cancelled() { break } .. }]: [None] when the fuel is out
    before the loop ends, [Some (Ok ())] for the clean exit. *)
Inductive loop_end :=
  | Returned (r : result unit ProjectionError)
  | Panic
  | OutOfFuel.

Fixpoint poll_loop {W} `{WorkerWorld W} (body : W -> cycle * W) (fuel : nat) (w : W)
    : loop_end * W :=
  match fuel with
  | O => (OutOfFuel, w)
  | S fuel =>
      if is_cancelled w then (Returned (Ok tt), w)
      else
        let '(c, w) := body w in
        match c with
        | Continue => poll_loop body fuel w
        | Panicked => (Panic, w)
        end
  end.

(** How a turn of every event worker begins: look up the checkpoint, read the
    next batch from there, and go on with what was found. *)
Definition fetch_then {W B} `{WorkerWorld W} (name sink : string) (types : list string) (size : Z)
    (failed empty : W -> B) (on_batch : list StoredEvent -> W -> B) (w : W) : B :=
  let '(r, w) := get_checkpoint name sink w in
  match r with
  | Err _ => failed w
  | Ok checkpoint =>
      let '(r, w) := read_batch_multi types checkpoint size w in
      match r with
      | Err _ => failed w
      | Ok [] => empty w
      | Ok batch => on_batch batch w
      end
  end.

(** [crate::worker::pg::parse_batch_once], which [CoreEntitiesWorker] and
    [Worker] repeat: parse every event, falling back to [Unknown], and count the
    failures. *)
Fixpoint parse_batch_once {W} `{WorkerWorld W} `{EventCodecs} (name : string)
    (batch : list StoredEvent) (w : W) : list ParsedEvent * W :=
  match batch with
  | [] => ([], w)
  | event :: batch =>
      let '(p, maybe_err) := ParsedEvent.parse_or_unknown event in
      let w := match maybe_err with
               | Some _ => record (RecordParseError name (StoredEvent.event_type event)) w
               | None => w
               end in
      let '(parsed, w) := parse_batch_once name batch w in
      (p :: parsed, w)
  end.

Definition parsed_of `{EventCodecs} (e : StoredEvent) : ParsedEvent :=
  fst (ParsedEvent.parse_or_unknown e).

(** Never drops an event. *)
Lemma parse_batch_once_map {W} `{WorkerWorld W} `{EventCodecs} name batch w :
  fst (parse_batch_once name batch w) = map parsed_of batch.
Proof.
  revert w. induction batch as [|e batch IH]; intros w; [done|]. cbn [parse_batch_once map].
  unfold parsed_of at 1. destruct (ParsedEvent.parse_or_unknown e) as [p err]. simpl.
  specialize (IH (match err with
                  | Some _ => record (RecordParseError name (StoredEvent.event_type e)) w
                  | None => w end)).
  destruct (parse_batch_once _ _ _) as [ps w']. simpl in *. by rewrite IH.
Qed.

Lemma parse_batch_once_steps {W} `{WorkerWorld W} `{EventCodecs} (R : W -> W -> Prop) `{!PreOrder R}
  name batch w : (forall m w, R w (record m w)) -> R w (snd (parse_batch_once name batch w)).
Proof.
  intros HR. revert w. induction batch as [|e batch IH]; intros w; [done|].
  cbn [parse_batch_once]. destruct (ParsedEvent.parse_or_unknown e) as [p err].
  set (w1 := match err with Some _ => _ | None => _ end).
  assert (H1 : R w w1) by (unfold w1; destruct err; [apply HR|done]).
  specialize (IH w1). destruct (parse_batch_once name batch w1). by etransitivity.
Qed.

(** ** What the environment does *)

(** What can be seen of a world: the rows of the event log, the checkpoint row
    of the worker in question, and what has been written to the target database
    (events for a handler of events, operations for a sink), in order. *)
Record View (A : Type) := {
  rows : list StoredEvent;
  saved : SequenceNumber;
  applied : list A
}.
Arguments rows {A} _.
Arguments saved {A} _.
Arguments applied {A} _.

(** While a worker runs, other tasks may append rows with larger, positive
    sequence numbers. *)
Definition appended (old new : list StoredEvent) : Prop :=
  exists more, new = old ++ more /\ unique_seqs new /\
    (forall e, e ∈ more -> 0 < seq e) /\ (forall e d, e ∈ old -> d ∈ more -> seq e < seq d).

(** The target only gains writes. *)
Definition grows {A} (v v' : View A) : Prop :=
  (unique_seqs (rows v) -> appended (rows v) (rows v')) /\
  exists more, applied v' = applied v ++ more.

(** Nothing but the owner moves the checkpoint. *)
Definition quiet {A} (v v' : View A) : Prop := grows v v' /\ saved v' = saved v.

Lemma appended_refl l : unique_seqs l -> appended l l.
Proof.
  intros Hu. exists []. rewrite app_nil_r. split_and!; [done|done| |].
  - intros e He. by apply not_elem_of_nil in He.
  - intros e d _ Hd. by apply not_elem_of_nil in Hd.
Qed.

Lemma appended_trans l1 l2 l3 : appended l1 l2 -> appended l2 l3 -> appended l1 l3.
Proof.
  intros (m1 & E1 & U1 & P1 & L1) (m2 & E2 & U2 & P2 & L2).
  exists (m1 ++ m2). split; [by rewrite E2, E1, app_assoc|]. split; [done|].
  rewrite E1 in L2. split.
  - intros e [?|?]%elem_of_app; auto.
  - intros e d He [Hd|Hd]%elem_of_app; [auto|]. apply L2; [|done].
    apply elem_of_app. by left.
Qed.

#[global] Instance grows_preorder {A} : PreOrder (@grows A).
Proof.
  split.
  - intros v. split; [apply appended_refl|]. exists []. by rewrite app_nil_r.
  - intros v1 v2 v3 [Hr12 [m12 Ha12]] [Hr23 [m23 Ha23]]. split.
    + intros Hu. pose proof (Hr12 Hu) as H12. eapply appended_trans; [exact H12|].
      apply Hr23. by destruct H12 as (? & _ & ? & _).
    + exists (m12 ++ m23). by rewrite Ha23, Ha12, app_assoc.
Qed.

#[global] Instance quiet_preorder {A} : PreOrder (@quiet A).
Proof.
  split; [by intros v; split|].
  intros v1 v2 v3 [H12 E12] [H23 E23]. split; [by etransitivity|congruence].
Qed.

Lemma quiet_grows {A} (v v' : View A) : quiet v v' -> grows v v'.
Proof. by intros []. Qed.

Section Laws.
Context {W A : Type} `{WorkerWorld W}.
Context (view : W -> View A) (name sink : string).

(** Worlds a call may lead between, and what it keeps of the breaker. *)
Definition moves (w w' : W) : Prop :=
  quiet (view w) (view w') /\ (cb_inv (breaker w) -> cb_inv (breaker w')).
(** What a worker relies on. Reading the checkpoint returns the saved one;
    reading events runs the query on the rows of some moment of the call; saving
    the checkpoint stores it, and a failed save may or may not have stored it;
    everything else leaves the checkpoint alone. *)
Record WorkerLaws : Prop := {
  law_set cb w : breaker (set_breaker cb w) = cb /\ view (set_breaker cb w) = view w;
  law_rand w : moves w (snd (next_rand w)) /\ breaker (snd (next_rand w)) = breaker w /\
    0 <= fst (next_rand w);
  law_sleep d w : moves w (sleep d w);
  law_beat w : moves w (beat w) /\ breaker (beat w) = breaker w;
  law_emit m w : moves w (emit m w) /\ breaker (emit m w) = breaker w;
  law_sleep_or_cancel d w : moves w (sleep_or_cancel d w);
  law_acquire n w : moves w (snd (acquire n w));
  law_release n w : moves w (release n w);
  law_record m w : moves w (record m w);
  law_get w r w' : get_checkpoint name sink w = (r, w') ->
    moves w w' /\ (forall n, r = Ok n -> n = saved (view w'));
  law_read types after n w r w' : read_batch_multi types after n w = (r, w') ->
    moves w w' /\
    (forall batch, r = Ok batch -> exists mid, moves w mid /\ moves mid w' /\
      batch = event_reader_read (rows (view mid)) types after n);
  law_save s b w r w' : save_checkpoint name sink s b w = (r, w') ->
    grows (view w) (view w') /\ (cb_inv (breaker w) -> cb_inv (breaker w')) /\
    (saved (view w') = s \/ (saved (view w') = saved (view w) /\ r <> Ok tt))
}.

(** A call that writes [items]: when it returns [Ok] they are in the target. *)
Definition call_ok (call : W -> result unit ProjectionError * W) (items : list A) : Prop :=
  forall w r w', call w = (r, w') ->
    moves w w' /\ (r = Ok tt -> forall a, a ∈ items -> a ∈ applied (view w')).

(** The same of any property [Q] of what is in the target. *)
Definition call_settles (call : W -> result unit ProjectionError * W) (Q : list A -> Prop) : Prop :=
  forall w r w', call w = (r, w') -> moves w w' /\ (r = Ok tt -> Q (applied (view w'))).

#[global] Instance moves_preorder : PreOrder moves.
Proof.
  split; [by intros w; split|].
  intros w1 w2 w3 [? ?] [? ?]. split; [by etransitivity|tauto].
Qed.

Lemma set_breaker_moves cb w :
  WorkerLaws -> (cb_inv (breaker w) -> cb_inv cb) -> moves w (set_breaker cb w).
Proof.
  intros L Hcb. destruct (law_set L cb w) as [Hb Hv]. split; [by rewrite Hv|]. by rewrite Hb.
Qed.

Lemma laws_world_ok (operation : W -> result unit ProjectionError * W) :
  WorkerLaws -> (forall w, cb_inv (breaker w) -> cb_inv (breaker (snd (operation w)))) ->
  world_ok operation.
Proof.
  intros L Hop. split.
  - intros. apply (law_set L).
  - intros. by destruct (law_rand L w) as (_ & ? & ?).
  - intros. apply (law_beat L).
  - intros. apply (law_emit L).
  - intros d w. apply (law_sleep L).
  - done.
Qed.

Lemma moves_applied (Q : list A -> Prop) w w' : (forall l more, Q l -> Q (l ++ more)) ->
  moves w w' -> Q (applied (view w)) -> Q (applied (view w')).
Proof. intros HQ [[[_ [more ->]] _] _]. apply HQ. Qed.

(** Retrying a call that establishes [Q] is a call that establishes [Q]. *)
Lemma retry_keeps msg policy ctx operation Q w :
  (forall l more, Q l -> Q (l ++ more)) ->
  WorkerLaws -> policy_ok policy -> call_settles operation Q -> cb_inv (breaker w) ->
  exists r w' log, retry_with_backoff msg policy ctx operation w = (Some r, w', log) /\
    moves w w' /\ (r = Ok tt -> Q (applied (view w'))).
Proof.
  intros HQ L Hp Hop Hi.
  assert (Hsnd : forall w, moves w (snd (operation w)))
    by (intros w1; exact (proj1 (Hop w1 _ _ (surjective_pairing _)))).
  assert (Hok : world_ok operation)
    by (apply laws_world_ok; [done|]; intros w1; exact (proj2 (Hsnd w1))).
  destruct (retry_with_backoff_schedule msg policy ctx operation w Hp Hok Hi)
    as (r & w' & log & E & _ & _).
  exists r, w', log. split; [done|].
  assert (Hs : steps_in operation moves).
  { split; intros; [apply set_breaker_moves; done|..|apply Hsnd];
      [apply (law_rand L)|apply (law_sleep L)|apply (law_beat L)|apply (law_emit L)]. }
  pose proof (retry_with_backoff_reaches msg policy ctx operation moves w Hs) as Hr.
  rewrite E in Hr. destruct Hr as [Hw Hlast]. split; [done|]. intros ->.
  destruct (Hlast eq_refl) as (w1 & w2 & _ & Hcall & Hw2).
  apply (moves_applied Q _ _ HQ Hw2). by apply (Hop _ _ _ Hcall).
Qed.

(** Retrying a call that writes [items] is a call that writes [items]. *)
Lemma retry_moves msg policy ctx operation items w :
  WorkerLaws -> policy_ok policy -> call_ok operation items -> cb_inv (breaker w) ->
  exists r w' log, retry_with_backoff msg policy ctx operation w = (Some r, w', log) /\
    moves w w' /\ (r = Ok tt -> forall a, a ∈ items -> a ∈ applied (view w')).
Proof.
  intros L Hp Hop Hi. apply (retry_keeps _ _ _ _ (fun l => forall a, a ∈ items -> a ∈ l)); [|done..].
  intros l more Hl a Ha. apply elem_of_app. left. by apply Hl.
Qed.
End Laws.
Arguments law_set {W A _ view name sink}.
Arguments law_rand {W A _ view name sink}.
Arguments law_sleep {W A _ view name sink}.
Arguments law_beat {W A _ view name sink}.
Arguments law_emit {W A _ view name sink}.
Arguments law_sleep_or_cancel {W A _ view name sink}.
Arguments law_acquire {W A _ view name sink}.
Arguments law_release {W A _ view name sink}.
Arguments law_record {W A _ view name sink}.
Arguments law_get {W A _ view name sink}.
Arguments law_read {W A _ view name sink}.
Arguments law_save {W A _ view name sink}.

(** [settled e items]: what event [e] asks for is among [items]. *)
Section NoSkip.
Context {A : Type} (settled : StoredEvent -> list A -> Prop).
Context (settled_app : forall e l more, settled e l -> settled e (l ++ more)).

(** Sequence numbers are unique, the checkpoint is one of them (or 0), and every
    canonical row of [types] up to the checkpoint is settled. *)
Definition no_skip (types : list string) (v : View A) : Prop :=
  unique_seqs (rows v) /\
  (saved v = 0 \/ exists e, e ∈ rows v /\ seq e = saved v) /\
  (forall e, e ∈ rows v -> wanted types 0 e -> seq e <= saved v -> settled e (applied v)).

Lemma no_skip_quiet types v v' : no_skip types v -> quiet v v' -> no_skip types v'.
Proof.
  intros (Hu & Hs & Ha) [[Hr [more Happ]] Hsv].
  destruct (Hr Hu) as (new & Hrows & Hu' & Hpos & Hlt). split; [done|].
  rewrite Hsv, Hrows, Happ. split.
  - destruct Hs as [?|(e & ? & ?)]; [by left|right]. exists e. split; [|done].
    apply elem_of_app. by left.
  - intros e [He|He]%elem_of_app Hw Hle; [by apply settled_app, Ha|].
    exfalso. pose proof (Hpos e He). destruct Hs as [?|(d & Hd & ?)]; [lia|].
    pose proof (Hlt d e Hd He). lia.
Qed.

(** Saving the last sequence number of a settled batch keeps [no_skip]; the
    batch was read at [v0] from the checkpoint on. *)
Lemma no_skip_save types n v0 v1 v2 (b : list StoredEvent) last :
  no_skip types v0 -> b = event_reader_read (rows v0) types (saved v0) n ->
  grows v0 v1 -> (forall e, e ∈ b -> settled e (applied v1)) ->
  list.last b = Some last -> grows v1 v2 -> saved v2 = seq last -> no_skip types v2.
Proof.
  intros (Hu & Hs & Ha) Hb G01 Hin Hl G12 Hsv.
  assert (G02 : grows v0 v2) by by etransitivity.
  destruct G02 as [Hr [more Happ]]. destruct (Hr Hu) as (new & Hrows & Hu' & Hpos & Hlt).
  assert (Hlast : last ∈ rows v0).
  { subst b. eapply batch_rows. by apply last_Some_elem_of. }
  split; [done|]. rewrite Hsv. split.
  { right. exists last. split; [|done]. rewrite Hrows. apply elem_of_app. by left. }
  intros e He Hw Hle. rewrite Hrows in He. apply elem_of_app in He as [He|He].
  - destruct (Z.le_gt_cases (seq e) (saved v0)) as [Hle0|Hgt].
    + rewrite Happ. by apply settled_app, Ha.
    + destruct G12 as [_ [more' ->]]. apply settled_app, Hin. subst b.
      eapply batch_no_gap; [exact Hu|exact Hl|exact He| |exact Hle].
      destruct Hw as (? & ? & ?). unfold wanted. split; [done|]. split; [lia|done].
  - pose proof (Hlt last e Hlast He). lia.
Qed.
End NoSkip.

(** The last row of a batch is past the checkpoint it was read from. *)
Lemma batch_last_past rows types after n last :
  list.last (event_reader_read rows types after n) = Some last -> after < seq last.
Proof.
  intros Hl. apply last_Some_elem_of in Hl. apply batch_rows in Hl as (_ & _ & Hgt & _). done.
Qed.

(** ** Turns of a poll loop *)

Section Turns.
Context {W A : Type} `{WorkerWorld W} (view : W -> View A).
Context (settled : StoredEvent -> list A -> Prop).
Context (settled_app : forall e l more, settled e l -> settled e (l ++ more)).
Context (types : list string) (size : Z).

Abbreviation mv := (moves view).

(** A turn either leaves the checkpoint where it was, or moves it to the end of
    a batch read from there whose events are all settled. *)
Definition turn_spec (w w' : W) : Prop :=
  mv w w' \/
  exists w0 w1 b last,
    mv w w0 /\ b = event_reader_read (rows (view w0)) types (saved (view w0)) size /\
    list.last b = Some last /\ mv w0 w1 /\ (forall e, e ∈ b -> settled e (applied (view w1))) /\
    grows (view w1) (view w') /\ (cb_inv (breaker w1) -> cb_inv (breaker w')) /\
    saved (view w') = seq last.

Lemma turn_spec_after w w1 w2 : turn_spec w w1 -> mv w1 w2 -> turn_spec w w2.
Proof.
  intros [M1|(u0 & u1 & b & last & ? & ? & ? & ? & ? & ? & ? & Hs)] M2.
  - left. by etransitivity.
  - right. destruct M2 as [[Hg2 Hs2] Hb2]. exists u0, u1, b, last. split_and!; try done.
    + by etransitivity.
    + tauto.
    + by rewrite Hs2.
Qed.

(** The batch in hand at [w'] was read at a moment since [w], from the checkpoint
    on; [last] is its last row. *)
Definition batch_in_hand (w w' : W) (b : list StoredEvent) (last : StoredEvent) : Prop :=
  exists mid, mv w mid /\ mv mid w' /\
    b = event_reader_read (rows (view mid)) types (saved (view mid)) size /\ list.last b = Some last.

Lemma batch_in_hand_moves w w' b last : batch_in_hand w w' b last -> mv w w'.
Proof. intros (mid & ? & ? & _). by transitivity mid. Qed.

(** What a turn establishes follows from what its three ends do. [R] holds
    between the worlds of the two calls. *)
Lemma fetch_spec {B} (R : W -> W -> Prop) `{!PreOrder R} (P : B -> Prop) name sink failed empty on_batch w :
  WorkerLaws view name sink ->
  (forall u, R u (snd (get_checkpoint name sink u))) ->
  (forall n u, R u (snd (read_batch_multi types n size u))) ->
  (forall u, R w u -> mv w u -> P (failed u)) -> (forall u, R w u -> mv w u -> P (empty u)) ->
  (forall b last u, R w u -> batch_in_hand w u b last -> P (on_batch b u)) ->
  P (fetch_then name sink types size failed empty on_batch w).
Proof.
  intros L Rget Rread Hfailed Hempty Hbatch. unfold fetch_then.
  pose proof (Rget w) as R0. destruct (get_checkpoint name sink w) as [r w0] eqn:Hget.
  destruct (law_get L _ _ _ Hget) as [M0 Hr].
  destruct r as [n|e]; [|by apply Hfailed]. specialize (Hr n eq_refl).
  pose proof (Rread n w0) as R1. destruct (read_batch_multi types n size w0) as [r w1] eqn:Hread.
  destruct (law_read L _ _ _ _ _ _ Hread) as [M1 Hb]. cbn [snd] in R0, R1.
  assert (R01 : R w w1) by (by transitivity w0). assert (M01 : mv w w1) by (by transitivity w0).
  destruct r as [b|e]; [|by apply Hfailed]. destruct (Hb b eq_refl) as (mid & Mm & Mm1 & Eb).
  destruct b as [|e0 b0]; [by apply Hempty|].
  destruct (list.last (e0 :: b0)) as [last|] eqn:Hlast; [|by apply last_None in Hlast].
  apply (Hbatch _ last); [done|]. exists mid. split; [by transitivity w0|]. split; [done|].
  by rewrite (proj2 (proj1 Mm)), <- Hr.
Qed.

Lemma fetch_moves {B} (P : B -> Prop) name sink failed empty on_batch w :
  WorkerLaws view name sink ->
  (forall u, mv w u -> P (failed u)) -> (forall u, mv w u -> P (empty u)) ->
  (forall b last u, batch_in_hand w u b last -> P (on_batch b u)) ->
  P (fetch_then name sink types size failed empty on_batch w).
Proof.
  intros L Hf He Hb. apply (fetch_spec mv); eauto.
  - intros u. by destruct (law_get L u _ _ (surjective_pairing _)).
  - intros n u. by destruct (law_read L _ _ _ _ _ _ (surjective_pairing (read_batch_multi types n size u))).
Qed.

(** A turn that settled its batch and then tried to save its end. *)
Lemma turn_saved w w1 w2 b last :
  batch_in_hand w w1 b last -> (forall e, e ∈ b -> settled e (applied (view w1))) ->
  grows (view w1) (view w2) -> (cb_inv (breaker w1) -> cb_inv (breaker w2)) ->
  (saved (view w2) = seq last \/ saved (view w2) = saved (view w1)) -> turn_spec w w2.
Proof.
  intros Hb Hw Hg Hbr [Hs|Hs].
  - destruct Hb as (mid & M0 & M1 & Eb & Hl). right. by exists mid, w1, b, last.
  - left. transitivity w1; [by eapply batch_in_hand_moves|]. by split.
Qed.

Lemma batch_in_hand_after w w1 w2 b last :
  batch_in_hand w w1 b last -> mv w1 w2 -> batch_in_hand w w2 b last.
Proof. intros (mid & ? & ? & ?) M. exists mid. split; [done|]. split; [by transitivity w1|done]. Qed.

Lemma turn_keeps_breaker w w' : turn_spec w w' -> cb_inv (breaker w) -> cb_inv (breaker w').
Proof.
  intros [[_ Hb]|(w0 & w1 & b & last & [_ B0] & _ & _ & [_ B1] & _ & _ & B & _)]; auto.
Qed.

Lemma turn_no_skip w w' :
  no_skip settled types (view w) -> turn_spec w w' ->
  no_skip settled types (view w') /\ saved (view w) <= saved (view w').
Proof.
  intros Hn [[Hq _]|(w0 & w1 & b & last & [M0 _] & Eb & Hl & [M1 _] & Hw & G & _ & Hs)].
  - split; [by eapply no_skip_quiet|]. destruct Hq as [_ ->]. lia.
  - assert (N0 : no_skip settled types (view w0)) by (by eapply no_skip_quiet). split.
    + eapply no_skip_save; [exact settled_app|exact N0|exact Eb| |exact Hw|exact Hl|exact G|exact Hs].
      by destruct M1.
    + subst b. apply batch_last_past in Hl. destruct M0 as [_ <-]. lia.
Qed.

Lemma turn_grows w w' : turn_spec w w' -> grows (view w) (view w').
Proof.
  intros [[[Hg _] _]|(w0 & w1 & b & last & M0 & _ & _ & M1 & _ & G & _)]; [done|].
  transitivity (view w0); [apply M0|]. transitivity (view w1); [apply M1|done].
Qed.

(** A loop body that takes such turns from [inv] worlds to [inv] worlds. *)
Definition body_ok (inv : W -> Prop) (body : W -> cycle * W) : Prop :=
  forall w, inv w ->
    fst (body w) = Continue /\ turn_spec w (snd (body w)) /\ inv (snd (body w)).

Definition worker_inv (inv : W -> Prop) (w : W) : Prop := no_skip settled types (view w) /\ inv w.

Lemma loop_inv inv (body : W -> cycle * W) fuel w :
  body_ok inv body -> worker_inv inv w -> let '(r, w') := poll_loop body fuel w in
    r <> Panic /\ worker_inv inv w' /\ saved (view w) <= saved (view w') /\ grows (view w) (view w').
Proof.
  intros Hbody. revert w. induction fuel as [|fuel IH]; intros w [Hn Hi]; cbn [poll_loop]; [done|].
  destruct (is_cancelled w); [done|]. destruct (Hbody w Hi) as (Hc & Ht & Hi1).
  destruct (body w) as [c w1]. simpl in *. subst c.
  destruct (turn_no_skip _ _ Hn Ht) as [Hn1 Hle]. specialize (IH w1 (conj Hn1 Hi1)).
  destruct (poll_loop body fuel w1) as [r w2]. destruct IH as (? & ? & ? & ?).
  split_and!; [done|done|lia|]. transitivity (view w1); [by apply turn_grows|done].
Qed.

(** The same for a loop entered after a status metric. *)
Lemma run_loop_inv inv (body : W -> cycle * W) name sink m fuel w :
  WorkerLaws view name sink -> body_ok inv body -> (inv w -> inv (record m w)) ->
  worker_inv inv w -> let '(r, w') := poll_loop body fuel (record m w) in
    r <> Panic /\ worker_inv inv w' /\ saved (view w) <= saved (view w') /\ grows (view w) (view w').
Proof.
  intros L Hbody Hm [Hn Hi]. pose proof (law_record L m w) as [Hq _].
  pose proof (loop_inv inv body fuel (record m w) Hbody
    (conj (no_skip_quiet _ settled_app _ _ _ Hn Hq) (Hm Hi))) as Hl.
  destruct (poll_loop body fuel _) as [r w']. destruct Hq as [Hg Hs]. rewrite Hs in Hl.
  destruct Hl as (? & ? & ? & ?). split_and!; [done..|]. by etransitivity.
Qed.
End Turns.

(** What the workers with one breaker keep of it. *)
Abbreviation breaker_ok := (fun w => cb_inv (breaker w)).
