(* ===== verification/Traits.v ===== *)
(** * Projections and sinks

    [crates/projections/src/sink/mod.rs] and
    [crates/projections/src/projection/traits.rs]: the operations a Surreal
    projection emits, the sink that applies them, and the three projection
    traits, each a record of its required methods with its default ones as
    definitions. The world [W] carries the databases. *)

From S2P Require Import Prelude Events Errors WorkerWorld.

Module RecordId.
Record RecordId := { table : string; id : string }.

Definition new (table id : string) : RecordId := {| table := table; id := id |}.
Definition to_string (self : RecordId) : string := table self +:+ ":" +:+ id self.
End RecordId.
Abbreviation RecordId := RecordId.RecordId.

(** [HashMap<String, Value>]; its iteration order is whatever [map_to_list] gives. *)
Abbreviation Fields := (gmap string Value).

Module SinkOperation.
Inductive SinkOperation :=
  | UpsertNode (id : RecordId) (fields : Fields)
  | UpsertEdge (from : RecordId) (edge_table : string) (to : RecordId)
      (id_suffix : option string) (fields : Fields)
  | IncrementFields (id : RecordId) (increments : Fields)
  | ReconcileTripleDraft (id : RecordId) (subject predicate object : string) (fields : Fields).
End SinkOperation.
Abbreviation SinkOperation := SinkOperation.SinkOperation.

Record ProjectionSink (W : Type) := {
  sink_name : string;
  apply_batch : list SinkOperation -> W -> result unit ProjectionError * W
}.
Arguments sink_name {W} _.
Arguments apply_batch {W} _.

Definition NoopSink (W : Type) : ProjectionSink W :=
  {| sink_name := "noop"; apply_batch _ops w := (Ok tt, w) |}.

Record Projection := {
  event_types : list EventType.EventType;
  name : string;
  project : StoredEvent -> result (list SinkOperation) ProjectionError;
  project_parsed : ParsedEvent -> result (list SinkOperation) ProjectionError
}.

(** The default [project_parsed]. *)
Definition default_project_parsed `{EventCodecs}
    (project : StoredEvent -> result (list SinkOperation) ProjectionError) (event : ParsedEvent)
    : result (list SinkOperation) ProjectionError :=
  match ParsedEvent.as_stored_event event with
  | Ok stored => project stored
  | Err e => Err (ProjectionError.Serialization e)
  end.

Record PgProjection (W : Type) := {
  pg_name : string;
  pg_event_types : list EventType.EventType;
  shard_id : option Z;
  process_parsed_batch : list ParsedEvent -> W -> result unit ProjectionError * W
}.
Arguments pg_name {W} _.
Arguments pg_event_types {W} _.
Arguments shard_id {W} _.
Arguments process_parsed_batch {W} _.

(** The default [process_batch]. *)
Definition process_batch {W} `{WorkerWorld W} `{EventCodecs} (self : PgProjection W)
    (events : list StoredEvent) (w : W) : result unit ProjectionError * W :=
  let '(parsed, w) := parse_batch_once (pg_name self) events w in
  process_parsed_batch self parsed w.

Record BatchProjection (W : Type) := {
  batch_name : string;
  run_cycle : W -> result unit ProjectionError * W
}.
Arguments batch_name {W} _.
Arguments run_cycle {W} _.
