(* ===== verification/SurrealQl.v ===== *)
(** * SurrealQL

    [crates/projections/src/sink/surreal.rs], the pure half: how JSON values,
    record links and sink operations are written as SurrealQL text. The order in
    which a [HashMap] yields its fields is a parameter. A reader of single-quoted
    literals says what the written text means. *)

From Stdlib Require Import Ascii.
From stdpp Require Import pretty.
From S2P Require Import Prelude MachineInt Text Events WorkerWorld Traits.

(** [crates/projections/src/projection/mod.rs] *)
Definition DECIMAL_PREFIX : string := "decimal:".
Definition DATETIME_PREFIX : string := "datetime:".

(** ** Literals *)

Definition escape_char (ch : ascii) : string :=
  if Ascii.eqb ch "\"%char then "\\"
  else if Ascii.eqb ch "'"%char then "\'"
  else if Ascii.eqb ch newline then "\n"
  else if Ascii.eqb ch carriage_return then "\r"
  else text_of ch.

Fixpoint escape_surreal_string (s : string) : string :=
  match s with
  | EmptyString => EmptyString
  | String ch s => escape_char ch +:+ escape_surreal_string s
  end.

(** [format!("'{}'", escape_surreal_string(s))] *)
Definition quoted (s : string) : string := "'" +:+ escape_surreal_string s +:+ "'".

(** [format!("type::record('{}', '{}')", ..)] of the two escaped strings. *)
Definition record_call (table id : string) : string :=
  "type::record(" +:+ quoted table +:+ ", " +:+ quoted id +:+ ")".

Definition KNOWN_RECORD_TABLES : list string :=
  ["account"; "atom"; "triple"; "vault"; "position"; "deposit"; "withdraw"].

Definition parse_record_link (s : string) : option (string * string) :=
  match split_once ":"%char s with
  | None => None
  | Some (table, id) =>
      if String.eqb table "" || String.eqb id "" then None
      else if negb (bool_decide (table ∈ KNOWN_RECORD_TABLES)) then None
      else if starts_with "//" id then None
      else Some (table, id)
  end.

(** [n.as_i64().is_some() || n.as_f64().is_some() && n.as_u64().is_none()]: not an
    integer between [i64::MAX + 1] and [u64::MAX]. *)
Definition plain_number (literal : string) : bool :=
  match integer literal with
  | Some n => negb ((I64_MAX <? n) && (n <=? U64_MAX))
  | None => true
  end.

Definition value_string_to_surql (s : string) : string :=
  match strip_prefix DECIMAL_PREFIX s with
  | Some raw => "<decimal>" +:+ quoted raw
  | None =>
      match strip_prefix DATETIME_PREFIX s with
      | Some raw => "type::datetime(" +:+ quoted raw +:+ ")"
      | None =>
          match parse_record_link s with
          | Some (table, id) => record_call table id
          | None => quoted s
          end
      end
  end.

Fixpoint value_to_surql (v : Value) : string :=
  match v with
  | Null => "NONE"
  | Bool b => if b then "true" else "false"
  | Number n => if plain_number n then n else "<decimal>'" +:+ n +:+ "'"
  | VString s => value_string_to_surql s
  | Array arr => "[" +:+ join ", " (map value_to_surql arr) +:+ "]"
  | Object obj =>
      "{" +:+ join ", " (map (fun '(k, v) => k +:+ ": " +:+ value_to_surql v) obj) +:+ "}"
  end.

(** ** Schema-aware field coercion *)

Definition is_decimal_literal (raw : string) : bool :=
  let body := default raw (strip_prefix "-" raw) in
  if String.eqb body "" then false
  else
    match split "."%char body with
    | [whole] => negb (String.eqb whole "") && all_chars is_ascii_digit whole
    | [whole; frac] =>
        negb (String.eqb whole "") && all_chars is_ascii_digit whole &&
        negb (String.eqb frac "") && all_chars is_ascii_digit frac
    | _ => false
    end.

Definition coerce_record_field (value : Value) (target_table : string) : Value :=
  match value with
  | VString raw =>
      match parse_record_link raw with
      | Some _ => VString raw
      | None => VString (target_table +:+ ":" +:+ raw)
      end
  | _ => value
  end.

Definition coerce_record_array_field (value : Value) (target_table : string) : Value :=
  match value with
  | Array items => Array (map (fun item => coerce_record_field item target_table) items)
  | _ => coerce_record_field value target_table
  end.

Definition coerce_decimal_field (value : Value) : Value :=
  match value with
  | VString raw =>
      if starts_with DECIMAL_PREFIX raw then VString raw
      else if is_decimal_literal raw then VString (DECIMAL_PREFIX +:+ raw)
      else VString raw
  | _ => value
  end.

Definition coerce_int_field (value : Value) : Value :=
  match value with
  | VString raw =>
      match parse_i64 raw with
      | Some parsed => Number (pretty parsed)
      | None => VString raw
      end
  | _ => value
  end.

Definition coerce_datetime_field (value : Value) : Value :=
  match value with
  | VString raw =>
      if starts_with DATETIME_PREFIX raw then VString raw else VString (DATETIME_PREFIX +:+ raw)
  | _ => value
  end.

(** The arms of a [match (table, field)], in order; the last one is
    [_ => value.clone()]. *)
Definition arm : Type := (list string * list string * (Value -> Value)).
Definition record_in (target_table : string) (value : Value) : Value :=
  coerce_record_field value target_table.

Fixpoint first_arm (arms : list arm) (table field : string) (value : Value) : Value :=
  match arms with
  | [] => value
  | (tables, fields, coerce) :: arms =>
      if bool_decide (table ∈ tables /\ field ∈ fields) then coerce value
      else first_arm arms table field value
  end.

Definition normalize_node_field : string -> string -> Value -> Value :=
  first_arm [
    (["account"], ["deposited"; "withdrawn"; "net"], coerce_decimal_field);
    (["atom"], ["createdBy"], record_in "account");
    (["atom"], ["vault"], record_in "vault");
    (["triple"], ["createdBy"], record_in "account");
    (["triple"], ["subject"; "predicate"; "object"], record_in "atom");
    (["triple"], ["vault"], record_in "vault");
    (["artifact"], ["createdBy"], record_in "account");
    (["vault"], ["createdBy"], record_in "account");
    (["vault"], ["deposited"; "price"], coerce_decimal_field);
    (["vault"], ["bondingCurve"], coerce_int_field);
    (["position"], ["account"], record_in "account");
    (["position"], ["vault"], record_in "vault");
    (["position"], ["amount"], coerce_decimal_field);
    (["stack"], ["forkedFrom"], record_in "stack");
    (["stack"], ["root"], record_in "atom");
    (["stack"], ["contains"], fun value => coerce_record_array_field value "atom")].

Definition normalize_edge_field : string -> string -> Value -> Value :=
  first_arm [
    (["artifact_link"], ["createdBy"], record_in "account");
    (["opinion"], ["rating"], coerce_int_field);
    (["deposit"; "withdraw"], ["amount"], coerce_decimal_field);
    (["deposit"; "withdraw"], ["curveId"; "blockNumber"], coerce_int_field);
    (["deposit"; "withdraw"], ["updatedAt"], coerce_datetime_field);
    (["tag"], ["createdBy"], record_in "account")].

Definition normalize_increment_field : string -> string -> Value -> Value :=
  first_arm [
    (["account"], ["deposited"; "withdrawn"; "net"], coerce_decimal_field);
    (["position"], ["amount"], coerce_decimal_field);
    (["vault"], ["deposited"; "price"], coerce_decimal_field)].

Definition normalize_with (f : string -> string -> Value -> Value) (table : string) (fields : Fields)
    : Fields := map_imap (fun k v => Some (f table k v)) fields.
Definition normalize_node_fields : string -> Fields -> Fields := normalize_with normalize_node_field.
Definition normalize_edge_fields : string -> Fields -> Fields := normalize_with normalize_edge_field.
Definition normalize_increment_fields : string -> Fields -> Fields :=
  normalize_with normalize_increment_field.

(** ** Statement builders *)

(** The order in which a [HashMap] yields its entries. *)
Class FieldOrder := {
  field_order : Fields -> list (string * Value);
  field_order_perm m : field_order m ≡ₚ map_to_list m
}.
Definition sorted_fields : FieldOrder := {| field_order := map_to_list; field_order_perm m := reflexivity _ |}.

Definition nl : string := text_of newline.

Definition TRIPLE_EDGE_REWRITES : list (string * string) :=
  [("artifact_link", "in"); ("bookmark", "out"); ("tag", "out"); ("post_refers_item", "out");
   ("comment_on", "out")].

Section Builders.
Context `{FieldOrder}.

Definition fields_to_surql_object (fields : Fields) : string :=
  if decide (fields = ∅) then "{}"
  else "{" +:+ join ", " (map (fun '(k, v) => k +:+ ": " +:+ value_to_surql v) (field_order fields)) +:+ "}".

Definition build_upsert_node (id : RecordId) (fields : Fields) : string :=
  let normalized_fields := normalize_node_fields (RecordId.table id) fields in
  "UPSERT " +:+ record_call (RecordId.table id) (RecordId.id id) +:+
  " MERGE " +:+ fields_to_surql_object normalized_fields +:+ ";".

Definition build_edge_id (edge_table : string) (from to : RecordId) (id_suffix : option string) : string :=
  match id_suffix with
  | None => edge_table +:+ ":[" +:+ quoted (RecordId.id from) +:+ ", " +:+ quoted (RecordId.id to) +:+ "]"
  | Some suffix =>
      edge_table +:+ ":[" +:+ quoted (RecordId.id from) +:+ ", " +:+ quoted (RecordId.id to) +:+
      ", " +:+ quoted suffix +:+ "]"
  end.

Definition build_upsert_edge (from : RecordId) (edge_table : string) (to : RecordId)
    (id_suffix : option string) (fields : Fields) : string :=
  let normalized_fields := normalize_edge_fields edge_table fields in
  let edge_id := build_edge_id edge_table from to id_suffix in
  let relate :=
    if decide (normalized_fields = ∅) then "RELATE $from->" +:+ edge_id +:+ "->$to;"
    else "RELATE $from->" +:+ edge_id +:+ "->$to CONTENT " +:+ fields_to_surql_object normalized_fields +:+ ";" in
  "LET $from = " +:+ record_call (RecordId.table from) (RecordId.id from) +:+ ";" +:+ nl +:+
  "LET $to = " +:+ record_call (RecordId.table to) (RecordId.id to) +:+ ";" +:+ nl +:+ relate.

(** The [debug_assert!]s, which a release build does not run, are left out. *)
Definition build_reconcile_triple_draft (id : RecordId) (subject predicate object : string)
    (fields : Fields) : string :=
  let record := record_call (RecordId.table id) (RecordId.id id) in
  "DEFINE TABLE IF NOT EXISTS triple SCHEMALESS;" +:+ nl +:+
  String.concat "" (map (fun '(edge_table, _) =>
    "DEFINE TABLE IF NOT EXISTS " +:+ edge_table +:+ " SCHEMALESS TYPE RELATION;" +:+ nl)
    TRIPLE_EDGE_REWRITES) +:+
  "LET $drafts = (SELECT id, draftedBy FROM triple WHERE subject = " +:+ record_call "atom" subject +:+
  " AND predicate = " +:+ record_call "atom" predicate +:+
  " AND object = " +:+ record_call "atom" object +:+
  " AND id != " +:+ record +:+ " AND draftedBy != NONE);" +:+ nl +:+
  "FOR $d IN $drafts {" +:+ nl +:+
  String.concat "" (map (fun '(edge_table, direction) =>
    "    UPDATE " +:+ edge_table +:+ " SET " +:+ direction +:+ " = " +:+ record +:+
    " WHERE " +:+ direction +:+ " = $d.id;" +:+ nl) TRIPLE_EDGE_REWRITES) +:+
  "    DELETE $d.id;" +:+ nl +:+ "};" +:+ nl +:+
  "UPSERT " +:+ record +:+ " MERGE " +:+
  fields_to_surql_object (normalize_node_fields (RecordId.table id) fields) +:+ ";" +:+ nl +:+
  "IF $drafts[0] != NONE AND $drafts[0].draftedBy != NONE THEN {" +:+ nl +:+
  "UPDATE " +:+ record +:+ " SET draftedBy = $drafts[0].draftedBy;" +:+ nl +:+ "} END;".

Definition build_increment_fields (id : RecordId) (increments : Fields) : string :=
  let normalized_increments := normalize_increment_fields (RecordId.table id) increments in
  let record := record_call (RecordId.table id) (RecordId.id id) in
  if decide (normalized_increments = ∅) then "SELECT * FROM " +:+ record +:+ ";"
  else "UPSERT " +:+ record +:+ " SET " +:+
    join ", " (map (fun '(k, v) => k +:+ " += " +:+ value_to_surql v) (field_order normalized_increments)) +:+ ";".

Definition build_statement (op : SinkOperation) : string :=
  match op with
  | SinkOperation.UpsertNode id fields => build_upsert_node id fields
  | SinkOperation.UpsertEdge from edge_table to id_suffix fields =>
      build_upsert_edge from edge_table to id_suffix fields
  | SinkOperation.IncrementFields id increments => build_increment_fields id increments
  | SinkOperation.ReconcileTripleDraft id subject predicate object fields =>
      build_reconcile_triple_draft id subject predicate object fields
  end.

Definition build_batch_query (ops : list SinkOperation) : string :=
  "BEGIN TRANSACTION;" +:+ nl +:+
  String.concat "" (map (fun op => build_statement op +:+ nl) ops) +:+
  "COMMIT TRANSACTION;" +:+ nl.
End Builders.

(** ** Reading the text back *)

(** SurrealQL text is code with single-quoted literals in it; inside a literal a
    backslash takes the next character, or the control character it names. *)
Inductive token :=
  | Code (c : ascii)
  | Literal (s : string).

#[global] Instance token_eq_dec : EqDecision token.
Proof. solve_decision. Defined.

Definition unescape_char (c : ascii) : ascii :=
  if Ascii.eqb c "n"%char then newline else if Ascii.eqb c "r"%char then carriage_return else c.

(** [lit] is what has been read of the literal the text is in, if it is in one. *)
Fixpoint lex (lit : option string) (s : string) : option (list token) :=
  match lit, s with
  | None, EmptyString => Some []
  | None, String c s => if Ascii.eqb c "'"%char then lex (Some "") s else cons (Code c) <$> lex None s
  | Some _, EmptyString => None
  | Some acc, String c s =>
      if Ascii.eqb c "\"%char then
        match s with
        | EmptyString => None
        | String c s => lex (Some (acc +:+ text_of (unescape_char c))) s
        end
      else if Ascii.eqb c "'"%char then cons (Literal acc) <$> lex None s
      else lex (Some (acc +:+ text_of c)) s
  end.

Definition literals_of (ts : list token) : list string :=
  omap (fun t => match t with Literal s => Some s | Code _ => None end) ts.

(** Statements end with a semicolon outside of the literals. *)
Definition statements_of (ts : list token) : nat :=
  length (filter (fun t => t = Code ";"%char) ts).

(** The strings a value and an operation put into literals, in order. *)
Fixpoint value_literals (v : Value) : list string :=
  match v with
  | Null | Bool _ => []
  | Number n => if plain_number n then [] else [n]
  | VString s =>
      match strip_prefix DECIMAL_PREFIX s, strip_prefix DATETIME_PREFIX s, parse_record_link s with
      | Some raw, _, _ => [raw]
      | None, Some raw, _ => [raw]
      | None, None, Some (table, id) => [table; id]
      | None, None, None => [s]
      end
  | Array arr => concat (map value_literals arr)
  | Object obj => concat (map (fun '(k, v) => value_literals v) obj)
  end.

Definition record_literals (id : RecordId) : list string := [RecordId.table id; RecordId.id id].

Section Literals.
Context `{FieldOrder}.

Definition field_literals (fields : Fields) : list string :=
  concat (map (fun '(k, v) => value_literals v) (field_order fields)).

Definition op_literals (op : SinkOperation) : list string :=
  match op with
  | SinkOperation.UpsertNode id fields =>
      record_literals id ++ field_literals (normalize_node_fields (RecordId.table id) fields)
  | SinkOperation.UpsertEdge from edge_table to id_suffix fields =>
      record_literals from ++ record_literals to ++ [RecordId.id from; RecordId.id to] ++
      option_list id_suffix ++ field_literals (normalize_edge_fields edge_table fields)
  | SinkOperation.IncrementFields id increments =>
      record_literals id ++ field_literals (normalize_increment_fields (RecordId.table id) increments)
  | SinkOperation.ReconcileTripleDraft id subject predicate object fields =>
      ["atom"; subject; "atom"; predicate; "atom"; object] ++ record_literals id ++
      concat (map (fun _ => record_literals id) TRIPLE_EDGE_REWRITES) ++ record_literals id ++
      field_literals (normalize_node_fields (RecordId.table id) fields) ++ record_literals id
  end.
End Literals.

Definition op_statements (op : SinkOperation) : nat :=
  match op with
  | SinkOperation.UpsertNode _ _ | SinkOperation.IncrementFields _ _ => 1
  | SinkOperation.UpsertEdge _ _ _ _ _ => 3
  | SinkOperation.ReconcileTripleDraft _ _ _ _ _ => 17
  end.

(** Names that go into the code unquoted: no quote and no semicolon. *)
Definition plain (s : string) : bool :=
  all_chars (fun c => negb (Ascii.eqb c "'"%char || Ascii.eqb c ";"%char)) s.

Fixpoint plain_value (v : Value) : bool :=
  match v with
  | Null | Bool _ | VString _ => true
  | Number n => plain n
  | Array arr => forallb plain_value arr
  | Object obj => forallb (fun '(k, v) => plain k && plain_value v) obj
  end.

(** Every field has such a name and such a value. *)
Definition fields_are (N : string -> bool) (P : Value -> bool) (fields : Fields) : Prop :=
  forall k v, fields !! k = Some v -> N k /\ P v.

Definition plain_fields : Fields -> Prop := fields_are plain plain_value.

Definition plain_op (op : SinkOperation) : Prop :=
  match op with
  | SinkOperation.UpsertNode _ fields | SinkOperation.IncrementFields _ fields
  | SinkOperation.ReconcileTripleDraft _ _ _ _ fields => plain_fields fields
  | SinkOperation.UpsertEdge _ edge_table _ _ fields => plain edge_table /\ plain_fields fields
  end.

(** ** Proofs about the reader *)

Definition lexes (s : string) (ts : list token) : Prop :=
  forall rest, lex None (s +:+ rest) = app ts <$> lex None rest.

Lemma lex_escaped acc s rest :
  lex (Some acc) (escape_surreal_string s +:+ "'" +:+ rest) = cons (Literal (acc +:+ s)) <$> lex None rest.
Proof.
  revert acc. induction s as [|c s IH]; intros acc; cbn [escape_surreal_string].
  - by rewrite append_nil, append_cons, append_nil, append_empty.
  - assert (Hc : forall r, lex (Some acc) (escape_char c +:+ r) = lex (Some (acc +:+ text_of c)) r).
    { intros r. unfold escape_char, text_of.
      repeat match goal with |- context [Ascii.eqb c ?x] => destruct (Ascii.eqb_spec c x) as [->|] end;
        rewrite !append_cons, append_nil; cbn [lex]; try reflexivity.
      rewrite !(proj2 (Ascii.eqb_neq _ _)) by done. done. }
    rewrite append_assoc, Hc, IH, append_assoc. unfold text_of. by rewrite append_cons, append_nil.
Qed.

(** [s] is read as these literals, with [n] semicolons around them. *)
Definition reads (s : string) (lits : list string) (n : nat) : Prop :=
  exists ts, lexes s ts /\ literals_of ts = lits /\ statements_of ts = n.

Lemma reads_app s t l1 l2 n1 n2 :
  reads s l1 n1 -> reads t l2 n2 -> reads (s +:+ t) (l1 ++ l2) (n1 + n2).
Proof.
  intros (ts1 & H1 & <- & <-) (ts2 & H2 & <- & <-). exists (ts1 ++ ts2). split_and!.
  - intros rest. rewrite append_assoc, H1, H2. destruct (lex None rest); [|done].
    cbn. by rewrite app_assoc.
  - unfold literals_of. apply omap_app.
  - unfold statements_of. by rewrite filter_app, length_app.
Qed.

Lemma reads_quoted s : reads (quoted s) [s] 0.
Proof.
  exists [Literal s]. split_and!; [|done..]. intros rest. unfold quoted.
  rewrite !append_assoc. rewrite (append_cons "'"%char), append_nil.
  pose proof (lex_escaped "" s rest) as Hl. by rewrite append_nil in Hl.
Qed.

(** The semicolons of a text without quotes. *)
Fixpoint semicolons (s : string) : nat :=
  match s with
  | EmptyString => 0
  | String c s => (if Ascii.eqb c ";"%char then 1 else 0) + semicolons s
  end.

Lemma reads_code s :
  all_chars (fun c => negb (Ascii.eqb c "'"%char)) s = true -> reads s [] (semicolons s).
Proof.
  induction s as [|c s IH]; cbn [all_chars semicolons].
  - intros _. exists []. split_and!; [|done..]. intros rest. rewrite append_nil. by destruct (lex None rest).
  - rewrite andb_true_iff, negb_true_iff. intros [Hc Hs]. destruct (IH Hs) as (ts & Hl & Hlit & Hn).
    exists (Code c :: ts). split_and!.
    + intros rest. rewrite append_cons. cbn [lex]. rewrite Hc, Hl. by destruct (lex None rest).
    + done.
    + unfold statements_of in *. rewrite filter_cons.
      destruct (Ascii.eqb_spec c ";"%char) as [->|Hne]; case_decide; cbn; [lia|done|congruence|lia].
Qed.

Lemma plain_semicolons s : plain s = true ->
  all_chars (fun c => negb (Ascii.eqb c "'"%char)) s = true /\ semicolons s = 0%nat.
Proof.
  unfold plain. induction s as [|c s IH]; [done|]. cbn [all_chars semicolons].
  rewrite !andb_true_iff, negb_true_iff, orb_false_iff. intros [[Hq Hc] Hs].
  destruct (IH Hs) as [-> ->]. by rewrite Hq, Hc.
Qed.

Lemma reads_plain s : plain s = true -> reads s [] 0.
Proof. intros [Hq <-]%plain_semicolons. by apply reads_code. Qed.

Lemma reads_cast s l l' n n' : reads s l n -> l = l' -> n = n' -> reads s l' n'.
Proof. by intros ? <- <-. Qed.

Create HintDb reads_db.
#[export] Hint Resolve reads_quoted : reads_db.
#[export] Hint Extern 1 (reads (_ +:+ _) _ _) => (eapply reads_app) : reads_db.
#[export] Hint Extern 3 (reads _ _ _) => 
  (eapply reads_cast; [eapply reads_code; reflexivity|reflexivity|vm_compute; reflexivity]) : reads_db.

(** Splits a text into its pieces and compares what they read as. *)
Ltac reads_pieces := eapply reads_cast; [solve [eauto 60 with reads_db]|..].

Lemma reads_record_call table id : reads (record_call table id) [table; id] 0.
Proof. unfold record_call. by reads_pieces. Qed.
#[export] Hint Resolve reads_record_call : reads_db.

Lemma escape_numeric s : all_chars (fun c => is_numeric c || Ascii.eqb c "+"%char) s = true ->
  escape_surreal_string s = s.
Proof.
  induction s as [|c s IH]; [done|]. cbn [all_chars escape_surreal_string]. intros [Hc Hs]%andb_true_iff.
  rewrite IH by done. unfold escape_char.
  repeat match goal with |- context [Ascii.eqb c ?x] => destruct (Ascii.eqb_spec c x) as [->|]; [done|] end.
  done.
Qed.

Lemma natural_digits acc s n : digits_value acc s = Some n -> all_chars is_ascii_digit s = true.
Proof.
  revert acc. induction s as [|c s IH]; intros acc; [done|]. cbn [digits_value all_chars].
  unfold is_ascii_digit at 1. destruct (digit c); [|done]. apply IH.
Qed.

Lemma integer_numeric s n : integer s = Some n -> all_chars (fun c => is_numeric c || Ascii.eqb c "+"%char) s = true.
Proof.
  assert (Hnat : forall s n, natural s = Some n -> all_chars (fun c => is_numeric c || Ascii.eqb c "+"%char) s = true).
  { intros t m Ht. eapply all_chars_impl; [|eapply (natural_digits 0 t m); by destruct t].
    intros c Hc. unfold is_numeric. by rewrite Hc. }
  unfold integer. repeat case_match; try apply Hnat; intros Hs; cbn [all_chars].
  - by rewrite (Hnat _ _ Hs).
  - apply fmap_Some in Hs as (m & Hm & _). by rewrite (Hnat _ _ Hm).
Qed.

Lemma reads_join {A} (f : A -> string) (g : A -> list string) (xs : list A) :
  (forall x, x ∈ xs -> reads (f x) (g x) 0) -> reads (join ", " (map f xs)) (concat (map g xs)) 0.
Proof.
  induction xs as [|x xs IH]; intros Hf; [by apply reads_code|].
  assert (Hx : reads (f x) (g x) 0) by (apply Hf; left).
  assert (Hxs : reads (join ", " (map f xs)) (concat (map g xs)) 0) by (apply IH; intros y ?; apply Hf; by right).
  cbn [map concat]. destruct xs as [|y xs]; [by rewrite app_nil_r|].
  cbn [map] in *. rewrite join_cons by done. eapply reads_cast; [eauto with reads_db|done..].
Qed.

Lemma reads_concat {A} (f : A -> string) (g : A -> list string) (m : A -> nat) (xs : list A) :
  (forall x, x ∈ xs -> reads (f x) (g x) (m x)) ->
  reads (String.concat "" (map f xs)) (concat (map g xs)) (sum_list_with m xs).
Proof.
  induction xs as [|x xs IH]; intros Hf; [by apply reads_code|].
  assert (Hx : reads (f x) (g x) (m x)) by (apply Hf; left).
  assert (Hxs : reads (String.concat "" (map f xs)) (concat (map g xs)) (sum_list_with m xs))
    by (apply IH; intros y ?; apply Hf; by right).
  cbn [map concat sum_list_with]. destruct xs as [|y xs].
  - cbn in *. rewrite app_nil_r, Nat.add_0_r. done.
  - change (String.concat "" (f x :: map f (y :: xs))) with (f x +:+ "" +:+ String.concat "" (map f (y :: xs))).
    rewrite append_nil. by apply reads_app.
Qed.

Lemma reads_bracketed a b body lits :
  plain a = true -> plain b = true -> reads body lits 0 -> reads (a +:+ body +:+ b) lits 0.
Proof.
  intros Ha Hb Hbody. eapply reads_cast;
    [apply reads_app; [by apply reads_plain|apply reads_app; [exact Hbody|by apply reads_plain]]|
     by rewrite app_nil_r|done].
Qed.

Lemma reads_value_string s : reads (value_string_to_surql s) (value_literals (VString s)) 0.
Proof.
  unfold value_string_to_surql. cbn [value_literals].
  repeat case_match; try done; by reads_pieces.
Qed.

Lemma reads_value v : plain_value v = true -> reads (value_to_surql v) (value_literals v) 0.
Proof.
  revert v. fix IH 1. intros [|b|n|s|arr|obj]; cbn [value_to_surql plain_value]; intros Hp.
  - by apply reads_code.
  - destruct b; by apply reads_code.
  - cbn [value_literals]. destruct (plain_number n) eqn:Hn; [by apply reads_plain|].
    assert (He : escape_surreal_string n = n).
    { apply escape_numeric. unfold plain_number in Hn. destruct (integer n) eqn:Hi; [|done].
      by eapply integer_numeric. }
    change ("<decimal>'" +:+ n +:+ "'") with ("<decimal>" +:+ ("'" +:+ n +:+ "'")).
    rewrite <- He at 1. by reads_pieces.
  - apply reads_value_string.
  - apply reads_bracketed; [done..|]. cbn [value_literals]. apply reads_join.
    induction arr as [|v arr IHa]; [by intros v ?%not_elem_of_nil|]. cbn in Hp. apply andb_true_iff in Hp as [Hv Ha].
    intros x [->|Hx]%elem_of_cons; [by apply IH|by apply IHa].
  - apply reads_bracketed; [done..|]. cbn [value_literals].
    apply (reads_join (fun '(k, v) => k +:+ ": " +:+ value_to_surql v) (fun '(k, v) => value_literals v)).
    induction obj as [|[k v] obj IHo]; [by intros v ?%not_elem_of_nil|]. cbn in Hp.
    apply andb_true_iff in Hp as [[Hk Hv]%andb_true_iff Ho].
    intros x [->|Hx]%elem_of_cons; [|by apply IHo].
    change (reads (k +:+ ": " +:+ value_to_surql v) ([] ++ [] ++ value_literals v) (0 + (0 + 0))).
    apply reads_app; [by apply reads_plain|]. apply reads_app; [by apply reads_code|by apply IH].
Qed.

(** ** Proofs about the builders *)

Lemma plain_pretty (z : Z) : plain (pretty z) = true.
Proof.
  unfold plain. eapply all_chars_impl; [|apply pretty_numeric]. intros c. unfold is_numeric, is_ascii_digit, digit.
  destruct (Ascii.eqb_spec c "'"%char) as [->|]; [done|]. by destruct (Ascii.eqb_spec c ";"%char) as [->|].
Qed.

Lemma coerce_plain v t : plain_value v = true ->
  plain_value (coerce_record_field v t) = true /\ plain_value (coerce_decimal_field v) = true /\
  plain_value (coerce_int_field v) = true /\ plain_value (coerce_datetime_field v) = true.
Proof.
  intros Hv. unfold coerce_record_field, coerce_decimal_field, coerce_int_field, coerce_datetime_field.
  split_and!; repeat case_match; try done. apply plain_pretty.
Qed.

Lemma coerce_array_plain v t : plain_value v = true -> plain_value (coerce_record_array_field v t) = true.
Proof.
  intros Hv. destruct v as [| | | |arr|]; cbn [coerce_record_array_field]; try by apply coerce_plain.
  cbn [plain_value] in *. induction arr as [|v arr IH]; [done|]. cbn [map forallb] in *.
  apply andb_true_iff in Hv as [Hv Ha]. rewrite IH by done. by rewrite (proj1 (coerce_plain v t Hv)).
Qed.

(** The coercions keep a property of values. *)
Section Keeps.
Context (P : Value -> bool).

Definition keeps (f : Value -> Value) : Prop := forall v, P v = true -> P (f v) = true.

Lemma first_arm_keeps arms table field : Forall (fun '(_, _, f) => keeps f) arms -> keeps (first_arm arms table field).
Proof.
  induction 1 as [|[[ts fs] f] arms Hf _ IH]; intros v Hv; cbn [first_arm]; [done|].
  case_bool_decide; auto.
Qed.

Lemma normalize_keeps table field :
  (forall t, keeps (record_in t)) -> keeps coerce_decimal_field -> keeps coerce_int_field -> keeps coerce_datetime_field ->
  (forall t, keeps (fun v => coerce_record_array_field v t)) ->
  keeps (normalize_node_field table field) /\ keeps (normalize_edge_field table field) /\
  keeps (normalize_increment_field table field).
Proof.
  intros. split_and!; apply first_arm_keeps; repeat (apply Forall_cons_2; [auto|]); apply Forall_nil_2.
Qed.
End Keeps.

Lemma normalize_plain table field :
  keeps plain_value (normalize_node_field table field) /\ keeps plain_value (normalize_edge_field table field) /\
  keeps plain_value (normalize_increment_field table field).
Proof.
  apply normalize_keeps; [intros t v ?; by apply (coerce_plain v t)|intros v ?; by apply (coerce_plain v "")..|].
  intros t v. apply coerce_array_plain.
Qed.

Lemma normalize_with_are N P f table fields : (forall k, keeps P (f table k)) -> fields_are N P fields ->
  fields_are N P (normalize_with f table fields).
Proof.
  intros Hf Hp k v. unfold normalize_with. rewrite map_lookup_imap. intros Hl.
  destruct (fields !! k) as [u|] eqn:Hu; [|done]. injection Hl as <-. destruct (Hp _ _ Hu) as [Hk Hv].
  split; [done|]. apply Is_true_true. apply Is_true_true in Hv. by apply Hf.
Qed.

Section Readings.
Context `{FieldOrder}.

Lemma field_order_plain fields k v : plain_fields fields -> (k, v) ∈ field_order fields ->
  plain k = true /\ plain_value v = true.
Proof.
  intros Hp Hin. rewrite field_order_perm in Hin. apply elem_of_map_to_list in Hin.
  destruct (Hp _ _ Hin). by split; apply Is_true_true.
Qed.

Lemma reads_fields sep fields : plain sep = true -> plain_fields fields ->
  reads (join ", " (map (fun '(k, v) => k +:+ sep +:+ value_to_surql v) (field_order fields)))
    (field_literals fields) 0.
Proof.
  intros Hs Hp. apply (reads_join (fun '(k, v) => k +:+ sep +:+ value_to_surql v)).
  intros [k v] Hin. destruct (field_order_plain _ _ _ Hp Hin) as [Hk Hv].
  change (reads (k +:+ sep +:+ value_to_surql v) ([] ++ [] ++ value_literals v) (0 + (0 + 0))).
  apply reads_app; [by apply reads_plain|]. apply reads_app; [by apply reads_plain|by apply reads_value].
Qed.

Lemma reads_object fields : plain_fields fields -> reads (fields_to_surql_object fields) (field_literals fields) 0.
Proof.
  intros Hp. unfold fields_to_surql_object. case_decide as He.
  - subst. unfold field_literals. assert (Hn : field_order ∅ = []).
    { apply Permutation_nil. by rewrite field_order_perm, map_to_list_empty. }
    rewrite Hn. by apply reads_code.
  - apply reads_bracketed; [done..|]. by apply reads_fields.
Qed.

Lemma normalize_empty_literals f table fields :
  normalize_with f table fields = ∅ -> field_literals (normalize_with f table fields) = [].
Proof.
  intros ->. unfold field_literals. assert (Hn : field_order ∅ = []).
  { apply Permutation_nil. by rewrite field_order_perm, map_to_list_empty. }
  by rewrite Hn.
Qed.

Lemma normalize_fields_plain table fields : plain_fields fields ->
  plain_fields (normalize_node_fields table fields) /\ plain_fields (normalize_edge_fields table fields) /\
  plain_fields (normalize_increment_fields table fields).
Proof. intros Hp. split_and!; (apply normalize_with_are; [intros; apply normalize_plain|done]). Qed.

Lemma reads_node id fields : plain_fields fields ->
  reads (build_upsert_node id fields) (op_literals (SinkOperation.UpsertNode id fields)) 1.
Proof.
  intros Hp. pose proof (reads_object _ (proj1 (normalize_fields_plain (RecordId.table id) _ Hp))).
  unfold build_upsert_node. reads_pieces; [by rewrite app_nil_r|done].
Qed.

Lemma reads_increment id fields : plain_fields fields ->
  reads (build_increment_fields id fields) (op_literals (SinkOperation.IncrementFields id fields)) 1.
Proof.
  intros Hp. destruct (normalize_fields_plain (RecordId.table id) _ Hp) as (_ & _ & Hi).
  pose proof (reads_fields " += " _ eq_refl Hi). unfold build_increment_fields. cbn [op_literals].
  case_decide as He.
  - unfold normalize_increment_fields in *. rewrite normalize_empty_literals by done. by reads_pieces.
  - reads_pieces; [by rewrite app_nil_r|done].
Qed.

Lemma reads_edge_id edge_table from to suffix : plain edge_table = true ->
  reads (build_edge_id edge_table from to suffix)
    ([RecordId.id from; RecordId.id to] ++ option_list suffix) 0.
Proof.
  intros Hp. pose proof (reads_plain _ Hp). unfold build_edge_id. destruct suffix; by reads_pieces.
Qed.

Lemma reads_edge from edge_table to suffix fields : plain edge_table = true -> plain_fields fields ->
  reads (build_upsert_edge from edge_table to suffix fields)
    (op_literals (SinkOperation.UpsertEdge from edge_table to suffix fields)) 3.
Proof.
  intros He Hp. destruct (normalize_fields_plain edge_table _ Hp) as (_ & Hn & _).
  pose proof (reads_object _ Hn). pose proof (reads_edge_id edge_table from to suffix He).
  unfold build_upsert_edge. cbn [op_literals]. case_decide as Hempty.
  - unfold normalize_edge_fields in *. rewrite normalize_empty_literals by done.
    reads_pieces; [by rewrite !app_nil_r|done].
  - reads_pieces; [by simplify_list_eq|done].
Qed.

Lemma reads_reconcile id subj pred obj fields : plain_fields fields ->
  reads (build_reconcile_triple_draft id subj pred obj fields)
    (op_literals (SinkOperation.ReconcileTripleDraft id subj pred obj fields)) 17.
Proof.
  intros Hp. pose proof (reads_object _ (proj1 (normalize_fields_plain (RecordId.table id) _ Hp))) as Hobj.
  set (record := record_call (RecordId.table id) (RecordId.id id)).
  assert (Hrec : reads record (record_literals id) 0) by apply reads_record_call.
  assert (Hloop : reads (String.concat "" (map (fun '(edge_table, direction) =>
      "    UPDATE " +:+ edge_table +:+ " SET " +:+ direction +:+ " = " +:+ record +:+
      " WHERE " +:+ direction +:+ " = $d.id;" +:+ nl) TRIPLE_EDGE_REWRITES))
    (concat (map (fun _ => record_literals id) TRIPLE_EDGE_REWRITES)) 5).
  { apply (reads_concat _ (fun _ => record_literals id) (fun _ => 1%nat)).
    intros [et dir] Hin. assert (Hpl : reads et [] 0 /\ reads dir [] 0).
    { unfold TRIPLE_EDGE_REWRITES in Hin. rewrite !elem_of_cons, elem_of_nil in Hin.
      split; apply reads_plain; by destruct_or!; simplify_eq. }
    destruct Hpl. by reads_pieces. }
  unfold build_reconcile_triple_draft. fold record. cbn [op_literals].
  reads_pieces; [by simplify_list_eq|done].
Qed.

Lemma reads_statement op : plain_op op ->
  reads (build_statement op) (op_literals op) (op_statements op).
Proof.
  destruct op; cbn [plain_op build_statement op_statements]; intros Hp.
  - by apply reads_node.
  - destruct Hp. apply reads_edge; [by apply Is_true_true|done].
  - by apply reads_increment.
  - by apply reads_reconcile.
Qed.
End Readings.

(** The text of a batch reads as its operations, between [BEGIN] and [COMMIT]. *)
Lemma reads_batch `{FieldOrder} (ops : list SinkOperation) (Hp : Forall plain_op ops) :
  exists ts,
    lex None (build_batch_query ops) = Some ts /\
    literals_of ts = concat (map op_literals ops) /\
    statements_of ts = (2 + sum_list_with op_statements ops)%nat.
Proof.
  assert (Hops : reads (String.concat "" (map (fun op => build_statement op +:+ nl) ops))
    (concat (map op_literals ops)) (sum_list_with op_statements ops)).
  { apply (reads_concat (fun op => build_statement op +:+ nl)). intros op Hin. rewrite Forall_forall in Hp.
    pose proof (reads_statement op (Hp op Hin)). reads_pieces; [by rewrite app_nil_r|cbn; lia]. }
  assert (Hall : reads (build_batch_query ops) (concat (map op_literals ops))
    (2 + sum_list_with op_statements ops)).
  { unfold build_batch_query. reads_pieces; [by rewrite app_nil_r|cbn; lia]. }
  destruct Hall as (ts & Hl & Hlit & Hn). exists ts. split_and!; [|done..].
  specialize (Hl ""). rewrite append_empty in Hl. cbn in Hl. by rewrite app_nil_r in Hl.
Qed.
