(* ===== verification/SurrealReader.v ===== *)
(** * Reading SurrealQL back

    A reader for the SurrealQL the sink writes: it takes a batch apart into its lines,
    each with its records, field names and values. The readers take from the front of a
    text and give what they read and the rest; the law of each is that what was written,
    followed by anything (or by anything that does not go on with the same word), reads
    as what it was written for, with that rest left. *)

From Stdlib Require Import Ascii.
From stdpp Require Import pretty.
From S2P Require Import Prelude MachineInt Text Events WorkerWorld Traits SurrealQl.

(** ** Readers *)

Definition reader (A : Type) : Type := string -> option (A * string).

Definition yield {A} (a : A) : reader A := fun s => Some (a, s).
Definition followed {A B} (r : reader A) (k : A -> reader B) : reader B := fun s =>
  match r s with
  | Some (a, s) => k a s
  | None => None
  end.

Declare Scope reader_scope.
Notation "x <~ r ;; k" := (followed r (fun x => k)) (at level 100, r at next level, right associativity) : reader_scope.
Notation "r ;;~ k" := (followed r (fun _ => k)) (at level 100, right associativity) : reader_scope.
#[local] Open Scope reader_scope.

Definition lit (t : string) : reader unit := fun s => rest ← strip_prefix t s; Some (tt, rest).

(** The first of the readers that reads something. *)
Fixpoint first_of {A} (rs : list (reader A)) : reader A := fun s =>
  match rs with
  | [] => None
  | r :: rs => match r s with Some x => Some x | None => first_of rs s end
  end.

(** The characters at the front that satisfy [p]; at least one. *)
Fixpoint span (p : ascii -> bool) (s : string) : string * string :=
  match s with
  | EmptyString => (EmptyString, EmptyString)
  | String c t => if p c then let '(w, rest) := span p t in (String c w, rest) else (EmptyString, s)
  end.
Definition run_of (p : ascii -> bool) : reader string := fun s =>
  match span p s with
  | (EmptyString, _) => None
  | (w, rest) => Some (w, rest)
  end.

Definition is_word (c : ascii) : bool :=
  let n := N_of_ascii c in
  ((48 <=? n) && (n <=? 57) || (65 <=? n) && (n <=? 90) || (97 <=? n) && (n <=? 122) || (n =? 95))%N.
Definition word : reader string := run_of is_word.

(** The rest of a literal, after its quote. *)
Fixpoint literal_body (s : string) : option (string * string) :=
  match s with
  | EmptyString => None
  | String c s =>
      if Ascii.eqb c "'"%char then Some (EmptyString, s)
      else if Ascii.eqb c "\"%char then
        match s with
        | EmptyString => None
        | String c s => '(t, rest) ← literal_body s; Some (String (unescape_char c) t, rest)
        end
      else '(t, rest) ← literal_body s; Some (String c t, rest)
  end.
Definition literal : reader string := (lit "'" ;;~ literal_body).

Definition record : reader RecordId :=
  lit "type::record(" ;;~ table <~ literal ;; lit ", " ;;~ id <~ literal ;; lit ")" ;;~ yield (RecordId.new table id).

(** ** Values and fields *)

(** What a value of a field is sent as. *)
Inductive Datum :=
  | DNone
  | DBool (b : bool)
  | DNumber (n : string)
  | DDecimal (n : string)
  | DDatetime (t : string)
  | DRecord (id : RecordId)
  | DText (s : string).

Definition read_datum : reader Datum := first_of [
  n <~ run_of is_numeric ;; yield (DNumber n);
  lit "NONE" ;;~ yield DNone;
  lit "true" ;;~ yield (DBool true);
  lit "false" ;;~ yield (DBool false);
  lit "<decimal>" ;;~ n <~ literal ;; yield (DDecimal n);
  lit "type::datetime(" ;;~ t <~ literal ;; lit ")" ;;~ yield (DDatetime t);
  id <~ record ;; yield (DRecord id);
  s <~ literal ;; yield (DText s)].

(** [name sep value], separated by commas. *)
Fixpoint entries (sep : string) (fuel : nat) : reader (list (string * Datum)) :=
  match fuel with
  | O => fun _ => None
  | S fuel =>
      k <~ word ;; lit sep ;;~ v <~ read_datum ;;
      first_of [lit ", " ;;~ es <~ entries sep fuel ;; yield ((k, v) :: es); yield [(k, v)]]
  end.
Definition some_entries (sep : string) : reader (list (string * Datum)) := fun s => entries sep (String.length s) s.

Definition object : reader (list (string * Datum)) := first_of [
  lit "{}" ;;~ yield [];
  lit "{" ;;~ es <~ some_entries ": " ;; lit "}" ;;~ yield es].

(** ** Lines *)

Inductive Line :=
  | Begin
  | Commit
  | UpsertMerge (id : RecordId) (fields : list (string * Datum))
  | UpsertAdd (id : RecordId) (increments : list (string * Datum))
  | SelectAll (id : RecordId)
  | LetFrom (id : RecordId)
  | LetTo (id : RecordId)
  | RelateFromTo (edge_table : string) (key : list string) (content : list (string * Datum))
  | DefineTable (table : string) (relation : bool)
  | SelectDrafts (subject predicate object but : RecordId)
  | ForDrafts
  | Repoint (edge_table direction : string) (to : RecordId) (drafted : string)
  | DeleteDraft
  | EndFor
  | IfDrafted
  | KeepDrafter (id : RecordId)
  | EndIf.

Definition read_statement : reader Line := first_of [
  lit "BEGIN TRANSACTION;" ;;~ yield Begin;
  lit "COMMIT TRANSACTION;" ;;~ yield Commit;
  lit "UPSERT " ;;~ id <~ record ;; first_of [
    lit " MERGE " ;;~ fields <~ object ;; lit ";" ;;~ yield (UpsertMerge id fields);
    lit " SET " ;;~ increments <~ some_entries " += " ;; lit ";" ;;~ yield (UpsertAdd id increments)];
  lit "SELECT * FROM " ;;~ id <~ record ;; lit ";" ;;~ yield (SelectAll id);
  lit "LET $from = " ;;~ id <~ record ;; lit ";" ;;~ yield (LetFrom id);
  lit "LET $to = " ;;~ id <~ record ;; lit ";" ;;~ yield (LetTo id);
  lit "RELATE $from->" ;;~ edge_table <~ word ;; lit ":[" ;;~ from <~ literal ;; lit ", " ;;~ to <~ literal ;;
    suffix <~ first_of [lit ", " ;;~ suffix <~ literal ;; yield [suffix]; yield []] ;; lit "]" ;;~
    content <~ first_of [lit "->$to;" ;;~ yield []; lit "->$to CONTENT " ;;~ content <~ object ;; lit ";" ;;~ yield content] ;;
    yield (RelateFromTo edge_table ([from; to] ++ suffix) content);
  lit "DEFINE TABLE IF NOT EXISTS " ;;~ table <~ word ;; first_of [
    lit " SCHEMALESS;" ;;~ yield (DefineTable table false);
    lit " SCHEMALESS TYPE RELATION;" ;;~ yield (DefineTable table true)];
  lit "LET $drafts = (SELECT id, draftedBy FROM triple WHERE subject = " ;;~ subject <~ record ;;
    lit " AND predicate = " ;;~ predicate <~ record ;; lit " AND object = " ;;~ object <~ record ;;
    lit " AND id != " ;;~ but <~ record ;; lit " AND draftedBy != NONE);" ;;~
    yield (SelectDrafts subject predicate object but);
  lit "FOR $d IN $drafts {" ;;~ yield ForDrafts;
  lit "    UPDATE " ;;~ edge_table <~ word ;; lit " SET " ;;~ direction <~ word ;; lit " = " ;;~ to <~ record ;;
    lit " WHERE " ;;~ drafted <~ word ;; lit " = $d.id;" ;;~ yield (Repoint edge_table direction to drafted);
  lit "    DELETE $d.id;" ;;~ yield DeleteDraft;
  lit "};" ;;~ yield EndFor;
  lit "IF $drafts[0] != NONE AND $drafts[0].draftedBy != NONE THEN {" ;;~ yield IfDrafted;
  lit "UPDATE " ;;~ id <~ record ;; lit " SET draftedBy = $drafts[0].draftedBy;" ;;~ yield (KeepDrafter id);
  lit "} END;" ;;~ yield EndIf].

Definition read_line : reader Line := (l <~ read_statement ;; lit nl ;;~ yield l).

Fixpoint read_lines (fuel : nat) (s : string) : option (list Line) :=
  match s, fuel with
  | EmptyString, _ => Some []
  | _, O => None
  | _, S fuel => '(l, s) ← read_line s; cons l <$> read_lines fuel s
  end.

(** Every line has a character. *)
Definition read_batch (s : string) : option (list Line) := read_lines (String.length s) s.

(** ** What the operations say *)

(** A string the sink takes for a sentinel is sent as what the sentinel stands for. *)
Definition datum (v : Value) : Datum :=
  match v with
  | Null | Array _ | Object _ => DNone
  | Bool b => DBool b
  | Number n => if plain_number n then DNumber n else DDecimal n
  | VString s =>
      match strip_prefix DECIMAL_PREFIX s, strip_prefix DATETIME_PREFIX s, parse_record_link s with
      | Some n, _, _ => DDecimal n
      | None, Some t, _ => DDatetime t
      | None, None, Some (table, id) => DRecord (RecordId.new table id)
      | None, None, None => DText s
      end
  end.

Section Lines.
Context `{FieldOrder}.

Definition data (fields : Fields) : list (string * Datum) := map (fun '(k, v) => (k, datum v)) (field_order fields).

(** The lines of an operation, its fields coerced as the sink does for their tables. *)
Definition op_lines (op : SinkOperation) : list Line :=
  match op with
  | SinkOperation.UpsertNode id fields => [UpsertMerge id (data (normalize_node_fields (RecordId.table id) fields))]
  | SinkOperation.UpsertEdge from edge_table to id_suffix fields =>
      [LetFrom from; LetTo to;
       RelateFromTo edge_table ([RecordId.id from; RecordId.id to] ++ option_list id_suffix)
         (data (normalize_edge_fields edge_table fields))]
  | SinkOperation.IncrementFields id increments =>
      if decide (increments = ∅) then [SelectAll id]
      else [UpsertAdd id (data (normalize_increment_fields (RecordId.table id) increments))]
  | SinkOperation.ReconcileTripleDraft id subject predicate object fields =>
      [DefineTable "triple" false] ++ map (fun '(edge_table, _) => DefineTable edge_table true) TRIPLE_EDGE_REWRITES ++
      [SelectDrafts (RecordId.new "atom" subject) (RecordId.new "atom" predicate) (RecordId.new "atom" object) id;
       ForDrafts] ++
      map (fun '(edge_table, direction) => Repoint edge_table direction id direction) TRIPLE_EDGE_REWRITES ++
      [DeleteDraft; EndFor; UpsertMerge id (data (normalize_node_fields (RecordId.table id) fields));
       IfDrafted; KeepDrafter id; EndIf]
  end.
End Lines.

(** A name that is one word; a value that is neither an array nor an object. *)
Definition name_ok (s : string) : bool := negb (String.eqb s "") && all_chars is_word s.
Definition flat_value (v : Value) : bool :=
  match v with
  | Null | Bool _ | VString _ => true
  | Number n => negb (String.eqb n "") && all_chars is_numeric n
  | Array _ | Object _ => false
  end.

Definition readable_fields : Fields -> Prop := fields_are name_ok flat_value.
Definition readable_op (op : SinkOperation) : Prop :=
  match op with
  | SinkOperation.UpsertNode _ fields | SinkOperation.IncrementFields _ fields
  | SinkOperation.ReconcileTripleDraft _ _ _ _ fields => readable_fields fields
  | SinkOperation.UpsertEdge _ edge_table _ _ fields => name_ok edge_table /\ readable_fields fields
  end.

(** ** The laws of the readers *)

Lemma followed_lit {A} t (k : unit -> reader A) s : followed (lit t) k (t +:+ s) = k tt s.
Proof. unfold followed, lit. by rewrite strip_prefix_app. Qed.

Lemma followed_by {A B} (r : reader A) (k : A -> reader B) s a rest : r s = Some (a, rest) -> followed r k s = k a rest.
Proof. unfold followed. by intros ->. Qed.

Lemma first_of_skip {A} (r : reader A) rs s : r s = None -> first_of (r :: rs) s = first_of rs s.
Proof. cbn. by intros ->. Qed.

Lemma first_of_take {A} (r : reader A) rs s x : r s = Some x -> first_of (r :: rs) s = Some x.
Proof. cbn. by intros ->. Qed.

(** The text does not go on with a character of [p]. *)
Definition stops (p : ascii -> bool) (s : string) : bool :=
  match s with String c _ => negb (p c) | EmptyString => true end.

Lemma run_of_reads p w rest : w <> "" -> all_chars p w = true -> stops p rest = true ->
  run_of p (w +:+ rest) = Some (w, rest).
Proof.
  intros Hne Hw Hr. assert (Hs : span p (w +:+ rest) = (w, rest)).
  { clear Hne. induction w as [|c w IH]; cbn [all_chars] in Hw.
    - rewrite append_nil. destruct rest as [|c rest]; [done|]. cbn in *. by apply negb_true_iff in Hr as ->.
    - apply andb_true_iff in Hw as [Hc Hw]. rewrite append_cons. cbn [span]. by rewrite Hc, IH. }
  unfold run_of. rewrite Hs. by destruct w.
Qed.

Lemma name_ok_word w rest : name_ok w = true -> stops is_word rest = true -> word (w +:+ rest) = Some (w, rest).
Proof.
  unfold name_ok. intros [Hne Hw]%andb_true_iff Hr. apply run_of_reads; [|done..].
  intros ->. done.
Qed.

Lemma literal_body_reads s rest : literal_body (escape_surreal_string s +:+ "'" +:+ rest) = Some (s, rest).
Proof.
  induction s as [|c s IH]; cbn [escape_surreal_string]; [done|].
  rewrite append_assoc. unfold escape_char, text_of.
  repeat match goal with |- context [Ascii.eqb c ?x] => destruct (Ascii.eqb_spec c x) as [->|] end;
    rewrite !append_cons, append_nil; cbn [literal_body];
    rewrite ?Ascii.eqb_refl, ?(proj2 (Ascii.eqb_neq _ _)) by done;
    change (String "'" ("" +:+ rest)) with ("'" +:+ rest); by rewrite IH.
Qed.

Lemma literal_reads s rest : literal (quoted s +:+ rest) = Some (s, rest).
Proof.
  unfold literal, quoted. rewrite !append_assoc, followed_lit. apply literal_body_reads.
Qed.

Lemma record_reads table id rest : record (record_call table id +:+ rest) = Some (RecordId.new table id, rest).
Proof.
  unfold record, record_call. rewrite !append_assoc, followed_lit.
  rewrite (followed_by _ _ _ _ _ (literal_reads _ _)), followed_lit.
  by rewrite (followed_by _ _ _ _ _ (literal_reads _ _)), followed_lit.
Qed.

Lemma record_id_reads id rest : record (record_call (RecordId.table id) (RecordId.id id) +:+ rest) = Some (id, rest).
Proof. rewrite record_reads. by destruct id. Qed.

Create HintDb readers_db.
#[export] Hint Resolve literal_reads record_reads record_id_reads : readers_db.

(** Reads on through the pieces of a text, skipping the readers its first characters rule out. *)
Ltac read_pieces := rewrite ?append_assoc; repeat first
  [ rewrite followed_lit
  | erewrite followed_by by solve [eauto with readers_db]
  | rewrite first_of_skip by reflexivity ].

Lemma read_string s rest : read_datum (value_string_to_surql s +:+ rest) = Some (datum (VString s), rest).
Proof.
  unfold value_string_to_surql, read_datum. cbn [datum].
  destruct (strip_prefix DECIMAL_PREFIX s) as [n|]; [|destruct (strip_prefix DATETIME_PREFIX s) as [t|];
    [|destruct (parse_record_link s) as [[table id]|]]];
    rewrite ?append_assoc; repeat (rewrite first_of_skip by reflexivity).
  all: apply first_of_take; read_pieces; done.
Qed.

Lemma datum_reads v rest : flat_value v = true -> stops is_numeric rest = true ->
  read_datum (value_to_surql v +:+ rest) = Some (datum v, rest).
Proof.
  intros Hv Hr. destruct v as [|b|n|s|arr|obj]; cbn [flat_value value_to_surql] in *; try done.
  - by destruct b.
  - apply andb_true_iff in Hv as [Hne Hn]. cbn [datum]. unfold read_datum. destruct (plain_number n) eqn:Hp.
    + apply first_of_take. rewrite (followed_by _ _ _ n rest); [done|]. apply run_of_reads; [|done..].
      intros ->. done.
    + assert (He : escape_surreal_string n = n).
      { apply escape_numeric. unfold plain_number in Hp. destruct (integer n) eqn:Hi; [by eapply integer_numeric|done]. }
      change ("<decimal>'" +:+ n +:+ "'") with ("<decimal>" +:+ ("'" +:+ n +:+ "'")). rewrite <- He at 1.
      change ("'" +:+ escape_surreal_string n +:+ "'") with (quoted n).
      rewrite append_assoc. repeat (rewrite first_of_skip by reflexivity). apply first_of_take. by read_pieces.
  - apply read_string.
Qed.

Lemma length_append (s t : string) : String.length (s +:+ t) = (String.length s + String.length t)%nat.
Proof. induction s as [|c s IH]; [done|]. rewrite append_cons. cbn [String.length]. by rewrite IH. Qed.

(** The entries of an object or an increment. *)
Abbreviation entry_text sep := (fun '(k, v) => k +:+ sep +:+ value_to_surql v).

Definition entry_ok (e : string * Value) : Prop := name_ok (fst e) = true /\ flat_value (snd e) = true.

Lemma entries_read sep es fuel rest :
  (forall s, stops is_word (sep +:+ s) = true) -> es <> [] -> Forall entry_ok es -> (length es <= fuel)%nat ->
  stops is_numeric rest = true -> strip_prefix ", " rest = None ->
  entries sep fuel (join ", " (map (entry_text sep) es) +:+ rest) = Some (map (fun '(k, v) => (k, datum v)) es, rest).
Proof.
  intros Hsep Hne Hall. revert fuel Hne. induction Hall as [|[k v] es [Hk Hv] Hall IH]; intros fuel Hne Hf Hr Hc; [done|].
  destruct fuel as [|fuel]; [cbn in Hf; lia|]. cbn [fst snd] in Hk, Hv. cbn [map entries length] in *. destruct es as [|e es].
  - cbn [map join String.concat]. rewrite !append_assoc.
    rewrite (followed_by _ _ _ _ _ (name_ok_word _ _ Hk (Hsep _))), followed_lit.
    rewrite (followed_by _ _ _ _ _ (datum_reads _ _ Hv Hr)).
    rewrite first_of_skip; [by apply first_of_take|]. unfold followed, lit. by rewrite Hc.
  - rewrite join_cons by done. rewrite !append_assoc.
    rewrite (followed_by _ _ _ _ _ (name_ok_word _ _ Hk (Hsep _))), followed_lit.
    rewrite (followed_by _ _ _ _ _ (datum_reads v (", " +:+ _) Hv eq_refl)).
    apply first_of_take. rewrite followed_lit.
    rewrite (followed_by _ _ _ _ _ (IH fuel ltac:(done) ltac:(cbn in *; lia) Hr Hc)). done.
Qed.

Lemma entries_length sep es : (0 < String.length sep)%nat -> (length es <= String.length (join ", " (map (entry_text sep) es)))%nat.
Proof.
  intros Hs. induction es as [|[k v] es IH]; [cbn; lia|]. destruct es as [|e es].
  - cbn [map join String.concat length]. rewrite !length_append. lia.
  - cbn [map] in *. rewrite join_cons by done. rewrite !length_append. cbn [length] in *. lia.
Qed.

Lemma some_entries_read sep es rest :
  (forall s, stops is_word (sep +:+ s) = true) -> (0 < String.length sep)%nat -> es <> [] -> Forall entry_ok es ->
  stops is_numeric rest = true -> strip_prefix ", " rest = None ->
  some_entries sep (join ", " (map (entry_text sep) es) +:+ rest) = Some (map (fun '(k, v) => (k, datum v)) es, rest).
Proof.
  intros. unfold some_entries. apply entries_read; try done. rewrite length_append.
  pose proof (entries_length sep es). lia.
Qed.

Section Readings.
Context `{FieldOrder}.

Lemma field_order_entries fields : readable_fields fields -> Forall entry_ok (field_order fields).
Proof.
  intros Hf. apply Forall_forall. intros [k v] Hin. rewrite field_order_perm in Hin.
  apply elem_of_map_to_list in Hin. destruct (Hf _ _ Hin). by split; apply Is_true_true.
Qed.

Lemma field_order_none : field_order ∅ = [].
Proof. apply Permutation_nil. by rewrite field_order_perm, map_to_list_empty. Qed.

Lemma field_order_some fields : fields <> ∅ -> field_order fields <> [].
Proof.
  intros Hne He. apply Hne, map_to_list_empty_iff. apply Permutation_nil. by rewrite <- (field_order_perm fields), He.
Qed.

Lemma object_reads fields rest : readable_fields fields -> object (fields_to_surql_object fields +:+ rest) = Some (data fields, rest).
Proof.
  intros Hf. unfold fields_to_surql_object, object, data. case_decide as He.
  - subst fields. rewrite field_order_none. apply first_of_take. by read_pieces.
  - pose proof (field_order_entries _ Hf) as Hall. pose proof (field_order_some _ He) as Hne.
    rewrite first_of_skip.
    + apply first_of_take. read_pieces. erewrite followed_by by (by apply some_entries_read; [|cbn; lia|..]). by read_pieces.
    + destruct (field_order fields) as [|[k v] es]; [done|]. inversion Hall as [|? ? [Hk _] _]. subst.
      unfold name_ok in Hk. cbn [fst] in Hk. destruct k as [|c k]; [done|]. apply andb_true_iff in Hk as [_ Hk].
      cbn [all_chars] in Hk. apply andb_true_iff in Hk as [Hk _].
      assert (Hs : forall s, strip_prefix "{}" ("{" +:+ String c s) = None).
      { intros s. change (strip_prefix "}" (String c s) = None). cbn [strip_prefix].
        by destruct (Ascii.eqb_spec "}"%char c) as [<-|]. }
      unfold followed, lit. destruct es; cbn [map join String.concat]; rewrite !append_assoc, (append_cons c), Hs; done.
Qed.
End Readings.
#[export] Hint Resolve object_reads : readers_db.

(** ** The text of the operations *)

(** A line of the text and what it reads as. *)
Definition is_line (text : string) (l : Line) : Prop := forall rest, read_line (text +:+ rest) = Some (l, rest).

(** [text] reads as these lines, whatever follows. *)
Definition are_lines (text : string) (ls : list Line) : Prop :=
  (length ls <= String.length text)%nat /\
  forall fuel rest, read_lines (length ls + fuel) (text +:+ rest) = app ls <$> read_lines fuel rest.

Lemma are_lines_nil : are_lines "" [].
Proof. split; [done|]. intros fuel rest. rewrite append_nil. cbn [length Nat.add app]. by destruct (read_lines fuel rest). Qed.

Lemma are_lines_one text l : text <> "" -> is_line text l -> are_lines text [l].
Proof.
  intros Hne Hl. split; [destruct text; [done|cbn; lia]|]. intros fuel rest. specialize (Hl rest).
  cbn [length Nat.add]. destruct text as [|c text]; [done|]. rewrite append_cons in *. cbn [read_lines]. rewrite Hl. cbn.
  by destruct (read_lines fuel rest).
Qed.

Lemma are_lines_app s t l1 l2 : are_lines s l1 -> are_lines t l2 -> are_lines (s +:+ t) (l1 ++ l2).
Proof.
  intros [B1 H1] [B2 H2]. split; [rewrite length_append, length_app; lia|]. intros fuel rest.
  rewrite length_app, append_assoc, <- Nat.add_assoc, H1, H2. destruct (read_lines fuel rest); [|done].
  cbn. by rewrite app_assoc.
Qed.

Lemma are_lines_cons s t l ls : s <> "" -> is_line s l -> are_lines t ls -> are_lines (s +:+ t) (l :: ls).
Proof. intros. apply (are_lines_app s t [l]); [by apply are_lines_one|done]. Qed.

Lemma are_lines_concat {A} (f : A -> string) (g : A -> list Line) (xs : list A) :
  (forall x, x ∈ xs -> are_lines (f x) (g x)) -> are_lines (String.concat "" (map f xs)) (concat (map g xs)).
Proof.
  induction xs as [|x xs IH]; intros Hf; [apply are_lines_nil|].
  assert (Hx : are_lines (f x) (g x)) by (apply Hf; left).
  assert (Hxs : are_lines (String.concat "" (map f xs)) (concat (map g xs))) by (apply IH; intros y ?; apply Hf; by right).
  cbn [map concat]. destruct xs as [|y xs]; [cbn in *; by rewrite app_nil_r|].
  change (String.concat "" (f x :: map f (y :: xs))) with (f x +:+ "" +:+ String.concat "" (map f (y :: xs))).
  rewrite append_nil. by apply are_lines_app.
Qed.

Lemma are_lines_map {A} (f : A -> string) (g : A -> Line) (xs : list A) :
  (forall x, x ∈ xs -> f x <> "" /\ is_line (f x) (g x)) -> are_lines (String.concat "" (map f xs)) (map g xs).
Proof.
  intros Hf. assert (E : map g xs = concat (map (fun x => [g x]) xs)) by (clear Hf; induction xs; [done|]; cbn; by f_equal).
  rewrite E. apply are_lines_concat. intros x Hx. destruct (Hf x Hx). by apply are_lines_one.
Qed.

(** A line is a statement and a line break. *)
Lemma statement_line text l : (forall rest, read_statement (text +:+ nl +:+ rest) = Some (l, nl +:+ rest)) -> is_line (text +:+ nl) l.
Proof.
  intros Hr rest. unfold read_line. rewrite append_assoc, (followed_by _ _ _ _ _ (Hr rest)). by rewrite followed_lit.
Qed.

(** Finds the reader of a statement by the first characters of its text, and applies it. *)
Ltac read_all := repeat first
  [ progress read_pieces
  | apply first_of_take
  | erewrite followed_by; [|solve [read_all]] ]; try reflexivity.
Ltac read_statement_text := intros ?; unfold read_statement; read_all.

Section Statements.
Context `{FieldOrder}.

Lemma flat_pretty (z : Z) : negb (String.eqb (pretty z) "") && all_chars is_numeric (pretty z) = true.
Proof.
  rewrite pretty_numeric, andb_true_r, negb_true_iff. apply String.eqb_neq. intros He.
  pose proof (integer_pretty z) as Hi. by rewrite He in Hi.
Qed.

Lemma coerce_flat t : keeps flat_value (record_in t) /\ keeps flat_value coerce_decimal_field /\
  keeps flat_value coerce_int_field /\ keeps flat_value coerce_datetime_field /\
  keeps flat_value (fun v => coerce_record_array_field v t).
Proof.
  split_and!; intros v Hv; unfold record_in, coerce_record_array_field, coerce_record_field, coerce_decimal_field,
    coerce_int_field, coerce_datetime_field; repeat case_match; try done; apply flat_pretty.
Qed.

Lemma normalize_readable table fields : readable_fields fields ->
  readable_fields (normalize_node_fields table fields) /\ readable_fields (normalize_edge_fields table fields) /\
  readable_fields (normalize_increment_fields table fields).
Proof.
  intros Hp. split_and!; (apply normalize_with_are; [|done]); intros k; apply normalize_keeps; intros; apply coerce_flat; done.
Qed.

Lemma normalize_none f table fields : normalize_with f table fields = ∅ <-> fields = ∅.
Proof.
  unfold normalize_with. split; [|intros ->; apply map_imap_empty]. intros He. apply map_eq. intros k.
  apply (f_equal (fun m : Fields => m !! k)) in He. rewrite map_lookup_imap, lookup_empty in He. rewrite lookup_empty.
  by destruct (fields !! k).
Qed.
Lemma node_lines id fields : readable_fields fields ->
  is_line (build_upsert_node id fields +:+ nl) (UpsertMerge id (data (normalize_node_fields (RecordId.table id) fields))).
Proof.
  intros Hf. apply statement_line. unfold build_upsert_node. destruct (normalize_readable (RecordId.table id) _ Hf) as (Hn & _).
  read_statement_text.
Qed.

Lemma increment_lines id fields : readable_fields fields ->
  are_lines (build_increment_fields id fields +:+ nl) (op_lines (SinkOperation.IncrementFields id fields)).
Proof.
  intros Hf. destruct (normalize_readable (RecordId.table id) _ Hf) as (_ & _ & Hn).
  assert (Hnone : normalize_increment_fields (RecordId.table id) fields = ∅ <-> fields = ∅) by apply normalize_none.
  unfold build_increment_fields. cbn [op_lines]. destruct (decide (fields = ∅)) as [->|He].
  - rewrite decide_True by (by apply Hnone). apply are_lines_one; [done|]. apply statement_line. read_statement_text.
  - rewrite decide_False by (by rewrite Hnone).
    apply are_lines_one; [done|]. apply statement_line. read_statement_text.
    erewrite followed_by; [|apply some_entries_read; [done|cbn; lia|apply field_order_some; by rewrite Hnone|
      by apply field_order_entries|done|done]].
    read_all.
Qed.

Lemma edge_lines from edge_table to suffix fields : name_ok edge_table = true -> readable_fields fields ->
  are_lines (build_upsert_edge from edge_table to suffix fields +:+ nl)
    (op_lines (SinkOperation.UpsertEdge from edge_table to suffix fields)).
Proof.
  intros Ht Hf. destruct (normalize_readable edge_table _ Hf) as (_ & Hn & _).
  pose proof (fun rest => name_ok_word edge_table (":[" +:+ rest) Ht eq_refl) as Hw.
  set (relate := if decide (normalize_edge_fields edge_table fields = ∅)
    then "RELATE $from->" +:+ build_edge_id edge_table from to suffix +:+ "->$to;"
    else "RELATE $from->" +:+ build_edge_id edge_table from to suffix +:+ "->$to CONTENT " +:+
      fields_to_surql_object (normalize_edge_fields edge_table fields) +:+ ";").
  assert (E : build_upsert_edge from edge_table to suffix fields +:+ nl =
    (("LET $from = " +:+ record_call (RecordId.table from) (RecordId.id from) +:+ ";") +:+ nl) +:+
    (("LET $to = " +:+ record_call (RecordId.table to) (RecordId.id to) +:+ ";") +:+ nl) +:+ (relate +:+ nl)).
  { unfold build_upsert_edge. fold relate. by rewrite !append_assoc. }
  rewrite E. cbn [op_lines]. apply are_lines_cons; [done|apply statement_line; read_statement_text|].
  apply are_lines_cons; [done|apply statement_line; read_statement_text|].
  apply are_lines_one; [by unfold relate; destruct (decide _)|]. apply statement_line. intros rest.
  unfold relate, build_edge_id, read_statement.
  destruct (decide _) as [->|He], suffix as [suffix|]; unfold data; rewrite ?field_order_none; read_all.
Qed.

Lemma rewrites_named : Forall (fun x => name_ok (fst x) = true /\ name_ok (snd x) = true) TRIPLE_EDGE_REWRITES.
Proof. repeat constructor. Qed.

Lemma reconcile_lines id subj pred obj fields : readable_fields fields ->
  are_lines (build_reconcile_triple_draft id subj pred obj fields +:+ nl)
    (op_lines (SinkOperation.ReconcileTripleDraft id subj pred obj fields)).
Proof.
  intros Hf. pose proof (node_lines id fields Hf) as Hnode.
  set (record := record_call (RecordId.table id) (RecordId.id id)).
  set (defines := map (fun '(edge_table, _) => "DEFINE TABLE IF NOT EXISTS " +:+ edge_table +:+ " SCHEMALESS TYPE RELATION;" +:+ nl) TRIPLE_EDGE_REWRITES).
  set (updates := map (fun '(edge_table, direction) => "    UPDATE " +:+ edge_table +:+ " SET " +:+ direction +:+ " = " +:+ record +:+
    " WHERE " +:+ direction +:+ " = $d.id;" +:+ nl) TRIPLE_EDGE_REWRITES).
  set (select := "LET $drafts = (SELECT id, draftedBy FROM triple WHERE subject = " +:+ record_call "atom" subj +:+
    " AND predicate = " +:+ record_call "atom" pred +:+ " AND object = " +:+ record_call "atom" obj +:+
    " AND id != " +:+ record +:+ " AND draftedBy != NONE);").
  assert (E : build_reconcile_triple_draft id subj pred obj fields +:+ nl =
    ("DEFINE TABLE IF NOT EXISTS triple SCHEMALESS;" +:+ nl) +:+ String.concat "" defines +:+ (select +:+ nl) +:+
    ("FOR $d IN $drafts {" +:+ nl) +:+ String.concat "" updates +:+ ("    DELETE $d.id;" +:+ nl) +:+ ("};" +:+ nl) +:+
    (build_upsert_node id fields +:+ nl) +:+
    ("IF $drafts[0] != NONE AND $drafts[0].draftedBy != NONE THEN {" +:+ nl) +:+
    (("UPDATE " +:+ record +:+ " SET draftedBy = $drafts[0].draftedBy;") +:+ nl) +:+ ("} END;" +:+ nl)).
  { unfold build_reconcile_triple_draft, build_upsert_node. fold record. fold select defines updates. unfold select. by rewrite !append_assoc. }
  rewrite E. cbn [op_lines]. cbn [app]. apply are_lines_cons; [done|apply statement_line; read_statement_text|].
  apply are_lines_app.
  { apply (are_lines_map _ (fun '(edge_table, _) => DefineTable edge_table true)). intros [table dir] Hin. split; [done|].
    destruct (proj1 (Forall_forall _ _) rewrites_named _ Hin) as [Hw _].
    pose proof (fun rest => name_ok_word table (" SCHEMALESS TYPE RELATION;" +:+ rest) Hw eq_refl).
    rewrite <- !append_assoc. apply statement_line. read_statement_text. }
  apply are_lines_cons; [done|apply statement_line; unfold select; read_statement_text|].
  apply are_lines_cons; [done|apply statement_line; read_statement_text|]. apply are_lines_app.
  { apply (are_lines_map _ (fun '(edge_table, direction) => Repoint edge_table direction id direction)).
    intros [table dir] Hin. split; [done|].
    destruct (proj1 (Forall_forall _ _) rewrites_named _ Hin) as [Ht Hd]. pose proof (fun rest => name_ok_word table (" SET " +:+ rest) Ht eq_refl).
    pose proof (fun rest => name_ok_word dir (" = " +:+ rest) Hd eq_refl).
    pose proof (fun rest => name_ok_word dir (" = $d.id;" +:+ rest) Hd eq_refl).
    rewrite <- !append_assoc. apply statement_line. read_statement_text. }
  do 2 (apply are_lines_cons; [done|apply statement_line; read_statement_text|]).
  apply are_lines_cons; [done|done|].
  do 2 (apply are_lines_cons; [done|apply statement_line; read_statement_text|]).
  apply are_lines_one; [done|]. apply statement_line. read_statement_text.
Qed.

Lemma statement_lines op : readable_op op -> are_lines (build_statement op +:+ nl) (op_lines op).
Proof.
  destruct op; cbn [readable_op build_statement]; intros Hr.
  - apply are_lines_one; [done|]. by apply node_lines.
  - destruct Hr. apply edge_lines; [by apply Is_true_true|done].
  - by apply increment_lines.
  - by apply reconcile_lines.
Qed.

(** What can be read has no quotes or semicolons in its code. *)
Lemma readable_plain op : readable_op op -> plain_op op.
Proof.
  assert (Hname : forall s, name_ok s = true -> plain s = true).
  { intros s [_ Hs]%andb_true_iff. eapply all_chars_impl; [|exact Hs]. intros c.
    destruct (Ascii.eqb_spec c "'"%char) as [->|]; [done|]. by destruct (Ascii.eqb_spec c ";"%char) as [->|]. }
  assert (Hval : forall v, flat_value v = true -> plain_value v = true).
  { intros [] Hv; try done. cbn in *. apply andb_true_iff in Hv as [_ Hv]. eapply all_chars_impl; [|exact Hv]. intros c.
    destruct (Ascii.eqb_spec c "'"%char) as [->|]; [done|]. by destruct (Ascii.eqb_spec c ";"%char) as [->|]. }
  assert (Hf : forall fields, readable_fields fields -> plain_fields fields).
  { intros fields Hr k v Hkv. destruct (Hr k v Hkv). split; apply Is_true_true; [apply Hname|apply Hval]; by apply Is_true_true. }
  destruct op; cbn; [by apply Hf| |by apply Hf..].
  intros [Ht Hr]. split; [|by apply Hf]. apply Is_true_true, Hname. by apply Is_true_true.
Qed.

(** A batch reads back as the lines of its operations, between [BEGIN] and [COMMIT]. *)
Lemma batch_reads_back ops : Forall readable_op ops ->
  read_batch (build_batch_query ops) = Some (Begin :: concat (map op_lines ops) ++ [Commit]).
Proof.
  intros Hops. assert (Hl : are_lines (build_batch_query ops) (Begin :: concat (map op_lines ops) ++ [Commit])).
  { assert (E : build_batch_query ops = ("BEGIN TRANSACTION;" +:+ nl) +:+
      String.concat "" (map (fun op => build_statement op +:+ nl) ops) +:+ ("COMMIT TRANSACTION;" +:+ nl))
      by (unfold build_batch_query; by rewrite !append_assoc).
    rewrite E. apply are_lines_cons; [done|apply statement_line; read_statement_text|].
    apply are_lines_app; [|apply are_lines_one; [done|apply statement_line; read_statement_text]].
    apply (are_lines_concat (fun op => build_statement op +:+ nl)). intros op Hin. apply statement_lines.
    rewrite Forall_forall in Hops. by apply Hops. }
  destruct Hl as [Hb Hl]. unfold read_batch.
  specialize (Hl (String.length (build_batch_query ops) - length (Begin :: concat (map op_lines ops) ++ [Commit]))%nat "").
  rewrite append_empty in Hl. replace (_ + (_ - _))%nat with (String.length (build_batch_query ops)) in Hl by lia.
  rewrite Hl. destruct (_ - _)%nat; cbn; by rewrite app_nil_r.
Qed.
End Statements.
