(* ===== verification/SurrealSink.v ===== *)
(** * The SurrealDB sink

    [crates/projections/src/sink/surreal.rs], the half that talks to the server:
    [apply_batch] sends the text of SurrealQl as one query and sorts what comes
    back into errors. The connection is an opaque value; [get_connection] and
    [mark_disconnected] are those of ConnectionManager, seen from one call. *)

From stdpp Require Import pretty.
From S2P Require Import Prelude Text Events Errors WorkerWorld Traits SurrealQl.

(** [err.to_string()] of the statements that failed, in the order
    [errors.into_values()] yields them. *)
Definition Response : Type := list string.

Class SurrealWorld (Conn W : Type) := {
  surreal_get_connection : W -> result (option Conn) string * W;
  surreal_query : Conn -> string -> W -> result Response string * W;
  surreal_mark_disconnected : W -> W;
  set_surreal_connection_state : bool -> W -> W
}.

Definition is_unique_constraint_violation (msg : string) : bool :=
  let lower := to_ascii_lowercase msg in
  (contains "database index" lower && contains "already contains" lower) ||
  (contains "index" lower && contains "unique" lower).

Section Sink.
Context {Conn W : Type} `{SurrealWorld Conn W} `{FieldOrder}.

Definition batch_error (errors : Response) : ProjectionError :=
  let joined := join "; " errors in
  if is_unique_constraint_violation joined then
    ProjectionError.UniqueConstraintViolation
      ("SurrealDB batch contained " +:+ pretty (length errors) +:+ " unique-constraint error(s): " +:+ joined)
  else
    ProjectionError.Sink
      ("SurrealDB batch contained " +:+ pretty (length errors) +:+ " error(s): " +:+ joined).

Definition execute_and_check_errors (conn : Conn) (surql : string) (w : W) : result unit ProjectionError * W :=
  let '(r, w) := surreal_query conn surql w in
  match r with
  | Err e =>
      let w := set_surreal_connection_state false (surreal_mark_disconnected w) in
      (Err (ProjectionError.Surreal e), w)
  | Ok errors =>
      let w := set_surreal_connection_state true w in
      match errors with
      | [] => (Ok tt, w)
      | _ => (Err (batch_error errors), w)
      end
  end.

(** [None] is the panic of [expect] on an empty connection. *)
Definition apply_batch (ops : list SinkOperation) (w : W) : option (result unit ProjectionError) * W :=
  match ops with
  | [] => (Some (Ok tt), w)
  | _ =>
      let surql := build_batch_query ops in
      let '(r, w) := surreal_get_connection w in
      match r with
      | Err e => (Some (Err (ProjectionError.Surreal e)), w)
      | Ok None => (None, w)
      | Ok (Some conn) => let '(r, w) := execute_and_check_errors conn surql w in (Some r, w)
      end
  end.
End Sink.

Lemma contains_inside t s a b : contains t s = true -> contains t (a +:+ s +:+ b) = true.
Proof.
  rewrite !contains_spec. intros (x & y & ->). exists (a +:+ x), (y +:+ b). by rewrite !append_assoc.
Qed.

(** One refused statement makes the joined message a violation. *)
Lemma unique_in_join msg errors :
  msg ∈ errors -> is_unique_constraint_violation msg = true ->
  is_unique_constraint_violation (join "; " errors) = true.
Proof.
  intros Hin. destruct (join_part "; " msg errors Hin) as (a & b & ->).
  unfold is_unique_constraint_violation. rewrite !lowercase_app, !orb_true_iff, !andb_true_iff.
  intros [[? ?]|[? ?]]; [left|right]; split; by apply contains_inside.
Qed.

(** ** Properties *)

(** Outcomes of a sink batch. Applying no operation succeeds without touching
    the connection. Otherwise, on a live connection, the whole batch goes out in
    one query, and: it succeeds exactly when the server reports no error; a
    transport error is transient and marks the connection for reconnection; an
    error of a statement is either transient or, as soon as the message of one
    of them is a unique-index violation, fatal for the whole batch, whatever the
    other statements met. *)
Theorem surreal_batch_outcomes {Conn W} `{SurrealWorld Conn W} `{FieldOrder}
  (ops : list SinkOperation) (conn : Conn) (w w1 : W)
  (Hne : ops <> []) (Hc : surreal_get_connection w = (Ok (Some conn), w1)) :
  apply_batch (Conn := Conn) [] w = (Some (Ok tt), w) /\
  let '(reply, w2) := surreal_query conn (build_batch_query ops) w1 in
  exists r, fst (apply_batch ops w) = Some r /\
  (r = Ok tt <-> reply = Ok []) /\
  match reply with
  | Err e => r = Err (ProjectionError.Surreal e) /\
      snd (apply_batch ops w) = set_surreal_connection_state false (surreal_mark_disconnected w2)
  | Ok errors =>
      snd (apply_batch ops w) = set_surreal_connection_state true w2 /\
      forall e, r = Err e ->
        (ProjectionError.classify e = ErrorClass.Fatal <->
           is_unique_constraint_violation (join "; " errors) = true) /\
        (ProjectionError.classify e = ErrorClass.Transient <->
           is_unique_constraint_violation (join "; " errors) = false) /\
        (forall msg, msg ∈ errors -> is_unique_constraint_violation msg = true ->
           ProjectionError.classify e = ErrorClass.Fatal)
  end.
Proof.
  split; [done|]. unfold apply_batch. destruct ops as [|op ops]; [done|]. rewrite Hc.
  unfold execute_and_check_errors. cbv zeta.
  destruct (surreal_query conn (build_batch_query (op :: ops)) w1) as [[[|msg errors]|e] w2];
    eexists; (split; [done|]); cbn [fst snd].
  1: by split_and!; intros; simplify_eq.
  2: by split; [split; intros ?; simplify_eq|].
  split; [by split; intros ?; simplify_eq|]. split; [done|]. intros e [= <-]. unfold batch_error.
  destruct (is_unique_constraint_violation _) eqn:Hu; [by split_and!|].
  split_and!; [done..|]. intros m Hm Hv. by rewrite (unique_in_join m _ Hm Hv) in Hu.
Qed.

#[local] Existing Instance sorted_fields.

(** A server that answers every query with the same errors; the world counts its
    calls. *)
#[local] Instance replying_server (reply : result Response string) : SurrealWorld unit Z := {|
  surreal_get_connection w := (Ok (Some tt), w + 1);
  surreal_query _ _ w := (reply, w + 1);
  surreal_mark_disconnected w := w;
  set_surreal_connection_state _ w := w
|}.

Definition index_error : string := "Database index `idx_triple_spo` already contains ['s', 'p', 'o']".

Lemma surreal_batch_outcomes_witness :
  let ops := [SinkOperation.IncrementFields (RecordId.new "vault" "0x07") ∅] in
  let server := replying_server (Ok ["Transaction conflict"; index_error]) in
  exists r, fst (@apply_batch unit Z server sorted_fields ops 0) = Some r /\
    (forall e, r = Err e -> ProjectionError.classify e = ErrorClass.Fatal).
Proof.
  destruct (@surreal_batch_outcomes unit Z (replying_server (Ok ["Transaction conflict"; index_error]))
    sorted_fields [SinkOperation.IncrementFields (RecordId.new "vault" "0x07") ∅] tt 0 1
    ltac:(done) eq_refl) as [_ (r & Hr & _ & _ & Hcls)].
  exists r. split; [exact Hr|]. intros e He. destruct (Hcls e He) as (_ & _ & Hone).
  apply (Hone index_error); [set_solver|reflexivity].
Defined.
