(* ===== verification/SurrealProjections.v ===== *)
(** * The SurrealDB projections

    [crates/projections/src/projection/surreal/] and the helpers of
    [projection/mod.rs]: each event becomes a few sink operations, from its typed
    record or, when the typed parse failed, from the fields of its JSON payload.
    The crates' encodings are those of the class [Encodings]. *)

From Stdlib Require Import Ascii.
From stdpp Require Import pretty.
From S2P Require Import Prelude MachineInt Text Events Errors WorkerWorld Traits SurrealQl SurrealReader.

(** ** Helpers *)

(** [data.get(field)] *)
Fixpoint get_field (fields : list (string * Value)) (field : string) : option Value :=
  match fields with
  | [] => None
  | (k, v) :: fields => if String.eqb k field then Some v else get_field fields field
  end.

Definition get_str (data : Value) (field : string) : result string ProjectionError :=
  match data with
  | Object fields =>
      match get_field fields field with
      | Some (VString s) => Ok s
      | _ => Err (ProjectionError.MissingField field)
      end
  | _ => Err (ProjectionError.MissingField field)
  end.

Section Projections.
Context `{Encodings}.

Definition parse_numeric (raw field : string) : result Value ProjectionError :=
  match number_from_str raw with
  | Some n => Ok (Number n)
  | None => Err (ProjectionError.InvalidEventData (field +:+ " is not numeric: " +:+ raw))
  end.

Definition decimal_value (raw : string) : Value := VString (DECIMAL_PREFIX +:+ raw).
Definition neg_decimal_value (raw : string) : Value := VString (DECIMAL_PREFIX +:+ "-" +:+ raw).
Definition datetime_value (ts : DateTime) : Value := VString (DATETIME_PREFIX +:+ to_rfc3339 ts).

Definition decode_atom_data_hex (atom_data_hex : string) : option string :=
  let normalized_hex := default atom_data_hex (strip_prefix "0x" atom_data_hex) in
  decoded_bytes ← hex_decode normalized_hex;
  s ← from_utf8 decoded_bytes;
  if contains_char nul s then None else Some s.

(** [HashMap::from([..])] with distinct keys. *)
Definition fields_from (entries : list (string * Value)) : Fields := list_to_map entries.

(** [account:[creator]] and [vault:[term_id]] as both creation events write them. *)
Definition creator_account_op (creator : string) (ts : Value) : SinkOperation :=
  SinkOperation.UpsertNode (RecordId.new "account" creator)
    (fields_from [("address", VString creator); ("onchain", Bool true); ("updatedAt", ts)]).
Definition term_vault_op (creator term_id : string) (ts : Value) : SinkOperation :=
  SinkOperation.UpsertNode (RecordId.new "vault" term_id)
    (fields_from [("createdBy", VString creator); ("onchain", Bool true); ("updatedAt", ts)]).

(** ** [atom.rs] *)

Definition build_raw_atom_ops (creator term_id atom_data_hex display_data : string) (ts : Value)
    : list SinkOperation :=
  [creator_account_op creator ts; term_vault_op creator term_id ts;
   SinkOperation.UpsertNode (RecordId.new "atom" term_id)
     (fields_from [("data", VString display_data); ("dataHex", VString atom_data_hex);
        ("createdBy", VString creator); ("type", VString "default"); ("onchain", Bool true);
        ("updatedAt", ts); ("vault", VString term_id)])].

Definition build_atom_ops (metadata : EventMetadata) (data : AtomCreatedRecord) : list SinkOperation :=
  let display_data := default (ac_atom_data data) (decode_atom_data_hex (ac_atom_data data)) in
  build_raw_atom_ops (ac_creator data) (ac_term_id data) (ac_atom_data data) display_data
    (datetime_value (EventMetadata.block_timestamp metadata)).

Definition atom_project_parsed (event : ParsedEvent) : result (list SinkOperation) ProjectionError :=
  match event with
  | ParsedEvent.AtomCreated metadata data => Ok (build_atom_ops metadata data)
  | ParsedEvent.Unknown raw =>
      if String.eqb (StoredEvent.event_type raw) "AtomCreated" then
        let data := StoredEvent.event_data raw in
        let? creator := get_str data "creator" in
        let? term_id := get_str data "term_id" in
        let? atom_data_hex := get_str data "atom_data" in
        let display_data := default atom_data_hex (decode_atom_data_hex atom_data_hex) in
        Ok (build_raw_atom_ops creator term_id atom_data_hex display_data
              (datetime_value (StoredEvent.block_timestamp raw)))
      else Ok []
  | _ => Ok []
  end.

(** ** [triple.rs] *)

Definition build_raw_triple_ops (creator term_id subject_id predicate_id object_id : string) (ts : Value)
    : list SinkOperation :=
  [creator_account_op creator ts; term_vault_op creator term_id ts;
   SinkOperation.ReconcileTripleDraft (RecordId.new "triple" term_id) subject_id predicate_id object_id
     (fields_from [("subject", VString subject_id); ("predicate", VString predicate_id);
        ("object", VString object_id); ("createdBy", VString creator); ("onchain", Bool true);
        ("updatedAt", ts); ("vault", VString term_id)])].

Definition build_triple_ops (metadata : EventMetadata) (data : TripleCreatedRecord) : list SinkOperation :=
  build_raw_triple_ops (tc_creator data) (tc_term_id data) (tc_subject_id data) (tc_predicate_id data)
    (tc_object_id data) (datetime_value (EventMetadata.block_timestamp metadata)).

Definition triple_project_parsed (event : ParsedEvent) : result (list SinkOperation) ProjectionError :=
  match event with
  | ParsedEvent.TripleCreated metadata data => Ok (build_triple_ops metadata data)
  | ParsedEvent.Unknown raw =>
      if String.eqb (StoredEvent.event_type raw) "TripleCreated" then
        let data := StoredEvent.event_data raw in
        let? creator := get_str data "creator" in
        let? term_id := get_str data "term_id" in
        let? subject_id := get_str data "subject_id" in
        let? predicate_id := get_str data "predicate_id" in
        let? object_id := get_str data "object_id" in
        Ok (build_raw_triple_ops creator term_id subject_id predicate_id object_id
              (datetime_value (StoredEvent.block_timestamp raw)))
      else Ok []
  | _ => Ok []
  end.

(** ** [deposit.rs] *)

(** [account] upsert, edge and position of a deposit or a redemption. *)
Definition account_op (address : string) : SinkOperation :=
  SinkOperation.UpsertNode (RecordId.new "account" address) (fields_from [("address", VString address)]).

Definition vault_edge (edge_table account term_id curve_id : string) (amount : Value) (block_number : Z)
    (block_timestamp : DateTime) (transaction_hash : string) (log_index : Z) : SinkOperation :=
  SinkOperation.UpsertEdge (RecordId.new "account" account) edge_table (RecordId.new "vault" term_id)
    (Some (transaction_hash +:+ "-" +:+ pretty log_index))
    (fields_from [("blockNumber", Number (pretty block_number)); ("amount", amount);
       ("curveId", VString curve_id); ("onchain", Bool true); ("updatedAt", datetime_value block_timestamp)]).

Definition position_id (account term_id : string) : string := account +:+ "_" +:+ term_id.
Definition position_op (account term_id : string) : SinkOperation :=
  SinkOperation.UpsertNode (RecordId.new "position" (position_id account term_id))
    (fields_from [("account", VString account); ("vault", VString term_id)]).

Definition build_deposit_ops_inner (sender receiver term_id curve_id : string)
    (assets_after_fees shares : Value) (block_number : Z) (block_timestamp : DateTime)
    (transaction_hash : string) (log_index : Z) : list SinkOperation :=
  [account_op sender;
   SinkOperation.IncrementFields (RecordId.new "account" sender)
     (fields_from [("deposited", assets_after_fees); ("net", assets_after_fees)]);
   vault_edge "deposit" receiver term_id curve_id assets_after_fees block_number block_timestamp
     transaction_hash log_index;
   position_op receiver term_id;
   SinkOperation.IncrementFields (RecordId.new "position" (position_id receiver term_id))
     (fields_from [("amount", shares)]);
   SinkOperation.IncrementFields (RecordId.new "vault" term_id)
     (fields_from [("deposited", assets_after_fees)])].

Definition build_deposit_ops (metadata : EventMetadata) (data : DepositedRecord) : list SinkOperation :=
  build_deposit_ops_inner (dep_sender data) (dep_receiver data) (dep_term_id data)
    (pretty (dep_curve_id data : Z))
    (decimal_value (pretty (dep_assets_after_fees data : Z))) (decimal_value (pretty (dep_shares data : Z)))
    (EventMetadata.block_number metadata) (EventMetadata.block_timestamp metadata)
    (EventMetadata.transaction_hash metadata) (EventMetadata.log_index metadata).

Definition build_deposit_ops_raw (event : StoredEvent) : result (list SinkOperation) ProjectionError :=
  let data := StoredEvent.event_data event in
  let? sender := get_str data "sender" in
  let? receiver := get_str data "receiver" in
  let? term_id := get_str data "term_id" in
  let? curve_id := get_str data "curve_id" in
  let? assets_after_fees_raw := get_str data "assets_after_fees" in
  let? shares_raw := get_str data "shares" in
  check? parse_numeric assets_after_fees_raw "assets_after_fees" in
  check? parse_numeric shares_raw "shares" in
  Ok (build_deposit_ops_inner sender receiver term_id curve_id
        (decimal_value assets_after_fees_raw) (decimal_value shares_raw)
        (StoredEvent.block_number event) (StoredEvent.block_timestamp event)
        (StoredEvent.transaction_hash event) (StoredEvent.log_index event)).

Definition deposit_project_parsed (event : ParsedEvent) : result (list SinkOperation) ProjectionError :=
  match event with
  | ParsedEvent.Deposited metadata data => Ok (build_deposit_ops metadata data)
  | ParsedEvent.Unknown raw =>
      if String.eqb (StoredEvent.event_type raw) "Deposited" then build_deposit_ops_raw raw else Ok []
  | _ => Ok []
  end.

(** ** [redeem.rs] *)

Definition build_redeem_ops_inner (sender term_id curve_id : string)
    (assets neg_assets neg_shares : Value) (block_number : Z) (block_timestamp : DateTime)
    (transaction_hash : string) (log_index : Z) : list SinkOperation :=
  [account_op sender;
   SinkOperation.IncrementFields (RecordId.new "account" sender)
     (fields_from [("withdrawn", assets); ("net", neg_assets)]);
   vault_edge "withdraw" sender term_id curve_id assets block_number block_timestamp
     transaction_hash log_index;
   position_op sender term_id;
   SinkOperation.IncrementFields (RecordId.new "position" (position_id sender term_id))
     (fields_from [("amount", neg_shares)]);
   SinkOperation.IncrementFields (RecordId.new "vault" term_id)
     (fields_from [("deposited", neg_assets)])].

Definition build_redeem_ops (metadata : EventMetadata) (data : RedeemedRecord) : list SinkOperation :=
  let assets_str := pretty (red_assets data : Z) in
  let shares_str := pretty (red_shares data : Z) in
  build_redeem_ops_inner (red_sender data) (red_term_id data) (pretty (red_curve_id data : Z))
    (decimal_value assets_str) (neg_decimal_value assets_str) (neg_decimal_value shares_str)
    (EventMetadata.block_number metadata) (EventMetadata.block_timestamp metadata)
    (EventMetadata.transaction_hash metadata) (EventMetadata.log_index metadata).

Definition build_redeem_ops_raw (event : StoredEvent) : result (list SinkOperation) ProjectionError :=
  let data := StoredEvent.event_data event in
  let? sender := get_str data "sender" in
  let? term_id := get_str data "term_id" in
  let? curve_id := get_str data "curve_id" in
  let? assets_raw := get_str data "assets" in
  let? shares_raw := get_str data "shares" in
  check? parse_numeric assets_raw "assets" in
  check? parse_numeric shares_raw "shares" in
  Ok (build_redeem_ops_inner sender term_id curve_id
        (decimal_value assets_raw) (neg_decimal_value assets_raw) (neg_decimal_value shares_raw)
        (StoredEvent.block_number event) (StoredEvent.block_timestamp event)
        (StoredEvent.transaction_hash event) (StoredEvent.log_index event)).

Definition redeem_project_parsed (event : ParsedEvent) : result (list SinkOperation) ProjectionError :=
  match event with
  | ParsedEvent.Redeemed metadata data => Ok (build_redeem_ops metadata data)
  | ParsedEvent.Unknown raw =>
      if String.eqb (StoredEvent.event_type raw) "Redeemed" then build_redeem_ops_raw raw else Ok []
  | _ => Ok []
  end.

(** ** [price.rs] and [fee.rs] *)

Definition build_vault_price_op (term_id share_price : string) : SinkOperation :=
  SinkOperation.UpsertNode (RecordId.new "vault" term_id) (fields_from [("price", VString share_price)]).

Definition build_price_ops (data : SharePriceChangedRecord) : list SinkOperation :=
  [build_vault_price_op (spc_term_id data) (pretty (spc_share_price data : Z))].

Definition price_project_parsed (event : ParsedEvent) : result (list SinkOperation) ProjectionError :=
  match event with
  | ParsedEvent.SharePriceChanged _ data => Ok (build_price_ops data)
  | ParsedEvent.Unknown raw =>
      if String.eqb (StoredEvent.event_type raw) "SharePriceChanged" then
        let? term_id := get_str (StoredEvent.event_data raw) "term_id" in
        let? share_price := get_str (StoredEvent.event_data raw) "share_price" in
        Ok [build_vault_price_op term_id share_price]
      else Ok []
  | _ => Ok []
  end.

Definition build_fee_ops (data : ProtocolFeeAccruedRecord) : list SinkOperation := [account_op (pfa_sender data)].

Definition fee_project_parsed (event : ParsedEvent) : result (list SinkOperation) ProjectionError :=
  match event with
  | ParsedEvent.ProtocolFeeAccrued _ data => Ok (build_fee_ops data)
  | ParsedEvent.Unknown raw =>
      if String.eqb (StoredEvent.event_type raw) "ProtocolFeeAccrued" then
        let? sender := get_str (StoredEvent.event_data raw) "sender" in
        Ok [account_op sender]
      else Ok []
  | _ => Ok []
  end.

(** ** The projections *)

Context `{EventCodecs}.

(** [project] is the same everywhere: parse, then [project_parsed]. *)
Definition typed_projection (name : string) (types : list EventType.EventType)
    (project_parsed : ParsedEvent -> result (list SinkOperation) ProjectionError) : Projection := {|
  event_types := types;
  Traits.name := name;
  project event := project_parsed (fst (ParsedEvent.parse_or_unknown event));
  Traits.project_parsed := project_parsed
|}.

Definition AtomProjection : Projection :=
  typed_projection "atom" [EventType.AtomCreated] atom_project_parsed.
Definition TripleProjection : Projection :=
  typed_projection "triple" [EventType.TripleCreated] triple_project_parsed.
Definition DepositProjection : Projection :=
  typed_projection "deposit" [EventType.Deposited] deposit_project_parsed.
Definition RedeemProjection : Projection :=
  typed_projection "redeem" [EventType.Redeemed] redeem_project_parsed.
Definition PriceProjection : Projection :=
  typed_projection "price" [EventType.SharePriceChanged] price_project_parsed.
Definition FeeProjection : Projection :=
  typed_projection "fee" [EventType.ProtocolFeeAccrued] fee_project_parsed.

Definition all_projections : list Projection :=
  [AtomProjection; TripleProjection; DepositProjection; RedeemProjection; PriceProjection; FeeProjection].
End Projections.

(** ** Every operation is well formed *)

Section WellFormed.
Context `{Encodings} `{EventCodecs}.

Lemma readable_fields_from entries :
  forallb (fun '(k, v) => name_ok k && flat_value v) entries = true -> readable_fields (fields_from entries).
Proof.
  rewrite forallb_forall. intros Hall k v Hkv. apply elem_of_list_to_map_2 in Hkv.
  rewrite list_elem_of_In in Hkv. specialize (Hall _ Hkv). cbn in Hall.
  apply andb_true_iff in Hall as [Hk Hv]. by split; apply Is_true_true.
Qed.

Ltac readable_ops :=
  repeat apply Forall_cons_2; try apply Forall_nil_2;
  unfold vault_edge, creator_account_op, term_vault_op, account_op, position_op; cbn [readable_op];
  try match goal with |- _ /\ _ => split; [done|] end;
  apply readable_fields_from; cbn [forallb flat_value].

Lemma readable_deposit sender receiver term curve a s bn bt tx li :
  flat_value a = true -> flat_value s = true ->
  Forall readable_op (build_deposit_ops_inner sender receiver term curve a s bn bt tx li).
Proof.
  intros Ha Hs. readable_ops; by rewrite ?Ha, ?Hs, ?flat_pretty.
Qed.

Lemma readable_redeem sender term curve a na ns bn bt tx li :
  flat_value a = true -> flat_value na = true -> flat_value ns = true ->
  Forall readable_op (build_redeem_ops_inner sender term curve a na ns bn bt tx li).
Proof.
  intros Ha Hna Hs. readable_ops; by rewrite ?Ha, ?Hna, ?Hs, ?flat_pretty.
Qed.

Lemma readable_atom creator term hex display ts : flat_value ts = true ->
  Forall readable_op (build_raw_atom_ops creator term hex display ts).
Proof.
  intros Ht. readable_ops; by rewrite ?Ht.
Qed.

Lemma readable_triple creator term s p o ts : flat_value ts = true ->
  Forall readable_op (build_raw_triple_ops creator term s p o ts).
Proof.
  intros Ht. readable_ops; by rewrite ?Ht.
Qed.

Lemma readable_single term_op : readable_op term_op -> Forall readable_op [term_op].
Proof. intros. by apply Forall_cons_2; [|apply Forall_nil_2]. Qed.

Lemma projection_readable P event ops :
  P ∈ all_projections -> project_parsed P event = Ok ops -> Forall readable_op ops.
Proof.
  intros HP Hops. unfold all_projections in HP. rewrite !elem_of_cons, elem_of_nil in HP.
  assert (Hnil : Forall readable_op []) by apply Forall_nil_2.
  destruct_or! HP; subst P; destruct event; cbn in Hops; simplify_eq; try done;
    try (case_match; [|by simplify_eq]);
    try unfold build_deposit_ops_raw in Hops; try unfold build_redeem_ops_raw in Hops;
    inv_res; simplify_eq;
    unfold build_atom_ops, build_triple_ops, build_deposit_ops, build_redeem_ops;
    auto using readable_atom, readable_triple, readable_deposit, readable_redeem;
    apply readable_single, readable_fields_from; done.
Qed.
End WellFormed.

(** ** Typed and raw events *)

(** The payload fields a projection reads of an event, as its JSON holds them. *)
Definition text_fields (event : ParsedEvent) : list (string * string) :=
  match event with
  | ParsedEvent.AtomCreated _ d =>
      [("creator", ac_creator d); ("term_id", ac_term_id d); ("atom_data", ac_atom_data d)]
  | ParsedEvent.TripleCreated _ d =>
      [("creator", tc_creator d); ("term_id", tc_term_id d); ("subject_id", tc_subject_id d);
       ("predicate_id", tc_predicate_id d); ("object_id", tc_object_id d)]
  | ParsedEvent.Deposited _ d =>
      [("sender", dep_sender d); ("receiver", dep_receiver d); ("term_id", dep_term_id d);
       ("curve_id", pretty (dep_curve_id d : Z)); ("assets_after_fees", pretty (dep_assets_after_fees d : Z));
       ("shares", pretty (dep_shares d : Z))]
  | ParsedEvent.Redeemed _ d =>
      [("sender", red_sender d); ("term_id", red_term_id d); ("curve_id", pretty (red_curve_id d : Z));
       ("assets", pretty (red_assets d : Z)); ("shares", pretty (red_shares d : Z))]
  | ParsedEvent.SharePriceChanged _ d =>
      [("term_id", spc_term_id d); ("share_price", pretty (spc_share_price d : Z))]
  | ParsedEvent.ProtocolFeeAccrued _ d => [("sender", pfa_sender d)]
  | _ => []
  end.

(** The amounts of an event are [uint256]s. *)
Definition amounts_ok (event : ParsedEvent) : Prop :=
  match event with
  | ParsedEvent.Deposited _ d => is_u256 (dep_assets_after_fees d) /\ is_u256 (dep_shares d)
  | ParsedEvent.Redeemed _ d => is_u256 (red_assets d) /\ is_u256 (red_shares d)
  | _ => True
  end.

Section Parity.
Context `{Encodings} `{EventCodecs}.

Lemma parse_numeric_uint256 n field : is_u256 n -> exists v, parse_numeric (pretty n) field = Ok v.
Proof. intros Hn. unfold parse_numeric. destruct (number_of_uint256 n Hn) as [v ->]. eauto. Qed.

Lemma typed_raw_parity P event metadata v :
  P ∈ all_projections ->
  ParsedEvent.metadata event = EventMetadataRef.Owned metadata ->
  EventMetadata.event_type metadata = match ParsedEvent._parsed_event_exhaustive_check event with
                                      | Some t => EventType.as_str t | None => "" end ->
  amounts_ok event -> Forall (fun '(k, s) => get_str v k = Ok s) (text_fields event) ->
  project_parsed P event =
  project_parsed P (ParsedEvent.Unknown (ParsedEvent.stored_event_from_parts metadata v)).
Proof.
  intros HP Hm Ht Ha Hf. unfold all_projections in HP. rewrite !elem_of_cons, elem_of_nil in HP.
  destruct event; cbn in Hm, Ht, Ha; try done; injection Hm as ->;
    cbn [text_fields] in Hf; rewrite ?Forall_cons in Hf;
    destruct_or! HP; subst P; cbn; rewrite Ht; cbn; try done;
    unfold build_deposit_ops_raw, build_redeem_ops_raw; cbn; destruct_and! Hf;
    repeat match goal with Hg : get_str v _ = Ok _ |- _ => rewrite Hg; clear Hg; cbn [res_bind] end; try done;
    destruct Ha as [Ha1 Ha2];
    repeat match goal with Hn : is_u256 ?n |- context [parse_numeric (pretty ?n) ?f] =>
      let x := fresh in destruct (parse_numeric_uint256 n f Hn) as [? x]; rewrite x; clear x; cbn [res_bind] end;
    done.
Qed.
End Parity.

(** ** What the increments add up to *)

(** The number a decimal value carries. *)
Definition amount_of (v : Value) : option Z :=
  match v with
  | VString s => raw ← strip_prefix DECIMAL_PREFIX s; integer raw
  | _ => None
  end.

(** What an operation adds to a field of a record, and a list of them. *)
Definition increment (table id field : string) (op : SinkOperation) : Z :=
  match op with
  | SinkOperation.IncrementFields r incs =>
      if decide (RecordId.table r = table /\ RecordId.id r = id) then default 0 (incs !! field ≫= amount_of) else 0
  | _ => 0
  end.
Definition total {A} (f : A -> Z) (l : list A) : Z := foldr (fun x n => f x + n) 0 l.

Lemma total_app {A} (f : A -> Z) l1 l2 : total f (l1 ++ l2) = total f l1 + total f l2.
Proof. unfold total. induction l1 as [|x l1 IH]; cbn [app foldr]; lia. Qed.

Section Balances.
Context `{Encodings} `{EventCodecs}.

Definition ops_of (P : Projection) (event : ParsedEvent) : list SinkOperation :=
  match project_parsed P event with Ok ops => ops | Err _ => [] end.

(** Both projections of the transfers, on every event. *)
Definition transfer_ops (events : list ParsedEvent) : list SinkOperation :=
  concat (map (fun e => ops_of DepositProjection e ++ ops_of RedeemProjection e) events).

(** The contribution of an event to a sum over deposits or over redemptions. *)
Definition deposit_sum (p : DepositedRecord -> bool) (f : DepositedRecord -> Z) (event : ParsedEvent) : Z :=
  match event with ParsedEvent.Deposited _ d => if p d then f d else 0 | _ => 0 end.
Definition redeem_sum (p : RedeemedRecord -> bool) (f : RedeemedRecord -> Z) (event : ParsedEvent) : Z :=
  match event with ParsedEvent.Redeemed _ d => if p d then f d else 0 | _ => 0 end.

Lemma amount_decimal (n : Z) : amount_of (decimal_value (pretty n)) = Some n.
Proof.
  unfold amount_of, decimal_value. rewrite strip_prefix_app. cbn [mbind option_bind].
  apply integer_pretty.
Qed.

Lemma amount_negated (n : Z) : 0 <= n -> amount_of (neg_decimal_value (pretty n)) = Some (- n).
Proof.
  intros Hn. unfold amount_of, neg_decimal_value. rewrite strip_prefix_app. cbn [mbind option_bind].
  by apply integer_negated.
Qed.

Definition typed_transfer (event : ParsedEvent) : Prop :=
  match event with ParsedEvent.Unknown _ => False | _ => amounts_ok event end.

Lemma event_totals e : typed_transfer e ->
  let ops := ops_of DepositProjection e ++ ops_of RedeemProjection e in
  forall a k t,
  total (increment "account" a "deposited") ops =
    deposit_sum (fun d => bool_decide (dep_sender d = a)) dep_assets_after_fees e /\
  total (increment "account" a "withdrawn") ops =
    redeem_sum (fun d => bool_decide (red_sender d = a)) red_assets e /\
  total (increment "account" a "net") ops =
    deposit_sum (fun d => bool_decide (dep_sender d = a)) dep_assets_after_fees e -
    redeem_sum (fun d => bool_decide (red_sender d = a)) red_assets e /\
  total (increment "position" k "amount") ops =
    deposit_sum (fun d => bool_decide (position_id (dep_receiver d) (dep_term_id d) = k)) dep_shares e -
    redeem_sum (fun d => bool_decide (position_id (red_sender d) (red_term_id d) = k)) red_shares e /\
  total (increment "vault" t "deposited") ops =
    deposit_sum (fun d => bool_decide (dep_term_id d = t)) dep_assets_after_fees e -
    redeem_sum (fun d => bool_decide (red_term_id d = t)) red_assets e.
Proof.
  intros He ops a k t. subst ops. destruct e; cbn in He; try done; cbn [deposit_sum redeem_sum].
  - destruct He as [Ha Hs]. cbn. simpl_map. cbn [mbind option_bind]. rewrite !amount_decimal. cbn [default].
    split_and!; repeat case_decide; repeat case_bool_decide; naive_solver lia.
  - destruct He as [Ha Hs]. cbn. simpl_map. cbn [mbind option_bind].
    rewrite !amount_decimal, !amount_negated by (apply Ha || apply Hs). cbn [default].
    split_and!; repeat case_decide; repeat case_bool_decide; naive_solver lia.
Qed.
End Balances.

(** ** Properties *)

(** C7 (projected text). Whatever batch of operations the SurrealDB projections
    produce, from typed or raw events, the query text built of it reads back as
    exactly the statements of those operations, between [BEGIN] and [COMMIT]: their kind,
    their records, the ends of their edges, and every field by name with its value as the
    sink coerces it for the table. A string comes back unchanged, except that one the sink
    takes for a sentinel comes back as the decimal, time or record link it is sent as
    ([atom_payload_retyped] says which). Read as mere tokens, the text has those
    statements and no more, and its literals are the strings of the operations,
    unescaped and in order: no event data ends its literal or adds a statement. *)
Theorem projected_text_reads_back `{FieldOrder} `{Encodings} `{EventCodecs} (ops : list SinkOperation)
  (Hops : Forall (fun op => exists P event emitted,
     P ∈ all_projections /\ project_parsed P event = Ok emitted /\ op ∈ emitted) ops) :
  read_batch (build_batch_query ops) = Some (Begin :: concat (map op_lines ops) ++ [Commit]) /\
  exists ts,
    lex None (build_batch_query ops) = Some ts /\
    literals_of ts = concat (map op_literals ops) /\
    statements_of ts = (2 + sum_list_with op_statements ops)%nat.
Proof.
  assert (Hr : Forall readable_op ops).
  { eapply Forall_impl; [exact Hops|]. intros op (P & event & emitted & HP & He & Hin).
    pose proof (projection_readable P event emitted HP He) as Hp. rewrite Forall_forall in Hp. by apply Hp. }
  split; [by apply batch_reads_back|]. apply reads_batch. eapply Forall_impl; [exact Hr|]. apply readable_plain.
Qed.

(** Raw events. An event whose typed parse failed is projected exactly as the
    typed event would be, by every projection, when its payload holds the record's
    fields as strings and the amounts are [uint256]s. *)
Theorem raw_fallback_equivalent `{Encodings} `{EventCodecs} (P : Projection) (event : ParsedEvent)
  (metadata : EventMetadata) (t : EventType.EventType) (v : Value)
  (HP : P ∈ all_projections)
  (Hm : ParsedEvent.metadata event = EventMetadataRef.Owned metadata)
  (Ht : ParsedEvent._parsed_event_exhaustive_check event = Some t)
  (Hn : EventMetadata.event_type metadata = EventType.as_str t)
  (Ha : amounts_ok event)
  (Hf : Forall (fun '(k, s) => get_str v k = Ok s) (text_fields event)) :
  project_parsed P event =
  project_parsed P (ParsedEvent.Unknown (ParsedEvent.stored_event_from_parts metadata v)).
Proof. apply typed_raw_parity; [done|done| |done|done]. by rewrite Ht. Qed.

(** Graph balances. The increments the deposit and redeem projections emit
    for any list of typed transfers add up, per record, to the transfers: an
    account's [deposited] and [withdrawn] are what it sent in and took out, its
    [net] their difference, a position's [amount] the shares it received less
    those it redeemed, and a vault's [deposited] the assets put in less those
    taken out. *)
Theorem graph_balances `{Encodings} `{EventCodecs} (events : list ParsedEvent) (a k t : string)
  (He : Forall typed_transfer events) :
  let ops := transfer_ops events in
  let sent := deposit_sum (fun d => bool_decide (dep_sender d = a)) dep_assets_after_fees in
  let taken := redeem_sum (fun d => bool_decide (red_sender d = a)) red_assets in
  total (increment "account" a "deposited") ops = total sent events /\
  total (increment "account" a "withdrawn") ops = total taken events /\
  total (increment "account" a "net") ops = total sent events - total taken events /\
  total (increment "position" k "amount") ops =
    total (deposit_sum (fun d => bool_decide (position_id (dep_receiver d) (dep_term_id d) = k)) dep_shares) events -
    total (redeem_sum (fun d => bool_decide (position_id (red_sender d) (red_term_id d) = k)) red_shares) events /\
  total (increment "vault" t "deposited") ops =
    total (deposit_sum (fun d => bool_decide (dep_term_id d = t)) dep_assets_after_fees) events -
    total (redeem_sum (fun d => bool_decide (red_term_id d = t)) red_assets) events.
Proof.
  cbv zeta. unfold transfer_ops. induction He as [|e events He _ IH]; [done|].
  destruct (event_totals e He a k t) as (H1 & H2 & H3 & H4 & H5).
  destruct IH as (I1 & I2 & I3 & I4 & I5). cbn [map concat]. rewrite !(total_app _ (_ ++ _) _).
  rewrite H1, H2, H3, H4, H5, I1, I2, I3, I4, I5. cbn [total foldr].
  unfold total. split_and!; lia.
Qed.

(** Payloads taken for sentinels. The decoded payload of an atom is stored as
    the string it is exactly when it is not of the forms the sink reads
    as something else. Payloads are chosen by users: one that begins with
    [decimal:] or [datetime:] is sent as a cast of its remainder, whatever that
    is, and one that looks like a link into a known table as a record link. *)
Theorem atom_payload_retyped `{Encodings} `{EventCodecs} (metadata : EventMetadata)
  (data : AtomCreatedRecord) (payload : string)
  (Hp : decode_atom_data_hex (ac_atom_data data) = Some payload) :
  exists account vault fields,
    project_parsed AtomProjection (ParsedEvent.AtomCreated metadata data) =
      Ok [account; vault; SinkOperation.UpsertNode (RecordId.new "atom" (ac_term_id data)) fields] /\
    let text := value_to_surql <$> normalize_node_fields "atom" fields !! "data" in
    (text = Some (quoted payload) <->
       strip_prefix DECIMAL_PREFIX payload = None /\ strip_prefix DATETIME_PREFIX payload = None /\
       parse_record_link payload = None) /\
    (forall raw, payload = DECIMAL_PREFIX +:+ raw -> text = Some ("<decimal>" +:+ quoted raw)) /\
    (forall raw, payload = DATETIME_PREFIX +:+ raw -> text = Some ("type::datetime(" +:+ quoted raw +:+ ")")).
Proof.
  do 3 eexists. split; [reflexivity|]. cbv zeta. rewrite Hp.
  assert (Htext : forall entries, value_to_surql <$> normalize_node_fields "atom"
      (fields_from (("data", VString (default (ac_atom_data data) (Some payload))) :: entries)) !! "data" =
    Some (value_string_to_surql payload)).
  { intros entries. unfold normalize_node_fields, normalize_with. rewrite map_lookup_imap.
    unfold fields_from. cbn [list_to_map foldr uncurry]. by rewrite lookup_insert_eq. }
  rewrite Htext. unfold value_string_to_surql. clear Htext. split_and!.
  - assert (Hno : forall c u, c <> "'"%char -> Some (String c u) <> Some (quoted payload)).
    { intros c u Hc [= ->]. done. }
    destruct (strip_prefix DECIMAL_PREFIX payload) as [raw|].
    { split; [by intros ?%(Hno "<"%char)|by intros (? & _)]. }
    destruct (strip_prefix DATETIME_PREFIX payload) as [raw|].
    { split; [by intros ?%(Hno "t"%char)|by intros (_ & ? & _)]. }
    destruct (parse_record_link payload) as [[table id]|]; [|done].
    split; [by intros ?%(Hno "t"%char)|by intros (_ & _ & ?)].
  - intros raw ->. by rewrite strip_prefix_app.
  - intros raw ->. change (strip_prefix DECIMAL_PREFIX (DATETIME_PREFIX +:+ raw)) with (@None string).
    by rewrite strip_prefix_app.
Qed.

#[local] Existing Instance sample_codecs.
#[local] Existing Instance demo_encodings.
#[local] Existing Instance sorted_fields.

Definition graph_metadata (ty : string) : EventMetadata := EventMetadata.from_event (sample_event 1 ty Null).
Definition graph_atom (term_id payload : string) : AtomCreatedRecord := {|
  ac_creator := "0xc"; ac_term_id := term_id; ac_atom_data := "0x" +:+ demo_hex_encode payload;
  ac_atom_wallet := "0xw" |}.
Definition graph_deposit : ParsedEvent :=
  ParsedEvent.Deposited (graph_metadata "Deposited")
    {| dep_sender := "0xs"; dep_receiver := "0xr"; dep_term_id := "0x07"; dep_curve_id := 1;
       dep_assets := 10; dep_assets_after_fees := 9; dep_shares := 8; dep_total_shares := 8;
       dep_vault_type := 0 |}.
Definition graph_redeem : ParsedEvent :=
  ParsedEvent.Redeemed (graph_metadata "Redeemed")
    {| red_sender := "0xr"; red_receiver := "0xr"; red_term_id := "0x07"; red_curve_id := 1;
       red_shares := 3; red_total_shares := 5; red_assets := 4; red_fees := 0; red_vault_type := 0 |}.

(** An atom whose id tries to end its literal and delete a table. *)
Lemma projected_text_reads_back_witness :
  let ops := ops_of AtomProjection
    (ParsedEvent.AtomCreated (graph_metadata "AtomCreated") (graph_atom "x'); DELETE atom; --" "it's \'; done")) in
  (exists account vault atom, read_batch (build_batch_query ops) = Some [Begin;
     UpsertMerge (RecordId.new "account" "0xc") account;
     UpsertMerge (RecordId.new "vault" "x'); DELETE atom; --") vault;
     UpsertMerge (RecordId.new "atom" "x'); DELETE atom; --") atom; Commit] /\
     In ("address", DText "0xc") account /\ In ("createdBy", DRecord (RecordId.new "account" "0xc")) vault /\
     In ("data", DText "it's \'; done") atom /\ In ("onchain", DBool true) atom) /\
  exists ts, lex None (build_batch_query ops) = Some ts /\ statements_of ts = 5%nat /\
    In "x'); DELETE atom; --" (literals_of ts) /\ In "it's \'; done" (literals_of ts).
Proof.
  set (event := ParsedEvent.AtomCreated (graph_metadata "AtomCreated")
    (graph_atom "x'); DELETE atom; --" "it's \'; done")).
  destruct (projected_text_reads_back (ops_of AtomProjection event)) as (Hread & ts & Hl & Hlit & Hn).
  - apply Forall_forall. intros op Hin. exists AtomProjection, event, (ops_of AtomProjection event).
    split; [left|]. split; [reflexivity|exact Hin].
  - split.
    { do 3 eexists. split; [rewrite Hread; vm_compute; reflexivity|]. vm_compute. tauto. }
    exists ts. split; [exact Hl|]. split; [rewrite Hn; reflexivity|]. rewrite Hlit.
    split; vm_compute; tauto.
Defined.

Lemma raw_fallback_equivalent_witness :
  project_parsed DepositProjection graph_deposit =
  project_parsed DepositProjection (ParsedEvent.Unknown
    (ParsedEvent.stored_event_from_parts (graph_metadata "Deposited")
       (Object [("sender", VString "0xs"); ("receiver", VString "0xr"); ("term_id", VString "0x07");
                ("curve_id", VString "1"); ("assets_after_fees", VString "9"); ("shares", VString "8")]))).
Proof.
  apply (raw_fallback_equivalent DepositProjection graph_deposit (graph_metadata "Deposited") EventType.Deposited).
  - unfold all_projections. right. right. left.
  - reflexivity.
  - reflexivity.
  - reflexivity.
  - split; split; vm_compute; discriminate.
  - repeat constructor.
Defined.

Lemma graph_balances_witness :
  total (increment "position" "0xr_0x07" "amount") (transfer_ops [graph_deposit; graph_redeem]) = 5 /\
  total (increment "account" "0xr" "net") (transfer_ops [graph_deposit; graph_redeem]) = -4.
Proof.
  destruct (graph_balances [graph_deposit; graph_redeem] "0xr" "0xr_0x07" "0x07") as (_ & _ & Hnet & Hpos & _).
  - repeat constructor; vm_compute; discriminate.
  - split; [exact Hpos|exact Hnet].
Defined.

Lemma atom_payload_retyped_witness :
  let atom := graph_atom "0x07" "datetime:tomorrow" in
  decode_atom_data_hex (ac_atom_data atom) = Some "datetime:tomorrow" /\
  exists fields, value_to_surql <$> normalize_node_fields "atom" fields !! "data" = Some "type::datetime('tomorrow')".
Proof.
  intros atom. assert (Hp : decode_atom_data_hex (ac_atom_data atom) = Some "datetime:tomorrow")
    by (vm_compute; reflexivity).
  split; [exact Hp|].
  destruct (atom_payload_retyped (graph_metadata "AtomCreated") atom "datetime:tomorrow" Hp)
    as (_ & _ & fields & _ & _ & _ & Hd).
  exists fields. exact (Hd "tomorrow" eq_refl).
Defined.
