(* ===== verification/DeadLetter.v ===== *)
(** * The dead-letter table

    [crates/projections/src/repo/dead_letter_repo.rs]: events a projection
    cannot process are kept in [projection_dead_letter], one row per projection
    and sequence number. The table is the map of its rows; a statement is a
    function on it that the database executes or fails to. *)

From S2P Require Import Prelude Events Errors Retry WorkerWorld.

Record DeadLetterRow := {
  dl_event_type : string;
  dl_error_class : string;
  dl_error_message : string;
  dl_event_data : Value;
  dl_block_number : Z;
  dl_log_index : Z;
  dl_tx_hash : string
}.

(** Keyed by [(projection_name, sequence_number)], its unique constraint. *)
Abbreviation DeadLetterTable := (gmap (string * Z) DeadLetterRow).

(** [INSERT .. ON CONFLICT (projection_name, sequence_number) DO NOTHING] *)
Definition insert_dead_letter (projection_name : string) (sequence_number : Z) (row : DeadLetterRow)
    (t : DeadLetterTable) : DeadLetterTable :=
  match t !! (projection_name, sequence_number) with
  | Some _ => t
  | None => <[(projection_name, sequence_number) := row]> t
  end.

Class DeadLetterWorld (W : Type) := {
  dead_letter_worker :: WorkerWorld W;
  execute : (DeadLetterTable -> DeadLetterTable) -> W -> result unit ProjectionError * W
}.

(** [{:?}] *)
Definition error_class_debug (c : ErrorClass.ErrorClass) : string :=
  match c with
  | ErrorClass.Fatal => "Fatal"
  | ErrorClass.Transient => "Transient"
  | ErrorClass.CircuitProtected => "CircuitProtected"
  end.

Section Repo.
Context {W : Type} `{DeadLetterWorld W} `{EventCodecs}.

Definition record_fatal (projection_name : string) (sequence_number : Z) (row : DeadLetterRow) (w : W)
    : result unit ProjectionError * W :=
  execute (insert_dead_letter projection_name sequence_number row) w.

Definition dead_letter_row (event_type : string) (err : ProjectionError) (stored : StoredEvent)
    : DeadLetterRow := {|
  dl_event_type := event_type;
  dl_error_class := error_class_debug (ProjectionError.classify err);
  dl_error_message := ProjectionError.to_string err;
  dl_event_data := StoredEvent.event_data stored;
  dl_block_number := StoredEvent.block_number stored;
  dl_log_index := StoredEvent.log_index stored;
  dl_tx_hash := StoredEvent.transaction_hash stored |}.

Definition record_fatal_event (projection_name : string) (event : ParsedEvent) (err : ProjectionError)
    (w : W) : W :=
  let event_type := ParsedEvent.event_type event in
  match ParsedEvent.as_stored_event event with
  | Err _ => record (RecordDeadLetter projection_name event_type) w
  | Ok stored =>
      let w := record (RecordDeadLetter projection_name event_type) w in
      snd (record_fatal projection_name (StoredEvent.sequence_number stored)
             (dead_letter_row event_type err stored) w)
  end.
End Repo.

Lemma insert_dead_letter_keeps p s row t k old :
  t !! k = Some old -> insert_dead_letter p s row t !! k = Some old.
Proof.
  intros Hk. unfold insert_dead_letter. case_match; [done|].
  rewrite lookup_insert_ne; [done|]. intros <-. congruence.
Qed.

Lemma insert_dead_letter_present p s row t : is_Some (insert_dead_letter p s row t !! (p, s)).
Proof.
  unfold insert_dead_letter. destruct (t !! (p, s)) eqn:Ht; [by rewrite Ht|].
  rewrite lookup_insert_eq. eauto.
Qed.

Lemma insert_dead_letter_fresh p s row t k :
  t !! k = None -> k <> (p, s) -> insert_dead_letter p s row t !! k = None.
Proof.
  intros Hk Hne. unfold insert_dead_letter. case_match; [done|]. by rewrite lookup_insert_ne.
Qed.

Lemma insert_dead_letter_new p s row t :
  t !! (p, s) = None -> insert_dead_letter p s row t !! (p, s) = Some row.
Proof. intros Hn. unfold insert_dead_letter. by rewrite Hn, lookup_insert_eq. Qed.
