(* ===== verification/DemoWorld.v ===== *)
(** * A concrete world

    An in-memory instance of [WorkerWorld], used to run the workers on concrete
    inputs: a clock the sleeps advance, two breakers, an event log, the checkpoint
    table of [Checkpoint], the dead-letter table, the writes that reached the target and the errors the
    next writes meet. *)

From S2P Require Import Prelude MachineInt Events Errors CircuitBreaker Retry EventSource Checkpoint WorkerWorld DeadLetter.

Section Demo.
Context {A : Type}.

Record demo := {
  dw_time : Instant;
  dw_tick : Z;
  dw_breaker : CircuitBreaker;
  dw_rows : list StoredEvent;
  dw_checkpoints : { t : CheckpointTable | table_ok t };
  dw_applied : list A;
  dw_errors : list ProjectionError;
  dw_stop : option Instant;
  dw_dead : DeadLetterTable;
  dw_surreal : CircuitBreaker
}.

Definition dw_set_breaker (cb : CircuitBreaker) (w : demo) : demo := {|
  dw_time := dw_time w; dw_tick := dw_tick w; dw_breaker := cb; dw_rows := dw_rows w;
  dw_checkpoints := dw_checkpoints w; dw_applied := dw_applied w; dw_errors := dw_errors w;
  dw_stop := dw_stop w; dw_dead := dw_dead w; dw_surreal := dw_surreal w |}.
Definition dw_set_time (t : Instant) (tick : Z) (w : demo) : demo := {|
  dw_time := t; dw_tick := tick; dw_breaker := dw_breaker w; dw_rows := dw_rows w;
  dw_checkpoints := dw_checkpoints w; dw_applied := dw_applied w; dw_errors := dw_errors w;
  dw_stop := dw_stop w; dw_dead := dw_dead w; dw_surreal := dw_surreal w |}.
Definition dw_set_checkpoints (c : { t : CheckpointTable | table_ok t }) (w : demo) : demo := {|
  dw_time := dw_time w; dw_tick := dw_tick w; dw_breaker := dw_breaker w; dw_rows := dw_rows w;
  dw_checkpoints := c; dw_applied := dw_applied w; dw_errors := dw_errors w;
  dw_stop := dw_stop w; dw_dead := dw_dead w; dw_surreal := dw_surreal w |}.
Definition dw_set_target (l : list A) (es : list ProjectionError) (w : demo) : demo := {|
  dw_time := dw_time w; dw_tick := dw_tick w; dw_breaker := dw_breaker w; dw_rows := dw_rows w;
  dw_checkpoints := dw_checkpoints w; dw_applied := l; dw_errors := es; dw_stop := dw_stop w; dw_dead := dw_dead w; dw_surreal := dw_surreal w |}.

#[global] Instance demo_retry : RetryWorld demo := {|
  breaker := dw_breaker;
  set_breaker := dw_set_breaker;
  now := dw_time;
  next_rand w := (rand_u64 (dw_tick w) (dw_time w), dw_set_time (dw_time w) (dw_tick w + 1) w);
  sleep d w := dw_set_time (dw_time w + d) (dw_tick w) w;
  beat w := w;
  emit _ w := w
|}.

(** A sink name with a colon is refused. *)
Definition dw_save (name sink : string) (s : SequenceNumber) (b : BlockNumber) (w : demo)
    : result unit ProjectionError * demo :=
  match decide (has_colon sink = false) with
  | left H =>
      let t := dw_checkpoints w in
      (Ok tt, dw_set_checkpoints
                (exist _ (Checkpoint.save_checkpoint (proj1_sig t) name sink s b)
                   (save_ok _ _ _ _ _ (proj2_sig t) H)) w)
  | right _ => (Err (ProjectionError.Config "sink"), w)
  end.

#[global] Instance demo_worker : WorkerWorld demo := {|
  worker_retry_world := demo_retry;
  is_cancelled w := match dw_stop w with Some t => t <=? dw_time w | None => false end;
  sleep_or_cancel ms w := dw_set_time (dw_time w + millis ms) (dw_tick w) w;
  WorkerWorld.get_checkpoint name sink w :=
    (Ok (Checkpoint.get_checkpoint (proj1_sig (dw_checkpoints w)) name sink), w);
  WorkerWorld.save_checkpoint := dw_save;
  read_batch_multi types after n w := (Ok (event_reader_read (dw_rows w) types after n), w);
  acquire _ w := (Ok tt, w);
  release _ w := w;
  available_permits _ _ := Some 1;
  record _ w := w
|}.

Definition dw_set_dead (t : DeadLetterTable) (w : demo) : demo := {|
  dw_time := dw_time w; dw_tick := dw_tick w; dw_breaker := dw_breaker w; dw_rows := dw_rows w;
  dw_checkpoints := dw_checkpoints w; dw_applied := dw_applied w; dw_errors := dw_errors w;
  dw_stop := dw_stop w; dw_dead := t; dw_surreal := dw_surreal w |}.

Definition dw_set_surreal (cb : CircuitBreaker) (w : demo) : demo := {|
  dw_time := dw_time w; dw_tick := dw_tick w; dw_breaker := dw_breaker w; dw_rows := dw_rows w;
  dw_checkpoints := dw_checkpoints w; dw_applied := dw_applied w; dw_errors := dw_errors w;
  dw_stop := dw_stop w; dw_dead := dw_dead w; dw_surreal := cb |}.

#[global] Instance demo_dead_letter : DeadLetterWorld demo := {|
  dead_letter_worker := demo_worker;
  execute f w := (Ok tt, dw_set_dead (f (dw_dead w)) w)
|}.

(** Write [items], unless the next error strikes. *)
Definition demo_write (items : list A) (w : demo) : result unit ProjectionError * demo :=
  match dw_errors w with
  | [] => (Ok tt, dw_set_target (dw_applied w ++ items) [] w)
  | e :: es => (Err e, dw_set_target (dw_applied w) es w)
  end.

Definition demo_view (name sink : string) (w : demo) : View A := {|
  rows := dw_rows w;
  saved := Checkpoint.get_checkpoint (proj1_sig (dw_checkpoints w)) name sink;
  applied := dw_applied w |}.

Lemma demo_laws name sink : has_colon sink = false -> WorkerLaws (demo_view name sink) name sink.
Proof.
  intros Hs. split; try done.
  - intros w. split; [done|]. split; [done|]. simpl. apply rand_u64_nonneg.
  - intros w r w' [= <- <-]. split; [done|]. by intros n [= <-].
  - intros types after n w r w' [= <- <-]. split; [done|]. intros b [= <-]. by exists w.
  - intros s b w r w'. simpl. unfold dw_save. destruct (decide _) as [H|]; [|done].
    intros [= <- <-]. split; [split; [apply appended_refl|by exists []; rewrite app_nil_r]|].
    split; [done|]. left.
    cbn [saved demo_view dw_checkpoints dw_set_checkpoints proj1_sig].
    rewrite get_save by first [done|apply (proj2_sig (dw_checkpoints w))].
    by rewrite decide_True.
Qed.

Lemma demo_write_ok name sink items : call_ok (demo_view name sink) (demo_write items) items.
Proof.
  intros w r w' Hw. unfold demo_write in Hw.
  destruct (dw_errors w) as [|e es]; injection Hw as <- <-.
  - split; [|intros _ a Ha; simpl; apply elem_of_app; by right].
    split; [|done]. split; [|done]. split; [apply appended_refl|]. by exists items.
  - by split.
Qed.

(** A world at the start of a run. *)
Definition demo_begin (rows : list StoredEvent) (errors : list ProjectionError) : demo := {|
  dw_time := 0; dw_tick := 0; dw_breaker := with_defaults "pg"; dw_rows := rows;
  dw_checkpoints := exist _ ∅ table_ok_empty; dw_applied := []; dw_errors := errors;
  dw_stop := None; dw_dead := ∅;
  dw_surreal := with_defaults "surrealdb" |}.
End Demo.
Arguments demo A : clear implicits.

Lemma with_defaults_inv name : cb_inv (with_defaults name).
Proof. apply new_inv. vm_compute. repeat split; discriminate. Qed.

(** Three rows of two types. *)
Definition demo_rows : list StoredEvent :=
  [sample_event 1 "Deposited" Null; sample_event 2 "Redeemed" Null; sample_event 4 "Deposited" Null].

Lemma demo_rows_unique : unique_seqs demo_rows.
Proof. refine (bool_decide_unpack _ _). vm_compute. exact I. Qed.

(** Nothing is up to the checkpoint at the start. *)
Lemma demo_begin_no_skip {A} (settled : StoredEvent -> list A -> Prop) types name sink errors :
  no_skip settled types (demo_view name sink (demo_begin demo_rows errors)).
Proof.
  split; [apply demo_rows_unique|]. split; [by left|]. intros e _ (_ & ? & _) Hle. simpl in Hle.
  change (Checkpoint.get_checkpoint ∅ name sink) with 0 in Hle. lia.
Qed.
