(* ===== verification/PgWorker.v ===== *)
(** * The PostgreSQL worker

    [crates/projections/src/worker/pg.rs]: read the checkpoint, read the next
    batch, hand it to the projection under retry, save the checkpoint. The
    worker's guarantee is that the checkpoint never passes a canonical event the
    projection has not written, whatever fails and whenever it is restarted. *)

From stdpp Require Import pretty.
From S2P Require Import Prelude Events Errors CircuitBreaker Retry EventSource Checkpoint WorkerWorld Traits DemoWorld.

Module PgWorker.
Section PgWorker.
Context {W : Type} `{WorkerWorld W} `{EventCodecs} (circuit_open_message : CircuitOpen -> string).

Record PgWorker := {
  projection : PgProjection W;
  config : WorkerConfig;
  heartbeat : bool;
  retry_policy : RetryPolicy
}.

Definition new (projection : PgProjection W) (config : WorkerConfig) : PgWorker := {|
  projection := projection; config := config; heartbeat := false; retry_policy := event_driven |}.

Definition with_heartbeat (self : PgWorker) : PgWorker := {|
  projection := projection self; config := config self; heartbeat := true;
  retry_policy := retry_policy self |}.

Definition checkpoint_name (self : PgWorker) : string :=
  match shard_id (projection self) with
  | Some id => pg_name (projection self) +:+ "_s" +:+ pretty id
  | None => pg_name (projection self)
  end.

Definition label (self : PgWorker) : string :=
  match shard_id (projection self) with
  | Some id => pg_name (projection self) +:+ ":pg:s" +:+ pretty id
  | None => pg_name (projection self) +:+ ":pg"
  end.

Definition beat_heartbeat (self : PgWorker) (w : W) : W := if heartbeat self then beat w else w.

(** The closure [retry_with_backoff] calls: the permit is dropped when it ends. *)
Definition attempt (self : PgWorker) (parsed : list ParsedEvent) (w : W)
    : result unit ProjectionError * W :=
  let name := pg_name (projection self) in
  let '(permit, w) := acquire name w in
  match permit with
  | Err e => (Err (ProjectionError.Sink e), w)
  | Ok _ =>
      let '(r, w) := process_parsed_batch (projection self) parsed w in
      (r, release name w)
  end.

Definition apply_with_retry (self : PgWorker) (batch : list StoredEvent) (ckpt_name : string) (w : W)
    : option (result unit ProjectionError) * W :=
  let '(parsed, w) := parse_batch_once ckpt_name batch w in
  let ctx := {| Retry.projection_name := ckpt_name; target := "pg"; has_heartbeat := heartbeat self |} in
  let proj_name := pg_name (projection self) in
  let '(r, w, _) :=
    retry_with_backoff circuit_open_message (retry_policy self) ctx (attempt self parsed) w in
  let w := match r with
           | Some (Ok _) =>
               match available_permits proj_name w with
               | Some available => record (SetSemaphoreAvailable proj_name available) w
               | None => w
               end
           | _ => w
           end in
  (r, w).

Definition resolve_checkpoint_target (batch : list StoredEvent)
    : result (SequenceNumber * BlockNumber) unit :=
  let? last := ok_or (list.last batch) tt in
  Ok (StoredEvent.sequence_number last, StoredEvent.block_number last).

Definition save_checkpoint_and_record_metrics (self : PgWorker) (batch : list StoredEvent)
    (ckpt_name : string) (batch_len : Z) (batch_start : Instant) (w : W)
    : result SequenceNumber unit * W :=
  match resolve_checkpoint_target batch with
  | Err _ => (Err tt, w)
  | Ok (new_sequence, new_block) =>
      let '(r, w) := WorkerWorld.save_checkpoint ckpt_name "pg" new_sequence new_block w in
      match r with
      | Err _ => (Err tt, w)
      | Ok _ =>
          (Ok new_sequence,
           record (RecordBatchProcessed ckpt_name "pg" batch_len (elapsed batch_start (now w))
                     new_sequence) w)
      end
  end.

Definition event_type_strs (self : PgWorker) : list string :=
  map EventType.as_str (pg_event_types (projection self)).

Definition pause (self : PgWorker) (ms : Z) (w : W) : cycle * W :=
  (Continue, sleep_or_cancel ms (beat_heartbeat self w)).

(** The rest of a turn that read a batch. *)
Definition on_batch (self : PgWorker) (batch : list StoredEvent) (w : W) : cycle * W :=
  let ckpt_name := checkpoint_name self in
  let batch_len := Z.of_nat (length batch) in
  let w := record (RecordStatus ckpt_name "pg" 1) w in
  let batch_start := now w in
  let '(r, w) := apply_with_retry self batch ckpt_name w in
  match r with
  | None => (Panicked, w)
  | Some (Err _) => pause self 30000 (record (RecordStatus ckpt_name "pg" 3) w)
  | Some (Ok _) =>
      let '(r, w) := save_checkpoint_and_record_metrics self batch ckpt_name batch_len batch_start w in
      match r with
      | Err _ => pause self 30000 w
      | Ok _ =>
          let w := beat_heartbeat self w in
          if batch_len <? batch_size (config self)
          then (Continue, sleep_or_cancel (poll_interval_ms (config self)) w)
          else (Continue, w)
      end
  end.

(** One turn of the loop after the cancellation test. *)
Definition poll (self : PgWorker) (w : W) : cycle * W :=
  let ckpt_name := checkpoint_name self in
  let poll_interval := poll_interval_ms (config self) in
  fetch_then ckpt_name "pg" (event_type_strs self) (batch_size (config self))
    (fun w => pause self poll_interval
       (record (RecordStatus ckpt_name "pg" 3) (record (RecordError ckpt_name "pg") w)))
    (fun w => pause self poll_interval (record (RecordStatus ckpt_name "pg" 2) w))
    (on_batch self) w.

(** [run], for at most [fuel] turns. *)
Definition run (self : PgWorker) (fuel : nat) (w : W) : loop_end * W :=
  poll_loop (poll self) fuel (record (RecordStatus (checkpoint_name self) "pg" 0) w).

(** ** Safety *)

(** What settles an event where the target is a list of events: it is in there, parsed. *)
Definition written (e : StoredEvent) (l : list ParsedEvent) : Prop := parsed_of e ∈ l.

Lemma pg_written_app e l more : written e l -> written e (l ++ more).
Proof. intros ?. apply elem_of_app. by left. Qed.

(** A batch is settled when each of its events is. *)
Definition batch_settled {A} (settled : StoredEvent -> list A -> Prop) (batch : list StoredEvent) (l : list A) : Prop :=
  forall e, e ∈ batch -> settled e l.

Lemma written_settles (self : PgWorker) (view : W -> View ParsedEvent) :
  (forall ps, call_ok view (process_parsed_batch (projection self) ps) ps) ->
  forall batch, call_settles view (process_parsed_batch (projection self) (map parsed_of batch)) (batch_settled written batch).
Proof.
  intros Hp batch w r w' Hc. destruct (Hp _ _ _ _ Hc) as [Hm Hok]. split; [done|]. intros Hr e He.
  apply Hok; [done|]. by apply list_elem_of_fmap_2.
Qed.

Section Safety.
Context {A : Type} (self : PgWorker) (view : W -> View A).
Context (L : WorkerLaws view (checkpoint_name self) "pg").
Context (settled : StoredEvent -> list A -> Prop) (settled_app : forall e l more, settled e l -> settled e (l ++ more)).
Context (Hprocess : forall batch, call_settles view
  (process_parsed_batch (projection self) (map parsed_of batch)) (batch_settled settled batch)).
Context (Hpolicy : policy_ok (retry_policy self)).

Abbreviation mv := (moves view).

Lemma batch_settled_app batch l more : batch_settled settled batch l -> batch_settled settled batch (l ++ more).
Proof. intros Hb e He. by apply settled_app, Hb. Qed.

Lemma beat_heartbeat_moves w : mv w (beat_heartbeat self w).
Proof. unfold beat_heartbeat. case_match; [apply (law_beat L)|done]. Qed.

Lemma pause_moves ms w : mv w (snd (pause self ms w)).
Proof. etransitivity; [apply beat_heartbeat_moves|apply (law_sleep_or_cancel L)]. Qed.

Lemma pg_attempt_ok batch : call_settles view (attempt self (map parsed_of batch)) (batch_settled settled batch).
Proof.
  intros w r w' Ha. unfold attempt in Ha.
  pose proof (law_acquire L (pg_name (projection self)) w) as Hacq.
  destruct (acquire _ w) as [[u|e] w1]; simpl in Hacq.
  - destruct (process_parsed_batch (projection self) (map parsed_of batch) w1) as [r2 w2] eqn:Hp.
    injection Ha as <- <-. destruct (Hprocess _ _ _ _ Hp) as [Hw Hin].
    pose proof (law_release L (pg_name (projection self)) w2) as Hrel.
    split; [etransitivity; [done|]; by etransitivity|].
    intros Hr. apply (moves_applied view _ _ _ (batch_settled_app batch) Hrel). by apply Hin.
  - injection Ha as <- <-. by split.
Qed.

(** The batch is in the target after a successful [apply_with_retry]. *)
Lemma apply_with_retry_ok batch n w r w' :
  apply_with_retry self batch n w = (r, w') -> cb_inv (breaker w) ->
  mv w w' /\ r <> None /\
  (r = Some (Ok tt) -> batch_settled settled batch (applied (view w'))).
Proof.
  unfold apply_with_retry. intros Ha Hi.
  pose proof (parse_batch_once_map n batch w) as Hmap.
  pose proof (parse_batch_once_steps mv n batch w (law_record L)) as Hm.
  destruct (parse_batch_once n batch w) as [ps w1]. simpl in Hmap, Hm. subst ps.
  set (ctx := {| Retry.projection_name := n; target := "pg"; has_heartbeat := heartbeat self |}) in *.
  destruct (retry_keeps view _ _ circuit_open_message (retry_policy self) ctx _ (batch_settled settled batch) w1
    (batch_settled_app batch) L Hpolicy (pg_attempt_ok batch) (proj2 Hm Hi)) as (r1 & w2 & log & E & Hw12 & Hok).
  rewrite E in Ha.
  match type of Ha with (_, ?u) = _ => set (w3 := u) in Ha end. injection Ha as <- <-.
  assert (Hrec : mv w2 w3).
  { unfold w3. destruct r1; [|done]. case_match; [apply (law_record L)|done]. }
  split; [etransitivity; [done|]; by etransitivity|].
  split; [done|]. intros [= ->]. apply (moves_applied view _ _ _ (batch_settled_app batch) Hrec). by apply Hok.
Qed.

Lemma pg_save_ok b n t last w r w' :
  save_checkpoint_and_record_metrics self b (checkpoint_name self) n t w = (r, w') ->
  list.last b = Some last ->
  grows (view w) (view w') /\ (cb_inv (breaker w) -> cb_inv (breaker w')) /\
  (saved (view w') = seq last \/ saved (view w') = saved (view w) /\ r = Err tt).
Proof.
  unfold save_checkpoint_and_record_metrics, resolve_checkpoint_target. intros Hs Hl.
  rewrite Hl in Hs. simpl in Hs.
  destruct (WorkerWorld.save_checkpoint _ _ _ _ w) as [r1 w1] eqn:Hsave.
  destruct (law_save L _ _ _ _ _ Hsave) as (Hg & Hb & Hsv).
  destruct r1 as [[]|e]; injection Hs as <- <-.
  - pose proof (law_record L (RecordBatchProcessed (checkpoint_name self) "pg" n
      (elapsed t (now w1)) (seq last)) w1) as [[Hg1 Hs1] Hb1].
    split; [by etransitivity|]. split; [tauto|]. left. rewrite Hs1. by destruct Hsv as [|[_ ?]].
  - split; [done|]. split; [done|]. destruct Hsv as [?|[? _]]; [by left|by right].
Qed.

Abbreviation turn_spec := (turn_spec view settled (event_type_strs self) (batch_size (config self))).
Abbreviation batch_in_hand := (batch_in_hand view (event_type_strs self) (batch_size (config self))).

Lemma pg_pause_turn w u ms : mv w u ->
  fst (pause self ms u) = Continue /\ turn_spec w (snd (pause self ms u)).
Proof. intros M. split; [done|left]. etransitivity; [exact M|apply pause_moves]. Qed.

Lemma pg_on_batch_spec w u b last :
  cb_inv (breaker w) -> batch_in_hand w u b last ->
  fst (on_batch self b u) = Continue /\ turn_spec w (snd (on_batch self b u)).
Proof.
  intros Hi Hb. unfold on_batch. set (n := checkpoint_name self). set (w2 := record _ u).
  apply (batch_in_hand_after _ _ _ _ _ w2) in Hb; [|apply (law_record L)].
  pose proof (batch_in_hand_moves _ _ _ _ _ _ _ Hb) as M2.
  destruct (apply_with_retry self b n w2) as [r w3] eqn:Happ.
  destruct (apply_with_retry_ok _ _ _ _ _ Happ (proj2 M2 Hi)) as (M3 & Hnone & Hok).
  apply (batch_in_hand_after _ _ _ _ _ w3) in Hb; [|done].
  destruct r as [[[]|e]|]; [| |done].
  2: { apply pg_pause_turn. transitivity w2; [done|]. etransitivity; [exact M3|apply (law_record L)]. }
  pose proof Hb as (mid & _ & _ & _ & Hlast).
  destruct (save_checkpoint_and_record_metrics _ _ _ _ _ w3) as [r w4] eqn:Hsave.
  destruct (pg_save_ok _ _ _ last _ _ _ Hsave Hlast) as (G4 & B4 & S4).
  assert (H4 : turn_spec w w4).
  { eapply turn_saved; [exact Hb|by apply Hok|done|done|]. destruct S4 as [?|[? _]]; auto. }
  destruct r as [s|[]]; [cbv zeta; case_match|]; (split; [done|]); eapply turn_spec_after; try exact H4.
  - etransitivity; [apply beat_heartbeat_moves|apply (law_sleep_or_cancel L)].
  - apply beat_heartbeat_moves.
  - apply pause_moves.
Qed.

Lemma pg_poll_spec w :
  cb_inv (breaker w) -> fst (poll self w) = Continue /\ turn_spec w (snd (poll self w)).
Proof.
  intros Hi. apply (fetch_moves view _ _ (fun p => fst p = Continue /\ turn_spec w (snd p)) _ _ _ _ _ _ L).
  - intros u M. apply pg_pause_turn. etransitivity; [exact M|]. etransitivity; apply (law_record L).
  - intros u M. apply pg_pause_turn. etransitivity; [exact M|apply (law_record L)].
  - intros b last u Hb. by eapply pg_on_batch_spec.
Qed.

Abbreviation worker_inv := (worker_inv view settled (event_type_strs self) breaker_ok).

Lemma pg_poll_ok : body_ok view settled (event_type_strs self) (batch_size (config self)) breaker_ok (poll self).
Proof.
  intros w Hi. destruct (pg_poll_spec w Hi) as [Hc Ht]. split_and!; [done|done|].
  by eapply turn_keeps_breaker.
Qed.

Lemma pg_run_inv fuel w :
  worker_inv w -> let '(r, w') := run self fuel w in
    r <> Panic /\ worker_inv w' /\ saved (view w) <= saved (view w') /\ grows (view w) (view w').
Proof. apply (run_loop_inv _ _ settled_app _ _ _ _ _ _ _ _ _ L pg_poll_ok), (law_record L). Qed.
End Safety.

(** ** Progress *)

Section Progress.
Context (self : PgWorker) (view : W -> View ParsedEvent).
Context (L : WorkerLaws view (checkpoint_name self) "pg").
Context (Hprocess : forall ps, call_ok view (process_parsed_batch (projection self) ps) ps).
Context (Hpolicy : policy_ok (retry_policy self)).

(** A spell in which the calls succeed, the breaker admits them, and nobody
    cancels the worker. *)
Record calm_spell (calm : W -> Prop) : Prop := {
  calm_cancel w : calm w -> is_cancelled w = false;
  calm_get w : calm w -> exists n w',
    WorkerWorld.get_checkpoint (checkpoint_name self) "pg" w = (Ok n, w') /\ calm w';
  calm_read types after n w : calm w -> exists b w', read_batch_multi types after n w = (Ok b, w') /\ calm w';
  calm_check w : calm w -> exists cb, check (breaker w) (now w) = Some (Ok tt, cb) /\ calm (set_breaker cb w);
  calm_success w : calm w -> calm (set_breaker (record_success (breaker w)) w);
  calm_acquire n w : calm w -> exists w', acquire n w = (Ok tt, w') /\ calm w';
  calm_process ps w : calm w -> exists w',
    process_parsed_batch (projection self) ps w = (Ok tt, w') /\ calm w';
  calm_release n w : calm w -> calm (release n w);
  calm_save s b w : calm w -> exists w',
    WorkerWorld.save_checkpoint (checkpoint_name self) "pg" s b w = (Ok tt, w') /\ calm w';
  calm_record m w : calm w -> calm (record m w);
  calm_emit m w : calm w -> calm (emit m w);
  calm_beat w : calm w -> calm (beat w);
  calm_pause ms w : calm w -> calm (sleep_or_cancel ms w)
}.

Context (calm : W -> Prop) (Hcalm : calm_spell calm).
Context (Hsize : 1 <= batch_size (config self)).

Abbreviation types := (event_type_strs self).

Definition pending (w : W) (e : StoredEvent) : Prop := wanted types 0 e /\ saved (view w) < seq e.

#[global] Instance pending_dec w e : Decision (pending w e).
Proof. unfold pending. apply _. Defined.

Lemma calm_beat_heartbeat w : calm w -> calm (beat_heartbeat self w).
Proof. unfold beat_heartbeat. case_match; [apply (calm_beat _ Hcalm)|done]. Qed.

#[local] Instance keeps_calm_preorder : PreOrder (fun w w' => calm w -> calm w').
Proof. split; [by intros w|]. intros w1 w2 w3 H1 H2 ?. by apply H2, H1. Qed.

Lemma calm_apply b n w : calm w -> exists w', apply_with_retry self b n w = (Some (Ok tt), w') /\ calm w'.
Proof.
  intros Hc. unfold apply_with_retry.
  pose proof (parse_batch_once_steps (fun w w' => calm w -> calm w') n b w (calm_record _ Hcalm) Hc) as C1.
  destruct (parse_batch_once n b w) as [ps w1]. cbn [snd] in C1.
  destruct (calm_check _ Hcalm w1 C1) as (cb & Hchk & C2).
  destruct (calm_acquire _ Hcalm (pg_name (projection self)) _ C2) as (w2 & Hacq & C3).
  destruct (calm_process _ Hcalm ps w2 C3) as (w3 & Hproc & C4).
  cbv zeta. erewrite retry_first_try; [|by destruct Hpolicy|exact Hchk|].
  2: { unfold attempt. by rewrite Hacq, Hproc. }
  eexists. split; [reflexivity|].
  assert (C5 : forall c cb, calm cb -> calm (emit_state c cb)) by (intros; by apply (calm_emit _ Hcalm)).
  case_match; [apply (calm_record _ Hcalm)|];
    by apply C5, (calm_success _ Hcalm), (calm_release _ Hcalm).
Qed.

(** A calm turn that read a batch moves the checkpoint to its end. *)
Lemma calm_on_batch b last w : calm w -> list.last b = Some last ->
  calm (snd (on_batch self b w)) /\ saved (view (snd (on_batch self b w))) = seq last.
Proof.
  intros Hc Hlast. unfold on_batch. set (w2 := record _ w).
  destruct (calm_apply b (checkpoint_name self) w2 (calm_record _ Hcalm _ _ Hc)) as (w3 & -> & C3).
  destruct (save_checkpoint_and_record_metrics _ _ _ _ _ w3) as [r w4] eqn:Hsave.
  destruct (pg_save_ok self view L _ _ _ last _ _ _ Hsave Hlast) as (_ & _ & S4).
  unfold save_checkpoint_and_record_metrics, resolve_checkpoint_target in Hsave.
  rewrite Hlast in Hsave. simpl in Hsave.
  destruct (calm_save _ Hcalm (seq last) (StoredEvent.block_number last) w3 C3) as (w4' & Hs & C4).
  rewrite Hs in Hsave. injection Hsave as <- <-. destruct S4 as [S4|[_ ?]]; [|done].
  set (w4 := record _ w4') in *.
  assert (C5 : calm (beat_heartbeat self w4)) by (by apply calm_beat_heartbeat, (calm_record _ Hcalm)).
  assert (S5 : saved (view (beat_heartbeat self w4)) = seq last)
    by by rewrite (proj2 (proj1 (beat_heartbeat_moves self view L w4))).
  cbv zeta. case_match; [|done]. split; [by apply (calm_pause _ Hcalm)|].
  cbn [snd]. by rewrite (proj2 (proj1 (law_sleep_or_cancel L _ _))).
Qed.

(** A batch read from the checkpoint on, with rows appended since [w], goes past
    a pending row, and is only empty when there is none. *)
Lemma batch_clears w mid b e :
  unique_seqs (rows (view w)) -> 0 <= saved (view w) -> moves view w mid ->
  b = event_reader_read (rows (view mid)) types (saved (view w)) (batch_size (config self)) ->
  e ∈ rows (view w) -> pending w e ->
  exists last e', list.last b = Some last /\ e' ∈ rows (view w) /\ pending w e' /\ seq e' <= seq last.
Proof.
  intros Hu Hpos [[[Hr _] _] _] Eb He Hp. destruct (Hr Hu) as (more & Er & Ur & _ & Lt).
  assert (Hw : wanted types (saved (view w)) e) by (destruct Hp as [(? & ? & ?) ?]; by split_and!).
  destruct (list.last b) as [last|] eqn:Hlast.
  2: { apply last_None in Hlast. exfalso. apply (not_elem_of_nil e). rewrite <- Hlast, Eb.
       eapply batch_complete; [exact Ur| | |exact Hw].
       - rewrite <- Eb, Hlast. simpl. lia.
       - rewrite Er. apply elem_of_app. by left. }
  exists last. destruct (Z.le_gt_cases (seq e) (seq last)) as [Hle|Hgt]; [by exists e|].
  exists last. rewrite Eb in Hlast. pose proof (last_Some_elem_of _ _ Hlast) as Hin.
  apply batch_rows in Hin as [Hin (? & ? & ?)]. rewrite Er in Hin.
  apply elem_of_app in Hin as [Hin|Hin]; [|pose proof (Lt e last He Hin); lia].
  split_and!; [done|done|split; [split_and!; [done|lia|done]|done]|lia].
Qed.

(** A turn with something to do clears a pending row at least. *)
Lemma calm_turn w : calm w -> worker_inv view written types breaker_ok w -> 0 <= saved (view w) ->
  calm (snd (poll self w)) /\
  forall e, e ∈ rows (view w) -> pending w e ->
    exists e', e' ∈ rows (view w) /\ pending w e' /\ seq e' <= saved (view (snd (poll self w))).
Proof.
  intros Hc [(Hu & _ & _) _] Hpos. unfold poll, fetch_then.
  destruct (calm_get _ Hcalm w Hc) as (n & w0 & Hget & C0). rewrite Hget.
  destruct (law_get L _ _ _ Hget) as [M0 Hn]. specialize (Hn n eq_refl).
  destruct (calm_read _ Hcalm types n (batch_size (config self)) w0 C0) as (b & w1 & Hread & C1).
  rewrite Hread. destruct (law_read L _ _ _ _ _ _ Hread) as [_ Hb].
  destruct (Hb b eq_refl) as (mid & Mm & _ & Eb). rewrite Hn, (proj2 (proj1 M0)) in Eb.
  pose proof (batch_clears w mid b) as Hclear. specialize (fun e => Hclear e Hu Hpos (transitivity M0 Mm) Eb).
  destruct b as [|e0 b0].
  - split; [by apply (calm_pause _ Hcalm), calm_beat_heartbeat, (calm_record _ Hcalm)|].
    intros e He Hp. by destruct (Hclear e He Hp) as (last & ? & [=] & _).
  - destruct (list.last (e0 :: b0)) as [last|] eqn:Hlast; [|by apply last_None in Hlast].
    destruct (calm_on_batch _ _ _ C1 Hlast) as [C2 ->]. split; [done|].
    intros e He Hp. destruct (Hclear e He Hp) as (l & e' & [= <-] & ?). by exists e'.
Qed.

(** The rows of [l] still to be written. *)
Definition backlog (l : list StoredEvent) (w : W) : nat := length (filter (pending w) l).

Lemma backlog_turn l w w' :
  appended l (rows (view w)) -> saved (view w) <= saved (view w') ->
  (forall e, e ∈ rows (view w) -> pending w e ->
    exists e', e' ∈ rows (view w) /\ pending w e' /\ seq e' <= saved (view w')) ->
  (backlog l w' <= pred (backlog l w))%nat.
Proof.
  intros (more & Er & _ & _ & Lt) Hle Hclear. unfold backlog.
  assert (Himp : forall e, pending w' e -> pending w e)
    by (intros e [? ?]; split; [done|lia]).
  destruct (filter (pending w) l) as [|e l'] eqn:Hf.
  { pose proof (length_filter_le_impl (pending w) (pending w') l Himp) as Hlen.
    rewrite Hf in Hlen. done. }
  assert (He : e ∈ filter (pending w) l) by (rewrite Hf; left). rewrite <- Hf.
  apply list_elem_of_filter in He as [Hp He].
  assert (Hin : e ∈ rows (view w)) by (rewrite Er; apply elem_of_app; by left).
  destruct (Hclear e Hin Hp) as (e' & He' & Hp' & Hs').
  assert (Hx : exists x, x ∈ l /\ pending w x /\ ~ pending w' x).
  { rewrite Er in He'. apply elem_of_app in He' as [He'|He'].
    - exists e'. split_and!; [done|done|]. intros [_ ?]. lia.
    - exists e. split_and!; [done|done|]. intros [_ ?]. pose proof (Lt e e' He He'). lia. }
  destruct Hx as (x & Hx & HP & HQ).
  pose proof (length_filter_lt_impl (pending w) (pending w') l x Himp Hx HP HQ). lia.
Qed.

Lemma calm_loop fuel w (l : list StoredEvent) :
  calm w -> worker_inv view written types breaker_ok w -> 0 <= saved (view w) -> appended l (rows (view w)) ->
  (backlog l w <= fuel)%nat ->
  let '(r, w') := poll_loop (poll self) fuel w in
  r = OutOfFuel /\ worker_inv view written types breaker_ok w' /\ backlog l w' = 0%nat.
Proof.
  revert w. induction fuel as [|fuel IH]; intros w Hc Hi Hpos Hl Hf; cbn [poll_loop].
  { split; [done|]. split; [done|lia]. }
  rewrite (calm_cancel _ Hcalm w Hc).
  destruct (calm_turn w Hc Hi Hpos) as [Hc' Hclear].
  destruct (pg_poll_spec self view L written pg_written_app (written_settles self view Hprocess) Hpolicy w (proj2 Hi)) as [Hcont Ht].
  destruct (turn_no_skip view written pg_written_app _ _ w _ (proj1 Hi) Ht) as [Hn' Hle].
  assert (Hi' : worker_inv view written types breaker_ok (snd (poll self w)))
    by (split; [done|by eapply turn_keeps_breaker, Hi]).
  assert (Hrows : appended (rows (view w)) (rows (view (snd (poll self w))))).
  { destruct (turn_grows _ _ _ _ w _ Ht) as [Hr _]. by destruct Hi as [(Hu & _) _]; apply Hr. }
  pose proof (backlog_turn l w _ Hl Hle Hclear) as Hb.
  destruct (poll self w) as [c w']. simpl in *. subst c. apply IH; [done|done|lia| |lia].
  by eapply appended_trans.
Qed.
Lemma backlog_clear l w (e : StoredEvent) :
  backlog l w = 0%nat -> e ∈ l -> wanted types 0 e -> seq e <= saved (view w).
Proof.
  intros Hz He Hw. destruct (Z.le_gt_cases (seq e) (saved (view w))) as [|Hgt]; [done|exfalso].
  apply length_zero_iff_nil in Hz.
  assert (Hin : e ∈ filter (pending w) l)
    by (apply list_elem_of_filter; split; [split; [done|lia]|done]).
  rewrite Hz in Hin. by apply not_elem_of_nil in Hin.
Qed.

Lemma run_backlog fuel w :
  calm w -> worker_inv view written types breaker_ok w -> 0 <= saved (view w) ->
  (length (rows (view w)) <= fuel)%nat ->
  backlog (rows (view w)) (snd (run self fuel w)) = 0%nat.
Proof.
  intros Hc Hi Hpos Hf. unfold run. set (w1 := record _ w).
  assert (Hm : moves view w w1) by apply (law_record L).
  pose proof (calm_loop fuel w1 (rows (view w)) (calm_record _ Hcalm _ _ Hc)
    (conj (no_skip_quiet _ pg_written_app _ _ _ (proj1 Hi) (proj1 Hm)) (proj2 Hm (proj2 Hi)))) as Hl.
  destruct Hm as [[[Hr _] Hs] _]. rewrite Hs in Hl.
  destruct (poll_loop _ fuel w1) as [r w2]. apply Hl; [done| |].
  - apply Hr. by destruct Hi as [(? & _) _].
  - unfold backlog. etransitivity; [apply length_filter|done].
Qed.
End Progress.
End PgWorker.
End PgWorker.

(** ** Properties *)

(** C1 (no event is skipped). Start the worker in a world where every canonical
    row of its event types up to the saved checkpoint has been written to the
    target. After any number of turns, whatever calls fail, whatever other tasks
    do and however often retries are exhausted, the same holds, the checkpoint
    has not moved back, and no turn has panicked: an event is written at least
    once before the checkpoint passes it. Other tasks may append rows with larger
    sequence numbers and write to the target at any await point. *)
Theorem pg_worker_never_skips {W} `{WorkerWorld W} `{EventCodecs} (msg : CircuitOpen -> string)
  (self : @PgWorker.PgWorker W) (view : W -> View ParsedEvent) (fuel : nat) (w : W)
  (L : WorkerLaws view (PgWorker.checkpoint_name self) "pg")
  (Hprocess : forall ps, call_ok view (process_parsed_batch (PgWorker.projection self) ps) ps)
  (Hpolicy : policy_ok (PgWorker.retry_policy self))
  (Hbreaker : cb_inv (breaker w))
  (Hstart : no_skip PgWorker.written (PgWorker.event_type_strs self) (view w)) :
  let '(r, w') := PgWorker.run msg self fuel w in
  r <> Panic /\ saved (view w) <= saved (view w') /\
  no_skip PgWorker.written (PgWorker.event_type_strs self) (view w').
Proof.
  pose proof (PgWorker.pg_run_inv msg self view L PgWorker.written PgWorker.pg_written_app
    (PgWorker.written_settles self view Hprocess) Hpolicy fuel w (conj Hstart Hbreaker)) as Hr.
  destruct (PgWorker.run msg self fuel w) as [r w']. by destruct Hr as (? & [? _] & ? & _).
Qed.

(** The worker of one shard of [vault_state] in the concrete world. *)
Definition demo_pg_worker : @PgWorker.PgWorker (demo ParsedEvent) :=
  PgWorker.with_heartbeat
    (PgWorker.new {| pg_name := "vault_state";
                     pg_event_types := [EventType.Deposited; EventType.Redeemed];
                     shard_id := Some 2; process_parsed_batch := demo_write |}
       {| batch_size := 2; poll_interval_ms := 500 |}).

(** A write fails once and is retried; after three turns both batches are in. *)
Example demo_pg_run :
  let '(r, w) := @PgWorker.run _ _ sample_codecs (fun _ => "open") demo_pg_worker 3
                   (demo_begin demo_rows [ProjectionError.Database "reset"]) in
  r = OutOfFuel /\ map ParsedEvent.sequence_number (dw_applied w) = [1; 2; 4] /\
  Checkpoint.get_checkpoint (proj1_sig (dw_checkpoints w)) "vault_state_s2" "pg" = 4.
Proof. vm_compute. done. Qed.

Lemma pg_worker_never_skips_witness :
  let '(r, w') := @PgWorker.run _ _ sample_codecs (fun _ => "open") demo_pg_worker 3
                    (demo_begin demo_rows [ProjectionError.Database "reset"]) in
  r <> Panic /\ 0 <= saved (demo_view "vault_state_s2" "pg" w') /\
  no_skip (@PgWorker.written sample_codecs) ["Deposited"; "Redeemed"]
    (demo_view "vault_state_s2" "pg" w').
Proof.
  exact (@pg_worker_never_skips _ _ sample_codecs (fun _ => "open") demo_pg_worker
    (demo_view "vault_state_s2" "pg") 3 (demo_begin demo_rows [ProjectionError.Database "reset"])
    (demo_laws "vault_state_s2" "pg" eq_refl) (demo_write_ok _ _) (proj1 policies_ok) (with_defaults_inv _)
    (demo_begin_no_skip _ _ _ _ _)).
Defined.

(** C38 (the worker catches up). In a spell in which its calls succeed and it is
    not cancelled, a worker given as many turns as there are rows in the log
    has written every canonical row of its types that was there at the start, and
    the checkpoint is at or past each: no batch boundary or interleaved row makes
    it stop short. *)
Theorem pg_worker_catches_up {W} `{WorkerWorld W} `{EventCodecs} (msg : CircuitOpen -> string)
  (self : @PgWorker.PgWorker W) (view : W -> View ParsedEvent) (calm : W -> Prop) (fuel : nat) (w : W)
  (L : WorkerLaws view (PgWorker.checkpoint_name self) "pg")
  (Hprocess : forall ps, call_ok view (process_parsed_batch (PgWorker.projection self) ps) ps)
  (Hpolicy : policy_ok (PgWorker.retry_policy self))
  (Hcalm : PgWorker.calm_spell self calm)
  (Hsize : 1 <= batch_size (PgWorker.config self))
  (Hw : calm w) (Hbreaker : cb_inv (breaker w)) (Hpos : 0 <= saved (view w))
  (Hstart : no_skip PgWorker.written (PgWorker.event_type_strs self) (view w))
  (Hfuel : (length (rows (view w)) <= fuel)%nat) :
  let w' := snd (PgWorker.run msg self fuel w) in
  forall e, e ∈ rows (view w) -> wanted (PgWorker.event_type_strs self) 0 e ->
    PgWorker.written e (applied (view w')) /\ seq e <= saved (view w').
Proof.
  intros w' e He Hwant. subst w'.
  pose proof (PgWorker.pg_run_inv msg self view L PgWorker.written PgWorker.pg_written_app
    (PgWorker.written_settles self view Hprocess) Hpolicy fuel w (conj Hstart Hbreaker)) as Hinv.
  pose proof (PgWorker.run_backlog msg self view L Hprocess Hpolicy calm Hcalm Hsize fuel w
    Hw (conj Hstart Hbreaker) Hpos Hfuel) as Hz.
  destruct (PgWorker.run msg self fuel w) as [r w2]. simpl in *.
  destruct Hinv as (_ & [(_ & _ & Ha) _] & _ & [Hr _]).
  assert (Hle : seq e <= saved (view w2)) by (by eapply PgWorker.backlog_clear).
  split; [|done]. apply Ha; [|done..].
  destruct (Hr (proj1 Hstart)) as (more & -> & _). apply elem_of_app. by left.
Qed.

(** A concrete world with no errors ahead and a closed breaker. *)
Definition demo_calm (w : demo ParsedEvent) : Prop :=
  dw_errors w = [] /\ state (dw_breaker w) = CircuitState.Closed /\ dw_stop w = None.

Lemma demo_calm_spell : PgWorker.calm_spell demo_pg_worker demo_calm.
Proof.
  split; try done.
  - intros w (_ & _ & Hstop). simpl. by rewrite Hstop.
  - intros w Hw. eexists _, _. split; [reflexivity|done].
  - intros types after n w Hw. eexists _, _. split; [reflexivity|done].
  - intros w (? & Hs & ?). simpl. unfold check. rewrite Hs. eexists. split; [reflexivity|done].
  - intros w (? & Hs & ?). simpl. unfold record_success. rewrite Hs. done.
  - intros n w Hw. eexists. split; [reflexivity|done].
  - intros ps w (He & ? & ?). simpl. unfold demo_write. rewrite He. eexists. split; [reflexivity|done].
  - intros s b w Hw. eexists. split; [reflexivity|done].
Qed.

Lemma pg_worker_catches_up_witness :
  let w' := snd (@PgWorker.run _ _ sample_codecs (fun _ => "open") demo_pg_worker 3
                   (demo_begin demo_rows [])) in
  length (dw_applied w') = 3%nat /\
  forall e, e ∈ demo_rows -> wanted ["Deposited"; "Redeemed"] 0 e ->
    @PgWorker.written sample_codecs e (dw_applied w') /\
    seq e <= saved (demo_view "vault_state_s2" "pg" w').
Proof.
  split; [vm_compute; reflexivity|].
  exact (@pg_worker_catches_up _ _ sample_codecs (fun _ => "open") demo_pg_worker
    (demo_view "vault_state_s2" "pg") demo_calm 3 (demo_begin demo_rows [])
    (demo_laws "vault_state_s2" "pg" eq_refl) (demo_write_ok _ _) (proj1 policies_ok)
    demo_calm_spell ltac:(cbn; lia) ltac:(repeat split) (with_defaults_inv _)
    ltac:(vm_compute; discriminate) (demo_begin_no_skip _ _ _ _ _) ltac:(cbn; lia)).
Defined.
