(* ===== verification/SurrealWorker.v ===== *)
(** * The SurrealDB worker

    [crates/projections/src/worker/surreal.rs]: like the PostgreSQL worker, but
    events are first turned into sink operations by a pure projection, an event
    the projection refuses is dead-lettered and skipped, and a failed checkpoint
    save does not interrupt the loop. *)

From S2P Require Import Prelude Events Errors CircuitBreaker Retry EventSource Checkpoint WorkerWorld Traits DeadLetter DemoWorld.

Module SurrealWorker.
Section SurrealWorker.
Context {W : Type} `{DeadLetterWorld W} `{EventCodecs} (circuit_open_message : CircuitOpen -> string).

Record Worker := {
  projection : Projection;
  sink : ProjectionSink W;
  config : WorkerConfig;
  heartbeat : bool;
  retry_policy : RetryPolicy;
  dead_letter_pool : bool
}.

Definition new (projection : Projection) (sink : ProjectionSink W) (config : WorkerConfig) : Worker := {|
  projection := projection; sink := sink; config := config; heartbeat := false;
  retry_policy := event_driven; dead_letter_pool := false |}.

Definition with_heartbeat (self : Worker) : Worker := {|
  projection := projection self; sink := sink self; config := config self; heartbeat := true;
  retry_policy := retry_policy self; dead_letter_pool := dead_letter_pool self |}.

Definition with_dead_letter_pool (self : Worker) : Worker := {|
  projection := projection self; sink := sink self; config := config self;
  heartbeat := heartbeat self; retry_policy := retry_policy self; dead_letter_pool := true |}.

Definition label (self : Worker) : string :=
  name (projection self) +:+ ":" +:+ sink_name (sink self).

Definition beat_heartbeat (self : Worker) (w : W) : W := if heartbeat self then beat w else w.

(** The second phase of [project_batch], from the events left. *)
Fixpoint project_events (self : Worker) (parsed : list ParsedEvent) (w : W)
    : list SinkOperation * bool * W :=
  match parsed with
  | [] => ([], false, w)
  | event :: parsed =>
      match project_parsed (projection self) event with
      | Ok ops =>
          let '(all_ops, had_error, w) := project_events self parsed w in
          (ops ++ all_ops, had_error, w)
      | Err e =>
          let w := record (RecordError (name (projection self)) (sink_name (sink self))) w in
          let w := match ProjectionError.classify e with
                   | ErrorClass.Fatal =>
                       if dead_letter_pool self
                       then record_fatal_event (name (projection self)) event e w else w
                   | _ => w
                   end in
          let '(all_ops, _, w) := project_events self parsed w in
          (all_ops, true, w)
      end
  end.

Definition project_batch (self : Worker) (batch : list StoredEvent) (w : W)
    : list SinkOperation * bool * W :=
  let '(parsed, w) := parse_batch_once (name (projection self)) batch w in
  project_events self parsed w.

Definition save_checkpoint_and_record_metrics (self : Worker) (batch : list StoredEvent)
    (batch_len : Z) (batch_start : Instant) (w : W) : Z * W :=
  match list.last batch with
  | None => (-1, w)
  | Some last =>
      let new_sequence := StoredEvent.sequence_number last in
      let new_block := StoredEvent.block_number last in
      let '(_, w) := WorkerWorld.save_checkpoint (name (projection self)) (sink_name (sink self))
                       new_sequence new_block w in
      (new_sequence,
       record (RecordBatchProcessed (name (projection self)) (sink_name (sink self)) batch_len
                 (elapsed batch_start (now w)) new_sequence) w)
  end.

Definition event_type_strs (self : Worker) : list string :=
  map EventType.as_str (event_types (projection self)).

(** Step 5 of the loop. *)
Definition apply_ops (self : Worker) (all_ops : list SinkOperation) (w : W)
    : option (result unit ProjectionError) * W :=
  match all_ops with
  | [] => (Some (Ok tt), w)
  | _ =>
      let ctx := {| Retry.projection_name := name (projection self);
                    target := sink_name (sink self); has_heartbeat := heartbeat self |} in
      let '(r, w, _) := retry_with_backoff circuit_open_message (retry_policy self) ctx
                          (apply_batch (sink self) all_ops) w in
      (r, w)
  end.

Definition pause (ms : Z) (w : W) : cycle * W :=
  (Continue, sleep_or_cancel ms w).

(** The rest of a turn that read a batch. A failed checkpoint save is logged and
    otherwise ignored. *)
Definition on_batch (self : Worker) (batch : list StoredEvent) (w : W) : cycle * W :=
  let pname := name (projection self) in
  let sname := sink_name (sink self) in
  let batch_len := Z.of_nat (length batch) in
  let w := record (RecordStatus pname sname 1) w in
  let batch_start := now w in
  let '(all_ops, _, w) := project_batch self batch w in
  let '(r, w) := apply_ops self all_ops w in
  match r with
  | None => (Panicked, w)
  | Some (Err _) =>
      let w := record (RecordStatus pname sname 3) w in
      let w := if decide (state (breaker w) = CircuitState.Open) then w
               else beat_heartbeat self w in
      pause 30000 w
  | Some (Ok _) =>
      let '(_, w) := save_checkpoint_and_record_metrics self batch batch_len batch_start w in
      let w := beat_heartbeat self w in
      if batch_len <? batch_size (config self)
      then pause (poll_interval_ms (config self)) w
      else (Continue, w)
  end.

(** One turn of the loop after the cancellation test. *)
Definition poll (self : Worker) (w : W) : cycle * W :=
  let pname := name (projection self) in
  let sname := sink_name (sink self) in
  let poll_interval := poll_interval_ms (config self) in
  fetch_then pname sname (event_type_strs self) (batch_size (config self))
    (fun w => pause poll_interval (beat_heartbeat self
       (record (RecordStatus pname sname 3) (record (RecordError pname sname) w))))
    (fun w => pause poll_interval (beat_heartbeat self (record (RecordStatus pname sname 2) w)))
    (on_batch self) w.

(** [run], for at most [fuel] turns. *)
Definition run (self : Worker) (fuel : nat) (w : W) : loop_end * W :=
  poll_loop (poll self) fuel
    (record (RecordStatus (name (projection self)) (sink_name (sink self)) 0) w).

(** ** Projecting a batch *)

(** What an event contributes, and whether it is refused. *)
Definition ops_of (self : Worker) (p : ParsedEvent) : list SinkOperation :=
  match project_parsed (projection self) p with Ok ops => ops | Err _ => [] end.
Definition refused (self : Worker) (p : ParsedEvent) : bool :=
  negb (is_ok (project_parsed (projection self) p)).

Lemma project_events_ops self parsed w :
  fst (project_events self parsed w) = (concat (map (ops_of self) parsed), existsb (refused self) parsed).
Proof.
  revert w. induction parsed as [|p parsed IH]; intros w; [done|]. cbn [project_events map concat existsb].
  unfold ops_of at 1, refused at 1. destruct (project_parsed (projection self) p) as [ops|e].
  - specialize (IH w). destruct (project_events self parsed w) as [[all had] w']. simpl in *. by simplify_eq.
  - cbv zeta. set (w1 := match ProjectionError.classify e with ErrorClass.Fatal => _ | _ => _ end).
    specialize (IH w1). destruct (project_events self parsed w1) as [[all had] w'].
    simpl in *. by simplify_eq.
Qed.

Lemma record_fatal_event_steps (R : W -> W -> Prop) `{!PreOrder R} n p e w :
  (forall m w, R w (record m w)) -> (forall f w, R w (snd (execute f w))) ->
  R w (record_fatal_event n p e w).
Proof.
  intros Hr He. unfold record_fatal_event. case_match; [|apply Hr].
  etransitivity; [apply Hr|apply He].
Qed.

Lemma project_batch_steps (R : W -> W -> Prop) `{!PreOrder R} self b w :
  (forall m w, R w (record m w)) -> (forall f w, R w (snd (execute f w))) ->
  R w (snd (project_batch self b w)).
Proof.
  intros Hr He. unfold project_batch.
  pose proof (parse_batch_once_steps R (name (projection self)) b w Hr) as Hp.
  destruct (parse_batch_once _ b w) as [parsed w1]. simpl in Hp.
  transitivity w1; [done|]. clear Hp. revert w1.
  induction parsed as [|p parsed IH]; intros w1; [done|]. cbn [project_events].
  destruct (project_parsed (projection self) p) as [ops|e].
  - specialize (IH w1). by destruct (project_events self parsed w1) as [[? ?] ?].
  - cbv zeta. set (w2 := match ProjectionError.classify e with ErrorClass.Fatal => _ | _ => _ end).
    specialize (IH w2). transitivity w2; [|by destruct (project_events self parsed w2) as [[? ?] ?]].
    unfold w2. transitivity (record (RecordError (name (projection self)) (sink_name (sink self))) w1);
      [apply Hr|]. repeat case_match; try done. by apply record_fatal_event_steps.
Qed.

Lemma project_batch_ops self b w :
  fst (project_batch self b w) =
    (concat (map (ops_of self) (map parsed_of b)), existsb (refused self) (map parsed_of b)).
Proof.
  unfold project_batch. pose proof (parse_batch_once_map (name (projection self)) b w) as Hp.
  destruct (parse_batch_once _ b w) as [parsed w1]. simpl in Hp. subst parsed.
  apply project_events_ops.
Qed.

(** ** Safety *)

Section Safety.
Context (self : Worker) (view : W -> View SinkOperation).
Context (L : WorkerLaws view (name (projection self)) (sink_name (sink self))).
Context (Hexecute : forall f w, moves view w (snd (execute f w))).
Context (Happly : forall ops, call_ok view (apply_batch (sink self) ops) ops).
Context (Hpolicy : policy_ok (retry_policy self)).

Abbreviation mv := (moves view).

(** An event is settled once its operations are in the sink; a refused event
    asks for nothing. *)
Definition projected (e : StoredEvent) (l : list SinkOperation) : Prop :=
  forall op, op ∈ ops_of self (parsed_of e) -> op ∈ l.

Lemma projected_app e l more : projected e l -> projected e (l ++ more).
Proof. intros Hp op Hop. apply elem_of_app. left. by apply Hp. Qed.

Abbreviation turn_spec := (turn_spec view projected (event_type_strs self) (batch_size (config self))).
Abbreviation worker_inv := (worker_inv view projected (event_type_strs self) breaker_ok).

Lemma surreal_beat_moves w : mv w (beat_heartbeat self w).
Proof. unfold beat_heartbeat. case_match; [apply (law_beat L)|done]. Qed.

Lemma apply_ops_ok ops w r w' :
  apply_ops self ops w = (r, w') -> cb_inv (breaker w) ->
  mv w w' /\ r <> None /\ (r = Some (Ok tt) -> forall op, op ∈ ops -> op ∈ applied (view w')).
Proof.
  intros Ha Hi. unfold apply_ops in Ha. destruct ops as [|op ops].
  { injection Ha as <- <-. split_and!; [done|done|]. intros _ op Hop. by apply not_elem_of_nil in Hop. }
  match type of Ha with context [retry_with_backoff _ _ ?c _ _] => set (ctx := c) in Ha end.
  destruct (retry_moves view _ _ circuit_open_message (retry_policy self) ctx _ (op :: ops) w L Hpolicy
    (Happly (op :: ops)) Hi) as (r1 & w2 & log & E & Hw & Hok).
  rewrite E in Ha. injection Ha as <- <-. split_and!; [done|done|]. intros [= ->]. by apply Hok.
Qed.

Lemma save_spec b n t last w :
  list.last b = Some last ->
  let w' := snd (save_checkpoint_and_record_metrics self b n t w) in
  grows (view w) (view w') /\ (cb_inv (breaker w) -> cb_inv (breaker w')) /\
  (saved (view w') = seq last \/ saved (view w') = saved (view w)).
Proof.
  unfold save_checkpoint_and_record_metrics. intros ->.
  destruct (WorkerWorld.save_checkpoint _ _ _ _ w) as [r1 w1] eqn:Hsave. simpl.
  destruct (law_save L _ _ _ _ _ Hsave) as (Hg & Hb & Hsv).
  match goal with |- context [record ?m w1] => pose proof (law_record L m w1) as [[Hg1 Hs1] Hb1] end.
  split; [by etransitivity|]. split; [tauto|]. rewrite Hs1. naive_solver.
Qed.

Lemma surreal_pause_turn w u ms : mv w u ->
  fst (pause ms u) = Continue /\ turn_spec w (snd (pause ms u)).
Proof. intros M. split; [done|left]. etransitivity; [exact M|apply (law_sleep_or_cancel L)]. Qed.

(** What [project_batch] and [apply_ops] make of a batch. *)
Lemma project_apply_ok b w ops had w1 r w2 :
  project_batch self b w = (ops, had, w1) -> apply_ops self ops w1 = (r, w2) -> cb_inv (breaker w) ->
  mv w w2 /\ r <> None /\ (r = Some (Ok tt) -> forall e, e ∈ b -> projected e (applied (view w2))).
Proof.
  intros Hp Happ Hi. pose proof (project_batch_ops self b w) as Hops.
  pose proof (project_batch_steps mv self b w (law_record L) Hexecute) as M1.
  rewrite Hp in Hops, M1. cbn [fst snd] in Hops, M1. injection Hops as -> _.
  destruct (apply_ops_ok _ _ _ _ Happ (proj2 M1 Hi)) as (M2 & Hnone & Hok).
  split; [by transitivity w1|]. split; [done|]. intros Hr e He op Hop. apply Hok; [done|].
  apply elem_of_concat. exists (ops_of self (parsed_of e)). split; [|done].
  by do 2 apply list_elem_of_fmap_2.
Qed.

Lemma surreal_on_batch_spec w u b last :
  cb_inv (breaker w) -> batch_in_hand view (event_type_strs self) (batch_size (config self)) w u b last ->
  fst (on_batch self b u) = Continue /\ turn_spec w (snd (on_batch self b u)).
Proof.
  intros Hi Hb. unfold on_batch. set (w2 := record _ u).
  apply (batch_in_hand_after _ _ _ _ _ w2) in Hb; [|apply (law_record L)].
  pose proof (batch_in_hand_moves _ _ _ _ _ _ _ Hb) as M2.
  destruct (project_batch self b w2) as [[ops had] w2'] eqn:Hp.
  destruct (apply_ops self ops w2') as [r w3] eqn:Happ.
  destruct (project_apply_ok _ _ _ _ _ _ _ Hp Happ (proj2 M2 Hi)) as (M3 & Hnone & Hok).
  apply (batch_in_hand_after _ _ _ _ _ w3) in Hb; [|done].
  destruct r as [[[]|e]|]; [| |done].
  2: { apply surreal_pause_turn. transitivity w2; [done|]. etransitivity; [exact M3|].
       etransitivity; [apply (law_record L)|]. case_decide; [done|apply surreal_beat_moves]. }
  pose proof Hb as (mid & _ & _ & _ & Hlast).
  pose proof (save_spec b (Z.of_nat (length b)) (now w2) last w3 Hlast) as Hs.
  destruct (save_checkpoint_and_record_metrics _ _ _ _ w3) as [r w4].
  simpl in Hs. destruct Hs as (G4 & B4 & S4).
  assert (H4 : turn_spec w w4) by (eapply turn_saved; [exact Hb|auto|done|done|done]).
  cbv zeta. case_match; (split; [done|]); eapply turn_spec_after; try exact H4.
  - etransitivity; [apply surreal_beat_moves|apply (law_sleep_or_cancel L)].
  - apply surreal_beat_moves.
Qed.

Lemma surreal_poll_spec w :
  cb_inv (breaker w) -> fst (poll self w) = Continue /\ turn_spec w (snd (poll self w)).
Proof.
  intros Hi. apply (fetch_moves view _ _ (fun p => fst p = Continue /\ turn_spec w (snd p)) _ _ _ _ _ _ L).
  - intros u M. apply surreal_pause_turn. etransitivity; [exact M|].
    etransitivity; [etransitivity; apply (law_record L)|apply surreal_beat_moves].
  - intros u M. apply surreal_pause_turn. etransitivity; [exact M|].
    etransitivity; [apply (law_record L)|apply surreal_beat_moves].
  - intros b last u Hb. by eapply surreal_on_batch_spec.
Qed.

Lemma surreal_poll_ok : body_ok view projected (event_type_strs self) (batch_size (config self)) breaker_ok (poll self).
Proof.
  intros w Hi. destruct (surreal_poll_spec w Hi) as [Hc Ht]. split_and!; [done|done|].
  by eapply turn_keeps_breaker.
Qed.

Lemma surreal_run_inv fuel w :
  worker_inv w -> let '(r, w') := run self fuel w in
    r <> Panic /\ worker_inv w' /\ saved (view w) <= saved (view w') /\ grows (view w) (view w').
Proof. apply (run_loop_inv _ _ projected_app _ _ _ _ _ _ _ _ _ L surreal_poll_ok), (law_record L). Qed.
End Safety.

(** ** Refused events *)

Section Refused.
Context (self : Worker) (dead : W -> DeadLetterTable).
Context (Hrecord : forall m w, dead (record m w) = dead w).
Context (Hexec : forall f w r w', execute f w = (r, w') ->
  dead w' = f (dead w) \/ (dead w' = dead w /\ r <> Ok tt)).

(** The row the worker keeps for an event the projection refuses for good. *)
Definition poisoned (p : ParsedEvent) (k : string * Z) (row : DeadLetterRow) : Prop :=
  exists err st, project_parsed (projection self) p = Err err /\
    ProjectionError.classify err = ErrorClass.Fatal /\ ParsedEvent.as_stored_event p = Ok st /\
    k = (name (projection self), StoredEvent.sequence_number st) /\
    row = dead_letter_row (ParsedEvent.event_type p) err st.

(** What [project_events] does to the table. *)
Record dead_spec (ps : list ParsedEvent) (t t' : DeadLetterTable) : Prop := {
  dead_kept k row : t !! k = Some row -> t' !! k = Some row;
  dead_new k row : t !! k = None -> t' !! k = Some row ->
    dead_letter_pool self = true /\ exists p, p ∈ ps /\ poisoned p k row
}.

Lemma dead_spec_cons p ps t t1 t' :
  dead_spec [p] t t1 -> dead_spec ps t1 t' -> dead_spec (p :: ps) t t'.
Proof.
  intros [K1 N1] [K2 N2]. split; [auto|]. intros k row Ht Ht'.
  destruct (t1 !! k) as [r1|] eqn:H1.
  - pose proof (K2 _ _ H1) as H1'. rewrite Ht' in H1'. injection H1' as <-.
    destruct (N1 _ _ Ht H1) as (? & q & ->%list_elem_of_singleton & ?).
    split; [done|]. exists p. split; [by left|done].
  - destruct (N2 _ _ H1 Ht') as (? & q & ? & ?). split; [done|]. exists q. split; [by right|done].
Qed.

Lemma dead_spec_refl ps t : dead_spec ps t t.
Proof. split; [done|]. intros. congruence. Qed.

Lemma record_fatal_event_dead p err w :
  dead_letter_pool self = true -> project_parsed (projection self) p = Err err ->
  ProjectionError.classify err = ErrorClass.Fatal ->
  let w' := record_fatal_event (name (projection self)) p err w in
  dead_spec [p] (dead w) (dead w') /\
  ((forall f w, fst (execute f w) = Ok tt) -> forall k row, poisoned p k row -> is_Some (dead w' !! k)).
Proof.
  intros Hpool Hp Hc. unfold record_fatal_event. destruct (ParsedEvent.as_stored_event p) as [st|] eqn:Hst.
  2: { rewrite Hrecord. split; [apply dead_spec_refl|]. intros _ k row (err' & st & _ & _ & ? & _). congruence. }
  cbv zeta. unfold record_fatal. set (row := dead_letter_row _ err st). set (k := (name (projection self), StoredEvent.sequence_number st)).
  set (f := insert_dead_letter _ _ row). set (w1 := record _ w).
  destruct (execute f w1) as [r w2] eqn:He. pose proof (Hexec _ _ _ _ He) as Hd.
  unfold w1 in Hd. rewrite Hrecord in Hd. cbn [snd]. split.
  - destruct Hd as [->|[-> _]]; [|apply dead_spec_refl]. split.
    + intros k' row'. apply insert_dead_letter_keeps.
    + intros k' row' Hn Hs. split; [done|]. exists p. split; [by left|].
      destruct (decide (k' = k)) as [->|Hne].
      2: { unfold f in Hs. rewrite insert_dead_letter_fresh in Hs; done. }
      pose proof (insert_dead_letter_new _ _ row _ Hn) as Hnew. unfold f in Hs.
      injection (eq_trans (eq_sym Hnew) Hs) as <-. exists err, st. done.
  - intros Hok k' row' (err' & st' & _ & _ & Hst' & -> & _).
    rewrite Hst in Hst'. injection Hst' as <-.
    pose proof (Hok f w1) as Hr. rewrite He in Hr. simpl in Hr. subst r.
    destruct Hd as [->|[_ ?]]; [|done]. apply insert_dead_letter_present.
Qed.

Lemma project_events_dead ps w :
  let w' := snd (project_events self ps w) in
  dead_spec ps (dead w) (dead w') /\
  (dead_letter_pool self = true -> (forall f w, fst (execute f w) = Ok tt) ->
   forall p k row, p ∈ ps -> poisoned p k row -> is_Some (dead w' !! k)).
Proof.
  revert w. induction ps as [|p ps IH]; intros w; cbv zeta.
  { split; [apply dead_spec_refl|]. intros _ _ p k row Hp. by apply not_elem_of_nil in Hp. }
  cbn [project_events]. destruct (project_parsed (projection self) p) as [ops|err] eqn:Hp.
  - specialize (IH w). destruct (project_events self ps w) as [[all had] w'].
    cbn [snd] in *. destruct IH as [Hs Hl]. split.
    + by eapply dead_spec_cons; [apply dead_spec_refl|].
    + intros Hpool Hok q k row [->|Hq]%elem_of_cons Hk; [|by eapply Hl].
      destruct Hk as (? & ? & ? & _). congruence.
  - cbv zeta. set (w1 := record _ w). set (w2 := match ProjectionError.classify err with
      ErrorClass.Fatal => _ | _ => _ end).
    assert (H2 : dead_spec [p] (dead w) (dead w2) /\
      (dead_letter_pool self = true -> (forall f w, fst (execute f w) = Ok tt) ->
       forall k row, poisoned p k row -> is_Some (dead w2 !! k))).
    { unfold w2. destruct (ProjectionError.classify err) eqn:Hc.
      2,3: unfold w1; rewrite Hrecord; (split; [apply dead_spec_refl|]);
           intros _ _ k row (err' & ? & ? & ? & _); congruence.
      destruct (dead_letter_pool self) eqn:Hpool.
      2: { unfold w1. rewrite Hrecord. split; [apply dead_spec_refl|done]. }
      destruct (record_fatal_event_dead p err w1 Hpool Hp Hc) as [Hs Hl].
      unfold w1 at 1 in Hs. rewrite Hrecord in Hs. split; [done|]. intros _. apply Hl. }
    destruct H2 as [Hs2 Hl2]. specialize (IH w2).
    destruct (project_events self ps w2) as [[all had] w']. cbn [snd] in *. destruct IH as [Hs Hl]. split.
    + by eapply dead_spec_cons.
    + intros Hpool Hok q k row [->|Hq]%elem_of_cons Hk; [|by eapply Hl].
      destruct (Hl2 Hpool Hok k row Hk) as [r Hr]. exists r. by apply (dead_kept _ _ _ Hs).
Qed.
End Refused.
End SurrealWorker.
End SurrealWorker.

(** ** Properties *)

(** C30 (the sink misses no operation). Start the worker in a world where, for
    every canonical row of its event types up to the saved checkpoint, every
    operation the projection derives from the row is in the sink. After any
    number of turns the same holds, the checkpoint has not moved back, and no turn
    has panicked, whatever fails: exhausted retries leave the checkpoint where it
    is, a failed checkpoint save makes the batch come again. Only events the
    projection refuses are passed without a write. *)
Theorem surreal_worker_never_skips {W} `{DeadLetterWorld W} `{EventCodecs}
  (msg : CircuitOpen -> string) (self : @SurrealWorker.Worker W) (view : W -> View SinkOperation)
  (fuel : nat) (w : W)
  (L : WorkerLaws view (name (SurrealWorker.projection self)) (sink_name (SurrealWorker.sink self)))
  (Hexecute : forall f w, moves view w (snd (execute f w)))
  (Happly : forall ops, call_ok view (apply_batch (SurrealWorker.sink self) ops) ops)
  (Hpolicy : policy_ok (SurrealWorker.retry_policy self))
  (Hbreaker : cb_inv (breaker w))
  (Hstart : no_skip (SurrealWorker.projected self) (SurrealWorker.event_type_strs self) (view w)) :
  let '(r, w') := SurrealWorker.run msg self fuel w in
  r <> Panic /\ saved (view w) <= saved (view w') /\
  no_skip (SurrealWorker.projected self) (SurrealWorker.event_type_strs self) (view w').
Proof.
  pose proof (SurrealWorker.surreal_run_inv msg self view L Hexecute Happly Hpolicy fuel w
    (conj Hstart Hbreaker)) as Hr.
  destruct (SurrealWorker.run msg self fuel w) as [r w']. by destruct Hr as (? & [? _] & ? & _).
Qed.

(** Refused events. Projecting a batch yields exactly the operations of the
    accepted events in batch order and reports whether any was refused. With a
    dead-letter pool, an event refused with a fatal error leaves a row under the
    projection's name and its sequence number, with its type, data, error class
    and message; rows already there are kept, a replay adds none, and nothing but
    such events adds a row. *)
Theorem refused_events_dead_lettered {W} `{DeadLetterWorld W} `{EventCodecs}
  (self : @SurrealWorker.Worker W) (dead : W -> DeadLetterTable) (b : list StoredEvent) (w : W)
  (Hrecord : forall m w, dead (record m w) = dead w)
  (Hexec : forall f w, dead (snd (execute f w)) = f (dead w))
  (Hok : forall f w, fst (execute f w) = Ok tt) :
  let ps := map parsed_of b in
  let '(ops, had_error, w') := SurrealWorker.project_batch self b w in
  ops = concat (map (SurrealWorker.ops_of self) ps) /\
  had_error = existsb (SurrealWorker.refused self) ps /\
  (forall k row, dead w !! k = Some row -> dead w' !! k = Some row) /\
  (forall k row, dead w !! k = None -> dead w' !! k = Some row ->
    exists p, p ∈ ps /\ SurrealWorker.poisoned self p k row) /\
  (SurrealWorker.dead_letter_pool self = true ->
    forall p k row, p ∈ ps -> SurrealWorker.poisoned self p k row -> is_Some (dead w' !! k)).
Proof.
  cbv zeta. pose proof (SurrealWorker.project_batch_ops self b w) as Hops.
  assert (Hexec' : forall f w r w', execute f w = (r, w') ->
    dead w' = f (dead w) \/ (dead w' = dead w /\ r <> Ok tt)).
  { intros f u r u' He. left. by rewrite <- Hexec, He. }
  unfold SurrealWorker.project_batch in *.
  set (n := name (SurrealWorker.projection self)) in *.
  pose proof (parse_batch_once_map n b w) as Hmap.
  assert (Hw : dead (snd (parse_batch_once n b w)) = dead w).
  { symmetry. assert (PreOrder (fun u v => dead u = dead v)) by (split; [done|intros ??? -> ->; done]).
    apply (parse_batch_once_steps (fun u v => dead u = dead v) n b w). intros m u. by rewrite Hrecord. }
  destruct (parse_batch_once n b w) as [parsed w1]. cbn [fst snd] in Hmap, Hw. subst parsed.
  destruct (SurrealWorker.project_events_dead self dead Hrecord Hexec' (map parsed_of b) w1) as [[Hkeep Hnew] Hl].
  rewrite Hw in Hkeep, Hnew.
  destruct (SurrealWorker.project_events self (map parsed_of b) w1) as [[ops had] w'].
  cbn [fst snd] in *. injection Hops as -> ->.
  split; [done|]. split; [done|]. split; [exact Hkeep|]. split.
  - intros k row Hn Hs. by destruct (Hnew k row Hn Hs).
  - intros Hpool p k row. by apply Hl.
Qed.

#[local] Existing Instance sample_codecs.

(** A projection that upserts one node per deposit and refuses redemptions. *)
Definition demo_project (e : StoredEvent) : result (list SinkOperation) ProjectionError :=
  if decide (StoredEvent.event_type e = "Deposited")
  then Ok [SinkOperation.UpsertNode (RecordId.new "vault" (StoredEvent.transaction_hash e)) ∅]
  else Err (ProjectionError.MissingField "receiver").

Definition demo_surreal_worker : @SurrealWorker.Worker (demo SinkOperation) :=
  SurrealWorker.with_dead_letter_pool
    (SurrealWorker.new
       {| event_types := [EventType.Deposited; EventType.Redeemed]; name := "deposit";
          project := demo_project; project_parsed := @default_project_parsed sample_codecs demo_project |}
       {| sink_name := "surrealdb"; apply_batch := demo_write |}
       {| batch_size := 2; poll_interval_ms := 500 |}).

(** The refused redemption is passed and dead-lettered, the deposits are written. *)
Example demo_surreal_run :
  let '(r, w) := @SurrealWorker.run _ _ sample_codecs (fun _ => "open") demo_surreal_worker 3
                   (demo_begin demo_rows [ProjectionError.Surreal "closed"]) in
  r = OutOfFuel /\ length (dw_applied w) = 2%nat /\
  map fst (map_to_list (dw_dead w)) = [("deposit", 2)] /\
  Checkpoint.get_checkpoint (proj1_sig (dw_checkpoints w)) "deposit" "surrealdb" = 4.
Proof. vm_compute. done. Qed.

Lemma surreal_worker_never_skips_witness :
  let '(r, w') := @SurrealWorker.run _ _ sample_codecs (fun _ => "open") demo_surreal_worker 3
                    (demo_begin demo_rows [ProjectionError.Surreal "closed"]) in
  r <> Panic /\ 0 <= saved (demo_view "deposit" "surrealdb" w') /\
  no_skip (SurrealWorker.projected demo_surreal_worker) ["Deposited"; "Redeemed"]
    (demo_view "deposit" "surrealdb" w').
Proof.
  exact (@surreal_worker_never_skips _ _ sample_codecs (fun _ => "open") demo_surreal_worker
    (demo_view "deposit" "surrealdb") 3 (demo_begin demo_rows [ProjectionError.Surreal "closed"])
    (demo_laws "deposit" "surrealdb" eq_refl) ltac:(by intros f w; split) (demo_write_ok _ _)
    (proj1 policies_ok) (with_defaults_inv _) (demo_begin_no_skip _ _ _ _ _)).
Defined.

Lemma refused_events_dead_lettered_witness :
  let ps := map (@parsed_of sample_codecs) demo_rows in
  let '(ops, had_error, w') := @SurrealWorker.project_batch _ _ sample_codecs demo_surreal_worker
                                 demo_rows (demo_begin demo_rows []) in
  ops = concat (map (SurrealWorker.ops_of demo_surreal_worker) ps) /\
  had_error = existsb (SurrealWorker.refused demo_surreal_worker) ps /\
  (forall k row, (∅ : DeadLetterTable) !! k = Some row -> dw_dead w' !! k = Some row) /\
  (forall k row, (∅ : DeadLetterTable) !! k = None -> dw_dead w' !! k = Some row ->
    exists p, p ∈ ps /\ SurrealWorker.poisoned demo_surreal_worker p k row) /\
  (SurrealWorker.dead_letter_pool demo_surreal_worker = true ->
    forall p k row, p ∈ ps -> SurrealWorker.poisoned demo_surreal_worker p k row ->
      is_Some (dw_dead w' !! k)).
Proof.
  exact (@refused_events_dead_lettered _ _ sample_codecs demo_surreal_worker dw_dead demo_rows
    (demo_begin demo_rows []) (fun m w => eq_refl) (fun f w => eq_refl) (fun f w => eq_refl)).
Defined.
