(* ===== verification/CoreEntitiesWorker.v ===== *)
(** * The dual-write worker

    [crates/projections/src/worker/core_entities.rs]: the worker that writes the
    core entities to SurrealDB and PostgreSQL. It has a retry loop of its own,
    because two circuit breakers guard the write and a failure must count against
    the database it came from. *)

From S2P Require Import Prelude Events Errors CircuitBreaker Retry EventSource Checkpoint WorkerWorld DemoWorld.

(** A world with a second breaker: [breaker] is [pg_cb], this one [surreal_cb]. *)
Class DualWorld (W : Type) := {
  dual_worker_world :: WorkerWorld W;
  surreal_cb : W -> CircuitBreaker;
  set_surreal_cb : CircuitBreaker -> W -> W
}.

Inductive CircuitCheckOutcome :=
  | Proceed
  | Retrying
  | Exhausted (msg : string).

Inductive AttemptOutcome :=
  | Success
  | RetryAttempt
  | Fail (e : ProjectionError).

Module CoreEntitiesWorker.
Section CoreEntitiesWorker.
Context {W : Type} `{DualWorld W} `{EventCodecs} (circuit_open_message : CircuitOpen -> string).

Record CoreEntitiesWorker := {
  name : string;
  event_types : list EventType.EventType;
  process_parsed_batch : list ParsedEvent -> W -> result unit ProjectionError * W;
  config : WorkerConfig;
  heartbeat : bool;
  retry_policy : RetryPolicy
}.

(** The name, the event types and the batch handler are the projection's. *)
Definition new (name : string) (event_types : list EventType.EventType)
    (process_parsed_batch : list ParsedEvent -> W -> result unit ProjectionError * W)
    (config : WorkerConfig) : CoreEntitiesWorker := {|
  name := name; event_types := event_types; process_parsed_batch := process_parsed_batch;
  config := config; heartbeat := false; retry_policy := event_driven |}.

Definition with_heartbeat (self : CoreEntitiesWorker) : CoreEntitiesWorker := {|
  name := name self; event_types := event_types self;
  process_parsed_batch := process_parsed_batch self; config := config self; heartbeat := true;
  retry_policy := retry_policy self |}.

Definition beat_heartbeat (self : CoreEntitiesWorker) (w : W) : W :=
  if heartbeat self then beat w else w.

(** [set_circuit_state] of one breaker and of both. *)
Definition emit_surreal (proj_name : string) (w : W) : W :=
  emit (SetCircuitState proj_name "surrealdb" (state (surreal_cb w))) w.
Definition emit_pg (proj_name : string) (w : W) : W :=
  emit (SetCircuitState proj_name "pg" (state (breaker w))) w.

(** [rand_u64] then [record_failure] on one breaker. *)
Definition fail_surreal (w : W) : W :=
  let '(rand, w) := next_rand w in
  set_surreal_cb (record_failure (surreal_cb w) (now w) rand) w.
Definition fail_pg (w : W) : W :=
  let '(rand, w) := next_rand w in
  set_breaker (record_failure (breaker w) (now w) rand) w.

Definition count_open_surreal (proj_name : string) (w : W) : W :=
  if decide (state (surreal_cb w) = CircuitState.Open)
  then emit (RecordCircuitOpen proj_name "surrealdb") w else w.
Definition count_open_pg (proj_name : string) (w : W) : W :=
  if decide (state (breaker w) = CircuitState.Open)
  then emit (RecordCircuitOpen proj_name "pg") w else w.

Definition penalise_both_circuits (proj_name : string) (w : W) : W :=
  let w := fail_pg (fail_surreal w) in
  let w := count_open_surreal proj_name w in
  let w := count_open_pg proj_name w in
  emit_pg proj_name (emit_surreal proj_name w).

Definition record_dual_failure (e : ProjectionError) (proj_name : string) (w : W) : W :=
  match e with
  | ProjectionError.Surreal _ | ProjectionError.Sink _ =>
      emit_surreal proj_name (count_open_surreal proj_name (fail_surreal w))
  | ProjectionError.Database _ =>
      emit_pg proj_name (count_open_pg proj_name (fail_pg w))
  | ProjectionError.CircuitOpen _ => penalise_both_circuits proj_name w
  | ProjectionError.InvalidEventData _ | ProjectionError.MissingField _
  | ProjectionError.Serialization _ | ProjectionError.Config _
  | ProjectionError.UniqueConstraintViolation _ => penalise_both_circuits proj_name w
  end.

Definition record_dual_success (proj_name : string) (w : W) : W :=
  let w := set_surreal_cb (record_success (surreal_cb w)) w in
  let w := set_breaker (record_success (breaker w)) w in
  let w := emit_pg proj_name (emit_surreal proj_name w) in
  match available_permits proj_name w with
  | Some available => record (SetSemaphoreAvailable proj_name available) w
  | None => w
  end.

(** [None] is the panic of a breaker that is open without a time. *)
Definition check_circuit_breakers (self : CoreEntitiesWorker) (proj_name : string) (attempt : Z)
    (delay_secs : Z) (w : W) : option CircuitCheckOutcome * Z * W :=
  match check (surreal_cb w) (now w) with
  | None => (None, delay_secs, w)
  | Some (surreal, cb) =>
      let w := set_surreal_cb cb w in
      match check (breaker w) (now w) with
      | None => (None, delay_secs, w)
      | Some (pg, cb) =>
          let w := set_breaker cb w in
          let exhausted open := (Some (Exhausted (circuit_open_message open)), delay_secs,
                               emit_pg proj_name (emit_surreal proj_name w)) in
          let wait d :=
            let w := emit_pg proj_name (emit_surreal proj_name w) in
            (Some Retrying, next_delay (retry_policy self) delay_secs,
             beat_heartbeat self (sleep d w)) in
          match surreal, pg with
          | Ok _, Ok _ => (Some Proceed, delay_secs, w)
          | Err s, Ok _ =>
              if attempt <? max_retries (retry_policy self) then wait (next_probe_in s) else exhausted s
          | Ok _, Err p =>
              if attempt <? max_retries (retry_policy self) then wait (next_probe_in p) else exhausted p
          | Err s, Err p =>
              if attempt <? max_retries (retry_policy self)
              then wait (Z.max (next_probe_in s) (next_probe_in p)) else exhausted s
          end
      end
  end.

(** The back-off sleep shared by the two transient paths. *)
Definition back_off (self : CoreEntitiesWorker) (delay_secs : Z) (w : W) : W :=
  let '(rand, w) := next_rand w in
  beat_heartbeat self (sleep (millis (compute_jitter_ms delay_secs rand)) w).

Definition classify_and_route (self : CoreEntitiesWorker) (r : result unit ProjectionError)
    (attempt delay_secs : Z) (proj_name : string) (w : W) : AttemptOutcome * Z * W :=
  match r with
  | Ok _ => (Success, delay_secs, record_dual_success proj_name w)
  | Err err =>
      match ProjectionError.classify err with
      | ErrorClass.Transient | ErrorClass.CircuitProtected =>
          let w := record_dual_failure err proj_name w in
          if max_retries (retry_policy self) <=? attempt then (Fail err, delay_secs, w)
          else
            let w := record (RecordError proj_name "dual") w in
            let w := record (RecordStatus proj_name "dual" 3) w in
            let w := back_off self delay_secs w in
            (RetryAttempt, next_delay (retry_policy self) delay_secs, w)
      | ErrorClass.Fatal => (Fail err, delay_secs, w)
      end
  end.

(** The attempts left of [process_with_retry]; [None] is a panic. *)
Fixpoint process_attempts (self : CoreEntitiesWorker) (parsed : list ParsedEvent)
    (attempts : list Z) (delay_secs : Z) (w : W) : option (result unit ProjectionError) * W :=
  match attempts with
  | [] =>
      (Some (Err (ProjectionError.Sink
         "core_entities: max_retries is zero; cannot attempt batch")), w)
  | attempt :: rest =>
      let '(outcome, delay_secs, w) := check_circuit_breakers self (name self) attempt delay_secs w in
      match outcome with
      | None => (None, w)
      | Some Retrying => process_attempts self parsed rest delay_secs w
      | Some (Exhausted msg) => (Some (Err (ProjectionError.CircuitOpen msg)), w)
      | Some Proceed =>
          let '(permit, w) := acquire (name self) w in
          match permit with
          | Err e =>
              if max_retries (retry_policy self) <=? attempt
              then (Some (Err (ProjectionError.Sink e)), w)
              else process_attempts self parsed rest (next_delay (retry_policy self) delay_secs)
                     (back_off self delay_secs w)
          | Ok _ =>
              let '(r, w) := process_parsed_batch self parsed w in
              let '(outcome, delay_secs, w) :=
                classify_and_route self r attempt delay_secs (name self) w in
              let w := release (name self) w in
              match outcome with
              | Success => (Some (Ok tt), w)
              | RetryAttempt => process_attempts self parsed rest delay_secs w
              | Fail e => (Some (Err e), w)
              end
          end
      end
  end.

Definition process_with_retry (self : CoreEntitiesWorker) (events : list StoredEvent) (w : W)
    : option (result unit ProjectionError) * W :=
  let '(parsed, w) := parse_batch_once (name self) events w in
  process_attempts self parsed (seqZ 1 (max_retries (retry_policy self)))
    (base_backoff_secs (retry_policy self)) w.

Definition event_type_strs (self : CoreEntitiesWorker) : list string :=
  map EventType.as_str (event_types self).

Definition pause (ms : Z) (w : W) : cycle * W := (Continue, sleep_or_cancel ms w).

(** The rest of a turn that read a batch. *)
Definition on_batch (self : CoreEntitiesWorker) (batch : list StoredEvent) (w : W) : cycle * W :=
  let pname := name self in
  let batch_len := Z.of_nat (length batch) in
  let batch_start := now w in
  let w := record (RecordStatus pname "dual" 1) w in
  let '(r, w) := process_with_retry self batch w in
  match r with
  | None => (Panicked, w)
  | Some (Err _) =>
      let w := record (RecordStatus pname "dual" 3) w in
      let any_circuit_open :=
        bool_decide (state (surreal_cb w) = CircuitState.Open) ||
        bool_decide (state (breaker w) = CircuitState.Open) in
      let w := if any_circuit_open then w else beat_heartbeat self w in
      pause 30000 w
  | Some (Ok _) =>
      match list.last batch with
      | None => (Continue, w)
      | Some last =>
          let new_sequence := StoredEvent.sequence_number last in
          let new_block := StoredEvent.block_number last in
          let '(r, w) := WorkerWorld.save_checkpoint pname "dual" new_sequence new_block w in
          match r with
          | Err _ => pause 30000 (beat_heartbeat self (record (RecordStatus pname "dual" 3) w))
          | Ok _ =>
              let w := record (RecordBatchProcessed pname "dual" batch_len
                                 (elapsed batch_start (now w)) new_sequence) w in
              let w := beat_heartbeat self w in
              if batch_len <? batch_size (config self)
              then pause (poll_interval_ms (config self)) w
              else (Continue, w)
          end
      end
  end.

(** One turn of the loop after the cancellation test. *)
Definition poll (self : CoreEntitiesWorker) (w : W) : cycle * W :=
  let pname := name self in
  let poll_interval := poll_interval_ms (config self) in
  fetch_then pname "dual" (event_type_strs self) (batch_size (config self))
    (fun w => pause poll_interval (beat_heartbeat self
       (record (RecordStatus pname "dual" 3) (record (RecordError pname "dual") w))))
    (fun w => pause poll_interval (beat_heartbeat self (record (RecordStatus pname "dual" 2) w)))
    (on_batch self) w.

(** [run], for at most [fuel] turns. *)
Definition run (self : CoreEntitiesWorker) (fuel : nat) (w : W) : loop_end * W :=
  poll_loop (poll self) fuel (record (RecordStatus (name self) "dual" 0) w).

(** ** Safety *)

Section Safety.
Context (self : CoreEntitiesWorker) (view : W -> View ParsedEvent).

Definition both_inv (w : W) : Prop := cb_inv (breaker w) /\ cb_inv (surreal_cb w).

(** A call that keeps the second breaker's invariant. *)
Definition keeps (w w' : W) : Prop := cb_inv (surreal_cb w) -> cb_inv (surreal_cb w').

(** The worker's world, with what its calls do to the second breaker. *)
Record DualLaws : Prop := {
  dual_laws : WorkerLaws view (name self) "dual";
  dual_set_pg cb w : surreal_cb (set_breaker cb w) = surreal_cb w;
  dual_set cb w : surreal_cb (set_surreal_cb cb w) = cb /\
    breaker (set_surreal_cb cb w) = breaker w /\ view (set_surreal_cb cb w) = view w;
  dual_rand w : surreal_cb (snd (next_rand w)) = surreal_cb w;
  dual_emit m w : surreal_cb (emit m w) = surreal_cb w;
  dual_beat w : keeps w (beat w);
  dual_sleep d w : keeps w (sleep d w);
  dual_pause d w : keeps w (sleep_or_cancel d w);
  dual_acquire n w : keeps w (snd (acquire n w));
  dual_release n w : keeps w (release n w);
  dual_record m w : keeps w (record m w);
  dual_get n s w : keeps w (snd (WorkerWorld.get_checkpoint n s w));
  dual_save n s q b w : keeps w (snd (WorkerWorld.save_checkpoint n s q b w));
  dual_read ts a n w : keeps w (snd (read_batch_multi ts a n w));
  dual_process ps w : keeps w (snd (process_parsed_batch self ps w))
}.

Context (D : DualLaws).
Context (Hprocess : forall ps, call_ok view (process_parsed_batch self ps) ps).

#[global] Instance keeps_preorder : PreOrder keeps.
Proof. split; [by intros w ?|]. intros w1 w2 w3 K1 K2 ?. by apply K2, K1. Qed.

Definition dm (w w' : W) : Prop := moves view w w' /\ keeps w w'.

#[global] Instance dm_preorder : PreOrder dm.
Proof.
  split; [intros w; split; [reflexivity|by intros ?]|]. intros w1 w2 w3 [? K1] [? K2].
  split; [by transitivity w2|]. intros ?. by apply K2, K1.
Qed.

Lemma dm_inv w w' : dm w w' -> both_inv w -> both_inv w'.
Proof. intros [[_ ?] ?] [? ?]. split; auto. Qed.

Abbreviation L := (dual_laws D).

Lemma dm_beat w : dm w (beat_heartbeat self w).
Proof.
  unfold beat_heartbeat. case_match; [|done]. split; [apply (law_beat L)|apply (dual_beat D)].
Qed.

Lemma dm_record m w : dm w (record m w).
Proof. split; [apply (law_record L)|apply (dual_record D)]. Qed.

Lemma dm_pause ms w : dm w (sleep_or_cancel ms w).
Proof. split; [apply (law_sleep_or_cancel L)|apply (dual_pause D)]. Qed.

Lemma dm_emit m w : dm w (emit m w).
Proof. split; [apply (law_emit L)|]. unfold keeps. by rewrite (dual_emit D). Qed.

Lemma dm_set cb w : (cb_inv (breaker w) -> cb_inv cb) -> dm w (set_breaker cb w).
Proof.
  intros Hcb. split; [by eapply set_breaker_moves, Hcb; exact L|]. unfold keeps.
  by rewrite (dual_set_pg D).
Qed.

Lemma dm_set_surreal cb w : (cb_inv (surreal_cb w) -> cb_inv cb) -> dm w (set_surreal_cb cb w).
Proof.
  intros Hcb. destruct (dual_set D cb w) as (E1 & E2 & E3). split.
  - split; [by rewrite E3|by rewrite E2].
  - unfold keeps. by rewrite E1.
Qed.

Lemma dm_rand w : dm w (snd (next_rand w)).
Proof. split; [apply (law_rand L)|]. unfold keeps. by rewrite (dual_rand D). Qed.

Lemma dm_emits n w : dm w (emit_pg n (emit_surreal n w)).
Proof. etransitivity; apply dm_emit. Qed.

Lemma dm_fail_surreal w : dm w (fail_surreal w).
Proof.
  unfold fail_surreal. pose proof (dm_rand w) as Hr. destruct (next_rand w) as [rand w1].
  etransitivity; [exact Hr|]. apply dm_set_surreal, record_failure_inv.
Qed.

Lemma dm_fail_pg w : dm w (fail_pg w).
Proof.
  unfold fail_pg. pose proof (dm_rand w) as Hr. destruct (next_rand w) as [rand w1].
  etransitivity; [exact Hr|]. apply dm_set, record_failure_inv.
Qed.

Lemma dm_count_surreal n w : dm w (count_open_surreal n w).
Proof. unfold count_open_surreal. case_decide; [apply dm_emit|done]. Qed.

Lemma dm_count_pg n w : dm w (count_open_pg n w).
Proof. unfold count_open_pg. case_decide; [apply dm_emit|done]. Qed.

Lemma dm_penalise n w : dm w (penalise_both_circuits n w).
Proof.
  unfold penalise_both_circuits. cbv zeta.
  etransitivity; [apply dm_fail_surreal|]. etransitivity; [apply dm_fail_pg|].
  etransitivity; [apply dm_count_surreal|]. etransitivity; [apply dm_count_pg|]. apply dm_emits.
Qed.

Lemma dm_failure e n w : dm w (record_dual_failure e n w).
Proof.
  unfold record_dual_failure. case_match; try apply dm_penalise.
  - etransitivity; [apply dm_fail_pg|]. etransitivity; [apply dm_count_pg|apply dm_emit].
  - etransitivity; [apply dm_fail_surreal|]. etransitivity; [apply dm_count_surreal|apply dm_emit].
  - etransitivity; [apply dm_fail_surreal|]. etransitivity; [apply dm_count_surreal|apply dm_emit].
Qed.

Lemma dm_success n w : dm w (record_dual_success n w).
Proof.
  unfold record_dual_success. cbv zeta. set (w1 := set_surreal_cb _ w). set (w2 := set_breaker _ w1).
  transitivity w2.
  { transitivity w1; [apply dm_set_surreal, record_success_inv|apply dm_set, record_success_inv]. }
  etransitivity; [apply dm_emits|]. case_match; [apply dm_record|done].
Qed.

(** Metrics leave both breakers alone; a failure changes its own. *)
Definition cbs (w : W) : CircuitBreaker * CircuitBreaker := (surreal_cb w, breaker w).

Lemma emit_cbs m w : cbs (emit m w) = cbs w.
Proof. unfold cbs. by rewrite (dual_emit D), (proj2 (law_emit L m w)). Qed.

Lemma count_cbs n w :
  cbs (count_open_surreal n w) = cbs w /\ cbs (count_open_pg n w) = cbs w.
Proof. unfold count_open_surreal, count_open_pg. repeat case_decide; by rewrite ?emit_cbs. Qed.

Lemma fail_surreal_cbs w :
  (exists t rand, surreal_cb (fail_surreal w) = record_failure (surreal_cb w) t rand) /\
  breaker (fail_surreal w) = breaker w.
Proof.
  unfold fail_surreal. pose proof (dual_rand D w) as Hs. destruct (law_rand L w) as (_ & Hb & _).
  destruct (next_rand w) as [rand w1]. simpl in Hs, Hb.
  destruct (dual_set D (record_failure (surreal_cb w1) (now w1) rand) w1) as (-> & -> & _).
  rewrite Hs, Hb. eauto.
Qed.

Lemma fail_pg_cbs w :
  surreal_cb (fail_pg w) = surreal_cb w /\
  exists t rand, breaker (fail_pg w) = record_failure (breaker w) t rand.
Proof.
  unfold fail_pg. pose proof (dual_rand D w) as Hs. destruct (law_rand L w) as (_ & Hb & _).
  destruct (next_rand w) as [rand w1]. simpl in Hs, Hb.
  rewrite (dual_set_pg D), (proj1 (law_set L _ w1)), Hs, Hb. eauto.
Qed.

(** What [record_dual_failure] leaves in the breakers. *)
Lemma record_dual_failure_cbs e n w :
  cbs (record_dual_failure e n w) =
    match e with
    | ProjectionError.Surreal _ | ProjectionError.Sink _ => cbs (fail_surreal w)
    | ProjectionError.Database _ => cbs (fail_pg w)
    | _ => cbs (fail_pg (fail_surreal w))
    end.
Proof.
  destruct e; cbn [record_dual_failure]; unfold penalise_both_circuits, emit_surreal, emit_pg;
    cbv zeta; rewrite ?emit_cbs, ?(proj1 (count_cbs _ _)), ?(proj2 (count_cbs _ _));
    rewrite ?(proj1 (count_cbs _ _)); done.
Qed.

Lemma dm_back_off d w : dm w (back_off self d w).
Proof.
  unfold back_off. pose proof (dm_rand w) as Hr. destruct (next_rand w) as [rand w1].
  etransitivity; [exact Hr|]. etransitivity; [|apply dm_beat].
  split; [apply (law_sleep L)|apply (dual_sleep D)].
Qed.

Lemma check_breakers_ok n attempt d w :
  both_inv w -> let '(o, _, w') := check_circuit_breakers self n attempt d w in o <> None /\ dm w w'.
Proof.
  intros [Hp Hs]. unfold check_circuit_breakers.
  destruct (check_total (surreal_cb w) (now w) Hs) as (rs & cbs & -> & Hcs).
  set (w1 := set_surreal_cb cbs w). assert (M1 : dm w w1) by (apply dm_set_surreal; done).
  destruct (check_total (breaker w1) (now w1) (proj1 (dm_inv _ _ M1 (conj Hp Hs)))) as (rp & cbp & -> & Hcp).
  set (w2 := set_breaker cbp w1).
  assert (M2 : dm w w2) by (etransitivity; [exact M1|by apply dm_set]).
  assert (M3 : dm w (emit_pg n (emit_surreal n w2))) by (etransitivity; [exact M2|apply dm_emits]).
  assert (Mw : forall t, dm w (beat_heartbeat self (sleep t (emit_pg n (emit_surreal n w2))))).
  { intros t. etransitivity; [exact M3|]. etransitivity; [|apply dm_beat].
    split; [apply (law_sleep L)|apply (dual_sleep D)]. }
  cbv zeta. repeat case_match; simplify_eq; (split; [done|]); auto.
Qed.

Lemma classify_ok r attempt d n w :
  let '(o, _, w') := classify_and_route self r attempt d n w in
  dm w w' /\ (o = Success -> r = Ok tt).
Proof.
  unfold classify_and_route. destruct r as [[]|e]; cbv beta iota zeta; [split; [apply dm_success|done]|].
  assert (Hf : dm w (back_off self d (record (RecordStatus n "dual" 3) (record (RecordError n "dual")
    (record_dual_failure e n w))))).
  { etransitivity; [apply dm_failure|]. etransitivity; [apply dm_record|].
    etransitivity; [apply dm_record|]. apply dm_back_off. }
  destruct (ProjectionError.classify e); [by split|..];
    (destruct (max_retries (retry_policy self) <=? attempt); cbv beta iota zeta;
     [split; [apply dm_failure|done]|by split]).
Qed.

Definition written (e : StoredEvent) (l : list ParsedEvent) : Prop := parsed_of e ∈ l.

Lemma core_written_app e l more : written e l -> written e (l ++ more).
Proof. intros ?. apply elem_of_app. by left. Qed.

Lemma process_attempts_ok ps attempts d w :
  both_inv w -> let '(r, w') := process_attempts self ps attempts d w in
  dm w w' /\ r <> None /\ (r = Some (Ok tt) -> forall p, p ∈ ps -> p ∈ applied (view w')).
Proof.
  revert d w. induction attempts as [|a rest IH]; intros d w Hi; cbn [process_attempts]; [done|].
  assert (Hrec : forall d w1, dm w w1 -> let '(r, w') := process_attempts self ps rest d w1 in
    dm w w' /\ r <> None /\ (r = Some (Ok tt) -> forall p, p ∈ ps -> p ∈ applied (view w'))).
  { intros d1 w1 M1. specialize (IH d1 w1 (dm_inv _ _ M1 Hi)).
    destruct (process_attempts self ps rest d1 w1) as [r w']. destruct IH as (? & ? & ?).
    split; [by etransitivity|done]. }
  pose proof (check_breakers_ok (name self) a d w Hi) as Hc.
  destruct (check_circuit_breakers self (name self) a d w) as [[o d1] w1].
  destruct Hc as [Ho M1]. destruct o as [[| |msg]|]; [|by apply Hrec|done|done].
  pose proof (conj (law_acquire L (name self) w1) (dual_acquire D (name self) w1) : dm _ _) as M2.
  destruct (acquire (name self) w1) as [[u|e] w2]; simpl in M2.
  2: { destruct (max_retries (retry_policy self) <=? a); cbv beta iota;
         [split; [by transitivity w1|done]|]. apply Hrec.
       transitivity w1; [done|]. transitivity w2; [done|]. apply dm_back_off. }
  destruct (process_parsed_batch self ps w2) as [r w3] eqn:Hp.
  destruct (Hprocess _ _ _ _ Hp) as [Mp Hin]. pose proof (dual_process D ps w2) as Kp.
  rewrite Hp in Kp. simpl in Kp.
  assert (M3 : dm w w3) by (transitivity w1; [done|]; transitivity w2; [done|by split]).
  pose proof (classify_ok r a d1 (name self) w3) as Hcl.
  destruct (classify_and_route self r a d1 (name self) w3) as [[o d2] w4].
  destruct Hcl as [M4 Hs].
  pose proof (conj (law_release L (name self) w4) (dual_release D (name self) w4) : dm _ _) as M5.
  assert (M : dm w (release (name self) w4)) by (transitivity w3; [done|]; by transitivity w4).
  destruct o; [|by apply Hrec|done]. split; [done|]. split; [done|]. intros _ p Hps.
  destruct (transitivity M4 M5) as [[[[_ [more ->]] _] _] _].
  apply elem_of_app. left. by apply Hin; [apply Hs|].
Qed.

Lemma process_with_retry_ok b w :
  both_inv w -> let '(r, w') := process_with_retry self b w in
  dm w w' /\ r <> None /\ (r = Some (Ok tt) -> forall e, e ∈ b -> written e (applied (view w'))).
Proof.
  intros Hi. unfold process_with_retry. pose proof (parse_batch_once_map (name self) b w) as Hmap.
  pose proof (parse_batch_once_steps dm (name self) b w dm_record) as Hm.
  destruct (parse_batch_once (name self) b w) as [ps w1]. simpl in Hmap, Hm. subst ps.
  pose proof (process_attempts_ok (map parsed_of b) (seqZ 1 (max_retries (retry_policy self)))
    (base_backoff_secs (retry_policy self)) w1 (dm_inv _ _ Hm Hi)) as Hp.
  destruct (process_attempts _ _ _ _ w1) as [r w']. destruct Hp as (? & ? & Hok).
  split; [by transitivity w1|]. split; [done|]. intros Hr e He. apply Hok; [done|].
  by apply list_elem_of_fmap_2.
Qed.

Abbreviation turn_spec := (turn_spec view written (event_type_strs self) (batch_size (config self))).

(** What a turn from [w] may end in. *)
Definition turn_result (w : W) (p : cycle * W) : Prop :=
  fst p = Continue /\ turn_spec w (snd p) /\ keeps w (snd p).

Lemma turn_result_moves w u : dm w u -> turn_result w (Continue, u).
Proof. intros [? ?]. by split_and!; [|left|]. Qed.

Lemma turn_result_after w w1 u : turn_spec w w1 -> keeps w w1 -> dm w1 u -> turn_result w (Continue, u).
Proof.
  intros Ht Hk [Hm Hk']. split_and!; [done|by eapply turn_spec_after|]. intros ?. by apply Hk', Hk.
Qed.

Lemma dm_beat_pause ms w : dm w (sleep_or_cancel ms (beat_heartbeat self w)).
Proof. etransitivity; [apply dm_beat|apply dm_pause]. Qed.

Lemma core_on_batch_spec w u b last :
  both_inv w -> dm w u ->
  batch_in_hand view (event_type_strs self) (batch_size (config self)) w u b last ->
  turn_result w (on_batch self b u).
Proof.
  intros Hi Mu Hb. unfold on_batch. set (pn := name self). set (w2 := record _ u).
  assert (M2 : dm u w2) by apply dm_record. assert (Mw2 : dm w w2) by (by transitivity u).
  pose proof (process_with_retry_ok b w2 (dm_inv _ _ Mw2 Hi)) as Hp.
  destruct (process_with_retry self b w2) as [r w3]. destruct Hp as (M3 & Hnone & Hok).
  assert (Mw3 : dm w w3) by (by transitivity w2).
  apply (batch_in_hand_after _ _ _ _ _ w3) in Hb; [|transitivity w2; [apply M2|apply M3]].
  destruct r as [[[]|e]|]; [| |done].
  2: { apply turn_result_moves. etransitivity; [exact Mw3|]. etransitivity; [apply dm_record|].
       etransitivity; [|apply dm_pause]. case_match; [done|apply dm_beat]. }
  pose proof Hb as (mid & _ & _ & _ & Hlast). rewrite Hlast.
  pose proof (dual_save D pn "dual" (seq last) (StoredEvent.block_number last) w3) as K4.
  destruct (WorkerWorld.save_checkpoint _ _ _ _ w3) as [r w4] eqn:Hsave.
  destruct (law_save L _ _ _ _ _ Hsave) as (G4 & B4 & S4).
  assert (Kw4 : keeps w w4) by (intros Hs; by apply K4, Mw3).
  assert (H4 : turn_spec w w4).
  { eapply turn_saved; [exact Hb|auto|done|done|]. destruct S4 as [?|[? _]]; auto. }
  destruct r as [[]|e]; [cbv zeta; case_match|]; (eapply turn_result_after; [exact H4|exact Kw4|]).
  - etransitivity; [apply dm_record|apply dm_beat_pause].
  - etransitivity; [apply dm_record|apply dm_beat].
  - etransitivity; [apply dm_record|apply dm_beat_pause].
Qed.

Lemma core_poll_ok :
  body_ok view written (event_type_strs self) (batch_size (config self)) both_inv (poll self).
Proof.
  intros w Hi.
  enough (Hspec : turn_result w (poll self w)).
  { destruct Hspec as (? & Ht & Hk). split_and!; [done|done|].
    split; [by eapply turn_keeps_breaker, Hi|apply Hk, Hi]. }
  apply (fetch_spec view _ _ keeps (turn_result w) _ _ _ _ _ _ L).
  - intros u. apply (dual_get D).
  - intros n u. apply (dual_read D).
  - intros u K M. apply turn_result_moves. transitivity u; [by split|].
    etransitivity; [etransitivity; apply dm_record|apply dm_beat_pause].
  - intros u K M. apply turn_result_moves. transitivity u; [by split|].
    etransitivity; [apply dm_record|apply dm_beat_pause].
  - intros b last u K Hb. apply (core_on_batch_spec w u b last Hi); [|done].
    split; [by eapply batch_in_hand_moves|done].
Qed.

Lemma core_run_inv fuel w :
  worker_inv view written (event_type_strs self) both_inv w -> let '(r, w') := run self fuel w in
    r <> Panic /\ worker_inv view written (event_type_strs self) both_inv w' /\
    saved (view w) <= saved (view w') /\ grows (view w) (view w').
Proof.
  apply (run_loop_inv _ _ core_written_app _ _ _ _ _ _ _ _ _ L core_poll_ok).
  intros Hi. exact (dm_inv _ _ (dm_record _ _) Hi).
Qed.
End Safety.
End CoreEntitiesWorker.
End CoreEntitiesWorker.

(** ** Properties *)

(** The dual write misses no event. Start the worker in a world where every
    canonical row of its event types up to the saved checkpoint has been written
    by the dual-write projection. After any number of turns the same holds, the
    checkpoint has not moved back and no turn has panicked, whatever the two
    databases, the permits and the checkpoint store do. *)
Theorem core_entities_never_skips {W} `{DualWorld W} `{EventCodecs} (msg : CircuitOpen -> string)
  (self : @CoreEntitiesWorker.CoreEntitiesWorker W) (view : W -> View ParsedEvent) (fuel : nat) (w : W)
  (D : CoreEntitiesWorker.DualLaws self view)
  (Hprocess : forall ps, call_ok view (CoreEntitiesWorker.process_parsed_batch self ps) ps)
  (Hbreakers : CoreEntitiesWorker.both_inv w)
  (Hstart : no_skip CoreEntitiesWorker.written (CoreEntitiesWorker.event_type_strs self) (view w)) :
  let '(r, w') := CoreEntitiesWorker.run msg self fuel w in
  r <> Panic /\ saved (view w) <= saved (view w') /\
  no_skip CoreEntitiesWorker.written (CoreEntitiesWorker.event_type_strs self) (view w').
Proof.
  pose proof (CoreEntitiesWorker.core_run_inv msg self view D Hprocess fuel w (conj Hstart Hbreakers)) as Hr.
  destruct (CoreEntitiesWorker.run msg self fuel w) as [r w']. by destruct Hr as (? & [? _] & ? & _).
Qed.

(** A failure of the worker: which breaker it is held against. *)
Definition blames_surreal (e : ProjectionError) : bool :=
  match e with ProjectionError.Database _ => false | _ => true end.
Definition blames_pg (e : ProjectionError) : bool :=
  match e with ProjectionError.Surreal _ | ProjectionError.Sink _ => false | _ => true end.

(** Failures are held against the right database. A failed dual write with
    error [e] counts exactly one failure on the SurrealDB breaker unless [e] is a
    PostgreSQL error, exactly one on the PostgreSQL breaker unless [e] is a
    SurrealDB or sink error, and leaves the other breaker untouched: an outage of
    one database never opens the other's circuit, and every failure counts
    somewhere. *)
Theorem dual_failure_routing {W} `{DualWorld W} `{EventCodecs}
  (self : @CoreEntitiesWorker.CoreEntitiesWorker W) (view : W -> View ParsedEvent)
  (e : ProjectionError) (n : string) (w : W) (D : CoreEntitiesWorker.DualLaws self view) :
  let w' := CoreEntitiesWorker.record_dual_failure e n w in
  (if blames_surreal e
   then exists t rand, surreal_cb w' = record_failure (surreal_cb w) t rand
   else surreal_cb w' = surreal_cb w) /\
  (if blames_pg e
   then exists t rand, breaker w' = record_failure (breaker w) t rand
   else breaker w' = breaker w) /\
  (blames_surreal e || blames_pg e) = true.
Proof.
  destruct (CoreEntitiesWorker.fail_surreal_cbs self view D w) as (Hs & Hsp).
  destruct (CoreEntitiesWorker.fail_pg_cbs self view D w) as (Hps & Hp).
  destruct (CoreEntitiesWorker.fail_pg_cbs self view D (CoreEntitiesWorker.fail_surreal w)) as (Hbs & Hb).
  rewrite Hsp in Hb.
  pose proof (CoreEntitiesWorker.record_dual_failure_cbs self view D e n w) as Hc. cbv zeta.
  pose proof (f_equal fst Hc) as H1. pose proof (f_equal snd Hc) as H2. clear Hc.
  destruct e; cbn [blames_surreal blames_pg]; cbn [CoreEntitiesWorker.cbs fst snd] in H1, H2;
    rewrite H1, H2, ?Hbs;
    (split; [|split; [|done]]); eauto.
Qed.

#[local] Existing Instance sample_codecs.

#[global] Instance demo_dual {A} : DualWorld (demo A) := {|
  dual_worker_world := demo_worker;
  surreal_cb := dw_surreal;
  set_surreal_cb := dw_set_surreal
|}.

Definition demo_core_worker : @CoreEntitiesWorker.CoreEntitiesWorker (demo ParsedEvent) :=
  CoreEntitiesWorker.new "core_entities" [EventType.Deposited; EventType.Redeemed] demo_write
    {| batch_size := 2; poll_interval_ms := 500 |}.

Lemma demo_dual_laws :
  CoreEntitiesWorker.DualLaws demo_core_worker (demo_view "core_entities" "dual").
Proof.
  split; try done; try (intros; by intros ?).
  - by apply demo_laws.
  - intros n s q b w. unfold CoreEntitiesWorker.keeps. simpl. unfold dw_save. by case_decide.
  - intros ps w. unfold CoreEntitiesWorker.keeps. simpl. unfold demo_write. by case_match.
Qed.

(** Five SurrealDB failures open that breaker only; the worker waits for the
    probe interval and then gets both batches through. *)
Example demo_core_run :
  let '(r, w) := CoreEntitiesWorker.run (fun _ => "open") demo_core_worker 4
                   (demo_begin demo_rows (replicate 5 (ProjectionError.Surreal "closed"))) in
  r = OutOfFuel /\ map ParsedEvent.sequence_number (dw_applied w) = [1; 2; 4] /\
  Checkpoint.get_checkpoint (proj1_sig (dw_checkpoints w)) "core_entities" "dual" = 4 /\
  open_count (dw_breaker w) = 0.
Proof. vm_compute. done. Qed.

Lemma core_entities_never_skips_witness :
  let '(r, w') := CoreEntitiesWorker.run (fun _ => "open") demo_core_worker 4
                    (demo_begin demo_rows (replicate 5 (ProjectionError.Surreal "closed"))) in
  r <> Panic /\ 0 <= saved (demo_view "core_entities" "dual" w') /\
  no_skip CoreEntitiesWorker.written ["Deposited"; "Redeemed"] (demo_view "core_entities" "dual" w').
Proof.
  pose proof (core_entities_never_skips (fun _ => "open") demo_core_worker
    (demo_view "core_entities" "dual") 4
    (demo_begin demo_rows (replicate 5 (ProjectionError.Surreal "closed"))) demo_dual_laws
    (demo_write_ok _ _) (conj (with_defaults_inv _) (with_defaults_inv _))) as Hx.
  specialize (Hx (demo_begin_no_skip _ _ _ _ _)). exact Hx.
Defined.

Lemma dual_failure_routing_witness :
  let w : demo ParsedEvent := demo_begin demo_rows [] in
  let w' := CoreEntitiesWorker.record_dual_failure (ProjectionError.Database "gone") "core_entities" w in
  surreal_cb w' = surreal_cb w /\
  (exists t rand, breaker w' = record_failure (breaker w) t rand) /\ (false || true) = true.
Proof.
  exact (dual_failure_routing demo_core_worker (demo_view "core_entities" "dual")
    (ProjectionError.Database "gone") "core_entities" (demo_begin demo_rows []) demo_dual_laws).
Defined.
