(* ===== verification/BatchWorker.v ===== *)
(** * The timer-driven worker

    [crates/projections/src/worker/batch.rs]: sleep for the interval, run one
    cycle of the projection under retry, cool down when it failed. Waiting for
    "the sleep or the cancellation" is [sleep_or_cancel] followed by a look at the
    token, which is never un-cancelled. *)

From S2P Require Import Prelude Errors CircuitBreaker Retry WorkerWorld Traits DemoWorld.

Module BatchWorker.
Section BatchWorker.
Context {W : Type} `{WorkerWorld W} (circuit_open_message : CircuitOpen -> string).

Record BatchWorker := {
  projection : BatchProjection W;
  interval_secs : Z;
  heartbeat : bool;
  retry_policy : RetryPolicy
}.

Definition new (projection : BatchProjection W) (interval_secs : Z) : BatchWorker := {|
  projection := projection; interval_secs := interval_secs; heartbeat := false;
  retry_policy := batch |}.

Definition with_heartbeat (self : BatchWorker) : BatchWorker := {|
  projection := projection self; interval_secs := interval_secs self; heartbeat := true;
  retry_policy := retry_policy self |}.

Definition label (self : BatchWorker) : string := batch_name (projection self) +:+ ":batch".

Definition beat_heartbeat (self : BatchWorker) (w : W) : W := if heartbeat self then beat w else w.

(** The closure [retry_with_backoff] calls. *)
Definition attempt (self : BatchWorker) (w : W) : result unit ProjectionError * W :=
  let name := batch_name (projection self) in
  let '(permit, w) := acquire name w in
  match permit with
  | Err e => (Err (ProjectionError.Sink e), w)
  | Ok _ => let '(r, w) := run_cycle (projection self) w in (r, release name w)
  end.

(** One cycle after the wake-up: retries, metrics, beats and the cool-down. *)
Definition do_cycle (self : BatchWorker) (w : W) : cycle * W :=
  let name := batch_name (projection self) in
  let w := record (RecordStatus name "batch" 1) (beat_heartbeat self w) in
  let ctx := {| projection_name := name; target := "pg"; has_heartbeat := heartbeat self |} in
  let '(r, w, _) := retry_with_backoff circuit_open_message (retry_policy self) ctx (attempt self) w in
  match r with
  | None => (Panicked, w)
  | Some (Ok _) =>
      let w := record (RecordStatus name "batch" 2) w in
      let w := match available_permits name w with
               | Some available => record (SetSemaphoreAvailable name available) w
               | None => w
               end in
      (Continue, beat_heartbeat self w)
  | Some (Err _) =>
      let w := beat_heartbeat self (record (RecordStatus name "batch" 3) w) in
      (Continue, sleep_or_cancel 30000 w)
  end.

Fixpoint timer_loop (self : BatchWorker) (fuel : nat) (w : W) : loop_end * W :=
  match fuel with
  | O => (OutOfFuel, w)
  | S fuel =>
      if is_cancelled w then (Returned (Ok tt), w)
      else
        let w := sleep_or_cancel (interval_secs self * 1000) w in
        if is_cancelled w then (Returned (Ok tt), w)
        else
          let '(c, w) := do_cycle self w in
          match c with
          | Continue => timer_loop self fuel w
          | Panicked => (Panic, w)
          end
  end.

(** [run], for at most [fuel] turns. *)
Definition run (self : BatchWorker) (fuel : nat) (w : W) : loop_end * W :=
  timer_loop self fuel (record (RecordStatus (batch_name (projection self)) "batch" 0) w).

(** ** What a run does *)

Section Laws.
Context {A : Type} (self : BatchWorker) (view : W -> View A) (name sink : string).
Context (L : WorkerLaws view name sink).
Context (Hcycle : call_ok view (run_cycle (projection self)) []).
Context (Hpolicy : policy_ok (retry_policy self)).

Abbreviation mv := (moves view).

Lemma batch_beat_moves w : mv w (beat_heartbeat self w).
Proof. unfold beat_heartbeat. case_match; [apply (law_beat L)|done]. Qed.

Lemma cycle_attempt_ok : call_ok view (attempt self) [].
Proof.
  intros w r w' Ha. unfold attempt in Ha.
  pose proof (law_acquire L (batch_name (projection self)) w) as Hacq.
  destruct (acquire _ w) as [[u|e] w1]; simpl in Hacq.
  - destruct (run_cycle (projection self) w1) as [r2 w2] eqn:Hp. injection Ha as <- <-.
    split; [|intros _ a Ha; by apply not_elem_of_nil in Ha].
    transitivity w1; [done|]. transitivity w2; [apply (Hcycle _ _ _ Hp)|apply (law_release L)].
  - injection Ha as <- <-. by split.
Qed.

Lemma do_cycle_ok w : cb_inv (breaker w) -> fst (do_cycle self w) = Continue /\ mv w (snd (do_cycle self w)).
Proof.
  intros Hi. unfold do_cycle. cbv zeta. set (ctx := {| projection_name := _; target := _; has_heartbeat := _ |}).
  set (w1 := record _ (beat_heartbeat self w)).
  assert (M1 : mv w w1) by (etransitivity; [apply batch_beat_moves|apply (law_record L)]).
  destruct (retry_moves view _ _ circuit_open_message (retry_policy self) ctx (attempt self) [] w1 L
    Hpolicy cycle_attempt_ok (proj2 M1 Hi)) as (r & w2 & log & -> & M2 & _).
  assert (Mw : mv w w2) by (by transitivity w1).
  destruct r as [[]|e]; (split; [done|]); (transitivity w2; [done|]).
  - etransitivity; [apply (law_record L)|]. etransitivity; [|apply batch_beat_moves].
    case_match; [apply (law_record L)|done].
  - etransitivity; [apply (law_record L)|]. etransitivity; [apply batch_beat_moves|].
    apply (law_sleep_or_cancel L).
Qed.

Lemma timer_loop_ok fuel w :
  cb_inv (breaker w) -> let '(r, w') := timer_loop self fuel w in
  (r = OutOfFuel \/ r = Returned (Ok tt) /\ is_cancelled w' = true) /\ mv w w'.
Proof.
  revert w. induction fuel as [|fuel IH]; intros w Hi; cbn [timer_loop]; [by split; [left|]|].
  destruct (is_cancelled w) eqn:Hc; [by split; [right|]|]. cbv zeta.
  set (w1 := sleep_or_cancel _ w). assert (M1 : mv w w1) by apply (law_sleep_or_cancel L).
  destruct (is_cancelled w1) eqn:Hc1; [by split; [right|]|].
  destruct (do_cycle_ok w1 (proj2 M1 Hi)) as [Hco M2].
  destruct (do_cycle self w1) as [c w2]. simpl in Hco, M2. subst c.
  assert (M : mv w w2) by (by transitivity w1). specialize (IH w2 (proj2 M Hi)).
  destruct (timer_loop self fuel w2) as [r w']. destruct IH as [? ?]. split; [done|].
  by transitivity w2.
Qed.
End Laws.
End BatchWorker.
End BatchWorker.

(** ** Properties *)

(** The batch worker only stops when told to. Whatever its cycles, permits
    and breaker do, the timer loop neither panics nor returns an error: it returns
    [Ok] only when it found the token cancelled, and until then goes on. It
    never touches an event checkpoint. *)
Theorem batch_worker_stops_only_when_cancelled {W A} `{WorkerWorld W} (msg : CircuitOpen -> string)
  (self : @BatchWorker.BatchWorker W) (view : W -> View A) (name sink : string) (fuel : nat) (w : W)
  (L : WorkerLaws view name sink)
  (Hcycle : call_ok view (run_cycle (BatchWorker.projection self)) [])
  (Hpolicy : policy_ok (BatchWorker.retry_policy self)) (Hbreaker : cb_inv (breaker w)) :
  let '(r, w') := BatchWorker.run msg self fuel w in
  (r = OutOfFuel \/ r = Returned (Ok tt) /\ is_cancelled w' = true) /\
  saved (view w') = saved (view w).
Proof.
  unfold BatchWorker.run. set (w1 := record _ w).
  assert (M1 : moves view w w1) by apply (law_record L).
  pose proof (BatchWorker.timer_loop_ok msg self view name sink L Hcycle Hpolicy fuel w1
    (proj2 M1 Hbreaker)) as Hl.
  destruct (BatchWorker.timer_loop msg self fuel w1) as [r w']. destruct Hl as [Hr [[_ Hs] _]].
  split; [done|]. rewrite Hs. apply M1.
Qed.

Definition demo_batch_worker : @BatchWorker.BatchWorker (demo unit) :=
  BatchWorker.with_heartbeat
    (BatchWorker.new {| batch_name := "leaderboard_refresh"; run_cycle := demo_write [] |} 60).

(** Cancelled at 90 s, in the second wait. *)
Definition demo_stopping : demo unit := {|
  dw_time := 0; dw_tick := 0; dw_breaker := with_defaults "pg"; dw_rows := [];
  dw_checkpoints := exist _ ∅ Checkpoint.table_ok_empty; dw_applied := [];
  dw_errors := [ProjectionError.Config "bad"]; dw_stop := Some (secs 90);
  dw_dead := ∅; dw_surreal := with_defaults "surrealdb" |}.

Example demo_batch_run :
  fst (BatchWorker.run (fun _ => "open") demo_batch_worker 5 demo_stopping) = Returned (Ok tt).
Proof. vm_compute. done. Qed.

Lemma batch_worker_stops_only_when_cancelled_witness :
  let '(r, w') := BatchWorker.run (fun _ => "open") demo_batch_worker 5 demo_stopping in
  (r = OutOfFuel \/ r = Returned (Ok tt) /\ is_cancelled w' = true) /\
  saved (demo_view "x" "pg" w') = saved (demo_view "x" "pg" demo_stopping).
Proof.
  exact (batch_worker_stops_only_when_cancelled (fun _ => "open") demo_batch_worker
    (demo_view "x" "pg") "x" "pg" 5 demo_stopping (demo_laws "x" "pg" eq_refl) (demo_write_ok _ _ _)
    (proj2 policies_ok) (with_defaults_inv _)).
Defined.
