(* ===== verification/Shard.v ===== *)
(** * Sharding

    [crates/projections/src/shard.rs]: which shard owns a vault. The hash
    ([ahash] with pinned seeds) is a parameter, a function of the two key strings
    with 64-bit results; [BigDecimal] values here are integers, so rescaling them
    to scale 0 and printing is printing the integer. *)

From stdpp Require Import pretty.
From S2P Require Import Prelude MachineInt Events.

(** [bd.with_scale(0).to_string()] *)
Definition canonical_shard_key (bd : BigDecimal) : string := pretty (bd : Z).

Class ShardHash := {
  hash_pair : string -> string -> Z;
  hash_pair_range s t : is_u64 (hash_pair s t)
}.

Section Shard.
Context `{ShardHash}.

(** [None] is the assertion failure. *)
Definition calculate_shard (term_id curve_id : string) (total_shards : Z) : option Z :=
  if 0 <? total_shards then
    let hash := hash_pair term_id curve_id in
    Some ((hash mod total_shards) mod 2 ^ 32)
  else None.

Definition belongs_to_shard (term_id curve_id : string) (shard_id total_shards : Z) : bool :=
  if total_shards <=? 1 then true
  else match calculate_shard term_id curve_id total_shards with
       | Some s => s =? shard_id
       | None => false
       end.

(** [should_skip_shard], the same method of three projections. *)
Definition should_skip_shard (shard_id total_shards : Z) (term_id : string) (curve_id : BigDecimal) : bool :=
  (1 <? total_shards) &&
  negb (belongs_to_shard term_id (canonical_shard_key curve_id) shard_id total_shards).

(** The shard of a vault. *)
Definition owner (total_shards : Z) (term_id : string) (curve_id : BigDecimal) : Z :=
  hash_pair term_id (canonical_shard_key curve_id) mod total_shards.

Lemma owner_range n t c : 1 <= n -> 0 <= owner n t c < n.
Proof. intros Hn. apply Z.mod_pos_bound. lia. Qed.

Lemma should_skip_owner n s t c :
  1 <= n <= U32_MAX -> 0 <= s < n -> should_skip_shard s n t c = negb (owner n t c =? s).
Proof.
  intros [Hn Hmax] Hs. unfold should_skip_shard, belongs_to_shard, calculate_shard.
  destruct (Z.ltb_spec 1 n); cbn [andb].
  - destruct (Z.leb_spec n 1); [lia|]. destruct (Z.ltb_spec 0 n); [|lia]. cbv zeta.
    fold (owner n t c). pose proof (owner_range n t c Hn). unfold U32_MAX in Hmax.
    rewrite (Z.mod_small (owner n t c)) by lia. done.
  - assert (n = 1) as -> by lia. pose proof (owner_range 1 t c ltac:(lia)).
    replace (owner 1 t c) with s by lia. by rewrite Z.eqb_refl.
Qed.
End Shard.

(** A concrete hash for the witnesses: the lengths of the two strings. *)
Definition sample_hash : ShardHash.
Proof.
  refine {| hash_pair s t := as_u64 (Z.of_nat (String.length s + 3 * String.length t)) |}.
  intros s t. apply as_u64_range.
Defined.

(** ** Properties *)

(** One owner per vault. With [1 <= total_shards], of the shards
    [0 .. total_shards - 1] exactly one accepts the events of a vault, whatever the
    hash, and one shard accepts everything; so no vault is processed twice and none
    is left out. *)
Theorem exactly_one_owner `{ShardHash} (total_shards : Z) (term_id : string) (curve_id : BigDecimal)
  (Hn : 1 <= total_shards <= U32_MAX) :
  exists s, 0 <= s < total_shards /\
    should_skip_shard s total_shards term_id curve_id = false /\
    forall s', 0 <= s' < total_shards ->
      should_skip_shard s' total_shards term_id curve_id = false -> s' = s.
Proof.
  exists (owner total_shards term_id curve_id).
  pose proof (owner_range total_shards term_id curve_id ltac:(lia)) as Hr.
  split; [done|]. split.
  - rewrite should_skip_owner by done. by rewrite Z.eqb_refl.
  - intros s' Hs'. rewrite should_skip_owner by done.
    destruct (Z.eqb_spec (owner total_shards term_id curve_id) s'); [done|discriminate].
Qed.

Lemma exactly_one_owner_witness :
  exists s, 0 <= s < 4 /\ @should_skip_shard sample_hash s 4 "0x07" 12 = false /\
    forall s', 0 <= s' < 4 -> @should_skip_shard sample_hash s' 4 "0x07" 12 = false -> s' = s.
Proof. apply (@exactly_one_owner sample_hash 4 "0x07" 12). unfold U32_MAX. lia. Defined.
