(* ===== verification/PgTx.v ===== *)
(** * Transactions

    What the PostgreSQL projections share: an open transaction is the function
    its statements compose to, which takes effect at the commit; a dropped one
    takes none. An [open_step] is code that works on what is open, [does]
    relates it to what it does to the tables; a [step] works on one transaction,
    and [run_tx] brackets it with [begin] and [commit]. [process_events] is the
    loop all the event-driven projections repeat, with its classification of the
    errors. The last part is what transactions leave in a database other writers
    share. *)

From S2P Require Import Prelude Events Errors Retry WorkerWorld DeadLetter.

(** The calls on a connection pool; their errors are [sqlx::Error]s. *)
Class Pool (T W : Type) := {
  begin_tx : W -> result unit string * W;
  statement : W -> result unit string * W;
  commit_tx : (T -> T) -> W -> result unit string * W
}.

(** A pool whose transactions are also read; a query sees what the transaction did. *)
Class ReadPool (T W : Type) := {
  read_pool :: Pool T W;
  fetch {A : Type} : (T -> A) -> (T -> T) -> W -> result A string * W
}.

(** [Utc::now()] *)
Class Clock (W : Type) := { utc_now : W -> DateTime * W }.

(** The pool of a projection and the dead-letter table beside it. *)
Class TxWorld (T W : Type) := {
  tx_dead_letter :: DeadLetterWorld W;
  tx_pool :: Pool T W
}.

(** [#[from] sqlx::Error] *)
Definition database {A} (r : result A string) : result A ProjectionError :=
  match r with Ok a => Ok a | Err e => Err (ProjectionError.Database e) end.

(** ** Steps *)

Section Steps.
Context {X W : Type}.

(** Code that works on what is open, an [X]. *)
Definition open_step : Type := X -> W -> result X ProjectionError * W.

(** One [sqlx::query(..).execute(&mut **tx).await?], through the call [stmt]. *)
Definition exec_on (stmt : W -> result unit string * W) (f : X -> X) : open_step := fun tx w =>
  let '(r, w) := stmt w in
  match r with
  | Err e => (Err (ProjectionError.Database e), w)
  | Ok _ => (Ok (f tx), w)
  end.

(** A query, and what is done with the answer. *)
Definition fetch_on {A} (query : X -> W -> result A string * W) (k : A -> open_step) : open_step := fun tx w =>
  let '(r, w) := query tx w in
  match r with
  | Err e => (Err (ProjectionError.Database e), w)
  | Ok a => k a tx w
  end.

(** [Ok(())], [return Err(e)] and [a.await?; b.await?]. *)
Definition done_step : open_step := fun tx w => (Ok tx, w).
Definition fail_step (e : ProjectionError) : open_step := fun _ w => (Err e, w).
Definition seq_step (a b : open_step) : open_step := fun tx w =>
  let '(r, w) := a tx w in
  match r with
  | Err e => (Err e, w)
  | Ok tx => b tx w
  end.

(** [for x in xs { f(x).await?; }] *)
Definition each {A} (f : A -> open_step) (xs : list A) : open_step :=
  foldr (fun x rest => seq_step (f x) rest) done_step xs.

(** The loop of a projection: [handler] handles one event; an error ends the
    batch, and a fatal one is recorded first. *)
Fixpoint process_events `{DeadLetterWorld W} `{EventCodecs} (projection_name : string)
    (handler : ParsedEvent -> open_step) (events : list ParsedEvent) : open_step := fun tx w =>
  match events with
  | [] => (Ok tx, w)
  | event :: events =>
      let '(r, w) := handler event tx w in
      match r with
      | Ok tx => process_events projection_name handler events tx w
      | Err err =>
          match ProjectionError.classify err with
          | ErrorClass.Transient | ErrorClass.CircuitProtected => (Err err, w)
          | ErrorClass.Fatal => (Err err, record_fatal_event projection_name event err w)
          end
      end
  end.

(** ** What a step does to the tables *)

(** The tables [T] a world shows, what is open does to them what [runs] says, and
    [calm] is the assumption that no call fails. *)
Context {T : Type} (runs : X -> T -> T) (tables : W -> T) (calm : Prop).

(** [body] leaves the committed tables alone; when it succeeds, what is open does
    to them what [g] does; and its errors are those of [g] unless a call fails. *)
Definition does (body : open_step) (g : T -> result T ProjectionError) : Prop :=
  forall tx w,
    let '(r, w') := body tx w in
    tables w' = tables w /\
    (forall tx', r = Ok tx' -> g (runs tx (tables w)) = Ok (runs tx' (tables w))) /\
    (calm -> match g (runs tx (tables w)) with Ok _ => is_ok r = true | Err e => r = Err e end).

Lemma does_exec stmt f g :
  (forall w, tables (snd (stmt w)) = tables w) -> (calm -> forall w, fst (stmt w) = Ok tt) ->
  (forall tx t, g (runs tx t) = runs (f tx) t) -> does (exec_on stmt f) (fun t => Ok (g t)).
Proof.
  intros Hs Hf Hg tx w. unfold exec_on. specialize (Hs w). pose proof (fun Hn => Hf Hn w) as Hw.
  destruct (stmt w) as [[u|e] w1]; (split; [done|split; [|]]).
  - intros tx' [= <-]. by rewrite Hg.
  - done.
  - done.
  - intros Hn. by specialize (Hw Hn).
Qed.

(** A query answers from the tables as the transaction sees them. *)
Lemma does_fetch {A} (query : X -> W -> result A string * W) (q : T -> A) (k : A -> open_step) h :
  (forall tx w, tables (snd (query tx w)) = tables w) ->
  (forall tx w a, fst (query tx w) = Ok a -> a = q (runs tx (tables w))) ->
  (calm -> forall tx w, is_ok (fst (query tx w)) = true) ->
  (forall a, does (k a) (h a)) -> does (fetch_on query k) (fun t => h (q t) t).
Proof.
  intros Hs Hq Hf Hk tx w. unfold fetch_on. specialize (Hs tx w). specialize (Hq tx w).
  pose proof (fun Hn => Hf Hn tx w) as Hw.
  destruct (query tx w) as [[a|e] w1]; cbn in *.
  - specialize (Hk a tx w1). destruct (k a tx w1) as [r w2]. rewrite Hs in Hk.
    by rewrite <- (Hq a eq_refl).
  - split; [done|]. split; [done|]. intros Hn. by specialize (Hw Hn).
Qed.

Lemma does_done : does done_step Ok.
Proof. intros tx w. split; [done|]. split; [by intros tx' [= <-]|done]. Qed.

Lemma does_fail e : does (fail_step e) (fun _ => Err e).
Proof. intros tx w. done. Qed.

Lemma does_seq a b g h :
  does a g -> does b h -> does (seq_step a b) (fun t => let? t := g t in h t).
Proof.
  intros Ha Hb tx w. unfold seq_step. specialize (Ha tx w).
  destruct (a tx w) as [[tx1|e] w1]; destruct Ha as (Ht1 & Hx1 & Hn1).
  - specialize (Hb tx1 w1). destruct (b tx1 w1) as [r w2]. rewrite Ht1 in Hb.
    by rewrite (Hx1 tx1 eq_refl).
  - split; [done|]. split; [done|]. intros Hn. specialize (Hn1 Hn). by destruct (g (runs tx (tables w))).
Qed.

(** Two descriptions of one effect. *)
Lemma does_ext body g h : (forall t, g t = h t) -> does body g -> does body h.
Proof. intros Hgh Hb tx w. rewrite <- !Hgh. apply Hb. Qed.

Lemma does_each {A} (f : A -> open_step) (g : A -> T -> T) xs :
  (forall x, does (f x) (fun t => Ok (g x t))) ->
  does (each f xs) (fun t => Ok (fold_left (fun t x => g x t) xs t)).
Proof.
  intros Hf. induction xs as [|x xs IH]; cbn [each foldr fold_left]; [apply does_done|].
  eapply does_ext; [|eapply does_seq; [apply Hf|apply IH]]. done.
Qed.

(** A whole batch, up to the first error. *)
Fixpoint apply_all (apply_event : ParsedEvent -> T -> result T ProjectionError)
    (ps : list ParsedEvent) (t : T) : result T ProjectionError :=
  match ps with
  | [] => Ok t
  | p :: ps => let? t := apply_event p t in apply_all apply_event ps t
  end.

Lemma does_each_event (handler : ParsedEvent -> open_step) apply_event ps :
  (forall p, does (handler p) (apply_event p)) -> does (each handler ps) (apply_all apply_event ps).
Proof.
  intros Hh. induction ps as [|p ps IH]; [apply does_done|]. cbn [each foldr apply_all].
  exact (does_seq _ _ _ _ (Hh p) IH).
Qed.

(** A batch whose events cannot be refused. *)
Lemma apply_all_pure (f : ParsedEvent -> T -> T) events t :
  apply_all (fun p t => Ok (f p t)) events t = Ok (fold_left (fun t p => f p t) events t).
Proof. revert t. induction events as [|p ps IH]; intros t; [done|]. cbn. apply IH. Qed.

(** Recording a dead letter does not touch the tables. *)
Definition records_apart `{DeadLetterWorld W} : Prop :=
  (forall f w, tables (snd (execute f w)) = tables w) /\ (forall m w, tables (record m w) = tables w).

Lemma record_fatal_tables `{DeadLetterWorld W} `{EventCodecs} n p e w :
  records_apart -> tables (record_fatal_event n p e w) = tables w.
Proof.
  intros [He Hr]. unfold record_fatal_event. case_match; cbv zeta; [|apply Hr].
  unfold record_fatal. by rewrite He, Hr.
Qed.

Lemma does_events `{DeadLetterWorld W} `{EventCodecs} n handler apply_event ps :
  records_apart -> (forall p, does (handler p) (apply_event p)) ->
  does (process_events n handler ps) (apply_all apply_event ps).
Proof.
  intros Hrec Hh. induction ps as [|p ps IH]; [apply does_done|].
  intros tx w. cbn [process_events apply_all]. specialize (Hh p tx w).
  destruct (handler p tx w) as [[tx1|e] w1]; destruct Hh as (Ht1 & Hx1 & Hn1).
  - specialize (IH tx1 w1). destruct (process_events n handler ps tx1 w1) as [r w2]. rewrite Ht1 in IH.
    by rewrite (Hx1 tx1 eq_refl).
  - pose proof (record_fatal_tables n p e w1 Hrec) as Hrw. rewrite Ht1 in Hrw.
    destruct (ProjectionError.classify e); (split; [done|split; [done|]]);
      intros Hn; specialize (Hn1 Hn); by destruct (apply_event p (runs tx (tables w))).
Qed.

Lemma does_events_pure `{DeadLetterWorld W} `{EventCodecs} n handler (f : ParsedEvent -> T -> T) ps :
  records_apart -> (forall p, does (handler p) (fun t => Ok (f p t))) ->
  does (process_events n handler ps) (fun t => Ok (fold_left (fun t p => f p t) ps t)).
Proof.
  intros Hrec Hh. eapply does_ext; [|exact (does_events n handler (fun p t => Ok (f p t)) ps Hrec Hh)].
  intros t. apply apply_all_pure.
Qed.
End Steps.

Notation "a '>>?' b" := (seq_step a b) (at level 60, right associativity).

(** ** One transaction *)

Section Tx.
Context {T W : Type}.

Abbreviation Tx := (T -> T).
Definition step : Type := @open_step Tx W.

Context `{Pool T W}.

Definition exec (f : T -> T) : step := exec_on statement (fun tx t => f (tx t)).

(** [let mut tx = pool.begin().await?; body; tx.commit().await?] *)
Definition run_tx (body : step) (w : W) : result unit ProjectionError * W :=
  let '(r, w) := begin_tx w in
  match r with
  | Err e => (Err (ProjectionError.Database e), w)
  | Ok _ =>
      let '(r, w) := body (fun t => t) w in
      match r with
      | Err e => (Err e, w)
      | Ok tx => let '(r, w) := commit_tx tx w in (database r, w)
      end
  end.

(** What the calls leave alone: only a commit changes the tables; one that fails
    may or may not have taken effect. *)
Record PoolLaws (tables : W -> T) : Prop := {
  tx_begin w : tables (snd (begin_tx w)) = tables w;
  tx_statement w : tables (snd (statement w)) = tables w;
  tx_commit f w r w' : commit_tx f w = (r, w') ->
    tables w' = f (tables w) \/ (tables w' = tables w /\ r <> Ok tt)
}.

(** A database that fails no call. *)
Record never_fails : Prop := {
  nf_begin w : fst (begin_tx w) = Ok tt;
  nf_statement w : fst (statement w) = Ok tt;
  nf_commit f w : fst (commit_tx f w) = Ok tt
}.
End Tx.

Record TxLaws {T W} `{TxWorld T W} (tables : W -> T) : Prop := {
  tx_pool_laws : PoolLaws tables;
  tx_records : records_apart tables
}.

Coercion tx_pool_laws : TxLaws >-> PoolLaws.

(** A query sees what its transaction did to the committed tables. *)
Record ReadLaws {T W} `{ReadPool T W} (tables : W -> T) : Prop := {
  read_laws : PoolLaws tables;
  read_fetch {A} (q : T -> A) tx w : tables (snd (fetch q tx w)) = tables w;
  read_answer {A} (q : T -> A) tx w a : fst (fetch q tx w) = Ok a -> a = q (tx (tables w))
}.

(** Looking at the clock does not touch the tables. *)
Definition clock_apart {T W} `{Clock W} (tables : W -> T) : Prop := forall w, tables (snd (utc_now w)) = tables w.

(** An open transaction is the function it does to the tables. *)
Abbreviation implements tables := (does (fun (tx : _ -> _) t => tx t) tables never_fails).

Section Spec.
Context {T W : Type} `{Pool T W} (tables : W -> T) (L : PoolLaws tables).

Lemma implements_exec f : implements tables (exec f) (fun t => Ok (f t)).
Proof.
  apply does_exec; [apply (tx_statement _ L)|intros Hn; apply (nf_statement Hn)|done].
Qed.

(** All or nothing, and right: a batch that succeeds does what [g] does, one that
    fails does that or nothing, and without a failing call it fails exactly when
    [g] does. *)
Definition batch_implements (batch : W -> result unit ProjectionError * W)
    (g : T -> result T ProjectionError) : Prop :=
  forall w,
    let '(r, w') := batch w in
    (g (tables w) = Ok (tables w') \/ (tables w' = tables w /\ r <> Ok tt)) /\
    (never_fails ->
     match g (tables w) with
     | Ok _ => r = Ok tt
     | Err e => r = Err e
     end).

(** The first half needs no assumption on the calls that fail. *)
Lemma run_tx_outcome calm body g w : does (fun (tx : T -> T) t => tx t) tables calm body g ->
  let '(r, w') := run_tx body w in
  g (tables w) = Ok (tables w') \/ (tables w' = tables w /\ r <> Ok tt).
Proof.
  intros Hb. unfold run_tx. pose proof (tx_begin _ L w) as Htb. destruct (begin_tx w) as [[u|e] w1]; [|by right].
  specialize (Hb (fun t => t) w1). destruct (body (fun t => t) w1) as [[tx|e] w2]; destruct Hb as (Ht & Hx & _);
    cbn in *; rewrite Htb in *; [|by right].
  destruct (commit_tx tx w2) as [r w3] eqn:Hc. pose proof (tx_commit _ L _ _ _ _ Hc) as Hcm. rewrite Ht in Hcm.
  rewrite (Hx tx eq_refl). destruct Hcm as [->|[-> Hr]]; [by left|right]. split; [done|]. by destruct r as [[]|].
Qed.

Lemma run_tx_implements body g : implements tables body g -> batch_implements (run_tx body) g.
Proof.
  intros Hb w. unfold run_tx. pose proof (tx_begin _ L w) as Htb.
  pose proof (fun Hn => nf_begin Hn w) as Hf.
  destruct (begin_tx w) as [[u|e] w1]; cbn [fst snd] in *.
  2: { split; [by right|]. intros Hn. by specialize (Hf Hn). }
  specialize (Hb (fun t => t) w1). destruct (body (fun t => t) w1) as [[tx|e] w2];
    destruct Hb as (Ht & Hx & Hn2); rewrite Htb in Ht, Hx, Hn2.
  - destruct (commit_tx tx w2) as [r w3] eqn:Hc.
    pose proof (tx_commit _ L _ _ _ _ Hc) as Hcm. rewrite Ht in Hcm. rewrite (Hx tx eq_refl). split.
    + destruct Hcm as [->|[-> Hr]]; [by left|right]. split; [done|]. by destruct r as [[]|].
    + intros Hn. pose proof (nf_commit Hn tx w2) as Hk. rewrite Hc in Hk. cbn [fst] in Hk. by subst r.
  - split; [by right|]. intros Hn. specialize (Hn2 Hn).
    by destruct (g (tables w)); [|injection Hn2 as ->].
Qed.

End Spec.

(** ** What a transaction does not touch *)

Section Apart.
Context {T W X : Type} `{Pool T W} (view : W -> X).

(** The calls on the pool do not show in [view]. *)
Record PoolApart : Prop := {
  apart_begin w : view (snd (begin_tx w)) = view w;
  apart_statement w : view (snd (statement w)) = view w;
  apart_commit f w : view (snd (commit_tx f w)) = view w
}.

Definition step_apart (body : @step T W) : Prop := forall tx w, view (snd (body tx w)) = view w.

Context (A : PoolApart).

Lemma exec_apart f : step_apart (exec f).
Proof. intros tx w. unfold exec, exec_on. pose proof (apart_statement A w). by destruct (statement w) as [[|] ?]. Qed.

Lemma seq_apart a b : step_apart a -> step_apart b -> step_apart (seq_step a b).
Proof.
  intros Ha Hb tx w. unfold seq_step. specialize (Ha tx w). destruct (a tx w) as [[tx1|e] w1]; [|done].
  cbn in Ha. by rewrite Hb.
Qed.

Lemma each_apart {B} (f : B -> @step T W) xs : (forall x, step_apart (f x)) -> step_apart (each f xs).
Proof.
  intros Hf. induction xs as [|x xs IH]; cbn [each foldr]; [done|]. by apply seq_apart.
Qed.

Lemma run_tx_apart body w : step_apart body -> view (snd (run_tx body w)) = view w.
Proof.
  intros Hb. unfold run_tx. pose proof (apart_begin A w) as H1. destruct (begin_tx w) as [[u|e] w1]; [|done].
  specialize (Hb (fun t => t) w1). destruct (body (fun t => t) w1) as [[tx|e] w2]; cbn in *; [|congruence].
  pose proof (apart_commit A tx w2) as H2. destruct (commit_tx tx w2) as [r w3]. cbn in *. congruence.
Qed.
End Apart.

(** Proves that a body built from statements implements its effect. *)
Create HintDb tx_db.
#[export] Hint Resolve implements_exec does_done does_fail does_events : tx_db.
#[export] Hint Immediate tx_pool_laws tx_records : tx_db.
#[export] Hint Extern 2 (does _ _ _ (seq_step _ _) _) => (eapply does_seq) : tx_db.

(** ** The history of a database

    What a worker needs of a database it shares with other writers: the view of a world
    keeps the transitions of the tables that were committed, and a commit that reports
    success has added its own. Other transactions may commit at any call, and a commit
    that reports an error may have taken effect. [writes] says what a body does to
    whatever tables it will be committed on; a batch run in a transaction that reports
    success has then left its transition in the history. *)

(** The tables before and after a transaction. *)
Abbreviation Transition T := (T * T)%type.

Section History.
Context {T W : Type} `{TxWorld T W} (view : W -> View (Transition T)).

(** A commit is applied to the tables of the moment, which the transaction need not have seen. *)
Record CommitLaws : Prop := {
  law_begin w : moves view w (snd (begin_tx w));
  law_statement w : moves view w (snd (statement w));
  law_execute f w : moves view w (snd (execute f w));
  law_commit f w r w' : commit_tx f w = (r, w') ->
    moves view w w' /\ (r = Ok tt -> exists t, (t, f t) ∈ applied (view w'))
}.

Context (C : CommitLaws) (Hrecord : forall m w, moves view w (record m w)).

(** Code on an open transaction moves the world, and when it succeeds it has made the
    transaction do what [g] does, on any tables. *)
Definition writes (body : step (T := T) (W := W)) (g : T -> result T ProjectionError) : Prop :=
  forall tx w, let '(r, w') := body tx w in
    moves view w w' /\ forall tx', r = Ok tx' -> forall t, g (tx t) = Ok (tx' t).

Lemma writes_exec f : writes (exec f) (fun t => Ok (f t)).
Proof.
  intros tx w. unfold exec, exec_on. pose proof (law_statement C w) as Hm.
  destruct (statement w) as [[u|e] w1]; (split; [done|]); [by intros tx' [= <-]|done].
Qed.

Lemma writes_done : writes done_step Ok.
Proof. intros tx w. split; [done|]. by intros tx' [= <-]. Qed.

Lemma writes_fail e g : writes (fail_step e) g.
Proof. intros tx w. by split. Qed.

Lemma writes_seq a b g h : writes a g -> writes b h -> writes (seq_step a b) (fun t => let? t := g t in h t).
Proof.
  intros Ha Hb tx w. unfold seq_step. specialize (Ha tx w). destruct (a tx w) as [[tx1|e] w1]; destruct Ha as [M1 E1].
  - specialize (Hb tx1 w1). destruct (b tx1 w1) as [r w2]. destruct Hb as [M2 E2]. split; [by transitivity w1|].
    intros tx' Hr t. rewrite (E1 tx1 eq_refl t). by apply E2.
  - by split.
Qed.

Lemma writes_ext body g h : (forall t, g t = h t) -> writes body g -> writes body h.
Proof.
  intros E Hb tx w. specialize (Hb tx w). destruct (body tx w) as [r w']. destruct Hb as [M Hb]. split; [done|].
  intros tx' Hr t. by rewrite <- E, (Hb tx' Hr).
Qed.

Lemma record_fatal_moves `{EventCodecs} n p e w : moves view w (record_fatal_event n p e w).
Proof.
  unfold record_fatal_event. case_match; [|apply Hrecord]. etransitivity; [apply Hrecord|]. apply (law_execute C).
Qed.

Lemma writes_events `{EventCodecs} n (handler : ParsedEvent -> step) apply_event ps :
  (forall p, writes (handler p) (apply_event p)) -> writes (process_events n handler ps) (apply_all apply_event ps).
Proof.
  intros Hh. induction ps as [|p ps IH]; [apply writes_done|]. intros tx w. cbn [process_events apply_all].
  specialize (Hh p tx w). destruct (handler p tx w) as [[tx1|e] w1]; destruct Hh as [M1 E1].
  - specialize (IH tx1 w1). destruct (process_events n handler ps tx1 w1) as [r w2]. destruct IH as [M2 E2].
    split; [by transitivity w1|]. intros tx' Hr t. rewrite (E1 tx1 eq_refl t). by apply E2.
  - destruct (ProjectionError.classify e); (split; [|done]); [|done..].
    etransitivity; [exact M1|apply record_fatal_moves].
Qed.

(** The transition of a batch: what [g] does took the tables from one state to another. *)
Definition committed (g : T -> result T ProjectionError) (log : list (Transition T)) : Prop :=
  exists t t', g t = Ok t' /\ (t, t') ∈ log.

Lemma committed_app g log more : committed g log -> committed g (log ++ more).
Proof. intros (t & t' & Hg & Hin). exists t, t'. split; [done|]. apply elem_of_app. by left. Qed.

Lemma run_tx_settles body g : writes body g -> call_settles view (run_tx body) (committed g).
Proof.
  intros Hb w r w' Hrun. unfold run_tx in Hrun. pose proof (law_begin C w) as M0.
  destruct (begin_tx w) as [[u|e] w1]; [|by injection Hrun as <- <-].
  specialize (Hb (fun t => t) w1). destruct (body (fun t => t) w1) as [[tx|e] w2]; destruct Hb as [M1 E1].
  - destruct (commit_tx tx w2) as [rc w3] eqn:Hc. injection Hrun as <- <-.
    destruct (law_commit C _ _ _ _ Hc) as [M2 Hh]. split; [transitivity w1; [done|]; by transitivity w2|].
    intros Hr. destruct rc as [[]|e]; [|done]. destruct (Hh eq_refl) as [t Ht]. exists t, (tx t). split; [|done].
    by rewrite (E1 tx eq_refl t).
  - injection Hrun as <- <-. split; [by transitivity w1|done].
Qed.
End History.
