(* ===== verification/Crash.v ===== *)
(** * Crashes

    A run that dies in the middle: [crashing W] is a world in which the process makes so
    many calls and no more. A call after the last answers with an error and leaves the
    world as it is, so the code of a run, left to finish in such a world, leaves the world
    as the crash left it: between two calls, or inside one that took effect and never
    answered, a checkpoint save and a commit included. An open transaction dies with it,
    as only its commit touches the tables. The breaker is memory of the process, and goes
    on being set; a restart finds it in some state that keeps its invariant.

    [lives] are the worlds a supervised worker leads to, through whole runs, runs that
    crash and what happens in between, and [lives_inv] is what they keep. *)

From S2P Require Import Prelude Events Errors CircuitBreaker Retry EventSource WorkerWorld Traits DeadLetter PgTx PgWorker.

(** ** A world that stops *)

Record crashing (W : Type) := { live : W; calls : nat }.
Arguments live {W} _.
Arguments calls {W} _.

Section Crashing.
Context {W : Type}.

(** A call of the process, while it is alive; [dead] is the answer it never gets. *)
Definition ask {A} (dead : A) (call : W -> A * W) (c : crashing W) : A * crashing W :=
  match calls c with
  | O => (dead, c)
  | S n => let '(a, w) := call (live c) in (a, {| live := w; calls := n |})
  end.
Definition tell (call : W -> W) (c : crashing W) : crashing W :=
  match calls c with
  | O => c
  | S n => {| live := call (live c); calls := n |}
  end.

Definition dead_error : ProjectionError := ProjectionError.Sink "the process is gone".

Definition crashing_retry `{RetryWorld W} : RetryWorld (crashing W) := {|
  breaker c := breaker (live c);
  set_breaker cb c := {| live := set_breaker cb (live c); calls := calls c |};
  now c := now (live c);
  next_rand := ask 0 next_rand;
  sleep d := tell (sleep d);
  beat := tell beat;
  emit m := tell (emit m) |}.

Definition crashing_worker `{WorkerWorld W} : WorkerWorld (crashing W) := {|
  worker_retry_world := crashing_retry;
  is_cancelled c := match calls c with O => true | S _ => is_cancelled (live c) end;
  sleep_or_cancel ms := tell (sleep_or_cancel ms);
  get_checkpoint name sink := ask (Err dead_error) (get_checkpoint name sink);
  save_checkpoint name sink s b := ask (Err dead_error) (save_checkpoint name sink s b);
  read_batch_multi types after n := ask (Err dead_error) (read_batch_multi types after n);
  acquire n := ask (Err "the process is gone") (acquire n);
  release n := tell (release n);
  available_permits n c := available_permits n (live c);
  record m := tell (record m) |}.

Definition crashing_dead_letter `{DeadLetterWorld W} : DeadLetterWorld (crashing W) := {|
  dead_letter_worker := crashing_worker;
  execute f := ask (Err dead_error) (execute f) |}.

Definition crashing_tx {T} `{TxWorld T W} : TxWorld T (crashing W) := {|
  tx_dead_letter := crashing_dead_letter;
  tx_pool := {|
    begin_tx := ask (Err "the process is gone") begin_tx;
    statement := ask (Err "the process is gone") statement;
    commit_tx f := ask (Err "the process is gone") (commit_tx f) |} |}.

(** ** Its laws *)

(** What is seen of it is what is seen of the world. *)
Definition crash_view {A} (view : W -> View A) (c : crashing W) : View A := view (live c).

Section Laws.
Context {A : Type} `{WorkerWorld W} (view : W -> View A) (name sink : string).
#[local] Existing Instance crashing_worker.

Abbreviation mv := (moves view).
Abbreviation cmv := (moves (crash_view view)).

Lemma tell_moves call : (forall w, mv w (call w)) -> forall c, cmv c (tell call c).
Proof. intros Hc [w [|n]]; [done|]. exact (Hc w). Qed.

Lemma ask_moves {B} dead (call : W -> B * W) : (forall w, mv w (snd (call w))) -> forall c, cmv c (snd (ask dead call c)).
Proof. intros Hc [w [|n]]; [done|]. unfold ask. cbn. specialize (Hc w). by destruct (call w). Qed.

(** What a call of the dead answers, and what one of the living does. *)
Lemma ask_inv {B} (dead : B) call c r c' : ask dead call c = (r, c') ->
  (r = dead /\ c' = c) \/ (call (live c) = (r, live c') /\ calls c = S (calls c')).
Proof.
  unfold ask. destruct c as [w [|n]]; cbn; [intros [= <- <-]; by left|].
  destruct (call w) as [b w']. intros [= <- <-]. by right.
Qed.

Lemma crash_worker_laws : WorkerLaws view name sink -> WorkerLaws (crash_view view) name sink.
Proof.
  intros L. split.
  - intros cb c. apply (law_set L).
  - intros c. split; [apply (ask_moves 0); intros w; apply (law_rand L)|].
    destruct c as [w [|n]]; [done|]. cbn. destruct (law_rand L w) as (_ & ? & ?). by destruct (next_rand w).
  - intros d. apply tell_moves. apply (law_sleep L).
  - intros c. split; [apply tell_moves; intros w; apply (law_beat L)|].
    destruct c as [w [|n]]; [done|]. apply (law_beat L).
  - intros m c. split; [apply tell_moves; intros w; apply (law_emit L)|].
    destruct c as [w [|n]]; [done|]. apply (law_emit L).
  - intros d. apply tell_moves. apply (law_sleep_or_cancel L).
  - intros n. apply ask_moves. apply (law_acquire L).
  - intros n. apply tell_moves. apply (law_release L).
  - intros m. apply tell_moves. apply (law_record L).
  - intros c r c' [[-> ->]|[Hc _]]%ask_inv; [by split|]. exact (law_get L _ _ _ Hc).
  - intros types after n c r c' [[-> ->]|[Hc _]]%ask_inv; [by split|].
    destruct (law_read L _ _ _ _ _ _ Hc) as [Hm Hb]. split; [exact Hm|]. intros batch Hr.
    destruct (Hb batch Hr) as (mid & M1 & M2 & E). by exists {| live := mid; calls := calls c |}.
  - intros s b c r c' [[-> ->]|[Hc _]]%ask_inv; [|exact (law_save L _ _ _ _ _ Hc)].
    split; [done|]. split; [done|]. by right.
Qed.
End Laws.

Lemma crash_commit_laws {T} `{TxWorld T W} (view : W -> View (Transition T)) :
  CommitLaws view -> @CommitLaws T (crashing W) crashing_tx (crash_view view).
Proof.
  intros C. split.
  - apply ask_moves. apply (law_begin _ C).
  - apply ask_moves. apply (law_statement _ C).
  - intros f. apply (ask_moves view (Err dead_error)). apply (law_execute _ C).
  - intros f c r c' [[-> ->]|[Hc _]]%ask_inv; [by split|]. exact (law_commit _ C _ _ _ _ Hc).
Qed.
End Crashing.

(** ** A supervised worker *)

Section Supervised.
Context {T : Type} `{EventCodecs} (msg : CircuitOpen -> string).
(** The worker its factory builds, wherever it runs; and what a batch is meant to do. *)
Context (worker : forall V, TxWorld T V -> PgWorker.PgWorker (W := V)).
Context (spec : list ParsedEvent -> T -> result T ProjectionError).

(** What settles an event: a transaction of a batch with it was committed. *)
Definition written_once (e : StoredEvent) (log : list (Transition T)) : Prop :=
  exists batch, e ∈ batch /\ committed (spec (map parsed_of batch)) log.

Lemma written_once_app e log more : written_once e log -> written_once e (log ++ more).
Proof. intros (batch & He & Hc). exists batch. split; [done|]. by apply committed_app. Qed.

Context {W : Type} `{TxWorld T W} (view : W -> View (Transition T)).

(** The worlds the runs of a supervised worker lead to from [w0]: the supervisor runs
    the worker for any number of turns, to the end of the last or until the process
    crashes after any number of calls; the backoff, the start of a process and the other
    tasks move the world as they always may. *)
Inductive lives (w0 : W) : W -> Prop :=
  | lives_start : lives w0 w0
  | lives_run w fuel : lives w0 w -> lives w0 (snd (PgWorker.run msg (worker W _) fuel w))
  | lives_crash w fuel n : lives w0 w ->
      lives w0 (live (snd (@PgWorker.run (crashing W) crashing_worker _ msg
        (worker (crashing W) crashing_tx) fuel {| live := w; calls := n |})))
  | lives_gap w w' : lives w0 w -> moves view w w' -> lives w0 w'.

Context (name : string) (types : list string).
Context (Hname : forall V (I : TxWorld T V), PgWorker.checkpoint_name (worker V I) = name).
Context (Htypes : forall V (I : TxWorld T V), PgWorker.event_type_strs (worker V I) = types).
Context (Hpolicy : forall V (I : TxWorld T V), policy_ok (PgWorker.retry_policy (worker V I))).
Context (Hprocess : forall V (I : TxWorld T V) (v : V -> View (Transition T)),
  CommitLaws v -> (forall m w, moves v w (record m w)) -> forall batch,
  call_settles v (process_parsed_batch (PgWorker.projection (worker V I)) (map parsed_of batch))
    (committed (spec (map parsed_of batch)))).
Context (L : WorkerLaws view name "pg") (C : CommitLaws view).

(** A run in any such world keeps the checkpoint behind what is written. *)
Lemma run_keeps V (I : TxWorld T V) (v : V -> View (Transition T)) fuel w :
  WorkerLaws v name "pg" -> CommitLaws v ->
  no_skip written_once types (v w) -> cb_inv (breaker w) ->
  let w' := snd (PgWorker.run msg (worker V I) fuel w) in
  no_skip written_once types (v w') /\ cb_inv (breaker w') /\ saved (v w) <= saved (v w').
Proof.
  intros LV CV Hn Hb. cbv zeta. rewrite <- (Hname V I) in LV. rewrite <- (Htypes V I) in *.
  assert (Hp : forall batch, call_settles v (process_parsed_batch (PgWorker.projection (worker V I)) (map parsed_of batch))
    (PgWorker.batch_settled written_once batch)).
  { intros batch w1 r w2 Hc. destruct (Hprocess V I v CV (law_record LV) batch w1 r w2 Hc) as [Hm Hok].
    split; [done|]. intros Hr e He. exists batch. auto. }
  pose proof (PgWorker.pg_run_inv msg (worker V I) v LV written_once written_once_app Hp (Hpolicy V I) fuel w (conj Hn Hb)) as Hr.
  destruct (PgWorker.run msg (worker V I) fuel w) as [r w']. by destruct Hr as (_ & [? ?] & ? & _).
Qed.

Lemma lives_inv w0 w :
  no_skip written_once types (view w0) -> cb_inv (breaker w0) -> lives w0 w ->
  no_skip written_once types (view w) /\ cb_inv (breaker w) /\ saved (view w0) <= saved (view w).
Proof.
  intros Hn Hb. induction 1 as [|w fuel _ (IHn & IHb & IHs)|w fuel n _ (IHn & IHb & IHs)|w w' _ (IHn & IHb & IHs) Hm]; [done|..].
  - destruct (run_keeps W _ view fuel w L C IHn IHb) as (? & ? & ?). split_and!; [done|done|lia].
  - destruct (run_keeps (crashing W) crashing_tx (crash_view view) fuel {| live := w; calls := n |}
      (crash_worker_laws view name "pg" L) (crash_commit_laws view C) IHn IHb) as (? & ? & ?).
    split_and!; [done|done|]. etransitivity; [exact IHs|done].
  - destruct Hm as [Hq Hcb]. split_and!; [|by apply Hcb|destruct Hq as [_ ->]; lia].
    eapply no_skip_quiet; [exact written_once_app|exact IHn|exact Hq].
Qed.
End Supervised.
