(* ===== verification/TxCode.v ===== *)
(** * Transactions with answers

    Code that runs in one transaction and returns what its queries answered: it may
    fail with a database error, and slices make it panic. As in PgTx an open
    transaction is the function its statements compose to. Used by the ingestion
    storage ([crates/rindexer-ingestion/src/storage.rs]) and by the timer-driven
    projections of [crates/projections]. *)

From S2P Require Import Prelude Events Errors PgTx.

(** ** Transactions that may panic *)

Inductive outcome (A : Type) := Done (a : A) | Failed (e : string) | Panicked.
Arguments Done {A} _.
Arguments Failed {A} _.
Arguments Panicked {A}.

(** [slice.chunks(n)], which panics for [n = 0]. *)
Fixpoint chunks_of {A} (fuel n : nat) (l : list A) : list (list A) :=
  match fuel, l with
  | S fuel, _ :: _ => take n l :: chunks_of fuel n (drop n l)
  | _, _ => []
  end.
Definition chunks {A} (n : nat) (l : list A) : list (list A) := chunks_of (length l) n l.

Section TxCode.
Context {T W : Type} `{ReadPool T W}.

Definition tx_code (A : Type) : Type := (T -> T) -> W -> outcome (A * (T -> T)) * W.

Definition ret {A} (a : A) : tx_code A := fun tx w => (Done (a, tx), w).
Definition bind {A B} (m : tx_code A) (k : A -> tx_code B) : tx_code B := fun tx w =>
  let '(o, w) := m tx w in
  match o with
  | Done (a, tx) => k a tx w
  | Failed e => (Failed e, w)
  | Panicked => (Panicked, w)
  end.
Definition panic {A} : tx_code A := fun _ w => (Panicked, w).
Definition run_statement (f : T -> T) : tx_code unit := fun tx w =>
  let '(r, w) := statement w in
  match r with
  | Err e => (Failed e, w)
  | Ok _ => (Done (tt, fun t => f (tx t)), w)
  end.
Definition run_query {A} (q : T -> A) : tx_code A := fun tx w =>
  let '(r, w) := fetch q tx w in
  match r with
  | Err e => (Failed e, w)
  | Ok a => (Done (a, tx), w)
  end.

(** [DELETE .. RETURNING ..] *)
Definition run_returning {A} (q : T -> A) (f : T -> T) : tx_code A := fun tx w =>
  let '(r, w) := fetch q tx w in
  match r with
  | Err e => (Failed e, w)
  | Ok a => (Done (a, fun t => f (tx t)), w)
  end.

(** A look at the clock. *)
Definition look_at_clock `{Clock W} : tx_code DateTime := fun tx w =>
  let '(now, w) := utc_now w in (Done (now, tx), w).

Fixpoint for_each {A} (f : A -> tx_code unit) (xs : list A) : tx_code unit :=
  match xs with
  | [] => ret tt
  | x :: xs => bind (f x) (fun _ => for_each f xs)
  end.

(** Begin, the body, commit. *)
Definition in_transaction {A} (body : tx_code A) (w : W) : outcome A * W :=
  let '(r, w) := begin_tx w in
  match r with
  | Err e => (Failed e, w)
  | Ok _ =>
      let '(o, w) := body (fun t => t) w in
      match o with
      | Done (a, tx) =>
          let '(r, w) := commit_tx tx w in
          (match r with Ok _ => Done a | Err e => Failed e end, w)
      | Failed e => (Failed e, w)
      | Panicked => (Panicked, w)
      end
  end.

(** ** What it does *)

(** [m] leaves the committed tables alone and computes what [g] does; it panics only
    where [g] does. *)
Definition yields (tables : W -> T) {A} (m : tx_code A)
    (g : T -> option (A * T)) : Prop :=
  forall tx w,
    let '(o, w') := m tx w in
    tables w' = tables w /\
    match o with
    | Done (a, tx') => g (tx (tables w)) = Some (a, tx' (tables w))
    | Failed _ => True
    | Panicked => g (tx (tables w)) = None
    end.

Section Yields.
Context (tables : W -> T) (L : ReadLaws tables).

Lemma yields_ret {A} (a : A) : yields tables (ret a) (fun t => Some (a, t)).
Proof. intros tx w. done. Qed.

Lemma yields_panic {A} : yields tables (@panic A) (fun _ => None).
Proof. intros tx w. done. Qed.

Lemma yields_ext {A} (m : tx_code A) g h : (forall t, g t = h t) -> yields tables m g -> yields tables m h.
Proof. intros Hgh Hm tx w. specialize (Hm tx w). destruct (m tx w) as [[[a tx1]|e|] w1]; by rewrite <- ?Hgh. Qed.

Lemma yields_bind {A B} (m : tx_code A) (k : A -> tx_code B) g h :
  yields tables m g -> (forall a, yields tables (k a) (h a)) ->
  yields tables (bind m k) (fun t => '(a, t1) ← g t; h a t1).
Proof.
  intros Hm Hk tx w. unfold bind. specialize (Hm tx w). destruct (m tx w) as [[[a tx1]|e|] w1]; destruct Hm as [Ht Hg].
  - specialize (Hk a tx1 w1). destruct (k a tx1 w1) as [o w2]. rewrite Ht in Hk. by rewrite Hg.
  - done.
  - by rewrite Hg.
Qed.

Lemma yields_statement f : yields tables (run_statement f) (fun t => Some (tt, f t)).
Proof.
  intros tx w. unfold run_statement. pose proof (tx_statement _ (read_laws _ L) w) as Hs.
  destruct (statement w) as [[u|e] w1]; by split.
Qed.

Lemma yields_query {A} (q : T -> A) : yields tables (run_query q) (fun t => Some (q t, t)).
Proof.
  intros tx w. unfold run_query. pose proof (read_fetch _ L q tx w) as Hs.
  pose proof (read_answer _ L q tx w) as Ha. destruct (fetch q tx w) as [[a|e] w1]; cbn in *; [|done].
  split; [done|]. by rewrite (Ha a eq_refl).
Qed.

Lemma yields_returning {A} (q : T -> A) f : yields tables (run_returning q f) (fun t => Some (q t, f t)).
Proof.
  intros tx w. unfold run_returning. pose proof (read_fetch _ L q tx w) as Hs.
  pose proof (read_answer _ L q tx w) as Ha. destruct (fetch q tx w) as [[a|e] w1]; cbn in *; [|done].
  split; [done|]. by rewrite (Ha a eq_refl).
Qed.

Lemma yields_each {A} (f : A -> T -> T) xs :
  yields tables (for_each (fun x => run_statement (f x)) xs) (fun t => Some (tt, fold_left (fun t x => f x t) xs t)).
Proof.
  induction xs as [|x xs IH]; [apply yields_ret|]. cbn [for_each fold_left].
  eapply yields_ext; [|apply yields_bind; [apply yields_statement|intros a; apply IH]]. done.
Qed.

(** The same for code whose answer is not determined by the tables: [m] never panics,
    and what it does when it succeeds is in [R]. *)
Definition performs (tables : W -> T) {A} (m : tx_code A) (R : T -> A -> T -> Prop) : Prop :=
  forall tx w,
    let '(o, w') := m tx w in
    tables w' = tables w /\
    match o with
    | Done (a, tx') => R (tx (tables w)) a (tx' (tables w))
    | Failed _ => True
    | Panicked => False
    end.

Lemma yields_performs {A} (m : tx_code A) (g : T -> A * T) :
  yields tables m (fun t => Some (g t)) -> performs tables m (fun t a t' => g t = (a, t')).
Proof.
  intros Hm tx w. specialize (Hm tx w). destruct (m tx w) as [[[a tx']|e|] w']; destruct Hm as [? Hg]; split; try done.
  by injection Hg.
Qed.

Lemma performs_ret {A} (a : A) : performs tables (ret a) (fun t b t' => b = a /\ t' = t).
Proof. intros tx w. done. Qed.

Lemma performs_clock `{Clock W} (Hclock : clock_apart tables) : performs tables look_at_clock (fun t _ t' => t' = t).
Proof. intros tx w. unfold look_at_clock. pose proof (Hclock w). by destruct (utc_now w). Qed.

Lemma performs_weaken {A} (m : tx_code A) (R R' : T -> A -> T -> Prop) :
  (forall t a t', R t a t' -> R' t a t') -> performs tables m R -> performs tables m R'.
Proof.
  intros HR Hm tx w. specialize (Hm tx w). destruct (m tx w) as [[[a tx']|e|] w']; [|done..].
  destruct Hm. split; [done|]. by apply HR.
Qed.

Lemma performs_bind {A B} (m : tx_code A) (k : A -> tx_code B) R S :
  performs tables m R -> (forall a, performs tables (k a) (S a)) ->
  performs tables (bind m k) (fun t b t2 => exists a t1, R t a t1 /\ S a t1 b t2).
Proof.
  intros Hm Hk tx w. unfold bind. specialize (Hm tx w). destruct (m tx w) as [[[a tx1]|e|] w1]; [|done..].
  destruct Hm as [Ht HR]. specialize (Hk a tx1 w1). destruct (k a tx1 w1) as [[[b tx2]|e|] w2]; destruct Hk as [Ht2 HS];
    rewrite Ht in *; split; try done. by exists a, (tx1 (tables w)).
Qed.

(** A loop: each round is one [R], in the order of the list. *)
Fixpoint rounds {A} (R : A -> T -> T -> Prop) (xs : list A) (t t' : T) : Prop :=
  match xs with
  | [] => t' = t
  | x :: xs => exists t1, R x t t1 /\ rounds R xs t1 t'
  end.

Lemma performs_each {A} (f : A -> tx_code unit) (R : A -> T -> T -> Prop) xs :
  (forall x, performs tables (f x) (fun t _ t' => R x t t')) ->
  performs tables (for_each f xs) (fun t _ t' => rounds R xs t t').
Proof.
  intros Hf. induction xs as [|x xs IH]; cbn [for_each rounds].
  - eapply performs_weaken; [|apply performs_ret]. by intros t a t' [_ ->].
  - eapply performs_weaken; [|apply performs_bind; [apply Hf|intros u; apply IH]].
    intros t a t' (u & t1 & ? & ?). by exists t1.
Qed.

Lemma in_transaction_performs {A} (body : tx_code A) R w :
  performs tables body R ->
  let '(o, w') := in_transaction body w in
  match o with
  | Done a => R (tables w) a (tables w')
  | Failed _ => tables w' = tables w \/ exists a, R (tables w) a (tables w')
  | Panicked => False
  end.
Proof.
  intros Hb. unfold in_transaction. pose proof (tx_begin _ (read_laws _ L) w) as H1.
  destruct (begin_tx w) as [[u|e] w1]; cbn in H1; [|by left]. specialize (Hb (fun t => t) w1).
  destruct (body (fun t => t) w1) as [[[a tx]|e|] w2]; destruct Hb as [Ht Hg]; rewrite H1 in *; [|by left|done].
  destruct (commit_tx tx w2) as [r w3] eqn:Hc. pose proof (tx_commit _ (read_laws _ L) _ _ _ _ Hc) as Hk.
  rewrite Ht in Hk. destruct Hk as [Hk|[Hk Hr]]; rewrite Hk.
  - destruct r; [done|right; by exists a].
  - destruct r as [[]|e]; [done|by left].
Qed.

(** All or nothing; a failed commit may have taken effect. *)
Lemma in_transaction_outcome {A} (body : tx_code A) g w :
  yields tables body g ->
  let '(o, w') := in_transaction body w in
  match o with
  | Done a => g (tables w) = Some (a, tables w')
  | Failed _ => tables w' = tables w \/ exists a, g (tables w) = Some (a, tables w')
  | Panicked => tables w' = tables w /\ g (tables w) = None
  end.
Proof.
  intros Hb. unfold in_transaction. pose proof (tx_begin _ (read_laws _ L) w) as H1.
  destruct (begin_tx w) as [[u|e] w1]; cbn in H1; [|by left]. specialize (Hb (fun t => t) w1).
  destruct (body (fun t => t) w1) as [[[a tx]|e|] w2]; destruct Hb as [Ht Hg]; rewrite H1 in *.
  - destruct (commit_tx tx w2) as [r w3] eqn:Hc. pose proof (tx_commit _ (read_laws _ L) _ _ _ _ Hc) as Hk.
    rewrite Ht in Hk. destruct Hk as [Hk|[Hk Hr]]; rewrite Hk.
    + destruct r; [done|right; by exists a].
    + destruct r as [[]|e]; [done|by left].
  - by left.
  - by split.
Qed.
End Yields.

End TxCode.

#[global] Arguments tx_code T W A : clear implicits.

(** ** Chunks *)

Lemma chunks_of_concat {A} fuel n (l : list A) : (0 < n)%nat -> (length l <= fuel)%nat -> concat (chunks_of fuel n l) = l.
Proof.
  intros Hn. revert l. induction fuel as [|fuel IH]; intros l Hl; [by destruct l; [|cbn in Hl; lia]|].
  destruct l as [|x l]; [done|]. cbn [chunks_of concat]. rewrite IH, take_drop; [done|].
  rewrite length_drop. cbn in *. lia.
Qed.

Lemma chunks_concat {A} n (l : list A) : (0 < n)%nat -> concat (chunks n l) = l.
Proof. intros Hn. by apply chunks_of_concat. Qed.

Lemma fold_concat {A B} (f : B -> A -> B) ls b : fold_left (fun b l => fold_left f l b) ls b = fold_left f (concat ls) b.
Proof. revert b. induction ls as [|l ls IH]; intros b; [done|]. cbn. by rewrite IH, fold_left_app. Qed.

Lemma take_both {A} n m k (l : list A) : (n <= m)%nat ->
  take n (drop k l) ++ take (m - n) (drop (k + n) l) = take m (drop k l).
Proof.
  intros Hn. rewrite <- (take_drop n (take m (drop k l))), take_take, skipn_firstn_comm, drop_drop.
  by rewrite Nat.min_l by done.
Qed.

