(* ===== verification/DemoDatabase.v ===== *)
(** * A concrete database

    A [TxWorld] for any tables with an empty state, used to run the PostgreSQL
    projections on concrete inputs: the versions of the tables that were committed,
    newest first, and the errors the next statements meet; [demo_history] keeps the
    transitions instead. *)

From S2P Require Import Prelude Events Errors CircuitBreaker Retry EventSource Checkpoint WorkerWorld DeadLetter DemoWorld PgTx.

Class EmptyTables (T : Type) := empty_tables : T.

Section DemoDatabase.
Context {T : Type} `{EmptyTables T}.

Definition demo_tables (w : demo T) : T := default empty_tables (head (dw_applied w)).

#[global] Instance demo_tx : TxWorld T (demo T) := {|
  tx_dead_letter := demo_dead_letter;
  tx_pool := {|
  begin_tx w := (Ok tt, w);
  statement w := match dw_errors w with
                 | [] => (Ok tt, w)
                 | e :: es => (Err (ProjectionError.to_string e), dw_set_target (dw_applied w) es w)
                 end;
  commit_tx f w := (Ok tt, dw_set_target (f (demo_tables w) :: dw_applied w) (dw_errors w) w) |}
|}.

Lemma demo_tx_laws : TxLaws demo_tables.
Proof.
  split; [|by split]. split; try done.
  - intros w. simpl. by destruct (dw_errors w).
  - intros f w r w'. simpl. intros [= <- <-]. by left.
Qed.

#[global] Instance demo_reads : ReadPool T (demo T) := {|
  read_pool := tx_pool;
  fetch A q tx w := (Ok (q (tx (demo_tables w))), w) |}.

Lemma demo_read_laws : ReadLaws demo_tables.
Proof.
  split; try done; [apply demo_tx_laws|]. intros A q tx w a. cbn. by intros [= <-].
Qed.

(** The same database, with the transitions it has committed kept in order. *)
Definition history_tables (w : demo (Transition T)) : T :=
  match last (dw_applied w) with Some p => snd p | None => empty_tables end.

Definition demo_history : TxWorld T (demo (Transition T)) := {|
  tx_dead_letter := demo_dead_letter;
  tx_pool := {|
  begin_tx w := (Ok tt, w);
  statement w := match dw_errors w with
                 | [] => (Ok tt, w)
                 | e :: es => (Err (ProjectionError.to_string e), dw_set_target (dw_applied w) es w)
                 end;
  commit_tx f w := (Ok tt, dw_set_target (dw_applied w ++ [(history_tables w, f (history_tables w))]) (dw_errors w) w) |} |}.

Lemma demo_commit_laws name sink : @CommitLaws T _ demo_history (demo_view name sink).
Proof.
  assert (Hstay : forall (w : demo (Transition T)) l es, (exists more, l = dw_applied w ++ more) ->
    moves (demo_view name sink) w (dw_set_target l es w)).
  { intros w l es Hl. split; [|done]. split; [|done]. split; [apply appended_refl|done]. }
  assert (Hsame : forall w : demo (Transition T), exists more, dw_applied w = dw_applied w ++ more)
    by (intros w; exists []; by rewrite app_nil_r).
  split; [done|..].
  - intros w. cbn. destruct (dw_errors w); [done|]. by apply Hstay.
  - done.
  - intros f w r w' [= <- <-]. split; [apply Hstay; by eexists|]. intros _.
    exists (history_tables w). cbn. apply elem_of_app. right. by left.
Qed.

(** A database with these errors ahead and these tables. *)
Definition demo_database (t : T) (errors : list ProjectionError) : demo T :=
  dw_set_target [t] errors (demo_begin [] []).
End DemoDatabase.

Definition demo_metadata (seq : Z) (ty : string) : EventMetadata :=
  EventMetadata.from_event (sample_event seq ty Null).
