(* ===== verification/DualTx.v ===== *)
(** * Two databases

    What the dual-write projections of [crates/projections/src/projection/dual/]
    share: a transaction on the legacy database and, when a pool for it is
    configured, one on the knowledge-graph (KG) database, which is committed
    first. There is no two-phase commit: a batch can be committed to the KG
    database and not to the legacy one. *)

From S2P Require Import Prelude Events Errors Retry WorkerWorld DeadLetter DemoWorld PgTx DemoDatabase.

Class DualPools (TL TK W : Type) := {
  dual_dead_letter :: DeadLetterWorld W;
  legacy_pool : Pool TL W;
  kg_pool : Pool TK W
}.

Section Dual.
Context {TL TK W : Type} `{DualPools TL TK W}.
Context (has_kg : bool).   (* [kg_pool.is_some()] *)

(** The two open transactions. *)
Definition open_pair : Type := (TL -> TL) * (TK -> TK).
Definition dual_step : Type := @open_step open_pair W.

Definition exec_legacy (f : TL -> TL) : dual_step :=
  exec_on (@statement TL W legacy_pool) (fun '(l, k) => (fun t => f (l t), k)).

(** [if let Some(tx) = kg_tx { .. }] *)
Definition exec_kg (f : TK -> TK) : dual_step :=
  if has_kg then exec_on (@statement TK W kg_pool) (fun '(l, k) => (l, fun t => f (k t)))
  else done_step.

Definition begin_kg (w : W) : result unit string * W :=
  if has_kg then @begin_tx TK W kg_pool w else (Ok tt, w).
Definition commit_kg (f : TK -> TK) (w : W) : result unit string * W :=
  if has_kg then @commit_tx TK W kg_pool f w else (Ok tt, w).

(** Begin both, run [body], commit the KG transaction and then the legacy one. *)
Definition run_dual (body : dual_step) (w : W) : result unit ProjectionError * W :=
  let '(r, w) := @begin_tx TL W legacy_pool w in
  match r with
  | Err e => (Err (ProjectionError.Database e), w)
  | Ok _ =>
      let '(r, w) := begin_kg w in
      match r with
      | Err e => (Err (ProjectionError.Database e), w)
      | Ok _ =>
          let '(r, w) := body (fun t => t, fun t => t) w in
          match r with
          | Err e => (Err e, w)
          | Ok (fl, fk) =>
              let '(r, w) := commit_kg fk w in
              match r with
              | Err e => (Err (ProjectionError.Database e), w)
              | Ok _ => let '(r, w) := @commit_tx TL W legacy_pool fl w in (database r, w)
              end
          end
      end
  end.

(** ** What a batch does to the two databases *)

(** The calls on one database leave the other alone. *)
Record DualPoolLaws (tables : W -> TL * TK) : Prop := {
  dual_legacy : @PoolLaws TL W legacy_pool (fun w => fst (tables w));
  dual_kg : @PoolLaws TK W kg_pool (fun w => snd (tables w));
  dual_legacy_begin w : snd (tables (snd (@begin_tx TL W legacy_pool w))) = snd (tables w);
  dual_legacy_statement w : snd (tables (snd (@statement TL W legacy_pool w))) = snd (tables w);
  dual_legacy_commit f w : snd (tables (snd (@commit_tx TL W legacy_pool f w))) = snd (tables w);
  dual_kg_begin w : fst (tables (snd (@begin_tx TK W kg_pool w))) = fst (tables w);
  dual_kg_statement w : fst (tables (snd (@statement TK W kg_pool w))) = fst (tables w);
  dual_kg_commit f w : fst (tables (snd (@commit_tx TK W kg_pool f w))) = fst (tables w);
  dual_records : records_apart tables
}.

(** Without a KG pool there is no KG transaction. *)
Definition kg_effect (f : TK -> TK) (t : TK) : TK := if has_kg then f t else t.
Definition runs_pair (tx : open_pair) (t : TL * TK) : TL * TK := (fst tx (fst t), kg_effect (snd tx) (snd t)).
Definition both_never_fail : Prop :=
  @never_fails TL W legacy_pool /\ @never_fails TK W kg_pool.

Section Spec.
Context (tables : W -> TL * TK) (L : DualPoolLaws tables).

Definition dual_does : dual_step -> (TL * TK -> result (TL * TK) ProjectionError) -> Prop :=
  does runs_pair tables both_never_fail.

Lemma dual_does_legacy f : dual_does (exec_legacy f) (fun t => Ok (f (fst t), snd t)).
Proof.
  apply does_exec.
  - intros w. pose proof (tx_statement _ (dual_legacy _ L) w) as Hl. cbn in Hl.
    pose proof (dual_legacy_statement _ L w) as Hk.
    by destruct (tables (snd _)), (tables w); cbn in *; subst.
  - intros [Hn _]. apply (nf_statement Hn).
  - by intros [l k] t.
Qed.

Lemma dual_does_kg f : dual_does (exec_kg f) (fun t => Ok (fst t, kg_effect f (snd t))).
Proof.
  unfold exec_kg, dual_does, runs_pair, kg_effect. destruct has_kg.
  - apply does_exec.
    + intros w. pose proof (tx_statement _ (dual_kg _ L) w) as Hl. cbn in Hl.
      pose proof (dual_kg_statement _ L w) as Hk.
      by destruct (tables (snd _)), (tables w); cbn in *; subst.
    + intros [_ Hn]. apply (nf_statement Hn).
    + by intros [l k] t.
  - eapply does_ext; [|apply does_done]. by intros [].
Qed.

Lemma dual_does_each_legacy {A} (f : A -> TL -> TL) xs :
  dual_does (each (fun x => exec_legacy (f x)) xs)
    (fun t => Ok (fold_left (fun t x => f x t) xs (fst t), snd t)).
Proof.
  eapply does_ext; [|apply (does_each _ _ _ _ (fun x t => (f x (fst t), snd t))); intros x; apply dual_does_legacy].
  intros t. cbv beta. f_equal. revert t. induction xs as [|x xs IH]; intros [l k]; [done|]. exact (IH (f x l, k)).
Qed.

Lemma dual_does_each_kg {A} (f : A -> TK -> TK) xs :
  dual_does (each (fun x => exec_kg (f x)) xs)
    (fun t => Ok (fst t, kg_effect (fun t => fold_left (fun t x => f x t) xs t) (snd t))).
Proof.
  eapply does_ext; [|apply (does_each _ _ _ _ (fun x t => (fst t, kg_effect (f x) (snd t))));
    intros x; apply dual_does_kg].
  intros t. cbv beta. f_equal. revert t. unfold kg_effect.
  induction xs as [|x xs IH]; intros [l k]; [by destruct has_kg|]. cbn [fold_left]. rewrite IH. by destruct has_kg.
Qed.

(** What can have happened when a batch that should do [g] returned [r]: it did it;
    or it failed, and did nothing, or only the KG half, or all. *)
Definition dual_outcome (g : TL * TK -> result (TL * TK) ProjectionError) (t t' : TL * TK)
    (r : result unit ProjectionError) : Prop :=
  (r = Ok tt /\ g t = Ok t') \/
  (is_ok r = false /\
   (t' = t \/ exists t1, g t = Ok t1 /\ snd t' = snd t1 /\ (fst t' = fst t \/ fst t' = fst t1))).

Lemma begin_legacy_tables w : tables (snd (@begin_tx TL W legacy_pool w)) = tables w.
Proof.
  pose proof (tx_begin _ (dual_legacy _ L) w) as Hl. pose proof (dual_legacy_begin _ L w) as Hk.
  cbn in Hl. by destruct (tables (snd _)), (tables w); cbn in *; subst.
Qed.

Lemma begin_kg_tables w : tables (snd (begin_kg w)) = tables w.
Proof.
  unfold begin_kg. destruct has_kg; [|done].
  pose proof (tx_begin _ (dual_kg _ L) w) as Hk. pose proof (dual_kg_begin _ L w) as Hl.
  cbn in Hk. by destruct (tables (snd _)), (tables w); cbn in *; subst.
Qed.

Lemma commit_kg_tables f w r w' : commit_kg f w = (r, w') ->
  fst (tables w') = fst (tables w) /\
  (snd (tables w') = kg_effect f (snd (tables w)) \/ (snd (tables w') = snd (tables w) /\ r <> Ok tt)).
Proof.
  unfold commit_kg, kg_effect. destruct has_kg; [|by intros [= <- <-]; split; [|left]].
  intros Hc. pose proof (tx_commit _ (dual_kg _ L) _ _ _ _ Hc) as Hck. cbn in Hck.
  pose proof (dual_kg_commit _ L f w) as Hf. by rewrite Hc in Hf.
Qed.

Lemma commit_legacy_outcome g t0 tx (w : W) :
  g t0 = Ok (runs_pair tx t0) -> fst (tables w) = fst t0 -> snd (tables w) = snd (runs_pair tx t0) ->
  let '(r, w') := @commit_tx TL W legacy_pool (fst tx) w in dual_outcome g t0 (tables w') (database r).
Proof.
  intros Hg Hl Hk. destruct (commit_tx (fst tx) w) as [r w'] eqn:Hc.
  pose proof (tx_commit _ (dual_legacy _ L) _ _ _ _ Hc) as Hcl. cbn in Hcl.
  pose proof (dual_legacy_commit _ L (fst tx) w) as Hf. rewrite Hc in Hf. cbn in Hf.
  assert (Hsnd : snd (tables w') = snd (runs_pair tx t0)) by congruence.
  rewrite Hl in Hcl. destruct r as [[]|e].
  - left. split; [done|]. destruct Hcl as [Hcl|[_ ?]]; [|done]. rewrite Hg.
    by rewrite (surjective_pairing (tables w')), Hcl, Hsnd.
  - right. split; [done|]. right. exists (runs_pair tx t0). split; [done|]. split; [done|].
    destruct Hcl as [->|[-> _]]; [by right|by left].
Qed.

Lemma run_dual_outcome body g w : dual_does body g ->
  let '(r, w') := run_dual body w in dual_outcome g (tables w) (tables w') r.
Proof.
  intros Hb. unfold run_dual.
  assert (Hfail : forall (e : ProjectionError) w1, tables w1 = tables w ->
    dual_outcome g (tables w) (tables w1) (Err e)) by (intros e w1 ->; right; by split; [|left]).
  pose proof (begin_legacy_tables w) as H1. destruct (begin_tx w) as [[u1|e] w1]; [|by apply Hfail].
  pose proof (begin_kg_tables w1) as H2. destruct (begin_kg w1) as [[u2|e] w2]; cbn in H1, H2.
  2: apply Hfail; congruence.
  specialize (Hb (fun t => t, fun t => t) w2).
  destruct (body (fun t => t, fun t => t) w2) as [r3 w3]. destruct Hb as (H3 & Hx & _).
  rewrite H2, H1 in H3. destruct r3 as [[fl fk]|e]; [|by apply Hfail].
  assert (Hg : g (tables w) = Ok (runs_pair (fl, fk) (tables w))).
  { pose proof (Hx (fl, fk) eq_refl) as Hr. rewrite H2, H1 in Hr. rewrite <- Hr. unfold runs_pair, kg_effect. cbn.
    by destruct has_kg, (tables w). }
  destruct (commit_kg fk w3) as [r4 w4] eqn:Hc. destruct (commit_kg_tables _ _ _ _ Hc) as [Hl Hk].
  rewrite H3 in Hl, Hk. destruct r4 as [[]|e].
  - destruct Hk as [Hk|[_ ?]]; [|done]. pose proof (commit_legacy_outcome g (tables w) (fl, fk) w4 Hg Hl Hk) as Ho.
    cbn [fst] in Ho. by destruct (commit_tx fl w4).
  - right. split; [done|]. destruct Hk as [Hk|[Hk _]].
    + right. eexists. split; [exact Hg|]. split; [exact Hk|by left].
    + left. by rewrite (surjective_pairing (tables w4)), Hl, Hk, <- surjective_pairing.
Qed.

(** Without a failing call, the outcome is that of [g]. *)
Lemma run_dual_calm body g w : dual_does body g -> both_never_fail ->
  match g (tables w) with
  | Ok _ => fst (run_dual body w) = Ok tt
  | Err e => fst (run_dual body w) = Err e
  end.
Proof.
  intros Hb Hn. unfold run_dual. pose proof (begin_legacy_tables w) as H1.
  pose proof (nf_begin (proj1 Hn) w) as N1. destruct (begin_tx w) as [[u1|e] w1]; cbn in *; [|done].
  pose proof (begin_kg_tables w1) as H2. assert (N2 : fst (begin_kg w1) = Ok tt).
  { unfold begin_kg. destruct has_kg; [apply (nf_begin (proj2 Hn))|done]. }
  destruct (begin_kg w1) as [[u2|e] w2]; cbn in *; [|done].
  specialize (Hb (fun t => t, fun t => t) w2). destruct (body _ w2) as [r3 w3]. destruct Hb as (H3 & _ & Hc).
  specialize (Hc Hn). rewrite H2, H1 in Hc. replace (runs_pair _ (tables w)) with (tables w) in Hc
    by (unfold runs_pair, kg_effect; cbn; by destruct has_kg, (tables w)).
  destruct (g (tables w)) as [t1|e].
  - destruct r3 as [[fl fk]|e]; [|done]. cbn in *.
    assert (N3 : fst (commit_kg fk w3) = Ok tt).
    { unfold commit_kg. destruct has_kg; [apply (nf_commit (proj2 Hn))|done]. }
    destruct (commit_kg fk w3) as [[u4|e] w4]; cbn in *; [|done].
    pose proof (nf_commit (proj1 Hn) fl w4) as N4. destruct (commit_tx fl w4) as [r5 w5]. cbn in *. by subst.
  - by subst r3.
Qed.
End Spec.
End Dual.

#[export] Hint Resolve dual_does_legacy dual_does_kg : tx_db.

(** ** A concrete pair of databases *)

Section DemoDual.
Context {TL TK : Type} `{EmptyTables TL} `{EmptyTables TK}.

#[global] Instance empty_pair : EmptyTables (TL * TK) := (empty_tables, empty_tables).

(** The next error strikes the commit of the legacy transaction. *)
#[global] Instance demo_dual : DualPools TL TK (demo (TL * TK)) := {|
  dual_dead_letter := demo_dead_letter;
  legacy_pool := {|
    begin_tx w := (Ok tt, w); statement w := (Ok tt, w);
    commit_tx f w :=
      match dw_errors w with
      | [] => let t := demo_tables w in (Ok tt, dw_set_target ((f (fst t), snd t) :: dw_applied w) [] w)
      | e :: es => (Err (ProjectionError.to_string e), dw_set_target (dw_applied w) es w)
      end |};
  kg_pool := {|
    begin_tx w := (Ok tt, w); statement w := (Ok tt, w);
    commit_tx f w :=
      let t := demo_tables w in
      (Ok tt, dw_set_target ((fst t, f (snd t)) :: dw_applied w) (dw_errors w) w) |}
|}.

Lemma demo_pair_laws : DualPoolLaws (@demo_tables (TL * TK) _).
Proof.
  split; try done.
  - split; try done. intros f w r w'. cbn. destruct (dw_errors w); intros [= <- <-]; [by left|by right].
  - split; try done. intros f w r w' [= <- <-]. by left.
  - intros f w. cbn. by destruct (dw_errors w).
Qed.
End DemoDual.
