(* ===== verification/PgCommon.v ===== *)
(** * What the PostgreSQL projections share

    [crates/projections/src/projection/mod.rs]: the market capitalisation of a
    vault and the identifier of an event row. *)

From stdpp Require Import pretty.
From S2P Require Import Prelude MachineInt CurvesMath Events Errors.

(** [U256::from_str] of the decimal digits of an integer. *)
Definition u256_of (n : Z) (field : string) : result Z ProjectionError :=
  if (0 <=? n) && (n <=? U256_MAX) then Ok n
  else Err (ProjectionError.InvalidEventData (field +:+ " is not a valid uint256: " +:+ pretty n)).

Definition compute_market_cap (total_shares share_price : BigDecimal) : result BigDecimal ProjectionError :=
  let? total_shares := u256_of total_shares "total_shares" in
  let? share_price := u256_of share_price "share_price" in
  match CurvesMath.market_cap total_shares share_price with
  | Ok market_cap => Ok market_cap
  | Err err => Err (ProjectionError.InvalidEventData ("market_cap overflow: " +:+ CurveError_to_string err))
  end.

(** [format!("{transaction_hash}-{log_index}-{event_type}")] *)
Definition event_id_of (transaction_hash : string) (log_index : Z) (event_type : string) : string :=
  transaction_hash +:+ "-" +:+ pretty log_index +:+ "-" +:+ event_type.

Definition event_id (metadata : EventMetadata) : string :=
  event_id_of (EventMetadata.transaction_hash metadata) (EventMetadata.log_index metadata)
    (EventMetadata.event_type metadata).

(** [curve_id.to_string()] of an integer. *)
Definition curve_id_string (curve_id : BigDecimal) : string := pretty (curve_id : Z).

(** What an upsert makes of a key: [new] when it is free, [upd] of the row
    otherwise. *)
Definition upsert {K R} `{Countable K} (k : K) (new : R) (upd : R -> R) (m : gmap K R) : gmap K R :=
  <[k := match m !! k with None => new | Some row => upd row end]> m.

(** [ON CONFLICT DO NOTHING] *)
Definition insert_new {K R} `{Countable K} (k : K) (row : R) (m : gmap K R) : gmap K R :=
  upsert k row (fun old => old) m.

Section Upsert.
Context {K R : Type} `{Countable K}.
Implicit Types (m : gmap K R) (k : K).

Lemma upsert_same k new upd m :
  upsert k new upd m !! k = Some (match m !! k with None => new | Some row => upd row end).
Proof. unfold upsert. by rewrite lookup_insert_eq. Qed.

Lemma upsert_other k k' new upd m : k <> k' -> upsert k new upd m !! k' = m !! k'.
Proof. intros Hne. unfold upsert. by rewrite lookup_insert_ne. Qed.

Lemma lookup_upsert k k' new upd m :
  upsert k new upd m !! k' =
    if decide (k = k') then Some (match m !! k with None => new | Some row => upd row end) else m !! k'.
Proof. case_decide as Hk; [subst; apply upsert_same|by apply upsert_other]. Qed.

Lemma insert_new_present k row m : is_Some (m !! k) -> insert_new k row m = m.
Proof. intros [old Hk]. unfold insert_new, upsert. rewrite Hk. by apply insert_id. Qed.

Lemma insert_new_keeps k row m k' : is_Some (m !! k') -> insert_new k row m !! k' = m !! k'.
Proof.
  intros [old Hk']. unfold insert_new. rewrite lookup_upsert. case_decide as Hk; [|done].
  subst k'. by rewrite Hk'.
Qed.

Lemma insert_new_subseteq k row m : m ⊆ insert_new k row m.
Proof.
  apply map_subseteq_spec. intros k' r Hr. rewrite insert_new_keeps; [done|by eexists].
Qed.

Lemma insert_new_has k row m : is_Some (insert_new k row m !! k).
Proof. unfold insert_new. rewrite upsert_same. by eexists. Qed.
End Upsert.

(** [INSERT .. ON CONFLICT DO NOTHING], row after row: the rows that are there stay,
    and of two new rows with one key the first stays. *)
Definition insert_all {K R} `{Countable K} (rows : list (K * R)) (m : gmap K R) : gmap K R :=
  fold_left (fun m e => insert_new (fst e) (snd e) m) rows m.

Section InsertAll.
Context {K R : Type} `{Countable K}.
Implicit Types (m : gmap K R) (k : K).

Lemma insert_new_union k row m : insert_new k row m = m ∪ {[k := row]}.
Proof.
  apply map_eq. intros k'. unfold insert_new. rewrite lookup_upsert, lookup_union.
  case_decide as Hk; [subst k'; rewrite lookup_singleton_eq; by destruct (m !! _)|].
  rewrite lookup_singleton_ne by done. by rewrite (right_id_L None union).
Qed.

Lemma insert_all_union rows m : insert_all rows m = m ∪ list_to_map rows.
Proof.
  unfold insert_all. revert m. induction rows as [|[k r] rows IH]; intros m; cbn [fold_left list_to_map foldr].
  - by rewrite (right_id_L ∅ (∪)).
  - rewrite IH, insert_new_union, <- (assoc_L (∪)). f_equal. symmetry. apply insert_union_singleton_l.
Qed.

Lemma union_again m (l : gmap K R) : (m ∪ l) ∪ l = m ∪ l.
Proof. rewrite <- (assoc_L (∪)). f_equal. apply map_eq. intros k. rewrite lookup_union. by destruct (l !! k). Qed.

Lemma insert_all_keeps rows m k r : m !! k = Some r -> insert_all rows m !! k = Some r.
Proof. intros Hk. rewrite insert_all_union. by apply lookup_union_Some_l. Qed.

Lemma insert_all_has rows m k r : (k, r) ∈ rows -> is_Some (insert_all rows m !! k).
Proof.
  intros Hin. rewrite insert_all_union, lookup_union. assert (is_Some ((list_to_map rows : gmap K R) !! k)) as [r' ->].
  { apply elem_of_dom. rewrite dom_list_to_map_L. apply elem_of_list_to_set, list_elem_of_fmap. by exists (k, r). }
  by destruct (m !! k); eexists.
Qed.

Lemma insert_all_present rows m : (forall k r, (k, r) ∈ rows -> is_Some (m !! k)) -> insert_all rows m = m.
Proof.
  intros Hp. rewrite insert_all_union. apply map_eq. intros k. rewrite lookup_union.
  destruct (list_to_map rows !! k) as [r|] eqn:Hk; [|by rewrite (right_id_L None union)].
  apply elem_of_list_to_map_2, Hp in Hk as [r' ->]. done.
Qed.

Lemma insert_all_from rows m k r : insert_all rows m !! k = Some r -> m !! k = Some r \/ (k, r) ∈ rows.
Proof.
  rewrite insert_all_union, lookup_union_Some_raw. intros [?|[_ Hl]]; [by left|right]. by apply elem_of_list_to_map_2.
Qed.
End InsertAll.
