(* ===== verification/VaultRepo.v ===== *)
(** * The vault tables

    [crates/projections/src/repo/vault_repo.rs]: the statements on [vault],
    [share_price_history] and [active_vault_position], each a function on the
    tables. Amounts are integers ([NUMERIC] of wei); the bookkeeping timestamps
    ([created_at], [updated_at], [opened_at]), which no statement reads, are left
    out. Columns an [INSERT] does not name take the defaults of
    [migrations/timescale]. *)

From S2P Require Import Prelude Events PgCommon.

Record VaultRow := {
  total_shares : Z;
  total_deposits : Z;
  current_share_price : Z;
  market_cap : Z;
  holder_count : Z;
  total_redemptions : Z;
  total_assets : Z
}.

Record PriceRow := {
  ph_term_id : string;
  ph_curve_id : string;
  ph_share_price : Z;
  ph_total_assets : Z;
  ph_total_shares : Z;
  ph_market_cap : Z;
  ph_block_number : Z;
  ph_transaction_hash : string
}.

Record HolderRow := {
  h_shares : Z;
  h_total_deposits : Z;
  h_total_redemptions : Z
}.

(** Keyed by their primary keys: [(term_id, curve_id)], [(event_id, ts)] and
    [((term_id, curve_id), account_id)]. *)
Record VaultTables := {
  vault : gmap (string * string) VaultRow;
  share_price_history : gmap (string * Z) PriceRow;
  active_vault_position : gmap (string * string * string) HolderRow
}.

Definition with_vault (v : gmap (string * string) VaultRow) (t : VaultTables) : VaultTables := {|
  vault := v; share_price_history := share_price_history t;
  active_vault_position := active_vault_position t |}.
Definition with_history (h : gmap (string * Z) PriceRow) (t : VaultTables) : VaultTables := {|
  vault := vault t; share_price_history := h; active_vault_position := active_vault_position t |}.
Definition with_holders (p : gmap (string * string * string) HolderRow) (t : VaultTables)
    : VaultTables := {|
  vault := vault t; share_price_history := share_price_history t; active_vault_position := p |}.

Definition upsert_vault_on_deposit (term_id curve_id : string) (assets_after_fees : Z)
    (t : VaultTables) : VaultTables :=
  with_vault
    (upsert (term_id, curve_id)
       {| total_shares := 0; total_deposits := assets_after_fees; current_share_price := 0;
          market_cap := 0; holder_count := 0; total_redemptions := 0; total_assets := 0 |}
       (fun row =>
          {| total_shares := total_shares row;
             total_deposits := total_deposits row + assets_after_fees;
             current_share_price := current_share_price row; market_cap := market_cap row;
             holder_count := holder_count row; total_redemptions := total_redemptions row;
             total_assets := total_assets row |})
       (vault t)) t.

Definition upsert_vault_on_redeem (term_id curve_id : string) (assets : Z) (t : VaultTables)
    : VaultTables :=
  with_vault
    (upsert (term_id, curve_id)
       {| total_shares := 0; total_deposits := 0; current_share_price := 0;
          market_cap := 0; holder_count := 0; total_redemptions := assets; total_assets := 0 |}
       (fun row =>
          {| total_shares := total_shares row; total_deposits := total_deposits row - assets;
             current_share_price := current_share_price row; market_cap := market_cap row;
             holder_count := holder_count row;
             total_redemptions := total_redemptions row + assets;
             total_assets := total_assets row |})
       (vault t)) t.

Definition update_vault_price (term_id curve_id : string)
    (share_price total_assets' total_shares' market_cap' : Z) (t : VaultTables) : VaultTables :=
  with_vault
    (upsert (term_id, curve_id)
       {| total_shares := total_shares'; total_deposits := 0; current_share_price := share_price;
          market_cap := market_cap'; holder_count := 0; total_redemptions := 0;
          total_assets := total_assets' |}
       (fun row =>
          {| total_shares := total_shares'; total_deposits := total_deposits row;
             current_share_price := share_price; market_cap := market_cap';
             holder_count := holder_count row; total_redemptions := total_redemptions row;
             total_assets := total_assets' |})
       (vault t)) t.

(** [ON CONFLICT (event_id, ts) DO NOTHING] *)
Definition insert_share_price_history (event_id : string) (ts : Z) (row : PriceRow)
    (t : VaultTables) : VaultTables :=
  with_history (insert_new (event_id, ts) row (share_price_history t)) t.

Definition upsert_position_on_deposit (term_id curve_id account_id : string)
    (shares total_deposits' : Z) (t : VaultTables) : VaultTables :=
  with_holders
    (upsert (term_id, curve_id, account_id)
       {| h_shares := shares; h_total_deposits := total_deposits'; h_total_redemptions := 0 |}
       (fun row =>
          {| h_shares := h_shares row + shares;
             h_total_deposits := h_total_deposits row + total_deposits';
             h_total_redemptions := h_total_redemptions row |})
       (active_vault_position t)) t.

(** An [UPDATE]: nothing when the row is missing. *)
Definition decrement_position_on_redeem (term_id curve_id account_id : string)
    (shares total_redemptions' : Z) (t : VaultTables) : VaultTables :=
  with_holders
    (alter (fun row =>
       {| h_shares := h_shares row - shares; h_total_deposits := h_total_deposits row;
          h_total_redemptions := h_total_redemptions row + total_redemptions' |})
       (term_id, curve_id, account_id) (active_vault_position t)) t.

Definition prune_zero_position (term_id curve_id account_id : string) (t : VaultTables) : VaultTables :=
  let k := (term_id, curve_id, account_id) in
  match active_vault_position t !! k with
  | Some row => if h_shares row <=? 0 then with_holders (delete k (active_vault_position t)) t else t
  | None => t
  end.

(** [SELECT COUNT] of the vault's positions with shares. *)
Definition count_holders (term_id curve_id : string) (t : VaultTables) : Z :=
  Z.of_nat (size (filter (fun '(k, row) => fst k = (term_id, curve_id) /\ 0 < h_shares row)
                    (active_vault_position t))).

Definition refresh_holder_count (term_id curve_id : string) (t : VaultTables) : VaultTables :=
  with_vault
    (alter (fun row =>
       {| total_shares := total_shares row; total_deposits := total_deposits row;
          current_share_price := current_share_price row; market_cap := market_cap row;
          holder_count := count_holders term_id curve_id t;
          total_redemptions := total_redemptions row; total_assets := total_assets row |})
       (term_id, curve_id) (vault t)) t.
