(* ===== verification/KgMarket.v ===== *)
(** * The market tables of the knowledge graph

    [crates/projections/src/repo/kg_market_repo.rs]: the statements on
    [market.vaults], [market.active_vault_position] and [market.events], each a
    function on the tables. The rows have the columns of the legacy tables of
    VaultRepo; bookkeeping timestamps are left out. The schema of these tables is
    not in the repository: the defaults of the columns an [INSERT] does not name
    are parameters. *)

From stdpp Require Import pretty.
From S2P Require Import Prelude Events PgCommon VaultRepo.

Record MarketEvent := {
  me_entity_kind : string;
  me_entity_id : string;
  me_event_type : string;
  me_account_id : option string;
  me_vault_id : string;
  me_amount : option Z;
  me_price : option Z;
  me_shares : Z;
  me_direction : option string;
  me_source : string
}.

(** Keyed by [(term_id, curve_id)], [((term_id, curve_id), account_id)] and
    [(event_time, id)]. *)
Record KgTables := {
  vaults : gmap (string * string) VaultRow;
  kg_active_vault_position : gmap (string * string * string) HolderRow;
  market_events : gmap (DateTime * string) MarketEvent
}.

Class KgDefaults := { default_total_assets : Z; default_total_redemptions : Z }.

Section Repo.
Context `{KgDefaults}.

Definition with_vaults (v : gmap (string * string) VaultRow) (t : KgTables) : KgTables := {|
  vaults := v; kg_active_vault_position := kg_active_vault_position t; market_events := market_events t |}.
Definition with_positions (p : gmap (string * string * string) HolderRow) (t : KgTables) : KgTables := {|
  vaults := vaults t; kg_active_vault_position := p; market_events := market_events t |}.
Definition with_events (e : gmap (DateTime * string) MarketEvent) (t : KgTables) : KgTables := {|
  vaults := vaults t; kg_active_vault_position := kg_active_vault_position t; market_events := e |}.

Definition upsert_kg_vault_on_deposit (term_id curve_id : string) (assets_after_fees : Z)
    (t : KgTables) : KgTables :=
  with_vaults
    (upsert (term_id, curve_id)
       {| total_shares := 0; total_deposits := assets_after_fees; current_share_price := 0;
          market_cap := 0; holder_count := 0; total_redemptions := 0;
          total_assets := default_total_assets |}
       (fun row =>
          {| total_shares := total_shares row;
             total_deposits := total_deposits row + assets_after_fees;
             current_share_price := current_share_price row; market_cap := market_cap row;
             holder_count := holder_count row; total_redemptions := total_redemptions row;
             total_assets := total_assets row |})
       (vaults t)) t.

Definition upsert_kg_vault_on_redeem (term_id curve_id : string) (assets : Z) (t : KgTables) : KgTables :=
  with_vaults
    (upsert (term_id, curve_id)
       {| total_shares := 0; total_deposits := 0; current_share_price := 0; market_cap := 0;
          holder_count := 0; total_redemptions := assets; total_assets := default_total_assets |}
       (fun row =>
          {| total_shares := total_shares row; total_deposits := total_deposits row - assets;
             current_share_price := current_share_price row; market_cap := market_cap row;
             holder_count := holder_count row;
             total_redemptions := total_redemptions row + assets;
             total_assets := total_assets row |})
       (vaults t)) t.

Definition update_kg_vault_price (term_id curve_id : string)
    (share_price total_assets' total_shares' market_cap' : Z) (t : KgTables) : KgTables :=
  with_vaults
    (upsert (term_id, curve_id)
       {| total_shares := total_shares'; total_deposits := 0; current_share_price := share_price;
          market_cap := market_cap'; holder_count := 0; total_redemptions := 0;
          total_assets := total_assets' |}
       (fun row =>
          {| total_shares := total_shares'; total_deposits := total_deposits row;
             current_share_price := share_price; market_cap := market_cap';
             holder_count := holder_count row; total_redemptions := total_redemptions row;
             total_assets := total_assets' |})
       (vaults t)) t.

Definition upsert_kg_position_on_deposit (term_id curve_id account_id : string)
    (shares total_deposits' : Z) (t : KgTables) : KgTables :=
  with_positions
    (upsert (term_id, curve_id, account_id)
       {| h_shares := shares; h_total_deposits := total_deposits';
          h_total_redemptions := default_total_redemptions |}
       (fun row =>
          {| h_shares := h_shares row + shares;
             h_total_deposits := h_total_deposits row + total_deposits';
             h_total_redemptions := h_total_redemptions row |})
       (kg_active_vault_position t)) t.

(** An [UPDATE]: nothing when the row is missing. *)
Definition decrement_kg_position_on_redeem (term_id curve_id account_id : string)
    (shares total_redemptions' : Z) (t : KgTables) : KgTables :=
  with_positions
    (alter (fun row =>
       {| h_shares := h_shares row - shares; h_total_deposits := h_total_deposits row;
          h_total_redemptions := h_total_redemptions row + total_redemptions' |})
       (term_id, curve_id, account_id) (kg_active_vault_position t)) t.

Definition prune_zero_kg_positions (term_id curve_id account_id : string) (t : KgTables) : KgTables :=
  let k := (term_id, curve_id, account_id) in
  match kg_active_vault_position t !! k with
  | Some row =>
      if h_shares row <=? 0 then with_positions (delete k (kg_active_vault_position t)) t else t
  | None => t
  end.

Definition count_kg_holders (term_id curve_id : string) (t : KgTables) : Z :=
  Z.of_nat (size (filter (fun '(k, row) => fst k = (term_id, curve_id) /\ 0 < h_shares row)
                    (kg_active_vault_position t))).

Definition refresh_kg_holder_count (term_id curve_id : string) (t : KgTables) : KgTables :=
  with_vaults
    (alter (fun row =>
       {| total_shares := total_shares row; total_deposits := total_deposits row;
          current_share_price := current_share_price row; market_cap := market_cap row;
          holder_count := count_kg_holders term_id curve_id t;
          total_redemptions := total_redemptions row; total_assets := total_assets row |})
       (term_id, curve_id) (vaults t)) t.

(** [format!("{}:{}", transaction_hash, log_index)] *)
Definition market_event_id (metadata : EventMetadata) : string :=
  EventMetadata.transaction_hash metadata +:+ ":" +:+ pretty (EventMetadata.log_index metadata : Z).

(** [ON CONFLICT (event_time, id) DO NOTHING] *)
Definition insert_market_event (metadata : EventMetadata) (row : MarketEvent) (t : KgTables) : KgTables :=
  with_events
    (insert_new (EventMetadata.block_timestamp metadata, market_event_id metadata) row (market_events t)) t.

Definition insert_kg_market_event_deposited (metadata : EventMetadata) (data : DepositedRecord)
    : KgTables -> KgTables :=
  insert_market_event metadata {|
    me_entity_kind := "vault"; me_entity_id := dep_term_id data; me_event_type := "deposited";
    me_account_id := Some (dep_receiver data); me_vault_id := dep_term_id data;
    me_amount := Some (dep_assets_after_fees data : Z); me_price := None; me_shares := dep_shares data;
    me_direction := Some "in"; me_source := "chain" |}.

Definition insert_kg_market_event_redeemed (metadata : EventMetadata) (data : RedeemedRecord)
    : KgTables -> KgTables :=
  insert_market_event metadata {|
    me_entity_kind := "vault"; me_entity_id := red_term_id data; me_event_type := "redeemed";
    me_account_id := Some (red_sender data); me_vault_id := red_term_id data;
    me_amount := Some (red_assets data : Z); me_price := None; me_shares := red_shares data;
    me_direction := Some "out"; me_source := "chain" |}.

Definition insert_kg_market_event_share_price_changed (metadata : EventMetadata)
    (data : SharePriceChangedRecord) : KgTables -> KgTables :=
  insert_market_event metadata {|
    me_entity_kind := "vault"; me_entity_id := spc_term_id data; me_event_type := "share_price_changed";
    me_account_id := None; me_vault_id := spc_term_id data;
    me_amount := None; me_price := Some (spc_share_price data : Z); me_shares := spc_total_shares data;
    me_direction := None; me_source := "chain" |}.
End Repo.

(** ** The legacy tables the market tables mirror *)

Definition mirror (t : KgTables) : VaultTables := {|
  vault := vaults t; share_price_history := ∅; active_vault_position := kg_active_vault_position t |}.

(** Columns an [INSERT] leaves out start at 0, as in the legacy tables. *)
Definition zero_defaults : KgDefaults := {| default_total_assets := 0; default_total_redemptions := 0 |}.

(** The two sides agree. *)
Definition agree (t : VaultTables * KgTables) : Prop :=
  vault (fst t) = vaults (snd t) /\ active_vault_position (fst t) = kg_active_vault_position (snd t).

Lemma agree_mirror k : agree (mirror k, k).
Proof. done. Qed.

(** ** The events are inserted once *)

Section Once.
Context (metadata : EventMetadata) (row : MarketEvent) (t : KgTables).

Lemma insert_market_event_again :
  is_Some (market_events t !! (EventMetadata.block_timestamp metadata, market_event_id metadata)) ->
  market_events (insert_market_event metadata row t) = market_events t.
Proof. intros Hk. exact (insert_new_present _ _ _ Hk). Qed.

Lemma insert_market_event_grows : market_events t ⊆ market_events (insert_market_event metadata row t).
Proof. apply insert_new_subseteq. Qed.

Lemma insert_market_event_has :
  is_Some (market_events (insert_market_event metadata row t) !!
    (EventMetadata.block_timestamp metadata, market_event_id metadata)).
Proof. apply insert_new_has. Qed.
End Once.
