(* ===== verification/VaultState.v ===== *)
(** * The vault-state projection

    [crates/projections/src/projection/timescaledb/vault_state.rs]: applies a
    batch of deposits, redemptions and price changes to the vault tables in one
    transaction, for the vaults of its shard. [apply_events] is what a batch is
    meant to do; [process_parsed_batch] is what the code does in a world where any
    statement can fail, and refines it. *)

From S2P Require Import Prelude MachineInt Events Errors Retry WorkerWorld DeadLetter PgTx PgCommon Shard VaultRepo DemoWorld DemoDatabase.

Definition PROJECTION_NAME : string := "vault_state".

Record VaultStateProjection := { shard_id : Z; total_shards : Z }.

Section VaultState.
Context `{ShardHash} (self : VaultStateProjection).

Definition skip (term_id : string) (curve_id : BigDecimal) : bool :=
  should_skip_shard (shard_id self) (total_shards self) term_id curve_id.

(** The shard suffix of the checkpoint. *)
Definition pg_shard_id : option Z := if 1 <? total_shards self then Some (shard_id self) else None.

(** ** What one event does to the tables *)

Definition vault_key (term_id : string) (curve_id : BigDecimal) : string * string :=
  (term_id, curve_id_string curve_id).

Definition price_row (metadata : EventMetadata) (data : SharePriceChangedRecord) (market_cap : Z)
    : PriceRow := {|
  ph_term_id := spc_term_id data; ph_curve_id := curve_id_string (spc_curve_id data);
  ph_share_price := spc_share_price data; ph_total_assets := spc_total_assets data;
  ph_total_shares := spc_total_shares data; ph_market_cap := market_cap;
  ph_block_number := EventMetadata.block_number metadata;
  ph_transaction_hash := EventMetadata.transaction_hash metadata |}.

Definition apply_event (p : ParsedEvent) (t : VaultTables) : result VaultTables ProjectionError :=
  match p with
  | ParsedEvent.Deposited _ data =>
      if skip (dep_term_id data) (dep_curve_id data) then Ok t
      else Ok (upsert_vault_on_deposit (dep_term_id data) (curve_id_string (dep_curve_id data))
                 (dep_assets_after_fees data) t)
  | ParsedEvent.Redeemed _ data =>
      if skip (red_term_id data) (red_curve_id data) then Ok t
      else Ok (upsert_vault_on_redeem (red_term_id data) (curve_id_string (red_curve_id data))
                 (red_assets data) t)
  | ParsedEvent.SharePriceChanged metadata data =>
      if skip (spc_term_id data) (spc_curve_id data) then Ok t
      else
        let? market_cap := compute_market_cap (spc_total_shares data) (spc_share_price data) in
        let t := update_vault_price (spc_term_id data) (curve_id_string (spc_curve_id data))
                   (spc_share_price data) (spc_total_assets data) (spc_total_shares data)
                   market_cap t in
        Ok (insert_share_price_history
              (event_id metadata) (EventMetadata.block_timestamp metadata) (price_row metadata data market_cap) t)
  | _ => Ok t
  end.

(** ** The handlers *)

Context {W : Type} `{TxWorld VaultTables W} `{EventCodecs}.

Abbreviation step := (@step VaultTables W).

Definition process_deposited_typed (data : DepositedRecord) : step :=
  exec (upsert_vault_on_deposit (dep_term_id data) (curve_id_string (dep_curve_id data))
          (dep_assets_after_fees data)).

Definition process_redeemed_typed (data : RedeemedRecord) : step :=
  exec (upsert_vault_on_redeem (red_term_id data) (curve_id_string (red_curve_id data))
          (red_assets data)).

Definition process_share_price_changed_typed (metadata : EventMetadata)
    (data : SharePriceChangedRecord) : step :=
  match compute_market_cap (spc_total_shares data) (spc_share_price data) with
  | Err e => fail_step e
  | Ok market_cap =>
      exec (update_vault_price (spc_term_id data) (curve_id_string (spc_curve_id data))
              (spc_share_price data) (spc_total_assets data) (spc_total_shares data) market_cap) >>?
      exec (insert_share_price_history (event_id metadata) (EventMetadata.block_timestamp metadata)
              (price_row metadata data market_cap))
  end.

(** The [match event] of the loop; [continue] is an unchanged transaction. *)
Definition process_event (event : ParsedEvent) : step :=
  match event with
  | ParsedEvent.Deposited _ data =>
      if skip (dep_term_id data) (dep_curve_id data) then done_step
      else process_deposited_typed data
  | ParsedEvent.Redeemed _ data =>
      if skip (red_term_id data) (red_curve_id data) then done_step
      else process_redeemed_typed data
  | ParsedEvent.SharePriceChanged metadata data =>
      if skip (spc_term_id data) (spc_curve_id data) then done_step
      else process_share_price_changed_typed metadata data
  | _ => done_step
  end.

Definition process_parsed_batch (events : list ParsedEvent) : W -> result unit ProjectionError * W :=
  run_tx (process_events PROJECTION_NAME process_event events).

Lemma vault_event_implements (tables : W -> VaultTables) (L : TxLaws tables) p :
  implements tables (process_event p) (apply_event p).
Proof.
  unfold process_event, apply_event, process_deposited_typed, process_redeemed_typed,
    process_share_price_changed_typed.
  destruct p; auto with tx_db; case_match; auto with tx_db.
  destruct (compute_market_cap _ _); cbn [res_bind]; [|auto with tx_db].
  eapply does_ext; [|eauto with tx_db]. done.
Qed.
End VaultState.

(** What a batch is meant to do. *)
Abbreviation apply_events self := (apply_all (apply_event self)).

(** ** One row at a time *)

Section Rows.
Context `{ShardHash}.

(** The vault an event is about, and what it makes of the vault's row. *)
Definition event_key (p : ParsedEvent) : option (string * string) :=
  match p with
  | ParsedEvent.Deposited _ data => Some (vault_key (dep_term_id data) (dep_curve_id data))
  | ParsedEvent.Redeemed _ data => Some (vault_key (red_term_id data) (red_curve_id data))
  | ParsedEvent.SharePriceChanged _ data => Some (vault_key (spc_term_id data) (spc_curve_id data))
  | _ => None
  end.

(** The owner of a vault key among [n] shards. *)
Definition key_owner (n : Z) (k : string * string) : Z := hash_pair (fst k) (snd k) mod n.

Definition whole : VaultStateProjection := {| shard_id := 0; total_shards := 1 |}.
Definition shard (n s : Z) : VaultStateProjection := {| shard_id := s; total_shards := n |}.

(** The row of [k] after one event, and after a batch, from the row before. *)
Definition row_after (k : string * string) (p : ParsedEvent) (row : option VaultRow) : option VaultRow :=
  match apply_event whole p {| vault := match row with Some r => {[k := r]} | None => ∅ end;
                               share_price_history := ∅; active_vault_position := ∅ |} with
  | Ok t => vault t !! k
  | Err _ => row
  end.

Lemma whole_skip t c : skip whole t c = false.
Proof. done. Qed.

Lemma vault_row_table k (row : option VaultRow) :
  (match row with Some r => {[k := r]} | None => ∅ end : gmap (string * string) VaultRow) !! k = row.
Proof. destruct row; [apply lookup_singleton_eq|apply lookup_empty]. Qed.

(** An event touches the row of its own vault, if the shard owns it, and the
    new row depends on the old row only. *)
Lemma apply_event_row n s p t t' k :
  1 <= n <= U32_MAX -> 0 <= s < n -> apply_event (shard n s) p t = Ok t' ->
  vault t' !! k = (if decide (event_key p = Some k /\ key_owner n k = s)
                   then row_after k p (vault t !! k) else vault t !! k).
Proof.
  intros Hn Hs Ha. unfold row_after.
  destruct p; cbn [apply_event event_key] in *;
    try (injection Ha as <-; by rewrite decide_False by (intros [? _]; done)).
  all: rewrite whole_skip; unfold skip in Ha; cbn [shard_id total_shards shard] in Ha;
    rewrite should_skip_owner in Ha by done; unfold owner, canonical_shard_key in Ha;
    match type of Ha with context [negb (?h mod ?m =? ?u)] => destruct (Z.eqb_spec (h mod m) u) as [Ho|Ho] end;
    cbn [negb] in Ha;
    [|injection Ha as <-; rewrite decide_False; [done|]; intros [Hk Hko]; simplify_eq; done].
  3: destruct (compute_market_cap _ _) as [mc|e]; [|done]; cbn [res_bind] in *.
  all: injection Ha as <-; cbn [with_vault with_history vault upsert_vault_on_deposit
         upsert_vault_on_redeem update_vault_price insert_share_price_history];
    (case_decide as Hd;
     [destruct Hd as [Hd _]; injection Hd as <-; unfold vault_key;
      rewrite !upsert_same, vault_row_table; by destruct (vault t !! _)
     |apply upsert_other; intros <-; apply Hd; done]).
Qed.

(** A shard succeeds on what the whole projection succeeds on. *)
Lemma apply_event_ok n s p t t1 t2 :
  1 <= n <= U32_MAX -> 0 <= s < n -> apply_event whole p t = Ok t1 ->
  exists t3, apply_event (shard n s) p t2 = Ok t3.
Proof.
  intros Hn Hs Ha. destruct p; cbn [apply_event] in *; try (by eexists); rewrite whole_skip in Ha;
    (destruct (skip (shard n s) _ _); [by eexists|]); try (by eexists).
  destruct (compute_market_cap _ _); [by eexists|done].
Qed.

Definition row_batch (k : string * string) (ps : list ParsedEvent) (row : option VaultRow)
    : option VaultRow :=
  fold_left (fun row p => if decide (event_key p = Some k) then row_after k p row else row) ps row.

Lemma apply_events_row n s ps t t' k :
  1 <= n <= U32_MAX -> 0 <= s < n -> apply_events (shard n s) ps t = Ok t' ->
  vault t' !! k = (if decide (key_owner n k = s) then row_batch k ps (vault t !! k) else vault t !! k).
Proof.
  intros Hn Hs. revert t. induction ps as [|p ps IH]; intros t Ha; cbn [apply_all] in Ha.
  { injection Ha as <-. by case_decide. }
  apply res_bind_ok in Ha as (t1 & Hp & Ha). rewrite (IH t1 Ha).
  rewrite (apply_event_row n s p t t1 k Hn Hs Hp). unfold row_batch. cbn [fold_left].
  repeat case_decide; try done; naive_solver.
Qed.

Lemma apply_events_ok n s ps t t1 t2 :
  1 <= n <= U32_MAX -> 0 <= s < n -> apply_events whole ps t = Ok t1 ->
  exists t3, apply_events (shard n s) ps t2 = Ok t3.
Proof.
  intros Hn Hs. revert t t2. induction ps as [|p ps IH]; intros t t2 Ha; cbn [apply_all] in *.
  { by eexists. }
  apply res_bind_ok in Ha as (u & Hp & Ha).
  destruct (apply_event_ok n s p t u t2 Hn Hs Hp) as [u2 ->]. cbn [res_bind]. by eapply IH.
Qed.

(** The shards one after the other. *)
Fixpoint apply_shards (n : Z) (ss : list Z) (ps : list ParsedEvent) (t : VaultTables)
    : result VaultTables ProjectionError :=
  match ss with
  | [] => Ok t
  | s :: ss => let? t := apply_events (shard n s) ps t in apply_shards n ss ps t
  end.

Lemma apply_shards_row n ss ps t0 t1 t :
  1 <= n <= U32_MAX -> (forall s, s ∈ ss -> 0 <= s < n) -> NoDup ss ->
  apply_events whole ps t0 = Ok t1 ->
  exists t', apply_shards n ss ps t = Ok t' /\
    forall k, vault t' !! k = (if decide (key_owner n k ∈ ss) then row_batch k ps (vault t !! k)
                               else vault t !! k).
Proof.
  intros Hn Hss Hnd Hok. revert t. induction Hnd as [|s ss Hni Hnd IH]; intros t; cbn [apply_shards].
  { exists t. split; [done|]. intros k. rewrite decide_False; [done|]. by intros ?%not_elem_of_nil. }
  assert (Hs : 0 <= s < n) by (apply Hss; left).
  destruct (apply_events_ok n s ps t0 t1 t Hn Hs Hok) as [u Hu]. rewrite Hu. cbn [res_bind].
  destruct (IH ltac:(intros; apply Hss; by right) u) as (t' & -> & Hrow).
  exists t'. split; [done|]. intros k. rewrite Hrow, (apply_events_row n s ps t u k Hn Hs Hu).
  destruct (decide (key_owner n k = s)) as [->|Hne].
  - rewrite (decide_False (P := s ∈ ss)) by done. by rewrite decide_True by left.
  - destruct (decide (key_owner n k ∈ ss)); [by rewrite decide_True by (by right)|].
    rewrite decide_False; [done|]. by intros [?|?]%elem_of_cons.
Qed.
End Rows.

(** ** What the columns add up to *)

Section Columns.
Context `{ShardHash} (k : string * string).

(** What an event of the vault adds to its deposits and redemptions. *)
Definition deposit_of (p : ParsedEvent) : Z :=
  match p with
  | ParsedEvent.Deposited _ data =>
      if decide (event_key p = Some k) then dep_assets_after_fees data else 0
  | _ => 0
  end.
Definition redemption_of (p : ParsedEvent) : Z :=
  match p with
  | ParsedEvent.Redeemed _ data => if decide (event_key p = Some k) then red_assets data else 0
  | _ => 0
  end.
Definition price_of (p : ParsedEvent) : option SharePriceChangedRecord :=
  match p with
  | ParsedEvent.SharePriceChanged _ data => if decide (event_key p = Some k) then Some data else None
  | _ => None
  end.

Definition total (f : ParsedEvent -> Z) (ps : list ParsedEvent) : Z := fold_right (fun p => Z.add (f p)) 0 ps.

(** The last price event of the vault. *)
Fixpoint last_price (ps : list ParsedEvent) : option SharePriceChangedRecord :=
  match ps with
  | [] => None
  | p :: ps => match last_price ps with Some data => Some data | None => price_of p end
  end.

Definition snapshot (row : VaultRow) : Z * Z * Z :=
  (VaultRepo.current_share_price row, VaultRepo.total_assets row, VaultRepo.total_shares row).
Definition price_snapshot (data : SharePriceChangedRecord) : Z * Z * Z :=
  (spc_share_price data, spc_total_assets data, spc_total_shares data).

(** The row one event of the vault makes of an existing row. *)
Definition columns_after (p : ParsedEvent) (row row' : VaultRow) : Prop :=
  total_deposits row' = total_deposits row + deposit_of p - redemption_of p /\
  total_redemptions row' = total_redemptions row + redemption_of p /\
  holder_count row' = holder_count row /\
  snapshot row' = from_option price_snapshot (snapshot row) (price_of p).

Lemma row_after_columns p t t' row :
  apply_event whole p t = Ok t' ->
  exists row', (if decide (event_key p = Some k) then row_after k p (Some row) else Some row) = Some row' /\
    columns_after p row row'.
Proof.
  intros Hok. unfold columns_after, deposit_of, redemption_of, price_of. case_decide as Hk.
  2: { exists row. split; [done|]. destruct p; cbv beta iota; rewrite ?decide_False by done;
       split_and!; cbn [from_option]; lia || done. }
  unfold row_after. destruct p; cbn [event_key] in Hk; try done; injection Hk as <-;
    cbn [apply_event event_key] in *; rewrite whole_skip in *; rewrite ?decide_True by done.
  3: destruct (compute_market_cap _ _) as [mc|e]; [|done]; cbn [res_bind].
  all: cbn [with_vault with_history vault upsert_vault_on_deposit upsert_vault_on_redeem
         update_vault_price insert_share_price_history]; unfold vault_key;
    rewrite upsert_same, lookup_singleton_eq; eexists; (split; [reflexivity|]);
    split_and!; cbn; lia || done.
Qed.

Lemma row_batch_columns ps t t' row :
  apply_events whole ps t = Ok t' ->
  exists row', row_batch k ps (Some row) = Some row' /\
    total_deposits row' = total_deposits row + total deposit_of ps - total redemption_of ps /\
    total_redemptions row' = total_redemptions row + total redemption_of ps /\
    holder_count row' = holder_count row /\
    snapshot row' = from_option price_snapshot (snapshot row) (last_price ps).
Proof.
  revert t row. induction ps as [|p ps IH]; intros t row Hok; cbn [apply_all] in Hok.
  { exists row. split_and!; cbn; lia || done. }
  apply res_bind_ok in Hok as (t1 & Hp & Hps).
  destruct (row_after_columns p t t1 row Hp) as (row1 & E1 & D1 & R1 & H1 & S1).
  destruct (IH t1 row1 Hps) as (row' & E & D & R & Hh & S). exists row'.
  unfold row_batch. cbn [fold_left]. rewrite E1. split; [exact E|].
  unfold total. cbn [fold_right last_price]. fold (total deposit_of ps) (total redemption_of ps).
  split_and!; [lia|lia|congruence|]. rewrite S, S1. by destruct (last_price ps), (price_of p).
Qed.
End Columns.

(** ** Properties *)

(** C6 (a batch is all or nothing, and right). Whatever calls fail: if the
    projection reports success, the tables are exactly what applying the batch's
    events in order gives; if it reports an error, they are as before or, when the
    failure was that of the commit, the batch as a whole took effect. When no
    database call fails, it succeeds on exactly the batches the specification
    accepts and returns the specification's error on the others: an event that cannot be
    applied fails the whole batch, where the doc of the function says it is skipped. *)
Theorem vault_state_refines `{ShardHash} {W} `{TxWorld VaultTables W} `{EventCodecs}
  (self : VaultStateProjection) (tables : W -> VaultTables) (events : list ParsedEvent)
  (L : TxLaws tables) :
  batch_implements tables (process_parsed_batch self events) (apply_events self events).
Proof.
  apply run_tx_implements; [exact L|]. apply does_events; [apply (tx_records _ L)|]. by apply vault_event_implements.
Qed.

(** Sharding changes nothing. If the unsharded projection accepts a batch,
    then running the [n] shards one after the other, in any order, on the same
    batch also succeeds and leaves the same [vault] table: every vault's row is
    computed by its owner from its own events alone. *)
Theorem shards_equal_whole `{ShardHash} (n : Z) (ss : list Z) (events : list ParsedEvent)
  (t t1 : VaultTables)
  (Hn : 1 <= n <= U32_MAX) (Hss : ss ≡ₚ seqZ 0 n) (Hwhole : apply_events whole events t = Ok t1) :
  exists t', apply_shards n ss events t = Ok t' /\ vault t' = vault t1.
Proof.
  assert (Hin : forall s, s ∈ ss <-> 0 <= s < n).
  { intros s. rewrite Hss, elem_of_seqZ. lia. }
  assert (Hnd : NoDup ss) by (rewrite Hss; apply NoDup_seqZ).
  destruct (apply_shards_row n ss events t t1 t Hn ltac:(intros; by apply Hin) Hnd Hwhole)
    as (t' & E & Hrow).
  exists t'. split; [done|]. apply map_eq. intros k. rewrite Hrow.
  rewrite (apply_events_row 1 0 events t t1 k ltac:(unfold U32_MAX; lia) ltac:(lia) Hwhole).
  rewrite (decide_True (P := key_owner 1 k = 0)) by apply Z.mod_1_r.
  rewrite decide_True; [done|]. apply Hin, Z.mod_pos_bound. lia.
Qed.

(** Vault accounting. Applying a batch to a vault that already has a row
    adds the net deposits of its [Deposited] events and takes off the assets of its
    [Redeemed] events, accumulates those redemptions, leaves the holder count
    alone, and makes price, assets and shares those of the vault's last
    [SharePriceChanged] event, if there is one. Other vaults' events do not count. *)
Theorem vault_accounting `{ShardHash} (k : string * string) (events : list ParsedEvent)
  (t t' : VaultTables) (row : VaultRow)
  (Hok : apply_events whole events t = Ok t') (Hrow : vault t !! k = Some row) :
  exists row', vault t' !! k = Some row' /\
    total_deposits row' = total_deposits row + total (deposit_of k) events - total (redemption_of k) events /\
    total_redemptions row' = total_redemptions row + total (redemption_of k) events /\
    holder_count row' = holder_count row /\
    snapshot row' = from_option price_snapshot (snapshot row) (last_price k events).
Proof.
  rewrite (apply_events_row 1 0 events t t' k ltac:(unfold U32_MAX; lia) ltac:(lia) Hok).
  rewrite (decide_True (P := key_owner 1 k = 0)) by apply Z.mod_1_r. rewrite Hrow.
  by eapply row_batch_columns.
Qed.

(** A batch applied twice counts twice. The worker re-processes a batch whose
    checkpoint save failed, relying on the projection being idempotent. It is not:
    after applying the same batch twice, an existing vault's deposits and
    redemptions have moved by twice the batch's amounts. *)
Theorem replayed_batch_counts_twice `{ShardHash} (k : string * string) (events : list ParsedEvent)
  (t t1 t2 : VaultTables) (row : VaultRow)
  (Hfirst : apply_events whole events t = Ok t1) (Hagain : apply_events whole events t1 = Ok t2)
  (Hrow : vault t !! k = Some row) :
  exists row2, vault t2 !! k = Some row2 /\
    total_deposits row2 = total_deposits row +
      2 * (total (deposit_of k) events - total (redemption_of k) events) /\
    total_redemptions row2 = total_redemptions row + 2 * total (redemption_of k) events.
Proof.
  assert (Hw : forall u u', apply_events whole events u = Ok u' -> vault u' !! k = row_batch k events (vault u !! k)).
  { intros u u' Hu. rewrite (apply_events_row 1 0 events u u' k ltac:(unfold U32_MAX; lia) ltac:(lia) Hu).
    by rewrite (decide_True (P := key_owner 1 k = 0)) by apply Z.mod_1_r. }
  destruct (row_batch_columns k events t t1 row Hfirst) as (row1 & E1 & D1 & R1 & _).
  destruct (row_batch_columns k events t1 t2 row1 Hagain) as (row2 & E2 & D2 & R2 & _).
  exists row2. split; [|split; lia]. by rewrite (Hw _ _ Hagain), (Hw _ _ Hfirst), Hrow, E1.
Qed.

(** A redemption that comes first is not debited. For a vault without a row,
    a deposit of [d] followed by a redemption of [r] leaves net deposits [d - r],
    but the same two events in the other order leave [d]: the insert branch of the
    redeem upsert starts the column at 0 instead of [-r]. *)
Theorem redeem_before_deposit_loses_debit `{ShardHash} (md mr : EventMetadata)
  (dep : DepositedRecord) (red : RedeemedRecord) (t : VaultTables)
  (Hkey : vault_key (red_term_id red) (red_curve_id red) = vault_key (dep_term_id dep) (dep_curve_id dep))
  (Hnew : vault t !! vault_key (dep_term_id dep) (dep_curve_id dep) = None) :
  let k := vault_key (dep_term_id dep) (dep_curve_id dep) in
  let d := ParsedEvent.Deposited md dep in
  let r := ParsedEvent.Redeemed mr red in
  exists t1 t2 row1 row2,
    apply_events whole [d; r] t = Ok t1 /\ apply_events whole [r; d] t = Ok t2 /\
    vault t1 !! k = Some row1 /\ vault t2 !! k = Some row2 /\
    total_deposits row1 = dep_assets_after_fees dep - red_assets red /\
    total_deposits row2 = dep_assets_after_fees dep /\
    total_redemptions row1 = total_redemptions row2.
Proof.
  cbv zeta. unfold vault_key in *. injection Hkey as Ht Hc.
  cbn [apply_all apply_event]. rewrite !whole_skip. cbn [res_bind].
  eexists _, _, _, _. split; [reflexivity|]. split; [reflexivity|].
  cbn [vault with_vault upsert_vault_on_deposit upsert_vault_on_redeem].
  rewrite Ht, Hc, !upsert_same, Hnew. split; [reflexivity|]. split; [reflexivity|]. done.
Qed.

(** ** A concrete database *)

#[global] Instance no_vaults : EmptyTables VaultTables :=
  {| vault := ∅; share_price_history := ∅; active_vault_position := ∅ |}.

Definition demo_deposit (assets : Z) : DepositedRecord := {|
  dep_sender := "0xs"; dep_receiver := "0xr"; dep_term_id := "0x07"; dep_curve_id := 1;
  dep_assets := assets; dep_assets_after_fees := assets; dep_shares := assets;
  dep_total_shares := assets; dep_vault_type := 1 |}.
Definition demo_deposited (seq : Z) (assets : Z) : ParsedEvent :=
  ParsedEvent.Deposited (demo_metadata seq "Deposited") (demo_deposit assets).
Definition demo_redemption (assets : Z) : RedeemedRecord := {|
  red_sender := "0xr"; red_receiver := "0xr"; red_term_id := "0x07"; red_curve_id := 1;
  red_shares := assets; red_total_shares := 0; red_assets := assets; red_fees := 0;
  red_vault_type := 1 |}.
Definition demo_batch : list ParsedEvent :=
  [demo_deposited 1 900; ParsedEvent.Redeemed (demo_metadata 2 "Redeemed") (demo_redemption 300);
   ParsedEvent.SharePriceChanged (demo_metadata 3 "SharePriceChanged")
     {| spc_term_id := "0x07"; spc_curve_id := 1; spc_share_price := 2 * 10 ^ 18;
        spc_total_assets := 600; spc_total_shares := 300; spc_vault_type := 1 |}].
Definition demo_vaults : VaultTables := {|
  vault := {[("0x07", "1") := {| total_shares := 0; total_deposits := 100; current_share_price := 0;
     market_cap := 0; holder_count := 1; total_redemptions := 0; total_assets := 0 |}]};
  share_price_history := ∅; active_vault_position := ∅ |}.

#[local] Existing Instance sample_hash.
#[local] Existing Instance sample_codecs.

Definition after_demo_batch (t : VaultTables) : VaultTables :=
  match apply_events whole demo_batch t with Ok t => t | Err _ => t end.

Example demo_vault_row :
  option_map (fun r => (total_deposits r, total_redemptions r, market_cap r))
    (vault (after_demo_batch demo_vaults) !! ("0x07", "1")) = Some (700, 300, 600).
Proof. vm_compute. done. Qed.

Lemma vault_state_refines_witness :
  batch_implements demo_tables (process_parsed_batch whole demo_batch) (apply_events whole demo_batch).
Proof. exact (vault_state_refines whole demo_tables demo_batch demo_tx_laws). Defined.

(** An error of a statement leaves the tables alone; the retry applies the batch. *)
Example demo_vault_batch :
  let w : demo VaultTables := demo_begin [] [ProjectionError.Database "deadlock"] in
  let '(r, w1) := process_parsed_batch whole demo_batch w in
  let '(r', w2) := process_parsed_batch whole demo_batch w1 in
  is_ok r = false /\ vault (demo_tables w1) = ∅ /\ r' = Ok tt /\
  option_map total_deposits (vault (demo_tables w2) !! ("0x07", "1")) = Some 600.
Proof. vm_compute. done. Qed.

Lemma shards_equal_whole_witness :
  exists t', apply_shards 4 [2; 0; 3; 1] demo_batch demo_vaults = Ok t' /\
    vault t' = vault (after_demo_batch demo_vaults).
Proof.
  apply (shards_equal_whole 4 [2; 0; 3; 1] demo_batch demo_vaults (after_demo_batch demo_vaults)).
  - unfold U32_MAX. lia.
  - apply (bool_decide_unpack _). vm_compute. exact I.
  - vm_compute. reflexivity.
Defined.

Lemma vault_accounting_witness :
  exists row', vault (after_demo_batch demo_vaults) !! ("0x07", "1") = Some row' /\
    total_deposits row' = 100 + 900 - 300 /\ total_redemptions row' = 0 + 300 /\
    holder_count row' = 1 /\ snapshot row' = (2 * 10 ^ 18, 600, 300).
Proof.
  exact (vault_accounting ("0x07", "1") demo_batch demo_vaults (after_demo_batch demo_vaults) _
    ltac:(vm_compute; reflexivity) (lookup_singleton_eq _ _)).
Defined.

Lemma replayed_batch_counts_twice_witness :
  exists row2, vault (after_demo_batch (after_demo_batch demo_vaults)) !! ("0x07", "1") = Some row2 /\
    total_deposits row2 = 100 + 2 * (900 - 300) /\ total_redemptions row2 = 0 + 2 * 300.
Proof.
  exact (replayed_batch_counts_twice ("0x07", "1") demo_batch demo_vaults
    (after_demo_batch demo_vaults) (after_demo_batch (after_demo_batch demo_vaults)) _
    ltac:(vm_compute; reflexivity) ltac:(vm_compute; reflexivity) (lookup_singleton_eq _ _)).
Defined.

Lemma redeem_before_deposit_loses_debit_witness :
  exists t1 t2 row1 row2,
    apply_events whole [demo_deposited 1 900; ParsedEvent.Redeemed (demo_metadata 2 "Redeemed") (demo_redemption 300)]
      (demo_tables (demo_begin [] [])) = Ok t1 /\
    apply_events whole [ParsedEvent.Redeemed (demo_metadata 2 "Redeemed") (demo_redemption 300); demo_deposited 1 900]
      (demo_tables (demo_begin [] [])) = Ok t2 /\
    vault t1 !! ("0x07", "1") = Some row1 /\ vault t2 !! ("0x07", "1") = Some row2 /\
    total_deposits row1 = 900 - 300 /\ total_deposits row2 = 900 /\
    total_redemptions row1 = total_redemptions row2.
Proof.
  exact (redeem_before_deposit_loses_debit (demo_metadata 1 "Deposited") (demo_metadata 2 "Redeemed")
    (demo_deposit 900) (demo_redemption 300) (demo_tables (demo_begin [] [])) eq_refl eq_refl).
Defined.
