(* ===== verification/VaultStateDual.v ===== *)
(** * The dual-write vault-state projection

    [crates/projections/src/projection/dual/vault_state.rs]: every deposit,
    redemption and price change of the shard is written to the market tables of
    the KG database and to the legacy vault tables, in one transaction each, and
    the holder counts of the touched vaults are refreshed on both sides. *)

From S2P Require Import Prelude MachineInt Events Errors Retry WorkerWorld DeadLetter PgTx DualTx PgCommon Shard VaultRepo KgMarket VaultState DemoWorld DemoDatabase.

Module VaultStateDual.

Definition PROJECTION_NAME : string := "vault_state:dual".

Record VaultStateDualProjection := { shard_id : Z; total_shards : Z; kg_pool : bool }.

Definition new (shard_id total_shards : Z) : VaultStateDualProjection :=
  {| shard_id := shard_id; total_shards := total_shards; kg_pool := false |}.
Definition with_kg_pool (self : VaultStateDualProjection) : VaultStateDualProjection :=
  {| shard_id := shard_id self; total_shards := total_shards self; kg_pool := true |}.

Section Projection.
Context `{ShardHash} `{KgDefaults} (self : VaultStateDualProjection).

Definition should_skip_shard (term_id : string) (curve_id : BigDecimal) : bool :=
  Shard.should_skip_shard (shard_id self) (total_shards self) term_id curve_id.

Definition pg_shard_id : option Z := if 1 <? total_shards self then Some (shard_id self) else None.

(** The vaults whose holder counts a batch refreshes. *)
Definition touches (event : ParsedEvent) : option (string * string) :=
  match event with
  | ParsedEvent.Deposited _ data =>
      if should_skip_shard (dep_term_id data) (dep_curve_id data) then None
      else Some (vault_key (dep_term_id data) (dep_curve_id data))
  | ParsedEvent.Redeemed _ data =>
      if should_skip_shard (red_term_id data) (red_curve_id data) then None
      else Some (vault_key (red_term_id data) (red_curve_id data))
  | _ => None
  end.
Definition touched_deposit_redeem_vaults (events : list ParsedEvent) : gset (string * string) :=
  list_to_set (omap touches events).

Context {W : Type} `{DualPools VaultTables KgTables W} `{EventCodecs}.
Context (hash_order : gset (string * string) -> list (string * string)).

Abbreviation step := (@dual_step VaultTables KgTables W).
Abbreviation on_kg := (exec_kg (kg_pool self)).

Definition process_deposited_typed (metadata : EventMetadata) (data : DepositedRecord) : step :=
  let curve_id := curve_id_string (dep_curve_id data) in
  on_kg (upsert_kg_vault_on_deposit (dep_term_id data) curve_id (dep_assets_after_fees data)) >>?
  on_kg (insert_kg_market_event_deposited metadata data) >>?
  exec_legacy (upsert_vault_on_deposit (dep_term_id data) curve_id (dep_assets_after_fees data)).

Definition process_redeemed_typed (metadata : EventMetadata) (data : RedeemedRecord) : step :=
  let curve_id := curve_id_string (red_curve_id data) in
  on_kg (upsert_kg_vault_on_redeem (red_term_id data) curve_id (red_assets data)) >>?
  on_kg (insert_kg_market_event_redeemed metadata data) >>?
  exec_legacy (upsert_vault_on_redeem (red_term_id data) curve_id (red_assets data)).

Definition process_share_price_changed_typed (metadata : EventMetadata)
    (data : SharePriceChangedRecord) : step :=
  let curve_id := curve_id_string (spc_curve_id data) in
  match compute_market_cap (spc_total_shares data) (spc_share_price data) with
  | Err e => fail_step e
  | Ok market_cap =>
      on_kg (update_kg_vault_price (spc_term_id data) curve_id (spc_share_price data)
               (spc_total_assets data) (spc_total_shares data) market_cap) >>?
      on_kg (insert_kg_market_event_share_price_changed metadata data) >>?
      exec_legacy (update_vault_price (spc_term_id data) curve_id (spc_share_price data)
               (spc_total_assets data) (spc_total_shares data) market_cap) >>?
      exec_legacy (insert_share_price_history
        (event_id_of (EventMetadata.transaction_hash metadata) (EventMetadata.log_index metadata)
           "SharePriceChanged")
        (EventMetadata.block_timestamp metadata) (price_row metadata data market_cap))
  end.

Definition process_event (event : ParsedEvent) : step :=
  match event with
  | ParsedEvent.Deposited metadata data =>
      if should_skip_shard (dep_term_id data) (dep_curve_id data) then done_step
      else process_deposited_typed metadata data
  | ParsedEvent.Redeemed metadata data =>
      if should_skip_shard (red_term_id data) (red_curve_id data) then done_step
      else process_redeemed_typed metadata data
  | ParsedEvent.SharePriceChanged metadata data =>
      if should_skip_shard (spc_term_id data) (spc_curve_id data) then done_step
      else process_share_price_changed_typed metadata data
  | _ => done_step
  end.

Definition process_parsed_batch (events : list ParsedEvent) : W -> result unit ProjectionError * W :=
  let touched := hash_order (touched_deposit_redeem_vaults events) in
  run_dual (kg_pool self)
    (process_events PROJECTION_NAME process_event events >>?
     each (fun k => on_kg (refresh_kg_holder_count (fst k) (snd k))) touched >>?
     each (fun k => exec_legacy (refresh_holder_count (fst k) (snd k))) touched).

(** ** What a batch does, on each side *)

(** The legacy half of an event is that of the legacy projection, but for the
    name in the event id. *)
Definition legacy_event (p : ParsedEvent) (t : VaultTables) : result VaultTables ProjectionError :=
  match p with
  | ParsedEvent.Deposited _ data =>
      if should_skip_shard (dep_term_id data) (dep_curve_id data) then Ok t
      else Ok (upsert_vault_on_deposit (dep_term_id data) (curve_id_string (dep_curve_id data))
                 (dep_assets_after_fees data) t)
  | ParsedEvent.Redeemed _ data =>
      if should_skip_shard (red_term_id data) (red_curve_id data) then Ok t
      else Ok (upsert_vault_on_redeem (red_term_id data) (curve_id_string (red_curve_id data))
                 (red_assets data) t)
  | ParsedEvent.SharePriceChanged metadata data =>
      if should_skip_shard (spc_term_id data) (spc_curve_id data) then Ok t
      else
        let? market_cap := compute_market_cap (spc_total_shares data) (spc_share_price data) in
        Ok (insert_share_price_history
          (event_id_of (EventMetadata.transaction_hash metadata) (EventMetadata.log_index metadata)
             "SharePriceChanged")
          (EventMetadata.block_timestamp metadata) (price_row metadata data market_cap)
          (update_vault_price (spc_term_id data) (curve_id_string (spc_curve_id data))
             (spc_share_price data) (spc_total_assets data) (spc_total_shares data) market_cap t))
  | _ => Ok t
  end.

Definition kg_event (p : ParsedEvent) (t : KgTables) : result KgTables ProjectionError :=
  match p with
  | ParsedEvent.Deposited metadata data =>
      if should_skip_shard (dep_term_id data) (dep_curve_id data) then Ok t
      else Ok (insert_kg_market_event_deposited metadata data
        (upsert_kg_vault_on_deposit (dep_term_id data) (curve_id_string (dep_curve_id data))
           (dep_assets_after_fees data) t))
  | ParsedEvent.Redeemed metadata data =>
      if should_skip_shard (red_term_id data) (red_curve_id data) then Ok t
      else Ok (insert_kg_market_event_redeemed metadata data
        (upsert_kg_vault_on_redeem (red_term_id data) (curve_id_string (red_curve_id data))
           (red_assets data) t))
  | ParsedEvent.SharePriceChanged metadata data =>
      if should_skip_shard (spc_term_id data) (spc_curve_id data) then Ok t
      else
        let? market_cap := compute_market_cap (spc_total_shares data) (spc_share_price data) in
        Ok (insert_kg_market_event_share_price_changed metadata data
          (update_kg_vault_price (spc_term_id data) (curve_id_string (spc_curve_id data))
             (spc_share_price data) (spc_total_assets data) (spc_total_shares data) market_cap t))
  | _ => Ok t
  end.

Definition refresh_legacy (keys : list (string * string)) (t : VaultTables) : VaultTables :=
  fold_left (fun t k => refresh_holder_count (fst k) (snd k) t) keys t.
Definition refresh_kg (keys : list (string * string)) (t : KgTables) : KgTables :=
  fold_left (fun t k => refresh_kg_holder_count (fst k) (snd k) t) keys t.

Definition legacy_batch (events : list ParsedEvent) (t : VaultTables) : result VaultTables ProjectionError :=
  let? t := apply_all legacy_event events t in
  Ok (refresh_legacy (hash_order (touched_deposit_redeem_vaults events)) t).
Definition kg_batch (events : list ParsedEvent) (t : KgTables) : result KgTables ProjectionError :=
  if kg_pool self then
    let? t := apply_all kg_event events t in
    Ok (refresh_kg (hash_order (touched_deposit_redeem_vaults events)) t)
  else Ok t.

(** Both halves; they fail on the same events. *)
Definition dual_batch (events : list ParsedEvent) (t : VaultTables * KgTables)
    : result (VaultTables * KgTables) ProjectionError :=
  let? l := legacy_batch events (fst t) in
  let? k := kg_batch events (snd t) in
  Ok (l, k).

Context (tables : W -> VaultTables * KgTables) (L : DualPoolLaws tables).

Definition dual_event (p : ParsedEvent) (t : VaultTables * KgTables)
    : result (VaultTables * KgTables) ProjectionError :=
  let? l := legacy_event p (fst t) in
  if kg_pool self then let? k := kg_event p (snd t) in Ok (l, k) else Ok (l, snd t).

Lemma event_does p : dual_does (kg_pool self) tables (process_event p) (dual_event p).
Proof.
  unfold process_event, dual_event, dual_does, process_deposited_typed, process_redeemed_typed,
    process_share_price_changed_typed.
  assert (Hid : dual_does (kg_pool self) tables done_step
    (fun t => if kg_pool self then Ok (fst t, snd t) else Ok (fst t, snd t))).
  { eapply does_ext; [|apply does_done]. intros []. by destruct (kg_pool self). }
  destruct p; cbn [legacy_event kg_event]; try exact Hid; (destruct (should_skip_shard _ _); [exact Hid|]).
  3: destruct (compute_market_cap _ _) as [mc|e]; cbn [res_bind]; [|apply does_fail].
  all: (eapply does_ext; [|repeat first [apply does_seq|by apply dual_does_kg|by apply dual_does_legacy]]);
    intros [l k]; unfold kg_effect; cbn; by destruct (kg_pool self).
Qed.

Lemma same_refusal p l k l1 : legacy_event p l = Ok l1 -> exists k1, kg_event p k = Ok k1.
Proof.
  destruct p; cbn [legacy_event kg_event]; try (by eexists); (destruct (should_skip_shard _ _); [by eexists|]);
    try (by eexists). destruct (compute_market_cap _ _); [by eexists|done].
Qed.

Lemma dual_events_split events l k :
  apply_all dual_event events (l, k) =
  (let? l := apply_all legacy_event events l in
   if kg_pool self then let? k := apply_all kg_event events k in Ok (l, k) else Ok (l, k)).
Proof.
  revert l k. induction events as [|p events IH]; intros l k; cbn [apply_all res_bind].
  { by destruct (kg_pool self). }
  unfold dual_event at 1. cbn [fst snd]. destruct (legacy_event p l) as [l1|e] eqn:Hl; [|done]. cbn [res_bind].
  destruct (kg_pool self) eqn:Hkg; [|cbn [res_bind]; rewrite IH; done].
  destruct (same_refusal p l k l1 Hl) as [k1 ->]. cbn [res_bind]. by rewrite IH.
Qed.

Lemma kg_accepts events l k l1 :
  apply_all legacy_event events l = Ok l1 -> exists k1, apply_all kg_event events k = Ok k1.
Proof.
  revert l k. induction events as [|p events IH]; intros l k Hl; cbn [apply_all] in *; [by eexists|].
  apply res_bind_ok in Hl as (l2 & Hp & Hl). destruct (same_refusal p l k l2 Hp) as [k2 ->]. by eapply IH.
Qed.

Lemma batch_does events :
  dual_does (kg_pool self) tables
    (process_events PROJECTION_NAME process_event events >>?
     each (fun k => on_kg (refresh_kg_holder_count (fst k) (snd k)))
       (hash_order (touched_deposit_redeem_vaults events)) >>?
     each (fun k => exec_legacy (refresh_holder_count (fst k) (snd k)))
       (hash_order (touched_deposit_redeem_vaults events)))
    (dual_batch events).
Proof.
  eapply does_ext; [|eapply does_seq; [apply does_events; [apply (dual_records _ L)|apply event_does]|
    eapply does_seq; [by apply dual_does_each_kg|by apply dual_does_each_legacy]]].
  intros [l k]. unfold dual_batch, legacy_batch, kg_batch. cbn [fst snd]. rewrite dual_events_split.
  destruct (apply_all legacy_event events l) as [l1|e] eqn:Hl; [|done]. cbn [res_bind]. unfold kg_effect.
  destruct (kg_pool self); [|done]. destruct (kg_accepts events l k l1 Hl) as [k1 ->]. done.
Qed.

(** A legacy event is the legacy projection's, up to the name in the event id. *)
Lemma legacy_event_vault p t t1 t2 :
  legacy_event p t = Ok t1 ->
  VaultState.apply_event {| VaultState.shard_id := shard_id self; VaultState.total_shards := total_shards self |} p t = Ok t2 ->
  vault t1 = vault t2 /\ active_vault_position t1 = active_vault_position t2.
Proof.
  destruct p; cbn [legacy_event VaultState.apply_event]; try (by intros [= <-] [= <-]);
    unfold should_skip_shard, skip; cbn [VaultState.shard_id VaultState.total_shards];
    (destruct (Shard.should_skip_shard _ _ _ _); [by intros [= <-] [= <-]|]);
    try (by intros [= <-] [= <-]).
  destruct (compute_market_cap _ _); [|done]. by intros [= <-] [= <-].
Qed.

(** ** The two sides together *)

Lemma event_agrees p l k l1 k1 :
  legacy_event p l = Ok l1 -> kg_event p k = Ok k1 ->
  default_total_assets = 0 -> agree (l, k) -> agree (l1, k1).
Proof.
  intros Hl Hk Hz [Hv Hp]. cbn [fst snd] in *.
  destruct p; cbn [legacy_event kg_event] in *; try (simplify_eq; by split); destruct (should_skip_shard _ _);
    try (simplify_eq; by split); try (destruct (compute_market_cap _ _); [cbn [res_bind] in *|done]);
    simplify_eq; (split; [|exact Hp]); cbn; by rewrite <- Hv, ?Hz.
Qed.

Lemma events_agree ps l k l1 k1 :
  apply_all legacy_event ps l = Ok l1 -> apply_all kg_event ps k = Ok k1 ->
  default_total_assets = 0 -> agree (l, k) -> agree (l1, k1).
Proof.
  revert l k. induction ps as [|p ps IH]; intros l k Hl Hk Hz Ha; cbn [apply_all] in *.
  { by simplify_eq. }
  apply res_bind_ok in Hl as (l2 & Hlp & Hl), Hk as (k2 & Hkp & Hk).
  eapply IH; [exact Hl|exact Hk|done|]. by eapply event_agrees.
Qed.

Lemma refresh_agrees keys l k : agree (l, k) -> agree (refresh_legacy keys l, refresh_kg keys k).
Proof.
  revert l k. induction keys as [|[t c] keys IH]; intros l k [Hv Hp]; [done|].
  cbn [refresh_legacy refresh_kg fold_left]. apply IH. cbn in *.
  split; [|done]. cbn. unfold count_holders, count_kg_holders. by rewrite Hv, Hp.
Qed.

(** The refresh of the holder counts changes nothing else of a row. *)
Definition money (row : VaultRow) : Z * Z := (total_deposits row, total_redemptions row).

Lemma refresh_money keys t key :
  money <$> vault (refresh_legacy keys t) !! key = money <$> vault t !! key.
Proof.
  revert t. induction keys as [|[a c] keys IH]; intros t; [done|]. cbn [refresh_legacy fold_left].
  unfold refresh_legacy in IH. rewrite IH. cbn.
  destruct (decide ((a, c) = key)) as [<-|Hne]; [rewrite lookup_alter_eq|by rewrite lookup_alter_ne].
  by destruct (vault t !! _).
Qed.

(** The legacy half runs as the legacy projection does. *)
Definition legacy_self : VaultState.VaultStateProjection :=
  {| VaultState.shard_id := shard_id self; VaultState.total_shards := total_shards self |}.

Lemma legacy_event_accepts p t t1 u :
  legacy_event p t = Ok t1 -> vault t = vault u ->
  exists u1, VaultState.apply_event legacy_self p u = Ok u1 /\ vault t1 = vault u1.
Proof.
  destruct p; cbn [legacy_event VaultState.apply_event]; try (intros [= <-]; by eexists);
    unfold should_skip_shard, skip, legacy_self; cbn [VaultState.shard_id VaultState.total_shards];
    (destruct (Shard.should_skip_shard _ _ _ _); [intros [= <-]; by eexists|]).
  3: destruct (compute_market_cap _ _); [cbn [res_bind]|done].
  all: intros [= <-] Hv; eexists; split; [reflexivity|]; cbn; by rewrite Hv.
Qed.

Lemma legacy_events_vault ps t t1 u :
  apply_all legacy_event ps t = Ok t1 -> vault t = vault u ->
  exists u1, VaultState.apply_events legacy_self ps u = Ok u1 /\ vault t1 = vault u1.
Proof.
  revert t u. induction ps as [|p ps IH]; intros t u Ht Hv; cbn [apply_all] in *.
  { simplify_eq. by eexists. }
  apply res_bind_ok in Ht as (t2 & Hp & Ht).
  destruct (legacy_event_accepts p t t2 u Hp Hv) as (u2 & -> & Hv2). cbn [res_bind]. by eapply IH.
Qed.

(** A market event that is there stays, and one processed before is not inserted again. *)
Lemma kg_event_grows p k k1 : kg_event p k = Ok k1 -> market_events k ⊆ market_events k1.
Proof.
  destruct p; cbn [kg_event]; try (by intros [= <-]); (destruct (should_skip_shard _ _); [by intros [= <-]|]).
  3: destruct (compute_market_cap _ _); [cbn [res_bind]|done].
  all: intros [= <-]; (etrans; [|apply insert_market_event_grows]); done.
Qed.

Lemma kg_events_grow ps k k1 : apply_all kg_event ps k = Ok k1 -> market_events k ⊆ market_events k1.
Proof.
  revert k. induction ps as [|p ps IH]; intros k Hk; cbn [apply_all] in *; [by simplify_eq|].
  apply res_bind_ok in Hk as (k2 & Hp & Hk). etrans; [by eapply kg_event_grows|by apply IH].
Qed.

Lemma kg_event_again p k k1 u u1 :
  kg_event p k = Ok k1 -> market_events k1 ⊆ market_events u -> kg_event p u = Ok u1 ->
  market_events u1 = market_events u.
Proof.
  destruct p; cbn [kg_event]; try (by intros _ _ [= <-]); (destruct (should_skip_shard _ _); [by intros _ _ [= <-]|]).
  3: destruct (compute_market_cap _ _); [cbn [res_bind]|done].
  all: intros [= <-] Hsub [= <-]; (etrans; [apply insert_market_event_again|done]).
  all: cbn in Hsub |- *; eapply lookup_weaken_is_Some; [apply insert_new_has|exact Hsub].
Qed.

Lemma kg_events_again ps k k1 u u1 :
  apply_all kg_event ps k = Ok k1 -> market_events k1 ⊆ market_events u -> apply_all kg_event ps u = Ok u1 ->
  market_events u1 = market_events u.
Proof.
  revert k u. induction ps as [|p ps IH]; intros k u Hk Hsub Hu; cbn [apply_all] in *; [by simplify_eq|].
  apply res_bind_ok in Hk as (k2 & Hp & Hk), Hu as (u2 & Hpu & Hu).
  assert (E : market_events u2 = market_events u).
  { eapply kg_event_again; [exact Hp| |exact Hpu]. etrans; [by eapply kg_events_grow|done]. }
  rewrite <- E. eapply IH; [exact Hk| |exact Hu]. by rewrite E.
Qed.

Lemma legacy_accepts ps l k k1 :
  apply_all kg_event ps k = Ok k1 -> exists l1, apply_all legacy_event ps l = Ok l1.
Proof.
  revert l k. induction ps as [|p ps IH]; intros l k Hk; cbn [apply_all] in *; [by eexists|].
  apply res_bind_ok in Hk as (k2 & Hp & Hk). assert (exists l2, legacy_event p l = Ok l2) as [l2 ->].
  { destruct p; cbn [legacy_event kg_event] in *; try (by eexists); (destruct (should_skip_shard _ _); [by eexists|]);
      try (by eexists). destruct (compute_market_cap _ _); [by eexists|done]. }
  by eapply IH.
Qed.

Lemma batches_agree events l k k1 :
  kg_pool self = true -> default_total_assets = 0 -> agree (l, k) -> kg_batch events k = Ok k1 ->
  exists l1, legacy_batch events l = Ok l1 /\ agree (l1, k1).
Proof.
  unfold legacy_batch, kg_batch. intros -> Hz Ha Hk. apply res_bind_ok in Hk as (k2 & Hk & [= <-]).
  destruct (legacy_accepts events l k k2 Hk) as [l2 Hl]. rewrite Hl. eexists. split; [reflexivity|].
  apply refresh_agrees. by eapply events_agree.
Qed.

Lemma refresh_kg_events keys k : market_events (refresh_kg keys k) = market_events k.
Proof. revert k. induction keys as [|x keys IH]; intros k; [done|]. cbn [refresh_kg fold_left]. unfold refresh_kg in IH. by rewrite IH. Qed.
End Projection.

(** What an unsharded batch does to the money columns of a vault that has a row. *)
Lemma batch_money `{ShardHash} hash_order key events t t1 row :
  legacy_batch (with_kg_pool (new 0 1)) hash_order events t = Ok t1 -> vault t !! key = Some row ->
  exists row1, vault t1 !! key = Some row1 /\
    total_deposits row1 = total_deposits row + (total (deposit_of key) events - total (redemption_of key) events) /\
    total_redemptions row1 = total_redemptions row + total (redemption_of key) events.
Proof.
  unfold legacy_batch. intros Hb Hrow. apply res_bind_ok in Hb as (t2 & Hev & [= <-]).
  destruct (legacy_events_vault (with_kg_pool (new 0 1)) events t t2 t Hev eq_refl) as (u & Hu & Hv).
  change (VaultState.apply_events (VaultState.shard 1 0) events t = Ok u) in Hu.
  pose proof (apply_events_row 1 0 events t u key ltac:(unfold U32_MAX; lia) ltac:(lia) Hu) as Hr.
  rewrite decide_True, Hrow in Hr by apply Z.mod_1_r.
  destruct (row_batch_columns key events t u row Hu) as (row2 & E & D & R & _).
  pose proof (refresh_money (hash_order (touched_deposit_redeem_vaults (with_kg_pool (new 0 1)) events)) t2 key) as Hm.
  rewrite Hv, Hr, E in Hm. cbn [fmap option_fmap option_map] in Hm.
  destruct (vault (refresh_legacy _ t2) !! key) as [row1|]; [|done]. injection Hm as Hd Hr2.
  exists row1. split; [done|]. split; lia.
Qed.

(** ** Properties *)

(** C5 (the two databases, whatever fails). If the dual projection reports success,
    both databases are what applying the batch gives. If it reports an error, it did
    nothing, or the KG half only, or everything; never the legacy half alone. When no
    call fails it succeeds on exactly the batches the specification accepts. *)
Theorem dual_vault_state_refines `{ShardHash} `{KgDefaults} {W} `{DualPools VaultTables KgTables W} `{EventCodecs}
  (self : VaultStateDualProjection) hash_order (tables : W -> VaultTables * KgTables) (events : list ParsedEvent)
  (w : W) (L : DualPoolLaws tables) :
  dual_outcome (dual_batch self hash_order events) (tables w)
    (tables (snd (process_parsed_batch self hash_order events w)))
    (fst (process_parsed_batch self hash_order events w)) /\
  (both_never_fail ->
   fst (process_parsed_batch self hash_order events w) =
     match dual_batch self hash_order events (tables w) with Ok _ => Ok tt | Err e => Err e end).
Proof.
  split.
  { pose proof (run_dual_outcome (kg_pool self) tables L _ _ w (batch_does self hash_order tables L events)) as Ho.
    unfold process_parsed_batch. cbv zeta. by destruct (run_dual _ _ w). }
  intros Hn. pose proof (run_dual_calm (kg_pool self) tables L _ _ w (batch_does self hash_order tables L events) Hn) as Hc.
  by destruct (dual_batch _ _ _ _).
Qed.

(** The databases stay equal while batches succeed. When the columns an insert
    leaves out default to 0, a batch that succeeds takes a legacy and a KG database with
    equal vault rows and positions to equal ones, holder counts included. *)
Theorem dual_success_keeps_agreement `{ShardHash} `{KgDefaults} {W} `{DualPools VaultTables KgTables W} `{EventCodecs}
  (self : VaultStateDualProjection) hash_order (tables : W -> VaultTables * KgTables) (events : list ParsedEvent)
  (w w' : W) (L : DualPoolLaws tables) (Hz : default_total_assets = 0) (Hkg : kg_pool self = true)
  (Hrun : process_parsed_batch self hash_order events w = (Ok tt, w')) (Ha : agree (tables w)) :
  agree (tables w').
Proof.
  pose proof (run_dual_outcome (kg_pool self) tables L _ _ w (batch_does self hash_order tables L events)) as Ho.
  unfold process_parsed_batch in Hrun. cbv zeta in Hrun. rewrite Hrun in Ho.
  destruct Ho as [[_ Ho]|[Ho _]]; [|done]. unfold dual_batch, legacy_batch, kg_batch in Ho. rewrite Hkg in Ho.
  apply res_bind_ok in Ho as (l2 & Hl & Ho), Ho as (k2 & Hk & [= <-]).
  apply res_bind_ok in Hl as (l1 & Hl & [= <-]), Hk as (k1 & Hk & [= <-]).
  apply refresh_agrees. eapply events_agree; [exact Hl|exact Hk|done|].
  by destruct (tables w).
Qed.

(** C24 (a replay after a half-committed batch drifts). The code commits to the KG
    database first and counts on the replay of a batch whose legacy commit failed to be
    idempotent there. It is for [market.events], but not for [market.vaults]: once
    the retry succeeds, a vault the databases agreed on has moved by twice the batch's
    amounts in the KG database and by once its amounts in the legacy one. *)
Theorem dual_replay_drifts `{ShardHash} `{KgDefaults} {W} `{DualPools VaultTables KgTables W} `{EventCodecs}
  (hash_order : gset (string * string) -> list (string * string)) (tables : W -> VaultTables * KgTables)
  (events : list ParsedEvent) (key : string * string) (row : VaultRow) (w w1 w2 : W) (e : ProjectionError)
  (L : DualPoolLaws tables) (Hz : default_total_assets = 0)
  (Hfirst : process_parsed_batch (with_kg_pool (new 0 1)) hash_order events w = (Err e, w1))
  (Hhalf : kg_batch (with_kg_pool (new 0 1)) hash_order events (snd (tables w)) = Ok (snd (tables w1)))
  (Hlost : fst (tables w1) = fst (tables w))
  (Hretry : process_parsed_batch (with_kg_pool (new 0 1)) hash_order events w1 = (Ok tt, w2))
  (Ha : agree (tables w)) (Hrow : vault (fst (tables w)) !! key = Some row) :
  market_events (snd (tables w2)) = market_events (snd (tables w1)) /\
  exists legacy kg,
    vault (fst (tables w2)) !! key = Some legacy /\ vaults (snd (tables w2)) !! key = Some kg /\
    total_deposits legacy = total_deposits row + (total (deposit_of key) events - total (redemption_of key) events) /\
    total_deposits kg = total_deposits row + 2 * (total (deposit_of key) events - total (redemption_of key) events) /\
    total_redemptions legacy = total_redemptions row + total (redemption_of key) events /\
    total_redemptions kg = total_redemptions row + 2 * total (redemption_of key) events.
Proof.
  set (self := with_kg_pool (new 0 1)) in *.
  pose proof (run_dual_outcome true tables L _ _ w1 (batch_does self hash_order tables L events)) as Ho.
  unfold process_parsed_batch in Hretry. cbv zeta in Hretry. cbn [kg_pool self with_kg_pool] in Hretry, Ho.
  rewrite Hretry in Ho. destruct Ho as [[_ Ho]|[Ho _]]; [|done].
  apply res_bind_ok in Ho as (l2 & Hl & Ho). apply res_bind_ok in Ho as (k2 & Hk & Ho).
  assert (E : tables w2 = (l2, k2)) by congruence. rewrite E. rewrite Hlost in Hl. cbn [fst snd].
  destruct (tables w) as [l k], (tables w1) as [l' k1]. cbn [fst snd] in *. clear Ho Hretry.
  split.
  { unfold kg_batch in Hhalf, Hk. cbn [kg_pool self with_kg_pool] in Hhalf, Hk.
    apply res_bind_ok in Hhalf as (k3 & Hhalf & [= <-]), Hk as (k4 & Hk & [= <-]). rewrite refresh_kg_events.
    eapply kg_events_again; [exact Hhalf|by rewrite refresh_kg_events|exact Hk]. }
  destruct (batches_agree self hash_order events l k k1 eq_refl Hz Ha Hhalf) as (m1 & Hm1 & Ha1).
  destruct (batches_agree self hash_order events m1 k1 k2 eq_refl Hz Ha1 Hk) as (m2 & Hm2 & Hv2 & _).
  destruct (batch_money hash_order key events l l2 row Hl Hrow) as (legacy & El & Dl & Rl).
  destruct (batch_money hash_order key events l m1 row Hm1 Hrow) as (row1 & E1 & D1 & R1).
  destruct (batch_money hash_order key events m1 m2 row1 Hm2 E1) as (row2 & E2 & D2 & R2).
  exists legacy, row2. cbn [fst snd] in Hv2. rewrite <- Hv2. split_and!; lia || done.
Qed.

(** ** A concrete pair of databases *)

#[global] Instance no_kg : EmptyTables KgTables :=
  {| vaults := ∅; kg_active_vault_position := ∅; market_events := ∅ |}.
#[local] Existing Instance sample_hash.
#[local] Existing Instance sample_codecs.
#[local] Existing Instance zero_defaults.

Abbreviation demo_pair := (demo (VaultTables * KgTables)).
Definition demo_kg : KgTables := {| vaults := vault demo_vaults; kg_active_vault_position := ∅; market_events := ∅ |}.
Definition demo_dual_begin (errors : list ProjectionError) : demo_pair :=
  demo_database (demo_vaults, demo_kg) errors.
Definition demo_dual_batch : demo_pair -> result unit ProjectionError * demo_pair :=
  process_parsed_batch (with_kg_pool (new 0 1)) elements demo_batch.

Lemma dual_vault_state_refines_witness :
  dual_outcome (dual_batch (with_kg_pool (new 0 1)) elements demo_batch) (demo_vaults, demo_kg)
    (demo_tables (snd (demo_dual_batch (demo_dual_begin [])))) (fst (demo_dual_batch (demo_dual_begin []))).
Proof.
  exact (proj1 (dual_vault_state_refines (with_kg_pool (new 0 1)) elements demo_tables demo_batch
    (demo_dual_begin []) demo_pair_laws)).
Defined.

Lemma dual_success_keeps_agreement_witness :
  agree (demo_tables (snd (demo_dual_batch (demo_dual_begin [])))).
Proof.
  eapply (dual_success_keeps_agreement (with_kg_pool (new 0 1)) elements demo_tables demo_batch (demo_dual_begin []));
    [exact demo_pair_laws|reflexivity|reflexivity|vm_compute; reflexivity|by split].
Defined.

(** The legacy commit is lost once; the retry succeeds. *)
Definition half_committed : demo_pair :=
  snd (demo_dual_batch (demo_dual_begin [ProjectionError.Database "connection reset"])).
Definition replayed : demo_pair := snd (demo_dual_batch half_committed).

Lemma dual_replay_drifts_witness :
  market_events (snd (demo_tables replayed)) = market_events (snd (demo_tables half_committed)) /\
  exists legacy kg,
    vault (fst (demo_tables replayed)) !! ("0x07", "1") = Some legacy /\
    vaults (snd (demo_tables replayed)) !! ("0x07", "1") = Some kg /\
    total_deposits legacy = 100 + (900 - 300) /\ total_deposits kg = 100 + 2 * (900 - 300) /\
    total_redemptions legacy = 0 + 300 /\ total_redemptions kg = 0 + 2 * 300.
Proof.
  eapply (dual_replay_drifts elements demo_tables demo_batch ("0x07", "1")
    {| total_shares := 0; total_deposits := 100; current_share_price := 0; market_cap := 0; holder_count := 1;
       total_redemptions := 0; total_assets := 0 |}
    (demo_dual_begin [ProjectionError.Database "connection reset"]) half_committed replayed (ProjectionError.Database (ProjectionError.to_string (ProjectionError.Database "connection reset"))));
    [exact demo_pair_laws|reflexivity|vm_compute; reflexivity|vm_compute; reflexivity|vm_compute; reflexivity
    |vm_compute; reflexivity|by split|exact (lookup_singleton_eq _ _)].
Defined.
End VaultStateDual.
