(* ===== verification/VaultHolders.v ===== *)
(** * The vault-holders index

    [crates/projections/src/projection/timescaledb/vault_holders_index.rs]: one
    row per live position, and the number of holders of a vault recounted from
    them for every vault a batch touched. The order in which a [HashSet] yields
    its elements is a parameter. *)

From S2P Require Import Prelude Events Errors Retry WorkerWorld DeadLetter PgTx PgCommon VaultRepo DemoWorld DemoDatabase.

Module VaultHoldersIndex.

Definition PROJECTION_NAME : string := "vault_holders_index".

Definition vault_key (term_id : string) (curve_id : BigDecimal) : string * string :=
  (term_id, curve_id_string curve_id).

(** The vault an event touches: [touched_vaults.insert(..)]. *)
Definition touches (event : ParsedEvent) : option (string * string) :=
  match event with
  | ParsedEvent.Deposited _ data => Some (vault_key (dep_term_id data) (dep_curve_id data))
  | ParsedEvent.Redeemed _ data => Some (vault_key (red_term_id data) (red_curve_id data))
  | _ => None
  end.

Definition touched_vaults (events : list ParsedEvent) : gset (string * string) :=
  list_to_set (omap touches events).

Section Handlers.
Context {W : Type} `{TxWorld VaultTables W} `{EventCodecs}.
Context (hash_order : gset (string * string) -> list (string * string)).

Abbreviation step := (@step VaultTables W).

Definition process_deposit_typed (data : DepositedRecord) : step :=
  exec (upsert_position_on_deposit (dep_term_id data) (curve_id_string (dep_curve_id data))
          (dep_receiver data) (dep_shares data) (dep_assets_after_fees data)).

Definition process_redeem_typed (data : RedeemedRecord) : step :=
  exec (decrement_position_on_redeem (red_term_id data) (curve_id_string (red_curve_id data))
          (red_sender data) (red_shares data) (red_assets data)) >>?
  exec (prune_zero_position (red_term_id data) (curve_id_string (red_curve_id data)) (red_sender data)).

Definition process_event (event : ParsedEvent) : step :=
  match event with
  | ParsedEvent.Deposited _ data => process_deposit_typed data
  | ParsedEvent.Redeemed _ data => process_redeem_typed data
  | _ => done_step
  end.

(** [for (term_id, curve_id) in &touched_vaults { refresh_holder_count(..).await? }] *)
Definition refresh_all (keys : list (string * string)) : step :=
  foldr (fun k rest => exec (refresh_holder_count (fst k) (snd k)) >>? rest) done_step keys.

Definition process_parsed_batch (events : list ParsedEvent) : W -> result unit ProjectionError * W :=
  run_tx (process_events PROJECTION_NAME process_event events >>?
          refresh_all (hash_order (touched_vaults events))).

(** ** What a batch does *)

Definition apply_event (event : ParsedEvent) (t : VaultTables) : VaultTables :=
  match event with
  | ParsedEvent.Deposited _ data =>
      upsert_position_on_deposit (dep_term_id data) (curve_id_string (dep_curve_id data))
        (dep_receiver data) (dep_shares data) (dep_assets_after_fees data) t
  | ParsedEvent.Redeemed _ data =>
      prune_zero_position (red_term_id data) (curve_id_string (red_curve_id data)) (red_sender data)
        (decrement_position_on_redeem (red_term_id data) (curve_id_string (red_curve_id data))
           (red_sender data) (red_shares data) (red_assets data) t)
  | _ => t
  end.

Definition refresh (keys : list (string * string)) (t : VaultTables) : VaultTables :=
  fold_left (fun t k => refresh_holder_count (fst k) (snd k) t) keys t.

Definition apply_batch (events : list ParsedEvent) (t : VaultTables) : VaultTables :=
  refresh (hash_order (touched_vaults events)) (fold_left (fun t p => apply_event p t) events t).

Context (tables : W -> VaultTables) (L : TxLaws tables).

Lemma refresh_implements keys : implements tables (refresh_all keys) (fun t => Ok (refresh keys t)).
Proof.
  induction keys as [|k keys IH]; cbn [refresh_all foldr]; [by apply does_done|].
  eapply does_ext; [|eapply does_seq; [by apply (implements_exec _ L)|apply IH]]. done.
Qed.

Lemma event_implements p : implements tables (process_event p) (fun t => Ok (apply_event p t)).
Proof.
  destruct p; cbn [process_event apply_event]; auto with tx_db; unfold process_redeem_typed.
  - by apply (implements_exec _ L).
  - eapply does_ext; [|eapply does_seq; by apply (implements_exec _ L)]. done.
Qed.

Lemma holders_batch_effect events :
  batch_implements tables (process_parsed_batch events) (fun t => Ok (apply_batch events t)).
Proof.
  apply run_tx_implements; [exact L|].
  eapply does_ext; [|eapply does_seq;
    [apply does_events_pure; [apply (tx_records _ L)|apply event_implements]|apply refresh_implements]].
  done.
Qed.
End Handlers.

(** ** Counting *)

(** The count of every vault's row is the number of its positions with shares. *)
Definition counts_exact (t : VaultTables) : Prop :=
  forall k row, vault t !! k = Some row -> holder_count row = count_holders (fst k) (snd k) t.

Lemma count_holders_ext k t t' :
  (forall a, active_vault_position t !! (k, a) = active_vault_position t' !! (k, a)) ->
  count_holders (fst k) (snd k) t = count_holders (fst k) (snd k) t'.
Proof.
  intros Hext. unfold count_holders. do 2 f_equal. apply map_eq. intros [k' a].
  rewrite !map_lookup_filter, <- surjective_pairing.
  destruct (decide (k' = k)) as [->|Hk]; [by rewrite Hext|].
  destruct (active_vault_position t !! (k', a)), (active_vault_position t' !! (k', a)); simpl; try done;
    repeat case_guard; naive_solver.
Qed.

Lemma refresh_lookup keys t k :
  active_vault_position (refresh keys t) = active_vault_position t /\
  vault (refresh keys t) !! k =
    (if decide (k ∈ keys)
     then (fun row => {| total_shares := total_shares row; total_deposits := total_deposits row;
             current_share_price := current_share_price row; market_cap := market_cap row;
             holder_count := count_holders (fst k) (snd k) t;
             total_redemptions := total_redemptions row; total_assets := total_assets row |})
          <$> vault t !! k
     else vault t !! k).
Proof.
  unfold refresh. revert t. induction keys as [|k0 keys IH]; intros t; cbn [fold_left]; [done|].
  destruct (IH (refresh_holder_count (fst k0) (snd k0) t)) as [-> ->]. split; [done|].
  assert (Hc : count_holders (fst k) (snd k) (refresh_holder_count (fst k0) (snd k0) t) =
               count_holders (fst k) (snd k) t) by (by apply count_holders_ext).
  rewrite Hc. clear Hc. unfold refresh_holder_count.
  cbn [vault with_vault]. rewrite <- surjective_pairing.
  destruct (decide (k0 = k)) as [->|Hne].
  - rewrite lookup_alter_eq. rewrite (decide_True (P := k ∈ k :: keys)) by left.
    case_decide; by destruct (vault t !! k).
  - rewrite lookup_alter_ne by done.
    assert (Hin : k ∈ k0 :: keys <-> k ∈ keys) by (rewrite elem_of_cons; naive_solver).
    by rewrite (decide_ext _ _ _ _ Hin).
Qed.

(** An event writes no vault row, and only positions of the vault it touches. *)
Lemma apply_event_frame p t :
  vault (apply_event p t) = vault t /\
  forall k a, touches p <> Some k ->
    active_vault_position (apply_event p t) !! (k, a) = active_vault_position t !! (k, a).
Proof.
  destruct p; cbn [apply_event touches]; try done; (split; [|intros k a Hk]).
  - done.
  - cbn. apply upsert_other. unfold vault_key in Hk. naive_solver.
  - unfold prune_zero_position. case_match; [|done]. by case_match.
  - unfold prune_zero_position, decrement_position_on_redeem, vault_key in *.
    assert (Hne : (red_term_id data, curve_id_string (red_curve_id data), red_sender data) <> (k, a))
      by naive_solver.
    repeat case_match; cbn; rewrite ?lookup_delete_ne, ?lookup_alter_ne by done; done.
Qed.

Lemma apply_events_frame events t :
  let t' := fold_left (fun t p => apply_event p t) events t in
  vault t' = vault t /\
  forall k a, k ∉ touched_vaults events ->
    active_vault_position t' !! (k, a) = active_vault_position t !! (k, a).
Proof.
  cbv zeta. revert t. induction events as [|p ps IH]; intros t; [done|]. cbn [fold_left].
  destruct (IH (apply_event p t)) as [Hv Ha]. destruct (apply_event_frame p t) as [Hv1 Ha1].
  split; [congruence|]. intros k a Hk. rewrite Ha, Ha1; [done| |].
  - intros Hp. apply Hk. unfold touched_vaults. cbn [omap list_omap]. rewrite Hp. set_solver.
  - intros Hin. apply Hk. unfold touched_vaults in *. cbn [omap list_omap].
    destruct (touches p); set_solver.
Qed.

Lemma apply_batch_exact hash_order events t :
  (forall s, hash_order s ≡ₚ elements s) -> counts_exact t -> counts_exact (apply_batch hash_order events t).
Proof.
  intros Hh Ht k row. unfold apply_batch.
  set (t1 := fold_left _ events t). destruct (apply_events_frame events t) as [Hv Ha]. fold t1 in Hv, Ha.
  set (keys := hash_order (touched_vaults events)).
  destruct (refresh_lookup keys t1 k) as [Hpos ->].
  rewrite (count_holders_ext k (refresh keys t1) t1) by (intros a; by rewrite Hpos).
  assert (Hin : k ∈ keys <-> k ∈ touched_vaults events).
  { unfold keys. rewrite (Hh (touched_vaults events)). apply elem_of_elements. }
  case_decide as Hd.
  - rewrite fmap_Some. by intros (r & _ & ->).
  - rewrite Hv. intros Hrow. rewrite (Ht k row Hrow). apply count_holders_ext.
    intros a. symmetry. apply Ha. by rewrite <- Hin.
Qed.
End VaultHoldersIndex.

(** ** Properties *)

(** Holder counts are exact. If every vault row's [holder_count] is the
    number of the vault's positions with shares, it still is after a batch,
    whatever the batch holds, whether it succeeds or fails, and in whatever order
    the touched vaults are refreshed. *)
Theorem holder_counts_exact {W} `{TxWorld VaultTables W} `{EventCodecs}
  (hash_order : gset (string * string) -> list (string * string)) (tables : W -> VaultTables)
  (events : list ParsedEvent) (w : W)
  (L : TxLaws tables) (Hh : forall s, hash_order s ≡ₚ elements s)
  (Hw : VaultHoldersIndex.counts_exact (tables w)) :
  VaultHoldersIndex.counts_exact
    (tables (snd (VaultHoldersIndex.process_parsed_batch hash_order events w))).
Proof.
  pose proof (VaultHoldersIndex.holders_batch_effect hash_order tables L events w) as Hb.
  destruct (VaultHoldersIndex.process_parsed_batch hash_order events w) as [r w'].
  cbn [snd]. destruct Hb as [[Hok|[-> _]] _]; [|done]. injection Hok as <-.
  by apply VaultHoldersIndex.apply_batch_exact.
Qed.

(** One vault with two holders, one of whom leaves. *)
Definition holders_tables : VaultTables := {|
  vault := {[("0x07", "1") := {| total_shares := 0; total_deposits := 0; current_share_price := 0;
     market_cap := 0; holder_count := 1; total_redemptions := 0; total_assets := 0 |}]};
  share_price_history := ∅;
  active_vault_position :=
    {[("0x07", "1", "0xs") := {| h_shares := 5; h_total_deposits := 5; h_total_redemptions := 0 |}]} |}.

Definition holders_batch : list ParsedEvent :=
  [ParsedEvent.Deposited (demo_metadata 1 "Deposited")
     {| dep_sender := "0xs"; dep_receiver := "0xr"; dep_term_id := "0x07"; dep_curve_id := 1;
        dep_assets := 10; dep_assets_after_fees := 9; dep_shares := 9; dep_total_shares := 14;
        dep_vault_type := 0 |};
   ParsedEvent.Redeemed (demo_metadata 2 "Redeemed")
     {| red_sender := "0xs"; red_receiver := "0xs"; red_term_id := "0x07"; red_curve_id := 1;
        red_shares := 5; red_total_shares := 9; red_assets := 5; red_fees := 0; red_vault_type := 0 |}].

#[local] Existing Instance sample_codecs.

#[local] Instance holders_empty : EmptyTables VaultTables :=
  {| vault := ∅; share_price_history := ∅; active_vault_position := ∅ |}.

Example holders_batch_runs :
  let '(r, w) := VaultHoldersIndex.process_parsed_batch elements holders_batch
                   (demo_database holders_tables []) in
  r = Ok tt /\ map fst (map_to_list (active_vault_position (demo_tables w))) = [("0x07", "1", "0xr")] /\
  option_map holder_count (vault (demo_tables w) !! ("0x07", "1")) = Some 1.
Proof. vm_compute. done. Qed.

Lemma holders_tables_exact : VaultHoldersIndex.counts_exact holders_tables.
Proof.
  intros k row Hk. unfold holders_tables in Hk. cbn [vault] in Hk.
  apply lookup_singleton_Some in Hk as [<- <-]. vm_compute. done.
Qed.

Lemma holder_counts_exact_witness :
  VaultHoldersIndex.counts_exact
    (demo_tables (snd (VaultHoldersIndex.process_parsed_batch elements holders_batch
       (demo_database holders_tables [])))).
Proof.
  exact (holder_counts_exact elements demo_tables holders_batch (demo_database holders_tables [])
    demo_tx_laws (fun s => reflexivity _) holders_tables_exact).
Defined.
