(* ===== verification/VaultHoldersDual.v ===== *)
(** * The dual-write vault-holders index

    [crates/projections/src/projection/dual/vault_holders_index.rs]: the positions
    of every deposit and redemption are written to the KG database and to the
    legacy one, and the holder counts of the touched vaults are recounted on both
    sides, each from its own positions. *)

From S2P Require Import Prelude Events Errors Retry WorkerWorld DeadLetter PgTx DualTx PgCommon VaultRepo KgMarket VaultHolders DemoWorld DemoDatabase.

Module VaultHoldersIndexDual.
Import VaultHolders.VaultHoldersIndex(touched_vaults, counts_exact, apply_batch, refresh).

Definition PROJECTION_NAME : string := "vault_holders_index:dual".

Section Handlers.
Context `{KgDefaults} {W : Type} `{DualPools VaultTables KgTables W} `{EventCodecs}.
Context (kg_pool : bool).   (* [self.kg_pool.is_some()] *)
Context (hash_order : gset (string * string) -> list (string * string)).

Abbreviation step := (@dual_step VaultTables KgTables W).
Abbreviation on_kg := (exec_kg kg_pool).

Definition process_deposit_typed (data : DepositedRecord) : step :=
  let curve_id := curve_id_string (dep_curve_id data) in
  on_kg (upsert_kg_position_on_deposit (dep_term_id data) curve_id (dep_receiver data)
           (dep_shares data) (dep_assets_after_fees data)) >>?
  exec_legacy (upsert_position_on_deposit (dep_term_id data) curve_id (dep_receiver data)
           (dep_shares data) (dep_assets_after_fees data)).

Definition process_redeem_typed (data : RedeemedRecord) : step :=
  let curve_id := curve_id_string (red_curve_id data) in
  on_kg (decrement_kg_position_on_redeem (red_term_id data) curve_id (red_sender data)
           (red_shares data) (red_assets data)) >>?
  on_kg (prune_zero_kg_positions (red_term_id data) curve_id (red_sender data)) >>?
  exec_legacy (decrement_position_on_redeem (red_term_id data) curve_id (red_sender data)
           (red_shares data) (red_assets data)) >>?
  exec_legacy (prune_zero_position (red_term_id data) curve_id (red_sender data)).

Definition process_event (event : ParsedEvent) : step :=
  match event with
  | ParsedEvent.Deposited _ data => process_deposit_typed data
  | ParsedEvent.Redeemed _ data => process_redeem_typed data
  | _ => done_step
  end.

Definition process_parsed_batch (events : list ParsedEvent) : W -> result unit ProjectionError * W :=
  run_dual kg_pool
    (process_events PROJECTION_NAME process_event events >>?
     each (fun k => on_kg (refresh_kg_holder_count (fst k) (snd k)) >>?
                    exec_legacy (refresh_holder_count (fst k) (snd k)))
       (hash_order (touched_vaults events))).

(** ** What a batch does *)

Definition kg_event (event : ParsedEvent) (t : KgTables) : KgTables :=
  match event with
  | ParsedEvent.Deposited _ data =>
      upsert_kg_position_on_deposit (dep_term_id data) (curve_id_string (dep_curve_id data))
        (dep_receiver data) (dep_shares data) (dep_assets_after_fees data) t
  | ParsedEvent.Redeemed _ data =>
      prune_zero_kg_positions (red_term_id data) (curve_id_string (red_curve_id data)) (red_sender data)
        (decrement_kg_position_on_redeem (red_term_id data) (curve_id_string (red_curve_id data))
           (red_sender data) (red_shares data) (red_assets data) t)
  | _ => t
  end.

Definition refresh_kg (keys : list (string * string)) (t : KgTables) : KgTables :=
  fold_left (fun t k => refresh_kg_holder_count (fst k) (snd k) t) keys t.

Definition kg_batch (events : list ParsedEvent) (t : KgTables) : KgTables :=
  refresh_kg (hash_order (touched_vaults events)) (fold_left (fun t p => kg_event p t) events t).

(** The two sides of a batch are independent. *)
Definition dual_batch (events : list ParsedEvent) (t : VaultTables * KgTables) : VaultTables * KgTables :=
  (apply_batch hash_order events (fst t), kg_effect kg_pool (kg_batch events) (snd t)).

Section Spec.
Context (tables : W -> VaultTables * KgTables) (L : DualPoolLaws tables).

Abbreviation both f g := (fun t => (f (fst t), kg_effect kg_pool g (snd t))).

Lemma holders_event_does p :
  dual_does kg_pool tables (process_event p) (fun t => Ok (both (VaultHoldersIndex.apply_event p) (kg_event p) t)).
Proof.
  unfold process_event, dual_does, process_deposit_typed, process_redeem_typed.
  destruct p; cbn [VaultHoldersIndex.apply_event kg_event].
  all: (eapply does_ext; [|repeat first [apply does_seq|by apply dual_does_kg|by apply dual_does_legacy|apply does_done]]);
    intros [l k]; unfold kg_effect; cbn; by destruct kg_pool.
Qed.

(** Independent folds. *)
Lemma fold_both {A} (f : A -> VaultTables -> VaultTables) (g : A -> KgTables -> KgTables) xs t :
  fold_left (fun t x => both (f x) (g x) t) xs t =
  both (fun l => fold_left (fun l x => f x l) xs l) (fun k => fold_left (fun k x => g x k) xs k) t.
Proof.
  revert t. unfold kg_effect. induction xs as [|x xs IH]; intros [l k]; cbn [fold_left]; [by destruct kg_pool|].
  rewrite IH. by destruct kg_pool.
Qed.

Lemma holders_batch_does events :
  dual_does kg_pool tables
    (process_events PROJECTION_NAME process_event events >>?
     each (fun k => on_kg (refresh_kg_holder_count (fst k) (snd k)) >>?
                    exec_legacy (refresh_holder_count (fst k) (snd k)))
       (hash_order (touched_vaults events)))
    (fun t => Ok (dual_batch events t)).
Proof.
  eapply does_ext; [|eapply does_seq;
    [apply does_events_pure; [apply (dual_records _ L)|apply holders_event_does]
    |apply (does_each _ _ _ _ (fun k => both (refresh_holder_count (fst k) (snd k)) (refresh_kg_holder_count (fst k) (snd k))))]].
  - intros [l k]. cbn [res_bind]. rewrite fold_both. f_equal.
    etrans; [exact (fold_both (fun k => refresh_holder_count (fst k) (snd k))
      (fun k => refresh_kg_holder_count (fst k) (snd k)) _ _)|].
    unfold dual_batch, kg_effect, kg_batch. by destruct kg_pool.
  - intros k. eapply does_ext; [|eapply does_seq; [by apply dual_does_kg|by apply dual_does_legacy]]. done.
Qed.
End Spec.

(** ** The KG side counts as the legacy side does *)

Lemma mirror_event p t : default_total_redemptions = 0 ->
  mirror (kg_event p t) = VaultHoldersIndex.apply_event p (mirror t).
Proof.
  intros Hz. destruct p; cbn [kg_event VaultHoldersIndex.apply_event]; try done.
  - unfold mirror, upsert_kg_position_on_deposit, upsert_position_on_deposit, with_positions, with_holders.
    cbn. by rewrite Hz.
  - unfold prune_zero_kg_positions, prune_zero_position. cbn.
    destruct (alter _ _ _ !! _); [|done]. by destruct (h_shares _ <=? 0).
Qed.

Lemma mirror_batch events t : default_total_redemptions = 0 ->
  mirror (kg_batch events t) = apply_batch hash_order events (mirror t).
Proof.
  intros Hz. unfold kg_batch, apply_batch.
  assert (He : forall ps t, mirror (fold_left (fun t p => kg_event p t) ps t) =
    fold_left (fun t p => VaultHoldersIndex.apply_event p t) ps (mirror t)).
  { intros ps. induction ps as [|p ps IH]; intros u; [done|]. cbn [fold_left]. by rewrite IH, mirror_event. }
  rewrite <- He. generalize (fold_left (fun t p => kg_event p t) events t). generalize (hash_order (touched_vaults events)).
  intros keys. induction keys as [|k keys IH]; intros u; [done|]. cbn [refresh_kg refresh fold_left].
  unfold refresh_kg, refresh in IH. by rewrite IH.
Qed.
End Handlers.
End VaultHoldersIndexDual.

(** ** Properties *)

(** The count of every KG vault is the number of its KG positions with shares. *)
Definition both_exact (t : VaultTables * KgTables) : Prop :=
  VaultHoldersIndex.counts_exact (fst t) /\ VaultHoldersIndex.counts_exact (mirror (snd t)).

(** C27 (holder counts are exact on both sides, always). If every vault row of the
    legacy and of the KG database counts the vault's positions with shares on its own
    side, they still do after a batch, whatever call fails and however far the two
    commits got: the counts survive a batch that reached only the KG database. *)
Theorem dual_holder_counts_exact `{KgDefaults} {W} `{DualPools VaultTables KgTables W} `{EventCodecs}
  (kg_pool : bool) (hash_order : gset (string * string) -> list (string * string))
  (tables : W -> VaultTables * KgTables) (events : list ParsedEvent) (w : W)
  (L : DualPoolLaws tables) (Hz : default_total_redemptions = 0) (Hh : forall s, hash_order s ≡ₚ elements s)
  (Hw : both_exact (tables w)) :
  both_exact (tables (snd (VaultHoldersIndexDual.process_parsed_batch kg_pool hash_order events w))).
Proof.
  pose proof (run_dual_outcome kg_pool tables L _ _ w
    (VaultHoldersIndexDual.holders_batch_does kg_pool hash_order tables L events)) as Ho.
  unfold VaultHoldersIndexDual.process_parsed_batch. destruct (run_dual _ _ w) as [r w']. cbn [snd].
  assert (Hd : both_exact (VaultHoldersIndexDual.dual_batch kg_pool hash_order events (tables w))).
  { destruct Hw as [Hl Hk]. split; cbn; [by apply VaultHoldersIndex.apply_batch_exact|].
    unfold kg_effect. destruct kg_pool; [|done]. rewrite VaultHoldersIndexDual.mirror_batch by done.
    by apply VaultHoldersIndex.apply_batch_exact. }
  destruct Hw as [Hl Hk], Hd as [Hdl Hdk].
  destruct Ho as [[_ [= <-]]|[_ [->|(t1 & [= <-] & E2 & E1)]]]; [done|done|].
  split; [by destruct E1 as [->| ->]|by rewrite E2].
Qed.

(** ** A concrete pair of databases *)

#[local] Existing Instance sample_codecs.
#[local] Existing Instance zero_defaults.
#[local] Instance no_legacy_holders : EmptyTables VaultTables :=
  {| vault := ∅; share_price_history := ∅; active_vault_position := ∅ |}.
#[local] Instance no_kg_holders : EmptyTables KgTables :=
  {| vaults := ∅; kg_active_vault_position := ∅; market_events := ∅ |}.

Definition holders_pair : VaultTables * KgTables :=
  (holders_tables,
   {| vaults := vault holders_tables; kg_active_vault_position := active_vault_position holders_tables;
      market_events := ∅ |}).

(** The legacy commit is lost: the KG positions have moved, the legacy ones have not. *)
Example half_committed_holders :
  let '(r, w) := VaultHoldersIndexDual.process_parsed_batch true elements holders_batch
                   (demo_database holders_pair [ProjectionError.Database "reset"]) in
  is_ok r = false /\
  map fst (map_to_list (active_vault_position (fst (demo_tables w)))) = [("0x07", "1", "0xs")] /\
  map fst (map_to_list (kg_active_vault_position (snd (demo_tables w)))) = [("0x07", "1", "0xr")].
Proof. vm_compute. done. Qed.

Lemma dual_holder_counts_exact_witness :
  both_exact (demo_tables (snd (VaultHoldersIndexDual.process_parsed_batch true elements holders_batch
    (demo_database holders_pair [ProjectionError.Database "reset"])))).
Proof.
  exact (dual_holder_counts_exact true elements demo_tables holders_batch
    (demo_database holders_pair [ProjectionError.Database "reset"]) demo_pair_laws eq_refl
    (fun s => reflexivity _) (conj holders_tables_exact holders_tables_exact)).
Defined.
