(* ===== verification/KgGraph.v ===== *)
(** * The graph tables of the knowledge graph

    The tables [kg.accounts], [kg.nodes], [kg.predicates], [kg.triples],
    [kg.events] and [kg.node_contexts] that the projections of
    [crates/projections/src/projection/dual/] write. Their schema is not in the
    repository: keys and constants are those of the statements. Columns every
    statement writes with the same constant and none reads ([status],
    [visibility], the attempt counters and their states) are left out, and so
    are the wall-clock [created_at] of [kg.events]. *)

From S2P Require Import Prelude Events PgCommon.

Record KgNode := {
  kn_created_by : string;
  kn_raw_type : string;
  kn_classification_type : string;
  kn_data : string;
  kn_data_hex : string;
  kn_created_at : DateTime
}.

Record KgPredicate := { kp_slug : string; kp_label : string }.

Record KgTriple := {
  kt_created_by : string;
  kt_subject_id : string;
  kt_predicate_id : string;
  kt_object_id : string;
  kt_sibling_triple_id : option string;
  kt_is_counter_triple : bool;
  kt_provenance : Value;
  kt_created_at : DateTime
}.

Record KgEvent := {
  ke_actor_id : string;
  ke_entity_kind : string;
  ke_entity_id : string;
  ke_event_type : string;
  ke_classification_type : string;
  ke_block_number : Z;
  ke_tx_hash : string;
  ke_payload : Value
}.

Record NodeContext := {
  nc_event_sequence : Z;
  nc_block_number : Z;
  nc_block_timestamp : DateTime;
  nc_block_hash : string;
  nc_registrant : string;
  nc_uri_hex : string;
  nc_uri_text : option string
}.

(** Events are keyed by [(event_time, id)] and contexts by
    [(node_id, transaction_hash, log_index, ordinal)]. *)
Record KgGraph := {
  accounts : gmap string unit;
  nodes : gmap string KgNode;
  predicates : gmap string KgPredicate;
  triples : gmap string KgTriple;
  events : gmap (DateTime * string) KgEvent;
  node_contexts : gmap (string * string * Z * Z) NodeContext
}.

Definition on_accounts (f : gmap string unit -> gmap string unit) (g : KgGraph) : KgGraph := {|
  accounts := f (accounts g); nodes := nodes g; predicates := predicates g; triples := triples g;
  events := events g; node_contexts := node_contexts g |}.
Definition on_nodes (f : gmap string KgNode -> gmap string KgNode) (g : KgGraph) : KgGraph := {|
  accounts := accounts g; nodes := f (nodes g); predicates := predicates g; triples := triples g;
  events := events g; node_contexts := node_contexts g |}.
Definition on_predicates (f : gmap string KgPredicate -> gmap string KgPredicate) (g : KgGraph) : KgGraph := {|
  accounts := accounts g; nodes := nodes g; predicates := f (predicates g); triples := triples g;
  events := events g; node_contexts := node_contexts g |}.
Definition on_triples (f : gmap string KgTriple -> gmap string KgTriple) (g : KgGraph) : KgGraph := {|
  accounts := accounts g; nodes := nodes g; predicates := predicates g; triples := f (triples g);
  events := events g; node_contexts := node_contexts g |}.
Definition on_events (f : gmap (DateTime * string) KgEvent -> gmap (DateTime * string) KgEvent)
    (g : KgGraph) : KgGraph := {|
  accounts := accounts g; nodes := nodes g; predicates := predicates g; triples := triples g;
  events := f (events g); node_contexts := node_contexts g |}.
Definition on_contexts (f : gmap (string * string * Z * Z) NodeContext -> gmap (string * string * Z * Z) NodeContext)
    (g : KgGraph) : KgGraph := {|
  accounts := accounts g; nodes := nodes g; predicates := predicates g; triples := triples g;
  events := events g; node_contexts := f (node_contexts g) |}.

(** ** Rows that nothing overwrites *)

(** Rows for each table, to be inserted where their keys are free. *)
Record GraphRows := {
  gr_accounts : list (string * unit);
  gr_nodes : list (string * KgNode);
  gr_predicates : list (string * KgPredicate);
  gr_triples : list (string * KgTriple);
  gr_events : list (DateTime * string * KgEvent);
  gr_contexts : list (string * string * Z * Z * NodeContext)
}.

Definition no_rows : GraphRows := {|
  gr_accounts := []; gr_nodes := []; gr_predicates := []; gr_triples := []; gr_events := []; gr_contexts := [] |}.
Definition app_rows (a b : GraphRows) : GraphRows := {|
  gr_accounts := gr_accounts a ++ gr_accounts b; gr_nodes := gr_nodes a ++ gr_nodes b;
  gr_predicates := gr_predicates a ++ gr_predicates b; gr_triples := gr_triples a ++ gr_triples b;
  gr_events := gr_events a ++ gr_events b; gr_contexts := gr_contexts a ++ gr_contexts b |}.

Definition insert_rows (r : GraphRows) (g : KgGraph) : KgGraph := {|
  accounts := insert_all (gr_accounts r) (accounts g); nodes := insert_all (gr_nodes r) (nodes g);
  predicates := insert_all (gr_predicates r) (predicates g); triples := insert_all (gr_triples r) (triples g);
  events := insert_all (gr_events r) (events g); node_contexts := insert_all (gr_contexts r) (node_contexts g) |}.

Lemma insert_no_rows g : insert_rows no_rows g = g.
Proof. by destruct g. Qed.

Lemma insert_app_rows a b g : insert_rows (app_rows a b) g = insert_rows b (insert_rows a g).
Proof. unfold insert_rows, insert_all. cbn. by rewrite !fold_left_app. Qed.

(** Inserting the rows again changes nothing. *)
Lemma insert_rows_again r g : insert_rows r (insert_rows r g) = insert_rows r g.
Proof. unfold insert_rows. cbn. by rewrite !insert_all_union, !union_again. Qed.

(** Every creator has an account, and every triple a predicate to join with. *)
Record linked (g : KgGraph) : Prop := {
  node_creator k n : nodes g !! k = Some n -> is_Some (accounts g !! kn_created_by n);
  triple_creator k t : triples g !! k = Some t -> is_Some (accounts g !! kt_created_by t);
  triple_predicate k t : triples g !! k = Some t -> is_Some (predicates g !! kt_predicate_id t)
}.

(** Rows that bring what they refer to. *)
Record closed (r : GraphRows) : Prop := {
  closed_node e : e ∈ gr_nodes r -> (kn_created_by (snd e), ()) ∈ gr_accounts r;
  closed_triple e : e ∈ gr_triples r -> (kt_created_by (snd e), ()) ∈ gr_accounts r;
  closed_predicate e : e ∈ gr_triples r -> exists p, (kt_predicate_id (snd e), p) ∈ gr_predicates r
}.

Lemma closed_app a b : closed a -> closed b -> closed (app_rows a b).
Proof.
  intros [A1 A2 A3] [B1 B2 B3]. split; cbn; intros e He; apply elem_of_app in He as [He|He].
  1,3: apply elem_of_app; left; by auto.
  1,2: apply elem_of_app; right; by auto.
  - destruct (A3 e He) as [p ?]. exists p. apply elem_of_app. by left.
  - destruct (B3 e He) as [p ?]. exists p. apply elem_of_app. by right.
Qed.

Lemma insert_linked r g : closed r -> linked g -> linked (insert_rows r g).
Proof.
  intros [C1 C2 C3] [L1 L2 L3].
  split; cbn; intros k n Hn; apply insert_all_from in Hn as [Hn|Hn].
  - destruct (L1 k n Hn) as [u Hu]. eexists. by apply insert_all_keeps.
  - eapply insert_all_has. exact (C1 _ Hn).
  - destruct (L2 k n Hn) as [u Hu]. eexists. by apply insert_all_keeps.
  - eapply insert_all_has. exact (C2 _ Hn).
  - destruct (L3 k n Hn) as [u Hu]. eexists. by apply insert_all_keeps.
  - destruct (C3 _ Hn) as [p Hp]. eapply insert_all_has. exact Hp.
Qed.
