(* ===== verification/CoreEntities.v ===== *)
(** * The core-entities projection

    [crates/projections/src/projection/dual/core_entities.rs]: atoms and triples
    go to SurrealDB, to the [term] table and to the knowledge graph, in this
    order, each store with a write of its own. A batch is first turned into the
    SurrealDB operations and the rows to insert, without touching anything. *)

From stdpp Require Import pretty.
From S2P Require Import Prelude Text Events Errors Retry WorkerWorld Traits SurrealQl SurrealProjections DeadLetter PgTx PgCommon KgGraph DemoWorld DemoDatabase DualTx.

Definition PROJECTION_NAME : string := "core_entities".

(** The [term] table, keyed by [term_id]. *)
Record TermRow := {
  tm_term_type : string;
  tm_creator : string;
  tm_atom_data : option string;
  tm_atom_data_hex : option string;
  tm_subject_id : option string;
  tm_predicate_id : option string;
  tm_object_id : option string;
  tm_block_number : Z;
  tm_block_timestamp : DateTime;
  tm_transaction_hash : string
}.
Abbreviation TermTable := (gmap string TermRow).

Inductive PgTermRow :=
  | Atom (metadata : EventMetadata) (data : AtomCreatedRecord)
  | Triple (metadata : EventMetadata) (data : TripleCreatedRecord)
  | AtomRaw (raw : StoredEvent) (creator term_id atom_data_hex : string)
  | TripleRaw (raw : StoredEvent) (creator term_id subject_id predicate_id object_id : string).

(** The two databases beside the SurrealDB sink, and the gauge of the window in
    which SurrealDB is ahead. *)
Class CoreWorld (W : Type) := {
  core_dead_letter :: DeadLetterWorld W;
  term_pool : Pool TermTable W;
  graph_pool : Pool KgGraph W;
  set_dual_write_in_flight : bool -> W -> W
}.

Section CoreEntities.
Context `{Encodings}.

(** ** Planning *)

Definition build_atom_ops_raw (creator term_id atom_data_hex : string) (ts : Value) : list SinkOperation :=
  let display_data := default atom_data_hex (decode_atom_data_hex atom_data_hex) in
  [SinkOperation.UpsertNode (RecordId.new "account" creator)
     (fields_from [("address", VString creator); ("onchain", Bool true); ("updatedAt", ts)]);
   SinkOperation.UpsertNode (RecordId.new "vault" term_id)
     (fields_from [("createdBy", VString creator); ("onchain", Bool true); ("updatedAt", ts)]);
   SinkOperation.UpsertNode (RecordId.new "atom" term_id)
     (fields_from [("data", VString display_data); ("dataHex", VString atom_data_hex);
        ("createdBy", VString creator); ("type", VString "default"); ("onchain", Bool true);
        ("updatedAt", ts); ("vault", VString term_id)])].

Definition build_atom_ops_typed (metadata : EventMetadata) (data : AtomCreatedRecord) : list SinkOperation :=
  build_atom_ops_raw (ac_creator data) (ac_term_id data) (ac_atom_data data)
    (datetime_value (EventMetadata.block_timestamp metadata)).

Definition build_triple_ops_typed (metadata : EventMetadata) (data : TripleCreatedRecord) : list SinkOperation :=
  build_raw_triple_ops (tc_creator data) (tc_term_id data) (tc_subject_id data) (tc_predicate_id data)
    (tc_object_id data) (datetime_value (EventMetadata.block_timestamp metadata)).

(** What one event adds to the two buffers. *)
Definition plan_event (event : ParsedEvent) : result (list SinkOperation * list PgTermRow) ProjectionError :=
  match event with
  | ParsedEvent.AtomCreated metadata data => Ok (build_atom_ops_typed metadata data, [Atom metadata data])
  | ParsedEvent.TripleCreated metadata data => Ok (build_triple_ops_typed metadata data, [Triple metadata data])
  | ParsedEvent.Unknown raw =>
      let data := StoredEvent.event_data raw in
      let ts := datetime_value (StoredEvent.block_timestamp raw) in
      if String.eqb (StoredEvent.event_type raw) "AtomCreated" then
        let? creator := get_str data "creator" in
        let? term_id := get_str data "term_id" in
        let? atom_data_hex := get_str data "atom_data" in
        Ok (build_atom_ops_raw creator term_id atom_data_hex ts, [AtomRaw raw creator term_id atom_data_hex])
      else if String.eqb (StoredEvent.event_type raw) "TripleCreated" then
        let? creator := get_str data "creator" in
        let? term_id := get_str data "term_id" in
        let? subject_id := get_str data "subject_id" in
        let? predicate_id := get_str data "predicate_id" in
        let? object_id := get_str data "object_id" in
        Ok (build_raw_triple_ops creator term_id subject_id predicate_id object_id ts,
            [TripleRaw raw creator term_id subject_id predicate_id object_id])
      else Ok ([], [])
  | _ => Ok ([], [])
  end.

(** The loop, from index [idx]; an error carries the index of its event. *)
Fixpoint build_write_plan_from (idx : nat) (events : list ParsedEvent)
    (surreal_ops : list SinkOperation) (pg_plan : list PgTermRow)
    : result (list SinkOperation * list PgTermRow) (ProjectionError * nat) :=
  match events with
  | [] => Ok (surreal_ops, pg_plan)
  | event :: events =>
      match plan_event event with
      | Err err => Err (err, idx)
      | Ok (ops, rows) => build_write_plan_from (S idx) events (surreal_ops ++ ops) (pg_plan ++ rows)
      end
  end.
Definition build_write_plan (events : list ParsedEvent) := build_write_plan_from 0 events [] [].

(** ** Statements on [term] *)

Definition insert_atom_term_pg_raw (term_id creator atom_data_hex : string) (block_number : Z)
    (block_timestamp : DateTime) (transaction_hash : string) (t : TermTable) : TermTable :=
  let decoded := decode_atom_data_hex atom_data_hex in
  insert_new term_id
    {| tm_term_type := "atom"; tm_creator := creator; tm_atom_data := decoded;
       tm_atom_data_hex := Some atom_data_hex; tm_subject_id := None; tm_predicate_id := None;
       tm_object_id := None; tm_block_number := block_number; tm_block_timestamp := block_timestamp;
       tm_transaction_hash := transaction_hash |} t.

Definition insert_atom_term_pg (metadata : EventMetadata) (data : AtomCreatedRecord) : TermTable -> TermTable :=
  insert_atom_term_pg_raw (ac_term_id data) (ac_creator data) (ac_atom_data data)
    (EventMetadata.block_number metadata) (EventMetadata.block_timestamp metadata)
    (EventMetadata.transaction_hash metadata).

Definition insert_triple_term_pg_raw (term_id creator subject_id predicate_id object_id : string)
    (block_number : Z) (block_timestamp : DateTime) (transaction_hash : string) (t : TermTable) : TermTable :=
  insert_new term_id
    {| tm_term_type := "triple"; tm_creator := creator; tm_atom_data := None; tm_atom_data_hex := None;
       tm_subject_id := Some subject_id; tm_predicate_id := Some predicate_id; tm_object_id := Some object_id;
       tm_block_number := block_number; tm_block_timestamp := block_timestamp;
       tm_transaction_hash := transaction_hash |} t.

Definition insert_triple_term_pg (metadata : EventMetadata) (data : TripleCreatedRecord) : TermTable -> TermTable :=
  insert_triple_term_pg_raw (tc_term_id data) (tc_creator data) (tc_subject_id data) (tc_predicate_id data)
    (tc_object_id data) (EventMetadata.block_number metadata) (EventMetadata.block_timestamp metadata)
    (EventMetadata.transaction_hash metadata).

(** ** Statements on the graph *)

Definition upsert_kg_account (account_id : string) : KgGraph -> KgGraph :=
  on_accounts (insert_new account_id ()).

Definition insert_kg_node_atom (term_id creator atom_data atom_data_hex : string)
    (block_timestamp : DateTime) : KgGraph -> KgGraph :=
  on_nodes (insert_new term_id
    {| kn_created_by := creator; kn_raw_type := "string"; kn_classification_type := "Unknown";
       kn_data := atom_data; kn_data_hex := atom_data_hex; kn_created_at := block_timestamp |}).

(** [insert_kg_event_atom_created] and [insert_kg_event_triple_created] differ in
    [entity_kind] alone. *)
Definition created_event (entity_kind creator entity_id : string) (block_number : Z) (tx_hash : string) : KgEvent := {|
  ke_actor_id := creator; ke_entity_kind := entity_kind; ke_entity_id := entity_id; ke_event_type := "created";
  ke_classification_type := "Unknown"; ke_block_number := block_number; ke_tx_hash := tx_hash;
  ke_payload := Object [] |}.
Definition chain_event_id (tx_hash : string) (log_index : Z) : string := tx_hash +:+ ":" +:+ pretty log_index.

Definition insert_kg_event_atom_created (creator term_id : string) (block_number : Z) (tx_hash : string)
    (log_index : Z) (block_timestamp : DateTime) : KgGraph -> KgGraph :=
  let event_id := chain_event_id tx_hash log_index in
  on_events (insert_new (block_timestamp, event_id) (created_event "node" creator term_id block_number tx_hash)).

Definition upsert_kg_predicate_lazy (predicate_id : string) : KgGraph -> KgGraph :=
  on_predicates (insert_new predicate_id {| kp_slug := predicate_id; kp_label := predicate_id |}).

Definition insert_kg_triple (triple_id creator subject_id predicate_id object_id : string) (is_counter : bool)
    (sibling_triple_id : option string) (block_number : Z) (tx_hash : string) (block_timestamp : DateTime)
    : KgGraph -> KgGraph :=
  let provenance := Object [("block_number", Number (pretty block_number)); ("tx_hash", VString tx_hash)] in
  on_triples (insert_new triple_id
    {| kt_created_by := creator; kt_subject_id := subject_id; kt_predicate_id := predicate_id;
       kt_object_id := object_id; kt_sibling_triple_id := sibling_triple_id;
       kt_is_counter_triple := is_counter; kt_provenance := provenance; kt_created_at := block_timestamp |}).

Definition insert_kg_event_triple_created (creator triple_id : string) (block_number : Z) (tx_hash : string)
    (log_index : Z) (block_timestamp : DateTime) : KgGraph -> KgGraph :=
  let event_id := chain_event_id tx_hash log_index in
  on_events (insert_new (block_timestamp, event_id) (created_event "triple" creator triple_id block_number tx_hash)).

(** ** The writes *)

Context {W : Type} `{CoreWorld W} `{EventCodecs}.
Existing Instance term_pool.
Existing Instance graph_pool.

Abbreviation term_step := (@step TermTable W).
Abbreviation graph_step := (@step KgGraph W).

Definition apply_atom_row (creator term_id atom_data atom_data_hex : string) (block_number : Z)
    (tx_hash : string) (log_index : Z) (block_timestamp : DateTime) : graph_step :=
  exec (upsert_kg_account creator) >>?
  exec (insert_kg_node_atom term_id creator atom_data atom_data_hex block_timestamp) >>?
  exec (insert_kg_event_atom_created creator term_id block_number tx_hash log_index block_timestamp).

Definition apply_triple_row (creator triple_id subject_id predicate_id object_id : string) (block_number : Z)
    (tx_hash : string) (log_index : Z) (block_timestamp : DateTime) : graph_step :=
  exec (upsert_kg_account creator) >>?
  exec (upsert_kg_predicate_lazy predicate_id) >>?
  exec (insert_kg_triple triple_id creator subject_id predicate_id object_id false None
          block_number tx_hash block_timestamp) >>?
  exec (insert_kg_event_triple_created creator triple_id block_number tx_hash log_index block_timestamp).

Record CoreEntitiesProjection := { surreal_sink : ProjectionSink W; kg_pool : bool }.

Definition new (surreal_sink : ProjectionSink W) : CoreEntitiesProjection :=
  {| surreal_sink := surreal_sink; kg_pool := false |}.
Definition with_kg_pool (self : CoreEntitiesProjection) : CoreEntitiesProjection :=
  {| surreal_sink := surreal_sink self; kg_pool := true |}.

Definition insert_term_row (row : PgTermRow) : term_step :=
  match row with
  | Atom metadata data => exec (insert_atom_term_pg metadata data)
  | Triple metadata data => exec (insert_triple_term_pg metadata data)
  | AtomRaw raw creator term_id atom_data_hex =>
      exec (insert_atom_term_pg_raw term_id creator atom_data_hex (StoredEvent.block_number raw)
              (StoredEvent.block_timestamp raw) (StoredEvent.transaction_hash raw))
  | TripleRaw raw creator term_id subject_id predicate_id object_id =>
      exec (insert_triple_term_pg_raw term_id creator subject_id predicate_id object_id
              (StoredEvent.block_number raw) (StoredEvent.block_timestamp raw) (StoredEvent.transaction_hash raw))
  end.

Definition commit_pg_transaction (pg_plan : list PgTermRow) (w : W) : result unit ProjectionError * W :=
  match pg_plan with
  | [] => (Ok tt, w)
  | _ => run_tx (each insert_term_row pg_plan) w
  end.

Definition apply_kg_row (row : PgTermRow) : graph_step :=
  match row with
  | Atom metadata data =>
      let atom_data := default (ac_atom_data data) (decode_atom_data_hex (ac_atom_data data)) in
      apply_atom_row (ac_creator data) (ac_term_id data) atom_data (ac_atom_data data)
        (EventMetadata.block_number metadata) (EventMetadata.transaction_hash metadata)
        (EventMetadata.log_index metadata) (EventMetadata.block_timestamp metadata)
  | AtomRaw raw creator term_id atom_data_hex =>
      let atom_data := default atom_data_hex (decode_atom_data_hex atom_data_hex) in
      apply_atom_row creator term_id atom_data atom_data_hex
        (StoredEvent.block_number raw) (StoredEvent.transaction_hash raw)
        (StoredEvent.log_index raw) (StoredEvent.block_timestamp raw)
  | Triple metadata data =>
      apply_triple_row (tc_creator data) (tc_term_id data) (tc_subject_id data) (tc_predicate_id data)
        (tc_object_id data) (EventMetadata.block_number metadata) (EventMetadata.transaction_hash metadata)
        (EventMetadata.log_index metadata) (EventMetadata.block_timestamp metadata)
  | TripleRaw raw creator term_id subject_id predicate_id object_id =>
      apply_triple_row creator term_id subject_id predicate_id object_id
        (StoredEvent.block_number raw) (StoredEvent.transaction_hash raw)
        (StoredEvent.log_index raw) (StoredEvent.block_timestamp raw)
  end.

Definition write_kg_batch (self : CoreEntitiesProjection) (pg_plan : list PgTermRow) (w : W)
    : result unit ProjectionError * W :=
  if kg_pool self then
    match pg_plan with
    | [] => (Ok tt, w)
    | _ => run_tx (each apply_kg_row pg_plan) w
    end
  else (Ok tt, w).

(** Step A, behind its gauge. *)
Definition apply_surreal_ops (self : CoreEntitiesProjection) (surreal_ops : list SinkOperation) (w : W)
    : result unit ProjectionError * W :=
  match surreal_ops with
  | [] => (Ok tt, w)
  | _ =>
      let w := set_dual_write_in_flight true w in
      let '(r, w) := apply_batch (surreal_sink self) surreal_ops w in
      match r with
      | Err e => (Err e, set_dual_write_in_flight false w)
      | Ok _ => (Ok tt, w)
      end
  end.

Definition process_parsed_batch (self : CoreEntitiesProjection) (events : list ParsedEvent) (w : W)
    : result unit ProjectionError * W :=
  match events with
  | [] => (Ok tt, w)
  | _ =>
      match build_write_plan events with
      | Err (err, offending_idx) =>
          let w := match ProjectionError.classify err, events !! offending_idx with
                   | ErrorClass.Fatal, Some offending => record_fatal_event PROJECTION_NAME offending err w
                   | _, _ => w
                   end in
          (Err err, w)
      | Ok (surreal_ops, pg_plan) =>
          let '(r, w) := apply_surreal_ops self surreal_ops w in
          match r with
          | Err e => (Err e, w)
          | Ok _ =>
              let '(pg_result, w) := commit_pg_transaction pg_plan w in
              let w := set_dual_write_in_flight false w in
              match pg_result with
              | Err e => (Err e, w)
              | Ok _ => write_kg_batch self pg_plan w
              end
          end
      end
  end.

(** ** What the plan says *)

(** The two SurrealDB projections on one event. *)
Definition projected (event : ParsedEvent) : result (list SinkOperation) ProjectionError :=
  let? atom_ops := atom_project_parsed event in
  let? triple_ops := triple_project_parsed event in
  Ok (atom_ops ++ triple_ops).

Fixpoint project_all (events : list ParsedEvent) : result (list SinkOperation) ProjectionError :=
  match events with
  | [] => Ok []
  | event :: events =>
      let? ops := projected event in
      let? rest := project_all events in
      Ok (ops ++ rest)
  end.

Lemma atom_ops_raw creator term_id hex ts :
  build_atom_ops_raw creator term_id hex ts =
  build_raw_atom_ops creator term_id hex (default hex (decode_atom_data_hex hex)) ts.
Proof. done. Qed.

Lemma plan_event_projected event :
  match plan_event event with
  | Ok (ops, _) => projected event = Ok ops
  | Err e => projected event = Err e /\ ProjectionError.classify e = ErrorClass.Fatal
  end.
Proof.
  assert (Hget : forall v f e, get_str v f = Err e -> ProjectionError.classify e = ErrorClass.Fatal).
  { intros v f e. unfold get_str. repeat case_match; by intros [= <-]. }
  unfold projected. destruct event as [ | | | | | | |raw]; try done.
  cbn [plan_event atom_project_parsed triple_project_parsed].
  destruct (String.eqb_spec (StoredEvent.event_type raw) "AtomCreated") as [E|E].
  - rewrite E. change (String.eqb "AtomCreated" "TripleCreated") with false.
    repeat match goal with |- context [get_str ?d ?f] =>
      destruct (get_str d f) eqn:Hg; cbn [res_bind]; [clear Hg|split; [reflexivity|exact (Hget _ _ _ Hg)]] end.
    reflexivity.
  - destruct (String.eqb (StoredEvent.event_type raw) "TripleCreated"); [|done].
    repeat match goal with |- context [get_str ?d ?f] =>
      destruct (get_str d f) eqn:Hg; cbn [res_bind]; [clear Hg|split; [reflexivity|exact (Hget _ _ _ Hg)]] end.
    reflexivity.
Qed.

Lemma build_plan_from idx events ops rows :
  match build_write_plan_from idx events ops rows with
  | Ok (ops', rows') => exists ops1, project_all events = Ok ops1 /\ ops' = ops ++ ops1
  | Err (e, i) => exists pre event post, events = pre ++ event :: post /\ i = (idx + length pre)%nat /\
      projected event = Err e /\ ProjectionError.classify e = ErrorClass.Fatal /\ is_ok (project_all pre) = true
  end.
Proof.
  revert idx ops rows. induction events as [|event events IH]; intros idx ops rows; cbn [build_write_plan_from project_all].
  { exists []. by rewrite app_nil_r. }
  pose proof (plan_event_projected event) as Hp. destruct (plan_event event) as [[ops1 rows1]|e].
  - specialize (IH (S idx) (ops ++ ops1) (rows ++ rows1)).
    destruct (build_write_plan_from _ _ _ _) as [[ops' rows']|[e i]].
    + destruct IH as (ops2 & -> & ->). rewrite Hp. exists (ops1 ++ ops2). by rewrite app_assoc.
    + destruct IH as (pre & ev & post & -> & -> & He & Hc & Hok).
      exists (event :: pre), ev, post. split_and!; try done; [cbn; lia|]. cbn [project_all]. rewrite Hp.
      by destruct (project_all pre).
  - destruct Hp as [Hp Hc]. exists [], event, events. split_and!; try done.
Qed.

(** ** What the rows do *)

Definition term_entry (row : PgTermRow) : string * TermRow :=
  match row with
  | Atom metadata data => (ac_term_id data,
      {| tm_term_type := "atom"; tm_creator := ac_creator data;
         tm_atom_data := decode_atom_data_hex (ac_atom_data data);
         tm_atom_data_hex := Some (ac_atom_data data); tm_subject_id := None; tm_predicate_id := None;
         tm_object_id := None; tm_block_number := EventMetadata.block_number metadata;
         tm_block_timestamp := EventMetadata.block_timestamp metadata;
         tm_transaction_hash := EventMetadata.transaction_hash metadata |})
  | Triple metadata data => (tc_term_id data,
      {| tm_term_type := "triple"; tm_creator := tc_creator data; tm_atom_data := None; tm_atom_data_hex := None;
         tm_subject_id := Some (tc_subject_id data); tm_predicate_id := Some (tc_predicate_id data);
         tm_object_id := Some (tc_object_id data); tm_block_number := EventMetadata.block_number metadata;
         tm_block_timestamp := EventMetadata.block_timestamp metadata;
         tm_transaction_hash := EventMetadata.transaction_hash metadata |})
  | AtomRaw raw creator term_id hex => (term_id,
      {| tm_term_type := "atom"; tm_creator := creator; tm_atom_data := decode_atom_data_hex hex;
         tm_atom_data_hex := Some hex; tm_subject_id := None; tm_predicate_id := None; tm_object_id := None;
         tm_block_number := StoredEvent.block_number raw; tm_block_timestamp := StoredEvent.block_timestamp raw;
         tm_transaction_hash := StoredEvent.transaction_hash raw |})
  | TripleRaw raw creator term_id s p o => (term_id,
      {| tm_term_type := "triple"; tm_creator := creator; tm_atom_data := None; tm_atom_data_hex := None;
         tm_subject_id := Some s; tm_predicate_id := Some p; tm_object_id := Some o;
         tm_block_number := StoredEvent.block_number raw; tm_block_timestamp := StoredEvent.block_timestamp raw;
         tm_transaction_hash := StoredEvent.transaction_hash raw |})
  end.

Definition atom_rows (creator term_id atom_data hex : string) (bn : Z) (tx : string) (li : Z) (ts : DateTime)
    : GraphRows := {|
  gr_accounts := [(creator, ())];
  gr_nodes := [(term_id, {| kn_created_by := creator; kn_raw_type := "string";
     kn_classification_type := "Unknown"; kn_data := atom_data; kn_data_hex := hex; kn_created_at := ts |})];
  gr_predicates := []; gr_triples := [];
  gr_events := [((ts, chain_event_id tx li), created_event "node" creator term_id bn tx)]; gr_contexts := [] |}.

Definition triple_rows (creator term_id s p o : string) (bn : Z) (tx : string) (li : Z) (ts : DateTime)
    : GraphRows := {|
  gr_accounts := [(creator, ())]; gr_nodes := [];
  gr_predicates := [(p, {| kp_slug := p; kp_label := p |})];
  gr_triples := [(term_id, {| kt_created_by := creator; kt_subject_id := s; kt_predicate_id := p;
     kt_object_id := o; kt_sibling_triple_id := None; kt_is_counter_triple := false;
     kt_provenance := Object [("block_number", Number (pretty bn)); ("tx_hash", VString tx)];
     kt_created_at := ts |})];
  gr_events := [((ts, chain_event_id tx li), created_event "triple" creator term_id bn tx)]; gr_contexts := [] |}.

Definition graph_rows (row : PgTermRow) : GraphRows :=
  match row with
  | Atom m d => atom_rows (ac_creator d) (ac_term_id d) (default (ac_atom_data d) (decode_atom_data_hex (ac_atom_data d)))
      (ac_atom_data d) (EventMetadata.block_number m) (EventMetadata.transaction_hash m)
      (EventMetadata.log_index m) (EventMetadata.block_timestamp m)
  | AtomRaw raw creator term_id hex => atom_rows creator term_id (default hex (decode_atom_data_hex hex)) hex
      (StoredEvent.block_number raw) (StoredEvent.transaction_hash raw) (StoredEvent.log_index raw)
      (StoredEvent.block_timestamp raw)
  | Triple m d => triple_rows (tc_creator d) (tc_term_id d) (tc_subject_id d) (tc_predicate_id d) (tc_object_id d)
      (EventMetadata.block_number m) (EventMetadata.transaction_hash m) (EventMetadata.log_index m)
      (EventMetadata.block_timestamp m)
  | TripleRaw raw creator term_id s p o => triple_rows creator term_id s p o
      (StoredEvent.block_number raw) (StoredEvent.transaction_hash raw) (StoredEvent.log_index raw)
      (StoredEvent.block_timestamp raw)
  end.

Fixpoint all_graph_rows (rows : list PgTermRow) : GraphRows :=
  match rows with [] => no_rows | row :: rows => app_rows (graph_rows row) (all_graph_rows rows) end.

Lemma graph_rows_closed row : closed (graph_rows row).
Proof.
  destruct row; (split; cbn; intros e He;
    [try apply list_elem_of_singleton in He|try apply list_elem_of_singleton in He|try apply list_elem_of_singleton in He];
    try (by apply not_elem_of_nil in He); subst e; cbn).
  all: first [by left|eexists; by left].
Qed.

Lemma all_graph_rows_closed rows : closed (all_graph_rows rows).
Proof.
  induction rows as [|row rows IH]; cbn.
  - split; cbn; by intros e He%not_elem_of_nil.
  - apply closed_app; [apply graph_rows_closed|exact IH].
Qed.

Lemma term_row_does (terms : W -> TermTable) (L : PoolLaws terms) rows :
  batch_implements terms (commit_pg_transaction rows) (fun t => Ok (insert_all (map term_entry rows) t)).
Proof.
  destruct rows as [|row rows]; [intros w; cbn; split; [by left|done]|]. unfold commit_pg_transaction.
  apply run_tx_implements; [exact L|].
  eapply does_ext; [|apply (does_each _ _ _ _ (fun row t => insert_new (fst (term_entry row)) (snd (term_entry row)) t))].
  - intros t. cbv beta. f_equal. unfold insert_all. generalize (row :: rows). intros l. revert t.
    induction l as [|x l IH]; intros t; [done|]. cbn [fold_left map]. apply IH.
  - intros []; by apply (implements_exec _ L).
Qed.

Lemma apply_kg_row_does (graph : W -> KgGraph) (L : PoolLaws graph) row :
  implements graph (apply_kg_row row) (fun g => Ok (insert_rows (graph_rows row) g)).
Proof.
  destruct row; cbn [apply_kg_row graph_rows]; unfold apply_atom_row, apply_triple_row;
    (eapply does_ext; [|repeat (eapply does_seq; [by apply (implements_exec _ L)|]); by apply (implements_exec _ L)]);
    intros []; reflexivity.
Qed.

Lemma graph_batch_does (graph : W -> KgGraph) (L : PoolLaws graph) self rows :
  batch_implements graph (write_kg_batch self rows)
    (fun g => Ok (if kg_pool self then insert_rows (all_graph_rows rows) g else g)).
Proof.
  unfold write_kg_batch. destruct (kg_pool self); [|intros w; cbn; split; [by left|done]].
  destruct rows as [|row rows]; [intros w; cbn [all_graph_rows]; rewrite insert_no_rows; split; [by left|done]|].
  apply run_tx_implements; [exact L|].
  eapply does_ext; [|apply (does_each _ _ _ _ (fun row g => insert_rows (graph_rows row) g)); intros x; by apply apply_kg_row_does].
  intros g. cbv beta. f_equal. generalize (row :: rows). intros l. revert g.
  induction l as [|x l IH]; intros g; [by rewrite insert_no_rows|]. cbn [fold_left all_graph_rows].
  by rewrite IH, insert_app_rows.
Qed.
End CoreEntities.

(** ** The three stores *)

Section Stores.
Context `{Encodings} {W : Type} `{CoreWorld W} `{EventCodecs}.
Context (self : @CoreEntitiesProjection W).
(** The batches SurrealDB took, the [term] table and the graph. *)
Context (sent : W -> list (list SinkOperation)) (terms : W -> TermTable) (graph : W -> KgGraph).

Record CoreLaws : Prop := {
  core_terms : @PoolLaws TermTable W term_pool terms;
  core_graph : @PoolLaws KgGraph W graph_pool graph;
  core_terms_apart : @PoolApart TermTable W _ term_pool (fun w => (sent w, graph w));
  core_graph_apart : @PoolApart KgGraph W _ graph_pool (fun w => (sent w, terms w));
  core_sink ops w r w' : apply_batch (surreal_sink self) ops w = (r, w') ->
    terms w' = terms w /\ graph w' = graph w /\
    (sent w' = sent w ++ [ops] \/ (sent w' = sent w /\ r <> Ok tt));
  core_gauge b w : sent (set_dual_write_in_flight b w) = sent w /\
    terms (set_dual_write_in_flight b w) = terms w /\ graph (set_dual_write_in_flight b w) = graph w;
  core_records : records_apart (fun w => (sent w, terms w, graph w))
}.

Context (L : CoreLaws).

(** What each stage adds. *)
Definition sent_more (ops : list SinkOperation) : list (list SinkOperation) :=
  match ops with [] => [] | _ => [ops] end.
Definition write_terms (rows : list PgTermRow) (t : TermTable) : TermTable := insert_all (map term_entry rows) t.
Definition write_graph (rows : list PgTermRow) (g : KgGraph) : KgGraph :=
  if kg_pool self then insert_rows (all_graph_rows rows) g else g.

(** A store is ahead of the next one, never behind it. *)
Definition stage (ops : list SinkOperation) (rows : list PgTermRow) (w w' : W) : Prop :=
  (terms w' = terms w /\ graph w' = graph w /\ (sent w' = sent w \/ sent w' = sent w ++ sent_more ops)) \/
  (sent w' = sent w ++ sent_more ops /\ terms w' = write_terms rows (terms w) /\
   (graph w' = graph w \/ graph w' = write_graph rows (graph w))).

Definition all_written (ops : list SinkOperation) (rows : list PgTermRow) (w w' : W) : Prop :=
  sent w' = sent w ++ sent_more ops /\ terms w' = write_terms rows (terms w) /\
  graph w' = write_graph rows (graph w).

Lemma surreal_stage ops w r w' : apply_surreal_ops self ops w = (r, w') ->
  terms w' = terms w /\ graph w' = graph w /\
  (sent w' = sent w ++ sent_more ops \/ (sent w' = sent w /\ r <> Ok tt)).
Proof.
  unfold apply_surreal_ops. destruct ops as [|op ops].
  { intros [= <- <-]. cbn [sent_more]. rewrite app_nil_r. split_and!; try done. by left. }
  cbv zeta. destruct (core_gauge L true w) as (G1 & G2 & G3). cbn [sent_more].
  destruct (apply_batch _ _ _) as [r1 w1] eqn:Hs. destruct (core_sink L _ _ _ _ Hs) as (S1 & S2 & S3).
  rewrite G1, G2, G3 in *. destruct r1 as [[]|e]; intros [= <- <-]; [done|].
  destruct (core_gauge L false w1) as (F1 & F2 & F3). rewrite F1, F2, F3. split_and!; try done.
Qed.

Lemma terms_stage rows w r w' : commit_pg_transaction rows w = (r, w') ->
  sent w' = sent w /\ graph w' = graph w /\
  (terms w' = write_terms rows (terms w) \/ (terms w' = terms w /\ r <> Ok tt)).
Proof.
  intros Hc. pose proof (term_row_does terms (core_terms L) rows w) as Ht. rewrite Hc in Ht.
  assert (Ha : (sent w', graph w') = (sent w, graph w)).
  { replace w' with (snd (commit_pg_transaction rows w)) by (by rewrite Hc). unfold commit_pg_transaction.
    destruct rows as [|row rows]; [done|]. apply (run_tx_apart _ (core_terms_apart L)).
    apply (each_apart (fun w => (sent w, graph w))). intros []; apply (exec_apart _ (core_terms_apart L)). }
  injection Ha as -> ->. split_and!; try done. destruct Ht as [[[= Ht]|?] _]; [by left|by right].
Qed.

Lemma graph_stage rows w r w' : write_kg_batch self rows w = (r, w') ->
  sent w' = sent w /\ terms w' = terms w /\
  (graph w' = write_graph rows (graph w) \/ (graph w' = graph w /\ r <> Ok tt)).
Proof.
  intros Hc. pose proof (graph_batch_does graph (core_graph L) self rows w) as Hg. rewrite Hc in Hg.
  assert (Ha : (sent w', terms w') = (sent w, terms w)).
  { replace w' with (snd (write_kg_batch self rows w)) by (by rewrite Hc). unfold write_kg_batch.
    destruct (kg_pool self); [|done]. destruct rows as [|row rows]; [done|].
    apply (run_tx_apart _ (core_graph_apart L)). apply (each_apart (fun w => (sent w, terms w))).
    intros []; cbn [apply_kg_row]; unfold apply_atom_row, apply_triple_row;
      repeat first [apply (seq_apart (fun w => (sent w, terms w)))|apply (exec_apart _ (core_graph_apart L))]. }
  injection Ha as -> ->. split_and!; try done. destruct Hg as [[[= Hg]|?] _]; [by left|by right].
Qed.

(** A batch whose plan is made. *)
Lemma planned_batch events ops rows w r w' :
  build_write_plan events = Ok (ops, rows) -> process_parsed_batch self events w = (r, w') ->
  (r = Ok tt /\ all_written ops rows w w') \/ (is_ok r = false /\ stage ops rows w w').
Proof.
  intros Hp. unfold process_parsed_batch. rewrite Hp. destruct events as [|ev events].
  { injection Hp as <- <-. intros [= <- <-]. left. unfold all_written, write_terms, write_graph. cbn.
    rewrite app_nil_r, insert_no_rows. split_and!; try done. by destruct (kg_pool self). }
  destruct (apply_surreal_ops self ops w) as [r1 w1] eqn:R1.
  destruct (surreal_stage _ _ _ _ R1) as (S1 & S2 & S3). destruct r1 as [[]|e]; cycle 1.
  { intros [= <- <-]. right. split; [done|]. left. split_and!; try done. destruct S3 as [?|[? _]]; [by right|by left]. }
  destruct S3 as [S3|[_ ?]]; [|done].
  destruct (commit_pg_transaction rows w1) as [r2 w2] eqn:R2. destruct (terms_stage _ _ _ _ R2) as (T1 & T2 & T3).
  destruct (core_gauge L false w2) as (G1 & G2 & G3). cbv zeta. destruct r2 as [[]|e]; cycle 1.
  { intros [= <- <-]. right. split; [done|]. unfold stage. rewrite G1, G2, G3, T1, T2, S2, S3.
    destruct T3 as [->|[-> _]]; rewrite S1; [right|left]; split_and!; try done; [by left|by right]. }
  destruct T3 as [T3|[_ ?]]; [|done].
  destruct (write_kg_batch self rows _) as [r3 w3] eqn:R3. destruct (graph_stage _ _ _ _ R3) as (K1 & K2 & K3).
  rewrite G1, G2, G3, T1, T2, T3, S1, S2, S3 in *. intros [= <- <-].
  destruct r3 as [[]|e]; [left|right]; (split; [done|]).
  - destruct K3 as [K3|[_ ?]]; [|done]. by split_and!.
  - right. split_and!; try done. destruct K3 as [K3|[K3 _]]; [by right|by left].
Qed.

(** A batch whose plan is refused reaches no store. *)
Lemma refused_batch events e i w :
  build_write_plan events = Err (e, i) ->
  let '(r, w') := process_parsed_batch self events w in
  r = Err e /\ sent w' = sent w /\ terms w' = terms w /\ graph w' = graph w.
Proof.
  intros Hp. unfold process_parsed_batch. rewrite Hp. destruct events as [|ev events]; [done|].
  cbv zeta. split; [done|].
  assert (Hr : forall p, (fun w => (sent w, terms w, graph w)) (record_fatal_event PROJECTION_NAME p e w) =
    (sent w, terms w, graph w)) by (intros p; by apply (record_fatal_tables _ _ _ _ _ (core_records L))).
  destruct (ProjectionError.classify e); try done. destruct ((ev :: events) !! i) as [p|]; [|done].
  specialize (Hr p). cbn in Hr. by injection Hr as -> -> ->.
Qed.

(** Attempts at a batch up to the first that succeeds. *)
Inductive retried (events : list ParsedEvent) : W -> W -> Prop :=
  | retried_ok w w' : process_parsed_batch self events w = (Ok tt, w') -> retried events w w'
  | retried_again e w w1 w' : process_parsed_batch self events w = (Err e, w1) ->
      retried events w1 w' -> retried events w w'.

Lemma write_terms_again rows t : write_terms rows (write_terms rows t) = write_terms rows t.
Proof. unfold write_terms. by rewrite !insert_all_union, union_again. Qed.

Lemma write_graph_again rows g : write_graph rows (write_graph rows g) = write_graph rows g.
Proof. unfold write_graph. destruct (kg_pool self); [apply insert_rows_again|done]. Qed.

Lemma stage_linked ops rows w w' : stage ops rows w w' \/ all_written ops rows w w' ->
  linked (graph w) -> linked (graph w').
Proof.
  intros Hs Hl. assert (linked (write_graph rows (graph w))).
  { unfold write_graph. destruct (kg_pool self); [|done]. apply insert_linked; [apply all_graph_rows_closed|done]. }
  destruct Hs as [[(_ & -> & _)|(_ & _ & [->| ->])]|(_ & _ & ->)]; done.
Qed.
End Stores.

(** ** Properties *)

(** C36 (one plan for two pipelines). The planner accepts a batch exactly when the atom
    and the triple projection of SurrealDB accept each of its events, and then emits
    exactly their operations, in order. If it refuses, it names the first event they
    refuse, with their error, which is fatal, so that exactly this event is
    dead-lettered. *)
Theorem plan_matches_projections `{Encodings} (events : list ParsedEvent) :
  match build_write_plan events with
  | Ok (ops, rows) => project_all events = Ok ops
  | Err (e, i) => exists event, events !! i = Some event /\ projected event = Err e /\
      ProjectionError.classify e = ErrorClass.Fatal /\ is_ok (project_all (take i events)) = true
  end.
Proof.
  pose proof (build_plan_from 0 events [] []) as Hb. unfold build_write_plan.
  destruct (build_write_plan_from _ _ _ _) as [[ops rows]|[e i]].
  - by destruct Hb as (ops1 & -> & ->).
  - destruct Hb as (pre & event & post & -> & -> & He & Hc & Hok). exists event. cbn [Nat.add].
    rewrite lookup_app_r, Nat.sub_diag, take_app_length by lia. done.
Qed.

(** C4 (the order of the stores). Whatever fails, SurrealDB is never behind the
    [term] table and the [term] table never behind the graph: a batch that succeeds
    reached all three, each with exactly the rows of the plan, and a batch that fails
    reached none, SurrealDB only, SurrealDB and [term], or all. A batch whose plan is
    refused reached none. *)
Theorem core_write_order `{Encodings} {W} `{CoreWorld W} `{EventCodecs} (self : @CoreEntitiesProjection W)
  (sent : W -> list (list SinkOperation)) (terms : W -> TermTable) (graph : W -> KgGraph)
  (events : list ParsedEvent) (w w' : W) (r : result unit ProjectionError)
  (L : CoreLaws self sent terms graph) (Hrun : process_parsed_batch self events w = (r, w')) :
  match build_write_plan events with
  | Ok (ops, rows) =>
      (r = Ok tt /\ all_written self sent terms graph ops rows w w') \/
      (is_ok r = false /\ stage self sent terms graph ops rows w w')
  | Err (e, _) => r = Err e /\ sent w' = sent w /\ terms w' = terms w /\ graph w' = graph w
  end.
Proof.
  destruct (build_write_plan events) as [[ops rows]|[e i]] eqn:Hp.
  - by eapply planned_batch.
  - pose proof (refused_batch self sent terms graph L events e i w Hp) as Hr. by rewrite Hrun in Hr.
Qed.

(** C14 (a replay converges). However many attempts at a batch failed, and wherever each
    stopped, once one succeeds the [term] table and the graph are what a single
    clean run would have made of them, rows of other writers included, and SurrealDB
    has taken the batch's operations, the same at every attempt, at least once. *)
Theorem core_replay_converges `{Encodings} {W} `{CoreWorld W} `{EventCodecs} (self : @CoreEntitiesProjection W)
  (sent : W -> list (list SinkOperation)) (terms : W -> TermTable) (graph : W -> KgGraph)
  (events : list ParsedEvent) (ops : list SinkOperation) (rows : list PgTermRow) (w w' : W)
  (L : CoreLaws self sent terms graph) (Hplan : build_write_plan events = Ok (ops, rows))
  (Hrun : retried self events w w') :
  terms w' = write_terms rows (terms w) /\ graph w' = write_graph self rows (graph w) /\
  exists n, (0 < n)%nat /\ sent w' = sent w ++ mjoin (repeat (sent_more ops) n).
Proof.
  induction Hrun as [w w' Hok|e w w1 w' Herr Hrun IH].
  - destruct (planned_batch self sent terms graph L _ _ _ _ _ _ Hplan Hok) as [(_ & Hs & -> & ->)|[? _]]; [|done].
    split_and!; try done. exists 1%nat. split; [lia|]. rewrite Hs. cbn. by rewrite app_nil_r.
  - destruct IH as (Ht & Hg & n & Hn & Hs). rewrite Ht, Hg, Hs.
    destruct (planned_batch self sent terms graph L _ _ _ _ _ _ Hplan Herr)
      as [[? _]|(_ & [(E1 & E2 & E3)|(E1 & E2 & E3)])]; [done| |].
    + rewrite E1, E2. split_and!; try done. destruct E3 as [->| ->]; [by exists n|].
      exists (S n). split; [lia|]. cbn. by rewrite <- app_assoc.
    + rewrite E1, E2, write_terms_again. split_and!; [done| |].
      * destruct E3 as [->| ->]; [done|apply write_graph_again].
      * exists (S n). split; [lia|]. cbn. by rewrite <- app_assoc.
Qed.

(** C37 (no dangling creator). In a graph in which every node and triple has its
    creator's account and every triple its predicate, this still holds after any
    batch, whether it succeeds or fails, typed or recovered from raw payloads. *)
Theorem core_graph_stays_linked `{Encodings} {W} `{CoreWorld W} `{EventCodecs} (self : @CoreEntitiesProjection W)
  (sent : W -> list (list SinkOperation)) (terms : W -> TermTable) (graph : W -> KgGraph)
  (events : list ParsedEvent) (w : W)
  (L : CoreLaws self sent terms graph) (Hw : linked (graph w)) :
  linked (graph (snd (process_parsed_batch self events w))).
Proof.
  destruct (process_parsed_batch self events w) as [r w'] eqn:Hrun. cbn [snd].
  destruct (build_write_plan events) as [[ops rows]|[e i]] eqn:Hp.
  - eapply stage_linked; [|exact Hw].
    destruct (planned_batch self sent terms graph L _ _ _ _ _ _ Hp Hrun) as [[_ Hs]|[_ Hs]]; [right|left]; exact Hs.
  - pose proof (refused_batch self sent terms graph L events e i w Hp) as Hr. rewrite Hrun in Hr.
    by destruct Hr as (_ & _ & _ & ->).
Qed.

(** ** Concrete stores *)

#[global] Instance no_graph : EmptyTables KgGraph :=
  {| accounts := ∅; nodes := ∅; predicates := ∅; triples := ∅; events := ∅; node_contexts := ∅ |}.

Abbreviation stores := (list (list SinkOperation) * TermTable * KgGraph)%type.
#[local] Instance no_stores : EmptyTables stores := ([], ∅, empty_tables).
Abbreviation demo_core := (demo stores).

Definition demo_put (t : stores) (w : demo_core) : demo_core := dw_set_target (t :: dw_applied w) (dw_errors w) w.

(** The next error strikes the commit of the graph transaction. *)
#[local] Instance demo_core_world : CoreWorld demo_core := {|
  core_dead_letter := demo_dead_letter;
  term_pool := {|
    begin_tx w := (Ok tt, w); statement w := (Ok tt, w);
    commit_tx f w := let '(s, t, g) := demo_tables w in (Ok tt, demo_put (s, f t, g) w) |};
  graph_pool := {|
    begin_tx w := (Ok tt, w); statement w := (Ok tt, w);
    commit_tx f w :=
      match dw_errors w with
      | [] => let '(s, t, g) := demo_tables w in (Ok tt, demo_put (s, t, f g) w)
      | e :: es => (Err (ProjectionError.to_string e), dw_set_target (dw_applied w) es w)
      end |};
  set_dual_write_in_flight _ w := w
|}.

Definition demo_sink : ProjectionSink demo_core := {|
  sink_name := "demo";
  apply_batch ops w := let '(s, t, g) := demo_tables w in (Ok tt, demo_put (s ++ [ops], t, g) w) |}.

Definition demo_core_entities : CoreEntitiesProjection := with_kg_pool (new demo_sink).
Definition demo_sent (w : demo_core) : list (list SinkOperation) := fst (fst (demo_tables w)).
Definition demo_terms (w : demo_core) : TermTable := snd (fst (demo_tables w)).
Definition demo_graph (w : demo_core) : KgGraph := snd (demo_tables w).

Lemma demo_tables_errors es (w : demo_core) : demo_tables (dw_set_target (dw_applied w) es w) = demo_tables w.
Proof. done. Qed.

Lemma demo_core_laws : CoreLaws demo_core_entities demo_sent demo_terms demo_graph.
Proof.
  split; try done.
  - split; try done. intros f w r w'. cbn. destruct (demo_tables w) as [[s t] g] eqn:E. intros [= <- <-].
    left. unfold demo_terms. cbn. by rewrite E.
  - split; try done. intros f w r w'. cbn. destruct (demo_tables w) as [[s t] g] eqn:E.
    destruct (dw_errors w); intros [= <- <-]; unfold demo_graph; cbn; rewrite ?demo_tables_errors, ?E; [by left|by right].
  - split; try done. intros f w. cbn. destruct (demo_tables w) as [[s t] g] eqn:E.
    unfold demo_sent, demo_graph. cbn. by rewrite E.
  - split; try done. intros f w. cbn. destruct (demo_tables w) as [[s t] g] eqn:E.
    unfold demo_sent, demo_terms. destruct (dw_errors w); cbn; by rewrite ?demo_tables_errors, ?E.
  - intros ops w r w'. cbn. destruct (demo_tables w) as [[s t] g] eqn:E. intros [= <- <-].
    unfold demo_terms, demo_graph, demo_sent. cbn. rewrite E. split_and!; try done. by left.
Qed.

(** An atom whose payload is "hi", and a triple that came through as raw JSON. *)
Definition demo_atom : ParsedEvent := ParsedEvent.AtomCreated (demo_metadata 1 "AtomCreated")
  {| ac_creator := "0xc"; ac_term_id := "0x07"; ac_atom_data := "0x6869"; ac_atom_wallet := "0xw" |}.
Definition demo_raw_triple : ParsedEvent := ParsedEvent.Unknown (sample_event 2 "TripleCreated"
  (Object [("creator", VString "0xd"); ("term_id", VString "0x08"); ("subject_id", VString "0x07");
           ("predicate_id", VString "0x01"); ("object_id", VString "0x07")])).
Definition demo_bad_triple : ParsedEvent := ParsedEvent.Unknown (sample_event 3 "TripleCreated" Null).

#[local] Existing Instance demo_encodings.
#[local] Existing Instance sample_codecs.

Definition demo_plan : list SinkOperation * list PgTermRow :=
  match build_write_plan [demo_atom; demo_raw_triple] with Ok p => p | Err _ => ([], []) end.

Example demo_plan_sizes :
  length (fst demo_plan) = 6%nat /\ option_map tm_atom_data (write_terms (snd demo_plan) ∅ !! "0x07") = Some (Some "hi") /\
  build_write_plan [demo_atom; demo_bad_triple] = Err (ProjectionError.MissingField "creator", 1%nat).
Proof. vm_compute. done. Qed.

Definition core_begin (errors : list ProjectionError) : demo_core := demo_database empty_tables errors.
Definition core_run (w : demo_core) : result unit ProjectionError * demo_core :=
  process_parsed_batch demo_core_entities [demo_atom; demo_raw_triple] w.
Lemma pair_of {A B} (x : A * B) a : fst x = a -> x = (a, snd x).
Proof. by intros <-; destruct x. Qed.
Definition core_failed : demo_core := snd (core_run (core_begin [ProjectionError.Database "reset"])).

Lemma core_write_order_witness :
  is_ok (fst (core_run (core_begin [ProjectionError.Database "reset"]))) = false /\
  stage demo_core_entities demo_sent demo_terms demo_graph (fst demo_plan) (snd demo_plan)
    (core_begin [ProjectionError.Database "reset"]) core_failed.
Proof.
  destruct (core_write_order demo_core_entities demo_sent demo_terms demo_graph [demo_atom; demo_raw_triple]
    (core_begin [ProjectionError.Database "reset"]) core_failed
    (fst (core_run (core_begin [ProjectionError.Database "reset"]))) demo_core_laws (surjective_pairing _))
    as [[Hr _]|Hs]; [vm_compute in Hr; discriminate Hr|exact Hs].
Defined.

Lemma core_replay_converges_witness :
  let w' := snd (core_run core_failed) in
  demo_terms w' = write_terms (snd demo_plan) ∅ /\
  demo_graph w' = write_graph demo_core_entities (snd demo_plan) empty_tables /\
  exists n, (0 < n)%nat /\ demo_sent w' = [] ++ mjoin (repeat (sent_more (fst demo_plan)) n).
Proof.
  apply (core_replay_converges demo_core_entities demo_sent demo_terms demo_graph [demo_atom; demo_raw_triple]
    (fst demo_plan) (snd demo_plan) (core_begin [ProjectionError.Database "reset"]) (snd (core_run core_failed))
    demo_core_laws).
  - vm_compute. reflexivity.
  - eapply (retried_again _ _ (ProjectionError.Database (ProjectionError.to_string (ProjectionError.Database "reset")))
      _ core_failed); [|apply retried_ok]; apply pair_of; vm_compute; reflexivity.
Defined.

Lemma core_graph_stays_linked_witness : linked (demo_graph core_failed).
Proof.
  apply (core_graph_stays_linked demo_core_entities demo_sent demo_terms demo_graph [demo_atom; demo_raw_triple]
    (core_begin [ProjectionError.Database "reset"]) demo_core_laws).
  split; vm_compute; discriminate.
Defined.
