(* ===== verification/AtomContext.v ===== *)
(** * The atom-context projection

    [crates/projections/src/projection/dual/atom_context.rs]: the URIs registered
    for an atom become rows of the knowledge graph, one per URI, and the
    registration a row of [kg.events]. A registration waits for its atom's node:
    while the node is missing the batch fails with a transient error. The hex and
    UTF-8 of the URIs are those of the files Encodings and Text. What the table holds is
    said in terms of what the chain holds, so that it covers registrations delivered
    again. *)

From stdpp Require Import pretty.
From S2P Require Import Prelude MachineInt Text Events Errors Retry WorkerWorld DeadLetter PgTx PgCommon KgGraph DemoWorld DemoDatabase.

Module AtomContextDual.

Definition PROJECTION_NAME : string := "atom_context:dual".

Record ProjectedUri := { ordinal : Z; uri_hex : string; uri_text : option string }.

(** [sqlx::Error::RowNotFound], by its message. *)
Definition RowNotFound : string := "no rows returned by a query that expected to return at least one row".

Section Projection.
Context `{Encodings}.

Definition ok_or {A} (o : option A) (e : string) : result A ProjectionError :=
  match o with Some a => Ok a | None => Err (ProjectionError.InvalidEventData e) end.

(** [String::from_utf8(bytes).ok().filter(|value| !value.contains('\0'))] *)
Definition decode_text (bytes : string) : option string :=
  value ← from_utf8 bytes; if contains_char nul value then None else Some value.

Definition project_uri (ordinal : nat) (raw : string) : result ProjectedUri ProjectionError :=
  let? ordinal := ok_or (if Z.of_nat ordinal <=? I32_MAX then Some (Z.of_nat ordinal) else None)
                    "AtomContextRegistered URI ordinal exceeds int32" in
  let? encoded := ok_or (strip_prefix "0x" raw)
                    ("context URI at ordinal " +:+ pretty ordinal +:+ " is not 0x-prefixed hex") in
  let? bytes := ok_or (hex_decode encoded)
                    ("context URI at ordinal " +:+ pretty ordinal +:+ " is not valid even-length hex") in
  let uri_hex := "0x" +:+ hex_encode bytes in
  let uri_text := decode_text bytes in
  Ok {| ordinal := ordinal; uri_hex := uri_hex; uri_text := uri_text |}.

(** [uris.iter().enumerate().map(..).collect()], from ordinal [i]. *)
Fixpoint project_uris_from (i : nat) (uris : list string) : result (list ProjectedUri) ProjectionError :=
  match uris with
  | [] => Ok []
  | raw :: uris =>
      let? uri := project_uri i raw in
      let? rest := project_uris_from (S i) uris in
      Ok (uri :: rest)
  end.
Definition project_uris (uris : list string) := project_uris_from 0 uris.

Definition context_event_id (transaction_hash : string) (log_index : Z) : string :=
  "atom_context:" +:+ transaction_hash +:+ ":" +:+ pretty log_index.

(** ** The statements *)

Definition node_lookup (term_id : string) (g : KgGraph) : option string :=
  kn_classification_type <$> nodes g !! term_id.

Definition context_key (metadata : EventMetadata) (data : AtomContextRegisteredRecord) (i : Z)
    : string * string * Z * Z :=
  (acr_term_id data, EventMetadata.transaction_hash metadata, EventMetadata.log_index metadata, i).

Definition context_row (metadata : EventMetadata) (data : AtomContextRegisteredRecord) (uri : ProjectedUri)
    : NodeContext := {|
  nc_event_sequence := EventMetadata.sequence_number metadata;
  nc_block_number := EventMetadata.block_number metadata;
  nc_block_timestamp := EventMetadata.block_timestamp metadata;
  nc_block_hash := EventMetadata.block_hash metadata;
  nc_registrant := acr_registrant data; nc_uri_hex := uri_hex uri; nc_uri_text := uri_text uri |}.

Definition context_insert (metadata : EventMetadata) (data : AtomContextRegisteredRecord) (uri : ProjectedUri)
    : KgGraph -> KgGraph :=
  on_contexts (insert_new (context_key metadata data (ordinal uri)) (context_row metadata data uri)).

Definition evidence_row (metadata : EventMetadata) (data : AtomContextRegisteredRecord)
    (classification_type : string) (projected_uris : list ProjectedUri) : KgEvent := {|
  ke_actor_id := acr_registrant data; ke_entity_kind := "node"; ke_entity_id := acr_term_id data;
  ke_event_type := "atom_context_registered"; ke_classification_type := classification_type;
  ke_block_number := EventMetadata.block_number metadata;
  ke_tx_hash := EventMetadata.transaction_hash metadata;
  ke_payload := Object
    [("event_sequence", Number (pretty (EventMetadata.sequence_number metadata)));
     ("block_hash", VString (EventMetadata.block_hash metadata));
     ("log_index", Number (pretty (EventMetadata.log_index metadata)));
     ("is_canonical", Bool (EventMetadata.is_canonical metadata));
     ("uris", Array (map (fun uri => VString (uri_hex uri)) projected_uris))] |}.

Definition evidence_insert (metadata : EventMetadata) (data : AtomContextRegisteredRecord)
    (classification_type : string) (projected_uris : list ProjectedUri) : KgGraph -> KgGraph :=
  on_events (insert_new
    (EventMetadata.block_timestamp metadata,
     context_event_id (EventMetadata.transaction_hash metadata) (EventMetadata.log_index metadata))
    (evidence_row metadata data classification_type projected_uris)).

(** ** The handlers *)

Context {W : Type} `{ReadPool KgGraph W}.
Abbreviation step := (@step KgGraph W).

Definition project_context_event (metadata : EventMetadata) (data : AtomContextRegisteredRecord) : step :=
  fetch_on (fetch (node_lookup (acr_term_id data))) (fun classification_type =>
    match classification_type with
    | None => fail_step (ProjectionError.Database RowNotFound)
    | Some classification_type =>
        match project_uris (acr_uris data) with
        | Err e => fail_step e
        | Ok projected_uris =>
            each (fun uri => exec (context_insert metadata data uri)) projected_uris >>?
            exec (evidence_insert metadata data classification_type projected_uris)
        end
    end).

Definition malformed (raw : StoredEvent) : ProjectionError :=
  ProjectionError.InvalidEventData
    ("sequence " +:+ pretty (StoredEvent.sequence_number raw) +:+
     " could not be parsed as AtomContextRegistered").

Definition process_event (event : ParsedEvent) : step :=
  match event with
  | ParsedEvent.AtomContextRegistered metadata data => project_context_event metadata data
  | ParsedEvent.Unknown raw =>
      if String.eqb (StoredEvent.event_type raw) (EventType.as_str EventType.AtomContextRegistered)
      then fail_step (malformed raw)
      else done_step
  | _ => done_step
  end.

Definition process_parsed_batch (events : list ParsedEvent) : W -> result unit ProjectionError * W :=
  run_tx (each process_event events).

(** ** What a batch does *)

Definition context_rows (metadata : EventMetadata) (data : AtomContextRegisteredRecord)
    (classification_type : string) (uris : list ProjectedUri) : GraphRows := {|
  gr_accounts := []; gr_nodes := []; gr_predicates := []; gr_triples := [];
  gr_events := [((EventMetadata.block_timestamp metadata,
      context_event_id (EventMetadata.transaction_hash metadata) (EventMetadata.log_index metadata)),
    evidence_row metadata data classification_type uris)];
  gr_contexts := map (fun uri => (context_key metadata data (ordinal uri), context_row metadata data uri)) uris |}.

(** The rows of an event, in a graph with these nodes. *)
Definition event_rows (nodes : gmap string KgNode) (event : ParsedEvent) : result GraphRows ProjectionError :=
  match event with
  | ParsedEvent.AtomContextRegistered metadata data =>
      match nodes !! acr_term_id data with
      | None => Err (ProjectionError.Database RowNotFound)
      | Some node =>
          let? uris := project_uris (acr_uris data) in
          Ok (context_rows metadata data (kn_classification_type node) uris)
      end
  | ParsedEvent.Unknown raw =>
      if String.eqb (StoredEvent.event_type raw) (EventType.as_str EventType.AtomContextRegistered)
      then Err (malformed raw) else Ok no_rows
  | _ => Ok no_rows
  end.

Definition apply_event (event : ParsedEvent) (g : KgGraph) : result KgGraph ProjectionError :=
  let? rows := event_rows (nodes g) event in Ok (insert_rows rows g).

Fixpoint batch_rows (nodes : gmap string KgNode) (events : list ParsedEvent) : result GraphRows ProjectionError :=
  match events with
  | [] => Ok no_rows
  | event :: events =>
      let? rows := event_rows nodes event in
      let? rest := batch_rows nodes events in
      Ok (app_rows rows rest)
  end.

Context (graph : W -> KgGraph) (L : ReadLaws graph).

(** What a step does when it succeeds; which calls fail is left open. *)
Abbreviation effect := (does (fun (tx : KgGraph -> KgGraph) g => tx g) graph False).

Lemma exec_effect f : effect (exec f) (fun g => Ok (f g)).
Proof. apply does_exec; [apply (tx_statement _ (read_laws _ L))|done|done]. Qed.

Lemma uris_does metadata data uris :
  effect (each (fun uri => exec (context_insert metadata data uri)) uris)
    (fun g => Ok (on_contexts (insert_all (map (fun uri =>
       (context_key metadata data (ordinal uri), context_row metadata data uri)) uris)) g)).
Proof.
  eapply does_ext; [|apply (does_each _ _ _ _ (context_insert metadata data)); intros x; apply exec_effect].
  intros g. cbv beta. f_equal. revert g. induction uris as [|u uris IH]; intros g; [by destruct g|].
  cbn [fold_left map]. by rewrite IH.
Qed.

Lemma context_event_does metadata data :
  effect (project_context_event metadata data) (apply_event (ParsedEvent.AtomContextRegistered metadata data)).
Proof.
  eapply does_ext; [|apply (does_fetch _ _ _ _ (node_lookup (acr_term_id data)) _
    (fun c g => match c with None => Err (ProjectionError.Database RowNotFound) | Some c =>
       let? uris := project_uris (acr_uris data) in
       Ok (insert_rows (context_rows metadata data c uris) g) end))].
  - intros g. unfold apply_event, node_lookup. cbn [event_rows]. destruct (nodes g !! _); [|done]. cbn.
    by destruct (project_uris _).
  - intros tx w. apply (read_fetch _ L).
  - intros tx w a. apply (read_answer _ L).
  - done.
  - intros [c|]; [|apply does_fail]. destruct (project_uris (acr_uris data)) as [uris|e]; [|apply does_fail].
    eapply does_ext; [|eapply does_seq; [apply uris_does|apply exec_effect]].
    intros []. reflexivity.
Qed.

Lemma context_batch_does events w :
  let '(r, w') := process_parsed_batch events w in
  apply_all apply_event events (graph w) = Ok (graph w') \/ (graph w' = graph w /\ r <> Ok tt).
Proof.
  apply (run_tx_outcome _ (read_laws _ L) False). apply does_each_event.
  assert (Hid : effect (@done_step (KgGraph -> KgGraph) W) (fun g => Ok (insert_rows no_rows g))).
  { eapply does_ext; [|apply does_done]. intros g. by rewrite insert_no_rows. }
  intros p. destruct p; cbn [process_event]; try exact Hid; [apply context_event_does|].
  unfold apply_event. cbn [event_rows]. destruct (String.eqb _ _); [apply does_fail|exact Hid].
Qed.

(** The nodes stay, so the rows of a batch are those of the graph before it. *)
Lemma event_rows_nodes n event rows : event_rows n event = Ok rows ->
  gr_accounts rows = [] /\ gr_nodes rows = [] /\ gr_predicates rows = [] /\ gr_triples rows = [].
Proof.
  destruct event; cbn [event_rows]; try (by intros [= <-]).
  - destruct (n !! _); [|done]. destruct (project_uris _); [|done]. by intros [= <-].
  - destruct (String.eqb _ _); by intros [= <-].
Qed.

Lemma batch_effect events g :
  apply_all apply_event events g =
  (let? rows := batch_rows (nodes g) events in Ok (insert_rows rows g)).
Proof.
  revert g. induction events as [|p events IH]; intros g; cbn [apply_all batch_rows res_bind].
  { by rewrite insert_no_rows. }
  unfold apply_event at 1. destruct (event_rows (nodes g) p) as [rows|e] eqn:Hr; [|done]. cbn [res_bind].
  rewrite IH. destruct (event_rows_nodes _ _ _ Hr) as (_ & Hn & _).
  assert (E : nodes (insert_rows rows g) = nodes g) by (cbn; by rewrite Hn). rewrite E.
  destruct (batch_rows (nodes g) events) as [rest|e]; [|done]. cbn [res_bind]. by rewrite insert_app_rows.
Qed.

(** ** The URIs *)

(** The row of a URI keeps its position and every byte of it. *)
Definition carries (i : nat) (raw : string) (uri : ProjectedUri) : Prop :=
  ordinal uri = Z.of_nat i /\
  exists encoded bytes, raw = "0x" +:+ encoded /\ hex_decode encoded = Some bytes /\
    uri_hex uri = "0x" +:+ hex_encode bytes /\ uri_text uri = decode_text bytes.

Lemma project_uri_ok i raw uri : project_uri i raw = Ok uri -> carries i raw uri.
Proof.
  unfold project_uri, ok_or. destruct (Z.of_nat i <=? I32_MAX); [|done]. cbn [res_bind].
  destruct (strip_prefix "0x" raw) as [enc|] eqn:Hs; [|done]. cbn [res_bind].
  destruct (hex_decode enc) as [bytes|] eqn:Hd; [|done]. cbn [res_bind]. intros [= <-].
  split; [done|]. exists enc, bytes. split_and!; try done. by apply strip_prefix_some.
Qed.

Lemma project_uris_ok i uris rows : project_uris_from i uris = Ok rows ->
  length rows = length uris /\
  forall j raw, uris !! j = Some raw -> exists uri, rows !! j = Some uri /\ carries (i + j) raw uri.
Proof.
  revert i rows. induction uris as [|raw uris IH]; intros i rows; cbn [project_uris_from].
  { intros [= <-]. split; [done|]. intros j r. by rewrite lookup_nil. }
  intros Hp. apply res_bind_ok in Hp as (uri & Hu & Hp), Hp as (rest & Hr & [= <-]).
  destruct (IH (S i) rest Hr) as [Hl Hj]. split; [cbn; by rewrite Hl|]. intros [|j] r; cbn.
  - intros [= <-]. exists uri. split; [done|]. rewrite Nat.add_0_r. by apply project_uri_ok.
  - intros Hr1. destruct (Hj j r Hr1) as (u & ? & ?). exists u. split; [done|]. by rewrite Nat.add_succ_r.
Qed.

Lemma batch_contexts n events rows : batch_rows n events = Ok rows ->
  (forall k row, (k, row) ∈ gr_contexts rows -> exists metadata data uris uri,
     ParsedEvent.AtomContextRegistered metadata data ∈ events /\ project_uris (acr_uris data) = Ok uris /\
     uri ∈ uris /\ k = context_key metadata data (ordinal uri) /\ row = context_row metadata data uri) /\
  (forall metadata data, ParsedEvent.AtomContextRegistered metadata data ∈ events ->
     is_Some (n !! acr_term_id data) /\ exists uris, project_uris (acr_uris data) = Ok uris /\
     forall uri, uri ∈ uris ->
       (context_key metadata data (ordinal uri), context_row metadata data uri) ∈ gr_contexts rows).
Proof.
  revert rows. induction events as [|p events IH]; intros rows; cbn [batch_rows].
  { intros [= <-]. split; [by intros k row ?%not_elem_of_nil|by intros m d ?%not_elem_of_nil]. }
  intros Hb. apply res_bind_ok in Hb as (r1 & Hp & Hb), Hb as (r2 & Hr & [= <-]).
  destruct (IH r2 Hr) as [IH1 IH2]. split.
  - intros k row. cbn. rewrite elem_of_app. intros [Hin|Hin].
    2: { destruct (IH1 k row Hin) as (m & d & uris & uri & ? & Hrest). exists m, d, uris, uri. split; [by right|done]. }
    destruct p; cbn [event_rows] in Hp; try (injection Hp as <-; by apply not_elem_of_nil in Hin).
    + destruct (n !! _); [|done]. apply res_bind_ok in Hp as (uris & Hu & [= <-]). cbn in Hin.
      apply list_elem_of_fmap in Hin as (uri & [= -> ->] & Hin). exists metadata, data, uris, uri.
      split; [by left|done].
    + destruct (String.eqb _ _); [done|]. injection Hp as <-. by apply not_elem_of_nil in Hin.
  - intros m d. rewrite elem_of_cons. intros [<-|Hin].
    + cbn [event_rows] in Hp. destruct (n !! acr_term_id d) as [node|]; [|done]. split; [by eexists|].
      apply res_bind_ok in Hp as (uris & Hu & [= <-]). exists uris. split; [done|]. intros uri Hin. cbn.
      apply elem_of_app. left. apply list_elem_of_fmap. by exists uri.
    + destruct (IH2 m d Hin) as (? & uris & ? & Hall). split; [done|]. exists uris. split; [done|].
      intros uri Hu. cbn. apply elem_of_app. right. by apply Hall.
Qed.

Lemma batch_rows_other n events rows : batch_rows n events = Ok rows ->
  gr_accounts rows = [] /\ gr_nodes rows = [] /\ gr_predicates rows = [] /\ gr_triples rows = [].
Proof.
  revert rows. induction events as [|p events IH]; intros rows; cbn [batch_rows]; [by intros [= <-]|].
  intros Hb. apply res_bind_ok in Hb as (r1 & Hp & Hb), Hb as (r2 & Hr & [= <-]).
  destruct (event_rows_nodes _ _ _ Hp) as (A & B & C & D), (IH r2 Hr) as (A' & B' & C' & D'). cbn.
  by rewrite A, B, C, D, A', B', C', D'.
Qed.
(** A row of the table keeps every byte of the URI it was written for, and its text exactly
    when the bytes are valid UTF-8 without NUL. *)
Definition row_carries (raw : string) (row : NodeContext) : Prop :=
  exists encoded bytes, raw = "0x" +:+ encoded /\ hex_decode encoded = Some bytes /\
    (exists text, strip_prefix "0x" (nc_uri_hex row) = Some text /\ hex_decode text = Some bytes) /\
    (forall text, nc_uri_text row = Some text <-> from_utf8 bytes = Some text /\ contains_char nul text = false).

Lemma context_row_carries metadata data i raw uri : carries i raw uri -> row_carries raw (context_row metadata data uri).
Proof.
  intros (_ & enc & bytes & -> & Hd & Hhex & Htext). exists enc, bytes. cbn. rewrite Hhex, Htext. split_and!; try done.
  - exists (hex_encode bytes). split; [exact (strip_prefix_app "0x" _)|apply hex_decode_encode].
  - intros text. unfold decode_text. destruct (from_utf8 bytes) as [v|]; cbn; [|by split; [|intros [[=] _]]].
    destruct (contains_char nul v) eqn:Hn; split; try done; [by intros [[= <-] ?]; congruence|by intros [= <-]|by intros [[= <-] _]].
Qed.

(** [uris_of] is what the chain holds: the URIs registered for a term by the log at a
    position of a transaction. Every row of the table is that of such a URI, and its
    term has a node. *)
Definition contexts_lossless (uris_of : string -> string -> Z -> list string) (g : KgGraph) : Prop :=
  forall term tx log i row, node_contexts g !! (term, tx, log, i) = Some row ->
    is_Some (nodes g !! term) /\ exists j raw, i = Z.of_nat j /\ uris_of term tx log !! j = Some raw /\ row_carries raw row.

(** The events say what the chain holds. *)
Definition as_registered (uris_of : string -> string -> Z -> list string) (events : list ParsedEvent) : Prop :=
  forall metadata data, ParsedEvent.AtomContextRegistered metadata data ∈ events ->
    acr_uris data = uris_of (acr_term_id data) (EventMetadata.transaction_hash metadata) (EventMetadata.log_index metadata).

Lemma batch_contexts_lossless uris_of events g rows :
  as_registered uris_of events -> contexts_lossless uris_of g -> batch_rows (nodes g) events = Ok rows ->
  contexts_lossless uris_of (insert_rows rows g).
Proof.
  intros Hreg Hg Hr term tx log i row. destruct (batch_rows_other _ _ _ Hr) as (_ & B & _). cbn. rewrite B. cbn.
  intros [Hin|Hin]%insert_all_from; [by apply Hg|].
  destruct (batch_contexts _ _ _ Hr) as [Hfrom Hto].
  destruct (Hfrom _ _ Hin) as (m & d & uris & uri & Hev & Hu & Huri & [= -> -> -> ->] & ->).
  split; [by apply (Hto m d Hev)|]. apply list_elem_of_lookup in Huri as [j Hj].
  destruct (project_uris_ok 0 _ _ Hu) as [Hlen Hc].
  destruct (lookup_lt_is_Some_2 (acr_uris d) j) as [raw Hraw]; [rewrite <- Hlen; by apply lookup_lt_Some in Hj|].
  destruct (Hc j raw Hraw) as (uri' & Hj' & Hcar). assert (uri' = uri) as -> by congruence.
  exists j, raw. split; [apply Hcar|]. rewrite <- (Hreg m d Hev). split; [done|]. by apply (context_row_carries _ _ j).
Qed.

(** What is registered has a row after the batch that says so. *)
Lemma batch_contexts_present uris_of events g rows metadata data i raw :
  as_registered uris_of events -> contexts_lossless uris_of g -> batch_rows (nodes g) events = Ok rows ->
  ParsedEvent.AtomContextRegistered metadata data ∈ events -> acr_uris data !! i = Some raw ->
  exists row, node_contexts (insert_rows rows g) !! context_key metadata data (Z.of_nat i) = Some row /\ row_carries raw row.
Proof.
  intros Hreg Hg Hr Hev Hi. destruct (batch_contexts _ _ _ Hr) as [_ Hto].
  destruct (Hto _ _ Hev) as (_ & uris & Hu & Hrow). destruct (project_uris_ok 0 _ _ Hu) as [_ Hc].
  destruct (Hc i raw Hi) as (uri & Huri & Ho & _). apply list_elem_of_lookup_2 in Huri.
  destruct (insert_all_has (gr_contexts rows) (node_contexts g) _ _ (Hrow uri Huri)) as [row Hrw].
  rewrite Ho in Hrw. cbn [Nat.add] in Hrw. exists row. split; [done|].
  destruct (batch_contexts_lossless _ _ _ _ Hreg Hg Hr _ _ _ _ _ Hrw) as (_ & j & raw' & Hj & Hraw & Hcar).
  apply Nat2Z.inj in Hj as <-. rewrite <- (Hreg _ _ Hev), Hi in Hraw. by injection Hraw as <-.
Qed.
End Projection.
End AtomContextDual.

(** ** Properties *)

Import AtomContextDual.

(** C31 (no byte of a URI is lost, and no context comes before its atom). A log position
    identifies one registration, so [uris_of] can say which URIs it holds; take events that
    say what the chain holds, delivered any number of times, and a table whose rows are
    those of registered URIs. Whatever calls fail, every row after the batch is that of a
    registered URI, at its position, for a term with a node: from its hex the URI's exact
    bytes decode, and the readable text is there exactly when they are valid UTF-8 without
    NUL. Rows that were there stay as they were, and all tables but contexts and events are
    as before. If the batch succeeds, every registration in it had the node of its atom and
    each of its URIs has such a row, whether this batch wrote it or an earlier one. *)
Theorem atom_context_lossless `{Encodings} {W} `{ReadPool KgGraph W} (graph : W -> KgGraph)
  (uris_of : string -> string -> Z -> list string) (events : list ParsedEvent) (w : W) (L : ReadLaws graph)
  (Hreg : as_registered uris_of events) (Hbefore : contexts_lossless uris_of (graph w)) :
  let '(r, w') := process_parsed_batch events w in
  contexts_lossless uris_of (graph w') /\ node_contexts (graph w) ⊆ node_contexts (graph w') /\
  nodes (graph w') = nodes (graph w) /\ accounts (graph w') = accounts (graph w) /\
  predicates (graph w') = predicates (graph w) /\ triples (graph w') = triples (graph w) /\
  (r = Ok tt -> forall metadata data, ParsedEvent.AtomContextRegistered metadata data ∈ events ->
     is_Some (nodes (graph w) !! acr_term_id data) /\
     forall i raw, acr_uris data !! i = Some raw -> exists row,
       node_contexts (graph w') !! context_key metadata data (Z.of_nat i) = Some row /\ row_carries raw row).
Proof.
  pose proof (context_batch_does graph L events w) as Hb. destruct (process_parsed_batch events w) as [r w'].
  destruct Hb as [Hb|[-> Hr]]; [|by split_and!]. rewrite batch_effect in Hb.
  apply res_bind_ok in Hb as (rows & Hr & Hg). injection Hg as <-.
  destruct (batch_rows_other _ _ _ Hr) as (A & B & C & D).
  split; [by apply (batch_contexts_lossless _ events)|]. cbn [insert_rows node_contexts nodes accounts predicates triples].
  rewrite A, B, C, D. split; [rewrite insert_all_union; apply map_union_subseteq_l|]. do 4 (split; [done|]). intros _ metadata data Hev. split.
  - exact (proj1 (proj2 (batch_contexts _ _ _ Hr) _ _ Hev)).
  - intros i raw Hi. by apply (batch_contexts_present uris_of events).
Qed.

(** ** A concrete graph *)

Definition demo_node : KgNode := {|
  kn_created_by := "0xc"; kn_raw_type := "string"; kn_classification_type := "Person"; kn_data := "hi";
  kn_data_hex := "0x6869"; kn_created_at := 0 |}.
Definition one_node : KgGraph := {|
  accounts := {["0xc" := ()]}; nodes := {["0x07" := demo_node]}; predicates := ∅; triples := ∅; events := ∅;
  node_contexts := ∅ |}.
#[local] Instance empty_context_graph : EmptyTables KgGraph :=
  {| accounts := ∅; nodes := ∅; predicates := ∅; triples := ∅; events := ∅; node_contexts := ∅ |}.
(** Two URIs: "ip:foo", and bytes that are not UTF-8, in upper-case hex. *)
Definition demo_uris : AtomContextRegisteredRecord :=
  {| acr_registrant := "0xr"; acr_term_id := "0x07"; acr_uris := ["0x69703a666f6f"; "0xFFFE"] |}.
Definition demo_context : ParsedEvent :=
  ParsedEvent.AtomContextRegistered (demo_metadata 1 "AtomContextRegistered") demo_uris.

#[local] Existing Instance demo_encodings.

Definition context_run (g : KgGraph) : result unit ProjectionError * demo KgGraph :=
  process_parsed_batch [demo_context] (demo_database g []).

Example context_rows_written :
  map (fun e => (snd (fst e), nc_uri_hex (snd e), nc_uri_text (snd e)))
    (map_to_list (node_contexts (demo_tables (snd (context_run one_node))))) =
    [(0, "0x69703a666f6f", Some "ip:foo"); (1, "0xfffe", None)].
Proof. vm_compute. reflexivity. Qed.

(** Without the node the batch waits. *)
Example context_waits :
  fst (context_run empty_tables) = Err (ProjectionError.Database RowNotFound) /\
  ProjectionError.classify (ProjectionError.Database RowNotFound) = ErrorClass.Transient.
Proof. split; vm_compute; reflexivity. Qed.

(** The registration is delivered twice. *)
Definition replayed : demo KgGraph := snd (process_parsed_batch [demo_context] (snd (context_run one_node))).
Definition demo_uris_of (term tx : string) (log : Z) : list string := acr_uris demo_uris.

Lemma atom_context_lossless_witness :
  let key := context_key (demo_metadata 1 "AtomContextRegistered") demo_uris 1 in
  exists row, node_contexts (demo_tables (snd (context_run one_node))) !! key = Some row /\ row_carries "0xFFFE" row /\
    node_contexts (demo_tables replayed) !! key = Some row.
Proof.
  cbv zeta. assert (Hreg : as_registered demo_uris_of [demo_context]).
  { intros m d Hin. apply list_elem_of_singleton in Hin. unfold demo_context in Hin.
    assert (d = demo_uris) as -> by congruence. reflexivity. }
  pose proof (atom_context_lossless demo_tables demo_uris_of [demo_context] (demo_database one_node []) demo_read_laws Hreg) as H1.
  assert (Hok : process_parsed_batch [demo_context] (demo_database one_node []) = (Ok tt, snd (context_run one_node)))
    by (vm_compute; reflexivity).
  rewrite Hok in H1.
  destruct H1 as (Hl & _ & _ & _ & _ & _ & Hall); [intros term tx log i row Hrow; vm_compute in Hrow; discriminate Hrow|].
  destruct (proj2 (Hall eq_refl _ _ (list_elem_of_here _ _)) 1%nat "0xFFFE" eq_refl) as (row & Hrow & Hcar).
  exists row. split; [exact Hrow|]. split; [exact Hcar|].
  pose proof (atom_context_lossless demo_tables demo_uris_of [demo_context] (snd (context_run one_node)) demo_read_laws Hreg Hl) as H2.
  unfold replayed. destruct (process_parsed_batch [demo_context] (snd (context_run one_node))) as [r w'].
  destruct H2 as (_ & Hsub & _). exact (lookup_weaken _ _ _ _ Hrow Hsub).
Defined.
