(* ===== verification/Ingestion.v ===== *)
(** * The event store and its typed tables

    [crates/rindexer-ingestion/src/storage.rs]: every decoded log is written, in one
    transaction, to [event_store], which numbers it, and to the table of its event
    type, which carries the number; the transactions are those of TxCode. [insert_typed] is the code the seven
    [insert_*_events] share, which differ in the columns and in the conflict key of
    their table. A row of a typed table is its sequence number and its columns. *)

From S2P Require Import Prelude Events Errors Retry WorkerWorld PgTx TxCode PgCommon DemoWorld DemoDatabase.

(** ** Rows *)

Record Envelope := {
  block_number : Z;
  block_timestamp : DateTime;
  block_hash : string;
  transaction_hash : string;
  log_index : Z
}.

Record EventRecord := { er_envelope : Envelope; er_event_type : string; er_event_data : Value }.

(** The numeric identifiers beside the hexadecimal ones of the shared records. *)
Record AtomCreatedTyped := { at_envelope : Envelope; at_term_id : BigDecimal; at_data : AtomCreatedRecord }.
Record AtomContextRegisteredTyped :=
  { ct_envelope : Envelope; ct_term_id : BigDecimal; ct_data : AtomContextRegisteredRecord }.
Record TripleCreatedTyped := {
  tt_envelope : Envelope; tt_term_id : BigDecimal; tt_subject_id : BigDecimal; tt_predicate_id : BigDecimal;
  tt_object_id : BigDecimal; tt_data : TripleCreatedRecord }.
Record DepositedTyped := { dt_envelope : Envelope; dt_term_id : BigDecimal; dt_data : DepositedRecord }.
Record RedeemedTyped := { rt_envelope : Envelope; rt_term_id : BigDecimal; rt_data : RedeemedRecord }.
Record SharePriceChangedTyped :=
  { pt_envelope : Envelope; pt_term_id : BigDecimal; pt_data : SharePriceChangedRecord }.
Record ProtocolFeeAccruedTyped := { ft_envelope : Envelope; ft_data : ProtocolFeeAccruedRecord }.

(** The unique constraint of [event_store] and of the hypertables, and the key of
    the plain typed tables. *)
Definition full_key (e : Envelope) : string * Z * DateTime :=
  (transaction_hash e, log_index e, block_timestamp e).
Definition short_key (e : Envelope) : string * Z := (transaction_hash e, log_index e).

Record StoreRow := { sr_sequence : Z; sr_record : EventRecord; sr_is_canonical : bool }.

Record IngestTables := {
  event_store : gmap (string * Z * DateTime) StoreRow;
  next_sequence : Z;   (* the next value of the [BIGSERIAL] *)
  atoms : gmap (string * Z) (Z * AtomCreatedTyped);
  contexts : gmap (string * Z) (Z * AtomContextRegisteredTyped);
  triples : gmap (string * Z) (Z * TripleCreatedTyped);
  deposits : gmap (string * Z * DateTime) (Z * DepositedTyped);
  redemptions : gmap (string * Z * DateTime) (Z * RedeemedTyped);
  prices : gmap (string * Z * DateTime) (Z * SharePriceChangedTyped);
  fees : gmap (string * Z) (Z * ProtocolFeeAccruedTyped)
}.

Definition with_store (s : gmap (string * Z * DateTime) StoreRow) (n : Z) (t : IngestTables) : IngestTables := {|
  event_store := s; next_sequence := n; atoms := atoms t; contexts := contexts t; triples := triples t;
  deposits := deposits t; redemptions := redemptions t; prices := prices t; fees := fees t |}.

(** The table of an event type: its conflict key and its place among the others. *)
Class TypedTable (R K : Type) `{Countable K} := {
  envelope : R -> Envelope;
  conflict_key : Envelope -> K;
  table : IngestTables -> gmap K (Z * R);
  set_table : gmap K (Z * R) -> IngestTables -> IngestTables;
  table_set m t : table (set_table m t) = m;
  store_set m t : event_store (set_table m t) = event_store t /\ next_sequence (set_table m t) = next_sequence t;
  set_same t : set_table (table t) t = t;
  set_set m m' t : set_table m (set_table m' t) = set_table m t;
  table_store s n t : table (with_store s n t) = table t;
  store_table s n m t : with_store s n (set_table m t) = set_table m (with_store s n t);
  key_of_full e e' : full_key e = full_key e' -> conflict_key e = conflict_key e'
}.

#[global] Instance atom_created_events : TypedTable AtomCreatedTyped (string * Z).
Proof.
  refine {| envelope := at_envelope; conflict_key := short_key; table := atoms; set_table m t := {|
    event_store := event_store t; next_sequence := next_sequence t; atoms := m; contexts := contexts t;
    triples := triples t; deposits := deposits t; redemptions := redemptions t; prices := prices t;
    fees := fees t |} |}; try done; [by intros []|]. unfold full_key, short_key. congruence.
Defined.
#[global] Instance atom_context_registered_events : TypedTable AtomContextRegisteredTyped (string * Z).
Proof.
  refine {| envelope := ct_envelope; conflict_key := short_key; table := contexts; set_table m t := {|
    event_store := event_store t; next_sequence := next_sequence t; atoms := atoms t; contexts := m;
    triples := triples t; deposits := deposits t; redemptions := redemptions t; prices := prices t;
    fees := fees t |} |}; try done; [by intros []|]. unfold full_key, short_key. congruence.
Defined.
#[global] Instance triple_created_events : TypedTable TripleCreatedTyped (string * Z).
Proof.
  refine {| envelope := tt_envelope; conflict_key := short_key; table := triples; set_table m t := {|
    event_store := event_store t; next_sequence := next_sequence t; atoms := atoms t; contexts := contexts t;
    triples := m; deposits := deposits t; redemptions := redemptions t; prices := prices t;
    fees := fees t |} |}; try done; [by intros []|]. unfold full_key, short_key. congruence.
Defined.
#[global] Instance deposited_events : TypedTable DepositedTyped (string * Z * DateTime).
Proof.
  refine {| envelope := dt_envelope; conflict_key := full_key; table := deposits; set_table m t := {|
    event_store := event_store t; next_sequence := next_sequence t; atoms := atoms t; contexts := contexts t;
    triples := triples t; deposits := m; redemptions := redemptions t; prices := prices t;
    fees := fees t |} |}; try done. by intros [].
Defined.
#[global] Instance redeemed_events : TypedTable RedeemedTyped (string * Z * DateTime).
Proof.
  refine {| envelope := rt_envelope; conflict_key := full_key; table := redemptions; set_table m t := {|
    event_store := event_store t; next_sequence := next_sequence t; atoms := atoms t; contexts := contexts t;
    triples := triples t; deposits := deposits t; redemptions := m; prices := prices t;
    fees := fees t |} |}; try done. by intros [].
Defined.
#[global] Instance share_price_changed_events : TypedTable SharePriceChangedTyped (string * Z * DateTime).
Proof.
  refine {| envelope := pt_envelope; conflict_key := full_key; table := prices; set_table m t := {|
    event_store := event_store t; next_sequence := next_sequence t; atoms := atoms t; contexts := contexts t;
    triples := triples t; deposits := deposits t; redemptions := redemptions t; prices := m;
    fees := fees t |} |}; try done. by intros [].
Defined.
#[global] Instance protocol_fee_accrued_events : TypedTable ProtocolFeeAccruedTyped (string * Z).
Proof.
  refine {| envelope := ft_envelope; conflict_key := short_key; table := fees; set_table m t := {|
    event_store := event_store t; next_sequence := next_sequence t; atoms := atoms t; contexts := contexts t;
    triples := triples t; deposits := deposits t; redemptions := redemptions t; prices := prices t;
    fees := m |} |}; try done; [by intros []|]. unfold full_key, short_key. congruence.
Defined.

(** ** Statements *)

(** One row of the [INSERT .. SELECT .. UNNEST]: the default of [sequence_number] is
    drawn before the conflict is found, so a conflicting row leaves a gap. *)
Definition store_event (e : EventRecord) (t : IngestTables) : IngestTables :=
  with_store
    (insert_new (full_key (er_envelope e))
       {| sr_sequence := next_sequence t; sr_record := e; sr_is_canonical := true |} (event_store t))
    (next_sequence t + 1) t.
Definition insert_event_store (chunk : list EventRecord) (t : IngestTables) : IngestTables :=
  fold_left (fun t e => store_event e t) chunk t.

(** The [JOIN] with the canonical rows: an input without one has no row in the answer. *)
Definition canonical_sequence (t : IngestTables) (k : string * Z * DateTime) : option Z :=
  row ← event_store t !! k; if sr_is_canonical row then Some (sr_sequence row) else None.
Definition join_sequences (chunk : list (string * Z * DateTime)) (t : IngestTables) : list Z :=
  omap (canonical_sequence t) chunk.

Definition insert_typed_rows {R K} `{TypedTable R K} (rows : list (Z * R)) (t : IngestTables) : IngestTables :=
  set_table (insert_all (map (fun row => (conflict_key (envelope (snd row)), row)) rows) (table t)) t.

Lemma length_omap_le {A B} (f : A -> option B) l : (length (omap f l) <= length l)%nat.
Proof. induction l as [|x l IH]; [done|]. unfold omap in *. cbn. destruct (f x); cbn; lia. Qed.

Lemma omap_all {A B} (f : A -> option B) l : (length l <= length (omap f l))%nat -> Forall2 (fun x y => f x = Some y) l (omap f l).
Proof.
  induction l as [|x l IH]; [by constructor|]. unfold omap in *. cbn.
  destruct (f x) as [y|] eqn:Hx; cbn; intros Hl.
  - constructor; [done|]. apply IH. lia.
  - pose proof (length_omap_le f l) as Hle. unfold omap in Hle. lia.
Qed.

Section Storage.
Context {W : Type} `{ReadPool IngestTables W} (bulk_chunk_size : nat).

Definition bulk_insert_event_store (events : list EventRecord) : tx_code IngestTables W unit :=
  if decide (bulk_chunk_size = 0%nat) then panic
  else for_each (fun chunk => run_statement (insert_event_store chunk)) (chunks bulk_chunk_size events).

(** [(0..n).step_by(size)]: the same chunks. *)
Fixpoint collect_sequences (chunked : list (list (string * Z * DateTime))) (all_seqs : list Z) : tx_code IngestTables W (list Z) :=
  match chunked with
  | [] => ret all_seqs
  | chunk :: chunked => bind (run_query (join_sequences chunk)) (fun rows => collect_sequences chunked (all_seqs ++ rows))
  end.
Definition fetch_sequence_numbers (keys : list (string * Z * DateTime)) : tx_code IngestTables W (list Z) :=
  if decide (bulk_chunk_size = 0%nat) then panic else collect_sequences (chunks bulk_chunk_size keys) [].

(** [seq_numbers[offset..offset + chunk.len()]] panics when it is out of range. *)
Fixpoint insert_typed_chunks {R K} `{TypedTable R K} (seq_numbers : list Z) (offset : nat) (chunked : list (list R))
    : tx_code IngestTables W unit :=
  match chunked with
  | [] => ret tt
  | chunk :: chunked =>
      if decide (offset + length chunk <= length seq_numbers)%nat then
        let seq_chunk := take (length chunk) (drop offset seq_numbers) in
        bind (run_statement (insert_typed_rows (zip seq_chunk chunk))) (fun _ =>
          insert_typed_chunks seq_numbers (offset + bulk_chunk_size) chunked)
      else panic
  end.

Definition write_typed {R K} `{TypedTable R K} (events : list EventRecord) (typed : list R) : tx_code IngestTables W unit :=
  bind (bulk_insert_event_store events) (fun _ =>
  bind (fetch_sequence_numbers (map (fun r => full_key (envelope r)) typed)) (fun seq_numbers =>
  insert_typed_chunks seq_numbers 0 (chunks bulk_chunk_size typed))).

Definition insert_typed {R K} `{TypedTable R K} (events : list EventRecord) (typed : list R) (w : W) : outcome unit * W :=
  match events with
  | [] => (Done tt, w)
  | _ => in_transaction (write_typed events typed) w
  end.

(** A single insert on the pool. *)
Definition insert_event (event : EventRecord) (w : W) : outcome unit * W :=
  let '(r, w) := commit_tx (store_event event) w in (match r with Ok _ => Done tt | Err e => Failed e end, w).

Definition insert_events_bulk (events : list EventRecord) (w : W) : outcome unit * W :=
  match events with
  | [] => (Done tt, w)
  | _ => in_transaction (bulk_insert_event_store events) w
  end.

Section Bodies.
Context (tables : W -> IngestTables) (L : ReadLaws tables) (Hsize : (0 < bulk_chunk_size)%nat).

Lemma bulk_insert_yields events :
  yields tables (bulk_insert_event_store events) (fun t => Some (tt, insert_event_store events t)).
Proof.
  unfold bulk_insert_event_store. rewrite decide_False by lia.
  eapply yields_ext; [|apply (yields_each _ L insert_event_store)].
  intros t. cbv beta. unfold insert_event_store. by rewrite fold_concat, chunks_concat.
Qed.

Lemma fetch_yields keys : yields tables (fetch_sequence_numbers keys) (fun t => Some (join_sequences keys t, t)).
Proof.
  unfold fetch_sequence_numbers. rewrite decide_False by lia.
  assert (Hc : forall chunked seqs, yields tables (collect_sequences chunked seqs)
    (fun t => Some (seqs ++ join_sequences (concat chunked) t, t))).
  { intros chunked. induction chunked as [|c chunked IH]; intros seqs; cbn [collect_sequences concat].
    { eapply yields_ext; [|apply yields_ret]. intros t. cbn. by rewrite app_nil_r. }
    eapply yields_ext; [|apply yields_bind; [by apply yields_query|intros rows; apply IH]].
    intros t. cbn. unfold join_sequences. by rewrite omap_app, app_assoc. }
  eapply yields_ext; [|apply Hc]. intros t. cbv beta. by rewrite chunks_concat.
Qed.

Lemma insert_rows_app {R K} `{TypedTable R K} (a b : list (Z * R)) t :
  insert_typed_rows (a ++ b) t = insert_typed_rows b (insert_typed_rows a t).
Proof. unfold insert_typed_rows. by rewrite table_set, set_set, map_app, !insert_all_union, list_to_map_app, (assoc_L (∪)). Qed.

Lemma typed_chunks_yields {R K} `{TypedTable R K} seqs fuel offset (l : list R) :
  (length l <= fuel)%nat -> l <> [] ->
  yields tables (insert_typed_chunks seqs offset (chunks_of fuel bulk_chunk_size l))
    (fun t => if decide (offset + length l <= length seqs)%nat
              then Some (tt, insert_typed_rows (zip (take (length l) (drop offset seqs)) l) t) else None).
Proof.
  revert offset l. induction fuel as [|fuel IH]; intros offset l Hl Hne; [by destruct l; [|cbn in Hl; lia]|].
  destruct l as [|r l]; [done|]. cbn [chunks_of insert_typed_chunks]. set (l0 := r :: l) in *.
  destruct (decide (length l0 <= bulk_chunk_size)%nat) as [Hle|Hgt].
  - rewrite (take_ge l0), (drop_ge l0) by done. case_decide as Hd; [|apply yields_panic].
    assert (Hrest : chunks_of fuel bulk_chunk_size (@nil R) = []) by (by destruct fuel). rewrite Hrest.
    eapply yields_ext; [|apply yields_bind; [by apply yields_statement|intros a; apply yields_ret]]. done.
  - assert (Hlen : length (take bulk_chunk_size l0) = bulk_chunk_size) by (rewrite length_take; lia).
    assert (Hdrop : length (drop bulk_chunk_size l0) = (length l0 - bulk_chunk_size)%nat) by apply length_drop.
    rewrite Hlen. case_decide as Hd.
    2: { eapply yields_ext; [|apply yields_panic]. intros t. rewrite decide_False by lia. done. }
    eapply yields_ext; [|apply yields_bind; [by apply yields_statement|intros a; apply IH]].
    + intros t. cbn. rewrite Hdrop. change (S (length l)) with (length l0).
      destruct (decide (offset + length l0 <= length seqs)%nat) as [Hd2|Hd2].
      * rewrite decide_True by lia. do 2 f_equal. rewrite <- insert_rows_app. f_equal.
        rewrite <- zip_with_app by (rewrite length_take, length_drop; lia).
        by rewrite take_drop, take_both by lia.
      * rewrite decide_False by lia. done.
    + rewrite Hdrop. cbn in Hl, Hgt. subst l0. cbn. lia.
    + intros Hnil. apply (f_equal length) in Hnil. cbn in Hnil. lia.
Qed.
End Bodies.

(** What a whole write does; [None] where the slice of the sequence numbers panics. *)
Definition written_tables {R K} `{TypedTable R K} (events : list EventRecord) (typed : list R) (t : IngestTables)
    : option IngestTables :=
  let t1 := insert_event_store events t in
  let seq_numbers := join_sequences (map (fun r => full_key (envelope r)) typed) t1 in
  if decide (length typed <= length seq_numbers)%nat
  then Some (insert_typed_rows (zip seq_numbers typed) t1) else None.

Lemma write_typed_yields {R K} `{TypedTable R K} (tables : W -> IngestTables) (L : ReadLaws tables)
    (Hsize : (0 < bulk_chunk_size)%nat) events (typed : list R) :
  yields tables (write_typed events typed) (fun t => t' ← written_tables events typed t; Some (tt, t')).
Proof.
  unfold write_typed.
  eapply yields_ext; [|apply yields_bind; [by apply bulk_insert_yields|intros a;
    apply yields_bind; [by apply fetch_yields|intros seqs]]].
  2: { instantiate (1 := fun seqs t => if decide (length typed <= length seqs)%nat
         then Some (tt, insert_typed_rows (zip (take (length typed) seqs) typed) t) else None).
       destruct typed as [|r typed].
       - eapply yields_ext; [|apply yields_ret]. intros t. cbn. unfold insert_typed_rows. cbn.
         rewrite zip_with_nil_r. cbn. by rewrite set_same.
       - pose proof (typed_chunks_yields tables L Hsize seqs _ 0 (r :: typed) (le_n _) ltac:(done)) as Hy.
         by rewrite drop_0 in Hy. }
  intros t. cbn. unfold written_tables. case_decide as Hd; [|done]. cbn. rewrite take_ge; [done|].
  unfold join_sequences. by rewrite length_omap_le, length_map.
Qed.

Definition insert_atom_created_events := @insert_typed AtomCreatedTyped _ _ _ _.
Definition insert_atom_context_registered_events := @insert_typed AtomContextRegisteredTyped _ _ _ _.
Definition insert_triple_created_events := @insert_typed TripleCreatedTyped _ _ _ _.
Definition insert_deposited_events := @insert_typed DepositedTyped _ _ _ _.
Definition insert_redeemed_events := @insert_typed RedeemedTyped _ _ _ _.
Definition insert_share_price_changed_events := @insert_typed SharePriceChangedTyped _ _ _ _.
Definition insert_protocol_fee_accrued_events := @insert_typed ProtocolFeeAccruedTyped _ _ _ _.
End Storage.

(** ** The rows a write adds *)

(** The rows of a batch, numbered from [n]. *)
Fixpoint numbered (n : Z) (events : list EventRecord) : list (string * Z * DateTime * StoreRow) :=
  match events with
  | [] => []
  | e :: events =>
      (full_key (er_envelope e), {| sr_sequence := n; sr_record := e; sr_is_canonical := true |})
        :: numbered (n + 1) events
  end.

Lemma insert_event_store_rows events t :
  insert_event_store events t =
  with_store (insert_all (numbered (next_sequence t) events) (event_store t))
    (next_sequence t + Z.of_nat (length events)) t.
Proof.
  unfold insert_event_store. revert t. induction events as [|e events IH]; intros t; cbn [fold_left numbered length].
  { destruct t. unfold with_store. cbn. by rewrite Z.add_0_r. }
  rewrite IH. unfold store_event, with_store, insert_all. cbn. f_equal. lia.
Qed.

Lemma numbered_elem n events k row : (k, row) ∈ numbered n events ->
  n <= sr_sequence row < n + Z.of_nat (length events) /\ sr_is_canonical row = true /\
  sr_record row ∈ events /\ k = full_key (er_envelope (sr_record row)).
Proof.
  revert n. induction events as [|e events IH]; intros n; cbn [numbered length].
  { by intros ?%not_elem_of_nil. }
  rewrite elem_of_cons. intros [[= -> ->]|Hin]; cbn.
  - split_and!; [lia|lia|done|by left|done].
  - destruct (IH _ Hin) as (? & ? & ? & ?). split_and!; [lia|lia|done|by right|done].
Qed.

Lemma numbered_keys n events e : e ∈ events -> exists row, (full_key (er_envelope e), row) ∈ numbered n events.
Proof.
  revert n. induction events as [|e1 events IH]; intros n; [by intros ?%not_elem_of_nil|].
  rewrite elem_of_cons. intros [->|Hin]; cbn [numbered]; [eexists; by left|].
  destruct (IH (n + 1) Hin) as [row ?]. exists row. by right.
Qed.

Section Written.
Context {R K : Type} `{TypedTable R K}.

(** What a batch has added when it is written. *)
Record written (events : list EventRecord) (typed : list R) (t t' : IngestTables) : Prop := {
  store_kept k row : event_store t !! k = Some row -> event_store t' !! k = Some row;
  store_new k row : event_store t' !! k = Some row -> event_store t !! k = Some row \/
    next_sequence t <= sr_sequence row < next_sequence t' /\ sr_is_canonical row = true /\
    sr_record row ∈ events /\ k = full_key (er_envelope (sr_record row));
  store_has e : e ∈ events -> is_Some (canonical_sequence t' (full_key (er_envelope e)));
  typed_kept k x : table t !! k = Some x -> table t' !! k = Some x;
  typed_new k s r : table t' !! k = Some (s, r) -> table t !! k = Some (s, r) \/
    r ∈ typed /\ k = conflict_key (envelope r) /\ canonical_sequence t' (full_key (envelope r)) = Some s;
  typed_has r : r ∈ typed -> is_Some (table t' !! conflict_key (envelope r))
}.

Definition paired (events : list EventRecord) (typed : list R) : Prop :=
  map (fun e => full_key (er_envelope e)) events = map (fun r => full_key (envelope r)) typed.

(** A row of a reorganised block is in the way. *)
Definition blocked (events : list EventRecord) (t : IngestTables) : Prop :=
  exists e row, e ∈ events /\ event_store t !! full_key (er_envelope e) = Some row /\ sr_is_canonical row = false.

#[export] Instance blocked_dec events t : Decision (blocked events t).
Proof.
  refine (cast_if (decide (Exists (fun e =>
    sr_is_canonical <$> event_store t !! full_key (er_envelope e) = Some false) events))).
  - apply Exists_exists in e as (e & He & Hc). apply fmap_Some in Hc as (row & ? & ?). by exists e, row.
  - intros (e & row & He & Hrow & Hc). apply n, Exists_exists. exists e. split; [done|]. rewrite Hrow. cbn. by rewrite Hc.
Defined.

Lemma canonical_after events t k :
  canonical_sequence (insert_event_store events t) k =
    match event_store t !! k with
    | Some row => if sr_is_canonical row then Some (sr_sequence row) else None
    | None => sr_sequence <$> (list_to_map (numbered (next_sequence t) events) : gmap _ StoreRow) !! k
    end.
Proof.
  rewrite insert_event_store_rows. unfold canonical_sequence. cbn. rewrite insert_all_union, lookup_union.
  destruct (event_store t !! k) as [row|]; cbn; [by rewrite union_Some_l|].
  destruct (list_to_map _ !! k) as [row|] eqn:Hk; [|done]. cbn.
  apply elem_of_list_to_map_2, numbered_elem in Hk as (_ & -> & _). done.
Qed.

Lemma blocked_canonical events t :
  ~ blocked events t -> forall e, e ∈ events ->
  is_Some (canonical_sequence (insert_event_store events t) (full_key (er_envelope e))).
Proof.
  intros Hb e He. rewrite canonical_after. destruct (event_store t !! _) as [row|] eqn:Hr.
  - destruct (sr_is_canonical row) eqn:Hc; [by eexists|]. destruct Hb. by exists e, row.
  - destruct (numbered_keys (next_sequence t) events e He) as [row Hin]. apply fmap_is_Some, elem_of_dom.
    rewrite dom_list_to_map_L. apply elem_of_list_to_set, list_elem_of_fmap. by exists (full_key (er_envelope e), row).
Qed.

Lemma paired_typed events typed r : paired events typed -> r ∈ typed ->
  exists e, e ∈ events /\ full_key (er_envelope e) = full_key (envelope r).
Proof.
  intros Hp Hr. assert (Hin : full_key (envelope r) ∈ map (fun e => full_key (er_envelope e)) events).
  { rewrite Hp. apply list_elem_of_fmap. by exists r. }
  apply list_elem_of_fmap in Hin as (e & Hk & He). by exists e.
Qed.

Lemma paired_event events typed e : paired events typed -> e ∈ events ->
  exists r, r ∈ typed /\ full_key (er_envelope e) = full_key (envelope r).
Proof.
  intros Hp He. assert (Hin : full_key (er_envelope e) ∈ map (fun r => full_key (envelope r)) typed).
  { rewrite <- Hp. apply list_elem_of_fmap. by exists e. }
  apply list_elem_of_fmap in Hin as (r & Hk & Hr). by exists r.
Qed.

Lemma canonical_table events t rows k :
  canonical_sequence (insert_typed_rows (R := R) rows (insert_event_store events t)) k =
  canonical_sequence (insert_event_store events t) k.
Proof. unfold canonical_sequence, insert_typed_rows. by rewrite (proj1 (store_set _ _)). Qed.

(** The slices are in range exactly when no event is blocked. *)
Lemma written_tables_some events typed t : paired events typed -> ~ blocked events t ->
  is_Some (written_tables events typed t).
Proof.
  intros Hp Hb. unfold written_tables. rewrite decide_True; [by eexists|].
  assert (Hall : forall r, r ∈ typed -> is_Some (canonical_sequence (insert_event_store events t) (full_key (envelope r)))).
  { intros r Hr. destruct (paired_typed events typed r Hp Hr) as (e & He & <-). by apply blocked_canonical. }
  clear Hp Hb. induction typed as [|r typed IH]; [cbn; lia|]. unfold join_sequences in *. unfold omap in *. cbn.
  destruct (Hall r ltac:(by left)) as [s ->]. cbn. apply le_n_S, IH. intros r' Hr'. apply Hall. by right.
Qed.

Lemma written_tables_spec events typed t t' : paired events typed -> written_tables events typed t = Some t' ->
  ~ blocked events t /\ written events typed t t'.
Proof.
  intros Hp. unfold written_tables. set (t1 := insert_event_store events t).
  case_decide as Hd; [|done]. intros [= <-].
  pose proof (omap_all (canonical_sequence t1) (map (fun r => full_key (envelope r)) typed)
    ltac:(by rewrite length_map)) as Hall. fold (join_sequences (map (fun r => full_key (envelope r)) typed) t1) in Hall.
  set (seqs := join_sequences _ t1) in *.
  assert (Hcan : forall r, r ∈ typed -> is_Some (canonical_sequence t1 (full_key (envelope r)))).
  { intros r Hr. assert (Hin : full_key (envelope r) ∈ map (fun r => full_key (envelope r)) typed)
      by (apply list_elem_of_fmap; by exists r).
    apply list_elem_of_lookup in Hin as [i Hi].
    destruct (Forall2_lookup_l _ _ _ _ _ Hall Hi) as (s & _ & Hs). by exists s. }
  assert (Hzip : forall s r, (s, r) ∈ zip seqs typed -> r ∈ typed /\ canonical_sequence t1 (full_key (envelope r)) = Some s).
  { intros s r Hin. apply list_elem_of_lookup in Hin as [i Hi].
    apply lookup_zip_with_Some in Hi as (s' & r' & [= <- <-] & Hs & Hr). split; [by eapply list_elem_of_lookup_2|].
    assert (Hk : map (fun r => full_key (envelope r)) typed !! i = Some (full_key (envelope r))) by (by rewrite list_lookup_fmap, Hr).
    destruct (Forall2_lookup_l _ _ _ _ _ Hall Hk) as (s' & Hs' & Hc). congruence. }
  assert (Hlen : length seqs = length typed) by (rewrite <- (Forall2_length _ _ _ Hall); apply length_map).
  split.
  { intros (e & row & He & Hrow & Hc). destruct (paired_event events typed e Hp He) as (r & Hr & Hk).
    destruct (Hcan r Hr) as [s Hs]. unfold t1 in Hs. rewrite canonical_after, <- Hk, Hrow, Hc in Hs. done. }
  assert (Hst : event_store (insert_typed_rows (zip seqs typed) t1) = insert_all (numbered (next_sequence t) events) (event_store t) /\
    next_sequence (insert_typed_rows (zip seqs typed) t1) = next_sequence t + Z.of_nat (length events)).
  { unfold insert_typed_rows. rewrite (proj1 (store_set _ _)), (proj2 (store_set _ _)). unfold t1.
    by rewrite insert_event_store_rows. }
  destruct Hst as [Hst Hn].
  assert (Htab : table (insert_typed_rows (zip seqs typed) t1) =
    insert_all (map (fun row => (conflict_key (envelope (snd row)), row)) (zip seqs typed)) (table t)).
  { unfold insert_typed_rows. rewrite table_set. unfold t1. by rewrite insert_event_store_rows, table_store. }
  split.
  - intros k row Hk. rewrite Hst. by apply insert_all_keeps.
  - intros k row. rewrite Hst, Hn. intros [?|Hin]%insert_all_from; [by left|right]. by apply numbered_elem in Hin.
  - intros e He. unfold t1. rewrite canonical_table. fold t1.
    destruct (paired_event events typed e Hp He) as (r & Hr & ->). by apply Hcan.
  - intros k x Hk. rewrite Htab. by apply insert_all_keeps.
  - intros k s r. rewrite Htab. intros [?|Hin]%insert_all_from; [by left|right].
    apply list_elem_of_fmap in Hin as ([s' r'] & [= -> <- <-] & Hin). cbn in *.
    destruct (Hzip s r Hin) as [? ?]. split_and!; try done. unfold t1. by rewrite canonical_table.
  - intros r Hr. rewrite Htab. apply list_elem_of_lookup in Hr as [i Hi].
    destruct (lookup_lt_is_Some_2 seqs i) as [s Hs]; [rewrite Hlen; by apply lookup_lt_Some in Hi|].
    apply (insert_all_has _ _ _ (s, r)). apply list_elem_of_fmap. exists (s, r). split; [done|].
    apply (list_elem_of_lookup_2 _ i). by apply lookup_zip_with_Some; exists s, r.
Qed.

(** No other table is written. *)
Lemma written_rest events typed t t' : written_tables events typed t = Some t' ->
  t' = set_table (table t') (with_store (event_store t') (next_sequence t') t).
Proof.
  unfold written_tables. case_decide; [|done]. intros [= <-]. unfold insert_typed_rows.
  by rewrite insert_event_store_rows, table_set, (proj1 (store_set _ _)), (proj2 (store_set _ _)).
Qed.

(** Writing a batch that is written changes only the counter. *)
Lemma written_again events typed t t' : paired events typed -> written_tables events typed t = Some t' ->
  exists t2, written_tables events typed t' = Some t2 /\ event_store t2 = event_store t' /\ table t2 = table t'.
Proof.
  intros Hp Hw. destruct (written_tables_spec events typed t t' Hp Hw) as [Hb Hok].
  assert (Hstore : event_store (insert_event_store events t') = event_store t').
  { rewrite insert_event_store_rows. cbn. apply insert_all_present. intros k row Hin.
    apply numbered_elem in Hin as (_ & _ & He & ->). destruct (store_has _ _ _ _ Hok _ He) as [s Hs].
    unfold canonical_sequence in Hs. by destruct (event_store t' !! _); [eexists|]. }
  destruct (written_tables_some events typed t' Hp) as [t2 Ht2].
  { intros (e & row & He & Hrow & Hc). destruct (store_has _ _ _ _ Hok _ He) as [s Hs].
    unfold canonical_sequence in Hs. rewrite Hrow in Hs. cbn in Hs. by rewrite Hc in Hs. }
  exists t2. split; [done|]. revert Ht2. unfold written_tables. case_decide; [|done]. intros [= <-].
  unfold insert_typed_rows. rewrite (proj1 (store_set _ _)), table_set. split; [done|].
  rewrite insert_event_store_rows at 2. rewrite table_store. apply insert_all_present.
  intros k x Hin. apply list_elem_of_fmap in Hin as ([s r] & [= -> ->] & Hin). cbn.
  apply list_elem_of_lookup in Hin as [i Hi]. apply lookup_zip_with_Some in Hi as (s' & r' & [= <- <-] & _ & Hr).
  apply (typed_has _ _ _ _ Hok). by eapply list_elem_of_lookup_2.
Qed.
End Written.

(** ** Invariants of the tables *)

(** Sequence numbers are unique and drawn already, and rows are where their keys say. *)
Record numbers_ok (t : IngestTables) : Prop := {
  number_drawn k row : event_store t !! k = Some row -> sr_sequence row < next_sequence t;
  number_unique k1 k2 r1 r2 : event_store t !! k1 = Some r1 -> event_store t !! k2 = Some r2 ->
    sr_sequence r1 = sr_sequence r2 -> k1 = k2;
  row_placed k row : event_store t !! k = Some row -> k = full_key (er_envelope (sr_record row))
}.

(** Every typed row carries the sequence number its event has in the store. *)
Definition aligned {R K} `{TypedTable R K} (t : IngestTables) : Prop :=
  forall k s r, table t !! k = Some (s, r) ->
    k = conflict_key (envelope r) /\ canonical_sequence t (full_key (envelope r)) = Some s.

Record ingest_ok (t : IngestTables) : Prop := {
  ingest_numbers : numbers_ok t;
  ingest_atoms : @aligned AtomCreatedTyped _ _ _ _ t;
  ingest_contexts : @aligned AtomContextRegisteredTyped _ _ _ _ t;
  ingest_triples : @aligned TripleCreatedTyped _ _ _ _ t;
  ingest_deposits : @aligned DepositedTyped _ _ _ _ t;
  ingest_redemptions : @aligned RedeemedTyped _ _ _ _ t;
  ingest_prices : @aligned SharePriceChangedTyped _ _ _ _ t;
  ingest_fees : @aligned ProtocolFeeAccruedTyped _ _ _ _ t
}.

Lemma store_event_numbers e t : numbers_ok t -> numbers_ok (store_event e t).
Proof.
  intros [Hd Hu Hp]. unfold store_event. split; cbn [event_store next_sequence with_store]; unfold insert_new.
  - intros k row. rewrite lookup_upsert. case_decide as Hk; [|intros Hr; specialize (Hd _ _ Hr); lia].
    intros [= <-]. destruct (event_store t !! _) as [r|] eqn:Hr; [specialize (Hd _ _ Hr); lia|cbn; lia].
  - intros k1 k2 r1 r2. rewrite !lookup_upsert. repeat case_decide; [by subst k1| | |by apply Hu].
    + intros [= <-] Hr. pose proof (Hd _ _ Hr). subst k1.
      destruct (event_store t !! full_key _) as [r|] eqn:Hr0; cbn; [by intros ?; eapply Hu|lia].
    + intros Hr [= <-]. pose proof (Hd _ _ Hr). subst k2.
      destruct (event_store t !! full_key _) as [r|] eqn:Hr0; cbn; [by intros ?; eapply Hu|lia].
  - intros k row. rewrite lookup_upsert. case_decide as Hk; [|by apply Hp]. intros [= <-]. subst k.
    destruct (event_store t !! _) as [r|] eqn:Hr; [by apply Hp|done].
Qed.

Lemma insert_event_store_numbers events t : numbers_ok t -> numbers_ok (insert_event_store events t).
Proof.
  unfold insert_event_store. revert t. induction events as [|e events IH]; intros t Ht; [done|].
  cbn. by apply IH, store_event_numbers.
Qed.

Lemma written_tables_numbers {R K} `{TypedTable R K} events (typed : list R) t t' :
  written_tables events typed t = Some t' -> numbers_ok t -> numbers_ok t'.
Proof.
  unfold written_tables. case_decide; [|done]. intros [= <-] Ht.
  destruct (insert_event_store_numbers events t Ht) as [Hd Hu Hp]. unfold insert_typed_rows.
  split; rewrite ?(proj1 (store_set _ _)), ?(proj2 (store_set _ _)); done.
Qed.

Lemma canonical_kept {R K} `{TypedTable R K} events (typed : list R) t t' k s :
  written events typed t t' -> canonical_sequence t k = Some s -> canonical_sequence t' k = Some s.
Proof.
  intros Hw. unfold canonical_sequence. destruct (event_store t !! k) as [row|] eqn:Hk; [|done].
  by rewrite (store_kept _ _ _ _ Hw _ _ Hk).
Qed.

Lemma aligned_same {R K} `{TypedTable R K} events (typed : list R) t t' :
  written events typed t t' -> @aligned R K _ _ _ t -> @aligned R K _ _ _ t'.
Proof.
  intros Hw Ha k s r Hk. destruct (typed_new _ _ _ _ Hw _ _ _ Hk) as [Hold|(_ & ? & ?)]; [|done].
  destruct (Ha _ _ _ Hold) as [? Hc]. split; [done|]. by eapply canonical_kept.
Qed.

Lemma aligned_other {R K R' K'} `{TypedTable R K} `{TypedTable R' K'} events (typed : list R) t t' :
  written events typed t t' -> @table R' K' _ _ _ t' = table t ->
  @aligned R' K' _ _ _ t -> @aligned R' K' _ _ _ t'.
Proof.
  intros Hw Ht Ha k s r. rewrite Ht. intros Hk. destruct (Ha _ _ _ Hk) as [? Hc]. split; [done|].
  exact (canonical_kept (R := R) _ _ _ _ _ _ Hw Hc).
Qed.

(** A batch of one of the seven event types. *)
Inductive Batch :=
  | AtomCreatedBatch (events : list EventRecord) (typed : list AtomCreatedTyped)
  | AtomContextRegisteredBatch (events : list EventRecord) (typed : list AtomContextRegisteredTyped)
  | TripleCreatedBatch (events : list EventRecord) (typed : list TripleCreatedTyped)
  | DepositedBatch (events : list EventRecord) (typed : list DepositedTyped)
  | RedeemedBatch (events : list EventRecord) (typed : list RedeemedTyped)
  | SharePriceChangedBatch (events : list EventRecord) (typed : list SharePriceChangedTyped)
  | ProtocolFeeAccruedBatch (events : list EventRecord) (typed : list ProtocolFeeAccruedTyped).

Definition batch_paired (b : Batch) : Prop :=
  match b with
  | AtomCreatedBatch es rs => paired es rs
  | AtomContextRegisteredBatch es rs => paired es rs
  | TripleCreatedBatch es rs => paired es rs
  | DepositedBatch es rs => paired es rs
  | RedeemedBatch es rs => paired es rs
  | SharePriceChangedBatch es rs => paired es rs
  | ProtocolFeeAccruedBatch es rs => paired es rs
  end.

Definition write_batch {W} `{ReadPool IngestTables W} (bulk_chunk_size : nat) (b : Batch) : W -> outcome unit * W :=
  match b with
  | AtomCreatedBatch es rs => insert_atom_created_events bulk_chunk_size es rs
  | AtomContextRegisteredBatch es rs => insert_atom_context_registered_events bulk_chunk_size es rs
  | TripleCreatedBatch es rs => insert_triple_created_events bulk_chunk_size es rs
  | DepositedBatch es rs => insert_deposited_events bulk_chunk_size es rs
  | RedeemedBatch es rs => insert_redeemed_events bulk_chunk_size es rs
  | SharePriceChangedBatch es rs => insert_share_price_changed_events bulk_chunk_size es rs
  | ProtocolFeeAccruedBatch es rs => insert_protocol_fee_accrued_events bulk_chunk_size es rs
  end.

(** The tables of the other types are not written. *)
Lemma other_table {R K R' K'} `{TypedTable R K} `{TypedTable R' K'} events (typed : list R) t t' :
  (forall m u, @table R' K' _ _ _ (@set_table R K _ _ _ m u) = @table R' K' _ _ _ u) ->
  written_tables events typed t = Some t' -> @table R' K' _ _ _ t' = table t.
Proof.
  intros Hdis. unfold written_tables. case_decide; [|done]. intros [= <-].
  unfold insert_typed_rows. rewrite Hdis, insert_event_store_rows. apply table_store.
Qed.

Lemma insert_typed_outcome {W} `{ReadPool IngestTables W} {R K} `{TypedTable R K} (tables : W -> IngestTables)
    (L : ReadLaws tables) size (Hsize : (0 < size)%nat) events (typed : list R) w :
  let '(o, w') := insert_typed size events typed w in
  match o with
  | Done _ => (events = [] /\ w' = w) \/ written_tables events typed (tables w) = Some (tables w')
  | Failed _ => tables w' = tables w \/ written_tables events typed (tables w) = Some (tables w')
  | Panicked => tables w' = tables w /\ written_tables events typed (tables w) = None
  end.
Proof.
  unfold insert_typed. destruct events as [|e events]; [by left|].
  pose proof (in_transaction_outcome tables L _ _ w (write_typed_yields size tables L Hsize (e :: events) typed)) as Ho.
  destruct (in_transaction _ w) as [[u|err|] w']; destruct (written_tables (e :: events) typed (tables w)) as [t'|]; cbn in Ho.
  - right. by injection Ho as _ ->.
  - done.
  - destruct Ho as [?|[a [= _ ->]]]; [by left|by right].
  - by destruct Ho as [?|[a ?]]; [left|].
  - by destruct Ho.
  - by destruct Ho as [? _].
Qed.

Lemma write_batch_ok {R K} `{TypedTable R K} events (typed : list R) t t' :
  paired events typed -> written_tables events typed t = Some t' ->
  (forall R' K' (E : EqDecision K') (C : Countable K') (T : TypedTable R' K'),
     @aligned R' K' _ _ T t -> (forall m u, @table R' K' _ _ T (@set_table R K _ _ _ m u) = @table R' K' _ _ T u) -> @aligned R' K' _ _ T t') /\
  (@aligned R K _ _ _ t -> @aligned R K _ _ _ t') /\ (numbers_ok t -> numbers_ok t').
Proof.
  intros Hp Hw. destruct (written_tables_spec events typed t t' Hp Hw) as [_ Hok]. split; [|split].
  - intros R' K' E C T Ha Hdis. refine (aligned_other (R := R) (R' := R') events typed t t' Hok _ Ha).
    exact (other_table (R := R) (R' := R') events typed t t' Hdis Hw).
  - by eapply aligned_same.
  - by eapply written_tables_numbers.
Qed.

Lemma empty_ingest_ok n : ingest_ok {| event_store := ∅; next_sequence := n; atoms := ∅; contexts := ∅;
  triples := ∅; deposits := ∅; redemptions := ∅; prices := ∅; fees := ∅ |}.
Proof. split; [split; cbn; intros *; by rewrite lookup_empty|..]; intros k s r; cbn; by rewrite lookup_empty. Qed.

(** ** Properties *)

(** C8 (a batch of logs is written once, whole, or not at all). Whatever calls fail and
    however the batch is cut into chunks: if the write succeeds, every event is in
    [event_store] under a fresh number or the one it had, its row is in the table of
    its type under the same number, and no older row has changed; if it fails,
    nothing is written or, when it was the commit that failed, all of it. It panics,
    writing nothing, only when an event of the batch is in the store as
    non-canonical, and then it never succeeds. *)
Theorem dual_write_outcome {W} `{ReadPool IngestTables W} {R K} `{TypedTable R K} (tables : W -> IngestTables)
  (size : nat) (events : list EventRecord) (typed : list R) (w : W)
  (L : ReadLaws tables) (Hsize : (0 < size)%nat) (Hne : events <> []) (Hpaired : paired events typed) :
  let t := tables w in
  let t' := tables (snd (insert_typed size events typed w)) in
  match fst (insert_typed size events typed w) with
  | Done _ => ~ blocked events t /\ written events typed t t'
  | Failed _ => t' = t \/ written events typed t t'
  | Panicked => t' = t /\ blocked events t
  end.
Proof.
  pose proof (insert_typed_outcome tables L size Hsize events typed w) as Ho. cbv zeta.
  destruct (insert_typed size events typed w) as [[u|e|] w']; cbn [fst snd].
  - destruct Ho as [[? _]|Hw]; [done|]. by apply written_tables_spec.
  - destruct Ho as [?|Hw]; [by left|right]. by apply (written_tables_spec events typed _ _ Hpaired).
  - destruct Ho as [? Hn]. split; [done|]. destruct (decide (blocked events (tables w))) as [?|Hb]; [done|].
    destruct (written_tables_some events typed (tables w) Hpaired Hb) as [t' Ht']. congruence.
Qed.

(** C28 (the books of ingestion). Whatever batch of one of the seven types is written
    and whatever fails, in tables where no sequence number is used twice and every row
    of a typed table carries the number of the canonical [event_store] row of the same
    log, as in empty tables, both are still so. *)
Theorem ingestion_keeps_books {W} `{ReadPool IngestTables W} (tables : W -> IngestTables) (size : nat)
  (b : Batch) (w : W)
  (L : ReadLaws tables) (Hsize : (0 < size)%nat) (Hpaired : batch_paired b) (Hok : ingest_ok (tables w)) :
  ingest_ok (tables (snd (write_batch size b w))).
Proof.
  assert (Hgo : forall (R K : Type) (E : EqDecision K) (C : Countable K) (T : TypedTable R K) es (rs : list R),
    paired es rs -> (forall t', written_tables es rs (tables w) = Some t' -> ingest_ok t') ->
    ingest_ok (tables (snd (insert_typed size es rs w)))).
  { intros R K E C T es rs Hp Hw. pose proof (insert_typed_outcome tables L size Hsize es rs w) as Ho.
    destruct (insert_typed size es rs w) as [[u|e|] w']; cbn [snd].
    - destruct Ho as [[_ ->]|Ho]; [done|by apply Hw].
    - destruct Ho as [->|Ho]; [done|by apply Hw].
    - by destruct Ho as [-> _]. }
  destruct Hok as [H0 H1 H2 H3 H4 H5 H6 H7].
  destruct b; cbn [write_batch batch_paired] in *; apply Hgo; try done; intros t' Hw;
    destruct (write_batch_ok _ _ _ _ Hpaired Hw) as (Ho & Hs & Hn);
    (split; [by apply Hn|..]; first [by apply Hs|by apply Ho]).
Qed.

(** ** Concrete tables *)

#[global] Instance empty_ingest : EmptyTables IngestTables := {|
  event_store := ∅; next_sequence := 1; atoms := ∅; contexts := ∅; triples := ∅; deposits := ∅;
  redemptions := ∅; prices := ∅; fees := ∅ |}.
Definition demo_envelope (i : Z) : Envelope := {|
  block_number := 100; block_timestamp := 1700; block_hash := "0xb"; transaction_hash := "0xt"; log_index := i |}.
Definition demo_fee_event (i : Z) : EventRecord :=
  {| er_envelope := demo_envelope i; er_event_type := "ProtocolFeeAccrued"; er_event_data := Null |}.
Definition demo_fee (i : Z) : ProtocolFeeAccruedTyped :=
  {| ft_envelope := demo_envelope i; ft_data := {| pfa_epoch := 1; pfa_sender := "0xs"; pfa_amount := i |} |}.
Definition demo_fees : list EventRecord * list ProtocolFeeAccruedTyped :=
  (map demo_fee_event [0; 1; 2], map demo_fee [0; 1; 2]).

(** Three fees in chunks of two, and again: the second write changes no row. *)
Definition fees_run (w : demo IngestTables) : outcome unit * demo IngestTables :=
  insert_protocol_fee_accrued_events 2 (fst demo_fees) (snd demo_fees) w.
Definition fees_once := fees_run (demo_database empty_tables []).
Definition fees_twice := fees_run (snd fees_once).

Example demo_fees_numbered :
  fst fees_once = Done tt /\ fst fees_twice = Done tt /\
  map (fun e => (snd (fst e), fst (snd e))) (map_to_list (fees (demo_tables (snd fees_once)))) =
    [(0, 1); (1, 2); (2, 3)] /\
  map_to_list (fees (demo_tables (snd fees_twice))) = map_to_list (fees (demo_tables (snd fees_once))) /\
  next_sequence (demo_tables (snd fees_twice)) = 7.
Proof. split_and!; vm_compute; reflexivity. Qed.

(** A row of a block that was reorganised away. *)
Definition reorganised : IngestTables :=
  with_store {[full_key (demo_envelope 1) :=
    {| sr_sequence := 1; sr_record := demo_fee_event 1; sr_is_canonical := false |}]} 2 empty_tables.

Example reorganised_panics :
  fst (insert_protocol_fee_accrued_events 2 (fst demo_fees) (snd demo_fees) (demo_database reorganised [])) = Panicked.
Proof. vm_compute. reflexivity. Qed.

Lemma dual_write_outcome_witness :
  reorganised = reorganised /\ blocked (fst demo_fees) reorganised.
Proof.
  exact (dual_write_outcome demo_tables 2 (fst demo_fees) (snd demo_fees) (demo_database reorganised [])
    demo_read_laws ltac:(lia) ltac:(discriminate) eq_refl).
Defined.

Lemma ingestion_keeps_books_witness :
  ingest_ok (demo_tables (snd (write_batch 2 (ProtocolFeeAccruedBatch (fst demo_fees) (snd demo_fees))
    (demo_database empty_tables [])))).
Proof.
  exact (ingestion_keeps_books demo_tables 2 (ProtocolFeeAccruedBatch (fst demo_fees) (snd demo_fees))
    (demo_database empty_tables []) demo_read_laws ltac:(lia) eq_refl (empty_ingest_ok 1)).
Defined.
