(* ===== verification/IngestHandlers.v ===== *)
(** * The ingestion handlers

    [crates/rindexer-ingestion/src/handlers.rs]: the callbacks rindexer hands the
    decoded logs of one event type to. A callback cuts them into sub-batches, turns
    each log into its two representations, the JSON payload of [event_store] and the
    typed row, and writes each sub-batch with the storage of Ingestion. Addresses and
    32-byte words are strings of bytes; how alloy prints them is a parameter. *)

From Stdlib Require Import Ascii.
From stdpp Require Import pretty.
From S2P Require Import Prelude MachineInt Text Events PgTx TxCode PgCommon EventSource DemoWorld DemoDatabase Ingestion.

(** What alloy and rindexer provide: the [Debug] form of an address and of a word. *)
Class AlloyFormat := {
  debug_address : string -> string;
  debug_b256 : string -> string
}.

Record TxInformation := {
  tx_block_number : Z;                       (* u64 *)
  block_timestamp_to_datetime : option DateTime;
  tx_block_hash : string;
  tx_transaction_hash : string;
  tx_log_index : Z                           (* U256 *)
}.

Record AtomCreatedData := { ac_creator' : string; ac_termId : string; ac_atomData : string; ac_atomWallet : string }.
Record AtomContextRegisteredData := { acr_registrant' : string; acr_termId : string; acr_uris' : list string }.
Record TripleCreatedData := {
  tc_creator' : string; tc_termId : string; tc_subjectId : string; tc_predicateId : string; tc_objectId : string }.
Record DepositedData := {
  dep_sender' : string; dep_receiver' : string; dep_termId : string; dep_curveId : Z; dep_assets' : Z;
  dep_assetsAfterFees : Z; dep_shares' : Z; dep_totalShares : Z; dep_vaultType : Z }.
Record RedeemedData := {
  red_sender' : string; red_receiver' : string; red_termId : string; red_curveId : Z; red_shares' : Z;
  red_totalShares : Z; red_assets' : Z; red_fees' : Z; red_vaultType : Z }.
Record SharePriceChangedData := {
  spc_termId : string; spc_curveId : Z; spc_sharePrice : Z; spc_totalAssets : Z; spc_totalShares : Z;
  spc_vaultType : Z }.
Record ProtocolFeeAccruedData := { pfa_epoch' : Z; pfa_sender' : string; pfa_amount' : Z }.

(** ** Helpers *)

(** [U256::from_be_bytes] *)
Fixpoint be_value (n : Z) (b : string) : Z :=
  match b with
  | EmptyString => n
  | String c b => be_value (256 * n + byte c) b
  end.
Definition from_be_bytes (b : string) : Z := be_value 0 b.

(** [BigDecimal::from_str(..).expect(..)] on the decimal text of an integer: it reads
    back the integer ([to_bd_to_string]), so the fields below hold the integer. *)
Definition to_bd (s : string) : option BigDecimal := natural s.
Definition b256_to_bd (b : string) : BigDecimal := from_be_bytes b.

Lemma to_bd_to_string (n : Z) : 0 <= n -> to_bd (pretty n) = Some n.
Proof. apply natural_pretty_nonneg. Qed.

(** [tx.block_number as i64] *)
Definition as_i64 (n : Z) : Z := if n <=? I64_MAX then n else n - 2 ^ 64.
(** [U256::to::<i32>()], which panics. *)
Definition to_i32 (n : Z) : option Z := if n <=? I32_MAX then Some n else None.

Section Handlers.
Context `{Encodings} `{AlloyFormat}.

Definition opaque_bytes_to_hex (bytes : string) : string := "0x" +:+ hex_encode bytes.

Definition envelope_of (tx : TxInformation) (block_ts : DateTime) (log_index : Z) : Envelope := {|
  block_number := as_i64 (tx_block_number tx); block_timestamp := block_ts;
  block_hash := debug_b256 (tx_block_hash tx); transaction_hash := debug_b256 (tx_transaction_hash tx);
  log_index := log_index |}.

(** ** The two representations of a log *)

Abbreviation decimal z := (VString (pretty (z : Z))).

Definition atom_created (event : AtomCreatedData) (env : Envelope) : EventRecord * AtomCreatedTyped :=
  let creator := debug_address (ac_creator' event) in
  let term_id_hex := debug_b256 (ac_termId event) in
  let atom_data := "0x" +:+ hex_encode (ac_atomData event) in
  let atom_wallet := debug_address (ac_atomWallet event) in
  ({| er_envelope := env; er_event_type := "AtomCreated";
      er_event_data := Object [("creator", VString creator); ("term_id", VString term_id_hex);
        ("atom_data", VString atom_data); ("atom_wallet", VString atom_wallet)] |},
   {| at_envelope := env; at_term_id := b256_to_bd (ac_termId event);
      at_data := {| ac_creator := creator; ac_term_id := term_id_hex; ac_atom_data := atom_data;
        ac_atom_wallet := atom_wallet |} |}).

Definition atom_context_registered (event : AtomContextRegisteredData) (env : Envelope)
    : EventRecord * AtomContextRegisteredTyped :=
  let registrant := debug_address (acr_registrant' event) in
  let term_id_hex := debug_b256 (acr_termId event) in
  let uris := map opaque_bytes_to_hex (acr_uris' event) in
  ({| er_envelope := env; er_event_type := "AtomContextRegistered";
      er_event_data := Object [("term_id", VString term_id_hex); ("registrant", VString registrant);
        ("uris", Array (map VString uris))] |},
   {| ct_envelope := env; ct_term_id := b256_to_bd (acr_termId event);
      ct_data := {| acr_registrant := registrant; acr_term_id := term_id_hex; acr_uris := uris |} |}).

Definition triple_created (event : TripleCreatedData) (env : Envelope) : EventRecord * TripleCreatedTyped :=
  let creator := debug_address (tc_creator' event) in
  let term_id_hex := debug_b256 (tc_termId event) in
  let subject_id_hex := debug_b256 (tc_subjectId event) in
  let predicate_id_hex := debug_b256 (tc_predicateId event) in
  let object_id_hex := debug_b256 (tc_objectId event) in
  ({| er_envelope := env; er_event_type := "TripleCreated";
      er_event_data := Object [("creator", VString creator); ("term_id", VString term_id_hex);
        ("subject_id", VString subject_id_hex); ("predicate_id", VString predicate_id_hex);
        ("object_id", VString object_id_hex)] |},
   {| tt_envelope := env; tt_term_id := b256_to_bd (tc_termId event);
      tt_subject_id := b256_to_bd (tc_subjectId event); tt_predicate_id := b256_to_bd (tc_predicateId event);
      tt_object_id := b256_to_bd (tc_objectId event);
      tt_data := {| tc_creator := creator; tc_term_id := term_id_hex; tc_subject_id := subject_id_hex;
        tc_predicate_id := predicate_id_hex; tc_object_id := object_id_hex |} |}).

Definition deposited (event : DepositedData) (env : Envelope) : EventRecord * DepositedTyped :=
  let sender := debug_address (dep_sender' event) in
  let receiver := debug_address (dep_receiver' event) in
  let term_id_hex := debug_b256 (dep_termId event) in
  ({| er_envelope := env; er_event_type := "Deposited";
      er_event_data := Object [("sender", VString sender); ("receiver", VString receiver);
        ("term_id", VString term_id_hex); ("curve_id", decimal (dep_curveId event));
        ("assets", decimal (dep_assets' event)); ("assets_after_fees", decimal (dep_assetsAfterFees event));
        ("shares", decimal (dep_shares' event)); ("total_shares", decimal (dep_totalShares event));
        ("vault_type", Number (pretty (dep_vaultType event)))] |},
   {| dt_envelope := env; dt_term_id := b256_to_bd (dep_termId event);
      dt_data := {| dep_sender := sender; dep_receiver := receiver; dep_term_id := term_id_hex;
        dep_curve_id := dep_curveId event; dep_assets := dep_assets' event;
        dep_assets_after_fees := dep_assetsAfterFees event; dep_shares := dep_shares' event;
        dep_total_shares := dep_totalShares event; dep_vault_type := dep_vaultType event |} |}).

Definition redeemed (event : RedeemedData) (env : Envelope) : EventRecord * RedeemedTyped :=
  let sender := debug_address (red_sender' event) in
  let receiver := debug_address (red_receiver' event) in
  let term_id_hex := debug_b256 (red_termId event) in
  ({| er_envelope := env; er_event_type := "Redeemed";
      er_event_data := Object [("sender", VString sender); ("receiver", VString receiver);
        ("term_id", VString term_id_hex); ("curve_id", decimal (red_curveId event));
        ("shares", decimal (red_shares' event)); ("total_shares", decimal (red_totalShares event));
        ("assets", decimal (red_assets' event)); ("fees", decimal (red_fees' event));
        ("vault_type", Number (pretty (red_vaultType event)))] |},
   {| rt_envelope := env; rt_term_id := b256_to_bd (red_termId event);
      rt_data := {| red_sender := sender; red_receiver := receiver; red_term_id := term_id_hex;
        red_curve_id := red_curveId event; red_shares := red_shares' event;
        red_total_shares := red_totalShares event; red_assets := red_assets' event;
        red_fees := red_fees' event; red_vault_type := red_vaultType event |} |}).

Definition share_price_changed (event : SharePriceChangedData) (env : Envelope)
    : EventRecord * SharePriceChangedTyped :=
  let term_id_hex := debug_b256 (spc_termId event) in
  ({| er_envelope := env; er_event_type := "SharePriceChanged";
      er_event_data := Object [("term_id", VString term_id_hex); ("curve_id", decimal (spc_curveId event));
        ("share_price", decimal (spc_sharePrice event)); ("total_assets", decimal (spc_totalAssets event));
        ("total_shares", decimal (spc_totalShares event));
        ("vault_type", Number (pretty (spc_vaultType event)))] |},
   {| pt_envelope := env; pt_term_id := b256_to_bd (spc_termId event);
      pt_data := {| spc_term_id := term_id_hex; spc_curve_id := spc_curveId event;
        spc_share_price := spc_sharePrice event; spc_total_assets := spc_totalAssets event;
        spc_total_shares := spc_totalShares event; spc_vault_type := spc_vaultType event |} |}).

Definition protocol_fee_accrued (event : ProtocolFeeAccruedData) (env : Envelope)
    : EventRecord * ProtocolFeeAccruedTyped :=
  let sender := debug_address (pfa_sender' event) in
  ({| er_envelope := env; er_event_type := "ProtocolFeeAccrued";
      er_event_data := Object [("epoch", decimal (pfa_epoch' event)); ("sender", VString sender);
        ("amount", decimal (pfa_amount' event))] |},
   {| ft_envelope := env;
      ft_data := {| pfa_epoch := pfa_epoch' event; pfa_sender := sender; pfa_amount := pfa_amount' event |} |}).

(** ** The callbacks *)

Context {W : Type} `{Clock W} `{ReadPool IngestTables W} (handler_chunk_size bulk_chunk_size : nat).

Definition timestamp_to_datetime (tx : TxInformation) (w : W) : DateTime * W :=
  match block_timestamp_to_datetime tx with
  | Some dt => (dt, w)
  | None => utc_now w
  end.

(** The loop over a sub-batch; [None] is the panic of [to_i32]. *)
Fixpoint convert_chunk {D R} (convert : D -> Envelope -> EventRecord * R) (chunk : list (TxInformation * D)) (w : W)
    : option (list EventRecord * list R) * W :=
  match chunk with
  | [] => (Some ([], []), w)
  | (tx, event) :: chunk =>
      let '(block_ts, w) := timestamp_to_datetime tx w in
      match to_i32 (tx_log_index tx) with
      | None => (None, w)
      | Some log_index =>
          let '(e, r) := convert event (envelope_of tx block_ts log_index) in
          let '(rest, w) := convert_chunk convert chunk w in
          match rest with
          | None => (None, w)
          | Some (events, typed) => (Some (e :: events, r :: typed), w)
          end
      end
  end.

Fixpoint handle_chunks {D R K} `{TypedTable R K} (convert : D -> Envelope -> EventRecord * R)
    (chunked : list (list (TxInformation * D))) (w : W) : outcome unit * W :=
  match chunked with
  | [] => (Done tt, w)
  | chunk :: chunked =>
      let '(converted, w) := convert_chunk convert chunk w in
      match converted with
      | None => (Panicked, w)
      | Some (events, typed) =>
          let '(o, w) := insert_typed bulk_chunk_size events typed w in
          match o with
          | Done _ => handle_chunks convert chunked w
          | Failed e => (Failed e, w)
          | Panicked => (Panicked, w)
          end
      end
  end.

Definition handler {D R K} `{TypedTable R K} (convert : D -> Envelope -> EventRecord * R)
    (results : list (TxInformation * D)) (w : W) : outcome unit * W :=
  match results with
  | [] => (Done tt, w)
  | _ => if decide (handler_chunk_size = 0%nat) then (Panicked, w)
         else handle_chunks convert (chunks handler_chunk_size results) w
  end.

Definition atom_created_handler := handler atom_created.
Definition atom_context_registered_handler := handler atom_context_registered.
Definition triple_created_handler := handler triple_created.
Definition deposited_handler := handler deposited.
Definition redeemed_handler := handler redeemed.
Definition share_price_changed_handler := handler share_price_changed.
Definition protocol_fee_accrued_handler := handler protocol_fee_accrued.
End Handlers.

(** ** Lemmas *)

(** A conversion keeps the envelope it is given. *)
Definition keeps_envelope {D R K} `{TypedTable R K} (convert : D -> Envelope -> EventRecord * R) : Prop :=
  forall d env, er_envelope (fst (convert d env)) = env /\ envelope (snd (convert d env)) = env.

Section Conversions.
Context `{Encodings} `{AlloyFormat}.

Lemma conversions_keep :
  keeps_envelope atom_created /\ keeps_envelope atom_context_registered /\ keeps_envelope triple_created /\
  keeps_envelope deposited /\ keeps_envelope redeemed /\ keeps_envelope share_price_changed /\
  keeps_envelope protocol_fee_accrued.
Proof. done. Qed.

(** The envelopes a log may be stored with: its own timestamp, or any when it has none. *)
Definition envelope_for (tx : TxInformation) (env : Envelope) : Prop :=
  exists ts i, to_i32 (tx_log_index tx) = Some i /\ env = envelope_of tx ts i /\
    (block_timestamp_to_datetime tx = Some ts \/ block_timestamp_to_datetime tx = None).

Context {W T : Type} `{Clock W} (tables : W -> T) (Hclock : clock_apart tables).

Lemma convert_chunk_rows {D R} (convert : D -> Envelope -> EventRecord * R) chunk w :
  let '(o, w') := convert_chunk convert chunk w in
  tables w' = tables w /\
  match o with
  | None => exists x, x ∈ chunk /\ to_i32 (tx_log_index (fst x)) = None
  | Some (events, typed) => exists envs, Forall2 (fun x env => envelope_for (fst x) env) chunk envs /\
      events = zip_with (fun x env => fst (convert (snd x) env)) chunk envs /\
      typed = zip_with (fun x env => snd (convert (snd x) env)) chunk envs
  end.
Proof.
  revert w. induction chunk as [|[tx event] chunk IH]; intros w; cbn [convert_chunk]; [by split; [|exists []]|].
  assert (Hts : exists ts w1, timestamp_to_datetime tx w = (ts, w1) /\ tables w1 = tables w /\
    (block_timestamp_to_datetime tx = Some ts \/ block_timestamp_to_datetime tx = None)).
  { unfold timestamp_to_datetime. destruct (block_timestamp_to_datetime tx) as [ts|]; [by exists ts, w; auto|].
    pose proof (Hclock w). destruct (utc_now w) as [ts w1]. exists ts, w1. auto. }
  destruct Hts as (ts & w1 & -> & Ht1 & Hts).
  destruct (to_i32 (tx_log_index tx)) as [i|] eqn:Hi; [|split; [done|]; exists (tx, event); split; [by left|done]].
  destruct (convert event _) as [e r] eqn:Hc. specialize (IH w1).
  destruct (convert_chunk convert chunk w1) as [[[events typed]|] w2]; destruct IH as [Ht2 IH]; (split; [by rewrite Ht2|]).
  - destruct IH as (envs & Hall & -> & ->). exists (envelope_of tx ts i :: envs). cbn. rewrite Hc. split_and!; try done.
    constructor; [|done]. by exists ts, i.
  - destruct IH as (x & Hx & Hn). exists x. split; [by right|done].
Qed.
End Conversions.

Lemma zip_with_elem {A B C} (f : A -> B -> C) l k z :
  z ∈ zip_with f l k -> exists x y, x ∈ l /\ y ∈ k /\ (x, y) ∈ zip l k /\ z = f x y.
Proof.
  intros Hz. apply list_elem_of_lookup in Hz as [i Hi]. apply lookup_zip_with_Some in Hi as (x & y & -> & Hx & Hy).
  exists x, y. split_and!; [by eapply list_elem_of_lookup_2..|  |done].
  apply (list_elem_of_lookup_2 _ i). apply lookup_zip_with_Some. eauto.
Qed.

Lemma chunks_from {A} n (l : list A) c x : c ∈ chunks n l -> x ∈ c -> x ∈ l.
Proof.
  unfold chunks. generalize (length l). intros fuel. revert l. induction fuel as [|fuel IH]; intros l; cbn.
  { by intros ?%not_elem_of_nil. }
  destruct l as [|y l]; [by intros ?%not_elem_of_nil|]. rewrite elem_of_cons. intros [->|Hc] Hx.
  - rewrite <- (take_drop n (y :: l)). apply elem_of_app. by left.
  - rewrite <- (take_drop n (y :: l)). apply elem_of_app. right. by apply IH.
Qed.

(** ** What a callback does *)

Section Delivery.
Context `{Encodings} `{AlloyFormat} {W : Type} `{Clock W} `{ReadPool IngestTables W} (tables : W -> IngestTables).
Context (L : ReadLaws tables) (Hclock : clock_apart tables).
Context {D R K : Type} `{TypedTable R K} (convert : D -> Envelope -> EventRecord * R) (Hkeeps : keeps_envelope convert).
Context (handler_chunk_size bulk_chunk_size : nat) (Hbulk : (0 < bulk_chunk_size)%nat).

Abbreviation records chunk envs := (zip_with (fun x env => fst (convert (snd x) env)) (chunk : list (TxInformation * D)) envs).
Abbreviation typed_rows chunk envs := (zip_with (fun x env => snd (convert (snd x) env)) (chunk : list (TxInformation * D)) envs).

(** The write of a sub-batch of logs all in [logs]. *)
Definition sub_batch (logs : list (TxInformation * D)) (t t' : IngestTables) : Prop :=
  exists chunk envs, (forall x, x ∈ chunk -> x ∈ logs) /\ Forall2 (fun x env => envelope_for (fst x) env) chunk envs /\
    written_tables (records chunk envs) (typed_rows chunk envs) t = Some t'.

Lemma records_paired chunk envs : paired (records chunk envs) (typed_rows chunk envs).
Proof.
  unfold paired. revert envs. induction chunk as [|x chunk IH]; intros [|env envs]; [done..|]. cbn.
  destruct (Hkeeps (snd x) env) as [-> ->]. f_equal. apply IH.
Qed.

Lemma zip_envelope chunk envs x env :
  Forall2 (fun (x : TxInformation * D) env => envelope_for (fst x) env) chunk envs ->
  (x, env) ∈ zip chunk envs -> envelope_for (fst x) env.
Proof.
  intros Hall Hin. apply list_elem_of_lookup in Hin as [i Hi].
  apply lookup_zip_with_Some in Hi as (x' & env' & [= <- <-] & Hx & He).
  by apply (Forall2_lookup_lr _ _ _ _ _ _ Hall Hx He).
Qed.

Lemma record_from chunk envs e : Forall2 (fun x env => envelope_for (fst x) env) chunk envs ->
  e ∈ records chunk envs -> exists x env, x ∈ chunk /\ envelope_for (fst x) env /\ e = fst (convert (snd x) env).
Proof. intros Hall (x & env & ? & _ & Hz & ->)%zip_with_elem. exists x, env. by pose proof (zip_envelope _ _ _ _ Hall Hz). Qed.

Lemma typed_from chunk envs r : Forall2 (fun x env => envelope_for (fst x) env) chunk envs ->
  r ∈ typed_rows chunk envs -> exists x env, x ∈ chunk /\ envelope_for (fst x) env /\ r = snd (convert (snd x) env).
Proof. intros Hall (x & env & ? & _ & Hz & ->)%zip_with_elem. exists x, env. by pose proof (zip_envelope _ _ _ _ Hall Hz). Qed.

Lemma records_has chunk envs x : Forall2 (fun x env => envelope_for (fst x) env) chunk envs -> x ∈ chunk ->
  exists env, envelope_for (fst x) env /\ fst (convert (snd x) env) ∈ records chunk envs /\
    snd (convert (snd x) env) ∈ typed_rows chunk envs.
Proof.
  intros Hall Hx. apply list_elem_of_lookup in Hx as [i Hx].
  destruct (Forall2_lookup_l _ _ _ _ _ Hall Hx) as (env & He & Hfor). exists env. split; [done|].
  split; apply (list_elem_of_lookup_2 _ i), lookup_zip_with_Some; eauto.
Qed.

(** The log has its two rows. *)
Definition stored (t : IngestTables) (x : TxInformation * D) : Prop :=
  exists env, envelope_for (fst x) env /\ is_Some (canonical_sequence t (full_key env)) /\
    is_Some (table t !! conflict_key env).

Lemma sub_batch_written logs t t' : sub_batch logs t t' -> exists chunk envs,
  (forall x, x ∈ chunk -> x ∈ logs) /\ Forall2 (fun x env => envelope_for (fst x) env) chunk envs /\
  written (records chunk envs) (typed_rows chunk envs) t t'.
Proof.
  intros (chunk & envs & Hin & Hall & Hw). exists chunk, envs. split_and!; try done.
  by apply (written_tables_spec _ _ _ _ (records_paired chunk envs)).
Qed.

Lemma stored_kept logs t t' x : sub_batch logs t t' -> stored t x -> stored t' x.
Proof.
  intros (chunk & envs & _ & _ & Hw)%sub_batch_written (env & Hfor & [s Hs] & [r Hr]). exists env. split; [done|].
  split; [exists s; by eapply canonical_kept|]. exists r. by apply (typed_kept _ _ _ _ Hw).
Qed.

(** The rows already there, and where new ones come from: a new row of the typed table
    has the number of the canonical row of its log. The other tables are not written. *)
Record extends (logs : list (TxInformation * D)) (t t' : IngestTables) : Prop := {
  ext_store k row : event_store t !! k = Some row -> event_store t' !! k = Some row;
  ext_typed k (row : Z * R) : table t !! k = Some row -> table t' !! k = Some row;
  ext_new k row : event_store t' !! k = Some row -> event_store t !! k = Some row \/
    exists x env, x ∈ logs /\ envelope_for (fst x) env /\ k = full_key env /\
      sr_record row = fst (convert (snd x) env) /\ sr_is_canonical row = true;
  ext_typed_new k s (r : R) : table t' !! k = Some (s, r) -> table t !! k = Some (s, r) \/
    exists x env, x ∈ logs /\ envelope_for (fst x) env /\ k = conflict_key env /\
      r = snd (convert (snd x) env) /\ canonical_sequence t' (full_key env) = Some s;
  ext_rest : t' = set_table (table t') (with_store (event_store t') (next_sequence t') t)
}.

Lemma extends_none logs t : extends logs t t.
Proof. split; auto. assert (E : with_store (event_store t) (next_sequence t) t = t) by by destruct t. by rewrite E, set_same. Qed.

Lemma canonical_stays t t' k s : (forall k row, event_store t !! k = Some row -> event_store t' !! k = Some row) ->
  canonical_sequence t k = Some s -> canonical_sequence t' k = Some s.
Proof.
  unfold canonical_sequence. intros Hk. destruct (event_store t !! k) as [row|] eqn:E; [|done]. by rewrite (Hk _ _ E).
Qed.

Lemma sub_batch_extends logs t t' : sub_batch logs t t' -> extends logs t t'.
Proof.
  intros (chunk & envs & Hin & Hall & Ht). pose proof (written_rest _ _ _ _ Ht) as Hrest.
  destruct (written_tables_spec _ _ _ _ (records_paired chunk envs) Ht) as [_ [W1 W2 _ W4 W5 _]].
  split; [done|done|..|done].
  - intros k row Hk. destruct (W2 k row Hk) as [?|(_ & Hc & He & ->)]; [by left|right].
    destruct (record_from _ _ _ Hall He) as (x & env & Hx & ? & E). exists x, env. rewrite E, (proj1 (Hkeeps _ _)). auto.
  - intros k s r Hk. destruct (W5 k s r Hk) as [?|(Hr & -> & Hc)]; [by left|right].
    destruct (typed_from _ _ _ Hall Hr) as (x & env & Hx & ? & ->). rewrite (proj2 (Hkeeps _ _)) in Hc |- *.
    exists x, env. auto.
Qed.

Lemma extends_trans logs t t1 t2 : extends logs t t1 -> extends logs t1 t2 -> extends logs t t2.
Proof.
  intros [A1 A2 A3 A4 A5] [B1 B2 B3 B4 B5]. split; auto.
  - intros k row Hk. destruct (B3 k row Hk) as [Hk1|?]; [|by right]. by apply A3.
  - intros k s r Hk. destruct (B4 k s r Hk) as [Hk1|?]; [|by right].
    destruct (A4 k s r Hk1) as [?|(x & env & ? & ? & ? & ? & Hc)]; [by left|right].
    exists x, env. split_and!; try done. by eapply canonical_stays.
  - rewrite B5 at 1. rewrite A5. rewrite store_table, set_set. done.
Qed.

Lemma sub_batches_extend logs t t' : rtc (sub_batch logs) t t' -> extends logs t t'.
Proof.
  induction 1 as [t|t t1 t2 Hone _ IH]; [apply extends_none|]. eapply extends_trans; [by apply sub_batch_extends|done].
Qed.

Lemma sub_batches_stored logs t t' x : rtc (sub_batch logs) t t' -> stored t x -> stored t' x.
Proof. induction 1 as [t|t t1 t2 Hone _ IH]; [done|]. intros Hs. by eapply IH, stored_kept. Qed.

(** Why a callback may panic. *)
Definition stuck (t : IngestTables) (x : TxInformation * D) : Prop :=
  to_i32 (tx_log_index (fst x)) = None \/
  exists env row, envelope_for (fst x) env /\ event_store t !! full_key env = Some row /\ sr_is_canonical row = false.

Lemma chunk_step logs chunk w : (forall x, x ∈ chunk -> x ∈ logs) ->
  let '(converted, w1) := convert_chunk convert chunk w in
  match converted with
  | None => tables w1 = tables w /\ exists x, x ∈ logs /\ stuck (tables w) x
  | Some (events, typed) =>
      let '(o, w2) := insert_typed bulk_chunk_size events typed w1 in
      rtc (sub_batch logs) (tables w) (tables w2) /\
      match o with
      | Done _ => forall x, x ∈ chunk -> stored (tables w2) x
      | Failed _ => True
      | Panicked => exists x, x ∈ logs /\ stuck (tables w2) x
      end
  end.
Proof.
  intros Hin. pose proof (convert_chunk_rows tables Hclock convert chunk w) as Hc.
  destruct (convert_chunk convert chunk w) as [[[events typed]|] w1]; destruct Hc as [Ht Hc].
  2: { destruct Hc as (x & Hx & Hn). split; [done|]. exists x. split; [by apply Hin|by left]. }
  destruct Hc as (envs & Hall & -> & ->).
  pose proof (insert_typed_outcome tables L bulk_chunk_size Hbulk (records chunk envs) (typed_rows chunk envs) w1) as Ho.
  destruct (insert_typed _ _ _ w1) as [o w2]. rewrite Ht in Ho.
  assert (Hstep : forall t', written_tables (records chunk envs) (typed_rows chunk envs) (tables w) = Some t' ->
    rtc (sub_batch logs) (tables w) t') by (intros t' Hw; apply rtc_once; by exists chunk, envs).
  destruct o as [u|e|].
  - destruct Ho as [[Hnil ->]|Hw].
    { rewrite Ht. split; [done|]. intros x Hx. exfalso. destruct (records_has _ _ _ Hall Hx) as (env & _ & He & _).
      rewrite Hnil in He. by apply not_elem_of_nil in He. }
    split; [by apply Hstep|]. intros x Hx. destruct (records_has _ _ _ Hall Hx) as (env & Hfor & He & Hr).
    destruct (written_tables_spec _ _ _ _ (records_paired chunk envs) Hw) as [_ [_ _ W3 _ _ W6]].
    specialize (W3 _ He). specialize (W6 _ Hr). destruct (Hkeeps (snd x) env) as [Heq1 Heq2].
    rewrite Heq1 in W3. rewrite Heq2 in W6. by exists env.
  - split; [|done]. destruct Ho as [->|Hw]; [done|by apply Hstep].
  - destruct Ho as [-> Hnone]. split; [done|].
    destruct (decide (blocked (records chunk envs) (tables w))) as [(e & row & He & Hrow & Hcan)|Hb].
    + destruct (record_from _ _ _ Hall He) as (x & env & Hx & Hfor & ->). exists x. split; [by apply Hin|right].
      rewrite (proj1 (Hkeeps _ _)) in Hrow. by exists env, row.
    + destruct (written_tables_some _ _ _ (records_paired chunk envs) Hb) as [t' Ht']. congruence.
Qed.

Lemma handle_chunks_steps logs chunked w : (forall c x, c ∈ chunked -> x ∈ c -> x ∈ logs) ->
  let '(o, w') := handle_chunks bulk_chunk_size convert chunked w in
  rtc (sub_batch logs) (tables w) (tables w') /\
  match o with
  | Done _ => forall c x, c ∈ chunked -> x ∈ c -> stored (tables w') x
  | Failed _ => True
  | Panicked => exists x, x ∈ logs /\ stuck (tables w') x
  end.
Proof.
  revert w. induction chunked as [|chunk chunked IH]; intros w Hin; cbn [handle_chunks].
  { split; [done|]. by intros c x ?%not_elem_of_nil. }
  pose proof (chunk_step logs chunk w ltac:(intros x Hx; eapply Hin; [by left|done])) as Hs.
  destruct (convert_chunk convert chunk w) as [[[events typed]|] w1].
  2: { destruct Hs as [-> Hs]. by split. }
  destruct (insert_typed bulk_chunk_size events typed w1) as [o w2]. destruct Hs as [Hrtc Hs].
  destruct o as [u|e|]; [|done..].
  specialize (IH w2 ltac:(intros c x Hc Hx; eapply Hin; [by right|done])).
  destruct (handle_chunks bulk_chunk_size convert chunked w2) as [o w3]. destruct IH as [Hrtc2 Ho].
  split; [by etransitivity|]. destruct o as [v|e|]; [|done..].
  intros c x [->|Hc]%elem_of_cons Hx; [by eapply sub_batches_stored, Hs|by eapply Ho].
Qed.

Lemma handler_steps results w :
  (0 < handler_chunk_size)%nat ->
  let '(o, w') := handler handler_chunk_size bulk_chunk_size convert results w in
  rtc (sub_batch results) (tables w) (tables w') /\
  match o with
  | Done _ => forall x, x ∈ results -> stored (tables w') x
  | Failed _ => True
  | Panicked => exists x, x ∈ results /\ stuck (tables w') x
  end.
Proof.
  intros Hsize. unfold handler. destruct results as [|y results]; [by split; [|intros x ?%not_elem_of_nil]|].
  rewrite decide_False by lia. set (l := y :: results).
  pose proof (handle_chunks_steps l (chunks handler_chunk_size l) w (fun c x => chunks_from _ _ c x)) as Hs.
  destruct (handle_chunks _ _ _ w) as [o w']. destruct Hs as [? Ho]. split; [done|].
  destruct o as [u|e|]; [|done..]. intros x Hx. rewrite <- (chunks_concat handler_chunk_size l Hsize) in Hx.
  apply list_elem_of_In, in_concat in Hx as (c & Hc & Hx). apply list_elem_of_In in Hc, Hx. by eapply Ho.
Qed.
End Delivery.

(** ** Bounds *)

Lemma byte_bounds c : 0 <= byte c < 256.
Proof. unfold byte. pose proof (N_ascii_bounded c). lia. Qed.

Lemma be_value_bounds b n : 0 <= n -> n * 256 ^ Z.of_nat (String.length b) <= be_value n b < (n + 1) * 256 ^ Z.of_nat (String.length b).
Proof.
  revert n. induction b as [|c b IH]; intros n Hn; cbn [be_value String.length]; [lia|].
  pose proof (byte_bounds c). specialize (IH (256 * n + byte c) ltac:(lia)).
  rewrite Nat2Z.inj_succ, Z.pow_succ_r by lia. nia.
Qed.

Lemma be_value_inj b1 b2 n1 n2 : 0 <= n1 -> 0 <= n2 -> String.length b1 = String.length b2 ->
  be_value n1 b1 = be_value n2 b2 -> n1 = n2 /\ b1 = b2.
Proof.
  revert b2 n1 n2. induction b1 as [|c1 b1 IH]; intros [|c2 b2] n1 n2 Hn1 Hn2 Hl Hv; try done.
  cbn in Hl, Hv. pose proof (byte_bounds c1). pose proof (byte_bounds c2).
  destruct (IH b2 (256 * n1 + byte c1) (256 * n2 + byte c2)) as [Hn ->]; try lia.
  assert (n1 = n2 /\ byte c1 = byte c2) as [-> Hc] by lia. split; [done|]. f_equal.
  rewrite <- (ascii_N_embedding c1), <- (ascii_N_embedding c2). f_equal. unfold byte in Hc. lia.
Qed.

(** ** Properties *)

(** Numeric identifiers. The number a 32-byte identifier is stored under in the
    typed tables fits in 256 bits, and two identifiers share a number only when they
    are the same bytes. *)
Theorem numeric_ids_exact (b1 b2 : string)
  (Hlen1 : String.length b1 = 32%nat) (Hlen2 : String.length b2 = 32%nat) :
  0 <= b256_to_bd b1 <= U256_MAX /\ (b256_to_bd b1 = b256_to_bd b2 <-> b1 = b2).
Proof.
  unfold b256_to_bd, from_be_bytes. split.
  - pose proof (be_value_bounds b1 0 ltac:(lia)) as Hb. rewrite Hlen1 in Hb. cbn in Hb. unfold U256_MAX. lia.
  - split; [|by intros ->]. intros Hv. by apply (be_value_inj b1 b2 0 0) in Hv as [_ ?]; try lia.
Qed.

(** Delivery of decoded logs. A callback never changes a row that is there, and adds
    only what the logs it was given convert to, whatever fails and wherever it stops.
    If it succeeds, every log has a canonical [event_store] row and a row of its typed
    table; it panics only when a log's index does not fit in 32 bits or a log is in the
    store as non-canonical. *)
Theorem handler_delivers `{AlloyFormat} {W} `{Clock W} `{ReadPool IngestTables W}
  (tables : W -> IngestTables) {D R K} `{TypedTable R K} (convert : D -> Envelope -> EventRecord * R)
  (handler_chunk_size bulk_chunk_size : nat) (results : list (TxInformation * D)) (w : W)
  (L : ReadLaws tables) (Hclock : clock_apart tables) (Hkeeps : keeps_envelope convert)
  (Hsize : (0 < handler_chunk_size)%nat) (Hbulk : (0 < bulk_chunk_size)%nat) :
  let '(o, w') := handler handler_chunk_size bulk_chunk_size convert results w in
  extends convert results (tables w) (tables w') /\
  match o with
  | Done _ => forall x, x ∈ results -> stored (tables w') x
  | Failed _ => True
  | Panicked => exists x, x ∈ results /\ stuck (tables w') x
  end.
Proof.
  pose proof (handler_steps tables L Hclock convert Hkeeps handler_chunk_size bulk_chunk_size Hbulk results w Hsize) as Hs.
  destruct (handler _ _ convert results w) as [o w']. destruct Hs as [Hr Ho]. split; [|done].
  by apply sub_batches_extend.
Qed.

(** ** Concrete logs *)

#[global] Instance demo_alloy : AlloyFormat := {|
  debug_address a := "0x" +:+ demo_hex_encode a; debug_b256 b := "0x" +:+ demo_hex_encode b |}.
#[global] Instance demo_ingest_clock : Clock (demo IngestTables) := {| utc_now w := (0, w) |}.

Lemma demo_clock_apart : clock_apart (@demo_tables IngestTables _).
Proof. by intros w. Qed.

Definition demo_log (i : Z) : TxInformation := {|
  tx_block_number := 100; block_timestamp_to_datetime := Some 1700; tx_block_hash := "b"; tx_transaction_hash := "t";
  tx_log_index := i |}.
Definition demo_fee_log (i : Z) : TxInformation * ProtocolFeeAccruedData :=
  (demo_log i, {| pfa_epoch' := 1; pfa_sender' := "s"; pfa_amount' := 7 |}).

Definition zero_word : string := String.concat "" (repeat (String "000" "") 32).
Definition one_word : string := String.concat "" (repeat (String "000" "") 31 ++ [String "001" ""]).

Lemma numeric_ids_exact_witness : 0 <= b256_to_bd zero_word <= U256_MAX /\ (b256_to_bd zero_word = b256_to_bd one_word <-> zero_word = one_word).
Proof. exact (numeric_ids_exact zero_word one_word eq_refl eq_refl). Defined.

Definition fee_logs_run (w : demo IngestTables) : outcome unit * demo IngestTables :=
  protocol_fee_accrued_handler 2 1 (map demo_fee_log [0; 1; 2]) w.

Lemma handler_delivers_witness :
  fst (fee_logs_run (demo_database empty_tables [])) = Done tt /\
  let '(o, w') := fee_logs_run (demo_database empty_tables []) in
  extends protocol_fee_accrued (map demo_fee_log [0; 1; 2]) empty_tables (demo_tables w') /\
  match o with
  | Done _ => forall x, x ∈ map demo_fee_log [0; 1; 2] -> stored (demo_tables w') x
  | Failed _ => True
  | Panicked => exists x, x ∈ map demo_fee_log [0; 1; 2] /\ stuck (demo_tables w') x
  end.
Proof.
  split; [vm_compute; reflexivity|].
  exact (handler_delivers demo_tables protocol_fee_accrued 2 1 (map demo_fee_log [0; 1; 2])
    (demo_database empty_tables []) demo_read_laws demo_clock_apart (fun d env => conj eq_refl eq_refl) ltac:(lia) ltac:(lia)).
Defined.
