(* ===== verification/IngestRead.v ===== *)
(** * Reading what ingestion wrote

    The two event readers of EventSource over the tables of Ingestion: after any
    deliveries of decoded logs to the callbacks of IngestHandlers, reading the
    monolithic table and reading the typed ones gives the same events. The
    generated columns [term_id] and [entity_id] of [event_store] are those of
    [migrations/timescale/001_create_event_store.sql]. *)

From stdpp Require Import pretty.
From S2P Require Import Prelude Text Events PgTx TxCode PgCommon EventSource DemoWorld DemoDatabase Ingestion IngestHandlers.

(** ** What the readers see *)

(** [event_data->>'key'] of a payload: the handlers put texts under these keys. *)
Definition text_field (key : string) (v : Value) : option string :=
  match v with
  | Object fields => match snd <$> list_find (fun f => fst f = key) fields with
                     | Some (_, VString s) => Some s
                     | _ => None
                     end
  | _ => None
  end.

Definition generated_entity_id (event_type : string) (v : Value) : option string :=
  if decide (event_type ∈ ["Deposited"; "AtomCreated"]) then text_field "receiver" v
  else if decide (event_type = "Redeemed") then text_field "sender" v else None.

Definition stored_event (ingested_at : Z -> DateTime) (row : StoreRow) : StoredEvent :=
  let r := sr_record row in
  let env := er_envelope r in {|
  StoredEvent.sequence_number := sr_sequence row;
  StoredEvent.block_number := block_number env;
  StoredEvent.block_timestamp := block_timestamp env;
  StoredEvent.block_hash := block_hash env;
  StoredEvent.transaction_hash := transaction_hash env;
  StoredEvent.log_index := log_index env;
  StoredEvent.event_type := er_event_type r;
  StoredEvent.event_data := er_event_data r;
  StoredEvent.term_id := text_field "term_id" (er_event_data r);
  StoredEvent.entity_id := generated_entity_id (er_event_type r) (er_event_data r);
  StoredEvent.is_canonical := sr_is_canonical row;
  StoredEvent.ingested_at := ingested_at (sr_sequence row)
|}.

Definition store_view (ingested_at : Z -> DateTime) (t : IngestTables) : list StoredEvent :=
  map (fun kv => stored_event ingested_at (snd kv)) (map_to_list (event_store t)).

Definition typed_row_of {A} (s : Z) (env : Envelope) (d : A) : TypedRow A := {|
  row_sequence_number := s; row_block_number := block_number env; row_block_timestamp := block_timestamp env;
  row_block_hash := block_hash env; row_transaction_hash := transaction_hash env; row_log_index := log_index env;
  row_data := d |}.

Definition rows_of {R K A} `{TypedTable R K} (data : R -> A) (t : IngestTables) : list (TypedRow A) :=
  map (fun row => typed_row_of (fst row) (envelope (snd row)) (data (snd row))) (map snd (map_to_list (table t))).

Definition typed_view (t : IngestTables) : TypedTables := {|
  EventSource.atom_created_events := rows_of at_data t;
  EventSource.atom_context_registered_events := rows_of ct_data t;
  EventSource.triple_created_events := rows_of tt_data t;
  EventSource.deposited_events := rows_of dt_data t;
  EventSource.redeemed_events := rows_of rt_data t;
  EventSource.share_price_changed_events := rows_of pt_data t;
  EventSource.protocol_fee_accrued_events := rows_of ft_data t
|}.

(** Payloads are compared up to the order of their fields. *)
Definition same_fields (v v' : Value) : Prop :=
  match v, v' with
  | Object f, Object f' => f ≡ₚ f'
  | _, _ => v = v'
  end.

(** The columns the projections read; [entity_id] and [ingested_at] differ. *)
Record same_read (e e' : StoredEvent) : Prop := {
  same_sequence : seq e = seq e';
  same_envelope : (StoredEvent.block_number e, StoredEvent.block_timestamp e, StoredEvent.block_hash e,
      StoredEvent.transaction_hash e, StoredEvent.log_index e) =
    (StoredEvent.block_number e', StoredEvent.block_timestamp e', StoredEvent.block_hash e',
      StoredEvent.transaction_hash e', StoredEvent.log_index e');
  same_type : StoredEvent.event_type e = StoredEvent.event_type e';
  same_data : same_fields (StoredEvent.event_data e) (StoredEvent.event_data e');
  same_term : StoredEvent.term_id e = StoredEvent.term_id e';
  same_canonical : StoredEvent.is_canonical e = StoredEvent.is_canonical e'
}.

(** ** Reading matched tables *)

Section Matched.
Context (R : StoredEvent -> StoredEvent -> Prop) (HR : forall x y, R x y -> seq x = seq y).

Lemma sorted_matched l1 l2 :
  sorted l1 -> sorted l2 -> unique_seqs l1 -> unique_seqs l2 ->
  (forall x, x ∈ l1 -> exists y, y ∈ l2 /\ R x y) -> (forall y, y ∈ l2 -> exists x, x ∈ l1 /\ R x y) ->
  Forall2 R l1 l2.
Proof.
  assert (Hhead : forall x l y, sorted (x :: l) -> y ∈ x :: l -> seq x <= seq y).
  { intros x l y Hs [->|Hy]%elem_of_cons; [lia|]. apply StronglySorted_inv in Hs as [_ Hs].
    rewrite Forall_forall in Hs. by apply Hs. }
  assert (Hone : forall x y l, unique_seqs l -> x ∈ l -> y ∈ l -> seq x = seq y -> x = y).
  { intros x y l Hnd Hx Hy. induction l as [|z l IH]; [by apply not_elem_of_nil in Hx|]. cbn in Hnd.
    apply NoDup_cons in Hnd as [Hni Hnd]. intros Heq.
    apply elem_of_cons in Hx as [->|Hx]; apply elem_of_cons in Hy as [->|Hy]; [done|..|by apply IH];
      destruct Hni; apply list_elem_of_fmap; eauto. }
  revert l2. induction l1 as [|x l1 IH]; intros l2 Hs1 Hs2 Hn1 Hn2 H12 H21.
  { destruct l2 as [|y l2]; [constructor|]. destruct (H21 y ltac:(by left)) as (x & Hx & _). by apply not_elem_of_nil in Hx. }
  destruct l2 as [|y l2].
  { destruct (H12 x ltac:(by left)) as (y & Hy & _). by apply not_elem_of_nil in Hy. }
  destruct (H12 x ltac:(by left)) as (y' & Hy' & Hxy'). destruct (H21 y ltac:(by left)) as (x' & Hx' & Hx'y).
  assert (seq x = seq y) as Hxy.
  { pose proof (Hhead _ _ _ Hs2 Hy'). pose proof (Hhead _ _ _ Hs1 Hx'). pose proof (HR _ _ Hxy'). pose proof (HR _ _ Hx'y). lia. }
  assert (y' = y) as -> by (apply (Hone _ _ _ Hn2 Hy' ltac:(by left)); rewrite <- Hxy; by rewrite (HR _ _ Hxy')).
  constructor; [done|]. cbn in Hn1, Hn2. apply NoDup_cons in Hn1 as [Hni1 Hn1']. apply NoDup_cons in Hn2 as [Hni2 Hn2'].
  apply StronglySorted_inv in Hs1 as [Hs1 _]. apply StronglySorted_inv in Hs2 as [Hs2 _].
  apply IH; try done.
  - intros z Hz. destruct (H12 z ltac:(by right)) as (u & [->|Hu]%elem_of_cons & Hzu); [|by exists u].
    destruct Hni1. apply list_elem_of_fmap. exists z. split; [|done]. by rewrite Hxy, (HR _ _ Hzu).
  - intros u Hu. destruct (H21 u ltac:(by right)) as (z & [->|Hz]%elem_of_cons & Hzu); [|by exists z].
    destruct Hni2. apply list_elem_of_fmap. exists u. split; [|done]. by rewrite <- Hxy, (HR _ _ Hzu).
Qed.

Lemma read_matched rows1 rows2 types after n :
  unique_seqs rows1 -> unique_seqs rows2 ->
  (forall x, x ∈ rows1 -> exists y, y ∈ rows2 /\ R x y) -> (forall y, y ∈ rows2 -> exists x, x ∈ rows1 /\ R x y) ->
  (forall x y, R x y -> wanted types after x <-> wanted types after y) ->
  Forall2 R (event_reader_read rows1 types after n) (event_reader_read rows2 types after n).
Proof.
  intros Hn1 Hn2 H12 H21 Hw. unfold event_reader_read, order_limit. apply Forall2_take.
  apply sorted_matched; try apply order_sorted; try (rewrite order_perm; by apply filter_unique).
  - intros x. rewrite order_perm, list_elem_of_filter. intros [Hx Hin]. destruct (H12 x Hin) as (y & Hy & Hxy).
    exists y. rewrite order_perm, list_elem_of_filter. split; [|done]. split; [by apply (Hw x y)|done].
  - intros y. rewrite order_perm, list_elem_of_filter. intros [Hy Hin]. destruct (H21 y Hin) as (x & Hx & Hxy).
    exists x. rewrite order_perm, list_elem_of_filter. split; [|done]. split; [by apply (Hw x y)|done].
Qed.
End Matched.

(** ** The history of the chain *)

(** A decoded log of any of the seven types. *)
Inductive Log :=
  | AtomCreatedLog (d : AtomCreatedData)
  | AtomContextRegisteredLog (d : AtomContextRegisteredData)
  | TripleCreatedLog (d : TripleCreatedData)
  | DepositedLog (d : DepositedData)
  | RedeemedLog (d : RedeemedData)
  | SharePriceChangedLog (d : SharePriceChangedData)
  | ProtocolFeeAccruedLog (d : ProtocolFeeAccruedData).

Section History.
Context `{Encodings} `{AlloyFormat}.

Definition log_record (l : Log) (env : Envelope) : EventRecord :=
  match l with
  | AtomCreatedLog d => fst (atom_created d env)
  | AtomContextRegisteredLog d => fst (atom_context_registered d env)
  | TripleCreatedLog d => fst (triple_created d env)
  | DepositedLog d => fst (deposited d env)
  | RedeemedLog d => fst (redeemed d env)
  | SharePriceChangedLog d => fst (share_price_changed d env)
  | ProtocolFeeAccruedLog d => fst (protocol_fee_accrued d env)
  end.

(** The event type of a log: its data, its table and its conversion. *)
Class LogType (D R K : Type) `{TypedTable R K} := {
  convert : D -> Envelope -> EventRecord * R;
  log_of : D -> Log;
  log_type : EventType.EventType;
  convert_keeps : keeps_envelope convert;
  convert_log d env : log_record (log_of d) env = fst (convert d env);
  convert_type d env : er_event_type (fst (convert d env)) = EventType.as_str log_type;
  key_short e e' : conflict_key e = conflict_key e' -> short_key e = short_key e';
  log_of_inj d d' : log_of d = log_of d' -> d = d'
}.

#[global] Instance atom_created_log : LogType AtomCreatedData AtomCreatedTyped (string * Z).
Proof. refine {| convert := atom_created; log_of := AtomCreatedLog; log_type := EventType.AtomCreated |}; try done; congruence. Defined.
#[global] Instance atom_context_registered_log : LogType AtomContextRegisteredData AtomContextRegisteredTyped (string * Z).
Proof. refine {| convert := atom_context_registered; log_of := AtomContextRegisteredLog;
  log_type := EventType.AtomContextRegistered |}; try done; congruence. Defined.
#[global] Instance triple_created_log : LogType TripleCreatedData TripleCreatedTyped (string * Z).
Proof. refine {| convert := triple_created; log_of := TripleCreatedLog; log_type := EventType.TripleCreated |}; try done; congruence. Defined.
#[global] Instance deposited_log : LogType DepositedData DepositedTyped (string * Z * DateTime).
Proof. refine {| convert := deposited; log_of := DepositedLog; log_type := EventType.Deposited |}; try done; try congruence.
  intros e e'. cbn. unfold full_key, short_key. congruence. Defined.
#[global] Instance redeemed_log : LogType RedeemedData RedeemedTyped (string * Z * DateTime).
Proof. refine {| convert := redeemed; log_of := RedeemedLog; log_type := EventType.Redeemed |}; try done; try congruence.
  intros e e'. cbn. unfold full_key, short_key. congruence. Defined.
#[global] Instance share_price_changed_log : LogType SharePriceChangedData SharePriceChangedTyped (string * Z * DateTime).
Proof. refine {| convert := share_price_changed; log_of := SharePriceChangedLog;
  log_type := EventType.SharePriceChanged |}; try done; try congruence.
  intros e e'. cbn. unfold full_key, short_key. congruence. Defined.
#[global] Instance protocol_fee_accrued_log : LogType ProtocolFeeAccruedData ProtocolFeeAccruedTyped (string * Z).
Proof. refine {| convert := protocol_fee_accrued; log_of := ProtocolFeeAccruedLog;
  log_type := EventType.ProtocolFeeAccrued |}; try done; congruence. Defined.

Context (history : list (TxInformation * Log)).

(** A transaction hash and a log index determine the log and its block, and the node
    reported the timestamp of every block. *)
Definition consistent : Prop := forall x1 x2 env1 env2,
  x1 ∈ history -> x2 ∈ history -> envelope_for (fst x1) env1 -> envelope_for (fst x2) env2 ->
  short_key env1 = short_key env2 -> env1 = env2 /\ snd x1 = snd x2.

(** The rows of a log of the history, under the number [s]. *)
Definition in_history `{LogType D R K} (d : D) (env : Envelope) : Prop :=
  exists tx, (tx, log_of d) ∈ history /\ envelope_for tx env.
Definition store_row `{LogType D R K} (t : IngestTables) (s : Z) (d : D) (env : Envelope) : Prop :=
  event_store t !! full_key env = Some {| sr_sequence := s; sr_record := fst (convert d env); sr_is_canonical := true |}.
Definition typed_row_has `{LogType D R K} (t : IngestTables) (s : Z) (d : D) (env : Envelope) : Prop :=
  table t !! conflict_key env = Some (s, snd (convert d env)).

(** Every row of the table is of a log and has its row in the store. *)
Definition table_mirrors (D R K : Type) `{LogType D R K} (t : IngestTables) : Prop :=
  forall k s r, table t !! k = Some (s, r) -> exists d env,
    in_history d env /\ k = conflict_key env /\ r = snd (convert d env) /\ store_row t s d env.

(** Every row of the store of this type has its row in the table. *)
Definition store_mirrors (D R K : Type) `{LogType D R K} (t : IngestTables) : Prop :=
  forall k row, event_store t !! k = Some row -> er_event_type (sr_record row) = EventType.as_str log_type ->
  exists d env, in_history d env /\ k = full_key env /\ store_row t (sr_sequence row) d env /\
    typed_row_has t (sr_sequence row) d env.

Definition mirrors (D R K : Type) `{LogType D R K} (t : IngestTables) : Prop := table_mirrors D R K t /\ store_mirrors D R K t.

(** Every row of the store is a canonical row of a log. *)
Definition rows_logged (t : IngestTables) : Prop := forall k row, event_store t !! k = Some row ->
  exists x env, x ∈ history /\ envelope_for (fst x) env /\ k = full_key env /\
    sr_record row = log_record (snd x) env /\ sr_is_canonical row = true.

Record mirrored (t : IngestTables) : Prop := {
  mirrored_numbers : numbers_ok t;
  mirrored_rows : rows_logged t;
  mirrored_atoms : mirrors AtomCreatedData AtomCreatedTyped _ t;
  mirrored_contexts : mirrors AtomContextRegisteredData AtomContextRegisteredTyped _ t;
  mirrored_triples : mirrors TripleCreatedData TripleCreatedTyped _ t;
  mirrored_deposits : mirrors DepositedData DepositedTyped _ t;
  mirrored_redemptions : mirrors RedeemedData RedeemedTyped _ t;
  mirrored_prices : mirrors SharePriceChangedData SharePriceChangedTyped _ t;
  mirrored_fees : mirrors ProtocolFeeAccruedData ProtocolFeeAccruedTyped _ t
}.

(** ** Writing a sub-batch keeps the mirror *)

Section Step.
Context (Hcon : consistent) {D R K : Type} `{LogType D R K} (logs : list (TxInformation * D)).
Context (Hlogs : forall x, x ∈ logs -> (fst x, log_of (snd x)) ∈ history).

Lemma in_history_unique `{LogType D' R' K'} (d : D') (d' : D) env env' :
  in_history d env -> in_history d' env' -> short_key env = short_key env' -> env = env' /\ log_of d = log_of d'.
Proof.
  intros (tx & Hin & Hfor) (tx' & Hin' & Hfor') Hk. exact (Hcon (tx, _) (tx', _) env env' Hin Hin' Hfor Hfor' Hk).
Qed.

Lemma log_history x env : x ∈ logs -> envelope_for (fst x) env -> in_history (snd x) env.
Proof. intros Hx Hfor. exists (fst x). split; [by apply Hlogs|done]. Qed.

Lemma full_short e e' : full_key e = full_key e' -> short_key e = short_key e'.
Proof. unfold full_key, short_key. congruence. Qed.

Context (t t' : IngestTables) (chunk : list (TxInformation * D)) (envs : list Envelope).
Abbreviation records := (zip_with (fun x env => fst (convert (snd x) env)) chunk envs).
Abbreviation typed := (zip_with (fun x env => snd (convert (snd x) env)) chunk envs).
Context (Hin : forall x, x ∈ chunk -> x ∈ logs) (Hall : Forall2 (fun x env => envelope_for (fst x) env) chunk envs).
Context (Hw : written records typed t t').

Lemma store_row_kept `{LogType D' R' K'} s (d : D') env : store_row t s d env -> store_row t' s d env.
Proof. apply (store_kept _ _ _ _ Hw). Qed.

(** Where a row of the store comes from. *)
Lemma store_row_from k row : event_store t' !! k = Some row -> event_store t !! k = Some row \/
  exists d env, in_history d env /\ k = full_key env /\ snd (convert d env) ∈ typed /\ store_row t' (sr_sequence row) d env.
Proof.
  intros Hk. destruct (store_new _ _ _ _ Hw k row Hk) as [?|(_ & Hc & He & Hkey)]; [by left|right].
  apply zip_with_elem in He as (x & env & Hx & _ & Hz & He). exists (snd x), env. rewrite He, (proj1 (convert_keeps _ _)) in Hkey.
  assert (Hfor : envelope_for (fst x) env) by (by apply (zip_envelope chunk envs)).
  split; [by apply log_history, Hfor; apply Hin|]. split; [done|]. split.
  - apply list_elem_of_lookup in Hz as [i Hi]. apply lookup_zip_with_Some in Hi as (x' & env' & [= <- <-] & ? & ?).
    apply (list_elem_of_lookup_2 _ i), lookup_zip_with_Some. eauto.
  - unfold store_row. rewrite <- Hkey, Hk, <- He. f_equal. destruct row; cbn in *. by subst.
Qed.

(** A log of the batch has its typed row under the number of its stored row. *)
Lemma batch_row_typed s d env : table_mirrors D R K t ->
  in_history d env -> snd (convert d env) ∈ typed -> store_row t' s d env -> typed_row_has t' s d env.
Proof.
  intros Hm Hd Hr Hs. pose proof (typed_has _ _ _ _ Hw _ Hr) as [[s' r'] Hrow]. rewrite (proj2 (convert_keeps _ _)) in Hrow.
  destruct (typed_new _ _ _ _ Hw _ _ _ Hrow) as [Hold|(Hr' & Hkey & Hcan)].
  - destruct (Hm _ _ _ Hold) as (d1 & env1 & Hd1 & Hk1 & -> & Hs1).
    destruct (in_history_unique d1 d env1 env Hd1 Hd ltac:(by apply key_short)) as [-> ->%log_of_inj].
    apply store_row_kept in Hs1. unfold store_row in Hs, Hs1. rewrite Hs in Hs1. injection Hs1 as <-. done.
  - apply zip_with_elem in Hr' as (x & env1 & Hx & _ & Hz & ->). rewrite (proj2 (convert_keeps _ _)) in Hkey, Hcan.
    assert (Hd1 : in_history (snd x) env1) by (apply log_history; [by apply Hin|by apply (zip_envelope chunk envs)]).
    destruct (in_history_unique (snd x) d env1 env Hd1 Hd ltac:(by apply key_short)) as [-> <-%log_of_inj].
    unfold canonical_sequence, store_row in *. rewrite Hs in Hcan. cbn in Hcan. injection Hcan as <-. done.
Qed.

Lemma step_mirrors_same : rows_logged t -> mirrors D R K t -> mirrors D R K t'.
Proof.
  intros Hrl [Ht Hs]. split.
  - intros k s r Hk. destruct (typed_new _ _ _ _ Hw k s r Hk) as [Hold|(Hr & Hkey & Hcan)].
    + destruct (Ht _ _ _ Hold) as (d & env & ? & ? & ? & ?%store_row_kept). eauto 8.
    + apply zip_with_elem in Hr as (x & env & Hx & _ & Hz & ->). rewrite (proj2 (convert_keeps _ _)) in Hkey, Hcan.
      assert (Hd : in_history (snd x) env) by (apply log_history; [by apply Hin|by apply (zip_envelope chunk envs)]).
      exists (snd x), env. split_and!; try done. unfold canonical_sequence in Hcan.
      destruct (event_store t' !! full_key env) as [row|] eqn:Hrow; [|done]. cbn in Hcan.
      destruct (sr_is_canonical row) eqn:Hc; [|done]. injection Hcan as <-.
      destruct (store_row_from _ _ Hrow) as [Hold|(d1 & env1 & Hd1 & Hk1 & _ & Hs1)].
      * destruct (Hrl _ _ Hold) as (x1 & env1 & Hx1 & Hfor1 & Hk1 & Hrec & _). destruct Hd as (tx & Htx & Hfor).
        destruct (Hcon (tx, _) x1 env env1 Htx Hx1 Hfor Hfor1 ltac:(by apply full_short)) as [<- Hlog]. cbn in Hlog.
        unfold store_row. rewrite Hrow. f_equal. rewrite <- Hlog, convert_log in Hrec. destruct row; cbn in *. by subst.
      * destruct (in_history_unique (snd x) d1 env env1 Hd Hd1 ltac:(by apply full_short)) as [-> <-%log_of_inj]. done.
  - intros k row Hk Hty. destruct (store_row_from _ _ Hk) as [Hold|(d & env & Hd & -> & Hr & Hrow)].
    + destruct (Hs _ _ Hold Hty) as (d & env & ? & ? & Hrow & Htyped). exists d, env. split_and!; try done.
      * by apply store_row_kept.
      * by apply (typed_kept _ _ _ _ Hw).
    + exists d, env. split_and!; try done. by eapply batch_row_typed.
Qed.

Lemma step_mirrors_other `{LogType D' R' K'} : @log_type D R K _ _ _ _ <> @log_type D' R' K' _ _ _ _ ->
  @table R' K' _ _ _ t' = table t -> mirrors D' R' K' t -> mirrors D' R' K' t'.
Proof.
  intros Hne Htab [Ht Hs]. split.
  - intros k s r. rewrite Htab. intros (d & env & ? & ? & ? & ?%store_row_kept)%Ht. eauto 8.
  - intros k row Hk Hty. destruct (store_row_from _ _ Hk) as [Hold|(d & env & Hd & -> & _ & Hrow)].
    + destruct (Hs _ _ Hold Hty) as (d & env & ? & ? & Hrow & Htyped). exists d, env. split_and!; try done.
      * by apply store_row_kept.
      * unfold typed_row_has in *. by rewrite Htab.
    + unfold store_row in Hrow. rewrite Hrow in Hk. apply (f_equal (fmap sr_record)) in Hk. injection Hk as Hrec.
      rewrite <- Hrec, convert_type in Hty.
      by apply as_str_inj in Hty.
Qed.

Lemma step_rows_logged : rows_logged t -> rows_logged t'.
Proof.
  intros Hr k row Hk. destruct (store_row_from _ _ Hk) as [Hold|(d & env & (tx & Htx & Hfor) & -> & _ & Hrow)]; [by apply Hr|].
  unfold store_row in Hrow. rewrite Hrow in Hk. injection Hk as <-. exists (tx, log_of d), env. cbn. by rewrite convert_log.
Qed.
End Step.

Lemma sub_batch_mirrored (Hcon : consistent) `{LogType D R K} (logs : list (TxInformation * D)) t t'
    (Hlogs : forall x, x ∈ logs -> (fst x, log_of (snd x)) ∈ history) :
  sub_batch convert logs t t' -> numbers_ok t -> rows_logged t ->
  numbers_ok t' /\ rows_logged t' /\ (mirrors D R K t -> mirrors D R K t') /\
  (forall D' R' K' (E : EqDecision K') (C : Countable K') (T : TypedTable R' K') (LT : LogType D' R' K'),
     @log_type D R K _ _ _ _ <> @log_type D' R' K' _ _ _ _ ->
     (forall m u, @table R' K' _ _ T (@set_table R K _ _ _ m u) = @table R' K' _ _ T u) ->
     mirrors D' R' K' t -> mirrors D' R' K' t').
Proof.
  intros (chunk & envs & Hin & Hall & Hwt) Hn Hr.
  destruct (written_tables_spec _ _ _ _ (records_paired convert convert_keeps chunk envs) Hwt) as [_ Hw].
  split_and!.
  - eapply written_tables_numbers; [exact Hwt|done].
  - eapply step_rows_logged; [exact Hlogs|exact Hin|exact Hall|exact Hw|done].
  - eapply step_mirrors_same; try done.
  - intros D' R' K' E C T LT Hne Hdis. eapply (step_mirrors_other (R := R)); [exact Hlogs|exact Hin|exact Hall|exact Hw|exact Hne|].
    by eapply (other_table (R := R)).
Qed.

(** ** Deliveries *)

(** What rindexer hands to one of the seven callbacks. *)
Inductive Delivery :=
  | DeliverAtomCreated (results : list (TxInformation * AtomCreatedData))
  | DeliverAtomContextRegistered (results : list (TxInformation * AtomContextRegisteredData))
  | DeliverTripleCreated (results : list (TxInformation * TripleCreatedData))
  | DeliverDeposited (results : list (TxInformation * DepositedData))
  | DeliverRedeemed (results : list (TxInformation * RedeemedData))
  | DeliverSharePriceChanged (results : list (TxInformation * SharePriceChangedData))
  | DeliverProtocolFeeAccrued (results : list (TxInformation * ProtocolFeeAccruedData)).

Definition tagged `{LogType D R K} (results : list (TxInformation * D)) : list (TxInformation * Log) :=
  map (fun x => (fst x, log_of (snd x))) results.
Definition delivered (d : Delivery) : list (TxInformation * Log) :=
  match d with
  | DeliverAtomCreated results => tagged results
  | DeliverAtomContextRegistered results => tagged results
  | DeliverTripleCreated results => tagged results
  | DeliverDeposited results => tagged results
  | DeliverRedeemed results => tagged results
  | DeliverSharePriceChanged results => tagged results
  | DeliverProtocolFeeAccrued results => tagged results
  end.

Context {W : Type} `{Clock W} `{ReadPool IngestTables W} (handler_chunk_size bulk_chunk_size : nat).

Definition deliver (d : Delivery) (w : W) : outcome unit * W :=
  match d with
  | DeliverAtomCreated results => atom_created_handler handler_chunk_size bulk_chunk_size results w
  | DeliverAtomContextRegistered results => atom_context_registered_handler handler_chunk_size bulk_chunk_size results w
  | DeliverTripleCreated results => triple_created_handler handler_chunk_size bulk_chunk_size results w
  | DeliverDeposited results => deposited_handler handler_chunk_size bulk_chunk_size results w
  | DeliverRedeemed results => redeemed_handler handler_chunk_size bulk_chunk_size results w
  | DeliverSharePriceChanged results => share_price_changed_handler handler_chunk_size bulk_chunk_size results w
  | DeliverProtocolFeeAccrued results => protocol_fee_accrued_handler handler_chunk_size bulk_chunk_size results w
  end.

(** One after the other; a failed delivery is retried by delivering again. *)
Definition deliver_all (ds : list Delivery) (w : W) : W := fold_left (fun w d => snd (deliver d w)) ds w.

Section Deliveries.
Context (tables : W -> IngestTables) (L : ReadLaws tables) (Hclock : clock_apart tables) (Hcon : consistent).
Context (Hsize : (0 < handler_chunk_size)%nat) (Hbulk : (0 < bulk_chunk_size)%nat).

Lemma handler_invariant `{LogType D R K} (Inv : IngestTables -> Prop) results w :
  (forall t t', sub_batch convert results t t' -> Inv t -> Inv t') ->
  Inv (tables w) -> Inv (tables (snd (handler handler_chunk_size bulk_chunk_size convert results w))).
Proof.
  intros Hstep Hinv.
  pose proof (handler_steps tables L Hclock convert convert_keeps handler_chunk_size bulk_chunk_size Hbulk results w Hsize) as Hs.
  destruct (handler _ _ _ results w) as [o w']. destruct Hs as [Hr _]. cbn.
  induction Hr as [|t1 t2 t3 Hone _ IH]; [done|]. by eapply IH, Hstep.
Qed.

Lemma deliver_mirrored d w : (forall x, x ∈ delivered d -> x ∈ history) ->
  mirrored (tables w) -> mirrored (tables (snd (deliver d w))).
Proof.
  assert (Htag : forall D R K (E : EqDecision K) (C : Countable K) (T : TypedTable R K) (LT : LogType D R K)
    (results : list (TxInformation * D)), (forall x, x ∈ tagged results -> x ∈ history) ->
    forall x, x ∈ results -> (fst x, log_of (snd x)) ∈ history).
  { intros D R K E C T LT results Hin x Hx. apply Hin, list_elem_of_fmap. by exists x. }
  destruct d as [results|results|results|results|results|results|results]; cbn [delivered]; intros Hin;
    specialize (Htag _ _ _ _ _ _ _ results Hin).
  all: unfold deliver, atom_created_handler, atom_context_registered_handler, triple_created_handler, deposited_handler,
    redeemed_handler, share_price_changed_handler, protocol_fee_accrued_handler.
  all: lazymatch type of results with
       | list (_ * AtomCreatedData) => change atom_created with (@convert AtomCreatedData _ _ _ _ _ _)
       | list (_ * AtomContextRegisteredData) => change atom_context_registered with (@convert AtomContextRegisteredData _ _ _ _ _ _)
       | list (_ * TripleCreatedData) => change triple_created with (@convert TripleCreatedData _ _ _ _ _ _)
       | list (_ * DepositedData) => change deposited with (@convert DepositedData _ _ _ _ _ _)
       | list (_ * RedeemedData) => change redeemed with (@convert RedeemedData _ _ _ _ _ _)
       | list (_ * SharePriceChangedData) => change share_price_changed with (@convert SharePriceChangedData _ _ _ _ _ _)
       | list (_ * ProtocolFeeAccruedData) => change protocol_fee_accrued with (@convert ProtocolFeeAccruedData _ _ _ _ _ _)
       end.
  all: apply handler_invariant; intros t t' Hstep [H1m H2m H3m H4m H5m H6m H7m H8m H9m];
    destruct (sub_batch_mirrored Hcon results t t' Htag Hstep H1m H2m) as (Hn & Hr & Hs & Ho);
    split; first [done|by apply Hs|by apply Ho].
Qed.

Lemma deliver_all_mirrored ds w : (forall d x, d ∈ ds -> x ∈ delivered d -> x ∈ history) ->
  mirrored (tables w) -> mirrored (tables (deliver_all ds w)).
Proof.
  unfold deliver_all. revert w. induction ds as [|d ds IH]; intros w Hin Hm; [done|]. cbn. apply IH.
  - intros d' x Hd. apply Hin. by right.
  - apply deliver_mirrored; [|done]. intros x. apply Hin. by left.
Qed.
End Deliveries.
End History.

(** ** Both readers *)

Section Readers.
Context `{Encodings} `{AlloyFormat} (ingested_at : Z -> DateTime).

(** The fragment of the typed reader gives back the event a log is stored as. *)
Class LogRead (D R K : Type) `{LogType D R K} := {
  fragment_reads : exists f : Z * R -> StoredEvent,
    (forall t, fragment_rows log_type (typed_view t) = map f (map snd (map_to_list (table t)))) /\
    (forall s d env, same_read
       (stored_event ingested_at {| sr_sequence := s; sr_record := fst (convert d env); sr_is_canonical := true |})
       (f (s, snd (convert d env))))
}.

Ltac log_read := split; eexists; split;
  [intros t; cbn [log_type fragment_rows]; cbn; unfold rows_of; rewrite (map_map (fun row => typed_row_of _ _ _)); reflexivity
  |intros s d env; split; try reflexivity; cbn; solve_Permutation].
#[global] Instance atom_created_read : LogRead AtomCreatedData AtomCreatedTyped (string * Z).
Proof. log_read. Qed.
#[global] Instance atom_context_registered_read : LogRead AtomContextRegisteredData AtomContextRegisteredTyped (string * Z).
Proof. log_read. Qed.
#[global] Instance triple_created_read : LogRead TripleCreatedData TripleCreatedTyped (string * Z).
Proof. log_read. Qed.
#[global] Instance deposited_read : LogRead DepositedData DepositedTyped (string * Z * DateTime).
Proof. log_read. Qed.
#[global] Instance redeemed_read : LogRead RedeemedData RedeemedTyped (string * Z * DateTime).
Proof. log_read. Qed.
#[global] Instance share_price_changed_read : LogRead SharePriceChangedData SharePriceChangedTyped (string * Z * DateTime).
Proof. log_read. Qed.
#[global] Instance protocol_fee_accrued_read : LogRead ProtocolFeeAccruedData ProtocolFeeAccruedTyped (string * Z).
Proof. log_read. Qed.

Context (history : list (TxInformation * Log)) (t : IngestTables) (Hm : mirrored history t).

Section OneType.
Context `{LogRead D R K} (Hmt : mirrors history D R K t).

Lemma fragment_stored y : y ∈ fragment_rows log_type (typed_view t) ->
  exists k row, event_store t !! k = Some row /\ same_read (stored_event ingested_at row) y.
Proof.
  destruct fragment_reads as (f & Hf & Hsame). rewrite Hf. intros ([s r] & -> & Hr)%list_elem_of_fmap.
  apply list_elem_of_fmap in Hr as ([k [s' r']] & [= <- <-] & Hk). apply elem_of_map_to_list in Hk.
  destruct (proj1 Hmt _ _ _ Hk) as (d & env & _ & _ & -> & Hrow). eauto.
Qed.

Lemma stored_fragment k row : event_store t !! k = Some row -> er_event_type (sr_record row) = EventType.as_str log_type ->
  exists y, y ∈ fragment_rows log_type (typed_view t) /\ same_read (stored_event ingested_at row) y.
Proof.
  destruct fragment_reads as (f & Hf & Hsame). rewrite Hf. intros Hk Hty.
  destruct (proj2 Hmt _ _ Hk Hty) as (d & env & _ & -> & Hrow & Htr). unfold store_row in Hrow. rewrite Hrow in Hk.
  injection Hk as Hk. exists (f (sr_sequence row, snd (convert d env))). split.
  - apply list_elem_of_fmap. eexists. split; [done|]. apply list_elem_of_fmap.
    exists (conflict_key env, (sr_sequence row, snd (convert d env))). split; [done|]. by apply elem_of_map_to_list.
  - specialize (Hsame (sr_sequence row) d env). by rewrite Hk in Hsame.
Qed.

Lemma fragment_unique : unique_seqs (fragment_rows log_type (typed_view t)).
Proof.
  destruct fragment_reads as (f & Hf & Hsame). rewrite Hf, !map_map.
  apply NoDup_fmap_2_strong; [|apply NoDup_map_to_list].
  intros [k1 [s1 r1]] [k2 [s2 r2]] Hk1%elem_of_map_to_list Hk2%elem_of_map_to_list. cbn.
  destruct (proj1 Hmt _ _ _ Hk1) as (d1 & env1 & _ & -> & -> & Hr1).
  destruct (proj1 Hmt _ _ _ Hk2) as (d2 & env2 & _ & -> & -> & Hr2).
  rewrite <- (same_sequence _ _ (Hsame s1 d1 env1)), <- (same_sequence _ _ (Hsame s2 d2 env2)). cbn. intros ->.
  unfold store_row in Hr1, Hr2.
  pose proof (number_unique _ (mirrored_numbers _ _ Hm) _ _ _ _ Hr1 Hr2 eq_refl) as Hkey.
  rewrite (key_of_full _ _ Hkey) in Hk1 |- *. rewrite Hk1 in Hk2. by injection Hk2 as ->.
Qed.
End OneType.

(** What holds of every mirrored table holds of every event type. *)
Lemma for_each_type (P : EventType.EventType -> Prop) :
  (forall D R K (E : EqDecision K) (C : Countable K) (T : TypedTable R K) (LT : LogType D R K) (LR : LogRead D R K),
     mirrors history D R K t -> P log_type) -> forall ty, P ty.
Proof.
  intros Hall [].
  - apply (Hall _ _ _ _ _ _ atom_created_log atom_created_read), Hm.
  - apply (Hall _ _ _ _ _ _ atom_context_registered_log atom_context_registered_read), Hm.
  - apply (Hall _ _ _ _ _ _ triple_created_log triple_created_read), Hm.
  - apply (Hall _ _ _ _ _ _ deposited_log deposited_read), Hm.
  - apply (Hall _ _ _ _ _ _ redeemed_log redeemed_read), Hm.
  - apply (Hall _ _ _ _ _ _ share_price_changed_log share_price_changed_read), Hm.
  - apply (Hall _ _ _ _ _ _ protocol_fee_accrued_log protocol_fee_accrued_read), Hm.
Qed.

Lemma typed_stored ty y : y ∈ fragment_rows ty (typed_view t) ->
  exists k row, event_store t !! k = Some row /\ same_read (stored_event ingested_at row) y.
Proof. revert ty. refine (for_each_type _ _). intros D R K E C T LT LR Hmt. by apply (fragment_stored (D := D)). Qed.

Lemma typed_unique ty : unique_seqs (fragment_rows ty (typed_view t)).
Proof. revert ty. refine (for_each_type _ _). intros D R K E C T LT LR Hmt. by apply (fragment_unique (D := D)). Qed.

Lemma log_record_type l env : exists ty, er_event_type (log_record l env) = EventType.as_str ty.
Proof.
  destruct l; [exists EventType.AtomCreated|exists EventType.AtomContextRegistered|exists EventType.TripleCreated
    |exists EventType.Deposited|exists EventType.Redeemed|exists EventType.SharePriceChanged
    |exists EventType.ProtocolFeeAccrued]; done.
Qed.

Lemma stored_typed k row : event_store t !! k = Some row ->
  exists ty y, y ∈ fragment_rows ty (typed_view t) /\ same_read (stored_event ingested_at row) y.
Proof.
  intros Hk. destruct (mirrored_rows _ _ Hm _ _ Hk) as (x & env & _ & _ & _ & Hrec & _).
  destruct (log_record_type (snd x) env) as [ty Hty]. rewrite <- Hrec in Hty. exists ty. revert ty Hty.
  refine (for_each_type _ _). intros D R K E C T LT LR Hmt. by eapply (stored_fragment (D := D)).
Qed.

Lemma concat_map_bind {A B} (f : A -> list B) l : concat (map f l) = l ≫= f.
Proof. induction l as [|x l IH]; [done|]. cbn. by rewrite IH. Qed.

(** The two tables hold the same events. *)
Lemma views_match :
  unique_seqs (store_view ingested_at t) /\ unique_seqs (event_store_of (typed_view t)) /\
  (forall x, x ∈ store_view ingested_at t -> exists y, y ∈ event_store_of (typed_view t) /\ same_read x y) /\
  (forall y, y ∈ event_store_of (typed_view t) -> exists x, x ∈ store_view ingested_at t /\ same_read x y).
Proof.
  assert (Hof : forall y, y ∈ event_store_of (typed_view t) <-> exists ty, y ∈ fragment_rows ty (typed_view t)).
  { intros y. unfold event_store_of. rewrite list_elem_of_In, in_concat. split.
    - intros (l & Hl & Hy). apply in_map_iff in Hl as (ty & <- & _). exists ty. by apply list_elem_of_In.
    - intros [ty Hy]. exists (fragment_rows ty (typed_view t)). split; [|by apply list_elem_of_In].
      apply (in_map (fun ty => fragment_rows ty (typed_view t))), list_elem_of_In, all_types_complete. }
  assert (Hback : forall ty y, y ∈ fragment_rows ty (typed_view t) -> exists k row, event_store t !! k = Some row /\
    seq y = sr_sequence row /\ er_event_type (sr_record row) = EventType.as_str ty).
  { intros ty y Hy. destruct (typed_stored ty y Hy) as (k & row & Hk & Hs). exists k, row. split; [done|].
    split; [by rewrite <- (same_sequence _ _ Hs)|]. rewrite <- (proj1 (fragment_rows_type _ _ _ Hy)).
    by rewrite <- (same_type _ _ Hs). }
  split_and!.
  - unfold store_view. rewrite map_map. apply NoDup_fmap_2_strong; [|apply NoDup_map_to_list].
    intros [k1 r1] [k2 r2] Hk1%elem_of_map_to_list Hk2%elem_of_map_to_list. cbn. intros Hs.
    pose proof (number_unique _ (mirrored_numbers _ _ Hm) _ _ _ _ Hk1 Hk2 Hs) as ->. rewrite Hk1 in Hk2. by injection Hk2 as ->.
  - unfold event_store_of. rewrite concat_map, map_map, concat_map_bind. apply NoDup_bind.
    + intros ty1 ty2 s _ _ Hs1 Hs2. apply list_elem_of_fmap in Hs1 as (y1 & -> & Hy1), Hs2 as (y2 & Hs & Hy2).
      destruct (Hback _ _ Hy1) as (k1 & r1 & Hk1 & Hq1 & Ht1), (Hback _ _ Hy2) as (k2 & r2 & Hk2 & Hq2 & Ht2).
      pose proof (number_unique _ (mirrored_numbers _ _ Hm) _ _ _ _ Hk1 Hk2 ltac:(congruence)) as ->.
      rewrite Hk1 in Hk2. injection Hk2 as ->. apply as_str_inj. congruence.
    + intros ty _. apply typed_unique.
    + refine (bool_decide_unpack _ _). vm_compute. exact I.
  - intros x Hx. apply list_elem_of_fmap in Hx as ([k row] & -> & Hk%elem_of_map_to_list). cbn.
    destruct (stored_typed k row Hk) as (ty & y & Hy & Hs). exists y. split; [|done]. apply Hof. by exists ty.
  - intros y [ty Hy]%Hof. destruct (typed_stored ty y Hy) as (k & row & Hk & Hs).
    exists (stored_event ingested_at row). split; [|done]. apply list_elem_of_fmap. exists (k, row). split; [done|].
    by apply elem_of_map_to_list.
Qed.
End Readers.

Lemma empty_mirrored `{Encodings} `{AlloyFormat} history n : mirrored history {| event_store := ∅; next_sequence := n;
  atoms := ∅; contexts := ∅; triples := ∅; deposits := ∅; redemptions := ∅; prices := ∅; fees := ∅ |}.
Proof.
  split; [split; cbn; intros *; by rewrite lookup_empty|intros k row; cbn; by rewrite lookup_empty|..];
    (split; [intros k s r; cbn; by rewrite lookup_empty|intros k row; cbn; by rewrite lookup_empty]).
Qed.

(** ** Properties *)

(** C3 (the two readers read the same log). Let the logs of a chain, in which a transaction
    hash and a log index determine the log and its block, be delivered to the seven
    callbacks in any batches and any order, again after failures and as often as one
    likes, whatever calls fail, starting from empty tables. Then, for any event types,
    position and batch size, the typed reader answers, with the events the monolithic
    reader returns, in the same order: the same numbers, envelopes, types, term ids and
    payloads up to the order of their fields. *)
Theorem ingested_readers_agree `{Encodings} `{AlloyFormat} {W} `{Clock W} `{ReadPool IngestTables W}
  (tables : W -> IngestTables) (handler_chunk_size bulk_chunk_size : nat) (history : list (TxInformation * Log))
  (ingested_at : Z -> DateTime) (ds : list Delivery) (w : W) (ts : list EventType.EventType)
  (after_sequence batch_size : Z)
  (L : ReadLaws tables) (Hclock : clock_apart tables) (Hcon : consistent history)
  (Hsize : (0 < handler_chunk_size)%nat) (Hbulk : (0 < bulk_chunk_size)%nat)
  (Hempty : tables w = empty_tables) (Hds : forall d x, d ∈ ds -> x ∈ delivered d -> x ∈ history)
  (Hts : NoDup ts) (Hne : ts <> []) :
  let t := tables (deliver_all handler_chunk_size bulk_chunk_size ds w) in
  exists events,
    typed_reader_read (typed_view t) (map EventType.as_str ts) after_sequence batch_size = Ok events /\
    Forall2 same_read
      (event_reader_read (store_view ingested_at t) (map EventType.as_str ts) after_sequence batch_size) events.
Proof.
  intros t.
  assert (Hm : mirrored history t).
  { apply (deliver_all_mirrored history handler_chunk_size bulk_chunk_size tables L Hclock Hcon Hsize Hbulk); [done|].
    rewrite Hempty. apply empty_mirrored. }
  destruct (views_match ingested_at history t Hm) as (Hu1 & Hu2 & H12 & H21). eexists. split.
  - by apply typed_reader_equivalent.
  - apply read_matched; try done; [by intros x y []|]. intros x y []. unfold wanted. naive_solver congruence.
Qed.

(** ** Concrete chains *)

Definition demo_deposit_data : DepositedData := {|
  dep_sender' := "s"; dep_receiver' := "r"; dep_termId := one_word; dep_curveId := 1; dep_assets' := 1000;
  dep_assetsAfterFees := 980; dep_shares' := 950; dep_totalShares := 5000; dep_vaultType := 1 |}.
Definition demo_deposit_log : TxInformation * DepositedData := (demo_log 1, demo_deposit_data).
Definition demo_history : list (TxInformation * Log) :=
  [(demo_log 0, ProtocolFeeAccruedLog (snd (demo_fee_log 0))); (demo_log 1, DepositedLog demo_deposit_data)].

Lemma demo_consistent : consistent demo_history.
Proof.
  assert (Hone : forall x env, x ∈ demo_history -> envelope_for (fst x) env ->
    exists i, env = envelope_of (demo_log i) 1700 i /\ x ∈ demo_history /\ tx_log_index (fst x) = i).
  { intros x env Hx. pose proof Hx as Hin. unfold demo_history in Hx. rewrite !elem_of_cons in Hx.
    destruct Hx as [->|[->|?%not_elem_of_nil]]; [..|done];
      intros (ts & i & [= <-] & -> & [[= <-]|?]); try done; by eexists. }
  intros x1 x2 env1 env2 H1 H2 (i1 & -> & _ & Hi1)%Hone (i2 & -> & _ & Hi2)%Hone; [|done..]. unfold short_key. cbn.
  intros [= Hi]. rewrite <- Hi1, <- Hi2 in Hi. unfold demo_history in H1, H2. rewrite !elem_of_cons in H1, H2.
  destruct H1 as [->|[->|?%not_elem_of_nil]], H2 as [->|[->|?%not_elem_of_nil]]; try done; by subst.
Qed.

(** The fee is delivered twice. *)
Definition demo_deliveries : list Delivery :=
  [DeliverProtocolFeeAccrued [demo_fee_log 0]; DeliverDeposited [demo_deposit_log];
   DeliverProtocolFeeAccrued [demo_fee_log 0]].

Lemma ingested_readers_agree_witness :
  let _ := demo_encodings in
  let t := demo_tables (deliver_all 10 10 demo_deliveries (demo_database empty_tables [])) in
  let ts := [EventType.Deposited; EventType.ProtocolFeeAccrued] in
  map (fun e => seq e) (event_reader_read (store_view (fun s => s) t) (map EventType.as_str ts) 0 10) = [1; 2] /\
  exists events, typed_reader_read (typed_view t) (map EventType.as_str ts) 0 10 = Ok events /\
    Forall2 same_read (event_reader_read (store_view (fun s => s) t) (map EventType.as_str ts) 0 10) events.
Proof.
  intros enc t ts. split; [vm_compute; reflexivity|].
  apply (ingested_readers_agree demo_tables 10 10 demo_history (fun s => s) demo_deliveries
    (demo_database empty_tables []) ts 0 10 demo_read_laws demo_clock_apart demo_consistent ltac:(lia) ltac:(lia) eq_refl).
  - intros d x Hd. unfold demo_deliveries in Hd. rewrite !elem_of_cons in Hd.
    destruct Hd as [->|[->|[->|?%not_elem_of_nil]]]; [..|done]; cbn; rewrite elem_of_cons;
      (intros [->|?%not_elem_of_nil]; [|done]); unfold demo_history; rewrite !elem_of_cons; tauto.
  - refine (bool_decide_unpack _ _). vm_compute. exact I.
  - discriminate.
Defined.

(** The two readers disagree about [entity_id]. *)
Example entity_ids_differ :
  let _ := demo_encodings in
  let t := demo_tables (deliver_all 10 10 [DeliverProtocolFeeAccrued [demo_fee_log 0]] (demo_database empty_tables [])) in
  map StoredEvent.entity_id (store_view (fun s => s) t) = [None] /\
  map StoredEvent.entity_id (event_store_of (typed_view t)) = [Some "0x73"].
Proof. split; vm_compute; reflexivity. Qed.

(** When the node reports no timestamp, the clock takes its place in the keys: a log
    delivered again a second later is stored again. *)
Definition untimed : TxInformation * ProtocolFeeAccruedData :=
  ({| tx_block_number := 100; block_timestamp_to_datetime := None; tx_block_hash := "b"; tx_transaction_hash := "t";
      tx_log_index := 0 |}, snd (demo_fee_log 0)).
Definition deliver_at (now : DateTime) (w : demo IngestTables) : demo IngestTables :=
  snd (@protocol_fee_accrued_handler _ _ {| utc_now w := (now, w) |} _ 10 10 [untimed] w).

Example missing_timestamp_duplicates :
  let t := demo_tables (deliver_at 1701 (deliver_at 1700 (demo_database empty_tables []))) in
  length (store_view (fun s => s) t) = 2%nat /\ length (event_store_of (typed_view t)) = 1%nat.
Proof. split; vm_compute; reflexivity. Qed.
