(* ===== verification/IngestOrder.v ===== *)
(** * Numbering and visibility

    The seven callbacks of [crates/rindexer-ingestion/src/handlers.rs] write in
    transactions of their own, numbered by the one sequence of [event_store]:
    PostgreSQL draws a number when the row is inserted, never again, and shows the row
    when its transaction commits. The states below are what any number of open
    transactions can reach with the statements of
    [crates/rindexer-ingestion/src/storage.rs] on logs not stored yet; [appended] is
    what the workers rely on. *)

From S2P Require Import Prelude Events EventSource WorkerWorld DemoWorld.

Record EventStore := {
  visible : list StoredEvent;                 (* committed rows *)
  next_number : Z;                            (* the sequence, outside of transactions *)
  open_txs : gmap nat (list StoredEvent)      (* rows of the transactions in flight *)
}.

Definition no_rows : EventStore := {| visible := []; next_number := 1; open_txs := ∅ |}.

(** [begin] *)
Definition begin_batch (tx : nat) (d : EventStore) : EventStore :=
  {| visible := visible d; next_number := next_number d; open_txs := <[tx := []]> (open_txs d) |}.
(** One row of the [INSERT] of [bulk_insert_event_store]. *)
Definition insert_row (tx : nat) (rows : list StoredEvent) (e : StoredEvent) (d : EventStore) : EventStore :=
  {| visible := visible d; next_number := next_number d + 1; open_txs := <[tx := rows ++ [e]]> (open_txs d) |}.
Definition commit_batch (tx : nat) (rows : list StoredEvent) (d : EventStore) : EventStore :=
  {| visible := visible d ++ rows; next_number := next_number d; open_txs := delete tx (open_txs d) |}.
Definition abandon_batch (tx : nat) (d : EventStore) : EventStore :=
  {| visible := visible d; next_number := next_number d; open_txs := delete tx (open_txs d) |}.

Inductive step : EventStore -> EventStore -> Prop :=
  | step_begin d tx : open_txs d !! tx = None -> step d (begin_batch tx d)
  | step_insert d tx rows e : open_txs d !! tx = Some rows -> seq e = next_number d -> step d (insert_row tx rows e d)
  | step_commit d tx rows : open_txs d !! tx = Some rows -> step d (commit_batch tx rows d)
  | step_abandon d tx rows : open_txs d !! tx = Some rows -> step d (abandon_batch tx d).

(** Callbacks that wait for each other. *)
Definition waits (d d' : EventStore) : Prop := forall tx, open_txs d !! tx = None -> is_Some (open_txs d' !! tx) -> open_txs d = ∅.
Definition serial_step (d d' : EventStore) : Prop := step d d' /\ waits d d'.

(** ** Invariants *)

Record numbered_ok (d : EventStore) : Prop := {
  next_positive : 0 < next_number d;
  visible_drawn e : e ∈ visible d -> 0 < seq e < next_number d;
  open_drawn tx rows e : open_txs d !! tx = Some rows -> e ∈ rows -> 0 < seq e < next_number d;
  visible_unique : unique_seqs (visible d);
  open_unique tx rows : open_txs d !! tx = Some rows -> unique_seqs rows;
  apart tx1 rows1 tx2 rows2 e1 e2 : open_txs d !! tx1 = Some rows1 -> open_txs d !! tx2 = Some rows2 ->
    e1 ∈ rows1 -> e2 ∈ rows2 -> seq e1 = seq e2 -> tx1 = tx2;
  hidden tx rows e1 e2 : open_txs d !! tx = Some rows -> e1 ∈ rows -> e2 ∈ visible d -> seq e1 <> seq e2
}.

Lemma unique_app (a b : list StoredEvent) : unique_seqs a -> unique_seqs b ->
  (forall x y, x ∈ a -> y ∈ b -> seq x <> seq y) -> unique_seqs (a ++ b).
Proof.
  intros Ha Hb Hab. rewrite map_app. apply NoDup_app. split_and!; [done| |done].
  intros s Hs Hs'. apply list_elem_of_fmap in Hs as (x & -> & Hx), Hs' as (y & Heq & Hy). by eapply Hab.
Qed.

Lemma no_rows_ok : numbered_ok no_rows.
Proof.
  split; cbn; try (intros *; rewrite lookup_empty; done); [lia|by intros e ?%not_elem_of_nil|constructor].
Qed.

Lemma begin_ok tx d : numbered_ok d -> numbered_ok (begin_batch tx d).
Proof.
  intros [H1 H2 H3 H4 H5 H6 H7]. split; cbn; try done; intros *; rewrite ?lookup_insert.
  - case_decide; [by intros [= <-] ?%not_elem_of_nil|apply H3].
  - case_decide; [intros [= <-]; constructor|apply H5].
  - repeat case_decide; subst; try done; [by intros [= <-] _ ?%not_elem_of_nil|by intros _ [= <-] _ ?%not_elem_of_nil|apply H6].
  - case_decide; [by intros [= <-] ?%not_elem_of_nil|apply H7].
Qed.

Lemma insert_ok tx rows e d : open_txs d !! tx = Some rows -> seq e = next_number d -> numbered_ok d ->
  numbered_ok (insert_row tx rows e d).
Proof.
  intros Htx He [H1 H2 H3 H4 H5 H6 H7]. split; cbn; try done.
  - lia.
  - intros x Hx. specialize (H2 x Hx). lia.
  - intros tx' rows' x. rewrite lookup_insert. case_decide as Heq.
    + intros [= <-] [Hx| ->%list_elem_of_singleton]%elem_of_app; [specialize (H3 _ _ _ Htx Hx)|]; lia.
    + intros Hr Hx. specialize (H3 _ _ _ Hr Hx). lia.
  - intros tx' rows'. rewrite lookup_insert. case_decide; [|apply H5]. intros [= <-].
    apply unique_app; [by eapply H5|repeat constructor; apply not_elem_of_nil|].
    intros x y Hx ->%list_elem_of_singleton. specialize (H3 _ _ _ Htx Hx). lia.
  - assert (Hfresh : forall tx' rows' x, open_txs d !! tx' = Some rows' -> x ∈ rows' -> seq x <> seq e)
      by (intros tx' rows' x Hr Hx; specialize (H3 _ _ _ Hr Hx); lia).
    intros tx1 rows1 tx2 rows2 e1 e2. rewrite !lookup_insert. repeat case_decide; subst; try done.
    + intros [= <-] Hr [Hx| ->%list_elem_of_singleton]%elem_of_app Hy Hs; [by eapply H6|]. by destruct (Hfresh _ _ _ Hr Hy).
    + intros Hr [= <-] Hx [Hy| ->%list_elem_of_singleton]%elem_of_app Hs; [by eapply H6|]. by destruct (Hfresh _ _ _ Hr Hx).
    + apply H6.
  - intros tx' rows' e1 e2. rewrite lookup_insert. case_decide; [|apply H7].
    intros [= <-] [Hx| ->%list_elem_of_singleton]%elem_of_app Hy; [by eapply H7|]. specialize (H2 _ Hy). lia.
Qed.

Lemma commit_ok tx rows d : open_txs d !! tx = Some rows -> numbered_ok d -> numbered_ok (commit_batch tx rows d).
Proof.
  intros Htx [H1 H2 H3 H4 H5 H6 H7]. split; cbn; try done.
  - intros e [He|He]%elem_of_app; [by apply H2|by eapply H3].
  - intros tx' rows' e [_ Hr]%lookup_delete_Some. by eapply H3.
  - apply unique_app; [done|by eapply H5|]. intros x y Hx Hy Heq. by eapply H7.
  - intros tx' rows' [_ Hr]%lookup_delete_Some. by eapply H5.
  - intros tx1 rows1 tx2 rows2 e1 e2 [_ Hr1]%lookup_delete_Some [_ Hr2]%lookup_delete_Some. by eapply H6.
  - intros tx' rows' e1 e2 [Hne Hr]%lookup_delete_Some Hx [Hy|Hy]%elem_of_app; [by eapply H7|].
    intros Heq. by destruct (Hne (H6 _ _ _ _ _ _ Htx Hr Hy Hx (eq_sym Heq))).
Qed.

Lemma abandon_ok tx d : numbered_ok d -> numbered_ok (abandon_batch tx d).
Proof.
  intros [H1 H2 H3 H4 H5 H6 H7]. split; cbn; try done.
  - intros tx' rows' e [_ Hr]%lookup_delete_Some. by eapply H3.
  - intros tx' rows' [_ Hr]%lookup_delete_Some. by eapply H5.
  - intros tx1 rows1 tx2 rows2 e1 e2 [_ Hr1]%lookup_delete_Some [_ Hr2]%lookup_delete_Some. by eapply H6.
  - intros tx' rows' e1 e2 [_ Hr]%lookup_delete_Some. by eapply H7.
Qed.

Lemma step_ok d d' : step d d' -> numbered_ok d -> numbered_ok d'.
Proof. destruct 1; [apply begin_ok|by apply insert_ok|by apply commit_ok|apply abandon_ok]. Qed.

Lemma steps_ok d d' : rtc step d d' -> numbered_ok d -> numbered_ok d'.
Proof. induction 1 as [|d1 d2 d3 Hs _ IH]; [done|]. intros ?. by eapply IH, step_ok. Qed.

(** A commit appends exactly when nothing visible has a larger number. *)
Definition in_order (d : EventStore) (rows : list StoredEvent) : Prop :=
  forall e x, e ∈ visible d -> x ∈ rows -> seq e < seq x.

Lemma commit_appends tx rows d : numbered_ok d -> open_txs d !! tx = Some rows ->
  in_order d rows <-> appended (visible d) (visible (commit_batch tx rows d)).
Proof.
  intros Hok Htx. pose proof (visible_unique _ (commit_ok _ _ _ Htx Hok)) as Hu. split.
  - intros Hin. exists rows. split_and!; try done. intros e He. by eapply (open_drawn _ Hok).
  - intros (more & Heq & _ & _ & Hlt) e x He Hx. cbn in Heq. apply app_inv_head in Heq as <-. by apply Hlt.
Qed.

Lemma same_appends d d' : numbered_ok d -> visible d' = visible d -> appended (visible d) (visible d').
Proof. intros Hok ->. apply appended_refl, Hok. Qed.

Lemma step_appends d d' : numbered_ok d -> step d d' ->
  (forall tx rows, open_txs d !! tx = Some rows -> in_order d rows) -> appended (visible d) (visible d').
Proof.
  intros Hok Hstep Hin. destruct Hstep as [d tx Htx|d tx rows e Htx He|d tx rows Htx|d tx rows Htx];
    try by apply same_appends. by apply commit_appends, (Hin tx).
Qed.

(** Serial callbacks keep every open row above the visible ones. *)
Lemma serial_in_order d d' : serial_step d d' -> numbered_ok d ->
  (forall tx rows, open_txs d !! tx = Some rows -> in_order d rows /\ open_txs d = {[tx := rows]}) ->
  (forall tx rows, open_txs d' !! tx = Some rows -> in_order d' rows /\ open_txs d' = {[tx := rows]}).
Proof.
  intros [Hstep Hwait] Hok Hin. destruct Hstep as [d tx Htx|d tx rows e Htx He|d tx rows Htx|d tx rows Htx]; cbn.
  - intros tx' rows'. assert (Hemp : open_txs d = ∅).
    { apply (Hwait tx Htx). cbn. by rewrite lookup_insert_eq. }
    rewrite Hemp, insert_empty. intros [<- <-]%lookup_singleton_Some. split; [|done].
    by intros e x _ ?%not_elem_of_nil.
  - destruct (Hin _ _ Htx) as [Hord Hone]. rewrite Hone, insert_singleton_eq. intros tx' rows' [<- <-]%lookup_singleton_Some.
    split; [|done]. intros x y Hx [Hy| ->%list_elem_of_singleton]%elem_of_app; [by apply Hord|].
    pose proof (visible_drawn _ Hok _ Hx). lia.
  - destruct (Hin _ _ Htx) as [_ ->]. rewrite delete_singleton_eq. intros tx' rows'. by rewrite lookup_empty.
  - destruct (Hin _ _ Htx) as [_ ->]. rewrite delete_singleton_eq. intros tx' rows'. by rewrite lookup_empty.
Qed.

(** ** Properties *)

(** Ingestion one callback at a time. While callbacks wait for each other, whatever they
    insert, commit and abandon from an empty store, the visible rows only ever gain rows
    with larger positive numbers, which is what the workers rely on. *)
Theorem serial_ingestion_appends (d d' : EventStore)
  (Hreach : rtc serial_step no_rows d) (Hstep : serial_step d d') : appended (visible d) (visible d').
Proof.
  assert (Hgo : numbered_ok d /\ forall tx rows, open_txs d !! tx = Some rows -> in_order d rows /\ open_txs d = {[tx := rows]}).
  { assert (H0 : numbered_ok no_rows /\ forall tx rows, open_txs no_rows !! tx = Some rows ->
      in_order no_rows rows /\ open_txs no_rows = {[tx := rows]}).
    { split; [apply no_rows_ok|]. intros tx rows. cbn. by rewrite lookup_empty. }
    clear Hstep. revert H0. induction Hreach as [|d1 d2 d3 Hs _ IH]; [done|]. intros [Hok Hin]. apply IH. split.
    - eapply step_ok; [apply Hs|done].
    - by apply (serial_in_order d1). }
  destruct Hgo as [Hok Hin]. apply step_appends; [done|apply Hstep|]. intros tx rows Htx. exact (proj1 (Hin _ _ Htx)).
Qed.

(** Two callbacks, each with one row, whose commits come in the other order. *)
Definition first_row : StoredEvent := sample_event 1 "Deposited" Null.
Definition second_row : StoredEvent := sample_event 2 "Redeemed" Null.
Definition both_types : list string := ["Deposited"; "Redeemed"].

Definition both_open : EventStore := insert_row 2 [] second_row (begin_batch 2 (insert_row 1 [] first_row (begin_batch 1 no_rows))).
Definition second_visible : EventStore := commit_batch 2 [second_row] both_open.
Definition both_visible : EventStore := commit_batch 1 [first_row] second_visible.

Lemma both_reached : rtc step no_rows second_visible /\ step second_visible both_visible.
Proof.
  split; [|by apply step_commit]. eapply rtc_l; [by apply (step_begin _ 1)|]. eapply rtc_l; [by apply (step_insert _ 1 [] first_row)|].
  eapply rtc_l; [by apply (step_begin _ 2)|]. eapply rtc_l; [by apply (step_insert _ 2 [] second_row)|].
  by apply rtc_once, step_commit.
Qed.

(** C15 (overlapping callbacks lose rows). Two callbacks can overlap so that a worker of both
    event types reads a batch, moves its checkpoint to the batch's last number, and a
    row that becomes visible afterwards is never in a batch again, however the store
    goes on: its number is below the checkpoint. *)
Theorem overlapping_ingestion_skips :
  exists (d1 d2 : EventStore) (last e : StoredEvent),
    rtc step no_rows d1 /\ step d1 d2 /\
    list.last (event_reader_read (visible d1) both_types 0 500) = Some last /\
    (e ∉ event_reader_read (visible d1) both_types 0 500) /\
    e ∈ visible d2 /\ wanted both_types 0 e /\
    forall d3 (checkpoint n : Z), rtc step d2 d3 -> seq last <= checkpoint ->
      e ∉ event_reader_read (visible d3) both_types checkpoint n.
Proof.
  destruct both_reached as [Hr Hs].
  exists second_visible, both_visible, second_row, first_row. split_and!; [exact Hr|exact Hs|vm_compute; reflexivity|..].
  - intros Hin. apply batch_rows in Hin as [Hin _]. apply list_elem_of_singleton in Hin. discriminate Hin.
  - apply elem_of_app. right. by left.
  - unfold wanted, both_types. split; [by left|done].
  - intros d3 checkpoint n _ Hc Hin. apply batch_rows in Hin as [_ (_ & Hlt & _)]. cbn in *. lia.
Qed.

Lemma serial_ingestion_appends_witness :
  let d := insert_row 1 [] first_row (begin_batch 1 no_rows) in
  rtc serial_step no_rows d /\ appended (visible d) (visible (commit_batch 1 [first_row] d)).
Proof.
  intros d. assert (Hw : forall d1 tx rows e, open_txs d1 !! tx = Some rows -> waits d1 (insert_row tx rows e d1)).
  { intros d1 tx rows e Htx tx' Hn. cbn. rewrite lookup_insert. case_decide; [by subst; rewrite Htx in Hn|].
    rewrite Hn. by intros [? ?]. }
  assert (Hr : rtc serial_step no_rows d).
  { eapply rtc_l; [split; [by apply (step_begin _ 1)|by intros tx]|]. apply rtc_once.
    split; [by apply (step_insert _ 1 [] first_row)|by apply Hw]. }
  split; [exact Hr|]. apply (serial_ingestion_appends d); [exact Hr|]. split; [by apply step_commit|].
  intros tx Hn [rows Hs]. cbn in Hs. apply lookup_delete_Some in Hs as [_ Hs]. change (open_txs d !! tx = Some rows) in Hs.
  by rewrite Hn in Hs.
Defined.
