(* ===== verification/MultiVaultAbi.v ===== *)
(** * The contract's events

    The event entries of the ABI in [multi_vault_abi_gen.rs], from which the [sol!]
    macro of alloy derives the types and decoders of the logs, and the seven events of
    [multi_vault.rs] the ingestion registers for, with the topic identifiers written
    there. A topic identifier has to be the Keccak-256 hash of its event's signature. *)

From Stdlib Require Import Ascii.
From stdpp Require Import pretty.
From S2P Require Import Prelude MachineInt Text.

(** ** Keccak-256

    The hash of the Ethereum standards, with which the first topic of a log names the
    event. It is the specification the topic identifiers of the ingestion are compared
    with; no file of the repository computes it. The permutation is Keccak-f[1600]: 25
    lanes of 64 bits, lane [x + 5 y] holding column [x] of plane [y]. *)

Definition rotl64 (a n : Z) : Z := as_u64 (Z.lor (Z.shiftl a n) (Z.shiftr a (64 - n))).
Definition not64 (a : Z) : Z := Z.lxor a U64_MAX.

Definition round_constants : list Z :=
  [0x0000000000000001; 0x0000000000008082; 0x800000000000808A; 0x8000000080008000;
   0x000000000000808B; 0x0000000080000001; 0x8000000080008081; 0x8000000000008009;
   0x000000000000008A; 0x0000000000000088; 0x0000000080008009; 0x000000008000000A;
   0x000000008000808B; 0x800000000000008B; 0x8000000000008089; 0x8000000000008003;
   0x8000000000008002; 0x8000000000000080; 0x000000000000800A; 0x800000008000000A;
   0x8000000080008081; 0x8000000000008080; 0x0000000080000001; 0x8000000080008008].

(** The rotations of rho, by lane. *)
Definition rotations : list Z :=
  [0; 1; 62; 28; 27;  36; 44; 6; 55; 20;  3; 10; 43; 25; 39;  41; 45; 15; 21; 8;  18; 2; 61; 56; 14].

Definition lane (a : list Z) (i : nat) : Z := nth i a 0.
Definition at_xy (x y : nat) : nat := (x mod 5 + 5 * (y mod 5))%nat.
Definition lanes (f : nat -> nat -> Z) : list Z := map (fun i => f (i mod 5)%nat (i / 5)%nat) (seq 0 25).

Definition theta (a : list Z) : list Z :=
  let c := map (fun x => foldr Z.lxor 0 (map (fun y => lane a (at_xy x y)) (seq 0 5))) (seq 0 5) in
  let d := map (fun x => Z.lxor (lane c ((x + 4) mod 5)) (rotl64 (lane c ((x + 1) mod 5)) 1)) (seq 0 5) in
  lanes (fun x y => Z.lxor (lane a (at_xy x y)) (lane d x)).

(** Lane [(x, y)] goes to [(y, 2 x + 3 y)]: lane [(u, v)] comes from [(u + 3 v, u)]. *)
Definition rho_pi (a : list Z) : list Z :=
  lanes (fun u v => let i := at_xy (u + 3 * v) u in rotl64 (lane a i) (lane rotations i)).

Definition chi (b : list Z) : list Z :=
  lanes (fun x y => Z.lxor (lane b (at_xy x y))
    (Z.land (not64 (lane b (at_xy (x + 1) y))) (lane b (at_xy (x + 2) y)))).

Definition iota_step (rc : Z) (a : list Z) : list Z :=
  match a with [] => [] | a0 :: a => Z.lxor a0 rc :: a end.

Definition keccak_f (a : list Z) : list Z :=
  foldl (fun a rc => iota_step rc (chi (rho_pi (theta a)))) a round_constants.

(** The sponge, of rate 136 bytes. *)

Definition rate : nat := 136.

Definition padded (m : list Z) : list Z :=
  let k := (rate - length m mod rate)%nat in
  m ++ match k with
       | 1%nat => [0x81]
       | _ => [1] ++ repeat 0 (k - 2) ++ [0x80]
       end.

(** Little-endian. *)
Definition le_value (bytes : list Z) : Z := foldr (fun b acc => b + 256 * acc) 0 bytes.
Fixpoint le_bytes (n : nat) (v : Z) : list Z :=
  match n with O => [] | S n => v mod 256 :: le_bytes n (v / 256) end.

Fixpoint words (n : nat) (bytes : list Z) : list Z :=
  match n with O => [] | S n => le_value (take 8 bytes) :: words n (drop 8 bytes) end.

Definition absorb (a block : list Z) : list Z :=
  keccak_f (zip_with Z.lxor a (words 17 block ++ repeat 0 8)).

Fixpoint sponge (fuel : nat) (a m : list Z) : list Z :=
  match fuel, m with
  | S fuel, _ :: _ => sponge fuel (absorb a (take rate m)) (drop rate m)
  | _, _ => a
  end.

Definition bytes_of (s : string) : list Z := map byte (String.list_ascii_of_string s).
Definition string_of (bytes : list Z) : string :=
  String.string_of_list_ascii (map (fun b => Ascii.ascii_of_N (Z.to_N b)) bytes).

(** One block of the sponge takes [rate] bytes, so the length is fuel enough. *)
Definition keccak256 (s : string) : string :=
  let m := padded (bytes_of s) in
  string_of (concat (map (le_bytes 8) (take 4 (sponge (length m) (repeat 0 25) m)))).

Lemma length_le_bytes n v : length (le_bytes n v) = n.
Proof. revert v. induction n as [|n IH]; intros v; [done|]. cbn. by rewrite IH. Qed.

(** The published digest of the empty message. *)
Example keccak256_empty : bytes_of (keccak256 "") =
  [0xc5; 0xd2; 0x46; 0x01; 0x86; 0xf7; 0x23; 0x3c; 0x92; 0x7e; 0x7d; 0xb2; 0xdc; 0xc7; 0x03; 0xc0;
   0xe5; 0x00; 0xb6; 0x53; 0xca; 0x82; 0x27; 0x3b; 0x7b; 0xfa; 0xd8; 0x04; 0x5d; 0x85; 0xa4; 0x70].
Proof. vm_compute. reflexivity. Qed.

(** And the first topic of a token transfer. *)
Example keccak256_transfer : bytes_of (keccak256 "Transfer(address,address,uint256)") =
  [0xdd; 0xf2; 0x52; 0xad; 0x1b; 0xe2; 0xc8; 0x9b; 0x69; 0xc2; 0xb0; 0x68; 0xfc; 0x37; 0x8d; 0xaa;
   0x95; 0x2b; 0xa7; 0xf1; 0x63; 0xc4; 0xa1; 0x16; 0x28; 0xf5; 0x5a; 0x4d; 0xf5; 0x23; 0xb3; 0xef].
Proof. vm_compute. reflexivity. Qed.

(** ** The ABI *)

Inductive SolType :=
  | TAddress
  | TFixed (bytes : Z)    (* bytes32 *)
  | TUint (bits : Z)
  | TInt (bits : Z)
  | TBytes
  | TBytesArray.

Record EventInput := { input_name : string; input_type : SolType; input_indexed : bool }.
Record EventAbi := { abi_name : string; inputs : list EventInput; anonymous : bool }.

Definition indexed (n : string) (t : SolType) : EventInput :=
  {| input_name := n; input_type := t; input_indexed := true |}.
Definition data (n : string) (t : SolType) : EventInput :=
  {| input_name := n; input_type := t; input_indexed := false |}.
(** None of the events is anonymous. *)
Definition event (name : string) (inputs : list EventInput) : EventAbi :=
  {| abi_name := name; inputs := inputs; anonymous := false |}.

Definition approval_type_updated_abi : EventAbi := event "ApprovalTypeUpdated"
  [indexed "sender" TAddress; indexed "receiver" TAddress; data "approvalType" (TUint 8)].

Definition atom_config_updated_abi : EventAbi := event "AtomConfigUpdated"
  [data "atomCreationProtocolFee" (TUint 256); data "atomWalletDepositFee" (TUint 256)].

Definition atom_context_registered_abi : EventAbi := event "AtomContextRegistered"
  [indexed "termId" (TFixed 32); indexed "registrant" TAddress; data "uris" TBytesArray].

Definition atom_created_abi : EventAbi := event "AtomCreated"
  [indexed "creator" TAddress; indexed "termId" (TFixed 32); data "atomData" TBytes;
   data "atomWallet" TAddress].

Definition atom_uri_config_updated_abi : EventAbi := event "AtomUriConfigUpdated"
  [data "maxUriCount" (TUint 32); data "maxUriLength" (TUint 32)].

Definition atom_wallet_deposit_fee_collected_abi : EventAbi := event "AtomWalletDepositFeeCollected"
  [indexed "termId" (TFixed 32); indexed "sender" TAddress; data "amount" (TUint 256)].

Definition atom_wallet_deposit_fees_claimed_abi : EventAbi := event "AtomWalletDepositFeesClaimed"
  [indexed "termId" (TFixed 32); indexed "atomWalletOwner" TAddress; indexed "feesClaimed" (TUint 256)].

Definition bonding_curve_config_updated_abi : EventAbi := event "BondingCurveConfigUpdated"
  [indexed "registry" TAddress; data "defaultCurveId" (TUint 256)].

Definition deposited_abi : EventAbi := event "Deposited"
  [indexed "sender" TAddress; indexed "receiver" TAddress; indexed "termId" (TFixed 32);
   data "curveId" (TUint 256); data "assets" (TUint 256); data "assetsAfterFees" (TUint 256);
   data "shares" (TUint 256); data "totalShares" (TUint 256); data "vaultType" (TUint 8)].

Definition general_config_updated_abi : EventAbi := event "GeneralConfigUpdated"
  [indexed "admin" TAddress; indexed "protocolMultisig" TAddress; data "feeDenominator" (TUint 256);
   indexed "trustBonding" TAddress; data "minDeposit" (TUint 256); data "minShare" (TUint 256);
   data "atomDataMaxLength" (TUint 256); data "feeThreshold" (TUint 256)].

Definition initialized_abi : EventAbi := event "Initialized"
  [data "version" (TUint 64)].

Definition paused_abi : EventAbi := event "Paused"
  [data "account" TAddress].

Definition personal_utilization_added_abi : EventAbi := event "PersonalUtilizationAdded"
  [indexed "user" TAddress; indexed "epoch" (TUint 256); indexed "valueAdded" (TInt 256);
   data "personalUtilization" (TInt 256)].

Definition personal_utilization_removed_abi : EventAbi := event "PersonalUtilizationRemoved"
  [indexed "user" TAddress; indexed "epoch" (TUint 256); indexed "valueRemoved" (TInt 256);
   data "personalUtilization" (TInt 256)].

Definition protocol_fee_accrued_abi : EventAbi := event "ProtocolFeeAccrued"
  [indexed "epoch" (TUint 256); indexed "sender" TAddress; data "amount" (TUint 256)].

Definition protocol_fee_transferred_abi : EventAbi := event "ProtocolFeeTransferred"
  [indexed "epoch" (TUint 256); indexed "destination" TAddress; data "amount" (TUint 256)].

Definition redeemed_abi : EventAbi := event "Redeemed"
  [indexed "sender" TAddress; indexed "receiver" TAddress; indexed "termId" (TFixed 32);
   data "curveId" (TUint 256); data "shares" (TUint 256); data "totalShares" (TUint 256);
   data "assets" (TUint 256); data "fees" (TUint 256); data "vaultType" (TUint 8)].

Definition role_admin_changed_abi : EventAbi := event "RoleAdminChanged"
  [indexed "role" (TFixed 32); indexed "previousAdminRole" (TFixed 32); indexed "newAdminRole" (TFixed 32)].

Definition role_granted_abi : EventAbi := event "RoleGranted"
  [indexed "role" (TFixed 32); indexed "account" TAddress; indexed "sender" TAddress].

Definition role_revoked_abi : EventAbi := event "RoleRevoked"
  [indexed "role" (TFixed 32); indexed "account" TAddress; indexed "sender" TAddress].

Definition share_price_changed_abi : EventAbi := event "SharePriceChanged"
  [indexed "termId" (TFixed 32); indexed "curveId" (TUint 256); data "sharePrice" (TUint 256);
   data "totalAssets" (TUint 256); data "totalShares" (TUint 256); data "vaultType" (TUint 8)].

Definition timelock_set_abi : EventAbi := event "TimelockSet"
  [indexed "timelock" TAddress].

Definition total_utilization_added_abi : EventAbi := event "TotalUtilizationAdded"
  [indexed "epoch" (TUint 256); indexed "valueAdded" (TInt 256); indexed "totalUtilization" (TInt 256)].

Definition total_utilization_removed_abi : EventAbi := event "TotalUtilizationRemoved"
  [indexed "epoch" (TUint 256); indexed "valueRemoved" (TInt 256); indexed "totalUtilization" (TInt 256)].

Definition triple_config_updated_abi : EventAbi := event "TripleConfigUpdated"
  [data "tripleCreationProtocolFee" (TUint 256); data "atomDepositFractionForTriple" (TUint 256)].

Definition triple_created_abi : EventAbi := event "TripleCreated"
  [indexed "creator" TAddress; indexed "termId" (TFixed 32); data "subjectId" (TFixed 32);
   data "predicateId" (TFixed 32); data "objectId" (TFixed 32)].

Definition unpaused_abi : EventAbi := event "Unpaused"
  [data "account" TAddress].

Definition vault_fees_updated_abi : EventAbi := event "VaultFeesUpdated"
  [data "entryFee" (TUint 256); data "exitFee" (TUint 256); data "protocolFee" (TUint 256)].

Definition wallet_config_updated_abi : EventAbi := event "WalletConfigUpdated"
  [indexed "entryPoint" TAddress; indexed "atomWarden" TAddress; indexed "atomWalletBeacon" TAddress;
   data "atomWalletFactory" TAddress].

Definition contract_events : list EventAbi :=
  [approval_type_updated_abi; atom_config_updated_abi; atom_context_registered_abi; atom_created_abi;
   atom_uri_config_updated_abi; atom_wallet_deposit_fee_collected_abi; atom_wallet_deposit_fees_claimed_abi;
   bonding_curve_config_updated_abi; deposited_abi; general_config_updated_abi; initialized_abi; paused_abi;
   personal_utilization_added_abi; personal_utilization_removed_abi; protocol_fee_accrued_abi;
   protocol_fee_transferred_abi; redeemed_abi; role_admin_changed_abi; role_granted_abi; role_revoked_abi;
   share_price_changed_abi; timelock_set_abi; total_utilization_added_abi; total_utilization_removed_abi;
   triple_config_updated_abi; triple_created_abi; unpaused_abi; vault_fees_updated_abi;
   wallet_config_updated_abi].

(** The canonical text of a type, and the signature a log's first topic hashes. *)
Definition type_text (t : SolType) : string :=
  match t with
  | TAddress => "address"
  | TFixed n => "bytes" +:+ pretty n
  | TUint n => "uint" +:+ pretty n
  | TInt n => "int" +:+ pretty n
  | TBytes => "bytes"
  | TBytesArray => "bytes[]"
  end.

Definition signature (e : EventAbi) : string :=
  abi_name e +:+ "(" +:+ String.concat "," (map (fun i => type_text (input_type i)) (inputs e)) +:+ ")".

(** ** [MultiVaultEventType] *)

Inductive MultiVaultEventType :=
  | AtomContextRegistered | AtomCreated | Deposited | ProtocolFeeAccrued | Redeemed | SharePriceChanged | TripleCreated.

#[global] Instance multi_vault_event_type_eq_dec : EqDecision MultiVaultEventType.
Proof. solve_decision. Defined.

Definition topic_id (self : MultiVaultEventType) : string :=
  match self with
  | AtomContextRegistered => "0x006dfca493b1686f1cc639fa9675dbd6f4a694a9d3230c346f3879d925382097"
  | AtomCreated => "0xfd579ad7468b1720e08f84efe16900074f3ffdaaeaa82e675e5aec69bf393189"
  | Deposited => "0xf717428d3271f4ca44ee92a96ecda708463de1c200f30db4e295def5e8db6b4a"
  | ProtocolFeeAccrued => "0xc7a5742f069dec143091f9dc7c9ca18f1212ac3f76cd16f5f8aa6f5cab9b2afc"
  | Redeemed => "0x5ab85658e5658520d47644e1417584159fc8edb9712149792a9337ff5e1048a4"
  | SharePriceChanged => "0xcc9bc63a4b047be4850fcbada8d7ed7aa097ed4f6c3b55bebc7e108ea1d2f824"
  | TripleCreated => "0xf13505b910c49b286cf7fbaf1a78620cf7d8bda0e8e39c1baed620c08af686e7"
  end.

Definition event_name (self : MultiVaultEventType) : string :=
  match self with
  | AtomContextRegistered => "AtomContextRegistered"
  | AtomCreated => "AtomCreated"
  | Deposited => "Deposited"
  | ProtocolFeeAccrued => "ProtocolFeeAccrued"
  | Redeemed => "Redeemed"
  | SharePriceChanged => "SharePriceChanged"
  | TripleCreated => "TripleCreated"
  end.

Definition contract_name (self : MultiVaultEventType) : string := "MultiVault".

(** The type [sol!] generates for it. *)
Definition event_abi (self : MultiVaultEventType) : EventAbi :=
  match self with
  | AtomContextRegistered => atom_context_registered_abi
  | AtomCreated => atom_created_abi
  | Deposited => deposited_abi
  | ProtocolFeeAccrued => protocol_fee_accrued_abi
  | Redeemed => redeemed_abi
  | SharePriceChanged => share_price_changed_abi
  | TripleCreated => triple_created_abi
  end.

(** ** Values *)

Inductive SolValue :=
  | SAddress (b : string)
  | SFixed (b : string)
  | SUint (n : Z)
  | SInt (n : Z)
  | SBytes (b : string)
  | SBytesArray (bs : list string).

Definition has_type (t : SolType) (v : SolValue) : bool :=
  match t, v with
  | TAddress, SAddress b => bool_decide (String.length b = 20%nat)
  | TFixed n, SFixed b => bool_decide (Z.of_nat (String.length b) = n)
  | TUint n, SUint x => (0 <=? x) && (x <? 2 ^ n)
  | TInt n, SInt x => (- 2 ^ (n - 1) <=? x) && (x <? 2 ^ (n - 1))
  | TBytes, SBytes _ => true
  | TBytesArray, SBytesArray _ => true
  | _, _ => false
  end.

Definition well_typed (e : EventAbi) (vs : list SolValue) : Prop :=
  Forall2 (fun i v => has_type (input_type i) v = true) (inputs e) vs.

(** ** Alloy

    The decoder [sol!] derives from an ABI entry, and its inverse, by which the
    contract emits its logs: the topics, of 32 bytes each, and the data. *)
Class Alloy := {
  SolError : Type;
  decode_raw_log : EventAbi -> list string -> string -> result (list SolValue) SolError;
  encode_log : EventAbi -> list SolValue -> list string * string;
  parse_b256 : string -> option string
}.

Record AlloyLaws `{Alloy} : Prop := {
  law_first_topic e vs : e ∈ contract_events -> hd_error (fst (encode_log e vs)) = Some (keccak256 (signature e));
  law_decode_encoded e vs : e ∈ contract_events -> well_typed e vs ->
    decode_raw_log e (fst (encode_log e vs)) (snd (encode_log e vs)) = Ok vs;
  law_other_topic e topics data : e ∈ contract_events -> hd_error topics <> Some (keccak256 (signature e)) ->
    exists err, decode_raw_log e topics data = Err err;
  law_parse_b256 b : String.length b = 32%nat -> parse_b256 ("0x" +:+ demo_hex_encode b) = Some b
}.

(** ** Topics *)

(** Every topic identifier is the hash of the signature the decoder expects. *)
Lemma topic_hashes e : topic_id e = "0x" +:+ demo_hex_encode (keccak256 (signature (event_abi e))).
Proof. destruct e; vm_compute; reflexivity. Qed.

Definition topics_of_contract : list string := map (fun e => keccak256 (signature e)) contract_events.

Lemma contract_topics_distinct : NoDup topics_of_contract.
Proof. apply (bool_decide_unpack _). vm_compute. reflexivity. Qed.

Lemma registered_in_contract e : event_abi e ∈ contract_events.
Proof. destruct e; unfold contract_events; cbn [event_abi]; repeat (first [by left|right]). Qed.

Lemma signature_topic_inj e1 e2 : e1 ∈ contract_events -> e2 ∈ contract_events ->
  keccak256 (signature e1) = keccak256 (signature e2) -> e1 = e2.
Proof.
  intros H1 H2 Hk. apply list_elem_of_lookup in H1 as [i Hi], H2 as [j Hj].
  assert (i = j) as <- by (eapply (NoDup_lookup topics_of_contract); [apply contract_topics_distinct|..];
    unfold topics_of_contract; rewrite list_lookup_fmap; [by rewrite Hi|by rewrite Hj; cbn; rewrite Hk]).
  congruence.
Qed.

Lemma topic_length e : String.length (keccak256 (signature (event_abi e))) = 32%nat.
Proof. destruct e; vm_compute; reflexivity. Qed.

(** ** A concrete codec

    The values under their number in an enumeration of them, to run the code on. *)

#[global] Instance sol_value_eq_dec : EqDecision SolValue.
Proof. solve_decision. Defined.

Definition value_parts (v : SolValue) : Z * Z * list string :=
  match v with
  | SAddress b => (0, 0, [b])
  | SFixed b => (1, 0, [b])
  | SUint n => (2, n, [])
  | SInt n => (3, n, [])
  | SBytes b => (4, 0, [b])
  | SBytesArray bs => (5, 0, bs)
  end.
Definition value_of (p : Z * Z * list string) : option SolValue :=
  match p with
  | (0, _, [b]) => Some (SAddress b)
  | (1, _, [b]) => Some (SFixed b)
  | (2, n, _) => Some (SUint n)
  | (3, n, _) => Some (SInt n)
  | (4, _, [b]) => Some (SBytes b)
  | (5, _, bs) => Some (SBytesArray bs)
  | _ => None
  end.

#[global] Instance sol_value_countable : Countable SolValue.
Proof. refine (inj_countable value_parts value_of _). by intros []. Defined.

Definition demo_decode_raw_log (e : EventAbi) (topics : list string) (data : string) : result (list SolValue) unit :=
  if decide (hd_error topics = Some (keccak256 (signature e))) then
    match natural data with
    | Some (Z.pos p) => ok_or (decode p) tt
    | _ => Err tt
    end
  else Err tt.

Definition demo_parse_b256 (s : string) : option string :=
  h ← strip_prefix "0x" s; b ← demo_hex_decode h; if decide (String.length b = 32%nat) then Some b else None.

#[global] Instance demo_sol : Alloy := {|
  SolError := unit;
  decode_raw_log := demo_decode_raw_log;
  encode_log e vs := ([keccak256 (signature e)], pretty (Z.pos (encode vs)));
  parse_b256 := demo_parse_b256
|}.

Lemma demo_sol_laws : AlloyLaws.
Proof.
  split.
  - done.
  - intros e vs _ _. change (demo_decode_raw_log e [keccak256 (signature e)] (pretty (Z.pos (encode vs))) = Ok vs).
    unfold demo_decode_raw_log. rewrite decide_True by done.
    rewrite natural_pretty_nonneg by lia. by rewrite decode_encode.
  - intros e topics data _ Ht. exists tt. change (demo_decode_raw_log e topics data = Err tt). unfold demo_decode_raw_log. by rewrite decide_False.
  - intros b Hb. change ((b' ← demo_hex_decode (demo_hex_encode b);
      if decide (String.length b' = 32%nat) then Some b' else None) = Some b). rewrite demo_hex_round. cbn.
    by rewrite decide_True.
Qed.
