(* ===== verification/EventLog.v ===== *)
(** * The event log

    [crates/projections/src/projection/timescaledb/event_log.rs]: a canonical row
    for every event and a fact row for every financial one, each inserted with
    [ON CONFLICT (event_id) DO NOTHING]. This is the projection for which the
    replay of a batch is harmless. *)

From S2P Require Import Prelude Events Errors Retry WorkerWorld DeadLetter PgTx PgCommon DemoWorld DemoDatabase.

Module EventLog.

Definition PROJECTION_NAME : string := "event_log".

Record EventRow := {
  event_type : string;
  block_number : BlockNumber;
  transaction_hash : string;
  log_index : Z;
  ts : DateTime
}.

Record DepositFact := {
  df_sender_id : string; df_receiver_id : string; df_term_id : string; df_curve_id : string;
  df_vault_type : Z; df_assets : Z; df_assets_after_fees : Z; df_shares : Z; df_total_shares : Z;
  df_block_number : BlockNumber; df_transaction_hash : string; df_ts : DateTime
}.

Record RedemptionFact := {
  rf_sender_id : string; rf_receiver_id : string; rf_term_id : string; rf_curve_id : string;
  rf_vault_type : Z; rf_shares : Z; rf_total_shares : Z; rf_assets : Z; rf_fees : Z;
  rf_block_number : BlockNumber; rf_transaction_hash : string; rf_ts : DateTime
}.

Record FeeTransferFact := {
  ff_sender_id : string; ff_amount : Z; ff_epoch : string;
  ff_block_number : BlockNumber; ff_transaction_hash : string; ff_ts : DateTime
}.

(** Keyed by [event_id]. *)
Record EventTables := {
  event : gmap string EventRow;
  deposit_fact : gmap string DepositFact;
  redemption_fact : gmap string RedemptionFact;
  fee_transfer_fact : gmap string FeeTransferFact
}.

Definition insert_event (id : string) (row : EventRow) (t : EventTables) : EventTables := {|
  event := insert_new id row (event t); deposit_fact := deposit_fact t;
  redemption_fact := redemption_fact t; fee_transfer_fact := fee_transfer_fact t |}.
Definition insert_deposit_fact (id : string) (row : DepositFact) (t : EventTables) : EventTables := {|
  event := event t; deposit_fact := insert_new id row (deposit_fact t);
  redemption_fact := redemption_fact t; fee_transfer_fact := fee_transfer_fact t |}.
Definition insert_redemption_fact (id : string) (row : RedemptionFact) (t : EventTables) : EventTables := {|
  event := event t; deposit_fact := deposit_fact t;
  redemption_fact := insert_new id row (redemption_fact t); fee_transfer_fact := fee_transfer_fact t |}.
Definition insert_fee_transfer_fact (id : string) (row : FeeTransferFact) (t : EventTables) : EventTables := {|
  event := event t; deposit_fact := deposit_fact t; redemption_fact := redemption_fact t;
  fee_transfer_fact := insert_new id row (fee_transfer_fact t) |}.

Definition id_of (p : ParsedEvent) : string :=
  let meta := ParsedEvent.metadata p in
  event_id_of (EventMetadataRef.transaction_hash meta) (EventMetadataRef.log_index meta)
    (EventMetadataRef.event_type meta).

Definition event_row (p : ParsedEvent) : EventRow :=
  let meta := ParsedEvent.metadata p in {|
  event_type := EventMetadataRef.event_type meta;
  block_number := EventMetadataRef.block_number meta;
  transaction_hash := EventMetadataRef.transaction_hash meta;
  log_index := EventMetadataRef.log_index meta;
  ts := EventMetadataRef.block_timestamp meta |}.

Definition deposit_fact_row (metadata : EventMetadata) (data : DepositedRecord) : DepositFact := {|
  df_sender_id := dep_sender data; df_receiver_id := dep_receiver data;
  df_term_id := dep_term_id data; df_curve_id := curve_id_string (dep_curve_id data);
  df_vault_type := dep_vault_type data; df_assets := dep_assets data;
  df_assets_after_fees := dep_assets_after_fees data; df_shares := dep_shares data;
  df_total_shares := dep_total_shares data; df_block_number := EventMetadata.block_number metadata;
  df_transaction_hash := EventMetadata.transaction_hash metadata;
  df_ts := EventMetadata.block_timestamp metadata |}.

Definition redemption_fact_row (metadata : EventMetadata) (data : RedeemedRecord) : RedemptionFact := {|
  rf_sender_id := red_sender data; rf_receiver_id := red_receiver data;
  rf_term_id := red_term_id data; rf_curve_id := curve_id_string (red_curve_id data);
  rf_vault_type := red_vault_type data; rf_shares := red_shares data;
  rf_total_shares := red_total_shares data; rf_assets := red_assets data; rf_fees := red_fees data;
  rf_block_number := EventMetadata.block_number metadata;
  rf_transaction_hash := EventMetadata.transaction_hash metadata;
  rf_ts := EventMetadata.block_timestamp metadata |}.

Definition fee_transfer_fact_row (metadata : EventMetadata) (data : ProtocolFeeAccruedRecord)
    : FeeTransferFact := {|
  ff_sender_id := pfa_sender data; ff_amount := pfa_amount data;
  ff_epoch := curve_id_string (pfa_epoch data);
  ff_block_number := EventMetadata.block_number metadata;
  ff_transaction_hash := EventMetadata.transaction_hash metadata;
  ff_ts := EventMetadata.block_timestamp metadata |}.

Section Handlers.
Context {W : Type} `{TxWorld EventTables W} `{EventCodecs}.

Abbreviation step := (@step EventTables W).

Definition insert_deposit_fact_typed (metadata : EventMetadata) (data : DepositedRecord) (id : string)
    : step := exec (insert_deposit_fact id (deposit_fact_row metadata data)).

Definition insert_redemption_fact_typed (metadata : EventMetadata) (data : RedeemedRecord) (id : string)
    : step := exec (insert_redemption_fact id (redemption_fact_row metadata data)).

Definition insert_fee_transfer_fact_typed (metadata : EventMetadata)
    (data : ProtocolFeeAccruedRecord) (id : string) : step :=
  exec (insert_fee_transfer_fact id (fee_transfer_fact_row metadata data)).

(** The canonical insert returns its error with [?] before the classification
    of the others; it is a [Database] error, for which the two do the same. *)
Definition process_event (p : ParsedEvent) : step :=
  exec (insert_event (id_of p) (event_row p)) >>?
  match p with
  | ParsedEvent.Deposited metadata data => insert_deposit_fact_typed metadata data (id_of p)
  | ParsedEvent.Redeemed metadata data => insert_redemption_fact_typed metadata data (id_of p)
  | ParsedEvent.ProtocolFeeAccrued metadata data => insert_fee_transfer_fact_typed metadata data (id_of p)
  | _ => done_step
  end.

Definition process_parsed_batch (events : list ParsedEvent) : W -> result unit ProjectionError * W :=
  run_tx (process_events PROJECTION_NAME process_event events).

(** ** What a batch does *)

Definition insert_fact (p : ParsedEvent) (t : EventTables) : EventTables :=
  match p with
  | ParsedEvent.Deposited metadata data => insert_deposit_fact (id_of p) (deposit_fact_row metadata data) t
  | ParsedEvent.Redeemed metadata data => insert_redemption_fact (id_of p) (redemption_fact_row metadata data) t
  | ParsedEvent.ProtocolFeeAccrued metadata data =>
      insert_fee_transfer_fact (id_of p) (fee_transfer_fact_row metadata data) t
  | _ => t
  end.

Definition apply_event (p : ParsedEvent) (t : EventTables) : EventTables :=
  insert_fact p (insert_event (id_of p) (event_row p) t).

Lemma log_batch_effect (tables : W -> EventTables) (L : TxLaws tables) events :
  batch_implements tables (process_parsed_batch events)
    (fun t => Ok (fold_left (fun t p => apply_event p t) events t)).
Proof.
  apply run_tx_implements; [exact L|].
  apply (does_events_pure _ tables _ _ _ apply_event _ (tx_records _ L)). intros p.
  unfold process_event, insert_deposit_fact_typed, insert_redemption_fact_typed,
    insert_fee_transfer_fact_typed.
  eapply does_ext; [|eapply does_seq; [by apply (implements_exec _ L)|]].
  2: instantiate (1 := fun t => Ok (insert_fact p t)); destruct p; cbn [insert_fact]; auto with tx_db.
  done.
Qed.
End Handlers.

(** The rows a batch leaves for an event. *)
Definition recorded (t : EventTables) (p : ParsedEvent) : Prop :=
  is_Some (event t !! id_of p) /\
  match p with
  | ParsedEvent.Deposited _ _ => is_Some (deposit_fact t !! id_of p)
  | ParsedEvent.Redeemed _ _ => is_Some (redemption_fact t !! id_of p)
  | ParsedEvent.ProtocolFeeAccrued _ _ => is_Some (fee_transfer_fact t !! id_of p)
  | _ => True
  end.

(** Rows are never changed or removed. *)
Record kept (t t' : EventTables) : Prop := {
  kept_event : event t ⊆ event t';
  kept_deposit : deposit_fact t ⊆ deposit_fact t';
  kept_redemption : redemption_fact t ⊆ redemption_fact t';
  kept_fee : fee_transfer_fact t ⊆ fee_transfer_fact t'
}.

#[global] Instance kept_preorder : PreOrder kept.
Proof. split; [by intros t; split|]. intros t1 t2 t3 [] []. split; by etransitivity. Qed.

Lemma apply_event_kept p t : kept t (apply_event p t).
Proof. destruct p; split; cbn; try done; apply insert_new_subseteq. Qed.

Lemma apply_event_recorded p t : recorded (apply_event p t) p.
Proof. destruct p; (split; [apply insert_new_has|]); cbn; try done; apply insert_new_has. Qed.

Lemma recorded_kept t t' p : kept t t' -> recorded t p -> recorded t' p.
Proof.
  intros [] [He Hf]. split; [by eapply lookup_weaken_is_Some|].
  destruct p; try done; by eapply lookup_weaken_is_Some.
Qed.

Lemma apply_event_noop p t : recorded t p -> apply_event p t = t.
Proof.
  intros [He Hf]. unfold apply_event, insert_event. destruct t as [ev df rf ff]. cbn in *.
  rewrite insert_new_present by done.
  destruct p; cbn [insert_fact]; try done;
    unfold insert_deposit_fact, insert_redemption_fact, insert_fee_transfer_fact; cbn in *;
    by rewrite insert_new_present.
Qed.

Lemma apply_events_kept events t :
  let t' := fold_left (fun t p => apply_event p t) events t in
  kept t t' /\ (forall p, p ∈ events -> recorded t' p).
Proof.
  cbv zeta. revert t. induction events as [|q events IH]; intros t; cbn [fold_left].
  { split; [done|]. intros p Hp. by apply not_elem_of_nil in Hp. }
  destruct (IH (apply_event q t)) as [Hk Hr]. split; [by transitivity (apply_event q t); [apply apply_event_kept|]|].
  intros p [->|Hp]%elem_of_cons; [|by apply Hr]. eapply recorded_kept; [exact Hk|apply apply_event_recorded].
Qed.

Lemma apply_events_noop events t :
  (forall p, p ∈ events -> recorded t p) -> fold_left (fun t p => apply_event p t) events t = t.
Proof.
  induction events as [|q events IH]; intros Hr; cbn [fold_left]; [done|].
  rewrite apply_event_noop by (apply Hr; left). apply IH. intros p Hp. apply Hr. by right.
Qed.
End EventLog.

(** ** Properties *)

(** The event log is replay-safe. After a successful batch every event has
    its canonical row and every financial event its fact row, and no row that was
    there has changed. Processing any of these events again, in any order and
    grouping and whatever calls fail, changes nothing. *)
Theorem event_log_replay_safe {W} `{TxWorld EventLog.EventTables W} `{EventCodecs}
  (tables : W -> EventLog.EventTables) (events again : list ParsedEvent) (w w1 : W)
  (L : TxLaws tables) (Hok : EventLog.process_parsed_batch events w = (Ok tt, w1))
  (Hagain : again ⊆ events) :
  (forall p, p ∈ events -> EventLog.recorded (tables w1) p) /\
  EventLog.kept (tables w) (tables w1) /\
  tables (snd (EventLog.process_parsed_batch again w1)) = tables w1.
Proof.
  pose proof (EventLog.log_batch_effect tables L events w) as Hb. rewrite Hok in Hb.
  destruct Hb as [[Ht|[_ ?]] _]; [|done]. injection Ht as Ht.
  destruct (EventLog.apply_events_kept events (tables w)) as [Hk Hr]. rewrite Ht in Hk, Hr.
  split; [done|]. split; [done|].
  pose proof (EventLog.log_batch_effect tables L again w1) as Hb2.
  destruct (EventLog.process_parsed_batch again w1) as [r2 w2]. cbn [snd].
  destruct Hb2 as [[Hok2|[-> _]] _]; [|done]. injection Hok2 as <-.
  apply EventLog.apply_events_noop. auto.
Qed.

#[local] Existing Instance sample_codecs.

#[global] Instance no_events : EmptyTables EventLog.EventTables :=
  {| EventLog.event := ∅; EventLog.deposit_fact := ∅; EventLog.redemption_fact := ∅;
     EventLog.fee_transfer_fact := ∅ |}.

Definition log_fee : ParsedEvent :=
  ParsedEvent.ProtocolFeeAccrued (demo_metadata 3 "ProtocolFeeAccrued")
    {| pfa_epoch := 2; pfa_sender := "0xs"; pfa_amount := 5 |}.
Definition log_unknown : ParsedEvent := ParsedEvent.Unknown (sample_event 4 "Paused" Null).
Definition log_start : demo EventLog.EventTables := demo_database empty_tables [].

Lemma event_log_replay_safe_witness :
  let w1 := snd (EventLog.process_parsed_batch [log_fee; log_unknown] log_start) in
  (forall p, p ∈ [log_fee; log_unknown] -> EventLog.recorded (demo_tables w1) p) /\
  EventLog.kept (demo_tables log_start) (demo_tables w1) /\
  demo_tables (snd (EventLog.process_parsed_batch [log_fee] w1)) = demo_tables w1.
Proof.
  exact (event_log_replay_safe demo_tables [log_fee; log_unknown] [log_fee] log_start _ demo_tx_laws
    ltac:(vm_compute; reflexivity) ltac:(set_solver)).
Defined.
