(* ===== verification/SignalsAnalytics.v ===== *)
(** * The signals projection

    [crates/projections/src/projection/timescaledb/signals_analytics.rs]: one
    [signal] row per deposit and redemption. The statements say [ON CONFLICT DO
    NOTHING], but no migration puts a key or a unique index on [signal]
    ([migrations/timescale/010_create_signals_tables.sql]), so no insert ever
    conflicts: the table is the list of the inserted rows. *)

From S2P Require Import Prelude Events Errors Retry WorkerWorld DeadLetter PgTx PgCommon DemoWorld DemoDatabase.

Module SignalsAnalytics.

Definition PROJECTION_NAME : string := "signals_analytics".

Record SignalRow := {
  event_id : string;
  account_id : string;
  term_id : string;
  curve_id : string;
  signal_type : string;
  delta : Z;
  block_number : BlockNumber;
  ts : DateTime
}.

Abbreviation SignalTable := (list SignalRow).

Definition deposit_signal (metadata : EventMetadata) (data : DepositedRecord) : SignalRow := {|
  event_id := PgCommon.event_id metadata; account_id := dep_receiver data;
  term_id := dep_term_id data; curve_id := curve_id_string (dep_curve_id data);
  signal_type := "deposit"; delta := dep_assets_after_fees data;
  block_number := EventMetadata.block_number metadata; ts := EventMetadata.block_timestamp metadata |}.

Definition redemption_signal (metadata : EventMetadata) (data : RedeemedRecord) : SignalRow := {|
  event_id := PgCommon.event_id metadata; account_id := red_sender data;
  term_id := red_term_id data; curve_id := curve_id_string (red_curve_id data);
  signal_type := "redemption"; delta := red_assets data;
  block_number := EventMetadata.block_number metadata; ts := EventMetadata.block_timestamp metadata |}.

Section Handlers.
Context {W : Type} `{TxWorld SignalTable W} `{EventCodecs}.

Abbreviation step := (@step SignalTable W).

Definition insert_deposit_signal_typed (metadata : EventMetadata) (data : DepositedRecord) : step :=
  exec (fun t => t ++ [deposit_signal metadata data]).

Definition insert_redemption_signal_typed (metadata : EventMetadata) (data : RedeemedRecord) : step :=
  exec (fun t => t ++ [redemption_signal metadata data]).

Definition process_event (p : ParsedEvent) : step :=
  match p with
  | ParsedEvent.Deposited metadata data => insert_deposit_signal_typed metadata data
  | ParsedEvent.Redeemed metadata data => insert_redemption_signal_typed metadata data
  | _ => done_step
  end.

Definition process_parsed_batch (events : list ParsedEvent) : W -> result unit ProjectionError * W :=
  run_tx (process_events PROJECTION_NAME process_event events).

(** The row of an event. *)
Definition signal_of (p : ParsedEvent) : option SignalRow :=
  match p with
  | ParsedEvent.Deposited metadata data => Some (deposit_signal metadata data)
  | ParsedEvent.Redeemed metadata data => Some (redemption_signal metadata data)
  | _ => None
  end.

Lemma signals_batch_effect (tables : W -> SignalTable) (L : TxLaws tables) events :
  batch_implements tables (process_parsed_batch events) (fun t => Ok (t ++ omap signal_of events)).
Proof.
  apply run_tx_implements; [exact L|].
  eapply does_ext; [|apply (does_events_pure _ tables _ _ _
    (fun p t => t ++ match signal_of p with Some s => [s] | None => [] end) _ (tx_records _ L))].
  - intros t. cbv beta. f_equal. revert t. induction events as [|p ps IH]; intros t; cbn.
    { by rewrite app_nil_r. }
    rewrite IH, <- app_assoc. by destruct (signal_of p).
  - intros p. unfold process_event, insert_deposit_signal_typed, insert_redemption_signal_typed.
    destruct p; cbn [signal_of]; auto with tx_db;
      (eapply does_ext; [|by apply does_done]; intros t; by rewrite app_nil_r).
Qed.
End Handlers.
End SignalsAnalytics.

(** ** Properties *)

(** Signals are duplicated by a replay. A successful batch appends one row
    per deposit and redemption, in batch order, and nothing else. When the worker
    processes the batch again, after a failed checkpoint save, every row is
    inserted a second time: the [ON CONFLICT DO NOTHING] that is meant to prevent
    it has nothing to conflict with. *)
Theorem replayed_signals_duplicate {W} `{TxWorld (list SignalsAnalytics.SignalRow) W} `{EventCodecs}
  (tables : W -> list SignalsAnalytics.SignalRow) (events : list ParsedEvent) (w w1 w2 : W)
  (L : TxLaws tables)
  (Hok : SignalsAnalytics.process_parsed_batch events w = (Ok tt, w1))
  (Hagain : SignalsAnalytics.process_parsed_batch events w1 = (Ok tt, w2)) :
  let signals := omap SignalsAnalytics.signal_of events in
  tables w1 = tables w ++ signals /\ tables w2 = tables w ++ signals ++ signals.
Proof.
  pose proof (SignalsAnalytics.signals_batch_effect tables L events w) as H1. rewrite Hok in H1.
  pose proof (SignalsAnalytics.signals_batch_effect tables L events w1) as H2. rewrite Hagain in H2.
  destruct H1 as [[H1|[_ ?]] _]; [|done]. destruct H2 as [[H2|[_ ?]] _]; [|done].
  injection H1 as H1. injection H2 as H2. split; [done|]. by rewrite <- H2, <- H1, app_assoc.
Qed.

#[local] Existing Instance sample_codecs.

#[global] Instance no_signals : EmptyTables (list SignalsAnalytics.SignalRow) := [].

Definition signal_batch : list ParsedEvent :=
  [ParsedEvent.Unknown (sample_event 1 "Paused" Null);
   ParsedEvent.Redeemed (demo_metadata 2 "Redeemed")
     {| red_sender := "0xs"; red_receiver := "0xr"; red_term_id := "0x07"; red_curve_id := 1;
        red_shares := 5; red_total_shares := 9; red_assets := 5; red_fees := 0; red_vault_type := 0 |}].
Definition signal_start : demo (list SignalsAnalytics.SignalRow) := demo_database [] [].

Lemma replayed_signals_duplicate_witness :
  let w1 := snd (SignalsAnalytics.process_parsed_batch signal_batch signal_start) in
  let w2 := snd (SignalsAnalytics.process_parsed_batch signal_batch w1) in
  let signals := omap SignalsAnalytics.signal_of signal_batch in
  demo_tables w1 = [] ++ signals /\ demo_tables w2 = [] ++ signals ++ signals.
Proof.
  exact (replayed_signals_duplicate demo_tables signal_batch signal_start _ _ demo_tx_laws
    ltac:(vm_compute; reflexivity) ltac:(vm_compute; reflexivity)).
Defined.
