(* ===== verification/PositionTracking.v ===== *)
(** * Position tracking

    [crates/projections/src/repo/position_repo.rs] and
    [src/projection/timescaledb/position_tracking.rs]: per account and vault, the
    shares held, the cost of acquiring them and the profit realised, with one row
    of history per event. Amounts are integers; the quotients of amounts are
    exact rationals, computed by the two divisions the code uses, that of
    PostgreSQL's [numeric] and that of [BigDecimal], which are parameters.
    [updated_at], which no statement reads, is left out. *)

From Stdlib Require Import QArith Qcanon.
From S2P Require Import Prelude MachineInt Events Errors Retry WorkerWorld DeadLetter PgTx PgCommon Shard DemoWorld DemoDatabase.

#[local] Open Scope Z_scope.

Class Division := {
  numeric_div : Z -> Z -> Qc;
  big_decimal_div : Z -> Z -> Qc
}.

Definition of_int (z : Z) : Qc := Q2Qc (inject_Z z).

Record PositionRow := {
  shares : Z;
  total_deposits : Z;
  total_deposits_value : Z;
  total_shares_acquired : Z;
  cost_basis : Qc;
  realized_pnl : Qc;
  version : Z;
  opened_at : DateTime;
  closed_at : option DateTime
}.

Record ChangeRow := {
  pc_account_id : string; pc_term_id : string; pc_curve_id : string; pc_event_type : string;
  pc_shares_delta : Z; pc_assets_in : Z; pc_assets_out : Z; pc_execution_price : Qc;
  pc_block_number : BlockNumber; pc_transaction_hash : string
}.

(** Keyed by [(account_id, term_id, curve_id)] and [(event_id, ts)]. *)
Record PositionTables := {
  position : gmap (string * string * string) PositionRow;
  position_change : gmap (string * DateTime) ChangeRow
}.

Section Repo.
Context `{Division}.

(** [CASE WHEN acquired > 0 THEN value / acquired ELSE 0 END] *)
Definition average_cost (value acquired : Z) : Qc :=
  if 0 <? acquired then numeric_div value acquired else 0%Qc.

Definition upsert_position_on_deposit (account_id term_id curve_id : string)
    (shares' assets_after_fees : Z) (block_timestamp : DateTime) (t : PositionTables) : PositionTables := {|
  position :=
    upsert (account_id, term_id, curve_id)
      {| shares := shares'; total_deposits := assets_after_fees;
         total_deposits_value := assets_after_fees; total_shares_acquired := shares';
         cost_basis := average_cost assets_after_fees shares'; realized_pnl := 0%Qc; version := 0;
         opened_at := block_timestamp; closed_at := None |}
      (fun row =>
         {| shares := shares row + shares'; total_deposits := total_deposits row + assets_after_fees;
            total_deposits_value := total_deposits_value row + assets_after_fees;
            total_shares_acquired := total_shares_acquired row + shares';
            cost_basis := average_cost (total_deposits_value row + assets_after_fees)
                            (total_shares_acquired row + shares');
            realized_pnl := realized_pnl row; version := version row + 1;
            opened_at := opened_at row; closed_at := None |})
      (position t);
  position_change := position_change t |}.

(** [RETURNING (version = 1) AS is_insert], on the row just written. *)
Definition is_insert (row : PositionRow) : bool := version row =? 1.

Definition upsert_position_on_redeem (account_id term_id curve_id : string)
    (shares' assets : Z) (block_timestamp : DateTime) (t : PositionTables) : PositionTables := {|
  position :=
    upsert (account_id, term_id, curve_id)
      {| shares := - shares'; total_deposits := 0; total_deposits_value := 0;
         total_shares_acquired := 0; cost_basis := 0%Qc; realized_pnl := of_int assets; version := 0;
         opened_at := block_timestamp; closed_at := None |}
      (fun row =>
         {| shares := shares row - shares'; total_deposits := total_deposits row;
            total_deposits_value := total_deposits_value row;
            total_shares_acquired := total_shares_acquired row; cost_basis := cost_basis row;
            realized_pnl := (realized_pnl row + (of_int assets - of_int shares' * cost_basis row))%Qc;
            version := version row; opened_at := opened_at row;
            closed_at := if shares row - shares' <=? 0 then Some block_timestamp else closed_at row |})
      (position t);
  position_change := position_change t |}.

(** [is_closed && was_established], on the row just written. *)
Definition closes (row : PositionRow) : bool := (shares row <=? 0) && (0 <? version row).

Definition insert_position_change (event_id : string) (ts : DateTime) (row : ChangeRow)
    (t : PositionTables) : PositionTables := {|
  position := position t; position_change := insert_new (event_id, ts) row (position_change t) |}.
End Repo.

(** ** The projection *)

Module PositionTracking.

Definition PROJECTION_NAME : string := "position_tracking".

Record PositionTrackingProjection := { shard_id : Z; total_shards : Z }.

Section Handlers.
Context `{Division} `{ShardHash} (self : PositionTrackingProjection).

Definition skip (term_id : string) (curve_id : BigDecimal) : bool :=
  should_skip_shard (shard_id self) (total_shards self) term_id curve_id.

(** [execution_price]: assets per share, or 0 without shares. *)
Definition execution_price (assets shares : Z) : Qc :=
  if 0 <? shares then big_decimal_div assets shares else 0%Qc.

Definition deposit_change (metadata : EventMetadata) (data : DepositedRecord) : ChangeRow := {|
  pc_account_id := dep_receiver data; pc_term_id := dep_term_id data;
  pc_curve_id := curve_id_string (dep_curve_id data); pc_event_type := "Deposited";
  pc_shares_delta := dep_shares data; pc_assets_in := dep_assets_after_fees data; pc_assets_out := 0;
  pc_execution_price := execution_price (dep_assets_after_fees data) (dep_shares data);
  pc_block_number := EventMetadata.block_number metadata;
  pc_transaction_hash := EventMetadata.transaction_hash metadata |}.

Definition redeem_change (metadata : EventMetadata) (data : RedeemedRecord) : ChangeRow := {|
  pc_account_id := red_receiver data; pc_term_id := red_term_id data;
  pc_curve_id := curve_id_string (red_curve_id data); pc_event_type := "Redeemed";
  pc_shares_delta := - red_shares data; pc_assets_in := 0; pc_assets_out := red_assets data;
  pc_execution_price := execution_price (red_assets data) (red_shares data);
  pc_block_number := EventMetadata.block_number metadata;
  pc_transaction_hash := EventMetadata.transaction_hash metadata |}.

Context {W : Type} `{TxWorld PositionTables W} `{EventCodecs}.

Abbreviation step := (@step PositionTables W).

Definition process_deposited_typed (metadata : EventMetadata) (data : DepositedRecord) : step :=
  exec (upsert_position_on_deposit (dep_receiver data) (dep_term_id data)
          (curve_id_string (dep_curve_id data)) (dep_shares data) (dep_assets_after_fees data)
          (EventMetadata.block_timestamp metadata)) >>?
  exec (insert_position_change (event_id metadata) (EventMetadata.block_timestamp metadata)
          (deposit_change metadata data)).

Definition process_redeemed_typed (metadata : EventMetadata) (data : RedeemedRecord) : step :=
  exec (upsert_position_on_redeem (red_receiver data) (red_term_id data)
          (curve_id_string (red_curve_id data)) (red_shares data) (red_assets data)
          (EventMetadata.block_timestamp metadata)) >>?
  exec (insert_position_change (event_id metadata) (EventMetadata.block_timestamp metadata)
          (redeem_change metadata data)).

Definition process_event (event : ParsedEvent) : step :=
  match event with
  | ParsedEvent.Deposited metadata data =>
      if skip (dep_term_id data) (dep_curve_id data) then done_step
      else process_deposited_typed metadata data
  | ParsedEvent.Redeemed metadata data =>
      if skip (red_term_id data) (red_curve_id data) then done_step
      else process_redeemed_typed metadata data
  | _ => done_step
  end.

Definition process_parsed_batch (events : list ParsedEvent) : W -> result unit ProjectionError * W :=
  run_tx (process_events PROJECTION_NAME process_event events).

(** ** What a batch does *)

Definition apply_event (event : ParsedEvent) (t : PositionTables) : PositionTables :=
  match event with
  | ParsedEvent.Deposited metadata data =>
      if skip (dep_term_id data) (dep_curve_id data) then t
      else insert_position_change (event_id metadata) (EventMetadata.block_timestamp metadata)
             (deposit_change metadata data)
             (upsert_position_on_deposit (dep_receiver data) (dep_term_id data)
                (curve_id_string (dep_curve_id data)) (dep_shares data) (dep_assets_after_fees data)
                (EventMetadata.block_timestamp metadata) t)
  | ParsedEvent.Redeemed metadata data =>
      if skip (red_term_id data) (red_curve_id data) then t
      else insert_position_change (event_id metadata) (EventMetadata.block_timestamp metadata)
             (redeem_change metadata data)
             (upsert_position_on_redeem (red_receiver data) (red_term_id data)
                (curve_id_string (red_curve_id data)) (red_shares data) (red_assets data)
                (EventMetadata.block_timestamp metadata) t)
  | _ => t
  end.

Definition apply_batch (events : list ParsedEvent) (t : PositionTables) : PositionTables :=
  fold_left (fun t p => apply_event p t) events t.

Lemma positions_batch_effect (tables : W -> PositionTables) (L : TxLaws tables) events :
  batch_implements tables (process_parsed_batch events) (fun t => Ok (apply_batch events t)).
Proof.
  apply run_tx_implements; [exact L|].
  apply (does_events_pure _ tables _ _ _ apply_event _ (tx_records _ L)). intros p.
  unfold process_event, process_deposited_typed, process_redeemed_typed.
  destruct p; cbn [apply_event]; auto with tx_db; (case_match; [auto with tx_db|]);
    (eapply does_ext; [|eapply does_seq; by apply (implements_exec _ L)]); done.
Qed.

(** ** The books of one position *)

Definition held (row : option PositionRow) : Z := from_option shares 0 row.
Definition deposited (row : option PositionRow) : Z := from_option total_deposits 0 row.
Definition acquired (row : option PositionRow) : Z := from_option total_shares_acquired 0 row.

(** The position an event is booked on, in this shard. *)
Definition booked_on (p : ParsedEvent) : option (string * string * string) :=
  match p with
  | ParsedEvent.Deposited _ data =>
      if skip (dep_term_id data) (dep_curve_id data) then None
      else Some (dep_receiver data, dep_term_id data, curve_id_string (dep_curve_id data))
  | ParsedEvent.Redeemed _ data =>
      if skip (red_term_id data) (red_curve_id data) then None
      else Some (red_receiver data, red_term_id data, curve_id_string (red_curve_id data))
  | _ => None
  end.

Definition shares_in (p : ParsedEvent) : Z :=
  match p with ParsedEvent.Deposited _ data => dep_shares data | _ => 0 end.
Definition shares_out (p : ParsedEvent) : Z :=
  match p with ParsedEvent.Redeemed _ data => red_shares data | _ => 0 end.
Definition assets_in (p : ParsedEvent) : Z :=
  match p with ParsedEvent.Deposited _ data => dep_assets_after_fees data | _ => 0 end.

(** The sum of [f] over the events booked on [k]. *)
Definition sum_on (k : string * string * string) (f : ParsedEvent -> Z) (ps : list ParsedEvent) : Z :=
  foldr (fun p n => (if decide (booked_on p = Some k) then f p else 0) + n) 0 ps.

(** What a row must look like: the cost basis is the average cost of the shares
    ever acquired, and a closed position holds no shares. *)
Definition row_ok (row : PositionRow) : Prop :=
  total_deposits_value row = total_deposits row /\
  cost_basis row = average_cost (total_deposits_value row) (total_shares_acquired row) /\
  (is_Some (closed_at row) -> shares row <= 0).

Definition option_row_ok (row : option PositionRow) : Prop := forall r, row = Some r -> row_ok r.

(** Another position is untouched; its own follows the event. *)
Lemma position_event_books k p t :
  0 <= shares_out p -> let row := position t !! k in let row' := position (apply_event p t) !! k in
  let on f := if decide (booked_on p = Some k) then f p else 0 in
  held row' = held row + on shares_in - on shares_out /\
  deposited row' = deposited row + on assets_in /\
  acquired row' = acquired row + on shares_in /\
  (option_row_ok row -> option_row_ok row').
Proof.
  intros Hpos. cbv beta zeta. destruct p; cbn [apply_event booked_on] in *;
    try (rewrite !decide_False by done; split_and!; (lia || done)).
  all: (case_match; [rewrite !decide_False by done; split_and!; (lia || done)|]).
  all: cbn [position insert_position_change upsert_position_on_deposit upsert_position_on_redeem
            shares_in shares_out assets_in] in *; rewrite lookup_upsert.
  all: case_decide as Hk; [rewrite !decide_True by congruence|
    rewrite !decide_False by congruence; split_and!; (lia || done)].
  all: subst k; destruct (position t !! _) as [r|]; cbn; (split_and!; [lia..|]).
  all: intros Hr row [= <-]; unfold row_ok; cbn; try specialize (Hr r eq_refl) as (Hv & Hc & Hcl).
  - split_and!; [lia|done|by intros []].
  - split_and!; [done|done|by intros []].
  - split_and!; [done|done|]. case_match; [lia|]. intros Hs. specialize (Hcl Hs). lia.
  - split_and!; [done|done|by intros []].
Qed.

Lemma apply_batch_books k ps t :
  (forall p, p ∈ ps -> 0 <= shares_out p) ->
  let row := position t !! k in let row' := position (apply_batch ps t) !! k in
  held row' = held row + sum_on k shares_in ps - sum_on k shares_out ps /\
  deposited row' = deposited row + sum_on k assets_in ps /\
  acquired row' = acquired row + sum_on k shares_in ps /\
  (option_row_ok row -> option_row_ok row').
Proof.
  cbv zeta. unfold apply_batch, sum_on.
  revert t. induction ps as [|p ps IH]; intros t Hps; cbn [fold_left foldr]; [split_and!; (lia || done)|].
  destruct (position_event_books k p t) as (B1 & B2 & B3 & B4); [apply Hps; left|].
  destruct (IH (apply_event p t)) as (I1 & I2 & I3 & I4); [intros q Hq; apply Hps; by right|].
  cbv beta zeta in B1, B2, B3. split_and!; [lia..|auto].
Qed.

Lemma sum_on_permutation k f ps ps' : ps ≡ₚ ps' -> sum_on k f ps = sum_on k f ps'.
Proof. intros Hp. unfold sum_on. induction Hp; cbn; lia. Qed.
End Handlers.
End PositionTracking.

(** ** Properties *)

(** Positions balance, in any order. After a successful batch every
    position holds what it held plus the shares deposited to its account minus the
    shares of the redemptions whose assets the account received, its deposits and
    acquired shares have grown by the batch's, its cost basis is the average cost
    and it is only marked closed without shares. The figures depend only on which
    events there are: a redemption may come before its deposit. *)
Theorem positions_balance `{Division} `{ShardHash} {W} `{TxWorld PositionTables W} `{EventCodecs}
  (self : PositionTracking.PositionTrackingProjection) (tables : W -> PositionTables)
  (events order : list ParsedEvent) (k : string * string * string) (w w' : W)
  (L : TxLaws tables)
  (Hok : PositionTracking.process_parsed_batch self order w = (Ok tt, w'))
  (Horder : order ≡ₚ events)
  (Hamounts : forall p, p ∈ events -> 0 <= PositionTracking.shares_out p)
  (Hrow : PositionTracking.option_row_ok (position (tables w) !! k)) :
  let row := position (tables w) !! k in
  let row' := position (tables w') !! k in
  let sum f := PositionTracking.sum_on self k f events in
  PositionTracking.held row' =
    PositionTracking.held row + sum PositionTracking.shares_in - sum PositionTracking.shares_out /\
  PositionTracking.deposited row' = PositionTracking.deposited row + sum PositionTracking.assets_in /\
  PositionTracking.acquired row' = PositionTracking.acquired row + sum PositionTracking.shares_in /\
  PositionTracking.option_row_ok row'.
Proof.
  pose proof (PositionTracking.positions_batch_effect self tables L order w) as Hb. rewrite Hok in Hb.
  destruct Hb as [[Ht|[_ ?]] _]; [|done]. injection Ht as Ht. rewrite <- Ht. cbv zeta.
  destruct (PositionTracking.apply_batch_books self k order (tables w)) as (B1 & B2 & B3 & B4).
  { intros p Hp. apply Hamounts. by rewrite <- Horder. }
  rewrite <- !(PositionTracking.sum_on_permutation self k _ _ _ Horder). auto.
Qed.

#[local] Existing Instance sample_hash.
#[local] Existing Instance sample_codecs.

#[global] Instance no_positions : EmptyTables PositionTables := {| position := ∅; position_change := ∅ |}.

(** Exact division, for the examples. *)
#[local] Instance exact_division : Division := {|
  numeric_div a b := (of_int a / of_int b)%Qc; big_decimal_div a b := (of_int a / of_int b)%Qc |}.

Definition position_deposit (seq shares : Z) : ParsedEvent :=
  ParsedEvent.Deposited (demo_metadata seq "Deposited")
    {| dep_sender := "0xs"; dep_receiver := "0xr"; dep_term_id := "0x07"; dep_curve_id := 1;
       dep_assets := 2 * shares; dep_assets_after_fees := 2 * shares; dep_shares := shares;
       dep_total_shares := shares; dep_vault_type := 0 |}.
Definition position_redeem (seq shares : Z) : ParsedEvent :=
  ParsedEvent.Redeemed (demo_metadata seq "Redeemed")
    {| red_sender := "0xr"; red_receiver := "0xr"; red_term_id := "0x07"; red_curve_id := 1;
       red_shares := shares; red_total_shares := 0; red_assets := 3 * shares; red_fees := 0;
       red_vault_type := 0 |}.
Definition all_positions : PositionTracking.PositionTrackingProjection :=
  {| PositionTracking.shard_id := 0; PositionTracking.total_shards := 1 |}.
Definition position_start : demo PositionTables := demo_database empty_tables [].

(** The first deposit of an account is not reported as an insert; the second is. *)
Example second_deposit_is_the_insert :
  let t1 := PositionTracking.apply_event all_positions (position_deposit 1 5) empty_tables in
  let t2 := PositionTracking.apply_event all_positions (position_deposit 2 5) t1 in
  let k := ("0xr", "0x07", "1") in
  option_map is_insert (position t1 !! k) = Some false /\
  option_map is_insert (position t2 !! k) = Some true.
Proof. vm_compute. done. Qed.

Lemma positions_balance_witness :
  let w' := snd (PositionTracking.process_parsed_batch all_positions
                   [position_redeem 2 4; position_deposit 1 10] position_start) in
  let row' := position (demo_tables w') !! ("0xr", "0x07", "1") in
  PositionTracking.held row' = 6 /\ PositionTracking.deposited row' = 20 /\
  PositionTracking.acquired row' = 10 /\ PositionTracking.option_row_ok row'.
Proof.
  exact (positions_balance all_positions demo_tables [position_deposit 1 10; position_redeem 2 4]
    [position_redeem 2 4; position_deposit 1 10] ("0xr", "0x07", "1") position_start _ demo_tx_laws
    ltac:(vm_compute; reflexivity) ltac:(apply Permutation_swap)
    ltac:(intros p; rewrite !elem_of_cons, elem_of_nil; intros [->|[->|[]]]; vm_compute; discriminate)
    ltac:(intros r Hr; vm_compute in Hr; discriminate)).
Defined.
