(* ===== verification/AccountRegistry.v ===== *)
(** * The account registry

    [crates/projections/src/projection/timescaledb/account_registry.rs]: every
    address an event names, with the times it was first and last seen. The
    addresses of a batch are gathered in a map first and written with one
    statement, an [INSERT .. SELECT FROM UNNEST] of distinct keys. *)

From S2P Require Import Prelude Events Errors Retry WorkerWorld DeadLetter PgTx PgCommon DemoWorld DemoDatabase.

Module AccountRegistry.

Record AccountRow := {
  first_seen_at : DateTime;
  last_seen_at : DateTime;
  account_type : string
}.

Abbreviation AccountTable := (gmap string AccountRow).

Definition extract_addresses_typed (event : ParsedEvent) : list (string * DateTime) :=
  match event with
  | ParsedEvent.AtomCreated metadata data =>
      [(ac_creator data, EventMetadata.block_timestamp metadata)]
  | ParsedEvent.AtomContextRegistered metadata data =>
      [(acr_registrant data, EventMetadata.block_timestamp metadata)]
  | ParsedEvent.TripleCreated metadata data =>
      [(tc_creator data, EventMetadata.block_timestamp metadata)]
  | ParsedEvent.Deposited metadata data =>
      [(dep_sender data, EventMetadata.block_timestamp metadata);
       (dep_receiver data, EventMetadata.block_timestamp metadata)]
  | ParsedEvent.Redeemed metadata data =>
      [(red_sender data, EventMetadata.block_timestamp metadata);
       (red_receiver data, EventMetadata.block_timestamp metadata)]
  | ParsedEvent.ProtocolFeeAccrued metadata data =>
      [(pfa_sender data, EventMetadata.block_timestamp metadata)]
  | ParsedEvent.SharePriceChanged _ _ => []
  | ParsedEvent.Unknown _ => []
  end.

(** [.entry(address).and_modify(keep the later).or_insert(seen_at)] *)
Definition see (m : gmap string DateTime) (sighting : string * DateTime) : gmap string DateTime :=
  let '(address, seen_at) := sighting in
  upsert address seen_at (fun existing => if existing <? seen_at then seen_at else existing) m.

Definition address_map (events : list ParsedEvent) : gmap string DateTime :=
  fold_left see (concat (map extract_addresses_typed events)) ∅.

(** The bulk upsert; [GREATEST] keeps the later time. *)
Definition upsert_accounts (seen : gmap string DateTime) (t : AccountTable) : AccountTable :=
  merge (fun seen row =>
           match seen, row with
           | None, row => row
           | Some ts, None =>
               Some {| first_seen_at := ts; last_seen_at := ts; account_type := "Default" |}
           | Some ts, Some row =>
               Some {| first_seen_at := first_seen_at row; last_seen_at := Z.max (last_seen_at row) ts;
                       account_type := account_type row |}
           end) seen t.

Section Handlers.
Context {W : Type} `{TxWorld AccountTable W}.

Definition process_parsed_batch (events : list ParsedEvent) (w : W) : result unit ProjectionError * W :=
  let address_map := address_map events in
  if decide (address_map = ∅) then (Ok tt, w)
  else run_tx (exec (upsert_accounts address_map)) w.

Lemma upsert_accounts_empty t : upsert_accounts ∅ t = t.
Proof.
  apply map_eq. intros a. unfold upsert_accounts. rewrite lookup_merge, lookup_empty.
  by destruct (t !! a).
Qed.

Lemma accounts_batch_effect (tables : W -> AccountTable) (L : TxLaws tables) events :
  batch_implements tables (process_parsed_batch events)
    (fun t => Ok (upsert_accounts (address_map events) t)).
Proof.
  intros w. unfold process_parsed_batch. cbv zeta. case_decide as He.
  - rewrite He, upsert_accounts_empty. split; [by left|done].
  - exact (run_tx_implements tables L _ _ (implements_exec tables L _) w).
Qed.
End Handlers.

(** ** Sightings *)

(** The times at which a list of sightings names an address. *)
Definition times (a : string) (sightings : list (string * DateTime)) : list DateTime :=
  map snd (filter (fun s => fst s = a) sightings).

(** The latest of them. *)
Definition latest (ts : list DateTime) : option DateTime :=
  foldr (fun t acc => Some (from_option (Z.max t) t acc)) None ts.

Lemma times_cons a b t sightings :
  latest (times a ((b, t) :: sightings)) =
    (if decide (b = a) then Some (from_option (Z.max t) t (latest (times a sightings)))
     else latest (times a sightings)).
Proof. unfold times. rewrite filter_cons. cbn [fst]. by case_decide. Qed.

Lemma see_lookup sightings m a :
  fold_left see sightings m !! a =
    match m !! a, latest (times a sightings) with
    | Some x, Some y => Some (Z.max x y)
    | Some x, None => Some x
    | None, y => y
    end.
Proof.
  revert m. induction sightings as [|[b t] sightings IH]; intros m.
  { cbn. by destruct (m !! a). }
  cbn [fold_left]. rewrite IH, times_cons. unfold see. rewrite lookup_upsert.
  case_decide as Hb; [|done]. subst b.
  destruct (m !! a) as [x|], (latest (times a sightings)) as [y|]; cbn [from_option]; try done;
    destruct (Z.ltb_spec x t); f_equal; lia.
Qed.

Definition seen_in (events : list ParsedEvent) (a : string) : option DateTime :=
  latest (times a (concat (map extract_addresses_typed events))).

Lemma address_map_lookup events a : address_map events !! a = seen_in events a.
Proof. unfold address_map. by rewrite see_lookup, lookup_empty. Qed.

Lemma upsert_accounts_twice seen t : upsert_accounts seen (upsert_accounts seen t) = upsert_accounts seen t.
Proof.
  apply map_eq. intros a. unfold upsert_accounts. rewrite !lookup_merge.
  destruct (seen !! a) as [ts|], (t !! a) as [[f l ty]|]; cbn; try done;
    by rewrite ?Z.max_id, <- ?Z.max_assoc, ?Z.max_id.
Qed.
End AccountRegistry.

(** ** Properties *)

(** The account registry. After a successful batch an account the batch names
    has been seen last at the latest time it was named or before, whichever is
    later, one it does not name is as it was, and processing the batch again
    changes nothing. But a new account's [first_seen_at] is also the latest time
    of its first batch, not the first: the sightings of a batch are reduced to
    their maximum before either column is written. *)
Theorem account_registry_times {W} `{TxWorld (gmap string AccountRegistry.AccountRow) W}
  (tables : W -> gmap string AccountRegistry.AccountRow) (events : list ParsedEvent) (w w1 : W)
  (L : TxLaws tables) (Hok : AccountRegistry.process_parsed_batch events w = (Ok tt, w1)) :
  (forall a, tables w1 !! a =
    match AccountRegistry.seen_in events a, tables w !! a with
    | None, row => row
    | Some latest, None =>
        Some {| AccountRegistry.first_seen_at := latest; AccountRegistry.last_seen_at := latest;
                AccountRegistry.account_type := "Default" |}
    | Some latest, Some row =>
        Some {| AccountRegistry.first_seen_at := AccountRegistry.first_seen_at row;
                AccountRegistry.last_seen_at := Z.max (AccountRegistry.last_seen_at row) latest;
                AccountRegistry.account_type := AccountRegistry.account_type row |}
    end) /\
  tables (snd (AccountRegistry.process_parsed_batch events w1)) = tables w1.
Proof.
  pose proof (AccountRegistry.accounts_batch_effect tables L events w) as Hb. rewrite Hok in Hb.
  destruct Hb as [[Ht|[_ ?]] _]; [|done]. injection Ht as Ht. split.
  - intros a. rewrite <- Ht. unfold AccountRegistry.upsert_accounts.
    rewrite lookup_merge, AccountRegistry.address_map_lookup.
    by destruct (AccountRegistry.seen_in events a), (tables w !! a).
  - pose proof (AccountRegistry.accounts_batch_effect tables L events w1) as Hb2.
    destruct (AccountRegistry.process_parsed_batch events w1) as [r w2]. cbn [snd].
    destruct Hb2 as [[Ht2|[-> _]] _]; [|done]. injection Ht2 as <-.
    rewrite <- Ht. apply AccountRegistry.upsert_accounts_twice.
Qed.

#[local] Existing Instance sample_codecs.

#[global] Instance no_accounts : EmptyTables (gmap string AccountRegistry.AccountRow) :=
  (∅ : gmap string AccountRegistry.AccountRow).

(** Two fees of one account, an hour apart. *)
Definition account_fee (ts : DateTime) : ParsedEvent :=
  ParsedEvent.ProtocolFeeAccrued
    {| EventMetadata.sequence_number := 1; EventMetadata.block_number := 1;
       EventMetadata.block_timestamp := ts; EventMetadata.block_hash := "0x0";
       EventMetadata.transaction_hash := "0x1"; EventMetadata.log_index := 0;
       EventMetadata.event_type := "ProtocolFeeAccrued"; EventMetadata.term_id := None;
       EventMetadata.entity_id := None; EventMetadata.is_canonical := true;
       EventMetadata.ingested_at := 0 |}
    {| pfa_epoch := 2; pfa_sender := "0xs"; pfa_amount := 5 |}.
Definition account_start : demo (gmap string AccountRegistry.AccountRow) := demo_database empty_tables [].

Lemma account_registry_times_witness :
  let w1 := snd (AccountRegistry.process_parsed_batch [account_fee 1000; account_fee 4600] account_start) in
  demo_tables w1 !! "0xs" =
    Some {| AccountRegistry.first_seen_at := 4600; AccountRegistry.last_seen_at := 4600;
            AccountRegistry.account_type := "Default" |} /\
  demo_tables (snd (AccountRegistry.process_parsed_batch [account_fee 1000; account_fee 4600] w1)) =
    demo_tables w1.
Proof.
  destruct (account_registry_times demo_tables [account_fee 1000; account_fee 4600] account_start _
    demo_tx_laws ltac:(vm_compute; reflexivity)) as [Ha Hb].
  split; [exact (Ha "0xs")|exact Hb].
Defined.
