(* ===== verification/ProtocolStats.v ===== *)
(** * Protocol statistics

    [crates/projections/src/projection/timescaledb/protocol_stats.rs]: a batch is
    tallied in memory and added to the one row of [stats] with one statement; the
    new totals are appended to [stats_history]. *)

From S2P Require Import Prelude Events Errors Retry WorkerWorld DeadLetter PgTx PgCommon DemoWorld DemoDatabase.

Module ProtocolStats.

Record Deltas := {
  atoms : Z;
  triples : Z;
  deposits_count : Z;
  redemptions_count : Z;
  deposit_volume : Z;
  redemption_volume : Z;
  fees : Z
}.

#[global] Instance Deltas_eq_dec : EqDecision Deltas.
Proof. solve_decision. Defined.

(** [Deltas::default()] *)
Definition zero : Deltas := {|
  atoms := 0; triples := 0; deposits_count := 0; redemptions_count := 0; deposit_volume := 0;
  redemption_volume := 0; fees := 0 |}.

Definition accumulate_typed (d : Deltas) (event : ParsedEvent) : Deltas :=
  match event with
  | ParsedEvent.AtomCreated _ _ =>
      {| atoms := atoms d + 1; triples := triples d; deposits_count := deposits_count d;
         redemptions_count := redemptions_count d; deposit_volume := deposit_volume d;
         redemption_volume := redemption_volume d; fees := fees d |}
  | ParsedEvent.TripleCreated _ _ =>
      {| atoms := atoms d; triples := triples d + 1; deposits_count := deposits_count d;
         redemptions_count := redemptions_count d; deposit_volume := deposit_volume d;
         redemption_volume := redemption_volume d; fees := fees d |}
  | ParsedEvent.Deposited _ data =>
      {| atoms := atoms d; triples := triples d; deposits_count := deposits_count d + 1;
         redemptions_count := redemptions_count d;
         deposit_volume := deposit_volume d + dep_assets_after_fees data;
         redemption_volume := redemption_volume d; fees := fees d |}
  | ParsedEvent.Redeemed _ data =>
      {| atoms := atoms d; triples := triples d; deposits_count := deposits_count d;
         redemptions_count := redemptions_count d + 1; deposit_volume := deposit_volume d;
         redemption_volume := redemption_volume d + red_assets data; fees := fees d |}
  | ParsedEvent.ProtocolFeeAccrued _ data =>
      {| atoms := atoms d; triples := triples d; deposits_count := deposits_count d;
         redemptions_count := redemptions_count d; deposit_volume := deposit_volume d;
         redemption_volume := redemption_volume d; fees := fees d + pfa_amount data |}
  | ParsedEvent.AtomContextRegistered _ _ | ParsedEvent.SharePriceChanged _ _
  | ParsedEvent.Unknown _ => d
  end.

(** The totals, which deltas are added to; [total_accounts] is another
    projection's. *)
Record StatsRow := { totals : Deltas; total_accounts : Z }.

Definition plus (a b : Deltas) : Deltas := {|
  atoms := atoms a + atoms b; triples := triples a + triples b;
  deposits_count := deposits_count a + deposits_count b;
  redemptions_count := redemptions_count a + redemptions_count b;
  deposit_volume := deposit_volume a + deposit_volume b;
  redemption_volume := redemption_volume a + redemption_volume b; fees := fees a + fees b |}.

(** The singleton row, and the history in insertion order. *)
Record StatsTables := { stats : option StatsRow; stats_history : list (StatsRow * DateTime) }.

Definition upsert_stats (d : Deltas) (t : StatsTables) : StatsTables := {|
  stats := Some (match stats t with
                 | None => {| totals := d; total_accounts := 0 |}
                 | Some row => {| totals := plus (totals row) d; total_accounts := total_accounts row |}
                 end);
  stats_history := stats_history t |}.

(** [INSERT .. SELECT .. FROM stats WHERE id = 1] *)
Definition insert_stats_history (ts : DateTime) (t : StatsTables) : StatsTables := {|
  stats := stats t;
  stats_history := stats_history t ++ match stats t with Some row => [(row, ts)] | None => [] end |}.

(** The latest block timestamp. Of an empty batch it would be the time of day,
    which is never used: nothing is written for an empty batch. *)
Definition max_ts (events : list ParsedEvent) : DateTime :=
  match map (fun p => EventMetadataRef.block_timestamp (ParsedEvent.metadata p)) events with
  | [] => 0
  | t :: ts => fold_left Z.max ts t
  end.

Section Handlers.
Context {W : Type} `{TxWorld StatsTables W}.

Definition process_parsed_batch (events : list ParsedEvent) (w : W) : result unit ProjectionError * W :=
  let d := fold_left accumulate_typed events zero in
  if (atoms d =? 0) && (triples d =? 0) && (deposits_count d =? 0) && (redemptions_count d =? 0) &&
     (deposit_volume d =? 0) && (redemption_volume d =? 0) && (fees d =? 0)
  then (Ok tt, w)
  else run_tx (exec (upsert_stats d) >>? exec (insert_stats_history (max_ts events))) w.

(** ** What a batch does *)

(** What one event adds. *)
Definition contribution (event : ParsedEvent) : Deltas := accumulate_typed zero event.

Definition sum_of (events : list ParsedEvent) : Deltas :=
  foldr (fun p d => plus (contribution p) d) zero events.

Lemma plus_eq a b c :
  atoms c = atoms a + atoms b -> triples c = triples a + triples b ->
  deposits_count c = deposits_count a + deposits_count b ->
  redemptions_count c = redemptions_count a + redemptions_count b ->
  deposit_volume c = deposit_volume a + deposit_volume b ->
  redemption_volume c = redemption_volume a + redemption_volume b ->
  fees c = fees a + fees b -> c = plus a b.
Proof. destruct c. cbn. intros. unfold plus. by subst. Qed.

Lemma plus_assoc a b c : plus a (plus b c) = plus (plus a b) c.
Proof. apply plus_eq; cbn; lia. Qed.

Lemma plus_comm a b : plus a b = plus b a.
Proof. apply plus_eq; cbn; lia. Qed.

Lemma plus_zero a : plus a zero = a.
Proof. symmetry. apply plus_eq; cbn; lia. Qed.

Lemma accumulate_contribution d p : accumulate_typed d p = plus d (contribution p).
Proof. unfold contribution. destruct p; apply plus_eq; cbn; lia. Qed.

Lemma fold_sum d events : fold_left accumulate_typed events d = plus d (sum_of events).
Proof.
  revert d. induction events as [|p events IH]; intros d; cbn [fold_left sum_of foldr].
  - symmetry. apply plus_zero.
  - rewrite IH, accumulate_contribution. fold (sum_of events). by rewrite plus_assoc.
Qed.

Lemma sum_of_app ps qs : sum_of (ps ++ qs) = plus (sum_of ps) (sum_of qs).
Proof.
  induction ps as [|p ps IH]; cbn; [by rewrite plus_comm, plus_zero|].
  fold (sum_of (ps ++ qs)) (sum_of ps). by rewrite IH, plus_assoc.
Qed.

Lemma sum_of_permutation ps qs : ps ≡ₚ qs -> sum_of ps = sum_of qs.
Proof.
  unfold sum_of. induction 1; cbn; [done|congruence| |congruence].
  rewrite !plus_assoc. f_equal. apply plus_comm.
Qed.

Definition apply_batch (events : list ParsedEvent) (t : StatsTables) : StatsTables :=
  if decide (sum_of events = zero) then t
  else insert_stats_history (max_ts events) (upsert_stats (sum_of events) t).

Lemma all_zero d :
  (atoms d =? 0) && (triples d =? 0) && (deposits_count d =? 0) && (redemptions_count d =? 0) &&
  (deposit_volume d =? 0) && (redemption_volume d =? 0) && (fees d =? 0) = bool_decide (d = zero).
Proof.
  destruct (bool_decide_reflect (d = zero)) as [->|Hne]; [done|].
  apply not_true_is_false. rewrite !andb_true_iff, !Z.eqb_eq. intros H0. apply Hne.
  destruct d; cbn in *. unfold zero. naive_solver.
Qed.

Lemma stats_batch_effect (tables : W -> StatsTables) (L : TxLaws tables) events :
  batch_implements tables (process_parsed_batch events) (fun t => Ok (apply_batch events t)).
Proof.
  intros w. unfold process_parsed_batch, apply_batch. cbv zeta.
  rewrite all_zero, fold_sum, (plus_comm zero), plus_zero.
  case_bool_decide as Hz; [rewrite decide_True by done; split; [by left|done]|].
  rewrite decide_False by done.
  exact (run_tx_implements tables L _ _
    (does_seq _ tables _ _ _ _ _ (implements_exec tables L _) (implements_exec tables L _)) w).
Qed.
End Handlers.

Definition current (t : StatsTables) : Deltas :=
  match stats t with Some row => totals row | None => zero end.
End ProtocolStats.

(** ** Properties *)

(** Protocol statistics. A successful batch adds to every total exactly what
    its events contribute, and appends the new totals to the history, stamped with
    the batch's latest block time, unless they did not change. The totals depend
    neither on the order of the events nor on how they are cut into batches. *)
Theorem protocol_stats_totals {W} `{TxWorld ProtocolStats.StatsTables W}
  (tables : W -> ProtocolStats.StatsTables) (events first second : list ParsedEvent) (w w1 : W)
  (L : TxLaws tables) (Hok : ProtocolStats.process_parsed_batch events w = (Ok tt, w1))
  (Hcut : events ≡ₚ first ++ second) :
  let total := ProtocolStats.current (tables w1) in
  total = ProtocolStats.plus (ProtocolStats.current (tables w)) (ProtocolStats.sum_of events) /\
  total = ProtocolStats.current
            (ProtocolStats.apply_batch second (ProtocolStats.apply_batch first (tables w))) /\
  map (fun '(row, ts) => (ProtocolStats.totals row, ts)) (ProtocolStats.stats_history (tables w1)) =
    map (fun '(row, ts) => (ProtocolStats.totals row, ts)) (ProtocolStats.stats_history (tables w)) ++
    (if decide (ProtocolStats.sum_of events = ProtocolStats.zero) then []
     else [(total, ProtocolStats.max_ts events)]).
Proof.
  pose proof (ProtocolStats.stats_batch_effect tables L events w) as Hb. rewrite Hok in Hb.
  destruct Hb as [[Ht|[_ ?]] _]; [|done]. injection Ht as <-. cbv zeta.
  assert (Happ : forall ps t, ProtocolStats.current (ProtocolStats.apply_batch ps t) =
    ProtocolStats.plus (ProtocolStats.current t) (ProtocolStats.sum_of ps)).
  { intros ps t. unfold ProtocolStats.apply_batch, ProtocolStats.current.
    case_decide as Hz; [by rewrite Hz, ProtocolStats.plus_zero|]. cbn.
    destruct (ProtocolStats.stats t); cbn; [done|].
    by rewrite ProtocolStats.plus_comm, ProtocolStats.plus_zero. }
  split; [apply Happ|]. split.
  - by rewrite !Happ, (ProtocolStats.sum_of_permutation _ _ Hcut), ProtocolStats.sum_of_app,
      ProtocolStats.plus_assoc.
  - unfold ProtocolStats.apply_batch. case_decide; [by rewrite app_nil_r|]. cbn. by rewrite map_app.
Qed.

#[local] Existing Instance sample_codecs.

#[global] Instance no_stats : EmptyTables ProtocolStats.StatsTables :=
  {| ProtocolStats.stats := None; ProtocolStats.stats_history := [] |}.

Definition stats_fee (amount : Z) : ParsedEvent :=
  ParsedEvent.ProtocolFeeAccrued (demo_metadata amount "ProtocolFeeAccrued")
    {| pfa_epoch := 2; pfa_sender := "0xs"; pfa_amount := amount |}.
Definition stats_start : demo ProtocolStats.StatsTables := demo_database empty_tables [].

Lemma protocol_stats_totals_witness :
  let w1 := snd (ProtocolStats.process_parsed_batch [stats_fee 3; stats_fee 5] stats_start) in
  let total := ProtocolStats.current (demo_tables w1) in
  ProtocolStats.fees total = 8 /\
  total = ProtocolStats.current
    (ProtocolStats.apply_batch [stats_fee 3] (ProtocolStats.apply_batch [stats_fee 5] empty_tables)).
Proof.
  destruct (protocol_stats_totals demo_tables [stats_fee 3; stats_fee 5] [stats_fee 5] [stats_fee 3]
    stats_start _ demo_tx_laws ltac:(vm_compute; reflexivity) ltac:(apply Permutation_swap))
    as (_ & Hcut & _).
  split; [vm_compute; reflexivity|exact Hcut].
Defined.
