(* ===== verification/AbortableTx.v ===== *)
(** * Transactions whose errors are swallowed

    The two marker projections of [crates/projections/src/projection/timescaledb/]
    ([leaderboard_marker.rs], [activity_marker.rs]) log the error of an event and go on
    with the same transaction. What that does depends on how PostgreSQL treats a
    transaction after an error, which is modelled here: the transaction is aborted,
    every further statement fails, and [COMMIT] ends it with a rollback without
    reporting an error. *)

From S2P Require Import Prelude Events Errors Retry WorkerWorld DeadLetter PgTx.

Section AbortableTx.
Context {T W : Type} `{Pool T W}.

(** A transaction is open, or aborted by an earlier error. *)
Inductive transaction :=
  | Open (f : T -> T)
  | Aborted.

Definition execute (f : T -> T) (tx : transaction) (w : W)
    : result unit ProjectionError * transaction * W :=
  match tx with
  | Aborted =>
      (Err (ProjectionError.Database
         "current transaction is aborted, commands ignored until end of transaction block"), Aborted, w)
  | Open g =>
      let '(r, w) := statement w in
      match r with
      | Err e => (Err (ProjectionError.Database e), Aborted, w)
      | Ok _ => (Ok tt, Open (fun t => f (g t)), w)
      end
  end.

(** A handler: its statements, up to the first error. *)
Fixpoint handle (statements : list (T -> T)) (tx : transaction) (w : W)
    : result unit ProjectionError * transaction * W :=
  match statements with
  | [] => (Ok tt, tx, w)
  | f :: statements =>
      let '(r, tx, w) := execute f tx w in
      match r with
      | Err e => (Err e, tx, w)
      | Ok _ => handle statements tx w
      end
  end.

(** The statements an event's handler issues, in order. *)
Context (statements_of : ParsedEvent -> list (T -> T)).

(** The loop: the error of an event is logged, [skipping event]. *)
Fixpoint process_events (events : list ParsedEvent) (tx : transaction) (w : W) : transaction * W :=
  match events with
  | [] => (tx, w)
  | event :: events =>
      let '(_, tx, w) := handle (statements_of event) tx w in
      process_events events tx w
  end.

Definition commit (tx : transaction) (w : W) : result unit string * W :=
  match tx with
  | Open f => commit_tx f w
  | Aborted => commit_tx (fun t => t) w
  end.

Definition process_parsed_batch (events : list ParsedEvent) (w : W) : result unit ProjectionError * W :=
  let '(r, w) := begin_tx w in
  match r with
  | Err e => (Err (ProjectionError.Database e), w)
  | Ok _ =>
      let '(tx, w) := process_events events (Open (fun t => t)) w in
      let '(r, w) := commit tx w in
      (database r, w)
  end.

(** ** What a batch does *)

Definition apply_event (p : ParsedEvent) (t : T) : T :=
  fold_left (fun t f => f t) (statements_of p) t.
Definition apply_batch (events : list ParsedEvent) (t : T) : T :=
  fold_left (fun t p => apply_event p t) events t.

Context (tables : W -> T) (L : PoolLaws tables).

(** [tx] is what [f] and then [g] do, or aborted. *)
Definition extends (f : T -> T) (tx : transaction)
    (g : T -> T) : Prop :=
  tx = Aborted \/ exists h, tx = Open h /\ forall t, h t = g (f t).

Lemma handle_spec fs f w :
  let '(r, tx, w') := handle fs (Open f) w in
  tables w' = tables w /\ extends f tx (fold_left (fun t f => f t) fs) /\
  (r = Ok tt <-> tx <> Aborted).
Proof.
  revert f w. induction fs as [|g fs IH]; intros f w; cbn [handle].
  { split; [done|]. split; [right; by exists f|done]. }
  cbn [execute]. pose proof (tx_statement _ L w) as Hs.
  destruct (statement w) as [[u|e] w1]; cbn [snd] in Hs.
  - specialize (IH (fun t => g (f t)) w1). destruct (handle fs _ w1) as [[r tx] w2].
    destruct IH as (Ht & Hx & Hr). split; [congruence|]. split; [|done].
    destruct Hx as [->|(h & -> & Hh)]; [by left|right]. by exists h.
  - split; [done|]. split; [by left|]. split; [done|]. by intros [].
Qed.

Lemma handle_aborted fs w : snd (fst (handle fs Aborted w)) = Aborted /\ snd (handle fs Aborted w) = w.
Proof. by destruct fs. Qed.

Lemma events_aborted ps w : process_events ps Aborted w = (Aborted, w).
Proof.
  induction ps as [|p ps IH]; cbn [process_events]; [done|].
  destruct (handle_aborted (statements_of p) w) as [Ht Hw].
  destruct (handle (statements_of p) Aborted w) as [[r tx] w']. cbn in Ht, Hw. by subst.
Qed.

Lemma events_spec ps f w :
  let '(tx, w') := process_events ps (Open f) w in
  tables w' = tables w /\ extends f tx (apply_batch ps).
Proof.
  revert f w. induction ps as [|p ps IH]; intros f w; cbn [process_events].
  { split; [done|]. right. by exists f. }
  pose proof (handle_spec (statements_of p) f w) as Hh.
  destruct (handle (statements_of p) (Open f) w) as [[r tx] w1]. destruct Hh as (Ht & Hx & _).
  destruct Hx as [->|(h & -> & Hh)].
  - rewrite events_aborted. split; [done|by left].
  - specialize (IH h w1). destruct (process_events ps (Open h) w1) as [tx2 w2].
    destruct IH as [Ht2 Hx2]. split; [congruence|].
    destruct Hx2 as [->|(h2 & -> & Hh2)]; [by left|right]. exists h2. split; [done|].
    intros t. rewrite Hh2, Hh. done.
Qed.

(** If no statement failed the batch is applied as a whole; otherwise not at all, and the
    answer is the same. *)
Lemma abortable_batch events tx w w0 w1 w2 :
  begin_tx w = (Ok tt, w0) -> process_events events (Open (fun t => t)) w0 = (tx, w1) -> commit tx w1 = (Ok tt, w2) ->
  process_parsed_batch events w = (Ok tt, w2) /\
  match tx with
  | Aborted => tables w2 = tables w
  | Open _ => tables w2 = apply_batch events (tables w)
  end.
Proof.
  intros Hbegin Hloop Hcommit. unfold process_parsed_batch. rewrite Hbegin, Hloop, Hcommit. split; [done|].
  pose proof (tx_begin _ L w) as Hb. rewrite Hbegin in Hb. cbn [snd] in Hb.
  pose proof (events_spec events (fun t => t) w0) as Hs.
  rewrite Hloop in Hs. destruct Hs as [Ht Hx]. unfold commit in Hcommit.
  destruct tx as [f|]; pose proof (tx_commit _ L _ _ _ _ Hcommit) as [Hc|[_ ?]]; try done.
  - destruct Hx as [?|(h & [= <-] & Hh)]; [done|]. by rewrite Hc, Ht, Hb, Hh.
  - by rewrite Hc, Ht, Hb.
Qed.
End AbortableTx.
