(* ===== verification/LeaderboardMarker.v ===== *)
(** * The leaderboard marker

    [crates/projections/src/projection/timescaledb/leaderboard_marker.rs]: marks
    accounts and vaults for recomputation, in the abortable transactions of
    AbortableTx. Marking times ([first_marked_at], [last_marked_at]) are left out. *)

From S2P Require Import Prelude Events Errors Retry WorkerWorld DeadLetter PgTx AbortableTx PgCommon DemoWorld DemoDatabase.

Module LeaderboardMarker.

Record AccountStats := {
  total_deposits : Z;
  total_redemptions : Z;
  total_volume : Z;
  last_activity_at : DateTime
}.

Record LeaderboardTables := {
  dirty_account : gmap string string;
  dirty_vault : gset (string * string);
  account_stats : gmap string AccountStats
}.

Definition mark_dirty_account (account_id reason : string) (t : LeaderboardTables) : LeaderboardTables := {|
  dirty_account := <[account_id := reason]> (dirty_account t); dirty_vault := dirty_vault t;
  account_stats := account_stats t |}.

Definition mark_dirty_vault (term_id curve_id : string) (t : LeaderboardTables) : LeaderboardTables := {|
  dirty_account := dirty_account t; dirty_vault := {[(term_id, curve_id)]} ∪ dirty_vault t;
  account_stats := account_stats t |}.

(** The three upserts of [account_stats]: what they add to each column. *)
Definition update_account_stats (account_id : string) (deposits redemptions volume : Z)
    (block_timestamp : DateTime) (t : LeaderboardTables) : LeaderboardTables := {|
  dirty_account := dirty_account t; dirty_vault := dirty_vault t;
  account_stats :=
    upsert account_id
      {| total_deposits := deposits; total_redemptions := redemptions; total_volume := volume;
         last_activity_at := block_timestamp |}
      (fun row =>
         {| total_deposits := total_deposits row + deposits;
            total_redemptions := total_redemptions row + redemptions;
            total_volume := total_volume row + volume; last_activity_at := block_timestamp |})
      (account_stats t) |}.

Definition update_account_stats_deposit (account_id : string) (amount : Z) : DateTime -> _ -> _ :=
  update_account_stats account_id amount 0 amount.
Definition update_account_stats_volume (account_id : string) (amount : Z) : DateTime -> _ -> _ :=
  update_account_stats account_id 0 0 amount.
Definition update_account_stats_redeem (account_id : string) (amount : Z) : DateTime -> _ -> _ :=
  update_account_stats account_id 0 amount amount.

(** The statements an event's handler issues, in order. *)
Definition statements_of (event : ParsedEvent) : list (LeaderboardTables -> LeaderboardTables) :=
  match event with
  | ParsedEvent.Deposited metadata data =>
      let amount := dep_assets_after_fees data in
      let ts := EventMetadata.block_timestamp metadata in
      [mark_dirty_account (dep_sender data) "deposited";
       mark_dirty_account (dep_receiver data) "deposited"] ++
      (if decide (dep_sender data = dep_receiver data)
       then [update_account_stats_deposit (dep_sender data) amount ts]
       else [update_account_stats_volume (dep_sender data) amount ts;
             update_account_stats_deposit (dep_receiver data) amount ts])
  | ParsedEvent.Redeemed metadata data =>
      [mark_dirty_account (red_sender data) "redeemed";
       mark_dirty_account (red_receiver data) "redeemed";
       update_account_stats_redeem (red_sender data) (red_assets data)
         (EventMetadata.block_timestamp metadata)]
  | ParsedEvent.SharePriceChanged _ data =>
      [mark_dirty_vault (spc_term_id data) (curve_id_string (spc_curve_id data))]
  | _ => []
  end.

Definition process_parsed_batch {W} `{TxWorld LeaderboardTables W}
    : list ParsedEvent -> W -> result unit ProjectionError * W := AbortableTx.process_parsed_batch statements_of.
End LeaderboardMarker.

(** ** Properties *)

(** One failed statement loses the batch. If a statement of any event fails,
    the handler's error is logged as "skipping event", but the transaction is
    aborted: none of the batch's events is applied, those before and after the
    failed one included, and as the final commit reports no error the worker is
    told that the batch succeeded and saves its checkpoint past it. Without a
    failure the batch is applied as a whole. *)
Theorem marker_error_loses_batch {W} `{TxWorld LeaderboardMarker.LeaderboardTables W}
  (tables : W -> LeaderboardMarker.LeaderboardTables) (events : list ParsedEvent)
  (tx : transaction) (w w0 w1 w2 : W)
  (L : TxLaws tables) (Hbegin : begin_tx w = (Ok tt, w0))
  (Hloop : process_events LeaderboardMarker.statements_of events (Open (fun t => t)) w0 = (tx, w1))
  (Hcommit : commit tx w1 = (Ok tt, w2)) :
  LeaderboardMarker.process_parsed_batch events w = (Ok tt, w2) /\
  match tx with
  | Aborted => tables w2 = tables w
  | Open _ => tables w2 = apply_batch LeaderboardMarker.statements_of events (tables w)
  end.
Proof. by apply (abortable_batch LeaderboardMarker.statements_of tables (tx_pool_laws _ L) events tx w w0 w1 w2). Qed.

#[local] Existing Instance sample_codecs.

#[global] Instance no_marks : EmptyTables LeaderboardMarker.LeaderboardTables :=
  {| LeaderboardMarker.dirty_account := ∅; LeaderboardMarker.dirty_vault := ∅;
     LeaderboardMarker.account_stats := ∅ |}.

Definition marker_price (curve : Z) : ParsedEvent :=
  ParsedEvent.SharePriceChanged (demo_metadata curve "SharePriceChanged")
    {| spc_term_id := "0x07"; spc_curve_id := curve; spc_share_price := 1; spc_total_assets := 1;
       spc_total_shares := 1; spc_vault_type := 0 |}.
Definition marker_start (errors : list ProjectionError) : demo LeaderboardMarker.LeaderboardTables :=
  demo_database empty_tables errors.

(** Both events are lost to one deadlock; without it both are applied. *)
Example marker_batches :
  let run errors := LeaderboardMarker.process_parsed_batch [marker_price 1; marker_price 2] (marker_start errors) in
  fst (run [ProjectionError.Database "deadlock"]) = Ok tt /\
  elements (LeaderboardMarker.dirty_vault (demo_tables (snd (run [ProjectionError.Database "deadlock"])))) = [] /\
  size (LeaderboardMarker.dirty_vault (demo_tables (snd (run [])))) = 2%nat.
Proof. vm_compute. done. Qed.

Lemma marker_error_loses_batch_witness :
  let w := marker_start [ProjectionError.Database "deadlock"] in
  let w1 := snd (process_events LeaderboardMarker.statements_of [marker_price 1; marker_price 2]
                   (Open (fun t => t)) w) in
  let w2 := snd (commit Aborted w1) in
  LeaderboardMarker.process_parsed_batch [marker_price 1; marker_price 2] w = (Ok tt, w2) /\
  demo_tables w2 = demo_tables w.
Proof.
  exact (marker_error_loses_batch demo_tables [marker_price 1; marker_price 2] Aborted
    (marker_start [ProjectionError.Database "deadlock"]) _ _ _ demo_tx_laws eq_refl
    ltac:(vm_compute; reflexivity) ltac:(vm_compute; reflexivity)).
Defined.
