(* ===== verification/ActivityMarker.v ===== *)
(** * The activity marker

    [crates/projections/src/projection/timescaledb/activity_marker.rs]: marks the
    accounts with new activity in [dirty_account_activity], which the activity profiles
    are refreshed from, in the abortable transactions of AbortableTx. The times of the
    marks, counters and the lag gauge are left out. *)

From S2P Require Import Prelude Events Errors Retry WorkerWorld DeadLetter PgTx AbortableTx PgCommon DemoWorld DemoDatabase.

Module ActivityMarker.

(** [dirty_account_activity]: the last reason, by account. *)
Abbreviation DirtyActivity := (gmap string string).

Definition mark_dirty_account_activity (account_id reason : string) (t : DirtyActivity) : DirtyActivity :=
  <[account_id := reason]> t.

Definition event_types : list EventType.EventType :=
  [EventType.AtomCreated; EventType.TripleCreated; EventType.Deposited; EventType.Redeemed].

Definition handle_atom_created_typed (data : AtomCreatedRecord) : list (DirtyActivity -> DirtyActivity) :=
  [mark_dirty_account_activity (ac_creator data) "atom_created"].
Definition handle_triple_created_typed (data : TripleCreatedRecord) : list (DirtyActivity -> DirtyActivity) :=
  [mark_dirty_account_activity (tc_creator data) "triple_created"].
Definition handle_deposited_typed (data : DepositedRecord) : list (DirtyActivity -> DirtyActivity) :=
  mark_dirty_account_activity (dep_sender data) "deposited" ::
  (if decide (dep_sender data = dep_receiver data) then []
   else [mark_dirty_account_activity (dep_receiver data) "deposit_received"]).
Definition handle_redeemed_typed (data : RedeemedRecord) : list (DirtyActivity -> DirtyActivity) :=
  mark_dirty_account_activity (red_sender data) "redeemed" ::
  (if decide (red_sender data = red_receiver data) then []
   else [mark_dirty_account_activity (red_receiver data) "redemption_received"]).

Definition statements_of (event : ParsedEvent) : list (DirtyActivity -> DirtyActivity) :=
  match event with
  | ParsedEvent.AtomCreated _ data => handle_atom_created_typed data
  | ParsedEvent.TripleCreated _ data => handle_triple_created_typed data
  | ParsedEvent.Deposited _ data => handle_deposited_typed data
  | ParsedEvent.Redeemed _ data => handle_redeemed_typed data
  | ParsedEvent.AtomContextRegistered _ _ | ParsedEvent.SharePriceChanged _ _
  | ParsedEvent.ProtocolFeeAccrued _ _ | ParsedEvent.Unknown _ => []
  end.

Definition process_parsed_batch {W} `{TxWorld DirtyActivity W}
    : list ParsedEvent -> W -> result unit ProjectionError * W := AbortableTx.process_parsed_batch statements_of.

(** The legacy path: parse, then the same. *)
Definition process_batch {W} `{TxWorld DirtyActivity W} `{EventCodecs} (events : list StoredEvent) (w : W)
    : result unit ProjectionError * W :=
  process_parsed_batch (map (fun e => fst (ParsedEvent.parse_or_unknown e)) events) w.

(** The accounts an event shows activity of. *)
Definition active (event : ParsedEvent) : list string :=
  match event with
  | ParsedEvent.AtomCreated _ data => [ac_creator data]
  | ParsedEvent.TripleCreated _ data => [tc_creator data]
  | ParsedEvent.Deposited _ data => [dep_sender data; dep_receiver data]
  | ParsedEvent.Redeemed _ data => [red_sender data; red_receiver data]
  | _ => []
  end.

Lemma mark_dom a reason t : dom (mark_dirty_account_activity a reason t) = {[a]} ∪ dom t.
Proof. apply dom_insert_L. Qed.

Lemma apply_event_dom event t : dom (apply_event statements_of event t) = list_to_set (active event) ∪ dom t.
Proof.
  destruct event as [m d|m d|m d|m d|m d|m d|m d|e];
    cbn [apply_event statements_of handle_atom_created_typed handle_triple_created_typed active fold_left]; try set_solver.
  all: unfold apply_event; cbn [statements_of fold_left handle_deposited_typed handle_redeemed_typed].
  all: try (unfold handle_atom_created_typed, handle_triple_created_typed; cbn [fold_left]; rewrite mark_dom; set_solver).
  all: unfold handle_deposited_typed, handle_redeemed_typed; cbn [fold_left]; case_decide as Heq; cbn [fold_left];
    rewrite !mark_dom, ?Heq; set_solver.
Qed.

Lemma apply_batch_dom events t :
  dom (apply_batch statements_of events t) = list_to_set (concat (map active events)) ∪ dom t.
Proof.
  unfold apply_batch. revert t. induction events as [|event events IH]; intros t; cbn; [set_solver|].
  rewrite IH, apply_event_dom, list_to_set_app_L. set_solver.
Qed.
End ActivityMarker.

(** ** Properties *)

(** Active accounts are marked, or the batch is silently lost. When a batch reports
    success, the marked accounts are those that were marked and, if no statement failed,
    exactly the creators, senders and receivers of its events besides; if one failed,
    none of them, and the worker goes on past the batch. *)
Theorem activity_marks_or_nothing {W} `{TxWorld ActivityMarker.DirtyActivity W}
  (tables : W -> ActivityMarker.DirtyActivity) (events : list ParsedEvent) (tx : transaction) (w w0 w1 w2 : W)
  (L : TxLaws tables) (Hbegin : begin_tx w = (Ok tt, w0))
  (Hloop : process_events ActivityMarker.statements_of events (Open (fun t => t)) w0 = (tx, w1))
  (Hcommit : commit tx w1 = (Ok tt, w2)) :
  ActivityMarker.process_parsed_batch events w = (Ok tt, w2) /\
  match tx with
  | Aborted => tables w2 = tables w
  | Open _ => forall a, is_Some (tables w2 !! a) <->
      is_Some (tables w !! a) \/ exists event, event ∈ events /\ a ∈ ActivityMarker.active event
  end.
Proof.
  destruct (abortable_batch ActivityMarker.statements_of tables (tx_pool_laws _ L) events tx w w0 w1 w2 Hbegin Hloop Hcommit)
    as [Hr Ht]. split; [done|]. destruct tx as [f|]; [|done]. intros a.
  rewrite <- !elem_of_dom, Ht, ActivityMarker.apply_batch_dom, elem_of_union, elem_of_list_to_set.
  rewrite list_elem_of_In, in_concat. split.
  - intros [(l & Hl & Ha)|?]; [right|by left]. apply in_map_iff in Hl as (event & <- & Hin).
    exists event. by rewrite !list_elem_of_In.
  - intros [?|(event & Hin & Ha)]; [by right|left]. exists (ActivityMarker.active event).
    split; [apply in_map|]; by apply list_elem_of_In.
Qed.

#[global] Instance no_activity : EmptyTables (gmap string string) := (∅ : gmap string string).

Definition activity_deposit : ParsedEvent :=
  ParsedEvent.Deposited (demo_metadata 1 "Deposited")
    {| dep_sender := "0xs"; dep_receiver := "0xr"; dep_term_id := "0x07"; dep_curve_id := 1; dep_assets := 1000;
       dep_assets_after_fees := 980; dep_shares := 950; dep_total_shares := 5000; dep_vault_type := 1 |}.

Lemma activity_marks_or_nothing_witness :
  let w := demo_database (T := ActivityMarker.DirtyActivity) ∅ [] in
  let '(tx, w1) := process_events ActivityMarker.statements_of [activity_deposit] (Open (fun t => t)) w in
  let w2 := snd (commit tx w1) in
  ActivityMarker.process_parsed_batch [activity_deposit] w = (Ok tt, w2) /\
  (forall a, is_Some (demo_tables w2 !! a) <->
    is_Some (demo_tables w !! a) \/ exists event, event ∈ [activity_deposit] /\ a ∈ ActivityMarker.active event).
Proof.
  exact (activity_marks_or_nothing demo_tables [activity_deposit] _ (demo_database (T := ActivityMarker.DirtyActivity) ∅ [])
    _ _ _ demo_tx_laws eq_refl eq_refl eq_refl).
Defined.
