(* ===== verification/LeaderboardRefresh.v ===== *)
(** * The leaderboard refresh

    [crates/projections/src/repo/leaderboard_repo.rs] and
    [src/projection/timescaledb/leaderboard_refresh.rs]: the timer-driven projection
    that drains what the leaderboard marker marked and recomputes the profit and loss
    of the accounts in question from the positions and the vaults the other
    projections keep. Columns no statement reads, the times of marks and of
    recomputations, are left out. The order an [AHashSet] is iterated in is a
    parameter. *)

From Stdlib Require Import QArith Qcanon.
From S2P Require Import Prelude Events Errors PgTx TxCode PgCommon VaultRepo PositionTracking DemoWorld DemoDatabase LeaderboardMarker.

#[local] Open Scope Z_scope.

(** [into_iter()] of an [AHashSet<String>]: every element once, in some order. *)
Class HashOrder := {
  set_iter : gset string -> list string;
  set_iter_perm s : set_iter s ≡ₚ elements s
}.

(** ** The tables *)

Record AccountPnlRow := {
  pnl_total_deposits : Z;
  current_equity_value : Qc;
  pnl_realized : Qc;
  unrealized_pnl : Qc;
  winning_positions : Z;
  losing_positions : Z
}.

Record PnlState := { st_pnl : AccountPnlRow; st_total_redemptions : Z; st_total_pnl : Qc }.

Record PnlSnapshot := {
  sn_account_id : string; sn_total_deposits : Z; sn_total_redemptions : Z; sn_realized_pnl : Qc;
  sn_unrealized_pnl : Qc; sn_total_pnl : Qc; sn_current_equity_value : Qc; sn_ts : DateTime
}.

(** The marks, what other projections keep, and the results. *)
Record RefreshTables := {
  marks : LeaderboardMarker.LeaderboardTables;
  holders : gmap (string * string * string) HolderRow;
  positions : gmap (string * string * string) PositionRow;
  vaults : gmap (string * string) VaultRow;
  account_pnl_state : gmap string PnlState;
  account_pnl_snapshot : list PnlSnapshot
}.

Definition with_marks (m : LeaderboardMarker.LeaderboardTables) (t : RefreshTables) : RefreshTables := {|
  marks := m; holders := holders t; positions := positions t; vaults := vaults t;
  account_pnl_state := account_pnl_state t; account_pnl_snapshot := account_pnl_snapshot t |}.
Definition with_results (s : gmap string PnlState) (l : list PnlSnapshot) (t : RefreshTables) : RefreshTables := {|
  marks := marks t; holders := holders t; positions := positions t; vaults := vaults t;
  account_pnl_state := s; account_pnl_snapshot := l |}.

(** ** The queries *)

Definition dirty_vaults (t : RefreshTables) : list (string * string) := elements (LeaderboardMarker.dirty_vault (marks t)).
Definition dirty_accounts (t : RefreshTables) : list string := map fst (map_to_list (LeaderboardMarker.dirty_account (marks t))).

Definition delete_dirty_vaults (t : RefreshTables) : RefreshTables :=
  with_marks {| LeaderboardMarker.dirty_account := LeaderboardMarker.dirty_account (marks t);
    LeaderboardMarker.dirty_vault := ∅; LeaderboardMarker.account_stats := LeaderboardMarker.account_stats (marks t) |} t.
Definition delete_dirty_accounts (t : RefreshTables) : RefreshTables :=
  with_marks {| LeaderboardMarker.dirty_account := ∅; LeaderboardMarker.dirty_vault := LeaderboardMarker.dirty_vault (marks t);
    LeaderboardMarker.account_stats := LeaderboardMarker.account_stats (marks t) |} t.

(** [SELECT account_id FROM active_vault_position WHERE ..]: its key is the vault's and
    then the account's. *)
Definition vault_accounts (term_id curve_id : string) (t : RefreshTables) : list string :=
  map (fun row => snd (fst row)) (filter (fun row => fst (fst row) = (term_id, curve_id)) (map_to_list (holders t))).

(** A position with the price of its vault, which the [LEFT JOIN] may miss. *)
Definition account_positions (account_id : string) (t : RefreshTables) : list (PositionRow * option Z) :=
  map (fun row => (snd row, current_share_price <$> vaults t !! (snd (fst (fst row)), snd (fst row))))
    (filter (fun row => fst (fst (fst row)) = account_id) (map_to_list (positions t))).

(** [SUM(..)], where a missing price makes a term [NULL], which is skipped. *)
Fixpoint sum_of {A} (f : A -> Qc) (l : list A) : Qc :=
  match l with
  | [] => 0%Qc
  | x :: l => (f x + sum_of f l)%Qc
  end.
Definition count_of {A} (f : A -> bool) (l : list A) : Z := Z.of_nat (length (List.filter f l)).

Definition equity_term (row : PositionRow * option Z) : Qc :=
  if 0 <? shares (fst row) then match snd row with Some price => of_int (shares (fst row) * price) | None => 0%Qc end else 0%Qc.
Definition cost_term (row : PositionRow * option Z) : Qc := (of_int (shares (fst row)) * cost_basis (fst row))%Qc.
Definition unrealized_term (row : PositionRow * option Z) : Qc :=
  if 0 <? shares (fst row) then
    match snd row with Some price => (of_int (shares (fst row) * price) - cost_term row)%Qc | None => 0%Qc end
  else 0%Qc.
Definition gains (row : PositionRow * option Z) (price : Z) : bool :=
  match (cost_term row ?= of_int (shares (fst row) * price))%Qc with Lt => true | _ => false end.
Definition wins (row : PositionRow * option Z) : bool :=
  (0 <? shares (fst row)) && match snd row with Some price => gains row price | None => false end.
Definition loses (row : PositionRow * option Z) : bool :=
  (0 <? shares (fst row)) && match snd row with Some price => negb (gains row price) | None => false end.

Definition compute_account_pnl (account_id : string) (t : RefreshTables) : AccountPnlRow :=
  let rows := account_positions account_id t in {|
  pnl_total_deposits := foldr Z.add 0 (map (fun row => total_deposits (fst row)) rows);
  current_equity_value := sum_of equity_term rows;
  pnl_realized := sum_of (fun row => realized_pnl (fst row)) rows;
  unrealized_pnl := sum_of unrealized_term rows;
  winning_positions := count_of wins rows;
  losing_positions := count_of loses rows |}.

Definition pnl_total (pnl : AccountPnlRow) : Qc := (pnl_realized pnl + unrealized_pnl pnl)%Qc.

Definition upsert_account_pnl_state (account_id : string) (pnl : AccountPnlRow) (t : RefreshTables) : RefreshTables :=
  with_results
    (upsert account_id {| st_pnl := pnl; st_total_redemptions := 0; st_total_pnl := pnl_total pnl |}
       (fun row => {| st_pnl := pnl; st_total_redemptions := st_total_redemptions row; st_total_pnl := pnl_total pnl |})
       (account_pnl_state t))
    (account_pnl_snapshot t) t.

(** [INSERT .. SELECT .. FROM account_pnl_state WHERE account_id = $1] *)
Definition insert_account_pnl_snapshot (account_id : string) (pnl : AccountPnlRow) (ts : DateTime) (t : RefreshTables)
    : RefreshTables :=
  match account_pnl_state t !! account_id with
  | None => t
  | Some aps => with_results (account_pnl_state t) (account_pnl_snapshot t ++ [{|
      sn_account_id := account_id; sn_total_deposits := pnl_total_deposits pnl;
      sn_total_redemptions := st_total_redemptions aps; sn_realized_pnl := pnl_realized pnl;
      sn_unrealized_pnl := unrealized_pnl pnl; sn_total_pnl := pnl_total pnl;
      sn_current_equity_value := current_equity_value pnl; sn_ts := ts |}]) t
  end.

(** ** The cycle *)

Definition PNL_BATCH_SIZE : nat := 100.

Section Cycle.
Context {W : Type} `{Clock W} `{ReadPool RefreshTables W} `{HashOrder}.

Definition drain_dirty_vaults : tx_code RefreshTables W (list (string * string)) :=
  run_returning dirty_vaults delete_dirty_vaults.
Definition drain_dirty_accounts : tx_code RefreshTables W (list string) :=
  run_returning dirty_accounts delete_dirty_accounts.
Definition expand_vault_to_accounts (term_id curve_id : string) : tx_code RefreshTables W (list string) :=
  run_query (vault_accounts term_id curve_id).

Fixpoint expand_vaults (vs : list (string * string)) (account_set : gset string) : tx_code RefreshTables W (gset string) :=
  match vs with
  | [] => ret account_set
  | (term_id, curve_id) :: vs =>
      bind (expand_vault_to_accounts term_id curve_id) (fun accounts =>
      expand_vaults vs (account_set ∪ list_to_set accounts))
  end.

Definition drain : tx_code RefreshTables W (gset string) :=
  bind drain_dirty_vaults (fun vs =>
  bind drain_dirty_accounts (fun accounts => expand_vaults vs (list_to_set accounts))).

Definition refresh_account (account_id : string) : tx_code RefreshTables W unit :=
  bind (run_query (compute_account_pnl account_id)) (fun pnl =>
  bind (run_statement (upsert_account_pnl_state account_id pnl)) (fun _ =>
  bind look_at_clock (fun now => run_statement (insert_account_pnl_snapshot account_id pnl now)))).

Fixpoint refresh_chunks (chunked : list (list string)) (w : W) : outcome unit * W :=
  match chunked with
  | [] => (Done tt, w)
  | chunk :: chunked =>
      let '(o, w) := in_transaction (for_each refresh_account chunk) w in
      match o with
      | Done _ => refresh_chunks chunked w
      | Failed e => (Failed e, w)
      | Panicked => (Panicked, w)
      end
  end.

Definition run_cycle (w : W) : outcome unit * W :=
  let '(o, w) := in_transaction drain w in
  match o with
  | Failed e => (Failed e, w)
  | Panicked => (Panicked, w)
  | Done account_set =>
      if decide (account_set = ∅) then (Done tt, w)
      else refresh_chunks (chunks PNL_BATCH_SIZE (set_iter account_set)) w
  end.
End Cycle.

(** ** What a cycle does *)

(** The accounts due: marked, or holders of a marked vault. *)
Definition due (t : RefreshTables) (account_id : string) : Prop :=
  is_Some (LeaderboardMarker.dirty_account (marks t) !! account_id) \/
  exists v, v ∈ LeaderboardMarker.dirty_vault (marks t) /\ is_Some (holders t !! (v, account_id)).

Definition new_state (t : RefreshTables) (account_id : string) : PnlState :=
  let pnl := compute_account_pnl account_id t in {|
  st_pnl := pnl; st_total_redemptions := default 0 (st_total_redemptions <$> account_pnl_state t !! account_id);
  st_total_pnl := pnl_total pnl |}.

(** The accounts of [S] have the figures of the positions and prices of [t]; nothing else
    has changed but the snapshots. *)
Record refreshed (S : string -> Prop) (t t' : RefreshTables) : Prop := {
  same_sources : marks t' = marks t /\ holders t' = holders t /\ positions t' = positions t /\ vaults t' = vaults t;
  fresh_states a : S a -> account_pnl_state t' !! a = Some (new_state t a);
  other_states a : ~ S a -> account_pnl_state t' !! a = account_pnl_state t !! a
}.

Definition drained (t : RefreshTables) : RefreshTables := delete_dirty_accounts (delete_dirty_vaults t).

Lemma compute_same a t t' : positions t' = positions t -> vaults t' = vaults t -> compute_account_pnl a t' = compute_account_pnl a t.
Proof. intros Hp Hv. unfold compute_account_pnl, account_positions. by rewrite Hp, Hv. Qed.

Lemma refreshed_none (S : string -> Prop) t : (forall a, ~ S a) -> refreshed S t t.
Proof. intros HS. split; [done| |done]. intros a Ha. by destruct (HS a). Qed.

Lemma refreshed_then (S1 S2 : string -> Prop) `{!forall a, Decision (S1 a)} `{!forall a, Decision (S2 a)} t t1 t2 :
  refreshed S1 t t1 -> refreshed S2 t1 t2 -> refreshed (fun a => S1 a \/ S2 a) t t2.
Proof.
  intros [(M1 & H1 & P1 & V1) F1 O1] [(M2 & H2 & P2 & V2) F2 O2]. split; [split_and!; congruence| |].
  - intros a Ha. destruct (decide (S2 a)) as [Ha2|Ha2].
    + rewrite (F2 a Ha2). unfold new_state. rewrite (compute_same a t t1 P1 V1). do 2 f_equal.
      destruct (decide (S1 a)) as [Ha1|Ha1]; [by rewrite (F1 a Ha1)|by rewrite (O1 a Ha1)].
    + rewrite (O2 a Ha2). apply F1. by destruct Ha.
  - intros a Ha. rewrite O2, O1; tauto.
Qed.

Lemma refreshed_ext (S S' : string -> Prop) t t' : (forall a, S a <-> S' a) -> refreshed S t t' -> refreshed S' t t'.
Proof. intros HS [? F O]. split; [done|intros a Ha; apply F; by apply HS|intros a Ha; apply O; by rewrite HS]. Qed.

Lemma refresh_one a now t :
  refreshed (fun x => x = a) t (insert_account_pnl_snapshot a (compute_account_pnl a t) now
    (upsert_account_pnl_state a (compute_account_pnl a t) t)).
Proof.
  set (t1 := upsert_account_pnl_state a (compute_account_pnl a t) t).
  assert (Hs : refreshed (fun x => x = a) t t1).
  { unfold t1, upsert_account_pnl_state, upsert. split; cbn; [done| |].
    - intros x ->. rewrite lookup_insert_eq. unfold new_state. by destruct (account_pnl_state t !! a).
    - intros x Hx. by rewrite lookup_insert_ne. }
  unfold insert_account_pnl_snapshot. destruct (account_pnl_state t1 !! a); [|done]. destruct Hs. by split.
Qed.

Section Spec.
Context {W : Type} `{Clock W} `{ReadPool RefreshTables W} `{HashOrder} (tables : W -> RefreshTables).
Context (L : ReadLaws tables) (Hclock : clock_apart tables).

Lemma refresh_account_performs a : performs tables (refresh_account a) (fun t _ t' => refreshed (fun x => x = a) t t').
Proof.
  eapply performs_weaken; [|apply performs_bind; [|intros pnl; apply performs_bind;
    [|intros u; apply performs_bind; [by apply performs_clock|intros now]]]].
  2: { apply yields_performs, (yields_query tables L). }
  2: { apply yields_performs, (yields_statement tables L). }
  2: { apply yields_performs, (yields_statement tables L). }
  cbn. intros t v t' (pnl & t1 & [= <- <-] & u & t2 & [= <- <-] & now & t3 & -> & Heq). apply (f_equal snd) in Heq. cbn in Heq. subst t'. apply refresh_one.
Qed.

Lemma rounds_refreshed accounts t t' :
  rounds (fun a t t' => refreshed (fun x => x = a) t t') accounts t t' -> refreshed (fun x => x ∈ accounts) t t'.
Proof.
  revert t. induction accounts as [|a accounts IH]; cbn [rounds]; intros t.
  - intros ->. apply refreshed_none. intros x. apply not_elem_of_nil.
  - intros (t1 & Ha1 & Ha2%IH). refine (refreshed_ext _ _ _ _ _ (refreshed_then _ _ _ _ _ Ha1 Ha2)). intros x. cbn. by rewrite elem_of_cons.
Qed.

Lemma refresh_chunks_refreshed chunked w :
  let '(o, w') := refresh_chunks chunked w in
  match o with
  | Done _ => refreshed (fun x => x ∈ concat chunked) (tables w) (tables w')
  | Failed _ => exists some : list string, (forall x, x ∈ some -> x ∈ concat chunked) /\
      refreshed (fun x => x ∈ some) (tables w) (tables w')
  | Panicked => False
  end.
Proof.
  revert w. induction chunked as [|chunk chunked IH]; intros w; cbn [refresh_chunks concat].
  { apply refreshed_none. intros x. apply not_elem_of_nil. }
  pose proof (in_transaction_performs tables L (for_each refresh_account chunk) _ w
    (performs_each tables _ _ chunk refresh_account_performs)) as Ho.
  destruct (in_transaction _ w) as [[u|e|] w1]; [| |done].
  - apply rounds_refreshed in Ho. specialize (IH w1). destruct (refresh_chunks chunked w1) as [[v|e|] w2]; [| |done].
    + refine (refreshed_ext _ _ _ _ _ (refreshed_then _ _ _ _ _ Ho IH)). intros x. cbn. by rewrite elem_of_app.
    + destruct IH as (some & Hin & Hr). exists (chunk ++ some). split.
      { intros x. rewrite !elem_of_app. intros [?|?]; [by left|right; by apply Hin]. }
      refine (refreshed_ext _ _ _ _ _ (refreshed_then _ _ _ _ _ Ho Hr)). intros x. cbn. by rewrite elem_of_app.
  - destruct Ho as [->|[u Hr]].
    + exists []. split; [by intros x ?%not_elem_of_nil|]. apply refreshed_none. intros x. apply not_elem_of_nil.
    + exists chunk. split; [intros x ?; apply elem_of_app; by left|by apply rounds_refreshed].
Qed.

(** The accounts the drain collects from the vaults. *)
Definition expanded (vs : list (string * string)) (t : RefreshTables) (s : gset string) : gset string :=
  foldl (fun s v => s ∪ list_to_set (vault_accounts (fst v) (snd v) t)) s vs.

Lemma expand_yields vs s : yields tables (expand_vaults vs s) (fun t => Some (expanded vs t s, t)).
Proof.
  revert s. induction vs as [|[term_id curve_id] vs IH]; intros s; cbn [expand_vaults]; [exact (yields_ret tables s)|].
  eapply yields_ext; [|apply yields_bind; [by apply yields_query|intros accounts; apply IH]]. done.
Qed.

Lemma vault_accounts_elem v a t : a ∈ vault_accounts (fst v) (snd v) t <-> is_Some (holders t !! (v, a)).
Proof.
  unfold vault_accounts. rewrite list_elem_of_fmap. split.
  - intros ([[v' a'] row] & -> & [Hv Hin]%list_elem_of_filter). apply elem_of_map_to_list in Hin. cbn in *.
    destruct v. subst. by exists row.
  - intros [row Hrow]. exists (v, a, row). split; [done|]. apply list_elem_of_filter. split; [by destruct v|].
    by apply elem_of_map_to_list.
Qed.

Lemma expanded_elem vs t s a : a ∈ expanded vs t s <-> a ∈ s \/ exists v, v ∈ vs /\ is_Some (holders t !! (v, a)).
Proof.
  unfold expanded. revert s. induction vs as [|v vs IH]; intros s; cbn [foldl].
  - split; [by left|]. intros [?|(v & Hv & _)]; [done|]. by apply not_elem_of_nil in Hv.
  - rewrite IH, elem_of_union, elem_of_list_to_set, vault_accounts_elem. split.
    + intros [[?|?]|(v' & Hv & ?)]; [by left|right; exists v; split; [by left|done]|right; exists v'; split; [by right|done]].
    + intros [?|(v' & [->|Hv]%elem_of_cons & ?)]; [tauto|tauto|]. right. by exists v'.
Qed.

Definition due_set (t : RefreshTables) : gset string := expanded (dirty_vaults t) t (list_to_set (dirty_accounts t)).

Lemma due_set_elem t a : a ∈ due_set t <-> due t a.
Proof.
  unfold due_set, due. rewrite expanded_elem, elem_of_list_to_set. unfold dirty_accounts, dirty_vaults.
  rewrite list_elem_of_fmap. split.
  - intros [([k reason] & -> & Hk%elem_of_map_to_list)|(v & Hv%elem_of_elements & ?)]; [left; by exists reason|right; by exists v].
  - intros [[reason Hr]|(v & Hv & ?)]; [left; exists (a, reason); split; [done|by apply elem_of_map_to_list]|right].
    exists v. by rewrite elem_of_elements.
Qed.

Lemma drain_yields : yields tables drain (fun t => Some (due_set t, drained t)).
Proof.
  unfold drain, drain_dirty_vaults, drain_dirty_accounts.
  eapply yields_ext; [|apply yields_bind; [by apply yields_returning|intros vs;
    apply yields_bind; [by apply yields_returning|intros accounts; apply expand_yields]]].
  intros t. cbn. unfold due_set, drained. done.
Qed.
End Spec.

(** ** Profit and loss *)

Lemma of_int_mul a b : of_int (a * b) = (of_int a * of_int b)%Qc.
Proof. apply Qc_is_canon. unfold of_int. cbn. rewrite !Qred_correct, inject_Z_mult. reflexivity. Qed.

Lemma of_int_sub a b : of_int (a - b) = (of_int a - of_int b)%Qc.
Proof.
  apply Qc_is_canon. unfold of_int. cbn. rewrite !Qred_correct, <- inject_Z_opp, <- inject_Z_plus. reflexivity.
Qed.

(** The open positions, and what they cost. *)
Definition is_open (row : PositionRow * option Z) : bool := 0 <? shares (fst row).
Definition open_cost (rows : list (PositionRow * option Z)) : Qc :=
  sum_of (fun row => if is_open row then cost_term row else 0%Qc) rows.
Definition priced (row : PositionRow * option Z) : Prop := is_Some (snd row).

Lemma unrealized_split rows : Forall priced rows ->
  sum_of unrealized_term rows = (sum_of equity_term rows - open_cost rows)%Qc.
Proof.
  induction 1 as [|row rows [price Hp] _ IH]; cbn [sum_of open_cost]; [ring|].
  unfold open_cost in *. cbn [sum_of]. rewrite IH. unfold unrealized_term, equity_term, is_open. rewrite Hp.
  destruct (0 <? shares (fst row)); ring.
Qed.

Lemma open_counted rows : Forall priced rows -> count_of wins rows + count_of loses rows = count_of is_open rows.
Proof.
  unfold count_of. induction 1 as [|row rows [price Hp] _ IH]; [done|]. cbn [List.filter]. revert IH.
  unfold wins, loses, is_open. rewrite Hp. destruct (0 <? shares (fst row)); cbn [andb]; [|done].
  destruct (gains row price); cbn [negb length]; lia.
Qed.

(** One share, in the fixed point of the share prices. *)
Definition PRICE_SCALE : Z := 10 ^ 18.

(** The vault's price is the average price the position was bought at. *)
Definition at_par (row : PositionRow * option Z) : Prop :=
  exists price, snd row = Some price /\ of_int price = (of_int PRICE_SCALE * cost_basis (fst row))%Qc.

Lemma unrealized_at_par rows : Forall at_par rows ->
  sum_of unrealized_term rows = (of_int (PRICE_SCALE - 1) * open_cost rows)%Qc.
Proof.
  induction 1 as [|row rows (price & Hp & Hpar) _ IH]; cbn [sum_of]; [unfold open_cost; cbn; ring|].
  unfold open_cost in *. cbn [sum_of]. rewrite IH. unfold unrealized_term, is_open, cost_term. rewrite Hp, of_int_mul, Hpar, of_int_sub.
  change (of_int 1) with 1%Qc. destruct (0 <? shares (fst row)); ring.
Qed.

(** ** Properties *)

(** C35 (a refresh brings the marked accounts up to date). If a cycle succeeds, every account
    that was marked, or held shares of a marked vault, has the profit and loss its
    positions and the vault prices give, kept under its row with the redemptions column
    it had, all other accounts have the row they had, and no mark is left. If it fails,
    either nothing happened, or the marks are gone and only some of these accounts are
    up to date. It never panics. *)
Theorem refresh_brings_up_to_date {W} `{Clock W} `{ReadPool RefreshTables W} `{HashOrder} (tables : W -> RefreshTables) (w : W)
  (L : ReadLaws tables) (Hclock : clock_apart tables) :
  let t := tables w in
  let '(o, w') := run_cycle w in
  match o with
  | Done _ => refreshed (due t) (drained t) (tables w')
  | Failed _ => tables w' = t \/
      exists some : list string, (forall a, a ∈ some -> due t a) /\ refreshed (fun a => a ∈ some) (drained t) (tables w')
  | Panicked => False
  end.
Proof.
  cbv zeta. unfold run_cycle.
  pose proof (in_transaction_outcome tables L drain _ w (drain_yields tables L)) as Ho.
  destruct (in_transaction drain w) as [[s|e|] w1].
  - injection Ho as <- Ht1. case_decide as Hs.
    { rewrite <- Ht1. apply refreshed_none. intros a. rewrite <- due_set_elem, Hs. apply not_elem_of_empty. }
    pose proof (refresh_chunks_refreshed tables L Hclock (chunks PNL_BATCH_SIZE (set_iter (due_set (tables w)))) w1) as Hr.
    assert (Hall : forall a, a ∈ concat (chunks PNL_BATCH_SIZE (set_iter (due_set (tables w)))) <-> due (tables w) a).
    { intros a. rewrite chunks_concat by (unfold PNL_BATCH_SIZE; lia).
      by rewrite set_iter_perm, elem_of_elements, due_set_elem. }
    rewrite <- Ht1 in Hr. destruct (refresh_chunks _ w1) as [[u|e|] w2]; [| |done].
    + exact (refreshed_ext _ _ _ _ Hall Hr).
    + right. destruct Hr as (some & Hin & Hr). exists some. split; [|done]. intros a Ha. by apply Hall, Hin.
  - destruct Ho as [?|[s [= _ Ht]]]; [by left|right]. exists []. split; [by intros a ?%not_elem_of_nil|].
    rewrite <- Ht. apply refreshed_none. intros a. apply not_elem_of_nil.
  - by destruct Ho.
Qed.

(** The figures of an account. When the vaults of all of an account's positions are
    known, the unrealised profit is the value of the open positions at the vaults'
    prices less what they cost, the total is the realised and the unrealised profit, and
    every open position is counted once, as winning or as losing. *)
Theorem account_pnl_books (account_id : string) (t : RefreshTables)
  (Hpriced : Forall priced (account_positions account_id t)) :
  let pnl := compute_account_pnl account_id t in
  unrealized_pnl pnl = (current_equity_value pnl - open_cost (account_positions account_id t))%Qc /\
  st_total_pnl (new_state t account_id) = (pnl_realized pnl + unrealized_pnl pnl)%Qc /\
  winning_positions pnl + losing_positions pnl = count_of is_open (account_positions account_id t).
Proof. split_and!; [by apply unrealized_split|done|by apply open_counted]. Qed.

(** Prices are taken for wei. Share prices are fixed-point numbers, 10^18 for one
    asset per share, and the cost basis is assets per share; the query multiplies both
    with the shares and subtracts. An account all of whose positions stand exactly at
    the price they were bought at, so that nothing is won or lost, is recorded with an
    unrealised profit of 10^18 - 1 times what its open positions cost. *)
Theorem account_pnl_at_par (account_id : string) (t : RefreshTables)
  (Hpar : Forall at_par (account_positions account_id t)) :
  unrealized_pnl (compute_account_pnl account_id t) =
    (of_int (PRICE_SCALE - 1) * open_cost (account_positions account_id t))%Qc.
Proof. by apply unrealized_at_par. Qed.

(** ** Concrete tables *)

#[local] Existing Instance exact_division.

#[global] Instance demo_order : HashOrder.
Proof. by refine {| set_iter := elements |}. Defined.
#[global] Instance demo_refresh_clock : Clock (demo RefreshTables) := {| utc_now w := (5, w) |}.
#[global] Instance no_refresh : EmptyTables RefreshTables := {|
  marks := empty_tables; holders := ∅; positions := ∅; vaults := ∅; account_pnl_state := ∅; account_pnl_snapshot := [] |}.

(** 1000 shares bought for 2000, in a vault at two assets per share. *)
Definition demo_position : PositionRow := {|
  shares := 1000; PositionTracking.total_deposits := 2000; total_deposits_value := 2000; total_shares_acquired := 1000;
  cost_basis := of_int 2; realized_pnl := 0%Qc; version := 0; opened_at := 0; closed_at := None |}.
Definition demo_vault : VaultRow := {|
  VaultRepo.total_shares := 1000; VaultRepo.total_deposits := 2000; current_share_price := 2 * PRICE_SCALE; market_cap := 2000;
  holder_count := 1; VaultRepo.total_redemptions := 0; total_assets := 2000 |}.
Definition demo_holder : HolderRow := {| h_shares := 1000; h_total_deposits := 2000; h_total_redemptions := 0 |}.
Definition demo_refresh_tables : RefreshTables := {|
  marks := LeaderboardMarker.mark_dirty_vault "0x07" "1" empty_tables;
  holders := {[(("0x07", "1"), "0xa") := demo_holder]}; positions := {[("0xa", "0x07", "1") := demo_position]};
  vaults := {[("0x07", "1") := demo_vault]}; account_pnl_state := ∅; account_pnl_snapshot := [] |}.

Definition refresh_run : outcome unit * demo RefreshTables := run_cycle (demo_database demo_refresh_tables []).

Lemma demo_at_par : Forall at_par (account_positions "0xa" demo_refresh_tables).
Proof.
  assert (Hrows : account_positions "0xa" demo_refresh_tables = [(demo_position, Some (2 * PRICE_SCALE))])
    by (vm_compute; reflexivity).
  rewrite Hrows. repeat constructor. exists (2 * PRICE_SCALE). split; [done|]. by rewrite Z.mul_comm, of_int_mul.
Qed.

Lemma demo_priced : Forall priced (account_positions "0xa" demo_refresh_tables).
Proof. eapply Forall_impl; [apply demo_at_par|]. intros row (price & Hp & _). by exists price. Qed.

Lemma refresh_brings_up_to_date_witness :
  fst refresh_run = Done tt /\
  let '(o, w') := refresh_run in
  match o with
  | Done _ => refreshed (due demo_refresh_tables) (drained demo_refresh_tables) (demo_tables w')
  | Failed _ => demo_tables w' = demo_refresh_tables \/
      exists some : list string, (forall a, a ∈ some -> due demo_refresh_tables a) /\
        refreshed (fun a => a ∈ some) (drained demo_refresh_tables) (demo_tables w')
  | Panicked => False
  end.
Proof.
  split; [vm_compute; reflexivity|].
  exact (refresh_brings_up_to_date demo_tables (demo_database demo_refresh_tables []) demo_read_laws (fun w => eq_refl)).
Defined.

Lemma account_pnl_books_witness :
  winning_positions (compute_account_pnl "0xa" demo_refresh_tables) +
    losing_positions (compute_account_pnl "0xa" demo_refresh_tables) = 1.
Proof. exact (proj2 (proj2 (account_pnl_books "0xa" demo_refresh_tables demo_priced))). Defined.

(** The position has won nothing, and is recorded as having won 2000 * (10^18 - 1). *)
Lemma account_pnl_at_par_witness :
  unrealized_pnl (compute_account_pnl "0xa" demo_refresh_tables) =
    (of_int (PRICE_SCALE - 1) * open_cost (account_positions "0xa" demo_refresh_tables))%Qc /\
  this (open_cost (account_positions "0xa" demo_refresh_tables)) = (2000 # 1)%Q.
Proof. split; [exact (account_pnl_at_par "0xa" demo_refresh_tables demo_at_par)|vm_compute; reflexivity]. Defined.
