(* ===== verification/ActivityDaily.v ===== *)
(** * Daily activity

    [crates/projections/src/repo/user_activity_repo.rs], the daily rollups: the query of
    the backfill, which groups the typed event tables of a day by account and vault and
    joins the groups, and the query of the incremental cycle, which counts one
    account's rows of today. Days are counted from the epoch, midnight in UTC; [NUMERIC]
    and [bigint] columns are integers. *)

From stdpp Require Import pretty.
From S2P Require Import Prelude Events PgTx TxCode PgCommon DemoDatabase Ingestion.

Abbreviation NaiveDate := Z (only parsing).

Definition DAY : Z := 86400 * 1000000.
Definition midnight (day : NaiveDate) : DateTime := day * DAY.
(** [date_naive()] *)
Definition date_of (ts : DateTime) : NaiveDate := ts / DAY.

Record DailyRollup := {
  account_id : string;
  day : DateTime;
  atoms_created : Z;
  triples_created : Z;
  deposits_count : Z;
  redemptions_count : Z;
  deposit_volume : Z;
  redemption_volume : Z;
  unique_vaults : Z;
  net_flow : Z
}.

(** ** Queries *)

(** [WHERE block_timestamp >= day AND block_timestamp < day + 1] *)
Definition on_day (d : NaiveDate) (env : Envelope) : Prop := midnight d <= block_timestamp env < midnight (d + 1).
#[global] Instance on_day_dec d env : Decision (on_day d env).
Proof. unfold on_day. apply _. Defined.

Definition rows_on {R K} `{TypedTable R K} (d : NaiveDate) (t : IngestTables) : list R :=
  filter (fun r => on_day d (envelope r)) (map (fun kv => snd (snd kv)) (map_to_list (table t))).

Abbreviation atoms_on d t := (rows_on (R := AtomCreatedTyped) d t).
Abbreviation triples_on d t := (rows_on (R := TripleCreatedTyped) d t).
Abbreviation deposits_on d t := (rows_on (R := DepositedTyped) d t).
Abbreviation redemptions_on d t := (rows_on (R := RedeemedTyped) d t).

Definition creator_of_atom (r : AtomCreatedTyped) : string := ac_creator (at_data r).
Definition creator_of_triple (r : TripleCreatedTyped) : string := tc_creator (tt_data r).

(** A deposit or a redemption, as both queries see it. *)
Record Flow := { flow_account : string; flow_term : Z; flow_curve : Z; flow_volume : Z }.
Definition deposit_flow (r : DepositedTyped) : Flow := {|
  flow_account := dep_sender (dt_data r); flow_term := dt_term_id r; flow_curve := dep_curve_id (dt_data r);
  flow_volume := dep_assets_after_fees (dt_data r) |}.
Definition redemption_flow (r : RedeemedTyped) : Flow := {|
  flow_account := red_sender (rt_data r); flow_term := rt_term_id r; flow_curve := red_curve_id (rt_data r);
  flow_volume := red_assets (rt_data r) |}.
(** [term_id::text || ':' || curve_id::text] *)
Definition vault_key (f : Flow) : string := pretty (flow_term f) +:+ ":" +:+ pretty (flow_curve f).

(** [GROUP BY] *)
Definition group_by {V K} `{EqDecision K} (key : V -> K) (l : list V) : list (K * list V) :=
  map (fun k => (k, filter (fun v => key v = k) l)) (remove_dups (map key l)).

Definition sum {V} (f : V -> Z) (l : list V) : Z := foldr (fun v s => f v + s) 0 l.
Definition count {V} (l : list V) : Z := Z.of_nat (length l).

(** The common table expressions of the backfill. *)
Record Group := { g_account : string; g_vault_key : string; g_cnt : Z; g_volume : Z }.

Definition creations (creators : list string) : list (string * Z) :=
  map (fun g => (fst g, count (snd g))) (group_by (fun c => c) creators).
Definition flows_by_vault (flows : list Flow) : list Group :=
  map (fun g => {| g_account := fst (fst (fst g));
                   g_vault_key := pretty (snd (fst (fst g)) : Z) +:+ ":" +:+ pretty (snd (fst g) : Z);
                   g_cnt := count (snd g); g_volume := sum flow_volume (snd g) |})
    (group_by (fun f => (flow_account f, flow_term f, flow_curve f)) flows).
(** Per account: the count and the volume. *)
Definition flows_agg (groups : list Group) : list (string * (Z * Z)) :=
  map (fun g => (fst g, (sum g_cnt (snd g), sum g_volume (snd g)))) (group_by g_account groups).
Definition vault_union (deps reds : list Group) : list (string * string) :=
  remove_dups (map (fun g => (g_account g, g_vault_key g)) deps ++ map (fun g => (g_account g, g_vault_key g)) reds).
Definition unique_vault_counts (union : list (string * string)) : list (string * Z) :=
  map (fun g => (fst g, count (remove_dups (map snd (snd g))))) (group_by fst union).

(** [LEFT JOIN .. ON account_id], with [COALESCE(.., 0)]. *)
Definition joined {A} (a : string) (l : list (string * A)) : option A := snd <$> (snd <$> list_find (fun x => fst x = a) l).

Definition aggregate_day (d : NaiveDate) (t : IngestTables) : list DailyRollup :=
  let atoms := creations (map creator_of_atom (atoms_on d t)) in
  let triples := creations (map creator_of_triple (triples_on d t)) in
  let deps := flows_by_vault (map deposit_flow (deposits_on d t)) in
  let deps_agg := flows_agg deps in
  let reds := flows_by_vault (map redemption_flow (redemptions_on d t)) in
  let reds_agg := flows_agg reds in
  let vaults := unique_vault_counts (vault_union deps reds) in
  let all_accounts := remove_dups (map fst atoms ++ map fst triples ++ map fst deps_agg ++ map fst reds_agg) in
  map (fun a =>
    let d_volume := default 0 (snd <$> joined a deps_agg) in
    let r_volume := default 0 (snd <$> joined a reds_agg) in
    {| account_id := a; day := midnight d;
       atoms_created := default 0 (joined a atoms); triples_created := default 0 (joined a triples);
       deposits_count := default 0 (fst <$> joined a deps_agg); redemptions_count := default 0 (fst <$> joined a reds_agg);
       deposit_volume := d_volume; redemption_volume := r_volume;
       unique_vaults := default 0 (joined a vaults); net_flow := d_volume - r_volume |}) all_accounts.

(** The query of [upsert_today_rollup]: one account, counted by the source of its rows. *)
Inductive Src := AtomSrc | TripleSrc | DepositSrc | RedeemSrc.
#[global] Instance src_eq_dec : EqDecision Src.
Proof. solve_decision. Defined.
Record SourceRow := { src : Src; vol : option Z; src_vault_key : option string }.

Definition source_rows (a : string) (d : NaiveDate) (t : IngestTables) : list SourceRow :=
  map (fun _ => {| src := AtomSrc; vol := None; src_vault_key := None |})
    (filter (fun r => creator_of_atom r = a) (atoms_on d t)) ++
  map (fun _ => {| src := TripleSrc; vol := None; src_vault_key := None |})
    (filter (fun r => creator_of_triple r = a) (triples_on d t)) ++
  map (fun f => {| src := DepositSrc; vol := Some (flow_volume f); src_vault_key := Some (vault_key f) |})
    (filter (fun f => flow_account f = a) (map deposit_flow (deposits_on d t))) ++
  map (fun f => {| src := RedeemSrc; vol := Some (flow_volume f); src_vault_key := Some (vault_key f) |})
    (filter (fun f => flow_account f = a) (map redemption_flow (redemptions_on d t))).

Definition of_src (s : Src) (rows : list SourceRow) : list SourceRow := filter (fun r => src r = s) rows.
Definition volume_of (s : Src) (rows : list SourceRow) : Z := sum (fun r => default 0 (vol r)) (of_src s rows).

Definition today_rollup (a : string) (today : NaiveDate) (t : IngestTables) : DailyRollup :=
  let rows := source_rows a today t in {|
  account_id := a; day := midnight today;
  atoms_created := count (of_src AtomSrc rows); triples_created := count (of_src TripleSrc rows);
  deposits_count := count (of_src DepositSrc rows); redemptions_count := count (of_src RedeemSrc rows);
  deposit_volume := volume_of DepositSrc rows; redemption_volume := volume_of RedeemSrc rows;
  unique_vaults := count (remove_dups (omap src_vault_key rows));
  net_flow := volume_of DepositSrc rows - volume_of RedeemSrc rows |}.

(** ** Lemmas on groups *)

#[global] Arguments sum : simpl never.

Lemma sum_nil {V} (f : V -> Z) : sum f [] = 0.
Proof. done. Qed.
Lemma sum_cons {V} (f : V -> Z) v l : sum f (v :: l) = f v + sum f l.
Proof. done. Qed.

Lemma sum_map {V U} (f : U -> Z) (g : V -> U) l : sum f (map g l) = sum (fun v => f (g v)) l.
Proof. induction l as [|v l IH]; [done|]. cbn [map]. by rewrite !sum_cons, IH. Qed.

Lemma count_sum {V} (l : list V) : count l = sum (fun _ => 1) l.
Proof. unfold count. induction l as [|v l IH]; [done|]. rewrite sum_cons, <- IH. cbn [length]. lia. Qed.

Lemma sum_filter_split {V} (f : V -> Z) (P Q : V -> Prop) `{!forall v, Decision (P v)} `{!forall v, Decision (Q v)} l :
  (forall v, P v -> Q v -> False) ->
  sum f (filter P l) + sum f (filter Q l) = sum f (filter (fun v => P v \/ Q v) l).
Proof.
  intros Hdis. induction l as [|v l IH]; [done|]. rewrite !filter_cons. repeat case_decide; rewrite ?sum_cons;
    try tauto; try lia. by destruct (Hdis v).
Qed.

(** Summing over groups is summing over their members. *)
Lemma sum_groups {V K} `{EqDecision K} (key : V -> K) (f : V -> Z) l ks : NoDup ks ->
  sum (fun k => sum f (filter (fun v => key v = k) l)) ks = sum f (filter (fun v => key v ∈ ks) l).
Proof.
  induction 1 as [|k ks Hk _ IH].
  { rewrite filter_none; [done|]. apply Forall_forall. intros v _. apply not_elem_of_nil. }
  rewrite sum_cons, IH.
  rewrite (sum_filter_split f (fun v => key v = k) (fun v => key v ∈ ks)) by (by intros v <- ?).
  f_equal. apply list_filter_iff. intros v. by rewrite elem_of_cons.
Qed.

Lemma sum_group_by {V K} `{EqDecision K} (key : V -> K) (f : V -> Z) (P : K -> Prop) `{!forall k, Decision (P k)} l :
  sum (fun g => sum f (snd g)) (filter (fun g => P (fst g)) (group_by key l)) = sum f (filter (fun v => P (key v)) l).
Proof.
  unfold group_by. set (ks := remove_dups (map key l)).
  assert (Hf : filter (fun g : K * list V => P (fst g)) (map (fun k => (k, filter (fun v => key v = k) l)) ks) =
    map (fun k => (k, filter (fun v => key v = k) l)) (filter P ks)).
  { clearbody ks. induction ks as [|k ks IH]; [done|]. cbn [map]. rewrite !filter_cons. cbn. case_decide; cbn; by rewrite IH. }
  rewrite Hf, sum_map. cbn. rewrite sum_groups by (apply NoDup_filter, NoDup_remove_dups). f_equal.
  apply filter_ext_in. intros v Hv. rewrite list_elem_of_filter. split; [by intros [? _]|]. intros ?. split; [done|].
  apply elem_of_remove_dups, list_elem_of_fmap. by exists v.
Qed.

(** A join with groups finds the group of the key. *)
Lemma joined_keys {A} (h : string -> A) ks a : joined a (map (fun k => (k, h k)) ks) = if decide (a ∈ ks) then Some (h a) else None.
Proof.
  unfold joined. induction ks as [|k ks IH]; [by rewrite decide_False by apply not_elem_of_nil|]. cbn [map list_find].
  destruct (decide (fst (k, h k) = a)) as [Hk|Hk]; cbn in Hk |- *.
  - subst k. by rewrite decide_True by left.
  - destruct (list_find (fun x : string * A => fst x = a) (map (fun k => (k, h k)) ks)) as [[i x]|]; cbn in IH |- *;
      rewrite IH; destruct (decide (a ∈ ks)) as [Ha|Ha].
    1,3: by rewrite decide_True by (by right).
    1,2: rewrite decide_False; [done|]; rewrite elem_of_cons; by intros [?|?].
Qed.

Lemma joined_group {V A} (key : V -> string) (h : list V -> A) l a :
  joined a (map (fun g => (fst g, h (snd g))) (group_by key l)) =
  if decide (a ∈ map key l) then Some (h (filter (fun v => key v = a) l)) else None.
Proof.
  unfold group_by. rewrite map_map. cbn. rewrite joined_keys.
  destruct (decide (a ∈ map key l)) as [Ha|Ha]; [rewrite decide_True|rewrite decide_False]; try done; by rewrite elem_of_remove_dups.
Qed.

Lemma filter_absent {V K} `{EqDecision K} (key : V -> K) l a : a ∉ map key l -> filter (fun v => key v = a) l = [].
Proof.
  intros Ha. apply filter_none, Forall_forall. intros v Hv Heq. destruct Ha. apply list_elem_of_fmap. by exists v.
Qed.

Lemma joined_default {V A} (z : A) (key : V -> string) (h : list V -> A) l a : h [] = z ->
  default z (joined a (map (fun g => (fst g, h (snd g))) (group_by key l))) = h (filter (fun v => key v = a) l).
Proof. intros Hz. rewrite joined_group. case_decide as Ha; cbn; [done|]. by rewrite filter_absent. Qed.

(** Lists without duplicates and with the same elements have the same length. *)
Lemma count_same {V} (l k : list V) : NoDup l -> NoDup k -> (forall v, v ∈ l <-> v ∈ k) -> count l = count k.
Proof. intros Hl Hk Hlk. unfold count. by rewrite (NoDup_Permutation l k Hl Hk Hlk). Qed.

(** ** The two queries *)

Lemma filter_map_eq {A B} (f : A -> B) (P : B -> Prop) `{!forall y, Decision (P y)} l :
  filter P (map f l) = map f (filter (fun x => P (f x)) l).
Proof. induction l as [|x l IH]; [done|]. cbn [map]. rewrite !filter_cons. case_decide; cbn; by rewrite IH. Qed.

Lemma sum_ext {V} (f g : V -> Z) l : (forall v, f v = g v) -> sum f l = sum g l.
Proof. intros Hfg. induction l as [|v l IH]; [done|]. by rewrite !sum_cons, IH, Hfg. Qed.

Section Flows.
Context (flows : list Flow) (a : string).

Abbreviation mine := (filter (fun f => flow_account f = a) flows).

Lemma group_flows (f : Flow -> Z) :
  sum (fun g => sum f (snd g)) (filter (fun g => fst (fst (fst g)) = a)
    (group_by (fun f => (flow_account f, flow_term f, flow_curve f)) flows)) = sum f mine.
Proof. exact (sum_group_by (fun f => (flow_account f, flow_term f, flow_curve f)) f (fun k => fst (fst k) = a) flows). Qed.

Lemma agg_count : default 0 (fst <$> joined a (flows_agg (flows_by_vault flows))) = count mine.
Proof.
  unfold flows_agg. pose proof (joined_group g_account (fun gs => (sum g_cnt gs, sum g_volume gs)) (flows_by_vault flows) a) as Hj.
  rewrite Hj. clear Hj. case_decide as Ha; cbn.
  - unfold flows_by_vault at 1. rewrite filter_map_eq, sum_map. cbn.
    rewrite (sum_ext (fun g => count (snd g)) (fun g => sum (fun _ => 1) (snd g))) by (intros g; apply count_sum).
    by rewrite group_flows, count_sum.
  - rewrite count_sum, <- group_flows.
    assert (Hnil : filter (fun g => g_account g = a) (flows_by_vault flows) = []) by by apply filter_absent.
    unfold flows_by_vault in Hnil. rewrite filter_map_eq in Hnil. apply map_eq_nil in Hnil. cbn in Hnil. by rewrite Hnil.
Qed.

Lemma agg_volume : default 0 (snd <$> joined a (flows_agg (flows_by_vault flows))) = sum flow_volume mine.
Proof.
  unfold flows_agg. pose proof (joined_group g_account (fun gs => (sum g_cnt gs, sum g_volume gs)) (flows_by_vault flows) a) as Hj.
  rewrite Hj. clear Hj. case_decide as Ha; cbn.
  - unfold flows_by_vault at 1. rewrite filter_map_eq, sum_map. cbn. apply group_flows.
  - rewrite <- group_flows.
    assert (Hnil : filter (fun g => g_account g = a) (flows_by_vault flows) = []) by by apply filter_absent.
    unfold flows_by_vault in Hnil. rewrite filter_map_eq in Hnil. apply map_eq_nil in Hnil. cbn in Hnil. by rewrite Hnil.
Qed.

Lemma group_keys v : (exists g, g ∈ flows_by_vault flows /\ g_account g = a /\ g_vault_key g = v) <->
  exists f, f ∈ flows /\ flow_account f = a /\ vault_key f = v.
Proof.
  unfold flows_by_vault, group_by. rewrite map_map. split.
  - intros (g & Hg & Ha & Hv). apply list_elem_of_fmap in Hg as ([[a' t] c] & -> & Hk). cbn in Ha, Hv. subst.
    apply elem_of_remove_dups, list_elem_of_fmap in Hk as (f & Hk & Hf). injection Hk as -> -> ->. by exists f.
  - intros (f & Hf & Ha & Hv). eexists. split.
    + apply list_elem_of_fmap. exists (flow_account f, flow_term f, flow_curve f). split; [done|].
      apply elem_of_remove_dups, list_elem_of_fmap. by exists f.
    + by cbn.
Qed.
End Flows.

Lemma union_keys deps reds a v :
  (a, v) ∈ vault_union (flows_by_vault deps) (flows_by_vault reds) <->
  exists f, (f ∈ deps \/ f ∈ reds) /\ flow_account f = a /\ vault_key f = v.
Proof.
  unfold vault_union. rewrite elem_of_remove_dups, elem_of_app, !list_elem_of_fmap.
  pose proof (group_keys deps a v) as Hd. pose proof (group_keys reds a v) as Hr. split.
  - intros [(g & Heq & Hg)|(g & Heq & Hg)]; injection Heq as Ha Hv.
    + destruct (proj1 Hd) as (f & ? & ? & ?); [by exists g|]. exists f. auto.
    + destruct (proj1 Hr) as (f & ? & ? & ?); [by exists g|]. exists f. auto.
  - intros (f & [Hf|Hf] & Ha & Hv); [left|right].
    + destruct (proj2 Hd) as (g & ? & <- & <-); [by exists f|]. by exists g.
    + destruct (proj2 Hr) as (g & ? & <- & <-); [by exists f|]. by exists g.
Qed.

Lemma of_src_const {A} (s s' : Src) (f : A -> SourceRow) l : (forall x, src (f x) = s') ->
  of_src s (map f l) = if decide (s' = s) then map f l else [].
Proof.
  intros Hs. unfold of_src. rewrite filter_map_eq. case_decide as Heq.
  - rewrite filter_all; [done|]. apply Forall_forall. intros x _. by rewrite Hs.
  - rewrite filter_none; [done|]. apply Forall_forall. intros x _. by rewrite Hs.
Qed.

Lemma of_src_app s a b : of_src s (a ++ b) = of_src s a ++ of_src s b.
Proof. apply filter_app. Qed.

Lemma source_rows_of s a d t : of_src s (source_rows a d t) =
  match s with
  | AtomSrc => map (fun _ => {| src := AtomSrc; vol := None; src_vault_key := None |})
      (filter (fun r => creator_of_atom r = a) (atoms_on d t))
  | TripleSrc => map (fun _ => {| src := TripleSrc; vol := None; src_vault_key := None |})
      (filter (fun r => creator_of_triple r = a) (triples_on d t))
  | DepositSrc => map (fun f => {| src := DepositSrc; vol := Some (flow_volume f); src_vault_key := Some (vault_key f) |})
      (filter (fun f => flow_account f = a) (map deposit_flow (deposits_on d t)))
  | RedeemSrc => map (fun f => {| src := RedeemSrc; vol := Some (flow_volume f); src_vault_key := Some (vault_key f) |})
      (filter (fun f => flow_account f = a) (map redemption_flow (redemptions_on d t)))
  end.
Proof.
  unfold source_rows. rewrite !of_src_app.
  rewrite (of_src_const s AtomSrc) by done. rewrite (of_src_const s TripleSrc) by done.
  rewrite (of_src_const s DepositSrc) by done. rewrite (of_src_const s RedeemSrc) by done.
  destruct s; repeat (case_decide; try done); rewrite ?app_nil_r; done.
Qed.

Lemma count_map {A B} (f : A -> B) l : count (map f l) = count l.
Proof. unfold count. by rewrite length_map. Qed.

Lemma omap_none {A B} (f : A -> option B) l : (forall x, f x = None) -> omap f l = [].
Proof. intros Hf. induction l as [|x l IH]; [done|]. unfold omap in *. cbn. by rewrite Hf. Qed.

Lemma omap_map {A B C} (f : B -> option C) (g : A -> B) l : omap f (map g l) = omap (fun x => f (g x)) l.
Proof. induction l as [|x l IH]; [done|]. unfold omap in *. cbn. by rewrite IH. Qed.

Lemma source_keys a d t v : v ∈ omap src_vault_key (source_rows a d t) <->
  exists f, (f ∈ map deposit_flow (deposits_on d t) \/ f ∈ map redemption_flow (redemptions_on d t)) /\
    flow_account f = a /\ vault_key f = v.
Proof.
  unfold source_rows. rewrite !omap_app, !omap_map, !(omap_none (fun _ => _)) by done. cbn [app src_vault_key].
  rewrite elem_of_app, !list_elem_of_omap. split.
  - intros [(f & [Ha Hf]%list_elem_of_filter & [= Hv])|(f & [Ha Hf]%list_elem_of_filter & [= Hv])]; exists f; auto.
  - intros (f & [Hf|Hf] & Ha & Hv); [left|right]; exists f; rewrite list_elem_of_filter, Hv; auto.
Qed.

(** One row of the backfill's answer is the incremental query's row. *)
Lemma rollup_agrees a d t :
  let deps := flows_by_vault (map deposit_flow (deposits_on d t)) in
  let reds := flows_by_vault (map redemption_flow (redemptions_on d t)) in
  {| account_id := a; day := midnight d;
     atoms_created := default 0 (joined a (creations (map creator_of_atom (atoms_on d t))));
     triples_created := default 0 (joined a (creations (map creator_of_triple (triples_on d t))));
     deposits_count := default 0 (fst <$> joined a (flows_agg deps));
     redemptions_count := default 0 (fst <$> joined a (flows_agg reds));
     deposit_volume := default 0 (snd <$> joined a (flows_agg deps));
     redemption_volume := default 0 (snd <$> joined a (flows_agg reds));
     unique_vaults := default 0 (joined a (unique_vault_counts (vault_union deps reds)));
     net_flow := default 0 (snd <$> joined a (flows_agg deps)) - default 0 (snd <$> joined a (flows_agg reds)) |} =
  today_rollup a d t.
Proof.
  cbv zeta. unfold today_rollup, volume_of, creations. rewrite !agg_count, !agg_volume, !source_rows_of, !count_map, !sum_map.
  rewrite !(joined_default 0 (fun c => c) count) by done. rewrite !filter_map_eq, !count_map. cbn. f_equal.
  unfold unique_vault_counts. rewrite (joined_default 0 fst (fun u => count (remove_dups (map snd u)))) by done.
  apply count_same; [apply NoDup_remove_dups..|]. intros v. rewrite !elem_of_remove_dups. split.
  - intros Hv. apply list_elem_of_fmap in Hv as ([a' v'] & -> & [Ha Hin]%list_elem_of_filter). cbn in Ha. subst a'.
    by apply source_keys, union_keys.
  - intros Hv%source_keys. apply list_elem_of_fmap. exists (a, v). split; [done|]. apply list_elem_of_filter.
    split; [done|]. by apply union_keys.
Qed.

Lemma filter_some {A} (P : A -> Prop) `{!forall x, Decision (P x)} l : filter P l <> [] <-> exists x, x ∈ l /\ P x.
Proof.
  split.
  - intros Hne. destruct (filter P l) as [|x k] eqn:E; [done|]. exists x.
    assert (Hx : x ∈ x :: k) by left. rewrite <- E in Hx. by apply list_elem_of_filter in Hx as [? ?].
  - intros (x & Hx & Hp) Hnil. assert (Hin : x ∈ filter P l) by by apply list_elem_of_filter.
    rewrite Hnil in Hin. by apply not_elem_of_nil in Hin.
Qed.

Lemma app_some {A} (l k : list A) : l ++ k <> [] <-> l <> [] \/ k <> [].
Proof. destruct l; [split; [by right|by intros [?|?]]|split; [by left|done]]. Qed.

Lemma map_some {A B} (f : A -> B) l : map f l <> [] <-> l <> [].
Proof. by destruct l. Qed.

Lemma keyed_some {A} (key : A -> string) l a : (exists x, x ∈ l /\ key x = a) <-> a ∈ map key l.
Proof. rewrite list_elem_of_fmap. split; [intros (x & ? & <-)|intros (x & -> & ?)]; by exists x. Qed.

(** An account has rows when it created something or moved assets. *)
Lemma source_rows_some a d t : source_rows a d t <> [] <->
  a ∈ map creator_of_atom (atoms_on d t) \/ a ∈ map creator_of_triple (triples_on d t) \/
  (exists f, f ∈ map deposit_flow (deposits_on d t) /\ flow_account f = a) \/
  (exists f, f ∈ map redemption_flow (redemptions_on d t) /\ flow_account f = a).
Proof. unfold source_rows. by rewrite !app_some, !map_some, !filter_some, !keyed_some. Qed.

(** One row for each account. *)
Lemma rollups_nodup d t : NoDup (map account_id (aggregate_day d t)).
Proof. unfold aggregate_day. rewrite map_map. cbn. rewrite map_id. apply NoDup_remove_dups. Qed.

(** ** Properties *)

(** C33 (the two rollup queries agree). On any day and any event tables, the backfill's query
    answers one row for each account with a row on that day and no other, and it is the
    row the incremental cycle's query computes for that account: the grouping by vault,
    the joins and the counting of distinct vaults change nothing. *)
Theorem daily_rollups_agree (d : NaiveDate) (t : IngestTables) :
  NoDup (map account_id (aggregate_day d t)) /\
  (forall r, r ∈ aggregate_day d t -> r = today_rollup (account_id r) d t) /\
  (forall a, a ∈ map account_id (aggregate_day d t) <-> source_rows a d t <> []).
Proof.
  split; [apply rollups_nodup|]. unfold aggregate_day. rewrite map_map. cbn. rewrite map_id. split.
  - intros r (a & -> & _)%list_elem_of_fmap. exact (rollup_agrees a d t).
  - intros a. rewrite elem_of_remove_dups, !elem_of_app.
    assert (Hc : forall l : list string, a ∈ map fst (creations l) <-> a ∈ l).
    { intros l. unfold creations, group_by. rewrite !map_map. cbn. rewrite !map_id. apply elem_of_remove_dups. }
    assert (Hf : forall flows, a ∈ map fst (flows_agg (flows_by_vault flows)) <-> exists f, f ∈ flows /\ flow_account f = a).
    { intros flows. unfold flows_agg, group_by. rewrite !map_map. cbn. rewrite map_id, elem_of_remove_dups, list_elem_of_fmap. split.
      - intros (g & -> & Hg). destruct (proj1 (group_keys flows (g_account g) (g_vault_key g))) as (f & ? & ? & _); [by exists g|].
        by exists f.
      - intros (f & Hf & Ha). destruct (proj2 (group_keys flows a (vault_key f))) as (g & ? & <- & _); [by exists f|]. by exists g. }
    by rewrite !Hc, !Hf, source_rows_some.
Qed.
