(* ===== verification/UserActivity.v ===== *)
(** * Activity profiles

    [crates/projections/src/repo/user_activity_repo.rs] and
    [src/projection/timescaledb/user_activity_batch.rs]: the checkpoint metadata of the
    projection, the backfill of the daily rollups, day by day and resumable, and the
    refresh of the profiles of the accounts the activity marker marked. How [chrono]
    prints and reads dates is a parameter. The other phases of the incremental cycle are
    in [UserSegments.v], [TopicAffinity.v] and [RetentionCohorts.v], and the cycle itself
    in [ActivityCycle.v]. *)

From stdpp Require Import pretty.
From S2P Require Import Prelude Text Events Errors PgTx TxCode PgCommon DemoWorld DemoDatabase Ingestion ActivityDaily LeaderboardRefresh.

Class DateText := {
  date_format : NaiveDate -> string;
  date_parse : string -> option NaiveDate;
  date_parse_format d : date_parse (date_format d) = Some d;
  rfc3339 : DateTime -> string;
  parse_from_rfc3339 : string -> option DateTime;
  rfc3339_parse ts : parse_from_rfc3339 (rfc3339 ts) = Some ts;
  NAIVE_DATE_MAX : NaiveDate
}.

(** ** The tables *)

Record Window := {
  w_atoms_created : Z; w_triples_created : Z; w_deposits : Z; w_redemptions : Z;
  w_deposit_volume : Z; w_redemption_volume : Z
}.

(** The ratio is a [float8]: its numerator and denominator, [NULL] without activity. *)
Record Figures := {
  days_7 : Window; days_30 : Window; days_90 : Window;
  atoms_all_time : Z; triples_all_time : Z;
  creator_trader_ratio : option (Z * Z);
  unique_vaults_touched : Z
}.
Record Profile := { pf_figures : Figures; last_recomputed_at : DateTime }.

(** A JSON object is the map of its fields; the row of [batch_projection_checkpoints] may
    be missing, and its [metadata] [NULL]. *)
Record ActivityTables := {
  sources : IngestTables;
  dirty_account_activity : gmap string string;
  user_activity_daily : gmap (string * DateTime) DailyRollup;
  user_activity_profile : gmap string Profile;
  checkpoint : option (option (gmap string Value))
}.

Definition with_daily (m : gmap (string * DateTime) DailyRollup) (t : ActivityTables) : ActivityTables := {|
  sources := sources t; dirty_account_activity := dirty_account_activity t; user_activity_daily := m;
  user_activity_profile := user_activity_profile t; checkpoint := checkpoint t |}.
Definition with_profiles (m : gmap string Profile) (t : ActivityTables) : ActivityTables := {|
  sources := sources t; dirty_account_activity := dirty_account_activity t; user_activity_daily := user_activity_daily t;
  user_activity_profile := m; checkpoint := checkpoint t |}.
Definition with_dirty (m : gmap string string) (t : ActivityTables) : ActivityTables := {|
  sources := sources t; dirty_account_activity := m; user_activity_daily := user_activity_daily t;
  user_activity_profile := user_activity_profile t; checkpoint := checkpoint t |}.
Definition with_checkpoint (c : option (option (gmap string Value))) (t : ActivityTables) : ActivityTables := {|
  sources := sources t; dirty_account_activity := dirty_account_activity t; user_activity_daily := user_activity_daily t;
  user_activity_profile := user_activity_profile t; checkpoint := c |}.

(** ** Checkpoint metadata *)

Section Checkpoint.
Context `{DateText}.

Definition fetch_checkpoint_metadata (t : ActivityTables) : option (gmap string Value) :=
  match checkpoint t with Some (Some meta) => Some meta | _ => None end.

(** [COALESCE(metadata, '{}') || EXCLUDED.metadata] *)
Definition merge_checkpoint_metadata (patch : gmap string Value) (t : ActivityTables) : ActivityTables :=
  with_checkpoint (Some (Some (match checkpoint t with
                               | None => patch
                               | Some meta => patch ∪ default ∅ meta
                               end))) t.

Definition as_bool (v : Value) : option bool := match v with Bool b => Some b | _ => None end.
Definition as_str (v : Value) : option string := match v with VString s => Some s | _ => None end.

Definition date_field (key : string) (t : ActivityTables) : option NaiveDate :=
  meta ← fetch_checkpoint_metadata t; v ← meta !! key; s ← as_str v; date_parse s.
Definition time_field (key : string) (t : ActivityTables) : option DateTime :=
  meta ← fetch_checkpoint_metadata t; v ← meta !! key; s ← as_str v; parse_from_rfc3339 s.

Definition get_backfill_state (t : ActivityTables) : bool * option NaiveDate :=
  (default false (meta ← fetch_checkpoint_metadata t; v ← meta !! "backfill_complete"; as_bool v),
   date_field "last_backfill_day" t).
Definition save_backfill_state (complete : bool) (last_day : option NaiveDate) : ActivityTables -> ActivityTables :=
  let meta : gmap string Value := {["backfill_complete" := Bool complete]} in
  merge_checkpoint_metadata
    match last_day with
    | Some day => <["last_backfill_day" := VString (date_format day)]> meta
    | None => meta
    end.

Definition get_last_rfm_sweep_date (t : ActivityTables) : option NaiveDate := date_field "last_rfm_sweep_date" t.
Definition save_rfm_sweep_date (date : NaiveDate) : ActivityTables -> ActivityTables :=
  merge_checkpoint_metadata {["last_rfm_sweep_date" := VString (date_format date)]}.

Definition get_topic_affinity_checkpoint (t : ActivityTables) : option DateTime := time_field "topic_affinity_last_ts" t.
Definition save_topic_affinity_checkpoint (last_ts : DateTime) : ActivityTables -> ActivityTables :=
  merge_checkpoint_metadata {["topic_affinity_last_ts" := VString (rfc3339 last_ts)]}.

(** The date of a full recompute and the time it got to, in one patch. *)
Definition save_affinity_recompute (today : NaiveDate) (max_ts : option DateTime) : ActivityTables -> ActivityTables :=
  let patch : gmap string Value := {["topic_affinity_last_full_recompute_date" := VString (date_format today)]} in
  merge_checkpoint_metadata
    match max_ts with
    | Some ts => <["topic_affinity_last_ts" := VString (rfc3339 ts)]> patch
    | None => patch
    end.

(** [None] of the date means that it was never run. *)
Definition should_run_daily_affinity_recompute (today : NaiveDate) (t : ActivityTables) : bool :=
  match date_field "topic_affinity_last_full_recompute_date" t with
  | None => true
  | Some d => d <? today
  end.

Definition should_run_weekly_cohorts (now : DateTime) (t : ActivityTables) : bool :=
  match time_field "last_cohort_run_at" t with
  | None => true
  | Some last_run => 7 * DAY <=? now - last_run
  end.
Definition save_last_cohort_run (now : DateTime) : ActivityTables -> ActivityTables :=
  merge_checkpoint_metadata {["last_cohort_run_at" := VString (rfc3339 now)]}.
End Checkpoint.

(** ** Statements *)

Definition upsert_daily_rollup (rollup : DailyRollup) (t : ActivityTables) : ActivityTables :=
  with_daily (<[(account_id rollup, day rollup) := rollup]> (user_activity_daily t)) t.

Definition upsert_today_rollup (now : DateTime) (a : string) (t : ActivityTables) : ActivityTables :=
  upsert_daily_rollup (today_rollup a (date_of now) (sources t)) t.

(** [day >= DATE_TRUNC('day', NOW()) - INTERVAL 'n days'], over one account's rollups. *)
Definition account_days (a : string) (t : ActivityTables) : list DailyRollup :=
  map snd (map_to_list (filter (fun kv => fst (fst kv) = a) (user_activity_daily t))).
Definition window (n : Z) (today : NaiveDate) (rollups : list DailyRollup) : Window :=
  let within := filter (fun r => midnight today - n * DAY <= day r) rollups in {|
  w_atoms_created := sum atoms_created within; w_triples_created := sum triples_created within;
  w_deposits := sum deposits_count within; w_redemptions := sum redemptions_count within;
  w_deposit_volume := sum deposit_volume within; w_redemption_volume := sum redemption_volume within |}.

Definition all_rows {R K} `{TypedTable R K} (t : IngestTables) : list R := map (fun kv => snd (snd kv)) (map_to_list (table t)).

Definition figures (a : string) (today : NaiveDate) (t : ActivityTables) : Figures :=
  let rollups := account_days a t in
  let w := window 30 today rollups in
  let created := w_atoms_created w + w_triples_created w in
  let total := w_deposits w + w_redemptions w + created in {|
  days_7 := window 7 today rollups; days_30 := w; days_90 := window 90 today rollups;
  atoms_all_time := count (filter (fun r => creator_of_atom r = a) (all_rows (R := AtomCreatedTyped) (sources t)));
  triples_all_time := count (filter (fun r => creator_of_triple r = a) (all_rows (R := TripleCreatedTyped) (sources t)));
  creator_trader_ratio := if decide (total = 0) then None else Some (created, total);
  unique_vaults_touched := sum unique_vaults rollups |}.

Definition upsert_activity_profile (now : DateTime) (a : string) (t : ActivityTables) : ActivityTables :=
  with_profiles (<[a := {| pf_figures := figures a (date_of now) t; last_recomputed_at := now |}]> (user_activity_profile t)) t.

(** [MIN] over the four tables, [NULL] when all are empty. *)
Definition event_dates (t : IngestTables) : list NaiveDate :=
  map (fun r => date_of (block_timestamp (envelope r))) (all_rows (R := AtomCreatedTyped) t) ++
  map (fun r => date_of (block_timestamp (envelope r))) (all_rows (R := TripleCreatedTyped) t) ++
  map (fun r => date_of (block_timestamp (envelope r))) (all_rows (R := DepositedTyped) t) ++
  map (fun r => date_of (block_timestamp (envelope r))) (all_rows (R := RedeemedTyped) t).
Definition first_event_day (t : ActivityTables) : option NaiveDate :=
  match event_dates (sources t) with
  | [] => None
  | d :: ds => Some (foldr Z.min d ds)
  end.

(** ** The cycles *)

Definition PROFILE_BATCH_SIZE : nat := 100.

Section Cycles.
Context `{DateText} {W : Type} `{Clock W} `{ReadPool ActivityTables W} `{HashOrder}.

(** A query or a statement straight on the pool is a transaction of its own. *)
Definition pool_query {A} (q : ActivityTables -> A) (w : W) : outcome A * W :=
  let '(r, w) := fetch q (fun t => t) w in (match r with Ok a => Done a | Err e => Failed e end, w).
Definition pool_execute (f : ActivityTables -> ActivityTables) (w : W) : outcome unit * W :=
  let '(r, w) := commit_tx f w in (match r with Ok _ => Done tt | Err e => Failed e end, w).

(** [a.await?; b.await?] of such code. *)
Definition and_then {A B} (m : W -> outcome A * W) (k : A -> W -> outcome B * W) (w : W) : outcome B * W :=
  let '(o, w) := m w in
  match o with
  | Done a => k a w
  | Failed e => (Failed e, w)
  | Panicked => (Panicked, w)
  end.

Definition succ_opt (d : NaiveDate) : option NaiveDate := if d <? NAIVE_DATE_MAX then Some (d + 1) else None.

Definition write_rollups (rollups : list DailyRollup) (w : W) : outcome unit * W :=
  match rollups with
  | [] => (Done tt, w)
  | _ => in_transaction (for_each (fun r => run_statement (upsert_daily_rollup r)) rollups) w
  end.

Definition backfill_day (current_day : NaiveDate) : W -> outcome unit * W :=
  and_then (pool_query (fun t => aggregate_day current_day (sources t))) (fun rollups =>
  and_then (write_rollups rollups) (fun _ => pool_execute (save_backfill_state false (Some current_day)))).

(** [while current_day <= today]; the fuel is the number of days left. *)
Fixpoint backfill_loop (fuel : nat) (current_day today : NaiveDate) (w : W) : outcome unit * W :=
  if current_day <=? today then
    match fuel with
    | O => (Panicked, w)
    | S fuel =>
        and_then (backfill_day current_day) (fun _ w =>
          match succ_opt current_day with
          | Some next => backfill_loop fuel next today w
          | None => (Done tt, w)
          end) w
    end
  else (Done tt, w).

Definition backfill_from (start_day : NaiveDate) (w : W) : outcome unit * W :=
  let '(now, w) := utc_now w in
  let today := date_of now in
  and_then (backfill_loop (Z.to_nat (today - start_day + 1)) start_day today) (fun _ =>
    pool_execute (save_backfill_state true (Some today))) w.

Definition backfill_cycle (last_completed_day : option NaiveDate) : W -> outcome unit * W :=
  and_then (pool_query first_event_day) (fun first_event_day =>
    match first_event_day with
    | None => pool_execute (save_backfill_state true None)
    | Some first_day =>
        match last_completed_day with
        | None => backfill_from first_day
        | Some d =>
            match succ_opt d with
            | Some next => backfill_from next
            | None => pool_execute (save_backfill_state true (Some d))
            end
        end
    end).

(** Phases 1 and 2 of the incremental cycle. *)
Definition drain_activity : tx_code ActivityTables W (list string) :=
  run_returning (fun t => map fst (map_to_list (dirty_account_activity t))) (with_dirty ∅).

(** [NOW()] is the same in all statements of a transaction. *)
Definition refresh_chunk (chunk : list string) : tx_code ActivityTables W unit :=
  bind look_at_clock (fun now =>
    for_each (fun a => bind (run_statement (upsert_today_rollup now a)) (fun _ => run_statement (upsert_activity_profile now a))) chunk).

Fixpoint profile_chunks (chunked : list (list string)) (w : W) : outcome unit * W :=
  match chunked with
  | [] => (Done tt, w)
  | chunk :: chunked => and_then (in_transaction (refresh_chunk chunk)) (fun _ => profile_chunks chunked) w
  end.

(** It returns the accounts of the marks, once each. *)
Definition refresh_profiles : W -> outcome (list string) * W :=
  and_then (in_transaction drain_activity) (fun dirty =>
    let account_ids := set_iter (list_to_set dirty) in
    and_then (profile_chunks (chunks PROFILE_BATCH_SIZE account_ids)) (fun _ w => (Done account_ids, w))).
End Cycles.

(** ** Lemmas on the checkpoint *)

(** Looks up the keys of a patch. *)
Ltac field_lookups :=
  repeat first [rewrite lookup_insert_eq | rewrite lookup_singleton_eq
               | rewrite lookup_insert_ne by done | rewrite lookup_singleton_ne by done].

Section Metadata.
Context `{DateText}.

(** Everything that is read from the metadata. *)
Record Metadata := {
  m_backfill : bool * option NaiveDate; m_rfm : option NaiveDate; m_affinity : option DateTime;
  m_recompute : option NaiveDate; m_cohorts : option DateTime
}.
Definition observe (t : ActivityTables) : Metadata := {|
  m_backfill := get_backfill_state t; m_rfm := get_last_rfm_sweep_date t; m_affinity := get_topic_affinity_checkpoint t;
  m_recompute := date_field "topic_affinity_last_full_recompute_date" t; m_cohorts := time_field "last_cohort_run_at" t |}.

Lemma merged_fetch patch t : exists meta, fetch_checkpoint_metadata (merge_checkpoint_metadata patch t) = Some meta /\
  forall k, meta !! k = match patch !! k with
                        | Some v => Some v
                        | None => old ← fetch_checkpoint_metadata t; old !! k
                        end.
Proof.
  unfold fetch_checkpoint_metadata, merge_checkpoint_metadata. cbn.
  destruct (checkpoint t) as [[old|]|]; cbn; (eexists; split; [done|]); intros k; [rewrite lookup_union|rewrite (right_id_L ∅ _ patch)|];
    destruct (patch !! k); try done; by destruct (old !! k).
Qed.

Lemma merged_date patch t key : date_field key (merge_checkpoint_metadata patch t) =
  match patch !! key with Some v => s ← as_str v; date_parse s | None => date_field key t end.
Proof.
  unfold date_field. destruct (merged_fetch patch t) as (meta & -> & Hm). cbn. rewrite Hm.
  destruct (patch !! key); [done|]. by destruct (fetch_checkpoint_metadata t).
Qed.

Lemma merged_time patch t key : time_field key (merge_checkpoint_metadata patch t) =
  match patch !! key with Some v => s ← as_str v; parse_from_rfc3339 s | None => time_field key t end.
Proof.
  unfold time_field. destruct (merged_fetch patch t) as (meta & -> & Hm). cbn. rewrite Hm.
  destruct (patch !! key); [done|]. by destruct (fetch_checkpoint_metadata t).
Qed.

Lemma merged_backfill patch t : get_backfill_state (merge_checkpoint_metadata patch t) =
  (match patch !! "backfill_complete" with Some v => default false (as_bool v) | None => fst (get_backfill_state t) end,
   match patch !! "last_backfill_day" with Some v => s ← as_str v; date_parse s | None => snd (get_backfill_state t) end).
Proof.
  unfold get_backfill_state. rewrite merged_date. destruct (merged_fetch patch t) as (meta & -> & Hm). cbn. rewrite Hm.
  destruct (patch !! "backfill_complete"); cbn; [done|]. by destruct (fetch_checkpoint_metadata t).
Qed.

Lemma saved_backfill complete last t : get_backfill_state (save_backfill_state complete last t) =
  (complete, match last with Some d => Some d | None => snd (get_backfill_state t) end).
Proof.
  unfold save_backfill_state. rewrite merged_backfill. destruct last as [d|]; field_lookups; cbn; by rewrite ?date_parse_format.
Qed.
End Metadata.

(** ** What the backfill does *)

Section Backfill.
Context `{DateText} {W : Type} `{Clock W} `{ReadPool ActivityTables W} `{HashOrder} (tables : W -> ActivityTables).
Context (L : ReadLaws tables) (Hclock : clock_apart tables).

(** The rollups of the day are in the table. *)
Definition aggregated (d : NaiveDate) (t : ActivityTables) : Prop :=
  forall r, r ∈ aggregate_day d (sources t) -> user_activity_daily t !! (account_id r, day r) = Some r.

(** The checkpoint is not ahead of the rollups. *)
Definition backfilled (t : ActivityTables) : Prop :=
  forall last first, snd (get_backfill_state t) = Some last -> first_event_day t = Some first ->
  forall d, first <= d <= last -> aggregated d t.

Definition up_to (first current : NaiveDate) (t : ActivityTables) : Prop := forall d, first <= d < current -> aggregated d t.

Lemma pool_query_spec {A} (q : ActivityTables -> A) w :
  let '(o, w') := pool_query q w in
  tables w' = tables w /\ match o with Done a => a = q (tables w) | Failed _ => True | Panicked => False end.
Proof.
  unfold pool_query. pose proof (read_fetch _ L q (fun t => t) w) as Hs. pose proof (read_answer _ L q (fun t => t) w) as Ha.
  destruct (fetch q (fun t => t) w) as [[a|e] w1]; cbn in *; [|done]. split; [done|]. by apply Ha.
Qed.

Lemma pool_execute_spec f w :
  let '(o, w') := pool_execute f w in
  match o with Done _ => tables w' = f (tables w) | Failed _ => tables w' = tables w \/ tables w' = f (tables w) | Panicked => False end.
Proof.
  unfold pool_execute. destruct (commit_tx f w) as [r w1] eqn:Hc. pose proof (tx_commit _ (read_laws _ L) _ _ _ _ Hc) as Hk.
  destruct r as [[]|e]; [by destruct Hk as [?|[_ ?]]|]. destruct Hk as [?|[? _]]; auto.
Qed.

Lemma day_of_rollup d s r : r ∈ aggregate_day d s -> day r = midnight d.
Proof. unfold aggregate_day. by intros (a & -> & _)%list_elem_of_fmap. Qed.

Lemma midnight_inj d d' : midnight d = midnight d' -> d = d'.
Proof. unfold midnight, DAY. lia. Qed.

(** Writing the rollups of a day. *)
Record day_written (d : NaiveDate) (t t' : ActivityTables) : Prop := {
  dw_sources : sources t' = sources t;
  dw_checkpoint : checkpoint t' = checkpoint t;
  dw_day : aggregated d t';
  dw_others a d' : d' <> d -> user_activity_daily t' !! (a, midnight d') = user_activity_daily t !! (a, midnight d')
}.

Lemma fold_rollups rollups t :
  NoDup (map account_id rollups) ->
  let t' := fold_left (fun t r => upsert_daily_rollup r t) rollups t in
  sources t' = sources t /\ checkpoint t' = checkpoint t /\
  (forall r, r ∈ rollups -> (forall r', r' ∈ rollups -> day r' = day r) -> user_activity_daily t' !! (account_id r, day r) = Some r) /\
  (forall a ts, (forall r, r ∈ rollups -> (account_id r, day r) <> (a, ts)) -> user_activity_daily t' !! (a, ts) = user_activity_daily t !! (a, ts)).
Proof.
  revert t. induction rollups as [|r rollups IH]; intros t Hnd; cbn [fold_left].
  { split_and!; try done. by intros r ?%not_elem_of_nil. }
  cbn in Hnd. apply NoDup_cons in Hnd as [Hni Hnd]. destruct (IH (upsert_daily_rollup r t) Hnd) as (Hf1 & Hf2 & Hf3 & Hf4).
  split; [done|]. split; [done|]. split.
  - intros x Hx Hdays. apply elem_of_cons in Hx as [->|Hx].
    + rewrite Hf4; [cbn; by rewrite lookup_insert_eq|]. intros y Hy [= Ha _]. destruct Hni. rewrite <- Ha. apply list_elem_of_fmap. by exists y.
    + apply Hf3; [done|]. intros y Hy. apply Hdays. by right.
  - intros a ts Hne. rewrite Hf4 by (intros y Hy; apply Hne; by right). cbn. rewrite lookup_insert_ne; [done|]. apply Hne. by left.
Qed.

Lemma rollups_day_written d t : day_written d t (fold_left (fun t r => upsert_daily_rollup r t) (aggregate_day d (sources t)) t).
Proof.
  destruct (fold_rollups (aggregate_day d (sources t)) t (rollups_nodup d (sources t))) as (Hf1 & Hf2 & Hf3 & Hf4).
  split; [done|done| |].
  - intros r. rewrite Hf1. intros Hr. apply Hf3; [done|]. intros r' Hr'. by rewrite (day_of_rollup d _ r Hr), (day_of_rollup d _ r' Hr').
  - intros a d' Hne. apply Hf4. intros r Hr [= _ Hd]. rewrite (day_of_rollup d _ r Hr) in Hd. by apply midnight_inj in Hd.
Qed.

Lemma write_rollups_spec d w :
  let '(o, w') := write_rollups (aggregate_day d (sources (tables w))) w in
  match o with
  | Done _ => day_written d (tables w) (tables w')
  | Failed _ => tables w' = tables w \/ day_written d (tables w) (tables w')
  | Panicked => False
  end.
Proof.
  unfold write_rollups. pose proof (rollups_day_written d (tables w)) as Hd.
  destruct (aggregate_day d (sources (tables w))) as [|r rs]; [done|].
  pose proof (in_transaction_outcome tables L _ _ w (yields_each tables L (fun r => upsert_daily_rollup r) (r :: rs))) as Ho.
  destruct (in_transaction _ w) as [[u|e|] w1].
  - injection Ho as _ Ht. rewrite <- Ht. exact Hd.
  - destruct Ho as [?|[u [= _ Ht]]]; [by left|right]. rewrite <- Ht. exact Hd.
  - by destruct Ho.
Qed.

(** What holds while the days from [first] are written in order, [current] being next. *)
Record days_done (s : IngestTables) (first current : NaiveDate) (t : ActivityTables) : Prop := {
  dd_sources : sources t = s;
  dd_days : up_to first current t;
  dd_saved last : snd (get_backfill_state t) = Some last -> last < current
}.

Lemma aggregated_elsewhere d d' t t' : day_written d t t' -> aggregated d' t -> aggregated d' t'.
Proof.
  intros Hw Ha. destruct (decide (d' = d)) as [->|Hne]; [apply Hw|]. intros r Hr. rewrite (dw_sources _ _ _ Hw) in Hr.
  specialize (Ha r Hr). rewrite (day_of_rollup _ _ _ Hr) in *. by rewrite (dw_others _ _ _ Hw).
Qed.

Lemma checkpoint_same t t' : checkpoint t' = checkpoint t -> get_backfill_state t' = get_backfill_state t.
Proof. unfold get_backfill_state, date_field, fetch_checkpoint_metadata. by intros ->. Qed.

Lemma written_keeps s first current d t t' : day_written d t t' -> days_done s first current t -> days_done s first current t'.
Proof.
  intros Hw [Hs Hd Hl]. split; [by rewrite (dw_sources _ _ _ Hw)| |].
  - intros d' Hd'. apply (aggregated_elsewhere _ _ _ _ Hw). by apply Hd.
  - by rewrite (checkpoint_same _ _ (dw_checkpoint _ _ _ Hw)).
Qed.

Lemma written_next s first current t : days_done s first current t -> aggregated current t -> days_done s first (current + 1) t.
Proof.
  intros [Hs Hd Hl] Ha. split; [done| |].
  - intros d Hr. destruct (decide (d = current)) as [->|]; [done|]. apply Hd. lia.
  - intros last Hlast. specialize (Hl last Hlast). lia.
Qed.

Lemma save_keeps s first current complete last t :
  match last with Some d => d < current | None => True end ->
  days_done s first current t -> days_done s first current (save_backfill_state complete last t).
Proof.
  intros Hlt [Hs Hd Hl]. split; [done|exact Hd|]. rewrite saved_backfill. destruct last as [d|]; [|done]. by intros last [= ->].
Qed.

(** Steps that leave the days to [current] done, or, if they fail, those to some day. *)
Definition leaves s first (current : NaiveDate -> Prop) (o : outcome unit) (w : W) : Prop :=
  match o with
  | Done _ => exists c, current c /\ days_done s first c (tables w)
  | Failed _ => exists c, days_done s first c (tables w)
  | Panicked => False
  end.

Lemma pool_save_leaves s first (P : NaiveDate -> Prop) current complete last w :
  P current -> match last with Some d => d < current | None => True end ->
  days_done s first current (tables w) ->
  let '(o, w') := pool_execute (save_backfill_state complete last) w in leaves s first P o w'.
Proof.
  intros HP Hlt Hd. pose proof (save_keeps s first current complete last _ Hlt Hd) as Hk.
  pose proof (pool_execute_spec (save_backfill_state complete last) w) as Hp. destruct (pool_execute _ w) as [[u|e|] w1]; cbn; [| |done].
  - exists current. by rewrite Hp.
  - exists current. by destruct Hp as [->| ->].
Qed.

Lemma backfill_day_leaves s first current w :
  days_done s first current (tables w) ->
  let '(o, w') := backfill_day current w in leaves s first (fun c => c = current + 1) o w'.
Proof.
  intros Hd. unfold backfill_day, and_then at 1.
  pose proof (pool_query_spec (fun t => aggregate_day current (sources t)) w) as Hq.
  destruct (pool_query _ w) as [[rollups|e|] w1]; destruct Hq as [Ht Hr]; [|by exists current; rewrite Ht|done].
  rewrite Hr, <- Ht. unfold and_then. pose proof (write_rollups_spec current w1) as Hw.
  rewrite <- Ht in Hd. destruct (write_rollups _ w1) as [[u|e|] w2]; [| |done].
  - apply (pool_save_leaves _ _ _ (current + 1)); [done|lia|].
    apply written_next; [by apply (written_keeps _ _ _ _ _ _ Hw)|apply Hw].
  - exists current. destruct Hw as [->|Hw]; [done|]. by apply (written_keeps _ _ _ _ _ _ Hw).
Qed.

Lemma backfill_loop_leaves s first fuel current today w :
  today <= NAIVE_DATE_MAX -> (Z.to_nat (today - current + 1) <= fuel)%nat -> days_done s first current (tables w) ->
  let '(o, w') := backfill_loop fuel current today w in leaves s first (fun c => today < c) o w'.
Proof.
  intros Hmax. revert current w. induction fuel as [|fuel IH]; intros current w Hf Hd; cbn [backfill_loop];
    destruct (current <=? today) eqn:Hle; try lia; try (by exists current; split; [lia|]).
  unfold and_then. pose proof (backfill_day_leaves s first current w Hd) as Hday.
  destruct (backfill_day current w) as [[u|e|] w1]; [|done..]. destruct Hday as (c & -> & Hc). unfold succ_opt.
  destruct (current <? NAIVE_DATE_MAX) eqn:Hlt; [apply IH; [lia|done]|]. exists (current + 1). split; [lia|done].
Qed.

Definition with_first (t : ActivityTables) (P : NaiveDate -> Prop) : Prop :=
  forall first, first_event_day t = Some first -> P first.

Lemma days_done_backfilled s first current t :
  days_done s first current t -> with_first t (fun f => f = first) -> backfilled t.
Proof.
  intros [Hs Hd Hl] Hfirst last f Hlast Hf d Hr. rewrite (Hfirst f Hf) in Hr. apply Hd. specialize (Hl last Hlast). lia.
Qed.

(** Where the cycle starts. *)
Lemma start_done t first :
  backfilled t -> first_event_day t = Some first ->
  days_done (sources t) first (match snd (get_backfill_state t) with Some d => d + 1 | None => first end) t.
Proof.
  intros Hb Hf. destruct (snd (get_backfill_state t)) as [last|] eqn:Hl; split; try done.
  - intros d Hd. apply (Hb last first); [done..|lia].
  - rewrite Hl. intros l [= ->]. lia.
  - intros d Hd. lia.
  - by rewrite Hl.
Qed.

Lemma backfill_from_leaves s first start w :
  (forall w, date_of (fst (utc_now w)) <= NAIVE_DATE_MAX) ->
  days_done s first start (tables w) ->
  let today := date_of (fst (utc_now w)) in
  let '(o, w') := backfill_from start w in leaves s first (fun c => today < c) o w' /\
    (o = Done tt -> fst (get_backfill_state (tables w')) = true).
Proof.
  intros Hmax Hd. unfold backfill_from. specialize (Hmax w). pose proof (Hclock w) as Ht.
  destruct (utc_now w) as [now w1]. cbn [fst snd] in *. rewrite <- Ht in Hd. unfold and_then.
  pose proof (backfill_loop_leaves s first (Z.to_nat (date_of now - start + 1)) start (date_of now) w1 Hmax (Nat.le_refl _) Hd) as Hl.
  destruct (backfill_loop _ _ _ w1) as [[u|e|] w2]; [|by split|by split]. destruct Hl as (c & Hc & Hdone).
  pose proof (pool_save_leaves s first (fun c => date_of now < c) c true (Some (date_of now)) w2 Hc Hc Hdone) as Hs.
  pose proof (pool_execute_spec (save_backfill_state true (Some (date_of now))) w2) as Hp.
  destruct (pool_execute _ w2) as [[[]|e|] w3]; (split; [done|]); [|done..]. intros _. by rewrite Hp, saved_backfill.
Qed.
Lemma days_done_closed s first c t :
  first_event_day t = Some first -> sources t = s -> days_done s first c t -> backfilled t.
Proof. intros Hf Hs Hd. apply (days_done_backfilled s first c t Hd). intros f. rewrite Hf. by intros [= ->]. Qed.

(** A cycle that started on [now] with the tables [t] and ended with [t']. *)
Definition kept_up (now : NaiveDate) (t : ActivityTables) (o : outcome unit) (t' : ActivityTables) : Prop :=
  sources t' = sources t /\ backfilled t' /\
  match o with
  | Done _ => fst (get_backfill_state t') = true /\
      forall first day, first_event_day t = Some first -> first <= day <= now -> aggregated day t'
  | Failed _ => True
  | Panicked => False
  end.

Lemma leaves_kept_up (now : NaiveDate) t first (P : NaiveDate -> Prop) o w' :
  first_event_day t = Some first -> (forall c, P c -> now < c) -> leaves (sources t) first P o w' ->
  (o = Done tt -> fst (get_backfill_state (tables w')) = true) -> kept_up now t o (tables w').
Proof.
  intros Hf HP Hl Hc.
  assert (Hfirst : forall c, days_done (sources t) first c (tables w') -> backfilled (tables w')).
  { intros c Hd. apply (days_done_closed (sources t) first c); [|apply Hd|done].
    unfold first_event_day in *. by rewrite (dd_sources _ _ _ _ Hd). }
  destruct o as [[]|e|]; [| |done]; cbn in Hl.
  - destruct Hl as (c & HPc & Hd). split; [apply Hd|]. split; [by eapply Hfirst|]. split; [by apply Hc|].
    intros f day. rewrite Hf. intros [= <-] Hr. apply Hd. specialize (HP c HPc). lia.
  - destruct Hl as (c & Hd). split; [apply Hd|]. split; [by eapply Hfirst|done].
Qed.

Lemma backfill_from_kept_up (now : NaiveDate) t w1 first start :
  (forall w, now <= date_of (fst (utc_now w)) <= NAIVE_DATE_MAX) ->
  first_event_day t = Some first -> tables w1 = t -> days_done (sources t) first start t ->
  let '(o, w') := backfill_from start w1 in kept_up now t o (tables w').
Proof.
  intros Hmax Hf <- Hd. pose proof (backfill_from_leaves (sources (tables w1)) first start w1 (fun w => proj2 (Hmax w)) Hd) as Hl.
  destruct (backfill_from start w1) as [o w2]. destruct Hl as [Hl Hc].
  apply (leaves_kept_up now _ first (fun c => date_of (fst (utc_now w1)) < c)); [done| |done|done].
  intros c. specialize (Hmax w1). lia.
Qed.

Lemma backfill_first_kept_up (now : NaiveDate) t w1 first :
  (forall w, now <= date_of (fst (utc_now w)) <= NAIVE_DATE_MAX) -> backfilled t ->
  first_event_day t = Some first -> tables w1 = t ->
  let '(o, w') := match snd (get_backfill_state t) with
                  | None => backfill_from first
                  | Some d => match succ_opt d with
                              | Some next => backfill_from next
                              | None => pool_execute (save_backfill_state true (Some d))
                              end
                  end w1 in
  kept_up now t o (tables w').
Proof.
  intros Hmax Hb Hf Ht. pose proof (start_done _ _ Hb Hf) as Hd.
  destruct (snd (get_backfill_state t)) as [last|]; [|by apply (backfill_from_kept_up now t w1 first)].
  unfold succ_opt. destruct (last <? NAIVE_DATE_MAX) eqn:Hlt; [by apply (backfill_from_kept_up now t w1 first)|].
  subst t. pose proof (pool_save_leaves (sources (tables w1)) first (fun c => last < c) (last + 1) true (Some last) w1) as Hl.
  pose proof (pool_execute_spec (save_backfill_state true (Some last)) w1) as Hx.
  destruct (pool_execute _ w1) as [o w2]. apply (leaves_kept_up now _ first (fun c => last < c)); [done| | |].
  - intros c. specialize (Hmax w1). lia.
  - apply Hl; [lia|lia|done].
  - intros ->. by rewrite Hx, saved_backfill.
Qed.
End Backfill.

(** C34 (the backfill resumes where it stopped). Whatever fails, a backfill cycle never
    panics, leaves the typed events alone, and leaves a checkpoint that is not ahead of
    the daily rollups: every day from the first event to the checkpointed day is
    aggregated. A cycle that succeeds has marked the backfill complete, and every day up
    to the present one is aggregated; it does end, the fuel of its loop being the number
    of days left. *)
Theorem backfill_keeps_up `{DateText} {W} `{Clock W} `{ReadPool ActivityTables W} (tables : W -> ActivityTables) (now : NaiveDate) (w : W)
  (L : ReadLaws tables) (Hclock : clock_apart tables)
  (Hmax : forall w, now <= date_of (fst (utc_now w)) <= NAIVE_DATE_MAX)
  (Hstart : backfilled (tables w)) :
  let '(o, w') := backfill_cycle (snd (get_backfill_state (tables w))) w in
  kept_up now (tables w) o (tables w').
Proof.
  unfold backfill_cycle, and_then at 1. pose proof (pool_query_spec tables L first_event_day w) as Hq.
  destruct (pool_query first_event_day w) as [[first|e|] w1]; destruct Hq as [Ht Hf]; [|by split; rewrite Ht|done].
  symmetry in Hf. destruct first as [first|].
  - by apply (backfill_first_kept_up tables L Hclock now (tables w) w1 first).
  - pose proof (pool_execute_spec tables L (save_backfill_state true None) w1) as Hp. rewrite Ht in Hp.
    assert (Hnone : forall t, sources t = sources (tables w) -> backfilled t).
    { intros t Hs last f _ Hf'. unfold first_event_day in *. rewrite Hs in Hf'. congruence. }
    destruct (pool_execute _ w1) as [[u|e|] w2]; [| |done].
    + rewrite Hp. split_and!; [done|by apply Hnone|by rewrite saved_backfill|]. intros f day Hf'. congruence.
    + destruct Hp as [->| ->]; (split_and!; [done|by apply Hnone|done]).
Qed.

(** ** What the refresh does *)

Section Refresh.
Context {W : Type} `{Clock W} `{ReadPool ActivityTables W} `{HashOrder} (tables : W -> ActivityTables).
Context (L : ReadLaws tables) (Hclock : clock_apart tables).

(** The accounts of [S] are up to date on [today], and nothing else has changed. *)
Record profiles_fresh (today : NaiveDate) (S : string -> Prop) (t t' : ActivityTables) : Prop := {
  same_tables : sources t' = sources t /\ checkpoint t' = checkpoint t /\
    dirty_account_activity t' = dirty_account_activity t;
  fresh_rollups a : S a -> user_activity_daily t' !! (a, midnight today) = Some (today_rollup a today (sources t));
  fresh_profiles a : S a -> pf_figures <$> user_activity_profile t' !! a = Some (figures a today t');
  other_rollups a ts : ~ (S a /\ ts = midnight today) -> user_activity_daily t' !! (a, ts) = user_activity_daily t !! (a, ts);
  other_profiles a : ~ S a -> user_activity_profile t' !! a = user_activity_profile t !! a
}.

Lemma account_days_same a t t' :
  (forall ts, user_activity_daily t' !! (a, ts) = user_activity_daily t !! (a, ts)) -> account_days a t' = account_days a t.
Proof.
  intros Hsame. unfold account_days. do 2 f_equal. apply map_eq. intros [b ts]. rewrite !map_lookup_filter.
  destruct (decide (b = a)) as [->|Hne]; [by rewrite Hsame|].
  destruct (user_activity_daily t' !! (b, ts)), (user_activity_daily t !! (b, ts)); cbn; rewrite ?option_guard_False; done.
Qed.

Lemma figures_same a today t t' :
  sources t' = sources t -> (forall ts, user_activity_daily t' !! (a, ts) = user_activity_daily t !! (a, ts)) ->
  figures a today t' = figures a today t.
Proof. intros Hs Hd. unfold figures. by rewrite (account_days_same a t t' Hd), Hs. Qed.

Lemma fresh_none today (S : string -> Prop) t : (forall a, ~ S a) -> profiles_fresh today S t t.
Proof. intros HS. split; try done; intros a Ha; by destruct (HS a). Qed.

Lemma fresh_ext today (S S' : string -> Prop) t t' : (forall a, S a <-> S' a) -> profiles_fresh today S t t' -> profiles_fresh today S' t t'.
Proof.
  intros HS [? F1 F2 O1 O2]. split; [done|..].
  - intros a Ha. apply F1. by apply HS.
  - intros a Ha. apply F2. by apply HS.
  - intros a ts Ha. apply O1. by rewrite HS.
  - intros a Ha. apply O2. by rewrite HS.
Qed.

Lemma fresh_then today (S1 S2 : string -> Prop) `{!forall a, Decision (S2 a)} t t1 t2 :
  profiles_fresh today S1 t t1 -> profiles_fresh today S2 t1 t2 -> profiles_fresh today (fun a => S1 a \/ S2 a) t t2.
Proof.
  intros [(A1 & A2 & A3) R1 P1 OR1 OP1] [(B1 & B2 & B3) R2 P2 OR2 OP2]. rewrite A1 in R2. split; [split_and!; congruence|..].
  - intros a Ha. destruct (decide (S2 a)) as [Ha2|Ha2]; [by apply R2|]. rewrite OR2 by tauto. apply R1. by destruct Ha.
  - intros a Ha. destruct (decide (S2 a)) as [Ha2|Ha2]; [by apply P2|]. rewrite OP2 by done.
    rewrite P1 by (by destruct Ha). f_equal. symmetry. apply figures_same; [done|]. intros ts. apply OR2. tauto.
  - intros a ts Ha. rewrite OR2, OR1; tauto.
  - intros a Ha. rewrite OP2, OP1; tauto.
Qed.

Lemma fresh_one now a t :
  profiles_fresh (date_of now) (fun x => x = a) t (upsert_activity_profile now a (upsert_today_rollup now a t)).
Proof.
  split; cbn.
  - done.
  - intros x ->. by rewrite lookup_insert_eq.
  - intros x ->. by rewrite lookup_insert_eq.
  - intros x ts Hne. rewrite lookup_insert_ne; [done|]. intros [= <- <-]. by apply Hne.
  - intros x Hx. by rewrite lookup_insert_ne.
Qed.

Context (today : NaiveDate) (Hday : forall w, date_of (fst (utc_now w)) = today).

Lemma performs_today : performs tables look_at_clock (fun t now t' => date_of now = today /\ t' = t).
Proof.
  intros tx w. unfold look_at_clock. pose proof (Hclock w). pose proof (Hday w). by destruct (utc_now w).
Qed.

Lemma performs_of_statement f : performs tables (run_statement f) (fun t _ t' => t' = f t).
Proof.
  eapply performs_weaken; [|apply yields_performs, (yields_statement tables L f)]. by intros t [] t' [= <-].
Qed.

Lemma rounds_fresh now accounts t t' : date_of now = today ->
  rounds (fun a t t' => t' = upsert_activity_profile now a (upsert_today_rollup now a t)) accounts t t' ->
  profiles_fresh today (fun x => x ∈ accounts) t t'.
Proof.
  intros <-. revert t. induction accounts as [|a accounts IH]; cbn [rounds]; intros t.
  - intros ->. apply fresh_none. intros x. apply not_elem_of_nil.
  - intros (t1 & -> & Ha2%IH). refine (fresh_ext _ _ _ _ _ _ (fresh_then _ _ _ _ _ _ (fresh_one now a t) Ha2)).
    intros x. cbn. by rewrite elem_of_cons.
Qed.

Lemma refresh_chunk_performs chunk :
  performs tables (refresh_chunk chunk) (fun t _ t' => profiles_fresh today (fun x => x ∈ chunk) t t').
Proof.
  eapply performs_weaken; [|apply performs_bind; [apply performs_today|intros now; apply performs_each; intros a;
    eapply performs_weaken; [|apply performs_bind; [apply performs_of_statement|intros u; apply performs_of_statement]]]].
  - cbn. intros t _ t' (now & t1 & [Hnow ->] & Hr). by apply (rounds_fresh now).
  - cbn. intros t _ t' (u & t1 & -> & ->). done.
Qed.

Lemma profile_chunks_fresh chunked w :
  let '(o, w') := profile_chunks chunked w in
  match o with
  | Done _ => profiles_fresh today (fun x => x ∈ concat chunked) (tables w) (tables w')
  | Failed _ => exists some : list string, (forall x, x ∈ some -> x ∈ concat chunked) /\
      profiles_fresh today (fun x => x ∈ some) (tables w) (tables w')
  | Panicked => False
  end.
Proof.
  revert w. induction chunked as [|chunk chunked IH]; intros w; cbn [profile_chunks concat].
  { apply fresh_none. intros x. apply not_elem_of_nil. }
  unfold and_then. pose proof (in_transaction_performs tables L (refresh_chunk chunk) _ w (refresh_chunk_performs chunk)) as Ho.
  destruct (in_transaction _ w) as [[u|e|] w1]; [| |done].
  - specialize (IH w1). destruct (profile_chunks chunked w1) as [[v|e|] w2]; [| |done].
    + refine (fresh_ext _ _ _ _ _ _ (fresh_then _ _ _ _ _ _ Ho IH)). intros x. cbn. by rewrite elem_of_app.
    + destruct IH as (some & Hin & Hr). exists (chunk ++ some). split.
      { intros x. rewrite !elem_of_app. intros [?|?]; [by left|right; by apply Hin]. }
      refine (fresh_ext _ _ _ _ _ _ (fresh_then _ _ _ _ _ _ Ho Hr)). intros x. cbn. by rewrite elem_of_app.
  - destruct Ho as [->|[u Hr]].
    + exists []. split; [by intros x ?%not_elem_of_nil|]. apply fresh_none. intros x. apply not_elem_of_nil.
    + exists chunk. split; [intros x ?; apply elem_of_app; by left|done].
Qed.
End Refresh.

Definition marked (t : ActivityTables) (a : string) : Prop := is_Some (dirty_account_activity t !! a).

(** What a refresh makes of the tables [t]. *)
Definition refreshed (today : NaiveDate) (t : ActivityTables) (o : outcome (list string)) (t' : ActivityTables) : Prop :=
  match o with
  | Done ids => (forall a, a ∈ ids <-> marked t a) /\ profiles_fresh today (marked t) (with_dirty ∅ t) t'
  | Failed _ => t' = t \/
      exists some : list string, (forall a, a ∈ some -> marked t a) /\
        profiles_fresh today (fun a => a ∈ some) (with_dirty ∅ t) t'
  | Panicked => False
  end.

Lemma refresh_outcome {W} `{Clock W} `{ReadPool ActivityTables W} `{HashOrder} (tables : W -> ActivityTables)
  (today : NaiveDate) (w : W)
  (L : ReadLaws tables) (Hclock : clock_apart tables) (Hday : forall w, date_of (fst (utc_now w)) = today) :
  let '(o, w') := refresh_profiles w in refreshed today (tables w) o (tables w').
Proof.
  unfold refresh_profiles, and_then at 1.
  set (dirty t := map fst (map_to_list (dirty_account_activity t))).
  pose proof (in_transaction_outcome tables L drain_activity _ w (yields_returning tables L dirty (with_dirty ∅))) as Ho.
  assert (Hids : forall a, a ∈ set_iter (list_to_set (dirty (tables w))) <-> marked (tables w) a).
  { intros a. rewrite set_iter_perm, elem_of_elements, elem_of_list_to_set.
    unfold dirty, marked. rewrite list_elem_of_fmap. split.
    - intros ([b m] & -> & Hb%elem_of_map_to_list). by exists m.
    - intros [m Hm]. exists (a, m). split; [done|]. by apply elem_of_map_to_list. }
  assert (Hall : forall a, a ∈ concat (chunks PROFILE_BATCH_SIZE (set_iter (list_to_set (dirty (tables w))))) <-> marked (tables w) a).
  { intros a. rewrite chunks_concat by (unfold PROFILE_BATCH_SIZE; lia). apply Hids. }
  destruct (in_transaction drain_activity w) as [[ds|e|] w1]; [| |by destruct Ho].
  - injection Ho as <- Ht1. unfold and_then.
    pose proof (profile_chunks_fresh tables L Hclock today Hday (chunks PROFILE_BATCH_SIZE (set_iter (list_to_set (dirty (tables w))))) w1) as Hr.
    rewrite <- Ht1 in Hr. destruct (profile_chunks _ w1) as [[u|e|] w2]; [| |done].
    + split; [done|]. by apply (fresh_ext _ _ _ _ _ Hall).
    + right. destruct Hr as (some & Hin & Hr). exists some. split; [|done]. intros a Ha. by apply Hall, Hin.
  - destruct Ho as [?|[ds [= _ Ht]]]; [by left|right]. exists []. split; [by intros a ?%not_elem_of_nil|].
    rewrite <- Ht. apply fresh_none. intros a. apply not_elem_of_nil.
Qed.

(** A refresh recomputes today only. A refresh that succeeds, and does not cross
    midnight, leaves every marked account with today's rollup, computed from the typed
    events, and with a profile computed from all its rollups; the marks are gone. No
    rollup of another day changes, so the events of yesterday that are marked after
    midnight never reach yesterday's rollup. A refresh that fails after its first
    transaction has dropped all the marks and refreshed some of the accounts only. *)
Theorem refresh_is_for_today {W} `{Clock W} `{ReadPool ActivityTables W} `{HashOrder} (tables : W -> ActivityTables)
  (today : NaiveDate) (w : W)
  (L : ReadLaws tables) (Hclock : clock_apart tables) (Hday : forall w, date_of (fst (utc_now w)) = today) :
  let t := tables w in
  let '(o, w') := refresh_profiles w in
  match o with
  | Done ids => (forall a, a ∈ ids <-> marked t a) /\ profiles_fresh today (marked t) (with_dirty ∅ t) (tables w')
  | Failed _ => tables w' = t \/
      exists some : list string, (forall a, a ∈ some -> marked t a) /\
        profiles_fresh today (fun a => a ∈ some) (with_dirty ∅ t) (tables w')
  | Panicked => False
  end.
Proof.
  cbv zeta. pose proof (refresh_outcome tables today w L Hclock Hday) as Hr. by destruct (refresh_profiles w) as [[] ?].
Qed.

(** The checkpoint keeps its keys. What is saved in the checkpoint is read back, and
    saving one of its entries leaves the others as they were, whether or not the row and
    its metadata were there; saving no day keeps the last one. After a cohort run the
    next is due seven days later, and after a full recompute the next is due the next
    day. *)
Theorem checkpoint_keys_kept `{DateText} (t : ActivityTables) (complete : bool) (last : option NaiveDate)
  (d d' : NaiveDate) (ts ts' : DateTime) (max_ts : option DateTime) :
  let o := observe t in
  observe (save_backfill_state complete last t) = {|
    m_backfill := (complete, match last with Some day => Some day | None => snd (m_backfill o) end);
    m_rfm := m_rfm o; m_affinity := m_affinity o; m_recompute := m_recompute o; m_cohorts := m_cohorts o |} /\
  observe (save_rfm_sweep_date d t) = {|
    m_backfill := m_backfill o; m_rfm := Some d; m_affinity := m_affinity o; m_recompute := m_recompute o;
    m_cohorts := m_cohorts o |} /\
  observe (save_topic_affinity_checkpoint ts t) = {|
    m_backfill := m_backfill o; m_rfm := m_rfm o; m_affinity := Some ts; m_recompute := m_recompute o;
    m_cohorts := m_cohorts o |} /\
  observe (save_affinity_recompute d max_ts t) = {|
    m_backfill := m_backfill o; m_rfm := m_rfm o;
    m_affinity := match max_ts with Some x => Some x | None => m_affinity o end;
    m_recompute := Some d; m_cohorts := m_cohorts o |} /\
  observe (save_last_cohort_run ts t) = {|
    m_backfill := m_backfill o; m_rfm := m_rfm o; m_affinity := m_affinity o; m_recompute := m_recompute o;
    m_cohorts := Some ts |} /\
  should_run_weekly_cohorts ts' (save_last_cohort_run ts t) = (7 * DAY <=? ts' - ts) /\
  should_run_daily_affinity_recompute d' (save_affinity_recompute d max_ts t) = (d <? d').
Proof.
  cbv zeta. unfold observe, should_run_weekly_cohorts, should_run_daily_affinity_recompute.
  unfold save_backfill_state, save_rfm_sweep_date, save_topic_affinity_checkpoint, save_affinity_recompute, save_last_cohort_run,
    get_last_rfm_sweep_date, get_topic_affinity_checkpoint.
  rewrite !merged_backfill, !merged_date, !merged_time.
  destruct last, max_ts; split_and!; field_lookups; cbn; rewrite ?date_parse_format, ?rfc3339_parse; done.
Qed.

(** ** Concrete tables *)

#[global] Instance demo_dates : DateText := {|
  date_format := pretty; date_parse := integer; date_parse_format := integer_pretty;
  rfc3339 := pretty; parse_from_rfc3339 := integer; rfc3339_parse := integer_pretty; NAIVE_DATE_MAX := 1000 |}.

(** It is noon of day 3. *)
#[global] Instance demo_noon : Clock (demo ActivityTables) := {| utc_now w := (midnight 3 + DAY / 2, w) |}.
#[global] Instance no_activity : EmptyTables ActivityTables := {|
  sources := empty_tables; dirty_account_activity := ∅; user_activity_daily := ∅; user_activity_profile := ∅; checkpoint := None |}.

Definition demo_atom_row (ts : DateTime) (i : Z) : AtomCreatedTyped := {|
  at_envelope := {| block_number := 1; block_timestamp := ts; block_hash := "0xb"; transaction_hash := "0xt"; log_index := i |};
  at_term_id := i; at_data := {| ac_creator := "0xa"; ac_term_id := pretty i; ac_atom_data := "0x"; ac_atom_wallet := "0xw" |} |}.

(** An atom of yesterday and one of today, and an account that is marked. *)
Definition demo_sources : IngestTables :=
  set_table {[("0xt", 0) := (1, demo_atom_row (midnight 2 + 5) 0); ("0xt", 1) := (2, demo_atom_row (midnight 3 + 5) 1)]} empty_tables.
Definition demo_activity : ActivityTables := {|
  sources := demo_sources; dirty_account_activity := {["0xa" := "0xa"]}; user_activity_daily := ∅; user_activity_profile := ∅;
  checkpoint := None |}.
Definition demo_activity_db : demo ActivityTables := demo_database demo_activity [].

Definition backfill_run : outcome unit * demo ActivityTables :=
  backfill_cycle (snd (get_backfill_state (demo_tables demo_activity_db))) demo_activity_db.
Definition refresh_run : outcome (list string) * demo ActivityTables := refresh_profiles demo_activity_db.

(** Without a backfill the refresh leaves yesterday's atom out of the profile's windows. *)
Example demo_windows :
  map (fun kv => (w_atoms_created (days_30 (pf_figures (snd kv))), atoms_all_time (pf_figures (snd kv))))
    (map_to_list (user_activity_profile (demo_tables (snd refresh_run)))) = [(1, 2)].
Proof. vm_compute. reflexivity. Qed.

Example demo_rollups : map snd (map fst (map_to_list (user_activity_daily (demo_tables (snd backfill_run))))) = [midnight 2; midnight 3]
  \/ map snd (map fst (map_to_list (user_activity_daily (demo_tables (snd backfill_run))))) = [midnight 3; midnight 2].
Proof. vm_compute. auto. Qed.

Lemma backfill_keeps_up_witness :
  fst backfill_run = Done tt /\ let '(o, w') := backfill_run in kept_up 3 (demo_tables demo_activity_db) o (demo_tables w').
Proof.
  split; [vm_compute; reflexivity|].
  assert (Hb : backfilled (demo_tables demo_activity_db)) by (intros last first [=]).
  assert (Hd : forall w : demo ActivityTables, 3 <= date_of (fst (utc_now w)) <= NAIVE_DATE_MAX) by (intros w; vm_compute; split; discriminate).
  exact (backfill_keeps_up demo_tables 3 demo_activity_db demo_read_laws (fun w => eq_refl) Hd Hb).
Defined.

Lemma refresh_is_for_today_witness :
  fst refresh_run = Done ["0xa"] /\
  match fst refresh_run with
  | Done ids => (forall a, a ∈ ids <-> marked demo_activity a) /\
      profiles_fresh 3 (marked demo_activity) (with_dirty ∅ demo_activity) (demo_tables (snd refresh_run))
  | _ => True
  end.
Proof.
  split; [vm_compute; reflexivity|].
  pose proof (refresh_is_for_today demo_tables 3 demo_activity_db demo_read_laws (fun w => eq_refl)
    (fun w => ltac:(vm_compute; reflexivity))) as Hr.
  unfold refresh_run. destruct (refresh_profiles demo_activity_db) as [[u|e|] w]; [exact Hr|done..].
Defined.
