(* ===== verification/UserSegments.v ===== *)
(** * Scores and segments

    [crates/projections/src/repo/user_activity_repo.rs]: the RFM scores of the activity
    profiles and their classification into segments, over all the profiles and over the
    marked accounts only (phases 3 and 4 of the incremental cycle). The order in which a query
    ranks rows with equal keys, the logarithm, the percentiles and the comparison with a
    [REAL] column are PostgreSQL's and are parameters. *)

From Stdlib Require Import QArith Qcanon.
From stdpp Require Import sorting.
From S2P Require Import Prelude Events Errors PgTx TxCode PgCommon DemoWorld DemoDatabase PositionTracking Ingestion ActivityDaily LeaderboardRefresh UserActivity.

#[local] Open Scope Z_scope.

(** [float8] numbers are only compared: they are kept as integers in the same order. *)
Class PgFunctions := {
  order_by {A} (key : A -> Z) : list A -> list A;
  order_by_perm {A} (key : A -> Z) l : order_by key l ≡ₚ l;
  order_by_sorted {A} (key : A -> Z) l : StronglySorted (fun x y => key x <= key y) (order_by key l);
  monetary_log : Z -> Z;
  monetary_log_mono v v' : 0 <= v <= v' -> monetary_log v <= monetary_log v';
  percentile_cont : Q -> list Z -> option Qc;
  ratio_between : Q -> Q -> Z * Z -> bool
}.

(** ** The tables *)

Inductive user_segment_type := whale | power_user | new_user | active | casual | dormant.
#[global] Instance segment_eq_dec : EqDecision user_segment_type.
Proof. solve_decision. Defined.

Record ScoreRow := {
  profile : Profile;
  rfm_scores : option (Z * Z * Z);
  user_segment : user_segment_type;
  previous_segment : option user_segment_type
}.
Record SegmentTables := { profiles : gmap string ScoreRow; first_seen_at : gmap string DateTime }.

Definition update_profiles (f : string -> ScoreRow -> ScoreRow) (t : SegmentTables) : SegmentTables :=
  {| profiles := map_imap (fun a row => Some (f a row)) (profiles t); first_seen_at := first_seen_at t |}.

(** ** RFM scores *)

Definition RFM_MIN_POPULATION : Z := 50.

Definition recomputed_within (days now : Z) (row : ScoreRow) : bool := now - days * DAY <? last_recomputed_at (profile row).

Definition recency_days (now : DateTime) (row : ScoreRow) : Z := Z.quot (now - last_recomputed_at (profile row)) DAY.
Definition frequency_30d (row : ScoreRow) : Z :=
  let w := days_30 (pf_figures (profile row)) in w_deposits w + w_redemptions w + w_atoms_created w + w_triples_created w.
Definition volume_30d (row : ScoreRow) : Z :=
  let w := days_30 (pf_figures (profile row)) in w_deposit_volume w + w_redemption_volume w.

Definition active_accounts (now : DateTime) (t : SegmentTables) : list (string * ScoreRow) :=
  filter (fun kv => recomputed_within 30 now (snd kv) = true) (map_to_list (profiles t)).

(** [NTILE(k)] of row [i] of [n], counted from 0: the first [n mod k] buckets have one row
    more than the others. *)
Definition ntile (k n i : Z) : Z :=
  let q := n / k in
  let r := n `mod` k in
  if i <? r * (q + 1) then i / (q + 1) + 1 else (i - r * (q + 1)) / q + r + 1.

Section Scores.
Context `{PgFunctions}.

Definition rank (key : ScoreRow -> Z) (a : string) (rows : list (string * ScoreRow)) : Z :=
  match list_find (fun kv => fst kv = a) (order_by (fun kv => key (snd kv)) rows) with
  | Some (i, _) => Z.of_nat i
  | None => 0
  end.
Definition tile (key : ScoreRow -> Z) (a : string) (rows : list (string * ScoreRow)) : Z :=
  ntile 5 (count rows) (rank key a rows).

Definition scored (now : DateTime) (t : SegmentTables) (a : string) : option (Z * Z * Z) :=
  let rows := active_accounts now t in
  if decide (a ∈ map fst rows) then
    Some (tile (recency_days now) a rows, tile frequency_30d a rows, tile (fun row => monetary_log (volume_30d row)) a rows)
  else None.

Definition with_scores (s : option (Z * Z * Z)) (row : ScoreRow) : ScoreRow := {|
  profile := profile row; rfm_scores := s; user_segment := user_segment row; previous_segment := previous_segment row |}.

Definition neutral_scores (now : DateTime) (row : ScoreRow) : option (Z * Z * Z) :=
  if recomputed_within 30 now row then Some (3, 3, 3) else None.

(** [WHERE account_id = ANY($1)], [None] without it. *)
Definition among (ids : option (list string)) (a : string) : bool :=
  match ids with Some l => bool_decide (a ∈ l) | None => true end.

Definition bootstrap_update (ids : option (list string)) (now : DateTime) : SegmentTables -> SegmentTables :=
  update_profiles (fun a row => if among ids a then with_scores (neutral_scores now row) row else row).
Definition ntile_update (ids : option (list string)) (now : DateTime) (t : SegmentTables) : SegmentTables :=
  update_profiles (fun a row => if among ids a then with_scores (scored now t a) row else row) t.

(** ** Segments *)

(** A comparison with [NULL] does not hold. *)
Definition at_least (v : Z) (threshold : option Qc) : bool :=
  match threshold with Some q => bool_decide (q <= of_int v)%Qc | None => false end.

(** [GREATEST] leaves [NULL] out. *)
Definition greatest (q : option Qc) (r : Qc) : Qc :=
  match q with Some q => if decide (q <= r)%Qc then r else q | None => r end.

Record Thresholds := { whale_threshold : option Qc; power_user_threshold : option Qc; median_frequency : option Qc }.
Definition thresholds (now : DateTime) (t : SegmentTables) : Thresholds :=
  let rows := map snd (active_accounts now t) in {|
  whale_threshold := percentile_cont (99 # 100) (map volume_30d rows);
  power_user_threshold := percentile_cont (90 # 100) (map frequency_30d rows);
  median_frequency := percentile_cont (50 # 100) (map frequency_30d rows) |}.

Definition newly_seen (now : DateTime) (t : SegmentTables) (a : string) : bool :=
  match first_seen_at t !! a with Some seen => now - 14 * DAY <? seen | None => false end.
Definition balanced (row : ScoreRow) : bool :=
  match creator_trader_ratio (pf_figures (profile row)) with
  | Some ratio => ratio_between (2 # 10) (8 # 10) ratio
  | None => false
  end.

Definition segment (now : DateTime) (t : SegmentTables) (a : string) (row : ScoreRow) : user_segment_type :=
  let th := thresholds now t in
  if at_least (volume_30d row) (Some (greatest (whale_threshold th) 1)) then whale
  else if at_least (frequency_30d row) (power_user_threshold th) && balanced row then power_user
  else if recomputed_within 14 now row && newly_seen now t a then new_user
  else if recomputed_within 30 now row && at_least (frequency_30d row) (median_frequency th) then active
  else if recomputed_within 30 now row then casual
  else dormant.

Definition with_segment (s : user_segment_type) (row : ScoreRow) : ScoreRow := {|
  profile := profile row; rfm_scores := rfm_scores row; user_segment := s; previous_segment := Some (user_segment row) |}.
Definition segment_update (ids : option (list string)) (now : DateTime) (t : SegmentTables) : SegmentTables :=
  update_profiles (fun a row => if among ids a then with_segment (segment now t a row) row else row) t.

(** ** The queries *)

Context {W : Type} `{Clock W} `{ReadPool SegmentTables W}.

(** Each statement reads [NOW()]. *)
Definition query_now {A} (q : DateTime -> SegmentTables -> A) (w : W) : outcome A * W :=
  let '(now, w) := utc_now w in
  let '(r, w) := fetch (q now) (fun t => t) w in (match r with Ok a => Done a | Err e => Failed e end, w).
Definition execute_now (f : DateTime -> SegmentTables -> SegmentTables) (w : W) : outcome unit * W :=
  let '(now, w) := utc_now w in
  let '(r, w) := commit_tx (f now) w in (match r with Ok _ => Done tt | Err e => Failed e end, w).

Definition compute_rfm_scores_of (ids : option (list string)) : W -> outcome unit * W :=
  and_then (query_now (fun now t => count (active_accounts now t))) (fun active_count =>
    if active_count <? RFM_MIN_POPULATION then execute_now (bootstrap_update ids)
    else execute_now (ntile_update ids)).

Definition compute_rfm_scores : W -> outcome unit * W := compute_rfm_scores_of None.
Definition compute_rfm_scores_for_accounts (account_ids : list string) : W -> outcome unit * W :=
  compute_rfm_scores_of (Some account_ids).
Definition classify_segments : W -> outcome unit * W := execute_now (segment_update None).
Definition classify_segments_for_accounts (account_ids : list string) : W -> outcome unit * W :=
  execute_now (segment_update (Some account_ids)).

End Scores.

(** ** Lemmas on buckets and ranks *)

Lemma ntile_bounds k n i : 0 < k -> 0 <= i < n -> 1 <= ntile k n i <= k.
Proof.
  intros Hk Hi. unfold ntile. cbv zeta. pose proof (Z.div_mod n k ltac:(lia)) as Hn.
  pose proof (Z.mod_pos_bound n k Hk). pose proof (Z.div_pos n k ltac:(lia) Hk).
  set (q := n / k) in *. set (r := n mod k) in *. destruct (i <? r * (q + 1)) eqn:Hlt.
  - pose proof (Z.div_pos i (q + 1) ltac:(lia) ltac:(lia)).
    pose proof (Z.div_lt_upper_bound i (q + 1) r ltac:(lia) ltac:(lia)). lia.
  - assert (0 < q) by nia. pose proof (Z.div_pos (i - r * (q + 1)) q ltac:(lia) ltac:(lia)).
    pose proof (Z.div_lt_upper_bound (i - r * (q + 1)) q (k - r) ltac:(lia) ltac:(nia)). lia.
Qed.

Lemma ntile_mono k n i j : 0 < k -> 0 <= i -> i <= j -> j < n -> ntile k n i <= ntile k n j.
Proof.
  intros Hk Hi Hij Hj. unfold ntile. cbv zeta. pose proof (Z.div_mod n k ltac:(lia)) as Hn.
  pose proof (Z.mod_pos_bound n k Hk). pose proof (Z.div_pos n k ltac:(lia) Hk).
  set (q := n / k) in *. set (r := n mod k) in *.
  destruct (i <? r * (q + 1)) eqn:Hi', (j <? r * (q + 1)) eqn:Hj'; [| |lia|].
  - pose proof (Z.div_le_mono i j (q + 1) ltac:(lia) Hij). lia.
  - assert (0 < q) by nia. pose proof (Z.div_lt_upper_bound i (q + 1) r ltac:(lia) ltac:(lia)).
    pose proof (Z.div_pos (j - r * (q + 1)) q ltac:(lia) ltac:(lia)). lia.
  - assert (0 < q) by nia. pose proof (Z.div_le_mono (i - r * (q + 1)) (j - r * (q + 1)) q ltac:(lia) ltac:(lia)). lia.
Qed.

Lemma ntile_first k n : 0 < k -> 0 < n -> ntile k n 0 = 1.
Proof.
  intros Hk Hn. pose proof (ntile_bounds k n 0 Hk ltac:(lia)). unfold ntile in *. cbv zeta in *.
  pose proof (Z.mod_pos_bound n k Hk). pose proof (Z.div_pos n k ltac:(lia) Hk).
  destruct (0 <? n mod k * (n / k + 1)) eqn:Hlt; [by rewrite Z.div_0_l by lia|].
  pose proof (Z.div_mod n k ltac:(lia)). assert (Hr : n mod k = 0) by nia. rewrite Hr in *.
  rewrite Z.mul_0_l, Z.sub_0_r, Z.div_0_l by nia. done.
Qed.

Lemma sorted_lookup {A} (key : A -> Z) l i j x y :
  StronglySorted (fun x y => key x <= key y) l -> l !! i = Some x -> l !! j = Some y -> (i <= j)%nat -> key x <= key y.
Proof.
  intros Hs. revert i j. induction Hs as [|z l Hs IH Hz]; intros i j Hx Hy Hij; [done|].
  destruct i as [|i], j as [|j]; cbn in Hx, Hy; [| |lia|].
  - injection Hx as ->. injection Hy as ->. lia.
  - injection Hx as ->. rewrite Forall_forall in Hz. apply Hz. by eapply list_elem_of_lookup_2.
  - apply (IH i j); [done..|lia].
Qed.

Section Ranks.
Context `{PgFunctions} (key : ScoreRow -> Z) (rows : list (string * ScoreRow)) (Hrows : NoDup (map fst rows)).

Lemma rank_lookup a row : (a, row) ∈ rows ->
  exists i, rank key a rows = Z.of_nat i /\ (i < length rows)%nat /\ order_by (fun kv => key (snd kv)) rows !! i = Some (a, row).
Proof.
  intros Ha. unfold rank. set (l := order_by _ rows). assert (Hp : l ≡ₚ rows) by apply order_by_perm.
  assert (Hnd : NoDup (map fst l)) by (by rewrite Hp).
  assert (Hin : (a, row) ∈ l) by (by rewrite Hp). apply list_elem_of_lookup in Hin as [i Hi].
  assert (Hf : list_find (fun kv : string * ScoreRow => fst kv = a) l = Some (i, (a, row))).
  { apply list_find_Some. split_and!; [done..|]. intros j y Hj Hlt Hy.
    assert (j = i); [|lia]. apply (NoDup_lookup (map fst l) j i a Hnd); rewrite list_lookup_fmap; [by rewrite Hj; cbn; rewrite Hy|by rewrite Hi]. }
  rewrite Hf. exists i. split_and!; [done| |done]. rewrite <- Hp. by eapply lookup_lt_Some.
Qed.

Lemma tile_bounds a row : (a, row) ∈ rows -> 1 <= tile key a rows <= 5.
Proof. intros (i & Hr & Hi & _)%rank_lookup. unfold tile. rewrite Hr. apply ntile_bounds; unfold count; lia. Qed.

(** A smaller key is in no later bucket. *)
Lemma tile_mono a b ra rb : (a, ra) ∈ rows -> (b, rb) ∈ rows -> key ra < key rb -> tile key a rows <= tile key b rows.
Proof.
  intros (i & Hri & Hi & Hli)%rank_lookup (j & Hrj & Hj & Hlj)%rank_lookup Hlt. unfold tile. rewrite Hri, Hrj.
  destruct (decide (j <= i)%nat) as [Hji|Hij]; [|apply ntile_mono; unfold count; lia].
  pose proof (sorted_lookup _ _ _ _ _ _ (order_by_sorted (fun kv => key (snd kv)) rows) Hlj Hli Hji) as Hk. cbn in Hk. lia.
Qed.

(** The row with the smallest key is in the first bucket. *)
Lemma tile_least a ra : (a, ra) ∈ rows -> (forall b rb, (b, rb) ∈ rows -> b <> a -> key ra < key rb) -> tile key a rows = 1.
Proof.
  intros (i & Hri & Hi & Hli)%rank_lookup Hleast. unfold tile. rewrite Hri.
  destruct i as [|i]; [apply ntile_first; unfold count; lia|].
  set (l := order_by _ rows) in *. assert (Hp : l ≡ₚ rows) by apply order_by_perm.
  destruct (l !! 0%nat) as [[b rb]|] eqn:H0; [|apply lookup_ge_None in H0; rewrite Hp in H0; lia].
  assert (Hb : (b, rb) ∈ rows) by (rewrite <- Hp; by eapply list_elem_of_lookup_2).
  pose proof (sorted_lookup _ _ _ _ _ _ (order_by_sorted (fun kv => key (snd kv)) rows) H0 Hli ltac:(lia)) as Hk. cbn in Hk.
  destruct (decide (b = a)) as [->|Hne]; [|specialize (Hleast b rb Hb Hne); lia].
  assert (Hnd : NoDup (map fst l)) by (by rewrite Hp).
  assert (0%nat = S i); [|done]. apply (NoDup_lookup (map fst l) 0%nat (S i) a Hnd); rewrite list_lookup_fmap; [by rewrite H0|by rewrite Hli].
Qed.
End Ranks.

Lemma actives_nodup now t : NoDup (map fst (active_accounts now t)).
Proof.
  apply (sublist_NoDup _ (map fst (map_to_list (profiles t)))); [apply NoDup_fst_map_to_list|].
  apply (fmap_sublist fst), sublist_filter.
Qed.

Lemma actives_elem now t a row :
  (a, row) ∈ active_accounts now t <-> profiles t !! a = Some row /\ recomputed_within 30 now row = true.
Proof. unfold active_accounts. rewrite list_elem_of_filter, elem_of_map_to_list. cbn. tauto. Qed.

Lemma actives_keys now t a :
  a ∈ map fst (active_accounts now t) <-> exists row, profiles t !! a = Some row /\ recomputed_within 30 now row = true.
Proof.
  rewrite list_elem_of_fmap. split.
  - intros ([b row] & -> & Hb%actives_elem). by exists row.
  - intros (row & Hrow). exists (a, row). split; [done|]. by apply actives_elem.
Qed.

Lemma updated_lookup f t a : profiles (update_profiles f t) !! a = f a <$> profiles t !! a.
Proof. unfold update_profiles. cbn. rewrite map_lookup_imap. by destruct (profiles t !! a). Qed.

Section Queries.
Context `{PgFunctions} {W : Type} `{Clock W} `{ReadPool SegmentTables W} (tables : W -> SegmentTables) (now : DateTime).
Context (L : ReadLaws tables) (Hclock : clock_apart tables) (Hnow : forall w, fst (utc_now w) = now).

(** An update in one statement, or no effect. *)
Definition updates (f : SegmentTables -> SegmentTables) (m : W -> outcome unit * W) : Prop := forall w,
  let '(o, w') := m w in
  match o with
  | Done _ => tables w' = f (tables w)
  | Failed _ => tables w' = tables w \/ tables w' = f (tables w)
  | Panicked => False
  end.

Lemma execute_now_updates f : updates (f now) (execute_now f).
Proof.
  intros w. unfold execute_now. pose proof (Hclock w) as Ht. pose proof (Hnow w) as Hn. destruct (utc_now w) as [n w1]. cbn in *. subst n.
  destruct (commit_tx (f now) w1) as [r w2] eqn:Hc. pose proof (tx_commit _ (read_laws _ L) _ _ _ _ Hc) as Hk. rewrite Ht in Hk.
  destruct r as [[]|e]; [by destruct Hk as [?|[_ ?]]|]. destruct Hk as [?|[? _]]; auto.
Qed.

Definition score_update (ids : option (list string)) (t : SegmentTables) : SegmentTables :=
  if count (active_accounts now t) <? RFM_MIN_POPULATION then bootstrap_update ids now t else ntile_update ids now t.

Lemma rfm_updates ids : updates (score_update ids) (compute_rfm_scores_of ids).
Proof.
  intros w. unfold compute_rfm_scores_of, and_then, query_now. pose proof (Hclock w) as Ht. pose proof (Hnow w) as Hn.
  destruct (utc_now w) as [n w1]. cbn in *. subst n. set (q := fun t => count (active_accounts now t)).
  pose proof (read_fetch _ L q (fun t => t) w1) as Hs. pose proof (read_answer _ L q (fun t => t) w1) as Ha.
  destruct (fetch q (fun t => t) w1) as [[n|e] w2]; cbn in *; [|by left; rewrite Hs].
  rewrite (Ha n eq_refl). unfold q. rewrite Ht in *. unfold score_update.
  destruct (_ <? RFM_MIN_POPULATION); [pose proof (execute_now_updates (bootstrap_update ids) w2) as He|
    pose proof (execute_now_updates (ntile_update ids) w2) as He]; by rewrite Hs in He.
Qed.

(** An update among some accounts, next to the same for all. *)
Definition restricts (f g : SegmentTables -> SegmentTables) (ids : list string) : Prop := forall t a,
  profiles (f t) !! a = if decide (a ∈ ids) then profiles (g t) !! a else profiles t !! a.

Lemma update_restricts (f : SegmentTables -> string -> ScoreRow -> ScoreRow) ids :
  restricts (fun t => update_profiles (fun a row => if among (Some ids) a then f t a row else row) t)
    (fun t => update_profiles (fun a row => if among None a then f t a row else row) t) ids.
Proof.
  intros t a. rewrite !updated_lookup. cbn. destruct (decide (a ∈ ids)) as [Ha|Ha].
  - by rewrite bool_decide_true.
  - rewrite bool_decide_false by done. by destruct (profiles t !! a).
Qed.

Lemma score_restricts ids : restricts (score_update (Some ids)) (score_update None) ids.
Proof.
  intros t a. unfold score_update. destruct (_ <? RFM_MIN_POPULATION).
  - apply (update_restricts (fun t a row => with_scores (neutral_scores now row) row)).
  - apply (update_restricts (fun t a row => with_scores (scored now t a) row)).
Qed.

Lemma segment_restricts ids : restricts (segment_update (Some ids) now) (segment_update None now) ids.
Proof. intros t a. apply (update_restricts (fun t a row => with_segment (segment now t a row) row)). Qed.
End Queries.

Lemma of_int_le a b : (of_int a <= of_int b)%Qc -> a <= b.
Proof. unfold Qcle, of_int. cbn. rewrite !Qred_correct. unfold Qle. cbn. lia. Qed.

Lemma whale_volume (q : option Qc) v : (greatest q 1 <= of_int v)%Qc -> 1 <= v.
Proof.
  intros Hq. assert (H1 : (of_int 1 <= greatest q 1)%Qc).
  { destruct q as [q|]; [|apply Qcle_refl]. cbn. destruct (decide (q <= 1)%Qc) as [Hle|Hgt]; [apply Qcle_refl|].
    apply Qclt_le_weak, Qcnot_le_lt, Hgt. }
  apply of_int_le. by eapply Qcle_trans.
Qed.

(** ** Properties *)

(** The scores of two accounts with these rows are in the order of the keys. *)
Record ordered_scores (now : DateTime) (ra rb : ScoreRow) `{PgFunctions} (sa sb : Z * Z * Z) : Prop := {
  by_recency : recency_days now ra < recency_days now rb -> fst (fst sa) <= fst (fst sb);
  by_frequency : frequency_30d ra < frequency_30d rb -> snd (fst sa) <= snd (fst sb);
  by_volume : monetary_log (volume_30d ra) < monetary_log (volume_30d rb) -> snd sa <= snd sb
}.
Definition in_quintiles (s : Z * Z * Z) : Prop := 1 <= fst (fst s) <= 5 /\ 1 <= snd (fst s) <= 5 /\ 1 <= snd s <= 5.

(** Scores rank the active accounts. A scoring that succeeds gives scores from 1 to 5
    to the accounts recomputed within thirty days and takes those of the others away.
    Among fifty accounts or more, who moves more assets or does so more often has no
    lower a score; but who was active more recently has no higher a recency score, and
    the account that was active last of all gets the lowest, 1. *)
Theorem rfm_scores_ranked `{PgFunctions} {W} `{Clock W} `{ReadPool SegmentTables W} (tables : W -> SegmentTables)
  (now : DateTime) (w : W)
  (L : ReadLaws tables) (Hclock : clock_apart tables) (Hnow : forall w, fst (utc_now w) = now)
  (Hmany : RFM_MIN_POPULATION <= count (active_accounts now (tables w))) :
  let rows := active_accounts now (tables w) in
  let '(o, w') := compute_rfm_scores w in
  let scores a := profiles (tables w') !! a ≫= rfm_scores in
  o = Done tt ->
  (forall a, is_Some (scores a) <-> a ∈ map fst rows) /\
  (forall a s, scores a = Some s -> in_quintiles s) /\
  (forall a b ra rb sa sb, (a, ra) ∈ rows -> (b, rb) ∈ rows -> scores a = Some sa -> scores b = Some sb -> ordered_scores now ra rb sa sb) /\
  (forall a ra s, (a, ra) ∈ rows -> (forall b rb, (b, rb) ∈ rows -> b <> a -> recency_days now ra < recency_days now rb) ->
    scores a = Some s -> fst (fst s) = 1).
Proof.
  cbv zeta. pose proof (rfm_updates tables now L Hclock Hnow None w) as Hu. unfold compute_rfm_scores.
  destruct (compute_rfm_scores_of None w) as [o w']. intros ->. set (t := tables w) in *.
  assert (Hs : forall a, (profiles (tables w') !! a ≫= rfm_scores) = scored now t a).
  { intros a. rewrite Hu. unfold score_update. destruct (_ <? RFM_MIN_POPULATION) eqn:Hlt; [lia|]. unfold ntile_update.
    rewrite updated_lookup. cbn. unfold scored. case_decide as Ha; [|by destruct (profiles t !! a)].
    apply actives_keys in Ha as (row & -> & _). done. }
  setoid_rewrite Hs. unfold scored. pose proof (actives_nodup now t) as Hnd. split_and!.
  - intros a. case_decide; split; try done.
  - intros a s. case_decide as Ha; [|done]. intros [= <-]. apply list_elem_of_fmap in Ha as ([b row] & -> & Hb).
    split_and!; by eapply tile_bounds.
  - intros a b ra rb sa sb Ha Hb. case_decide; [|done]. intros [= <-]. case_decide; [|done]. intros [= <-]. split; cbn; intros Hlt.
    + by eapply (tile_mono (recency_days now)).
    + by eapply (tile_mono frequency_30d).
    + by eapply (tile_mono (fun row => monetary_log (volume_30d row))).
  - intros a ra s Ha Hleast. case_decide; [|done]. intros [= <-]. cbn. by eapply tile_least.
Qed.

(** The marked accounts get what a sweep would give them. Scoring or classifying some
    accounts leaves each of them with the row a sweep over all the profiles leaves it
    with, and the others with the row they had. *)
Theorem partial_sweeps_agree `{PgFunctions} {W} `{Clock W} `{ReadPool SegmentTables W} (tables : W -> SegmentTables)
  (now : DateTime) (account_ids : list string) (w : W)
  (L : ReadLaws tables) (Hclock : clock_apart tables) (Hnow : forall w, fst (utc_now w) = now) :
  let agree some all := fst (some w) = Done tt -> fst (all w) = Done tt -> forall a,
    profiles (tables (snd (some w))) !! a =
      if decide (a ∈ account_ids) then profiles (tables (snd (all w))) !! a else profiles (tables w) !! a in
  agree (compute_rfm_scores_for_accounts account_ids) compute_rfm_scores /\
  agree (classify_segments_for_accounts account_ids) classify_segments.
Proof.
  assert (Hagree : forall f g (some all : W -> outcome unit * W), updates tables f some -> updates tables g all ->
    restricts f g account_ids -> fst (some w) = Done tt -> fst (all w) = Done tt -> forall a,
    profiles (tables (snd (some w))) !! a =
      if decide (a ∈ account_ids) then profiles (tables (snd (all w))) !! a else profiles (tables w) !! a).
  { intros f g some all Hf Hg Hr. specialize (Hf w). specialize (Hg w). destruct (some w) as [o1 w1], (all w) as [o2 w2]. cbn.
    intros -> -> a. rewrite Hf, Hg. apply Hr. }
  cbv zeta. split.
  - eapply Hagree; [by apply rfm_updates|by apply rfm_updates|apply score_restricts].
  - eapply Hagree; [by apply execute_now_updates|by apply execute_now_updates|apply segment_restricts].
Qed.

(** What a classification of a row may be. *)
Definition classified (now : DateTime) (old row : ScoreRow) : Prop :=
  profile row = profile old /\ rfm_scores row = rfm_scores old /\ previous_segment row = Some (user_segment old) /\
  match user_segment row with
  | whale => 1 <= volume_30d old
  | power_user => is_Some (creator_trader_ratio (pf_figures (profile old)))
  | new_user => recomputed_within 14 now old = true
  | active | casual => recomputed_within 30 now old = true
  | dormant => recomputed_within 30 now old = false
  end.

(** Segments. A classification keeps the segment each account had, as its previous
    one, and touches nothing else. No account without volume becomes a whale, whatever
    the percentiles are; a power user has a ratio of creation to trading; an account is
    new only if it was recomputed within fourteen days, active or casual only if it was
    within thirty, and dormant only if it was not. *)
Theorem segments_sound `{PgFunctions} {W} `{Clock W} `{ReadPool SegmentTables W} (tables : W -> SegmentTables)
  (now : DateTime) (w : W)
  (L : ReadLaws tables) (Hclock : clock_apart tables) (Hnow : forall w, fst (utc_now w) = now) :
  let '(o, w') := classify_segments w in
  o = Done tt -> forall a,
    match profiles (tables w) !! a with
    | Some old => exists row, profiles (tables w') !! a = Some row /\ classified now old row
    | None => profiles (tables w') !! a = None
    end.
Proof.
  pose proof (execute_now_updates tables now L Hclock Hnow (segment_update None) w) as Hu. unfold classify_segments.
  destruct (execute_now _ w) as [o w']. intros -> a. rewrite Hu. unfold segment_update. rewrite updated_lookup.
  destruct (profiles (tables w) !! a) as [old|]; [|done]. cbn. eexists. split; [done|]. split_and!; [done..|]. cbn.
  unfold segment. destruct (at_least (volume_30d old) _) eqn:Hw.
  - cbn in Hw. apply bool_decide_eq_true in Hw. apply (whale_volume _ _ Hw).
  - destruct (at_least _ _ && balanced old) eqn:Hp.
    { apply andb_true_iff in Hp as [_ Hp]. unfold balanced in Hp. by destruct (creator_trader_ratio _). }
    destruct (recomputed_within 14 now old) eqn:H14; cbn [andb]; [destruct (newly_seen now (tables w) a); [done|]|];
      (destruct (recomputed_within 30 now old); cbn [andb]; [|done]);
      by destruct (at_least (frequency_30d old) (median_frequency (thresholds now (tables w)))).
Qed.

(** ** Concrete tables *)

Definition sort_by {A} (key : A -> Z) : list A -> list A :=
  @merge_sort A (fun x y => key x <= key y) (fun x y => Z.le_dec (key x) (key y)).
#[global] Instance demo_functions : PgFunctions.
Proof.
  refine {| order_by := @sort_by; monetary_log v := v; percentile_cont _ l := of_int <$> head l;
    ratio_between _ _ r := true |}.
  - intros A key l. apply merge_sort_Permutation.
  - intros A key l. apply StronglySorted_merge_sort; [intros x y z; lia|intros x y; lia].
  - intros v v'. lia.
Defined.

#[global] Instance segments_clock : Clock (demo SegmentTables) := {| utc_now w := (0, w) |}.
#[global] Instance no_segments : EmptyTables SegmentTables := {| profiles := ∅; first_seen_at := ∅ |}.

Definition demo_window (n : Z) : Window := {|
  w_atoms_created := 0; w_triples_created := 0; w_deposits := n; w_redemptions := 0; w_deposit_volume := 10 * n;
  w_redemption_volume := 0 |}.

(** Account [n] was recomputed [n / 2] days ago and has [n] deposits. *)
Definition demo_row (n : Z) : ScoreRow := {|
  profile := {|
    pf_figures := {| days_7 := demo_window n; days_30 := demo_window n; days_90 := demo_window n; atoms_all_time := 0;
      triples_all_time := 0; creator_trader_ratio := if n =? 0 then None else Some (0, n); unique_vaults_touched := n |};
    last_recomputed_at := - (n * DAY / 2) |};
  rfm_scores := None; user_segment := new_user; previous_segment := None |}.
Definition demo_profiles : SegmentTables := {|
  profiles := list_to_map (map (fun i => (pretty.pretty (Z.of_nat i), demo_row (Z.of_nat i))) (seq 0 55)); first_seen_at := ∅ |}.
Definition demo_segments : demo SegmentTables := demo_database demo_profiles [].

Example demo_scores :
  let t := demo_tables (snd (compute_rfm_scores demo_segments)) in
  map (fun a => profiles t !! a ≫= rfm_scores) ["0"; "54"] = [Some (1, 1, 1); Some (5, 5, 5)].
Proof. vm_compute. reflexivity. Qed.

Lemma rfm_scores_ranked_witness :
  RFM_MIN_POPULATION <= count (active_accounts 0 (demo_tables demo_segments)) /\
  let '(o, w) := compute_rfm_scores demo_segments in
  o = Done tt -> forall a s, profiles (demo_tables w) !! a ≫= rfm_scores = Some s -> in_quintiles s.
Proof.
  assert (Hmany : RFM_MIN_POPULATION <= count (active_accounts 0 (demo_tables demo_segments))) by (vm_compute; discriminate).
  split; [exact Hmany|].
  pose proof (rfm_scores_ranked demo_tables 0 demo_segments demo_read_laws (fun w => eq_refl) (fun w => eq_refl) Hmany) as Hr.
  destruct (compute_rfm_scores demo_segments) as [o w]. intros Ho. exact (proj1 (proj2 (Hr Ho))).
Defined.

Lemma partial_sweeps_agree_witness :
  profiles (demo_tables (snd (classify_segments_for_accounts ["7"] demo_segments))) !! "7" =
    profiles (demo_tables (snd (classify_segments demo_segments))) !! "7".
Proof.
  assert (Hall : fst (classify_segments demo_segments) = Done tt) by (vm_compute; reflexivity).
  assert (Hsome : fst (classify_segments_for_accounts ["7"] demo_segments) = Done tt) by (vm_compute; reflexivity).
  exact (proj2 (partial_sweeps_agree demo_tables 0 ["7"] demo_segments demo_read_laws (fun w => eq_refl) (fun w => eq_refl)) Hsome Hall "7").
Defined.

Lemma segments_sound_witness :
  exists old row, profiles demo_profiles !! "7" = Some old /\ classified 0 old row.
Proof.
  pose proof (segments_sound demo_tables 0 demo_segments demo_read_laws (fun w => eq_refl) (fun w => eq_refl)) as Hs.
  assert (Ho : fst (classify_segments demo_segments) = Done tt) by (vm_compute; reflexivity).
  destruct (classify_segments demo_segments) as [o w]. cbn in Ho. specialize (Hs Ho "7").
  change (demo_tables demo_segments) with demo_profiles in Hs.
  destruct (profiles demo_profiles !! "7") as [old|] eqn:H7; [|exfalso; vm_compute in H7; discriminate].
  destruct Hs as (row & _ & Hc). by exists old, row.
Defined.
