(* ===== verification/Focus.v ===== *)
(** * One database, several views

    The phases of the user-activity cycle are modelled over the tables each of them
    uses. A [Lens] shows those tables inside the tables of the whole projection; code
    that runs on a view of a database runs on the database, with the laws the view
    inherits, and leaves alone what the lens does not reach. *)

From S2P Require Import Prelude Events Errors PgTx TxCode PgCommon DemoWorld DemoDatabase LeaderboardRefresh UserActivity UserSegments.

Record Lens (T S : Type) := {
  get : T -> S;
  put : S -> T -> T;
  get_put s t : get (put s t) = s
}.
Arguments get {T S} _ _.
Arguments put {T S} _ _ _.
Arguments get_put {T S} _ _ _.

Section Focus.
Context {T S W : Type} `{ReadPool T W} (l : Lens T S).

(** A function on the view, on the whole. *)
Definition over (f : S -> S) (t : T) : T := put l (f (get l t)) t.

Definition focus : ReadPool S W := {|
  read_pool := {| begin_tx := begin_tx; statement := statement; commit_tx f := commit_tx (over f) |};
  fetch A q tx := fetch (fun t => q (get l t)) (over tx) |}.

Lemma focus_laws (tables : W -> T) : ReadLaws tables -> @ReadLaws S W focus (fun w => get l (tables w)).
Proof.
  intros L. split; [split|..]; cbn.
  - intros w. by rewrite (tx_begin _ (read_laws _ L)).
  - intros w. by rewrite (tx_statement _ (read_laws _ L)).
  - intros f w r w' Hc. destruct (tx_commit _ (read_laws _ L) _ _ _ _ Hc) as [->|[-> ?]]; [|by right].
    left. apply get_put.
  - intros A q tx w. by rewrite (read_fetch _ L).
  - intros A q tx w a Ha. rewrite (read_answer _ L _ _ _ _ Ha). unfold over. by rewrite get_put.
Qed.
End Focus.

(** ** What code leaves alone *)

Section Apart.
Context {T W X : Type} `{ReadPool T W} (seen : W -> X).

(** The calls of a pool that is also read do not show in [seen]. *)
Record ReadApart : Prop := {
  apart_pool : PoolApart seen;
  apart_fetch {A} (q : T -> A) tx w : seen (snd (fetch q tx w)) = seen w
}.

Definition code_apart {A} (m : tx_code T W A) : Prop := forall tx w, seen (snd (m tx w)) = seen w.
Definition run_apart {A} (m : W -> outcome A * W) : Prop := forall w, seen (snd (m w)) = seen w.

Lemma apart_ret {A} (a : A) : code_apart (ret a).
Proof. done. Qed.

Lemma apart_bind {A B} (m : tx_code T W A) (k : A -> tx_code T W B) :
  code_apart m -> (forall a, code_apart (k a)) -> code_apart (bind m k).
Proof.
  intros Hm Hk tx w. unfold bind. specialize (Hm tx w). destruct (m tx w) as [[[a tx1]|e|] w1]; [|done..].
  cbn in Hm. by rewrite (Hk a tx1 w1).
Qed.

Lemma apart_each {A} (f : A -> tx_code T W unit) xs : (forall x, code_apart (f x)) -> code_apart (for_each f xs).
Proof. intros Hf. induction xs as [|x xs IH]; [apply apart_ret|]. by apply apart_bind. Qed.

Lemma apart_then {A B} (m : W -> outcome A * W) (k : A -> W -> outcome B * W) :
  run_apart m -> (forall a, run_apart (k a)) -> run_apart (and_then m k).
Proof.
  intros Hm Hk w. unfold and_then. specialize (Hm w). destruct (m w) as [[a|e|] w1]; [|done..].
  cbn in Hm. by rewrite (Hk a w1).
Qed.

Lemma apart_done {A} (a : A) : run_apart (fun w => (Done a, w)).
Proof. done. Qed.

Lemma apart_clock `{Clock W} : (forall w, seen (snd (utc_now w)) = seen w) -> code_apart look_at_clock.
Proof. intros Hc tx w. unfold look_at_clock. specialize (Hc w). by destruct (utc_now w). Qed.

Context (A : ReadApart).

Lemma apart_run_statement f : code_apart (run_statement f).
Proof. intros tx w. unfold run_statement. pose proof (apart_statement _ (apart_pool A) w). by destruct (statement w) as [[|] ?]. Qed.

Lemma apart_run_query {B} (q : T -> B) : code_apart (run_query q).
Proof. intros tx w. unfold run_query. pose proof (apart_fetch A q tx w). by destruct (fetch q tx w) as [[|] ?]. Qed.

Lemma apart_run_returning {B} (q : T -> B) f : code_apart (run_returning q f).
Proof. intros tx w. unfold run_returning. pose proof (apart_fetch A q tx w). by destruct (fetch q tx w) as [[|] ?]. Qed.

Lemma apart_transaction {B} (m : tx_code T W B) : code_apart m -> run_apart (in_transaction m).
Proof.
  intros Hm w. unfold in_transaction. pose proof (apart_begin _ (apart_pool A) w) as H1. destruct (begin_tx w) as [[u|e] w1]; [|done].
  specialize (Hm (fun t => t) w1). destruct (m (fun t => t) w1) as [[[a tx]|e|] w2]; cbn in *; [|congruence..].
  pose proof (apart_commit _ (apart_pool A) tx w2) as H2. destruct (commit_tx tx w2) as [r w3]. cbn in *. congruence.
Qed.
End Apart.

(** What the lens does not reach. *)
Lemma focus_apart {T S W X} `{ReadPool T W} (l : Lens T S) (tables : W -> T) (rest : T -> X) :
  ReadLaws tables -> (forall s t, rest (put l s t) = rest t) ->
  @ReadApart S W X (focus l) (fun w => rest (tables w)).
Proof.
  intros L Hrest. split; [split|]; cbn.
  - intros w. by rewrite (tx_begin _ (read_laws _ L)).
  - intros w. by rewrite (tx_statement _ (read_laws _ L)).
  - intros f w. destruct (commit_tx (over l f) w) as [r w'] eqn:Hc. cbn.
    destruct (tx_commit _ (read_laws _ L) _ _ _ _ Hc) as [->|[-> ?]]; [|done]. apply Hrest.
  - intros A q tx w. by rewrite (read_fetch _ L).
Qed.

Create HintDb apart_db.
#[export] Hint Resolve apart_ret apart_bind apart_each apart_then apart_done apart_clock apart_run_statement
  apart_run_query apart_run_returning apart_transaction : apart_db.

(** *** The phases that are modelled on their own tables *)

Section Phases.
Context {W X : Type} (seen : W -> X) `{Clock W} (Hclock : forall w, seen (snd (utc_now w)) = seen w).

Lemma apart_pool_query `{ReadPool ActivityTables W} {A} (q : ActivityTables -> A) : ReadApart seen -> run_apart seen (pool_query q).
Proof. intros Ha w. unfold pool_query. pose proof (apart_fetch _ Ha q (fun t => t) w). by destruct (fetch _ _ w) as [[|] ?]. Qed.

Lemma apart_pool_execute `{ReadPool ActivityTables W} f : ReadApart seen -> run_apart seen (pool_execute f).
Proof. intros Ha w. unfold pool_execute. pose proof (apart_commit _ (apart_pool _ Ha) f w). by destruct (commit_tx f w) as [[|] ?]. Qed.

Lemma apart_query_now `{ReadPool SegmentTables W} {A} (q : DateTime -> SegmentTables -> A) :
  ReadApart seen -> run_apart seen (query_now q).
Proof.
  intros Ha w. unfold query_now. pose proof (Hclock w) as Hc. destruct (utc_now w) as [now w1]. cbn in Hc.
  pose proof (apart_fetch _ Ha (q now) (fun t => t) w1). destruct (fetch _ _ w1) as [[|] ?]; cbn in *; congruence.
Qed.

Lemma apart_execute_now `{ReadPool SegmentTables W} f : ReadApart seen -> run_apart seen (execute_now f).
Proof.
  intros Ha w. unfold execute_now. pose proof (Hclock w) as Hc. destruct (utc_now w) as [now w1]. cbn in Hc.
  pose proof (apart_commit _ (apart_pool _ Ha) (f now) w1). destruct (commit_tx _ w1) as [[|] ?]; cbn in *; congruence.
Qed.

Lemma apart_rfm `{PgFunctions} `{ReadPool SegmentTables W} ids : ReadApart seen -> run_apart seen (compute_rfm_scores_of ids).
Proof.
  intros Ha. unfold compute_rfm_scores_of. apply apart_then; [by apply apart_query_now|]. intros n.
  by destruct (_ <? _); apply apart_execute_now.
Qed.

Lemma apart_refresh `{HashOrder} `{ReadPool ActivityTables W} : ReadApart seen -> run_apart seen refresh_profiles.
Proof.
  intros Ha. apply apart_then; [by apply apart_transaction, apart_run_returning|]. intros dirty. cbv zeta.
  apply apart_then; [|intros u; apply apart_done]. generalize (chunks PROFILE_BATCH_SIZE (set_iter (list_to_set dirty))).
  intros chunked. induction chunked as [|chunk chunked IH]; cbn [profile_chunks]; [apply apart_done|].
  apply apart_then; [|done]. apply apart_transaction; [done|]. apply apart_bind; [by apply apart_clock|].
  intros now. apply apart_each. intros a. apply apart_bind; [|intros u]; by apply apart_run_statement.
Qed.
End Phases.
