(* ===== verification/TopicAffinity.v ===== *)
(** * Topic affinities

    [crates/projections/src/repo/user_activity_repo.rs], phase 5 of the user-activity
    cycle: how often and with how much capital each account dealt with each term, from
    the position changes, either recomputed from all of them or added up from those
    after a checkpoint, and cut to the best fifty terms of an account. [float8] and
    [REAL] arithmetic is PostgreSQL's and a parameter, as is the order of rows with equal
    scores ([PgFunctions]). *)

From S2P Require Import Prelude Events Errors PgTx TxCode PgCommon DemoWorld DemoDatabase PositionTracking Ingestion ActivityDaily UserSegments.

#[local] Open Scope Z_scope.

(** [ORDER BY] compares [float8]s and [REAL]s: [float8_key] and [real_of] put them among
    the integers in their order. *)
Class Float8 := {
  float8 : Type;
  float8_of : Z -> float8;
  half : float8;
  float8_add : float8 -> float8 -> float8;
  float8_mul : float8 -> float8 -> float8;
  LN : float8 -> float8;
  float8_key : float8 -> Z;
  real_of : float8 -> Z
}.

(** ** The tables *)

Record AffinityRow := {
  interaction_count : Z;
  total_capital_deployed : Z;
  affinity_score : Z;
  last_interaction_at : option DateTime
}.
Record AffinityTables := {
  changes : gmap (string * DateTime) ChangeRow;
  user_topic_affinity : gmap (string * string) AffinityRow
}.
Definition with_affinities (m : gmap (string * string) AffinityRow) (t : AffinityTables) : AffinityTables :=
  {| changes := changes t; user_topic_affinity := m |}.

Definition TOP_N_AFFINITIES : nat := 50.

(** A change with its time. *)
Abbreviation Change := (DateTime * ChangeRow)%type.
Definition all_changes (t : AffinityTables) : list Change :=
  map (fun kv => (snd (fst kv), snd kv)) (map_to_list (changes t)).
Definition topic (c : Change) : string * string := (pc_account_id (snd c), pc_term_id (snd c)).

(** [WHERE pc.ts > $2], [None] without it. *)
Definition after (since : option DateTime) (c : Change) : Prop :=
  match since with Some ts => ts < fst c | None => True end.
#[global] Instance after_dec since c : Decision (after since c).
Proof. destruct since; cbn; apply _. Defined.
Definition scanned (since : option DateTime) (t : AffinityTables) : list Change := filter (after since) (all_changes t).

(** [GREATEST], which leaves [NULL] out, and [MAX]. *)
Definition later (x y : option DateTime) : option DateTime := union_with (fun x y => Some (Z.max x y)) x y.
Definition latest (l : list Change) : option DateTime := foldr (fun c => later (Some (fst c))) None l.

Definition max_ts (since : option DateTime) (t : AffinityTables) : option DateTime := latest (scanned since t).

(** ** The statements *)

Record Interaction := { in_topic : string * string; in_count : Z; in_capital : Z; in_last : option DateTime }.
Definition interaction (k : string * string) (l : list Change) : Interaction := {|
  in_topic := k; in_count := count l; in_capital := sum (fun c => pc_assets_in (snd c)) l; in_last := latest l |}.
(** [GROUP BY account_id, term_id] *)
Definition interactions (l : list Change) : list Interaction :=
  map (fun g => interaction (fst g) (snd g)) (group_by topic l).

Section Statements.
Context `{Float8} `{PgFunctions}.

Definition is_recent (now : DateTime) (last : option DateTime) : bool :=
  match last with Some ts => now - 30 * DAY <? ts | None => false end.
Definition score (now : DateTime) (n capital : Z) (last : option DateTime) : float8 :=
  float8_mul (float8_mul (LN (float8_add (float8_of 1) (float8_of n))) (LN (float8_add (float8_of 1) (float8_of capital))))
    (if is_recent now last then float8_of 1 else half).
Definition interaction_score (now : DateTime) (i : Interaction) : float8 :=
  score now (in_count i) (in_capital i) (in_last i).

(** [ROW_NUMBER() OVER (PARTITION BY account_id ORDER BY score DESC) <= n] *)
Definition top_n {R} (n : nat) (account : R -> string) (score : R -> Z) (rows : list R) : list R :=
  concat (map (fun g => take n (order_by (fun r => - score r) (snd g))) (group_by account rows)).

Definition new_row (now : DateTime) (i : Interaction) : AffinityRow := {|
  interaction_count := in_count i; total_capital_deployed := in_capital i;
  affinity_score := real_of (interaction_score now i); last_interaction_at := in_last i |}.
Definition accumulate (now : DateTime) (old : AffinityRow) (i : Interaction) : AffinityRow :=
  let n := interaction_count old + in_count i in
  let capital := total_capital_deployed old + in_capital i in
  let last := later (last_interaction_at old) (in_last i) in {|
  interaction_count := n; total_capital_deployed := capital;
  affinity_score := real_of (score now n capital last); last_interaction_at := last |}.

(** [INSERT .. SELECT .. FROM scored WHERE rank <= $1 ON CONFLICT .. DO UPDATE SET merge] *)
Definition insert_interactions (now : DateTime) (merge : AffinityRow -> Interaction -> AffinityRow)
    (found : list Interaction) (m : gmap (string * string) AffinityRow) : gmap (string * string) AffinityRow :=
  fold_left (fun m i => upsert (in_topic i) (new_row now i) (fun old => merge old i) m) found m.
Definition best (now : DateTime) (l : list Change) : list Interaction :=
  top_n TOP_N_AFFINITIES (fun i => fst (in_topic i)) (fun i => float8_key (interaction_score now i)) (interactions l).

Definition INCREMENTAL_UPSERT_SQL (since : DateTime) (now : DateTime) (t : AffinityTables) : AffinityTables :=
  with_affinities (insert_interactions now (accumulate now) (best now (scanned (Some since) t)) (user_topic_affinity t)) t.
Definition FULL_UPSERT_SQL (now : DateTime) (t : AffinityTables) : AffinityTables :=
  with_affinities (insert_interactions now (fun _ => new_row now) (best now (scanned None t)) (user_topic_affinity t)) t.

(** [DELETE .. USING ranked WHERE ranked.rn > $1] *)
Definition prune (t : AffinityTables) : AffinityTables :=
  with_affinities (list_to_map (top_n TOP_N_AFFINITIES (fun kv => fst (fst kv)) (fun kv => affinity_score (snd kv))
    (map_to_list (user_topic_affinity t)))) t.

Definition upsert_affinities (since : option DateTime) (now : DateTime) : AffinityTables -> AffinityTables :=
  match since with
  | Some since_ts => INCREMENTAL_UPSERT_SQL since_ts now
  | None => FULL_UPSERT_SQL now
  end.

Context {W : Type} `{Clock W} `{ReadPool AffinityTables W}.

(** [NOW()] is the time the transaction began. *)
Definition compute_topic_affinity (since : option DateTime) : W -> outcome (option DateTime) * W :=
  in_transaction (bind look_at_clock (fun now =>
    bind (run_statement (upsert_affinities since now)) (fun _ =>
    bind (run_query (max_ts since)) (fun max_ts =>
    bind (run_statement prune) (fun _ => ret max_ts))))).

Definition count_topic_affinity_rows (t : AffinityTables) : Z := Z.of_nat (size (user_topic_affinity t)).
End Statements.

(** ** The best rows of each account *)

Section Ranking.
Context `{PgFunctions} {R : Type} (n : nat) (account : R -> string) (rank : R -> Z).
Implicit Types rows : list R.

Lemma group_partition rows ks : NoDup ks -> (forall r, r ∈ rows -> account r ∈ ks) ->
  concat (map (fun k => filter (fun r => account r = k) rows) ks) ≡ₚ rows.
Proof.
  intros Hnd. revert rows. induction Hnd as [|k ks Hk Hnd IH]; intros rows Hall.
  - destruct rows as [|r rows]; [done|]. by destruct (not_elem_of_nil (account r) (Hall r (list_elem_of_here _ _))).
  - cbn [map concat]. transitivity (filter (fun r => account r = k) rows ++ filter (fun r => account r <> k) rows).
    2: by rewrite (filter_app_complement (fun r => account r = k) rows).
    f_equiv. rewrite <- (IH (filter (fun r => account r <> k) rows)).
    + apply Permutation_refl'. f_equal. apply map_ext_in. intros k' Hk'%list_elem_of_In.
      rewrite list_filter_filter. apply filter_ext_in. intros r _. split; [|tauto]. intros <-. split; [done|]. by intros <-.
    + intros r [Hr Hin]%list_elem_of_filter. apply Hall in Hin. apply elem_of_cons in Hin as [?|?]; done.
Qed.

Definition best_of (l : list R) : list R := take n (order_by (fun r => - rank r) l).

Lemma best_of_sub l : best_of l ⊆+ l.
Proof. unfold best_of. rewrite <- (order_by_perm (fun r => - rank r) l) at 2. apply sublist_submseteq, sublist_take. Qed.

Lemma best_of_all l : (length l <= n)%nat -> best_of l ≡ₚ l.
Proof.
  intros Hl. unfold best_of. rewrite take_ge; [apply order_by_perm|].
  by rewrite (Permutation_length (order_by_perm _ l)).
Qed.

(** What is left out ranks no higher than what is kept, and only the excess is left out. *)
Lemma best_of_highest l x y : x ∈ l -> x ∉ best_of l -> y ∈ best_of l -> rank x <= rank y /\ length (best_of l) = n.
Proof.
  intros Hx Hout Hy. unfold best_of in *. set (o := order_by (fun r => - rank r) l) in *.
  assert (Hxo : x ∈ o) by (unfold o; by rewrite order_by_perm). rewrite <- (take_drop n o) in Hxo.
  apply elem_of_app in Hxo as [?|Hxo]; [done|]. apply list_elem_of_lookup in Hxo as [i Hi]. rewrite lookup_drop in Hi.
  apply list_elem_of_lookup in Hy as [j Hj]. apply lookup_take_Some in Hj as [Hj Hlt].
  pose proof (sorted_lookup _ _ j (n + i)%nat y x (order_by_sorted (fun r => - rank r) l) Hj Hi ltac:(lia)) as Hle. cbn in Hle.
  split; [lia|]. rewrite length_take. apply lookup_lt_Some in Hi. lia.
Qed.

Lemma top_n_groups rows : top_n n account rank rows =
  concat (map (fun k => best_of (filter (fun r => account r = k) rows)) (remove_dups (map account rows))).
Proof. unfold top_n, group_by. rewrite map_map. done. Qed.

Lemma concat_sub {A B} (f g : A -> list B) ks : (forall k, f k ⊆+ g k) -> concat (map f ks) ⊆+ concat (map g ks).
Proof. intros Hfg. induction ks as [|k ks IH]; [done|]. cbn. by apply submseteq_app. Qed.

Lemma account_groups rows :
  concat (map (fun k => filter (fun r => account r = k) rows) (remove_dups (map account rows))) ≡ₚ rows.
Proof.
  apply group_partition; [apply NoDup_remove_dups|]. intros r Hr. apply elem_of_remove_dups, list_elem_of_In, in_map.
  by apply list_elem_of_In.
Qed.

Lemma top_n_sub rows : top_n n account rank rows ⊆+ rows.
Proof. rewrite top_n_groups. rewrite <- (account_groups rows) at 2. apply concat_sub. intros k. apply best_of_sub. Qed.

Lemma top_n_all rows : (forall a, (length (filter (fun r => account r = a) rows) <= n)%nat) -> top_n n account rank rows ≡ₚ rows.
Proof.
  intros Hfew. rewrite top_n_groups. rewrite <- (account_groups rows) at 2. generalize (remove_dups (map account rows)).
  intros ks. induction ks as [|k ks IH]; [done|]. cbn [map concat]. f_equiv; [by apply best_of_all|done].
Qed.

Lemma top_n_account rows a : filter (fun r => account r = a) (top_n n account rank rows) =
  best_of (filter (fun r => account r = a) rows).
Proof.
  rewrite top_n_groups, filter_concat, map_map.
  assert (Hsame : forall k, filter (fun r => account r = a) (best_of (filter (fun r => account r = k) rows)) =
    if decide (k = a) then best_of (filter (fun r => account r = a) rows) else []).
  { intros k. assert (Hin : forall r, r ∈ best_of (filter (fun r => account r = k) rows) -> account r = k).
    { intros r Hr. eapply elem_of_submseteq in Hr; [|apply best_of_sub]. by apply list_elem_of_filter in Hr as []. }
    case_decide as Hk; [subst k; by apply filter_all, Forall_forall|]. apply filter_none, Forall_forall. intros r Hr Hra. apply Hk. by rewrite <- Hra, (Hin r). }
  rewrite (map_ext _ _ Hsame). pose proof (NoDup_remove_dups (map account rows)) as Hnd.
  destruct (decide (a ∈ remove_dups (map account rows))) as [Ha|Ha].
  - induction Hnd as [|k ks Hk Hnd IH]; [by apply elem_of_nil in Ha|]. cbn [map concat].
    case_decide as Heq; [subst k|].
    + replace (concat _) with (@nil R); [by rewrite app_nil_r|]. symmetry. clear -Hk. induction ks as [|k ks IH]; [done|].
      cbn. rewrite decide_False by (intros ->; apply Hk; left). apply IH. intros ?. apply Hk. by right.
    + apply IH. apply elem_of_cons in Ha as [->|?]; [done|]. done.
  - assert (Hnone : filter (fun r => account r = a) rows = []).
    { apply filter_none, Forall_forall. intros r Hr Hra. apply Ha, elem_of_remove_dups. rewrite <- Hra. by apply list_elem_of_In, in_map, list_elem_of_In. }
    rewrite Hnone. assert (Hb : best_of [] = []) by (apply Permutation_nil, Permutation_sym, best_of_all; cbn; lia).
    rewrite Hb. clear. induction (remove_dups _) as [|k ks IH]; [done|]. cbn. by case_decide.
Qed.
End Ranking.

(** ** Totals *)

Abbreviation Totals := (Z * Z * option DateTime)%type.

(** What a list of changes says of a topic. *)
Definition totals (k : string * string) (l : list Change) : option Totals :=
  let g := filter (fun c => topic c = k) l in
  if decide (g = []) then None else Some (count g, sum (fun c => pc_assets_in (snd c)) g, latest g).
Definition figures_of (row : AffinityRow) : Totals :=
  (interaction_count row, total_capital_deployed row, last_interaction_at row).
Definition plus_totals (x y : Totals) : Totals :=
  (fst (fst x) + fst (fst y), snd (fst x) + snd (fst y), later (snd x) (snd y)).
Definition plus (x y : option Totals) : option Totals := union_with (fun x y => Some (plus_totals x y)) x y.

Lemma later_assoc x y z : later x (later y z) = later (later x y) z.
Proof. destruct x, y, z; cbn; try done; f_equal; lia. Qed.
Lemma later_comm x y : later x y = later y x.
Proof. destruct x, y; cbn; try done; f_equal; lia. Qed.
Lemma later_none x : later x None = x.
Proof. by destruct x. Qed.

Lemma latest_app l1 l2 : latest (l1 ++ l2) = later (latest l1) (latest l2).
Proof.
  induction l1 as [|c l1 IH]; [change (latest l2 = later None (latest l2)); by destruct (latest l2)|].
  change (later (Some (fst c)) (latest (l1 ++ l2)) = later (later (Some (fst c)) (latest l1)) (latest l2)).
  rewrite IH. apply later_assoc.
Qed.

Lemma latest_bound l c : c ∈ l -> exists ts, latest l = Some ts /\ fst c <= ts.
Proof.
  induction l as [|c' l IH]; [by intros ?%elem_of_nil|]. cbn [latest foldr]. fold (latest l). intros [->|Hc]%elem_of_cons.
  - destruct (latest l) as [ts|]; eexists; cbn; (split; [done|]); lia.
  - destruct (IH Hc) as (ts & -> & Hle). eexists. cbn. split; [done|]. lia.
Qed.

Lemma latest_some l : latest l <> None <-> l <> [].
Proof. destruct l as [|c l]; [done|]. cbn. by destruct (foldr _ None l). Qed.

Lemma sum_app {V} (f : V -> Z) l k : sum f (l ++ k) = sum f l + sum f k.
Proof. induction l as [|v l IH]; [done|]. cbn [app]. rewrite !sum_cons, IH. lia. Qed.

Lemma totals_app k l1 l2 : totals k (l1 ++ l2) = plus (totals k l1) (totals k l2).
Proof.
  unfold totals. cbv zeta. rewrite filter_app. set (g1 := filter _ l1). set (g2 := filter _ l2).
  destruct (decide (g1 = [])) as [->|H1]; [cbn [app]; by destruct (decide (g2 = []))|].
  rewrite decide_False by (by intros [? _]%app_eq_nil).
  destruct (decide (g2 = [])) as [->|H2]; [by rewrite app_nil_r|].
  unfold plus, plus_totals. cbn. rewrite sum_app, latest_app. unfold count. rewrite length_app. do 3 f_equal. lia.
Qed.

#[global] Instance latest_proper : Proper ((≡ₚ) ==> eq) latest.
Proof.
  induction 1 as [|c l l' _ IH|c c' l|l1 l2 l3 _ IH1 _ IH2]; [done|cbn; unfold latest in IH; by rewrite IH| |congruence].
  cbn. rewrite !later_assoc. f_equal. apply later_comm.
Qed.

#[global] Instance sum_proper {V} (f : V -> Z) : Proper ((≡ₚ) ==> eq) (sum f).
Proof.
  induction 1 as [|v l l' _ IH|v v' l|l1 l2 l3 _ IH1 _ IH2]; rewrite ?sum_cons; [done|by rewrite IH|lia|congruence].
Qed.

#[global] Instance totals_proper k : Proper ((≡ₚ) ==> eq) (totals k).
Proof.
  intros l l' Hl. unfold totals. cbv zeta. assert (Hg := filter_Permutation (fun c => topic c = k) _ _ Hl).
  set (g := filter _ l) in *. set (g' := filter _ l') in *.
  destruct (decide (g = [])) as [E|E].
  - rewrite E in Hg. apply Permutation_nil in Hg. by rewrite Hg.
  - rewrite decide_False by (intros E'; rewrite E' in Hg; by apply E, Permutation_nil, Permutation_sym).
    unfold count. by rewrite Hg.
Qed.

Lemma totals_none k l : totals k l = None <-> k ∉ map topic l.
Proof.
  unfold totals. cbv zeta. split.
  - case_decide as E; [|done]. intros _ (c & -> & Hc)%list_elem_of_fmap.
    apply (not_elem_of_nil c). rewrite <- E. by apply list_elem_of_filter.
  - intros Hk. rewrite decide_True; [done|]. apply filter_none, Forall_forall. intros c Hc <-. apply Hk.
    by apply list_elem_of_fmap_2.
Qed.

(** The interactions of the changes are their totals, one per topic. *)
Lemma interactions_topics l : map in_topic (interactions l) = remove_dups (map topic l).
Proof. unfold interactions, group_by. rewrite !map_map. cbn. apply map_id. Qed.

Lemma interactions_totals l i : i ∈ interactions l -> totals (in_topic i) l = Some (in_count i, in_capital i, in_last i).
Proof.
  unfold interactions, group_by. rewrite map_map. intros (k & -> & Hk)%list_elem_of_fmap. cbn.
  rewrite elem_of_remove_dups in Hk. unfold totals. cbv zeta. rewrite decide_False; [done|].
  intros E. apply list_elem_of_fmap in Hk as (c & -> & Hc). apply (not_elem_of_nil c). rewrite <- E. by apply list_elem_of_filter.
Qed.

(** ** Upserts *)

Section Upserts.
Context `{Float8} `{PgFunctions}.
Implicit Types (m : gmap (string * string) AffinityRow) (l : list Change).

Lemma inserted now merge found m : NoDup (map in_topic found) ->
  (forall i, i ∈ found -> insert_interactions now merge found m !! in_topic i =
    Some (match m !! in_topic i with None => new_row now i | Some old => merge old i end)) /\
  (forall k, k ∉ map in_topic found -> insert_interactions now merge found m !! k = m !! k).
Proof.
  unfold insert_interactions. revert m. induction found as [|i found IH]; intros m Hnd; [by split; [intros i ?%not_elem_of_nil|]|].
  apply NoDup_cons in Hnd as [Hi Hnd]. destruct (IH (upsert (in_topic i) (new_row now i) (fun old => merge old i) m) Hnd) as [Hin Hout].
  cbn [fold_left]. split.
  - intros j [->|Hj]%elem_of_cons.
    + rewrite Hout by done. apply upsert_same.
    + rewrite Hin by done. rewrite upsert_other; [done|]. intros E. apply Hi. rewrite E. by apply (list_elem_of_fmap_2 in_topic).
  - intros k Hk. rewrite Hout by (intros ?; apply Hk; by right). apply upsert_other. intros E. apply Hk. rewrite <- E. left.
Qed.

(** No account has more than [TOP_N_AFFINITIES] topics among some keys. *)
Definition few (ks : list (string * string)) : Prop :=
  forall a, (length (filter (fun k => fst k = a) (remove_dups ks)) <= TOP_N_AFFINITIES)%nat.

Lemma few_keys {R} (key : R -> string * string) (rows : list R) ks a :
  few ks -> NoDup (map key rows) -> (forall r, r ∈ rows -> key r ∈ ks) ->
  (length (filter (fun r => fst (key r) = a) rows) <= TOP_N_AFFINITIES)%nat.
Proof.
  intros Hfew Hnd Hin. etransitivity; [|apply (Hfew a)].
  rewrite <- (length_map key). apply submseteq_length, NoDup_submseteq.
  - apply (sublist_NoDup _ (map key rows)); [done|]. apply (fmap_sublist key), sublist_filter.
  - intros k (r & -> & Hr)%list_elem_of_fmap. apply list_elem_of_filter in Hr as [Ha Hr].
    apply list_elem_of_filter. split; [done|]. by apply elem_of_remove_dups, Hin.
Qed.

Lemma best_few now l ks : few ks -> (forall c, c ∈ l -> topic c ∈ ks) -> best now l ≡ₚ interactions l.
Proof.
  intros Hfew Hin. apply top_n_all. intros a. apply (few_keys in_topic _ ks a Hfew).
  - rewrite interactions_topics. apply NoDup_remove_dups.
  - intros i Hi. apply (list_elem_of_fmap_2 in_topic) in Hi. change (in_topic <$> interactions l) with (map in_topic (interactions l)) in Hi.
    rewrite interactions_topics, elem_of_remove_dups in Hi. apply list_elem_of_fmap in Hi as (c & -> & Hc). by apply Hin.
Qed.

Lemma submseteq_NoDup {A} (l k : list A) : l ⊆+ k -> NoDup k -> NoDup l.
Proof. intros [k' ->]%submseteq_Permutation Hnd. by apply NoDup_app in Hnd as [? _]. Qed.

Lemma best_topics now l : NoDup (map in_topic (best now l)).
Proof.
  assert (Hs : map in_topic (best now l) ⊆+ map in_topic (interactions l)) by apply fmap_submseteq, top_n_sub.
  apply (submseteq_NoDup _ _ Hs). rewrite interactions_topics. apply NoDup_remove_dups.
Qed.

Lemma inserted_figures now merge l m ks :
  few ks -> (forall c, c ∈ l -> topic c ∈ ks) ->
  forall k, insert_interactions now merge (best now l) m !! k =
    match totals k l with
    | None => m !! k
    | Some _ => let i := interaction k (filter (fun c => topic c = k) l) in
                Some (match m !! k with None => new_row now i | Some old => merge old i end)
    end.
Proof.
  intros Hfew Hin k. destruct (inserted now merge (best now l) m (best_topics now l)) as [Hi Ho].
  pose proof (best_few now l ks Hfew Hin) as Hp. destruct (totals k l) as [x|] eqn:Ht.
  - assert (Hk : k ∈ map topic l) by (apply dec_stable; intros Hk%totals_none; congruence).
    assert (Hb : interaction k (filter (fun c => topic c = k) l) ∈ best now l).
    { rewrite Hp. unfold interactions, group_by. rewrite map_map. apply list_elem_of_fmap. exists k. split; [done|].
      by apply elem_of_remove_dups. }
    exact (Hi _ Hb).
  - apply Ho. apply totals_none in Ht. contradict Ht.
    assert (Hs : k ∈ map in_topic (interactions l)) by (change (k ∈ in_topic <$> interactions l); by rewrite <- Hp).
    by rewrite interactions_topics, elem_of_remove_dups in Hs.
Qed.

Lemma totals_interaction k l x : totals k l = Some x ->
  let i := interaction k (filter (fun c => topic c = k) l) in x = (in_count i, in_capital i, in_last i).
Proof. unfold totals. cbv zeta. case_decide; [done|]. by intros [= <-]. Qed.

Lemma prune_few t ks : few ks -> (forall k, is_Some (user_topic_affinity t !! k) -> k ∈ ks) -> prune t = t.
Proof.
  intros Hfew Hin. unfold prune. destruct t as [ch m]. cbn in *. unfold with_affinities. cbn. f_equal.
  transitivity (list_to_map (M := gmap _ _) (map_to_list m)); [|apply list_to_map_to_list]. symmetry. apply list_to_map_proper.
  - apply NoDup_fst_map_to_list.
  - symmetry. apply top_n_all. intros a. apply (few_keys fst _ ks a Hfew); [apply NoDup_fst_map_to_list|].
    intros [k row] Hk%elem_of_map_to_list. apply Hin. by exists row.
Qed.

(** ** The running totals *)

Definition up_to (c : option DateTime) (t : AffinityTables) : list Change :=
  match c with Some ts => filter (fun x => fst x <= ts) (all_changes t) | None => [] end.

(** The affinities are the totals of the changes up to [c]. *)
Definition counted (c : option DateTime) (t : AffinityTables) : Prop :=
  forall k, figures_of <$> user_topic_affinity t !! k = totals k (up_to c t).
(** No account has dealt with more terms than are kept. *)
Definition few_terms (t : AffinityTables) : Prop := few (map topic (all_changes t)).
(** Every affinity is of a topic with changes. *)
Definition grounded (t : AffinityTables) : Prop :=
  forall k, is_Some (user_topic_affinity t !! k) -> k ∈ map topic (all_changes t).

Lemma up_to_after ts t : all_changes t ≡ₚ up_to (Some ts) t ++ scanned (Some ts) t.
Proof.
  unfold scanned. cbn. rewrite <- (filter_app_complement (fun x : Change => fst x <= ts) (all_changes t)) at 1. f_equiv.
  apply Permutation_refl', filter_ext_in. intros c _. cbn. lia.
Qed.

Lemma counted_grounded c t : counted c t -> grounded t.
Proof.
  intros Hc k [row Hk]. specialize (Hc k). rewrite Hk in Hc.
  assert (Hin : k ∈ map topic (up_to c t)) by (apply dec_stable; intros Hn%totals_none; rewrite Hn in Hc; done).
  destruct c as [ts|]; [|by apply elem_of_nil in Hin]. apply list_elem_of_fmap in Hin as (x & -> & Hx).
  apply list_elem_of_filter in Hx as [_ Hx]. by apply (list_elem_of_fmap_2 topic).
Qed.

(** A recompute, and an increment from where the totals stand. *)
Lemma full_counts now t : few_terms t -> grounded t ->
  prune (FULL_UPSERT_SQL now t) = FULL_UPSERT_SQL now t /\
  (forall k, user_topic_affinity (FULL_UPSERT_SQL now t) !! k =
    (fun _ => new_row now (interaction k (filter (fun c => topic c = k) (all_changes t)))) <$> totals k (all_changes t)).
Proof.
  intros Hfew Hg. assert (Hs : scanned None t = all_changes t) by by apply filter_all, Forall_forall.
  assert (Hl : forall k, user_topic_affinity (FULL_UPSERT_SQL now t) !! k =
    (fun _ => new_row now (interaction k (filter (fun c => topic c = k) (all_changes t)))) <$> totals k (all_changes t)).
  { intros k. unfold FULL_UPSERT_SQL. cbn. rewrite Hs, (inserted_figures now _ _ _ _ Hfew).
    2: intros c Hc; by apply (list_elem_of_fmap_2 topic).
    destruct (totals k (all_changes t)) eqn:Ht; cbn; [by destruct (user_topic_affinity t !! k)|].
    apply totals_none in Ht. apply eq_None_not_Some. intros Hk. by apply Ht, Hg. }
  split; [|done]. apply (prune_few _ _ Hfew). intros k [row Hk]. rewrite Hl in Hk. apply dec_stable. intros Hn%totals_none.
  by rewrite Hn in Hk.
Qed.

Lemma increment_adds since now t : few_terms t -> grounded t ->
  prune (INCREMENTAL_UPSERT_SQL since now t) = INCREMENTAL_UPSERT_SQL since now t /\
  (forall k, figures_of <$> user_topic_affinity (INCREMENTAL_UPSERT_SQL since now t) !! k =
    plus (figures_of <$> user_topic_affinity t !! k) (totals k (scanned (Some since) t))).
Proof.
  intros Hfew Hg.
  assert (Hin : forall c, c ∈ scanned (Some since) t -> topic c ∈ map topic (all_changes t)).
  { intros c [_ Hc]%list_elem_of_filter. by apply (list_elem_of_fmap_2 topic). }
  assert (Hl : forall k, figures_of <$> user_topic_affinity (INCREMENTAL_UPSERT_SQL since now t) !! k =
    plus (figures_of <$> user_topic_affinity t !! k) (totals k (scanned (Some since) t))).
  { intros k. unfold INCREMENTAL_UPSERT_SQL. cbn [user_topic_affinity with_affinities]. rewrite (inserted_figures now _ _ _ _ Hfew Hin).
    destruct (totals k (scanned (Some since) t)) as [x|] eqn:Ht; [|by destruct (user_topic_affinity t !! k)].
    apply totals_interaction in Ht. rewrite Ht. by destruct (user_topic_affinity t !! k). }
  split; [|done]. apply (prune_few _ _ Hfew). intros k [row Hk]. apply dec_stable. intros Hn.
  specialize (Hl k). rewrite Hk in Hl. rewrite (proj2 (totals_none k _)) in Hl.
  - destruct (user_topic_affinity t !! k) eqn:Ho; [by apply Hn, Hg|done].
  - contradict Hn. apply list_elem_of_fmap in Hn as (c & -> & Hc). by apply Hin.
Qed.

(** The affinities of [a'] are the totals of all the changes of [a]. *)
Definition up_to_date (a a' : AffinityTables) : Prop :=
  changes a' = changes a /\ forall k, figures_of <$> user_topic_affinity a' !! k = totals k (all_changes a).

Lemma recompute_up_to_date now a : few_terms a -> grounded a -> up_to_date a (prune (FULL_UPSERT_SQL now a)).
Proof.
  intros Hfew Hg. destruct (full_counts now a Hfew Hg) as [-> Hl]. split; [done|]. intros k. rewrite Hl.
  destruct (totals k (all_changes a)) as [x|] eqn:Ht; [|done]. apply totals_interaction in Ht. by rewrite Ht.
Qed.

Lemma increment_up_to_date c now a : few_terms a -> counted (Some c) a -> up_to_date a (prune (INCREMENTAL_UPSERT_SQL c now a)).
Proof.
  intros Hfew Hc. destruct (increment_adds c now a Hfew (counted_grounded _ _ Hc)) as [-> Hl]. split; [done|].
  intros k. rewrite Hl, (up_to_after c a), totals_app. f_equal. apply Hc.
Qed.

Lemma up_to_date_counted a a' ts : up_to_date a a' -> (forall x, x ∈ all_changes a -> fst x <= ts) -> counted (Some ts) a'.
Proof.
  intros [Hch Hf] Hall k. rewrite Hf. f_equal. unfold up_to, all_changes in *. rewrite Hch. symmetry.
  apply filter_all, Forall_forall. exact Hall.
Qed.

Lemma up_to_date_grounded a a' : up_to_date a a' -> grounded a'.
Proof.
  intros [Hch Hf] k [row Hk]. specialize (Hf k). rewrite Hk in Hf. unfold all_changes in *. rewrite Hch.
  apply dec_stable. intros Hn%totals_none. by rewrite Hn in Hf.
Qed.

Lemma latest_elem l ts : latest l = Some ts -> exists x, x ∈ l /\ fst x = ts.
Proof.
  revert ts. induction l as [|x l IH]; intros ts; [done|]. cbn [latest foldr]. fold (latest l).
  destruct (latest l) as [ts1|]; cbn; intros [= <-]; [|by exists x; split; [left|]].
  destruct (IH ts1 eq_refl) as (y & Hy & <-). destruct (Z.max_spec (fst x) (fst y)) as [[_ ->]|[_ ->]].
  - exists y. split; [by right|done].
  - exists x. split; [left|done].
Qed.

(** No change is later than the checkpoint a computation leaves. *)
Lemma checkpoint_bounds since old a ts x : (forall c, since = Some c -> old = Some c) ->
  match max_ts since a with Some ts' => Some ts' | None => old end = Some ts -> x ∈ all_changes a -> fst x <= ts.
Proof.
  intros Hold Hts Hx. unfold max_ts in Hts. destruct (decide (after since x)) as [Ha|Ha].
  - destruct (latest_bound (scanned since a) x) as (ts' & E & ?); [by apply list_elem_of_filter|]. rewrite E in Hts. by injection Hts as <-.
  - destruct since as [c|]; [|by destruct Ha]. cbn in Ha. rewrite (Hold c eq_refl) in Hts.
    destruct (latest (scanned (Some c) a)) as [ts'|] eqn:E; injection Hts as <-; [|lia].
    apply latest_elem in E as (y & Hy & <-). apply list_elem_of_filter in Hy as [Hy _]. cbn in Hy. lia.
Qed.
End Upserts.

(** ** The computation *)

Section Computation.
Context `{Float8} `{PgFunctions} {W : Type} `{Clock W} `{ReadPool AffinityTables W} (tables : W -> AffinityTables).
Context (L : ReadLaws tables) (Hclock : clock_apart tables).

Lemma upserts_changes since now t : changes (upsert_affinities since now t) = changes t.
Proof. by destruct since. Qed.

(** What a computation does to the tables, and what it answers. *)
Definition computes (since : option DateTime) (t : AffinityTables) (last : option DateTime) (t' : AffinityTables) : Prop :=
  last = max_ts since t /\ exists now, t' = prune (upsert_affinities since now t).

Lemma compute_outcome since w :
  let '(o, w') := compute_topic_affinity since w in
  match o with
  | Done last => computes since (tables w) last (tables w')
  | Failed _ => tables w' = tables w \/ exists last, computes since (tables w) last (tables w')
  | Panicked => False
  end.
Proof.
  apply (in_transaction_performs tables L). eapply performs_weaken; [|apply performs_bind; [by apply performs_clock|intros now;
    apply performs_bind; [apply yields_performs, (yields_statement tables L)|intros u;
    apply performs_bind; [apply yields_performs, (yields_query tables L)|intros m;
    apply performs_bind; [apply yields_performs, (yields_statement tables L)|intros u'; apply performs_ret]]]]].
  cbn. intros t last t' (now & t0 & -> & u & t1 & [= _ <-] & m & t2 & [= <- <-] & u' & t3 & [= _ <-] & -> & ->).
  split; [|by exists now]. unfold max_ts, scanned, all_changes. by rewrite upserts_changes.
Qed.

End Computation.

(** ** Properties *)

Definition affinities_of (a : string) (t : AffinityTables) : list (string * string * AffinityRow) :=
  filter (fun kv => fst (fst kv) = a) (map_to_list (user_topic_affinity t)).

Lemma pruned_of `{Float8} `{PgFunctions} a t :
  affinities_of a (prune t) ≡ₚ best_of TOP_N_AFFINITIES (fun kv => affinity_score (snd kv)) (affinities_of a t).
Proof.
  unfold affinities_of, prune. cbn. rewrite map_to_list_to_map.
  - by rewrite (top_n_account TOP_N_AFFINITIES (fun kv : string * string * AffinityRow => fst (fst kv))).
  - eapply submseteq_NoDup; [|apply (NoDup_fst_map_to_list (user_topic_affinity t))].
    apply (fmap_submseteq fst), top_n_sub.
Qed.

(** C26 (at most fifty affinities). After a computation, incremental or full, no account
    has more than fifty affinities: they are the best rows the upsert left, and a row is
    dropped only when fifty others of its account score at least as high. A computation
    that fails has done all of that or nothing. *)
Theorem affinities_capped `{Float8} `{PgFunctions} {W} `{Clock W} `{ReadPool AffinityTables W}
  (tables : W -> AffinityTables) (since : option DateTime) (w : W)
  (L : ReadLaws tables) (Hclock : clock_apart tables) :
  let '(o, w') := compute_topic_affinity since w in
  match o with
  | Panicked => False
  | Failed _ => tables w' = tables w \/ forall a, (length (affinities_of a (tables w')) <= TOP_N_AFFINITIES)%nat
  | Done last => last = max_ts since (tables w) /\ exists now, let upserted := upsert_affinities since now (tables w) in
      forall a, (length (affinities_of a (tables w')) <= TOP_N_AFFINITIES)%nat /\
        (forall x, x ∈ affinities_of a (tables w') -> x ∈ affinities_of a upserted) /\
        (forall x y, x ∈ affinities_of a upserted -> x ∉ affinities_of a (tables w') -> y ∈ affinities_of a (tables w') ->
          affinity_score (snd x) <= affinity_score (snd y) /\ length (affinities_of a (tables w')) = TOP_N_AFFINITIES)
  end.
Proof.
  assert (Hcap : forall t a, (length (affinities_of a (prune t)) <= TOP_N_AFFINITIES)%nat).
  { intros t a. rewrite pruned_of. unfold best_of. rewrite length_take. lia. }
  pose proof (compute_outcome tables L Hclock since w) as Ho. destruct (compute_topic_affinity since w) as [[last|e|] w']; [|..|done].
  2: { destruct Ho as [?|(last & _ & now & ->)]; [by left|right; intros a; apply Hcap]. }
  destruct Ho as (-> & now & ->). split; [done|]. exists now. cbv zeta. intros a. split; [apply Hcap|]. split.
  - intros x Hx. rewrite pruned_of in Hx. eapply elem_of_submseteq; [exact Hx|apply best_of_sub].
  - intros x y Hx Hout Hy. rewrite pruned_of in Hout, Hy |- *.
    exact (best_of_highest _ (fun kv => affinity_score (snd kv)) _ _ _ Hx Hout Hy).
Qed.

(** (a change between two statements is lost). The upsert and the query of the latest
    time are two statements of a transaction that sees, at PostgreSQL's default level,
    what has been committed before each of them. A change that is in the snapshot of the
    second and not of the first is at or before the checkpoint the query answers, so no
    later increment reads it. *)
Theorem change_between_is_lost (since checkpoint : option DateTime) (first second later_on : AffinityTables) (x : Change)
  (Hbetween : x ∈ scanned since second /\ x ∉ scanned since first) (Hquery : max_ts since second = checkpoint) :
  x ∉ scanned checkpoint later_on.
Proof.
  destruct Hbetween as [Hx _]. destruct (latest_bound _ _ Hx) as (ts & E & Hle). unfold max_ts in Hquery. rewrite E in Hquery.
  subst checkpoint. intros [Hlt _]%list_elem_of_filter. cbn in Hlt. lia.
Qed.

(** ** Concrete tables *)

(** Scores that are exact. *)
#[global] Instance demo_float8 : Float8 := {|
  float8 := Z; float8_of z := 2 * z; half := 1; float8_add := Z.add; float8_mul := Z.mul; LN x := x; float8_key x := x; real_of x := x |}.
#[global] Instance affinities_clock : Clock (demo AffinityTables) := {| utc_now w := (100 * DAY, w) |}.
#[global] Instance no_affinities : EmptyTables AffinityTables := {| changes := ∅; user_topic_affinity := ∅ |}.

Definition demo_change (term_id : string) (assets_in : Z) : ChangeRow := {|
  pc_account_id := "0xa"; pc_term_id := term_id; pc_curve_id := "1"; pc_event_type := "Deposited"; pc_shares_delta := assets_in;
  pc_assets_in := assets_in; pc_assets_out := 0; pc_execution_price := of_int 0; pc_block_number := 1; pc_transaction_hash := "0xt" |}.

(** Sixty terms, the [i]-th with [i] assets on day [90]. *)
Definition demo_changes : AffinityTables := {|
  changes := list_to_map (map (fun i =>
    ((pretty.pretty (Z.of_nat i), 90 * DAY), demo_change (pretty.pretty (Z.of_nat i)) (Z.of_nat i))) (seq 0 60));
  user_topic_affinity := ∅ |}.
Definition demo_affinities : demo AffinityTables := demo_database demo_changes [].

Example demo_capped :
  let t := demo_tables (snd (compute_topic_affinity None demo_affinities)) in
  (size (user_topic_affinity t), map (fun k => figures_of <$> user_topic_affinity t !! ("0xa", k)) ["9"; "10"]) =
    (50%nat, [None; Some (1, 10, Some (90 * DAY))]).
Proof. vm_compute. reflexivity. Qed.

(** A row that drifted is corrected only if its term is among the best fifty: with a
    capital counted too high for term [0], the smallest, a recompute keeps the row. *)
Definition demo_drifted : AffinityTables := {|
  changes := changes demo_changes;
  user_topic_affinity := {[("0xa", "0") := {| interaction_count := 2; total_capital_deployed := 1000;
    affinity_score := 24000; last_interaction_at := Some (90 * DAY) |}]} |}.
Example drift_survives :
  figures_of <$> user_topic_affinity (demo_tables (snd (compute_topic_affinity None (demo_database demo_drifted [])))) !! ("0xa", "0")
    = Some (2, 1000, Some (90 * DAY)).
Proof. vm_compute. reflexivity. Qed.

Lemma affinities_capped_witness :
  (length (affinities_of "0xa" (demo_tables (snd (compute_topic_affinity None demo_affinities)))) <= TOP_N_AFFINITIES)%nat.
Proof.
  pose proof (affinities_capped demo_tables None demo_affinities demo_read_laws (fun w => eq_refl)) as Hc.
  assert (Hd : exists last, fst (compute_topic_affinity None demo_affinities) = Done last) by (eexists; vm_compute; reflexivity).
  destruct (compute_topic_affinity None demo_affinities) as [[last|e|] w'];
    [|destruct Hd as [? Hd]; discriminate Hd..].
  destruct Hc as (_ & now & Hc). exact (proj1 (Hc "0xa")).
Defined.

Lemma change_between_is_lost_witness :
  (90 * DAY, demo_change "7" 7) ∉ scanned (Some (90 * DAY)) demo_changes.
Proof.
  apply (change_between_is_lost None (Some (90 * DAY)) no_affinities demo_changes demo_changes).
  - split; [|apply not_elem_of_nil]. apply list_elem_of_filter. split; [exact I|].
    apply list_elem_of_fmap. exists (("7", 90 * DAY), demo_change "7" 7). split; [reflexivity|]. apply elem_of_map_to_list.
    vm_compute. reflexivity.
  - vm_compute. reflexivity.
Defined.
