(* ===== verification/RetentionCohorts.v ===== *)
(** * Retention cohorts

    [crates/projections/src/repo/user_activity_repo.rs], phase 6 of the user-activity
    cycle: per account, the weeks since the week it was first seen in which it acted, and
    how often, rolled up from the daily rollups. Weeks begin on Monday, in UTC; day [0] is
    a Thursday. *)

From S2P Require Import Prelude Events Errors PgTx TxCode PgCommon DemoWorld DemoDatabase ActivityDaily.

Record CohortRow := { was_active : bool; action_count : Z }.

(** The [account] table, the daily rollups, and the cohorts by account, week and offset. *)
Record CohortTables := {
  account_seen : gmap string DateTime;
  rollups : gmap (string * DateTime) DailyRollup;
  user_retention_cohort : gmap (string * DateTime * Z) CohortRow
}.
Definition with_cohorts (m : gmap (string * DateTime * Z) CohortRow) (t : CohortTables) : CohortTables := {|
  account_seen := account_seen t; rollups := rollups t; user_retention_cohort := m |}.

Definition WEEK : Z := 7 * DAY.

(** [date_trunc('week', ts)] *)
Definition week_of (ts : DateTime) : DateTime := let d := date_of ts in midnight (d - (d + 3) mod 7).

Definition actions (r : DailyRollup) : Z := atoms_created r + triples_created r + deposits_count r + redemptions_count r.

Definition all_rollups (t : CohortTables) : list DailyRollup := map snd (map_to_list (rollups t)).

(** The [account_id] and the week of a rollup are those of its key. *)
Definition keyed_rollups (t : CohortTables) : list (string * DateTime * DailyRollup) := map_to_list (rollups t).
Definition week_key (kv : string * DateTime * DailyRollup) : string * DateTime := (fst (fst kv), week_of (snd (fst kv))).

(** [GROUP BY account_id, date_trunc('week', day) HAVING SUM(..) > 0] *)
Definition weekly_activity (t : CohortTables) : list (string * DateTime * Z) :=
  filter (fun wa => 0 < snd wa)
    (map (fun g => (fst g, sum (fun kv => actions (snd kv)) (snd g))) (group_by week_key (keyed_rollups t))).

(** [EXTRACT(DAYS FROM activity_week - cohort_week)::integer / 7] *)
Definition period_offset (activity_week cohort_week : DateTime) : Z := Z.quot (Z.quot (activity_week - cohort_week) DAY) 7.

(** The rows of the [JOIN] on [account_id] and [activity_week >= cohort_week]. *)
Definition cohort_rows (t : CohortTables) : list (string * DateTime * Z * Z) :=
  omap (fun wa =>
    let '(a, activity_week, n) := wa in
    seen ← account_seen t !! a;
    let cohort_week := week_of seen in
    if cohort_week <=? activity_week then Some (a, cohort_week, period_offset activity_week cohort_week, n) else None)
    (weekly_activity t).

Definition upsert_cohort (row : string * DateTime * Z * Z) (m : gmap (string * DateTime * Z) CohortRow) :=
  upsert (fst row) {| was_active := true; action_count := snd row |} (fun _ => {| was_active := true; action_count := snd row |}) m.

Definition cohort_upserts (t : CohortTables) : CohortTables :=
  with_cohorts (fold_left (fun m row => upsert_cohort row m) (cohort_rows t) (user_retention_cohort t)) t.

Definition compute_retention_cohorts {W} `{ReadPool CohortTables W} (w : W) : outcome unit * W :=
  let '(r, w) := commit_tx cohort_upserts w in (match r with Ok _ => Done tt | Err e => Failed e end, w).

(** ** Weeks *)

Lemma day_positive : 0 < DAY.
Proof. done. Qed.

Lemma week_monday ts : exists n, week_of ts = midnight (7 * n - 3).
Proof.
  unfold week_of. cbv zeta. exists ((date_of ts + 3) / 7). f_equal.
  pose proof (Z.div_mod (date_of ts + 3) 7 ltac:(lia)). lia.
Qed.

Lemma week_contains ts : week_of ts <= ts < week_of ts + WEEK.
Proof.
  unfold week_of, WEEK, midnight. cbv zeta. pose proof (Z.mod_pos_bound (date_of ts + 3) 7 ltac:(lia)).
  unfold date_of in *. pose proof (Z.div_mod ts DAY ltac:(done)). pose proof (Z.mod_pos_bound ts DAY day_positive).
  pose proof day_positive. nia.
Qed.

(** Weeks are whole numbers of weeks apart. *)
Lemma weeks_apart ts seen : week_of seen <= week_of ts ->
  0 <= period_offset (week_of ts) (week_of seen) /\ week_of ts = week_of seen + period_offset (week_of ts) (week_of seen) * WEEK.
Proof.
  destruct (week_monday ts) as [n ->], (week_monday seen) as [m ->]. unfold period_offset, midnight, WEEK. intros Hle.
  pose proof day_positive.
  replace ((7 * n - 3) * DAY - (7 * m - 3) * DAY) with ((7 * (n - m)) * DAY) by ring.
  rewrite Z.quot_mul by lia. replace (7 * (n - m)) with ((n - m) * 7) by ring. rewrite Z.quot_mul by lia. nia.
Qed.

(** ** What a computation writes *)

(** The actions of an account in a week. *)
Definition week_actions (t : CohortTables) (a : string) (week : DateTime) : Z :=
  sum (fun kv => actions (snd kv)) (filter (fun kv => week_key kv = (a, week)) (keyed_rollups t)).

Lemma weekly_elem t a week n :
  (a, week, n) ∈ weekly_activity t <->
  n = week_actions t a week /\ 0 < n /\ exists ts, week_of ts = week /\ is_Some (rollups t !! (a, ts)).
Proof.
  unfold weekly_activity, group_by. rewrite map_map, list_elem_of_filter. cbn. rewrite list_elem_of_fmap. split.
  - intros (Hn & k & [= <- Hs] & Hk). split; [exact Hs|]. split; [done|]. rewrite elem_of_remove_dups in Hk.
    apply list_elem_of_fmap in Hk as ([[b ts] r] & [= -> ->] & Hr%elem_of_map_to_list). exists ts. split; [done|]. by exists r.
  - intros (-> & Hn & ts & <- & r & Hr). split; [done|]. exists (a, week_of ts). split; [done|].
    apply elem_of_remove_dups, list_elem_of_fmap. exists (a, ts, r). split; [done|]. by apply elem_of_map_to_list.
Qed.

(** A week with actions has a rollup. *)
Lemma acted_has_rollup t a week : 0 < week_actions t a week -> exists ts, week_of ts = week /\ is_Some (rollups t !! (a, ts)).
Proof.
  unfold week_actions. destruct (filter _ (keyed_rollups t)) as [|[[b ts] r] l] eqn:E; [by rewrite sum_nil|]. intros _.
  assert (Hin : (b, ts, r) ∈ filter (fun kv => week_key kv = (a, week)) (keyed_rollups t)) by (rewrite E; left).
  apply list_elem_of_filter in Hin as [[= <- <-] Hr%elem_of_map_to_list]. exists ts. split; [done|]. by exists r.
Qed.

(** What the cohort of an account has at an offset. *)
Definition cohort_entry (t : CohortTables) (key : string * DateTime * Z) : option CohortRow :=
  let '(a, cohort_week, offset) := key in
  seen ← account_seen t !! a;
  if decide (cohort_week = week_of seen /\ 0 <= offset /\ 0 < week_actions t a (cohort_week + offset * WEEK)) then
    Some {| was_active := true; action_count := week_actions t a (cohort_week + offset * WEEK) |}
  else None.

Lemma cohort_rows_elem t key n :
  (key, n) ∈ cohort_rows t <-> cohort_entry t key = Some {| was_active := true; action_count := n |}.
Proof.
  destruct key as [[a cohort_week] offset]. unfold cohort_rows, cohort_entry. rewrite list_elem_of_omap. split.
  - intros ([[b week] m] & (Hm & Hpos & ts & <- & _)%weekly_elem & Hrow).
    destruct (account_seen t !! b) as [seen|] eqn:Hs; [|done]. cbn in Hrow. destruct (Z.leb_spec (week_of seen) (week_of ts)) as [Hle|]; [|done].
    injection Hrow as <- <- <- <-. rewrite Hs. cbn. destruct (weeks_apart ts seen Hle) as [Ho Hw]. rewrite <- Hw.
    rewrite decide_True; [by rewrite <- Hm|]. split; [done|]. split; [done|]. by rewrite <- Hm.
  - destruct (account_seen t !! a) as [seen|] eqn:Hs; [|done]. cbn. case_decide as Hd; [|done]. destruct Hd as (-> & Ho & Hpos).
    intros [= <-]. destruct (acted_has_rollup _ _ _ Hpos) as (ts & Hts & Hr).
    exists (a, week_of ts, week_actions t a (week_of ts)). split.
    + apply weekly_elem. split; [done|]. split; [by rewrite Hts|]. by exists ts.
    + rewrite Hs. cbn. assert (Hle : week_of seen <= week_of ts).
      { rewrite Hts. unfold WEEK. pose proof day_positive. nia. }
      destruct (Z.leb_spec (week_of seen) (week_of ts)); [|lia]. destruct (weeks_apart ts seen Hle) as [_ Hw].
      assert (period_offset (week_of ts) (week_of seen) = offset) as ->.
      { unfold WEEK in *. pose proof day_positive. nia. }
      by rewrite Hts.
Qed.

Lemma cohorts_folded (rows : list (string * DateTime * Z * Z)) m key :
  (forall n n', (key, n) ∈ rows -> (key, n') ∈ rows -> n = n') ->
  (forall n, (key, n) ∈ rows -> fold_left (fun m row => upsert_cohort row m) rows m !! key =
    Some {| was_active := true; action_count := n |}) /\
  ((forall n, (key, n) ∉ rows) -> fold_left (fun m row => upsert_cohort row m) rows m !! key = m !! key).
Proof.
  revert m. induction rows as [|[k n0] rows IH]; intros m Huniq; [by split; [intros n ?%not_elem_of_nil|]|].
  destruct (IH (upsert_cohort (k, n0) m)) as [Hin Hout].
  { intros n n' Hn Hn'. apply Huniq; by right. }
  cbn [fold_left]. split.
  - intros n Hn. destruct (decide (key ∈ fst <$> rows)) as [Hk|Hnone].
    + apply list_elem_of_fmap in Hk as ([k' n'] & -> & Hn'). rewrite (Huniq n n' Hn ltac:(by right)). by apply Hin.
    + assert (Hno : forall n', (key, n') ∉ rows) by (intros n' Hn'; by apply Hnone, (list_elem_of_fmap_2 fst _ (key, n'))).
      rewrite Hout by done. apply elem_of_cons in Hn as [[= -> ->]|Hn]; [|by destruct (Hno n)].
      unfold upsert_cohort. cbn [fst snd]. rewrite upsert_same. by destruct (m !! k).
  - intros Hnone. rewrite Hout by (intros n Hn; apply (Hnone n); by right). unfold upsert_cohort. cbn [fst snd].
    apply upsert_other. intros E. apply (Hnone n0). rewrite <- E. left.
Qed.

(** What a computation makes of the cohorts [t]. *)
Definition cohorts_written (t t' : CohortTables) : Prop :=
  account_seen t' = account_seen t /\ rollups t' = rollups t /\
  forall key, user_retention_cohort t' !! key =
    match cohort_entry t key with Some row => Some row | None => user_retention_cohort t !! key end.

Lemma upserts_written t : cohorts_written t (cohort_upserts t).
Proof.
  split; [done|]. split; [done|]. intros key. cbn.
  destruct (cohorts_folded (cohort_rows t) (user_retention_cohort t) key) as [Hin Hout].
  { intros n n' Hn%cohort_rows_elem Hn'%cohort_rows_elem. congruence. }
  destruct (cohort_entry t key) as [[b n]|] eqn:E.
  - assert (b = true) as ->.
    { destruct key as [[a c] o]. cbn in E. destruct (account_seen t !! a); [|done]. cbn in E. case_decide; [|done]. by injection E. }
    apply Hin. by apply cohort_rows_elem.
  - apply Hout. intros n Hn%cohort_rows_elem. congruence.
Qed.

Lemma cohort_outcome {W} `{ReadPool CohortTables W} (tables : W -> CohortTables) (L : ReadLaws tables) w :
  let '(o, w') := compute_retention_cohorts w in
  match o with
  | Done _ => cohorts_written (tables w) (tables w')
  | Failed _ => tables w' = tables w \/ cohorts_written (tables w) (tables w')
  | Panicked => False
  end.
Proof.
  unfold compute_retention_cohorts. destruct (commit_tx cohort_upserts w) as [r w'] eqn:Hc.
  pose proof (upserts_written (tables w)) as Hw. pose proof (tx_commit _ (read_laws _ L) _ _ _ _ Hc) as [Ht|[Ht Hr]]; rewrite Ht.
  - by destruct r as [[]|]; [|right].
  - destruct r as [[]|]; [done|by left].
Qed.

(** ** Properties *)

(** C25 (retention cohorts). A computation that succeeds gives every account with a first
    sighting, for each whole number of weeks after the Monday on or before it, a row that
    says it was active and how often it acted, exactly when it acted in that week, a week
    beginning on a Monday and having all of the rollups from then on for seven days; rows
    of other weeks stay as they were. Computing again changes nothing. *)
Theorem cohorts_count_weeks {W} `{ReadPool CohortTables W} (tables : W -> CohortTables) (w w1 : W)
  (L : ReadLaws tables) (Hrun : compute_retention_cohorts w = (Done tt, w1)) :
  let t := tables w in
  (forall a seen offset, account_seen t !! a = Some seen -> 0 <= offset ->
    let week := week_of seen + offset * WEEK in
    let acts := sum (fun kv => actions (snd kv))
      (filter (fun kv => fst (fst kv) = a /\ week <= snd (fst kv) < week + WEEK) (keyed_rollups t)) in
    user_retention_cohort (tables w1) !! (a, week_of seen, offset) =
      if 0 <? acts then Some {| was_active := true; action_count := acts |}
      else user_retention_cohort t !! (a, week_of seen, offset)) /\
  (forall key, cohort_entry t key = None -> user_retention_cohort (tables w1) !! key = user_retention_cohort t !! key) /\
  (forall w2, compute_retention_cohorts w1 = (Done tt, w2) -> tables w2 = tables w1).
Proof.
  cbv zeta. pose proof (cohort_outcome tables L w) as Ho. rewrite Hrun in Ho. destruct Ho as (Hs & Hd & Hc). split_and!.
  - intros a seen offset Ha Hoff. set (week := week_of seen + offset * WEEK).
    assert (Hf : filter (fun kv : string * DateTime * DailyRollup => week_key kv = (a, week)) (keyed_rollups (tables w)) =
      filter (fun kv => fst (fst kv) = a /\ week <= snd (fst kv) < week + WEEK) (keyed_rollups (tables w))).
    { apply filter_ext_in. intros [[b ts] r] _. unfold week_key. cbn. assert (Hiff : week_of ts = week <-> week <= ts < week + WEEK).
      { split; [intros <-; apply week_contains|]. intros Hts. pose proof (week_contains ts). subst week.
        destruct (week_monday ts) as [n Hn], (week_monday seen) as [m Hm]. rewrite Hn, Hm in *. unfold midnight, WEEK in *.
        pose proof day_positive. assert (n = m + offset) by nia. subst n. lia. }
      rewrite <- Hiff. split; [by intros [= -> ->]|by intros [-> ->]]. }
    rewrite Hc. cbn [cohort_entry]. rewrite Ha. cbn. fold week. unfold week_actions. rewrite Hf.
    set (acts := sum _ _). destruct (Z.ltb_spec 0 acts); [by rewrite decide_True|rewrite decide_False by lia; done].
  - intros key Hk. by rewrite Hc, Hk.
  - intros w2 Hrun2. pose proof (cohort_outcome tables L w1) as Ho. rewrite Hrun2 in Ho. destruct Ho as (Hs2 & Hd2 & Hc2).
    assert (He : forall key, cohort_entry (tables w1) key = cohort_entry (tables w) key).
    { intros [[a c] o]. unfold cohort_entry, week_actions, keyed_rollups. by rewrite Hs, Hd. }
    destruct (tables w1) as [s1 r1 m1], (tables w2) as [s2 r2 m2]. cbn in *. subst s2 r2. f_equal. apply map_eq. intros key.
    rewrite Hc2, He. destruct (cohort_entry (tables w) key) eqn:E; [|done]. by rewrite Hc, E.
Qed.

(** ** Concrete tables *)

#[global] Instance no_cohorts : EmptyTables CohortTables := {| account_seen := ∅; rollups := ∅; user_retention_cohort := ∅ |}.

Definition demo_rollup (d : NaiveDate) (n : Z) : DailyRollup := {|
  account_id := "0xa"; day := midnight d; atoms_created := n; triples_created := 0; deposits_count := 0; redemptions_count := 0;
  deposit_volume := 0; redemption_volume := 0; unique_vaults := 0; net_flow := 0 |}.
(** First seen on Sunday, day [10]; active on that day and in the second week after. *)
Definition demo_cohorts : demo CohortTables := demo_database {|
  account_seen := {["0xa" := midnight 10 + 5]};
  rollups := {[("0xa", midnight 10) := demo_rollup 10 2; ("0xa", midnight 18) := demo_rollup 18 3;
               ("0xa", midnight 24) := demo_rollup 24 4]};
  user_retention_cohort := ∅ |} [].

Example demo_weeks :
  map (fun o => user_retention_cohort (demo_tables (snd (compute_retention_cohorts demo_cohorts))) !! ("0xa", midnight 4, o)) [0; 1; 2] =
    [Some {| was_active := true; action_count := 2 |}; None; Some {| was_active := true; action_count := 7 |}].
Proof. vm_compute. reflexivity. Qed.

Lemma cohorts_count_weeks_witness :
  let w1 := snd (compute_retention_cohorts demo_cohorts) in
  user_retention_cohort (demo_tables w1) !! ("0xa", midnight 4, 2) = Some {| was_active := true; action_count := 7 |} /\
  forall w2, compute_retention_cohorts w1 = (Done tt, w2) -> demo_tables w2 = demo_tables w1.
Proof.
  cbv zeta. assert (Hrun : compute_retention_cohorts demo_cohorts = (Done tt, snd (compute_retention_cohorts demo_cohorts)))
    by (vm_compute; reflexivity).
  destruct (cohorts_count_weeks demo_tables demo_cohorts _ demo_read_laws Hrun) as (Ha & _ & Hagain).
  split; [|exact Hagain]. refine (eq_trans (Ha "0xa" (midnight 10 + 5) 2 _ _) _); vm_compute; [reflexivity|discriminate|reflexivity].
Defined.
