(* ===== verification/ActivityCycle.v ===== *)
(** * The user-activity cycle

    [crates/projections/src/projection/timescaledb/user_activity_batch.rs]: one cycle of
    the projection, under its advisory lock: the backfill until it is complete, and from
    then on the six phases of the incremental cycle, each gated by the checkpoint
    metadata. The phases run on their views ([Focus.v]) of one set of tables. The gauges
    are read and dropped, but for the times of the marks, which are not kept; the lock is
    a pair of calls of the database. *)

From S2P Require Import Prelude MachineInt Events Errors PgTx TxCode PgCommon DemoWorld.
From S2P Require Import DemoDatabase PositionTracking Ingestion ActivityDaily.
From S2P Require Import LeaderboardRefresh UserActivity UserSegments Focus TopicAffinity.
From S2P Require Import RetentionCohorts.

#[local] Open Scope Z_scope.

(** ** The tables of the projection *)

Record CycleTables := {
  cy_sources : IngestTables;
  cy_dirty : gmap string string;
  cy_daily : gmap (string * DateTime) DailyRollup;
  cy_checkpoint : option (option (gmap string Value));
  cy_profiles : gmap string ScoreRow;
  cy_seen : gmap string DateTime;
  cy_affinities : AffinityTables;
  cy_cohorts : gmap (string * DateTime * Z) CohortRow
}.

(** The profile columns of the rows; a new row takes the defaults of the other columns. *)
Definition put_profiles (new : gmap string Profile) (old : gmap string ScoreRow) : gmap string ScoreRow :=
  map_imap (fun a p => Some match old !! a with
    | Some row => {| profile := p; rfm_scores := rfm_scores row; user_segment := user_segment row;
                     previous_segment := previous_segment row |}
    | None => {| profile := p; rfm_scores := None; user_segment := new_user; previous_segment := None |}
    end) new.

Lemma put_profiles_profile new old : profile <$> put_profiles new old = new.
Proof.
  apply map_eq. intros a. rewrite lookup_fmap. unfold put_profiles. rewrite map_lookup_imap.
  destruct (new !! a); [|done]. cbn. by destruct (old !! a).
Qed.

Lemma put_profiles_same old : put_profiles (profile <$> old) old = old.
Proof.
  apply map_eq. intros a. unfold put_profiles. rewrite map_lookup_imap, lookup_fmap.
  by destruct (old !! a) as [[]|].
Qed.

Definition activity_view (t : CycleTables) : ActivityTables := {|
  sources := cy_sources t; dirty_account_activity := cy_dirty t; user_activity_daily := cy_daily t;
  user_activity_profile := profile <$> cy_profiles t; checkpoint := cy_checkpoint t |}.
Definition put_activity (s : ActivityTables) (t : CycleTables) : CycleTables := {|
  cy_sources := sources s; cy_dirty := dirty_account_activity s; cy_daily := user_activity_daily s;
  cy_checkpoint := checkpoint s; cy_profiles := put_profiles (user_activity_profile s) (cy_profiles t);
  cy_seen := cy_seen t; cy_affinities := cy_affinities t; cy_cohorts := cy_cohorts t |}.

Lemma activity_get_put s t : activity_view (put_activity s t) = s.
Proof. destruct s. unfold activity_view, put_activity. cbn. by rewrite put_profiles_profile. Qed.

Lemma activity_put_get t : put_activity (activity_view t) t = t.
Proof. destruct t. unfold put_activity, activity_view. f_equal. apply put_profiles_same. Qed.

Definition activity_lens : Lens CycleTables ActivityTables :=
  {| get := activity_view; put := put_activity; get_put := activity_get_put |}.

Definition segment_lens : Lens CycleTables SegmentTables.
Proof.
  refine {| get t := {| profiles := cy_profiles t; first_seen_at := cy_seen t |};
    put s t := {| cy_sources := cy_sources t; cy_dirty := cy_dirty t; cy_daily := cy_daily t; cy_checkpoint := cy_checkpoint t;
      cy_profiles := profiles s; cy_seen := first_seen_at s; cy_affinities := cy_affinities t; cy_cohorts := cy_cohorts t |} |}.
  by intros [].
Defined.

Definition affinity_lens : Lens CycleTables AffinityTables.
Proof.
  refine {| get := cy_affinities;
    put s t := {| cy_sources := cy_sources t; cy_dirty := cy_dirty t; cy_daily := cy_daily t; cy_checkpoint := cy_checkpoint t;
      cy_profiles := cy_profiles t; cy_seen := cy_seen t; cy_affinities := s; cy_cohorts := cy_cohorts t |} |}.
  by intros.
Defined.

Definition cohort_lens : Lens CycleTables CohortTables.
Proof.
  refine {| get t := {| account_seen := cy_seen t; rollups := cy_daily t; user_retention_cohort := cy_cohorts t |};
    put s t := {| cy_sources := cy_sources t; cy_dirty := cy_dirty t; cy_daily := rollups s; cy_checkpoint := cy_checkpoint t;
      cy_profiles := cy_profiles t; cy_seen := account_seen s; cy_affinities := cy_affinities t;
      cy_cohorts := user_retention_cohort s |} |}.
  by intros [].
Defined.

(** ** The counts behind the gauges *)

Definition count_active_accounts (t : SegmentTables) : Z :=
  count (filter (fun kv => user_segment (snd kv) <> dormant) (map_to_list (profiles t))).
Definition count_accounts_by_segment (t : SegmentTables) : list (user_segment_type * Z) :=
  map (fun g => (fst g, count (snd g))) (group_by (fun kv => user_segment (snd kv)) (map_to_list (profiles t))).
(** [active_count.saturating_mul(TOP_N_AFFINITIES as i64)] of a count. *)
Definition expected_affinities (active_count : Z) : Z := Z.min I64_MAX (active_count * Z.of_nat TOP_N_AFFINITIES).

(** ** The cycle *)

Definition PROJECTION_NAME : string := "user_activity_batch".

(** [SELECT pg_try_advisory_lock(hashtext(name))] and [pg_advisory_unlock] on the pool. *)
Class AdvisoryLocks (W : Type) := {
  pg_try_advisory_lock : string -> W -> result bool string * W;
  pg_advisory_unlock : string -> W -> result unit string * W
}.

Section Cycle.
Context `{DateText} `{HashOrder} `{PgFunctions} `{Float8} {W : Type} `{Clock W} `{ReadPool CycleTables W} `{AdvisoryLocks W}.

#[local] Instance activity_pool : ReadPool ActivityTables W := focus activity_lens.
#[local] Instance segment_pool : ReadPool SegmentTables W := focus segment_lens.
#[local] Instance affinity_pool : ReadPool AffinityTables W := focus affinity_lens.
#[local] Instance cohort_pool : ReadPool CohortTables W := focus cohort_lens.

(** A query on the pool, and one whose error is dropped. *)
Definition query {T A} `{R : ReadPool T W} (q : T -> A) (w : W) : outcome A * W :=
  let '(r, w) := fetch q (fun t => t) w in (match r with Ok a => Done a | Err e => Failed e end, w).
Definition if_ok {T A} `{R : ReadPool T W} (q : T -> A) (w : W) : option A * W :=
  let '(r, w) := fetch q (fun t => t) w in (match r with Ok a => Some a | Err _ => None end, w).
Definition nothing : W -> outcome unit * W := fun w => (Done tt, w).
Definition clock_today (w : W) : outcome NaiveDate * W := let '(now, w) := utc_now w in (Done (date_of now), w).
Definition at_now {A} (k : DateTime -> W -> outcome A * W) (w : W) : outcome A * W := let '(now, w) := utc_now w in k now w.

Definition is_empty {A} (l : list A) : bool := match l with [] => true | _ => false end.
Definition is_before (today : NaiveDate) (last : option NaiveDate) : bool :=
  match last with None => true | Some d => d <? today end.

(** Phases 3 and 4: scores and segments, once a day of all profiles. *)
Definition sweep_phase (account_ids : list string) : W -> outcome unit * W :=
  and_then clock_today (fun today =>
  and_then (query get_last_rfm_sweep_date) (fun last_rfm_date =>
    let needs_full_sweep := is_before today last_rfm_date in
    and_then (if needs_full_sweep then
                and_then compute_rfm_scores (fun _ => pool_execute (save_rfm_sweep_date today))
              else if is_empty account_ids then nothing
              else compute_rfm_scores_for_accounts account_ids) (fun _ =>
      if needs_full_sweep then classify_segments
      else if is_empty account_ids then nothing
      else classify_segments_for_accounts account_ids))).

Definition segment_gauges (w : W) : (option (Z * Z) * option (list (user_segment_type * Z))) * W :=
  let '(active_count, w) := if_ok count_active_accounts w in
  let '(segment_counts, w) := if_ok count_accounts_by_segment w in
  (((fun n => (n, expected_affinities n)) <$> active_count, segment_counts), w).

(** [should_run_daily_affinity_recompute] and [should_run_weekly_cohorts] look at the
    clock only when there is a date to compare. *)
Definition daily_recompute_due : W -> outcome bool * W :=
  and_then (query (date_field "topic_affinity_last_full_recompute_date")) (fun last_date =>
    match last_date with
    | None => fun w => (Done true, w)
    | Some d => at_now (fun now w => (Done (d <? date_of now), w))
    end).
Definition weekly_cohorts_due : W -> outcome bool * W :=
  and_then (query (time_field "last_cohort_run_at")) (fun last_run =>
    match last_run with
    | None => fun w => (Done true, w)
    | Some last_run => at_now (fun now w => (Done (7 * DAY <=? now - last_run), w))
    end).

(** Phase 5. *)
Definition affinity_phase : W -> outcome unit * W :=
  and_then daily_recompute_due (fun due =>
    if due then
      and_then (compute_topic_affinity None) (fun max_ts =>
      and_then clock_today (fun today => pool_execute (save_affinity_recompute today max_ts)))
    else
      and_then (query get_topic_affinity_checkpoint) (fun checkpoint =>
      and_then (compute_topic_affinity checkpoint) (fun max_ts =>
        match max_ts with
        | Some ts => pool_execute (save_topic_affinity_checkpoint ts)
        | None => nothing
        end))).

(** Phase 6. *)
Definition cohort_phase : W -> outcome unit * W :=
  and_then weekly_cohorts_due (fun due =>
    if due then and_then compute_retention_cohorts (fun _ => at_now (fun now => pool_execute (save_last_cohort_run now)))
    else nothing).

(** The count behind the last gauges; the other one reads the times of the marks. *)
Definition count_dirty_accounts (t : ActivityTables) : Z := Z.of_nat (size (dirty_account_activity t)).
Definition dirty_gauges (w : W) : outcome unit * W := let '(_, w) := if_ok count_dirty_accounts w in (Done tt, w).

Definition incremental_cycle : W -> outcome unit * W :=
  and_then refresh_profiles (fun account_ids =>
  and_then (sweep_phase account_ids) (fun _ w =>
  let '(_, w) := segment_gauges w in
  and_then affinity_phase (fun _ w =>
  let '(_, w) := if_ok count_topic_affinity_rows w in
  and_then cohort_phase (fun _ => dirty_gauges) w) w)).

Definition run_cycle (w : W) : outcome unit * W :=
  let '(acquired, w) := pg_try_advisory_lock PROJECTION_NAME w in
  match acquired with
  | Err e => (Failed e, w)
  | Ok false => (Done tt, w)
  | Ok true =>
      and_then (query get_backfill_state) (fun state w =>
        let '(result, w) := if fst state then incremental_cycle w else backfill_cycle (snd state) w in
        let '(_, w) := pg_advisory_unlock PROJECTION_NAME w in
        (result, w)) w
  end.
End Cycle.

(** ** What the phases do *)

Section Phases.
Context `{DateText} `{HashOrder} `{PgFunctions} `{Float8} {W : Type} `{Clock W} `{ReadPool CycleTables W} `{AdvisoryLocks W}.
#[local] Existing Instances activity_pool segment_pool affinity_pool cohort_pool.

Context (tables : W -> CycleTables) (L : ReadLaws tables) (Hclock : clock_apart tables).

Definition activity_laws : ReadLaws (fun w => activity_view (tables w)) := focus_laws activity_lens tables L.
Definition segment_laws : ReadLaws (fun w => get segment_lens (tables w)) := focus_laws segment_lens tables L.
Definition affinity_laws : ReadLaws (fun w => cy_affinities (tables w)) := focus_laws affinity_lens tables L.
Definition cohort_laws : ReadLaws (fun w => get cohort_lens (tables w)) := focus_laws cohort_lens tables L.

Lemma view_clock {X} (seen : CycleTables -> X) : clock_apart (fun w => seen (tables w)).
Proof. intros w. by rewrite Hclock. Qed.

(** A query of a view answers from it and changes nothing. *)
Lemma query_view {S A} (l : Lens CycleTables S) (q : S -> A) w :
  let '(o, w') := query (R := focus l) q w in
  tables w' = tables w /\ match o with Done a => a = q (get l (tables w)) | Failed _ => True | Panicked => False end.
Proof.
  unfold query. pose proof (read_fetch _ L (fun t => q (get l t)) (over l (fun t => t)) w) as Hs.
  pose proof (read_answer _ (focus_laws l tables L) q (fun t => t) w) as Ha. cbn in *.
  destruct (fetch _ _ w) as [[a|e] w1]; cbn in *; split; try done. by apply Ha.
Qed.

Lemma if_ok_view {S A} (l : Lens CycleTables S) (q : S -> A) w : tables (snd (if_ok (R := focus l) q w)) = tables w.
Proof.
  unfold if_ok. pose proof (read_fetch _ L (fun t => q (get l t)) (over l (fun t => t)) w) as Hs. cbn in *.
  by destruct (fetch _ _ w) as [[a|e] w1].
Qed.

(** Saving in the checkpoint changes the metadata only. *)
Definition with_metadata (f : ActivityTables -> ActivityTables) (t : CycleTables) : CycleTables := {|
  cy_sources := cy_sources t; cy_dirty := cy_dirty t; cy_daily := cy_daily t; cy_checkpoint := checkpoint (f (activity_view t));
  cy_profiles := cy_profiles t; cy_seen := cy_seen t; cy_affinities := cy_affinities t; cy_cohorts := cy_cohorts t |}.

Lemma save_over patch t : over activity_lens (merge_checkpoint_metadata patch) t = with_metadata (merge_checkpoint_metadata patch) t.
Proof.
  change (put_activity (merge_checkpoint_metadata patch (activity_view t)) t = with_metadata (merge_checkpoint_metadata patch) t).
  unfold put_activity, with_metadata. f_equal. apply put_profiles_same.
Qed.

Lemma save_view patch t : activity_view (with_metadata (merge_checkpoint_metadata patch) t) = merge_checkpoint_metadata patch (activity_view t).
Proof. done. Qed.

Lemma save_outcome patch w :
  let '(o, w') := pool_execute (merge_checkpoint_metadata patch) w in
  match o with
  | Done _ => tables w' = with_metadata (merge_checkpoint_metadata patch) (tables w)
  | Failed _ => tables w' = tables w \/ tables w' = with_metadata (merge_checkpoint_metadata patch) (tables w)
  | Panicked => False
  end.
Proof.
  unfold pool_execute. cbn. destruct (commit_tx (over activity_lens (merge_checkpoint_metadata patch)) w) as [r w'] eqn:Hc.
  pose proof (tx_commit _ (read_laws _ L) _ _ _ _ Hc) as Hk. rewrite save_over in Hk.
  destruct r as [[]|e]; destruct Hk as [->|[-> ?]]; [done|done|by right|by left].
Qed.

Lemma at_now_runs {A} (k : DateTime -> W -> outcome A * W) (P : W -> outcome A * W -> Prop) w :
  (forall now w1, tables w1 = tables w -> now = fst (utc_now w) -> P w (k now w1)) -> P w (at_now k w).
Proof. intros Hk. unfold at_now. pose proof (Hclock w) as Hc. destruct (utc_now w) as [now w1] eqn:E. cbn in *. by apply Hk. Qed.
(** Everything but the metadata, the scores and the segments. *)
Record same_base (t t' : CycleTables) : Prop := {
  base_sources : cy_sources t' = cy_sources t;
  base_dirty : cy_dirty t' = cy_dirty t;
  base_daily : cy_daily t' = cy_daily t;
  base_seen : cy_seen t' = cy_seen t;
  base_affinities : cy_affinities t' = cy_affinities t;
  base_cohorts : cy_cohorts t' = cy_cohorts t;
  base_profiles : profile <$> cy_profiles t' = profile <$> cy_profiles t
}.

#[local] Instance same_base_preorder : PreOrder same_base.
Proof. split; [intros t; by split|]. intros t1 t2 t3 [] []. split; congruence. Qed.

Abbreviation metadata t := (observe (activity_view t)).

Lemma same_metadata t t' : cy_checkpoint t' = cy_checkpoint t -> metadata t' = metadata t.
Proof. intros E. unfold observe, get_backfill_state, get_last_rfm_sweep_date, get_topic_affinity_checkpoint, date_field, time_field,
  fetch_checkpoint_metadata. cbn. by rewrite E. Qed.

(** A statement on the rows of the profiles that keeps the profile columns. *)
Definition keeps_profiles (f : DateTime -> SegmentTables -> SegmentTables) : Prop := forall now t,
  profile <$> profiles (f now t) = profile <$> profiles t /\ first_seen_at (f now t) = first_seen_at t.

Lemma updates_keep (g : DateTime -> SegmentTables -> string -> ScoreRow -> ScoreRow) :
  (forall now t a row, profile (g now t a row) = profile row) -> keeps_profiles (fun now t => update_profiles (g now t) t).
Proof.
  intros Hg now t. split; [|done]. apply map_eq. intros a. rewrite !lookup_fmap, updated_lookup.
  destruct (profiles t !! a); [|done]. cbn. by rewrite Hg.
Qed.

Lemma scores_keep ids : keeps_profiles (bootstrap_update ids) /\ keeps_profiles (ntile_update ids) /\ keeps_profiles (segment_update ids).
Proof.
  split_and!; [apply (updates_keep (fun now t a row => if among ids a then with_scores (neutral_scores now row) row else row))|
    apply (updates_keep (fun now t a row => if among ids a then with_scores (scored now t a) row else row))|
    apply (updates_keep (fun now t a row => if among ids a then with_segment (segment now t a row) row else row))];
    intros; by destruct (among ids a).
Qed.

(** What such a phase leaves alone; it does not panic. *)
Definition scores_only (m : W -> outcome unit * W) : Prop := forall w,
  let '(o, w') := m w in
  same_base (tables w) (tables w') /\ cy_checkpoint (tables w') = cy_checkpoint (tables w) /\ o <> Panicked.

Lemma execute_scores f : keeps_profiles f -> scores_only (execute_now f).
Proof.
  intros Hf w. unfold execute_now. pose proof (Hclock w) as Ht. destruct (utc_now w) as [now w1]. cbn in Ht. rewrite <- Ht.
  destruct (commit_tx (f now) w1) as [r w2] eqn:Hc. cbn in Hc.
  assert (Hk : same_base (tables w1) (tables w2) /\ cy_checkpoint (tables w2) = cy_checkpoint (tables w1)).
  { destruct (tx_commit _ (read_laws _ L) _ _ _ _ Hc) as [->|[-> _]]; [|by split].
    destruct (Hf now (get segment_lens (tables w1))) as [Hp Hs]. split; [|done]. by split. }
  destruct Hk. by destruct r.
Qed.

Lemma rfm_scores_only ids : scores_only (compute_rfm_scores_of ids).
Proof.
  intros w. unfold compute_rfm_scores_of, and_then, query_now. pose proof (Hclock w) as Ht. destruct (utc_now w) as [now w1]. cbn in Ht.
  pose proof (read_fetch _ L (fun t => count (active_accounts now (get segment_lens t))) (over segment_lens (fun t => t)) w1) as Hs. cbn in *.
  destruct (fetch _ _ w1) as [[n|e] w2]; cbn in Hs; [|by rewrite Hs, Ht].
  rewrite <- Ht, <- Hs. destruct (_ <? _); apply execute_scores; apply (scores_keep ids).
Qed.

Lemma classify_scores_only ids : scores_only (execute_now (segment_update ids)).
Proof. apply execute_scores, (scores_keep ids). Qed.

Lemma nothing_scores : scores_only nothing.
Proof. intros w. by split. Qed.

Lemma before_not d last : is_before d last = false -> exists d', last = Some d' /\ d <= d'.
Proof. destruct last as [d'|]; [|done]. intros H'. exists d'. split; [done|]. cbn in H'. lia. Qed.

(** *** A calculus for the cycle: how code ends, and with which tables *)

Definition ends {A} (m : W -> outcome A * W) (w : W) (Q : outcome A -> CycleTables -> Prop) : Prop :=
  let '(o, w') := m w in Q o (tables w').

Lemma ends_weaken {A} (m : W -> outcome A * W) w (P Q : outcome A -> CycleTables -> Prop) :
  ends m w P -> (forall o t, P o t -> Q o t) -> ends m w Q.
Proof. unfold ends. destruct (m w). auto. Qed.

Lemma ends_then {A B} (m : W -> outcome A * W) (k : A -> W -> outcome B * W) w (Q : outcome B -> CycleTables -> Prop) :
  ends m w (fun o t => match o with
                       | Done a => forall w1, tables w1 = t -> ends (k a) w1 Q
                       | Failed e => Q (Failed e) t
                       | Panicked => Q Panicked t
                       end) -> ends (and_then m k) w Q.
Proof. unfold ends, and_then. destruct (m w) as [[a|e|] w1]; [|done..]. intros Hk. by apply Hk. Qed.

Lemma ends_done {A} (a : A) w (Q : outcome A -> CycleTables -> Prop) : Q (Done a) (tables w) -> ends (fun w => (Done a, w)) w Q.
Proof. done. Qed.

Lemma ends_any_now {A} (k : DateTime -> W -> outcome A * W) w (Q : outcome A -> CycleTables -> Prop) :
  (forall w0 w1, tables w1 = tables w -> ends (k (fst (utc_now w0))) w1 Q) -> ends (at_now k) w Q.
Proof.
  intros Hk. unfold ends, at_now. pose proof (Hclock w) as Hc. specialize (Hk w). destruct (utc_now w) as [now w1]. cbn in *.
  by apply Hk.
Qed.

Lemma ends_any_clock w (Q : outcome NaiveDate -> CycleTables -> Prop) :
  (forall w0, Q (Done (date_of (fst (utc_now w0)))) (tables w)) -> ends clock_today w Q.
Proof.
  intros HQ. unfold ends, clock_today. pose proof (Hclock w) as Hc. specialize (HQ w). destruct (utc_now w) as [now w1].
  cbn in *. by rewrite Hc.
Qed.

Lemma ends_query {S A} (l : Lens CycleTables S) (q : S -> A) w (Q : outcome A -> CycleTables -> Prop) :
  Q (Done (q (get l (tables w)))) (tables w) -> (forall e, Q (Failed e) (tables w)) -> ends (query (R := focus l) q) w Q.
Proof.
  intros Hd Hf. unfold ends. pose proof (query_view l q w) as Hq. destruct (query q w) as [[a|e|] w1]; destruct Hq as [-> Ha];
    [by subst|done|done].
Qed.

Lemma ends_save patch w (Q : outcome unit -> CycleTables -> Prop) :
  let saved := with_metadata (merge_checkpoint_metadata patch) (tables w) in
  Q (Done tt) saved -> (forall e t, t = tables w \/ t = saved -> Q (Failed e) t) -> ends (pool_execute (merge_checkpoint_metadata patch)) w Q.
Proof.
  intros saved Hd Hf. unfold ends. pose proof (save_outcome patch w) as Hs.
  destruct (pool_execute _ w) as [[[]|e|] w1]; [by rewrite Hs|by apply Hf|done].
Qed.

(** *** Phase 5 *)

(** A day the clock may show. *)
Definition reading (d : NaiveDate) : Prop := exists w, d = date_of (fst (utc_now w)).

Definition rest_of (t : CycleTables) :=
  (cy_sources t, cy_dirty t, cy_daily t, cy_profiles t, cy_seen t, cy_cohorts t).

Definition computed (since : option DateTime) (a a' : AffinityTables) : Prop :=
  exists now, a' = prune (upsert_affinities since now a).

Lemma ends_compute since w (Q : outcome (option DateTime) -> CycleTables -> Prop) :
  (forall t, rest_of t = rest_of (tables w) -> cy_checkpoint t = cy_checkpoint (tables w) ->
    computed since (cy_affinities (tables w)) (cy_affinities t) -> Q (Done (max_ts since (cy_affinities (tables w)))) t) ->
  (forall e t, rest_of t = rest_of (tables w) -> cy_checkpoint t = cy_checkpoint (tables w) ->
    cy_affinities t = cy_affinities (tables w) \/ computed since (cy_affinities (tables w)) (cy_affinities t) -> Q (Failed e) t) ->
  ends (compute_topic_affinity since) w Q.
Proof.
  intros Hd Hf. unfold ends.
  pose proof (compute_outcome (fun w => cy_affinities (tables w)) affinity_laws (view_clock cy_affinities) since w) as Ho.
  assert (Ha : run_apart (fun w => (rest_of (tables w), cy_checkpoint (tables w))) (compute_topic_affinity since)).
  { apply apart_transaction.
    - by apply (focus_apart affinity_lens tables (fun t => (rest_of t, cy_checkpoint t)) L).
    - apply apart_bind; [apply apart_clock; intros w0; by rewrite Hclock|]. intros now.
      pose proof (focus_apart affinity_lens tables (fun t => (rest_of t, cy_checkpoint t)) L (fun s t => eq_refl)) as HA.
      repeat (apply apart_bind; [first [by apply apart_run_statement|by apply apart_run_query]|intros ?]). apply apart_ret. }
  specialize (Ha w). destruct (compute_topic_affinity since w) as [[last|e|] w']; [| |done]; cbn in Ha; injection Ha as E1 E2 E3 E4 E5 E6 Hcp.
  - destruct Ho as [-> Hn]. apply Hd; [|done|done]. unfold rest_of. congruence.
  - apply Hf; [|done|].
    + unfold rest_of. congruence.
    + destruct Ho as [?|(last & _ & Hn)]; [by left|by right].
Qed.

Definition save_of (full : bool) (d : NaiveDate) (last : option DateTime) (t : ActivityTables) : ActivityTables :=
  if full then save_affinity_recompute d last t
  else match last with Some ts => save_topic_affinity_checkpoint ts t | None => t end.

Lemma same_view t t' : rest_of t' = rest_of t -> cy_checkpoint t' = cy_checkpoint t -> activity_view t' = activity_view t.
Proof. unfold rest_of, activity_view. intros [= -> -> -> -> _ _] ->. done. Qed.

(** How phase 5 ends, begun on the tables [t0]. *)
Definition affinity_result (t0 : CycleTables) (o : outcome unit) (t : CycleTables) : Prop :=
  (rest_of t = rest_of t0 /\ cy_affinities t = cy_affinities t0 /\ metadata t = metadata t0 /\ exists e, o = Failed e) \/
  exists d0 d, reading d0 /\ reading d /\ let full := is_before d0 (m_recompute (metadata t0)) in
  let since := if full then None else m_affinity (metadata t0) in
  let saved := observe (save_of full d (max_ts since (cy_affinities t0)) (activity_view t0)) in
  rest_of t = rest_of t0 /\
  match o with
  | Done _ => computed since (cy_affinities t0) (cy_affinities t) /\ metadata t = saved
  | Failed _ => (cy_affinities t = cy_affinities t0 /\ metadata t = metadata t0) \/
      (computed since (cy_affinities t0) (cy_affinities t) /\ (metadata t = metadata t0 \/ metadata t = saved))
  | Panicked => False
  end.

Section Phase5.
Context (t0 : CycleTables) (d0 d : NaiveDate) (Hd0 : reading d0) (Hd : reading d).
Abbreviation full := (is_before d0 (m_recompute (metadata t0))).
Abbreviation since := (if full then None else m_affinity (metadata t0)).

Lemma result_intro o t : rest_of t = rest_of t0 ->
  match o with
  | Done _ => computed since (cy_affinities t0) (cy_affinities t) /\
      metadata t = observe (save_of full d (max_ts since (cy_affinities t0)) (activity_view t0))
  | Failed _ => (cy_affinities t = cy_affinities t0 /\ metadata t = metadata t0) \/
      (computed since (cy_affinities t0) (cy_affinities t) /\ (metadata t = metadata t0 \/
        metadata t = observe (save_of full d (max_ts since (cy_affinities t0)) (activity_view t0))))
  | Panicked => False
  end -> affinity_result t0 o t.
Proof. intros Hr Ho. right. by exists d0, d. Qed.

Lemma result_failed e t : rest_of t = rest_of t0 -> cy_checkpoint t = cy_checkpoint t0 ->
  cy_affinities t = cy_affinities t0 \/ computed since (cy_affinities t0) (cy_affinities t) -> affinity_result t0 (Failed e) t.
Proof.
  intros Hr Hc Ho. apply result_intro; [done|]. rewrite (same_metadata _ _ Hc). destruct Ho; [by left|right; auto].
Qed.

Lemma result_saved t w : rest_of t = rest_of t0 -> cy_checkpoint t = cy_checkpoint t0 ->
  computed since (cy_affinities t0) (cy_affinities t) -> tables w = t ->
  (forall patch, (forall s, save_of full d (max_ts since (cy_affinities t0)) s = merge_checkpoint_metadata patch s) ->
    ends (pool_execute (merge_checkpoint_metadata patch)) w (affinity_result t0)) /\
  ((forall s, save_of full d (max_ts since (cy_affinities t0)) s = s) -> affinity_result t0 (Done tt) t).
Proof.
  intros Hr Hc Hcomp Hw. pose proof (same_view _ _ Hr Hc) as Hv. split.
  - intros patch Hp. rewrite <- Hw in *.
    assert (Hs : metadata (with_metadata (merge_checkpoint_metadata patch) (tables w)) =
      observe (save_of full d (max_ts since (cy_affinities t0)) (activity_view t0))) by by rewrite save_view, Hv, Hp.
    apply ends_save; [|intros e t' [->| ->]].
    + by apply result_intro.
    + by apply result_failed; [..|right].
    + apply result_intro; [done|]. right. auto.
  - intros Hp. apply result_intro; [done|]. by rewrite Hp, (same_metadata _ _ Hc).
Qed.
End Phase5.

Lemma affinity_ends w : ends affinity_phase w (affinity_result (tables w)).
Proof.
  set (t0 := tables w). assert (Hread : forall w0, reading (date_of (fst (utc_now w0)))) by (intros w0; by exists w0).
  assert (Hfail : forall e t, t = t0 -> affinity_result t0 (Failed e) t) by (intros e t ->; left; split_and!; [done..|by exists e]).
  assert (Hfull : forall d0 w1, reading d0 -> is_before d0 (m_recompute (metadata t0)) = true -> tables w1 = t0 ->
    ends (and_then (compute_topic_affinity None) (fun max_ts =>
      and_then clock_today (fun today => pool_execute (save_affinity_recompute today max_ts)))) w1 (affinity_result t0)).
  { intros d0 w1 Hd0 Hg Hw1. apply ends_then, ends_compute; rewrite Hw1.
    2: { intros e t Hr Hc Ho. apply (result_failed t0 d0 d0 Hd0 Hd0); [done..|]. by rewrite Hg. }
    intros t Hr Hc Hcomp w2 Hw2. apply ends_then, ends_any_clock. intros w0 w3 Hw3.
    apply (result_saved t0 d0 _ Hd0 (Hread w0) t w3); rewrite ?Hg; [done..|by rewrite Hw3|done]. }
  assert (Hincr : forall d w1, reading d -> is_before d (m_recompute (metadata t0)) = false -> tables w1 = t0 ->
    ends (and_then (query get_topic_affinity_checkpoint) (fun checkpoint =>
      and_then (compute_topic_affinity checkpoint) (fun max_ts =>
        match max_ts with Some ts => pool_execute (save_topic_affinity_checkpoint ts) | None => nothing end))) w1 (affinity_result t0)).
  { intros d w1 Hd Hg Hw1. apply ends_then, ends_query; rewrite Hw1; [|by intros e; apply Hfail].
    intros w2 Hw2. apply ends_then, ends_compute; rewrite Hw2.
    2: { intros e t Hr Hc Ho. apply (result_failed t0 d d); [done..|]. by rewrite Hg. }
    intros t Hr Hc Hcomp w3 Hw3. pose proof (result_saved t0 d d Hd Hd t w3 Hr Hc) as Hs. rewrite Hg in Hs.
    destruct (Hs Hcomp Hw3) as [Hs1 Hn]. unfold save_of in *. cbn in Hs1, Hn |- *.
    destruct (max_ts _ (cy_affinities t0)); [by apply Hs1|]. unfold ends, nothing. rewrite Hw3. by apply Hn. }
  apply ends_then. unfold daily_recompute_due. apply ends_then, ends_query; [|by intros e; apply Hfail].
  intros w1 Hw1. change (date_field _ (get activity_lens (tables w))) with (m_recompute (metadata t0)).
  destruct (m_recompute (metadata t0)) as [last|] eqn:Hlast.
  - apply ends_any_now. intros w0 w2 Hw2. apply ends_done. intros w3 Hw3. rewrite Hw2, Hw1 in Hw3.
    destruct (last <? _) eqn:Hlt; [by apply (Hfull (date_of (fst (utc_now w0))))|by apply (Hincr (date_of (fst (utc_now w0))))].
  - apply ends_done. intros w2 Hw2. apply (Hfull (date_of (fst (utc_now w)))); [done..|]. by rewrite Hw2, Hw1.
Qed.

(** *** The affinities over time *)

(** Position changes come in, all of them later than the affinity checkpoint. *)
Record arrival (t t' : CycleTables) : Prop := {
  arrival_metadata : m_affinity (metadata t') = m_affinity (metadata t) /\ m_recompute (metadata t') = m_recompute (metadata t);
  arrival_affinities : user_topic_affinity (cy_affinities t') = user_topic_affinity (cy_affinities t);
  arrival_keeps : changes (cy_affinities t) ⊆ changes (cy_affinities t');
  arrival_later k row ts : changes (cy_affinities t') !! k = Some row -> changes (cy_affinities t) !! k = None ->
    m_affinity (metadata t) = Some ts -> ts < snd k
}.

(** A run that commits affinities has saved its checkpoint. *)
Definition checkpoint_kept_up (t t' : CycleTables) : Prop :=
  cy_affinities t' = cy_affinities t \/ metadata t' <> metadata t.

(** Arrivals and runs of phase 5, in any order; a run that fails does so before it commits
    its affinities or after it has saved its checkpoint. *)
Inductive history (w0 : W) : W -> Prop :=
| history_begins : history w0 w0
| history_arrival w w' : history w0 w -> arrival (tables w) (tables w') -> history w0 w'
| history_phase w w' : history w0 w -> affinity_phase w = (Done tt, w') -> history w0 w'
| history_failed w e w' : history w0 w -> affinity_phase w = (Failed e, w') ->
    checkpoint_kept_up (tables w) (tables w') -> history w0 w'.

(** The affinities are the totals of the changes up to the checkpoint, once there was a recompute. *)
Definition in_step (t : CycleTables) : Prop :=
  grounded (cy_affinities t) /\
  (is_Some (m_recompute (metadata t)) -> forall ts, m_affinity (metadata t) = Some ts -> counted (Some ts) (cy_affinities t)).

Lemma changes_subset (a a' : AffinityTables) : changes a ⊆ changes a' -> all_changes a ⊆ all_changes a'.
Proof.
  intros Hs c (kv & -> & Hk)%list_elem_of_fmap. destruct kv as [k row]. apply elem_of_map_to_list in Hk.
  apply list_elem_of_fmap. exists (k, row). split; [done|]. apply elem_of_map_to_list. by eapply lookup_weaken.
Qed.

Lemma few_subset ks ks' : ks ⊆ ks' -> few ks' -> few ks.
Proof.
  intros Hs Hf a. etransitivity; [|apply (Hf a)]. apply submseteq_length, NoDup_submseteq.
  - apply NoDup_filter, NoDup_remove_dups.
  - intros k. rewrite !list_elem_of_filter, !elem_of_remove_dups. intros [? ?]. split; [done|by apply Hs].
Qed.

Lemma topics_subset (a a' : AffinityTables) : changes a ⊆ changes a' -> map topic (all_changes a) ⊆ map topic (all_changes a').
Proof.
  intros Hs k (c & -> & Hc)%list_elem_of_fmap. by apply (list_elem_of_fmap_2 topic), (changes_subset a a').
Qed.

Lemma arrival_counted ts (a a' : AffinityTables) :
  user_topic_affinity a' = user_topic_affinity a -> changes a ⊆ changes a' ->
  (forall k row, changes a' !! k = Some row -> changes a !! k = None -> ts < snd k) ->
  counted (Some ts) a -> counted (Some ts) a'.
Proof.
  intros Ha Hs Hl Hc k. rewrite Ha, (Hc k). apply totals_proper. unfold up_to, all_changes.
  assert (Hf : forall m : gmap (string * DateTime) ChangeRow,
    filter (fun x : DateTime * ChangeRow => fst x <= ts) (map (fun kv => (snd (fst kv), snd kv)) (map_to_list m)) ≡ₚ
    map (fun kv => (snd (fst kv), snd kv)) (map_to_list (filter (fun kv => snd (fst kv) <= ts) m))).
  { intros m. rewrite filter_map_eq, map_filter_alt, map_to_list_to_map; [done|].
    apply (sublist_NoDup _ (map fst (map_to_list m))); [apply NoDup_fst_map_to_list|]. apply (fmap_sublist fst), sublist_filter. }
  rewrite !Hf. apply Permutation_map, Permutation_refl'. f_equal. apply map_eq. intros key. rewrite !map_lookup_filter.
  destruct (changes a !! key) as [row|] eqn:E; [by rewrite (lookup_weaken _ _ _ _ E Hs)|].
  destruct (changes a' !! key) as [row'|] eqn:E'; [|done]. cbn. specialize (Hl _ _ E' E).
  rewrite option_guard_False; [done|]. cbn. lia.
Qed.

Lemma arrival_in_step t t' : arrival t t' -> in_step t -> in_step t'.
Proof.
  intros [[Hm Hr] Ha Hk Hl] [Hg Hc]. split.
  - intros k Hin. rewrite Ha in Hin. by apply (topics_subset _ _ Hk), Hg.
  - rewrite Hm, Hr. intros HS ts Hts. eapply arrival_counted; eauto.
Qed.

Lemma saved_affinity full d last t :
  m_affinity (observe (save_of full d last t)) = match last with Some ts => Some ts | None => m_affinity (observe t) end /\
  (full = true -> m_recompute (observe (save_of full d last t)) = Some d) /\
  (full = false -> m_recompute (observe (save_of full d last t)) = m_recompute (observe t)) /\
  m_rfm (observe (save_of full d last t)) = m_rfm (observe t) /\
  m_backfill (observe (save_of full d last t)) = m_backfill (observe t).
Proof.
  destruct full; cbn [save_of].
  - destruct (checkpoint_keys_kept t true None d d 0 0 last) as (_ & _ & _ & E & _). rewrite E. by destruct last.
  - destruct last as [ts|]; [|done]. destruct (checkpoint_keys_kept t true None d d ts 0 None) as (_ & _ & E & _). by rewrite E.
Qed.

(** A committed computation whose checkpoint is saved brings the affinities up to date. *)
Lemma saved_counts t0 t d0 d :
  let full := is_before d0 (m_recompute (metadata t0)) in
  let since := if full then None else m_affinity (metadata t0) in
  computed since (cy_affinities t0) (cy_affinities t) ->
  metadata t = observe (save_of full d (max_ts since (cy_affinities t0)) (activity_view t0)) ->
  in_step t0 -> few_terms (cy_affinities t0) ->
  up_to_date (cy_affinities t0) (cy_affinities t) /\ in_step t.
Proof.
  intros full since (now & Ha) Hm [Hg Hc] Hfew.
  destruct (saved_affinity full d (max_ts since (cy_affinities t0)) (activity_view t0)) as (Hma & _). rewrite <- Hm in Hma.
  assert (Hsince : forall c, since = Some c -> m_affinity (metadata t0) = Some c /\ counted (Some c) (cy_affinities t0)).
  { unfold since. destruct full eqn:Hgate; [done|]. intros c Hcp. destruct (before_not _ _ Hgate) as (d' & Hd' & _).
    split; [done|]. apply Hc; [by exists d'|done]. }
  assert (Hup : up_to_date (cy_affinities t0) (cy_affinities t)).
  { rewrite Ha. destruct since as [c|]; [|by apply recompute_up_to_date]. apply increment_up_to_date; [done|]. by apply Hsince. }
  split; [done|]. split; [by apply (up_to_date_grounded _ _ Hup)|]. intros _ ts Hts. rewrite Hma in Hts.
  apply (up_to_date_counted _ _ ts Hup). intros x. apply (checkpoint_bounds since (m_affinity (metadata t0))); [|done].
  intros c Hcp. by apply Hsince.
Qed.

(** A successful phase 5 brings the affinities up to date. *)
Lemma phase_counts w w' : affinity_phase w = (Done tt, w') -> in_step (tables w) -> few_terms (cy_affinities (tables w)) ->
  up_to_date (cy_affinities (tables w)) (cy_affinities (tables w')) /\ in_step (tables w').
Proof.
  intros Hrun. pose proof (affinity_ends w) as He. unfold ends in He. rewrite Hrun in He.
  destruct He as [(_ & _ & _ & e & ?)|(d0 & d & _ & _ & _ & Ha & Hm)]; [done|]. by apply (saved_counts _ _ d0 d).
Qed.

(** No run touches the changes. *)
Lemma phase_changes w o w' : affinity_phase w = (o, w') ->
  changes (cy_affinities (tables w')) = changes (cy_affinities (tables w)).
Proof.
  intros Hrun. pose proof (affinity_ends w) as He. unfold ends in He. rewrite Hrun in He.
  assert (Hc : forall since a a', computed since a a' -> changes a' = changes a) by (intros since a a' [now ->]; by destruct since).
  destruct He as [(_ & -> & _)|(d0 & d & _ & _ & _ & He)]; [done|].
  destruct o as [?|?|]; [|destruct He as [[-> _]|[He _]]|]; [|done| |done]; [destruct He as [He _]|]; exact (Hc _ _ _ He).
Qed.

Lemma failed_in_step w e w' : affinity_phase w = (Failed e, w') -> checkpoint_kept_up (tables w) (tables w') ->
  in_step (tables w) -> few_terms (cy_affinities (tables w)) -> in_step (tables w').
Proof.
  intros Hrun Hkept Hs Hfew. pose proof (affinity_ends w) as He. unfold ends in He. rewrite Hrun in He.
  assert (Hsame : cy_affinities (tables w') = cy_affinities (tables w) -> metadata (tables w') = metadata (tables w) ->
    in_step (tables w')) by (unfold in_step; by intros -> ->).
  destruct He as [(_ & Ha & Hm & _)|(d0 & d & _ & _ & _ & [[Ha Hm]|[Ha [Hm|Hm]]])]; [by apply Hsame..| |].
  - destruct Hkept as [Hk|Hk]; [by apply Hsame|done].
  - by apply (saved_counts _ _ d0 d Ha Hm).
Qed.

Lemma history_in_step w0 w : history w0 w -> in_step (tables w0) -> few_terms (cy_affinities (tables w)) -> in_step (tables w).
Proof.
  intros Hh Hbegin. induction Hh as [|w w' _ IH Harr|w w' _ IH Hrun|w e w' _ IH Hrun Hkept]; intros Hfew; [done|..].
  - apply (arrival_in_step _ _ Harr), IH. eapply few_subset; [apply (topics_subset _ _ (arrival_keeps _ _ Harr))|done].
  - assert (Hw : few_terms (cy_affinities (tables w))) by (unfold few_terms, all_changes in *; by rewrite <- (phase_changes _ _ _ Hrun)).
    apply (phase_counts w w'); [done|by apply IH|done].
  - assert (Hw : few_terms (cy_affinities (tables w))) by (unfold few_terms, all_changes in *; by rewrite <- (phase_changes _ _ _ Hrun)).
    by apply (failed_in_step w e w'); [..|apply IH|].
Qed.

(** The changes after the checkpoint, counted again. *)
Lemma phase_again w e w1 w2 c : affinity_phase w = (Failed e, w1) -> affinity_phase w1 = (Done tt, w2) ->
  (forall d, reading d -> is_before d (m_recompute (metadata (tables w))) = false) ->
  m_affinity (metadata (tables w)) = Some c -> metadata (tables w1) = metadata (tables w) ->
  cy_affinities (tables w1) <> cy_affinities (tables w) ->
  counted (Some c) (cy_affinities (tables w)) -> few_terms (cy_affinities (tables w)) ->
  forall k, figures_of <$> user_topic_affinity (cy_affinities (tables w2)) !! k =
    plus (totals k (all_changes (cy_affinities (tables w)))) (totals k (scanned (Some c) (cy_affinities (tables w)))).
Proof.
  intros Hrun1 Hrun2 Hclosed Hcp Hsame Hdone Hcount Hfew k. pose proof (affinity_ends w) as E1. pose proof (affinity_ends w1) as E2.
  unfold ends in E1, E2. rewrite Hrun1 in E1. rewrite Hrun2 in E2.
  destruct E1 as [(_ & Ha & _)|(d0 & d & Hd0 & _ & _ & [[Ha _]|[(now & Ha1) _]])]; [done..|].
  destruct E2 as [(_ & _ & _ & e2 & ?)|(d2 & d3 & Hd2 & _ & _ & (now2 & Ha2) & _)]; [done|].
  rewrite Hsame, (Hclosed _ Hd2), Hcp in Ha2. rewrite (Hclosed _ Hd0), Hcp in Ha1. cbn in Ha1, Ha2.
  set (a := cy_affinities (tables w)) in *. set (a1 := cy_affinities (tables w1)) in *.
  destruct (increment_up_to_date c now a Hfew Hcount) as [Hch Hf1]. rewrite <- Ha1 in Hch, Hf1.
  assert (Hall : all_changes a1 = all_changes a) by (unfold all_changes; by rewrite Hch).
  assert (Hfew1 : few_terms a1) by (unfold few_terms; by rewrite Hall).
  assert (Hg1 : grounded a1) by (apply (up_to_date_grounded a); by split).
  destruct (increment_adds c now2 a1 Hfew1 Hg1) as [Hp Hl]. rewrite Ha2, Hp, Hl, Hf1. unfold scanned. by rewrite Hall.
Qed.

Context (today : NaiveDate) (Hday : forall w, date_of (fst (utc_now w)) = today).

Lemma clock_today_runs w : exists w1, clock_today w = (Done today, w1) /\ tables w1 = tables w.
Proof.
  unfold clock_today. pose proof (Hclock w) as Ht. pose proof (Hday w) as Hd. destruct (utc_now w) as [now w1]. cbn in *. subst today.
  by exists w1.
Qed.

(** The metadata but for one entry. *)
Definition only_rfm (m m' : Metadata) : Prop :=
  m_backfill m' = m_backfill m /\ m_affinity m' = m_affinity m /\ m_recompute m' = m_recompute m /\ m_cohorts m' = m_cohorts m.

Lemma saved_rfm d t : metadata (with_metadata (save_rfm_sweep_date d) t) = {|
  m_backfill := m_backfill (metadata t); m_rfm := Some d; m_affinity := m_affinity (metadata t);
  m_recompute := m_recompute (metadata t); m_cohorts := m_cohorts (metadata t) |}.
Proof. exact (proj1 (proj2 (checkpoint_keys_kept (activity_view t) true None d d 0 0 None))). Qed.


Lemma ends_clock w (Q : outcome NaiveDate -> CycleTables -> Prop) : Q (Done today) (tables w) -> ends clock_today w Q.
Proof. intros HQ. unfold ends. destruct (clock_today_runs w) as (w1 & -> & Ht). by rewrite Ht. Qed.

Lemma ends_at_now {A} (k : DateTime -> W -> outcome A * W) w (Q : outcome A -> CycleTables -> Prop) :
  (forall now w1, tables w1 = tables w -> date_of now = today -> ends (k now) w1 Q) -> ends (at_now k) w Q.
Proof.
  intros Hk. unfold ends, at_now. pose proof (Hclock w) as Hc. pose proof (Hday w) as Hd.
  destruct (utc_now w) as [now w1]. cbn in *. by apply Hk.
Qed.

(** The sweep leaves its date behind, whether or not it ran. *)
Lemma sweep_ends ids w : ends (sweep_phase ids) w (fun o t =>
  same_base (tables w) t /\ only_rfm (metadata (tables w)) (metadata t) /\
  match o with
  | Done _ => exists d, m_rfm (metadata t) = Some d /\ today <= d
  | Failed _ => True
  | Panicked => False
  end).
Proof.
  set (t0 := tables w).
  pose (I := fun t => same_base t0 t /\ only_rfm (metadata t0) (metadata t)).
  assert (Hstep : forall m w1 (P : CycleTables -> Prop), scores_only m -> I (tables w1) -> P (tables w1) ->
    (forall t t', cy_checkpoint t' = cy_checkpoint t -> P t -> P t') ->
    ends m w1 (fun o t => I t /\ P t /\ o <> Panicked)).
  { intros m w1 P Hm [Hb Ho] HP Hc. specialize (Hm w1). unfold ends. destruct (m w1) as [o w2]. destruct Hm as (Hb2 & Hc2 & Hp).
    split_and!; [|by eapply Hc|done]. split; [by transitivity (tables w1)|]. by rewrite (same_metadata _ _ Hc2). }
  pose (R := fun t => exists d, m_rfm (metadata t) = Some d /\ today <= d).
  assert (HR : forall t t', cy_checkpoint t' = cy_checkpoint t -> R t -> R t').
  { intros t t' Hc [d Hd]. exists d. by rewrite (same_metadata _ _ Hc). }
  assert (HI : I t0) by by split.
  assert (Hsaved : forall t, I t -> I (with_metadata (save_rfm_sweep_date today) t) /\ R (with_metadata (save_rfm_sweep_date today) t)).
  { intros t [Hb Hm]. unfold I, R. rewrite saved_rfm. split; [split; [|done]|by exists today]. transitivity t; [done|by split]. }
  apply ends_then, ends_clock. intros w1 Hw1. apply ends_then, ends_query; [|intros e; rewrite Hw1; destruct HI; by split_and!].
  intros w2 Hw2. rewrite Hw1 in Hw2. cbv zeta. set (needs := is_before today _).
  assert (Hdated : needs = false -> R (tables w2)).
  { intros Hn. apply before_not in Hn as (d & Hd & Hle). exists d. split; [|done]. by rewrite Hw2, <- Hw1. }
  apply ends_then. eapply (ends_weaken _ _ (fun o t => I t /\ match o with Done _ => R t | Failed _ => True | Panicked => False end)).
  - destruct needs.
    + apply ends_then. eapply ends_weaken; [apply (Hstep _ w2 (fun _ => True) (rfm_scores_only None)); [by rewrite Hw2|done|done]|].
      intros o t (HIt & _ & Ho). destruct o as [u|e|]; [|done|done]. intros w3 Hw3. rewrite <- Hw3 in HIt.
      destruct (Hsaved _ HIt). by apply ends_save; [|intros e t' [->| ->]].
    + assert (HIw : I (tables w2)) by by rewrite Hw2. specialize (Hdated eq_refl).
      eapply ends_weaken; [apply (Hstep _ w2 R); [|done|exact Hdated|exact HR]|].
      * destruct (is_empty ids); [apply nothing_scores|apply rfm_scores_only].
      * intros o t (? & ? & ?). by destruct o.
  - intros o t [HIt Ho]. destruct o as [u|e|]; [|by destruct HIt|done]. intros w3 Hw3. rewrite <- Hw3 in *.
    eapply ends_weaken; [apply (Hstep _ w3 R); [|done|done|exact HR]|].
    + destruct needs; [apply classify_scores_only|]. destruct (is_empty ids); [apply nothing_scores|apply classify_scores_only].
    + intros o t' ([? ?] & ? & ?). split; [done|]. split; [done|]. by destruct o.
Qed.
(** *** The other phases *)

(** Phase 6 leaves its time behind when it ran, and only its cohorts. *)
Lemma cohort_ends w : ends cohort_phase w (fun o t =>
  activity_view t = with_checkpoint (cy_checkpoint t) (activity_view (tables w)) /\ cy_affinities t = cy_affinities (tables w) /\
  cy_profiles t = cy_profiles (tables w) /\ m_backfill (metadata t) = m_backfill (metadata (tables w)) /\ m_rfm (metadata t) = m_rfm (metadata (tables w)) /\
  m_recompute (metadata t) = m_recompute (metadata (tables w)) /\
  match o with
  | Done _ => exists now, date_of now = today /\ should_run_weekly_cohorts now (activity_view t) = false
  | Failed _ => True
  | Panicked => False
  end).
Proof.
  set (t0 := tables w). set (Q := fun o t => _).
  assert (Hfail : forall e t, activity_view t = activity_view t0 -> cy_affinities t = cy_affinities t0 -> cy_profiles t = cy_profiles t0 ->
    Q (Failed e) t).
  { intros e t Hv Ha Hp. unfold Q. rewrite Hv. split_and!; try done. rewrite <- Hv. by destruct t. }
  assert (Hdue : forall w1, tables w1 = t0 ->
    ends (and_then compute_retention_cohorts (fun _ => at_now (fun now => pool_execute (save_last_cohort_run now)))) w1 Q).
  { intros w1 Hw1. apply ends_then. unfold ends, compute_retention_cohorts.
    destruct (commit_tx _ w1) as [r w2] eqn:Hc. cbn in Hc.
    assert (Hk : activity_view (tables w2) = activity_view t0 /\ cy_affinities (tables w2) = cy_affinities t0 /\
      cy_profiles (tables w2) = cy_profiles t0).
    { rewrite <- Hw1. by destruct (tx_commit _ (read_laws _ L) _ _ _ _ Hc) as [->|[-> _]]. }
    destruct Hk as (Hv & Ha & Hp). destruct r as [u|e]; [|by apply Hfail]. intros w3 Hw3. apply ends_at_now. intros now w4 Hw4 Hnow.
    destruct (checkpoint_keys_kept (activity_view t0) true None 0 0 now now None) as (_ & _ & _ & _ & Ho & Hweek & _).
    assert (Hs : activity_view (with_metadata (save_last_cohort_run now) (tables w4)) = save_last_cohort_run now (activity_view t0)).
    { change (save_last_cohort_run now (activity_view (tables w4)) = save_last_cohort_run now (activity_view t0)). by rewrite Hw4, Hw3, Hv. }
    assert (Ha4 : cy_affinities (tables w4) = cy_affinities t0) by by rewrite Hw4, Hw3.
    assert (Hp4 : cy_profiles (tables w4) = cy_profiles t0) by by rewrite Hw4, Hw3.
    set (saved := with_metadata (save_last_cohort_run now) (tables w4)) in *.
    assert (Hwc : activity_view saved = with_checkpoint (cy_checkpoint saved) (activity_view t0)).
    { change (cy_checkpoint saved) with (checkpoint (activity_view saved)). by rewrite Hs. }
    apply ends_save; [|intros e t' [->| ->]].
    - change (Q (Done tt) saved). unfold Q. split; [exact Hwc|]. rewrite Hs, Ho. split_and!; try done.
      exists now. split; [done|]. rewrite Hweek. by rewrite Z.sub_diag.
    - apply Hfail; [by rewrite Hw4, Hw3|done|done].
    - change (Q (Failed e) saved). unfold Q. split; [exact Hwc|]. rewrite Hs, Ho. by split_and!. }
  apply ends_then. unfold weekly_cohorts_due. apply ends_then, ends_query; [|intros e; by apply Hfail].
  intros w1 Hw1. change (time_field _ (get activity_lens (tables w))) with (time_field "last_cohort_run_at" (activity_view t0)).
  destruct (time_field "last_cohort_run_at" (activity_view t0)) as [last|] eqn:Hlast.
  - apply ends_at_now. intros now w2 Hw2 Hnow. apply ends_done. intros w3 Hw3. rewrite Hw2, Hw1 in Hw3.
    destruct (_ <=? _) eqn:Hle; [by apply Hdue|]. unfold ends, nothing. rewrite Hw3. split_and!; try done.
    exists now. split; [done|]. unfold should_run_weekly_cohorts. fold t0. by rewrite Hlast.
  - apply ends_done. intros w2 Hw2. apply Hdue. by rewrite Hw2, Hw1.
Qed.

(** Phases 1 and 2. *)
Lemma refresh_ends w : ends refresh_profiles w (fun o t =>
  refreshed today (activity_view (tables w)) o (activity_view t) /\ cy_affinities t = cy_affinities (tables w)).
Proof.
  pose proof (refresh_outcome (fun w => activity_view (tables w)) today w activity_laws (view_clock activity_view) Hday) as Hr.
  pose proof (focus_apart activity_lens tables cy_affinities L (fun s t => eq_refl)) as HA.
  pose proof (apart_refresh (fun w => cy_affinities (tables w)) (fun w => f_equal cy_affinities (Hclock w)) HA w) as Ha.
  unfold ends. by destruct (refresh_profiles w).
Qed.

Lemma segment_gauges_tables w : tables (snd (segment_gauges w)) = tables w.
Proof.
  unfold segment_gauges. pose proof (if_ok_view segment_lens count_active_accounts w) as H1'. destruct (if_ok _ w) as [n w1].
  pose proof (if_ok_view segment_lens count_accounts_by_segment w1) as H2'. destruct (if_ok _ w1) as [l w2]. cbn in *. congruence.
Qed.
Lemma dirty_gauges_end w (Q : outcome unit -> CycleTables -> Prop) : Q (Done tt) (tables w) -> ends dirty_gauges w Q.
Proof.
  intros HQ. unfold ends, dirty_gauges. pose proof (if_ok_view activity_lens count_dirty_accounts w) as Hk.
  destruct (if_ok count_dirty_accounts w) as [n w1]. cbn in Hk. by rewrite Hk.
Qed.

(** *** The incremental cycle *)

(** Nothing of the cycle is due any more on [today]. *)
Record nothing_due (t t' : CycleTables) : Prop := {
  due_marks : cy_dirty t' = ∅;
  due_rollups a : is_Some (cy_dirty t !! a) -> cy_daily t' !! (a, midnight today) = Some (today_rollup a today (cy_sources t));
  due_profiles a : is_Some (cy_dirty t !! a) ->
    pf_figures <$> (profile <$> cy_profiles t' !! a) = Some (figures a today (activity_view t'));
  due_sweep : is_before today (get_last_rfm_sweep_date (activity_view t')) = false;
  due_recompute : should_run_daily_affinity_recompute today (activity_view t') = false;
  due_cohorts : exists now, date_of now = today /\ should_run_weekly_cohorts now (activity_view t') = false;
  due_capped a : (length (affinities_of a (cy_affinities t')) <= TOP_N_AFFINITIES)%nat;
  due_backfill : get_backfill_state (activity_view t') = get_backfill_state (activity_view t)
}.

Lemma computed_capped since a a' x : computed since a a' -> (length (affinities_of x a') <= TOP_N_AFFINITIES)%nat.
Proof. intros (now & ->). rewrite pruned_of. unfold best_of. rewrite length_take. lia. Qed.

Lemma reading_today d : reading d -> d = today.
Proof. intros [w0 ->]. apply Hday. Qed.

Lemma not_before d last : last = Some d -> today <= d -> is_before today last = false.
Proof. intros ->. cbn. lia. Qed.

(** The view of the activity tables but for the checkpoint. *)
Lemma figures_base a t t' : cy_sources t' = cy_sources t -> cy_daily t' = cy_daily t ->
  figures a today (activity_view t') = figures a today (activity_view t).
Proof. intros Hs Hd. unfold figures, account_days. cbn. by rewrite Hs, Hd. Qed.

(** What the phases leave behind, put together: [t1] after the refresh, [t2] after the
    sweep, [t3] after the affinities and [t4] at the end. *)
Lemma phases_leave_nothing t0 t1 t2 t3 t4 d since
  (Hr : profiles_fresh today (marked (activity_view t0)) (with_dirty ∅ (activity_view t0)) (activity_view t1))
  (Hb : same_base t1 t2) (Hm2 : only_rfm (metadata t1) (metadata t2)) (Hd : m_rfm (metadata t2) = Some d) (Hle : today <= d)
  (Hrest : rest_of t3 = rest_of t2) (Hcomp : computed since (cy_affinities t2) (cy_affinities t3))
  (Hm3 : let full := is_before today (m_recompute (metadata t2)) in
    metadata t3 = observe (save_of full today (max_ts since (cy_affinities t2)) (activity_view t2)))
  (Hv : activity_view t4 = with_checkpoint (cy_checkpoint t4) (activity_view t3)) (Ha4 : cy_affinities t4 = cy_affinities t3)
  (Hbf : m_backfill (metadata t4) = m_backfill (metadata t3)) (Hrfm : m_rfm (metadata t4) = m_rfm (metadata t3))
  (Hrec : m_recompute (metadata t4) = m_recompute (metadata t3))
  (Hweek : exists now, date_of now = today /\ should_run_weekly_cohorts now (activity_view t4) = false) :
  nothing_due t0 t4.
Proof.
  cbv zeta in Hm3. destruct Hr as [(Hs1 & Hc1 & Hd1) Hroll Hprof _ _]. cbn in Hs1, Hc1, Hd1.
  destruct Hb as [Hs2 Hd2 Hy2 _ _ _ Hp2]. injection Hrest as Es Ed Ey Ep _ _.
  pose proof (f_equal sources Hv) as Hs4. pose proof (f_equal dirty_account_activity Hv) as Hd4.
  pose proof (f_equal user_activity_daily Hv) as Hy4. pose proof (f_equal user_activity_profile Hv) as Hp4. cbn in Hs4, Hd4, Hy4, Hp4.
  set (full := is_before today (m_recompute (metadata t2))) in *.
  destruct (saved_affinity full today (max_ts since (cy_affinities t2)) (activity_view t2)) as (_ & Hfull & Hincr & Hsr & Hsb).
  rewrite <- Hm3 in Hfull, Hincr, Hsr, Hsb. split.
  - congruence.
  - intros a Ha. specialize (Hroll a Ha). cbn in Hroll. congruence.
  - intros a Ha. specialize (Hprof a Ha). rewrite <- lookup_fmap.
    assert (Hp : profile <$> cy_profiles t4 = user_activity_profile (activity_view t1)) by (rewrite Hp4, Ep; exact Hp2).
    rewrite Hp, Hprof. f_equal. symmetry. apply figures_base; congruence.
  - change (is_before today (m_rfm (metadata t4)) = false). apply (not_before d); [|done]. by rewrite Hrfm, Hsr.
  - change (is_before today (m_recompute (metadata t4)) = false). rewrite Hrec. destruct full eqn:Hf.
    + rewrite Hfull by done. cbn. lia.
    + by rewrite Hincr.
  - done.
  - intros a. rewrite Ha4. by eapply computed_capped.
  - change (m_backfill (metadata t4) = m_backfill (metadata t0)). rewrite Hbf, Hsb. destruct Hm2 as [-> _].
    by rewrite (same_metadata t0 t1).
Qed.

Lemma incremental_ends w : ends incremental_cycle w (fun o t =>
  match o with Done _ => nothing_due (tables w) t | Failed _ => True | Panicked => False end).
Proof.
  set (t0 := tables w). apply ends_then. eapply ends_weaken; [apply refresh_ends|].
  intros [ids|e|] t1 [Hr Ha1]; [|done..]. cbn in Hr. destruct Hr as [_ Hr]. intros w1 Hw1.
  apply ends_then. eapply ends_weaken; [apply sweep_ends|]. rewrite Hw1.
  intros [u|e|] t2 (Hb & Hm2 & Ho); [|done..]. destruct Ho as (d & Hd & Hle). intros w2 Hw2.
  pose proof (segment_gauges_tables w2) as Hg. unfold ends. destruct (segment_gauges w2) as [g w3]. cbn in Hg.
  change (ends (and_then affinity_phase (fun _ w => let '(_, w) := if_ok count_topic_affinity_rows w in
    and_then cohort_phase (fun _ => dirty_gauges) w)) w3 (fun o t =>
    match o with Done _ => nothing_due t0 t | Failed _ => True | Panicked => False end)).
  apply ends_then. eapply ends_weaken; [apply affinity_ends|]. rewrite Hg, Hw2.
  intros [u'|e|] t3 Ho; [|done|].
  2: { by destruct Ho as [(_ & _ & _ & e & ?)|(d0 & d1 & _ & _ & _ & ?)]. }
  destruct Ho as [(_ & _ & _ & e & ?)|(d0 & d1 & Hd0 & Hd1 & Hrest & Hcomp & Hm3)]; [done|].
  apply reading_today in Hd0, Hd1. subst d0 d1. intros w4 Hw4.
  pose proof (if_ok_view affinity_lens count_topic_affinity_rows w4) as Hk. unfold ends.
  destruct (if_ok count_topic_affinity_rows w4) as [n w5]. cbn in Hk.
  change (ends (and_then cohort_phase (fun _ => dirty_gauges)) w5 (fun o t => match o with Done _ => nothing_due t0 t | Failed _ => True | Panicked => False end)).
  apply ends_then. eapply ends_weaken; [apply cohort_ends|]. rewrite Hk, Hw4.
  intros [u''|e|] t4 (Hv & Ha4 & _ & Hbf & Hrfm & Hrec & Ho); [|done..]. intros w6 Hw6. apply dirty_gauges_end. rewrite Hw6.
  by eapply phases_leave_nothing.
Qed.
(** *** A cycle without marks, once the sweep of the day is recorded *)

Lemma refresh_unmarked w : cy_dirty (tables w) = ∅ ->
  ends refresh_profiles w (fun o t => t = tables w /\ match o with Done ids => ids = [] | Failed _ => True | Panicked => False end).
Proof.
  intros Hd. set (t0 := tables w). set (Q := fun o t => _).
  assert (Hput : over activity_lens (fun t => with_dirty ∅ t) t0 = t0).
  { change (put_activity (with_dirty ∅ (activity_view t0)) t0 = t0).
    replace (with_dirty ∅ (activity_view t0)) with (activity_view t0); [apply activity_put_get|].
    unfold with_dirty, activity_view, t0. cbn. by rewrite Hd. }
  assert (Hdrain : ends (in_transaction drain_activity) w (fun o t => t = t0 /\ match o with Done ds => ds = [] | Failed _ => True | Panicked => False end)).
  { unfold ends, in_transaction, drain_activity, run_returning. cbn.
    pose proof (tx_begin _ (read_laws _ L) w) as Hb. destruct (begin_tx w) as [[u|e] w1]; [|done]. cbn in Hb.
    set (q := fun t => map fst (map_to_list (cy_dirty t))).
    pose proof (read_fetch _ L q (over activity_lens (fun t => t)) w1) as Hs.
    pose proof (read_answer _ L q (over activity_lens (fun t => t)) w1) as Ha. cbn in Hs, Ha.
    change (fetch _ (over activity_lens _) w1) with (fetch q (over activity_lens (fun t => t)) w1).
    destruct (fetch q _ w1) as [[ds|e] w2]; cbn in Hs; [|by rewrite Hs, Hb].
    specialize (Ha ds eq_refl). rewrite Hb in *.
    destruct (commit_tx (over activity_lens (fun t => with_dirty ∅ t)) w2) as [r w3] eqn:Hc.
    assert (Ht : tables w3 = t0).
    { destruct (tx_commit _ (read_laws _ L) _ _ _ _ Hc) as [->|[-> _]]; rewrite Hs; done. }
    destruct r; (split; [done|]); [|done]. rewrite Ha. unfold q, over. cbn. by rewrite Hd, map_to_list_empty. }
  apply ends_then. eapply ends_weaken; [apply Hdrain|]. intros [ds|e|] t [-> Ho]; [|done..]. subst ds. intros w1 Hw1. cbv zeta.
  assert (Hempty : set_iter (list_to_set []) = []) by (apply Permutation_nil; symmetry; by rewrite set_iter_perm).
  rewrite Hempty. apply ends_then. unfold ends. cbn. by rewrite Hw1.
Qed.

Lemma sweep_unmarked w d : get_last_rfm_sweep_date (activity_view (tables w)) = Some d -> today <= d ->
  ends (sweep_phase []) w (fun o t => t = tables w /\ o <> Panicked).
Proof.
  intros Hd Hle. apply ends_then, ends_clock. intros w1 Hw1. apply ends_then, ends_query; rewrite Hw1; [|done].
  intros w2 Hw2. cbv zeta. change (get activity_lens (tables w)) with (activity_view (tables w)). rewrite (not_before d) by done.
  apply ends_then. unfold ends, nothing. cbn. intros w3 Hw3. by rewrite Hw3, Hw2.
Qed.

Lemma unmarked_keeps w d : cy_dirty (tables w) = ∅ -> get_last_rfm_sweep_date (activity_view (tables w)) = Some d -> today <= d ->
  ends incremental_cycle w (fun o t => cy_profiles t = cy_profiles (tables w) /\ o <> Panicked).
Proof.
  intros Hdirty Hd Hle. apply ends_then. eapply ends_weaken; [by apply refresh_unmarked|].
  intros [ids|e|] t1 [-> Ho]; [|done..]. subst ids. intros w1 Hw1.
  apply ends_then. eapply ends_weaken; [apply (sweep_unmarked w1 d); [by rewrite Hw1|done]|].
  rewrite Hw1. intros [u|e|] t2 [-> Hp2]; [|done..]. intros w2 Hw2.
  pose proof (segment_gauges_tables w2) as Hg. unfold ends. destruct (segment_gauges w2) as [g w3]. cbn in Hg.
  change (ends (and_then affinity_phase (fun _ w => let '(_, w) := if_ok count_topic_affinity_rows w in
    and_then cohort_phase (fun _ => dirty_gauges) w)) w3 (fun o t =>
    cy_profiles t = cy_profiles (tables w) /\ o <> Panicked)).
  apply ends_then. eapply ends_weaken; [apply affinity_ends|]. rewrite Hg, Hw2. intros o t3 Hr.
  assert (Hp : cy_profiles t3 = cy_profiles (tables w) /\ o <> Panicked).
  { destruct Hr as [([= _ _ _ E _ _] & _ & _ & e & ->)|(d0 & d1 & _ & _ & [= _ _ _ E _ _] & Ho)]; split; try done. by destruct o. }
  destruct o as [u'|e|]; [|done|by destruct Hp]. intros w4 Hw4.
  pose proof (if_ok_view affinity_lens count_topic_affinity_rows w4) as Hk. unfold ends.
  destruct (if_ok count_topic_affinity_rows w4) as [n w5]. cbn in Hk.
  change (ends (and_then cohort_phase (fun _ => dirty_gauges)) w5 (fun o t => cy_profiles t = cy_profiles (tables w) /\ o <> Panicked)).
  apply ends_then. eapply ends_weaken; [apply cohort_ends|]. rewrite Hk, Hw4. intros o' t4 (_ & _ & Hp4 & _ & _ & _ & Ho').
  assert (Hp' : cy_profiles t4 = cy_profiles (tables w)) by (destruct Hp; congruence).
  destruct o' as [u''|e|]; [|done|done]. intros w6 Hw6. apply dirty_gauges_end. by rewrite Hw6.
Qed.
End Phases.

(** ** Properties *)

(** The lock and its release do not touch the tables. *)
Definition locks_apart {W} `{AdvisoryLocks W} (tables : W -> CycleTables) : Prop := forall name w,
  tables (snd (pg_try_advisory_lock name w)) = tables w /\ tables (snd (pg_advisory_unlock name w)) = tables w.

(** A cycle that has the lock and is past the backfill. *)
Lemma run_cycle_ends `{DateText} `{HashOrder} `{PgFunctions} `{Float8} {W} `{Clock W} `{ReadPool CycleTables W} `{AdvisoryLocks W}
  (tables : W -> CycleTables) (L : ReadLaws tables) (Hlocks : locks_apart tables) w (Q : outcome unit -> CycleTables -> Prop) :
  fst (pg_try_advisory_lock PROJECTION_NAME w) = Ok true ->
  fst (get_backfill_state (activity_view (tables w))) = true ->
  (forall w1, tables w1 = tables w -> ends tables incremental_cycle w1 Q) -> (forall e, Q (Failed e) (tables w)) ->
  ends tables run_cycle w Q.
Proof.
  intros Hlock Hdone Hk Hf. unfold ends, run_cycle. destruct (Hlocks PROJECTION_NAME w) as [Hl _].
  destruct (pg_try_advisory_lock PROJECTION_NAME w) as [r w1]. cbn in Hlock, Hl. subst r.
  change (ends tables (and_then (query (R := focus activity_lens) get_backfill_state) (fun state w =>
    let '(result, w) := if fst state then incremental_cycle w else
      @backfill_cycle _ _ _ (focus activity_lens) (snd state) w in
    let '(_, w) := pg_advisory_unlock PROJECTION_NAME w in (result, w))) w1 Q).
  apply (ends_then tables), (ends_query tables L); rewrite Hl; [|done]. intros w2 Hw2.
  change (get activity_lens (tables w)) with (activity_view (tables w)). rewrite Hdone.
  specialize (Hk w2 Hw2). unfold ends in *. destruct (incremental_cycle w2) as [o w3].
  destruct (Hlocks PROJECTION_NAME w3) as [_ Hu]. destruct (pg_advisory_unlock PROJECTION_NAME w3) as [u w4]. cbn in Hu. by rewrite Hu.
Qed.

(** C12 (a cycle leaves nothing due). A cycle that cannot have the lock does nothing and
    succeeds. One that has it, with the backfill complete, does not panic, and if it
    succeeds within one day: the marks are gone and every account that was marked has
    today's rollup and a profile with the figures of its rollups, which the later phases
    have not disturbed; the scores were swept, the affinities recomputed and the cohorts
    computed, so that none of them is due again that day; no account has more than fifty
    affinities; and the state of the backfill is what it was. *)
Theorem cycle_leaves_nothing_due `{DateText} `{HashOrder} `{PgFunctions} `{Float8} {W} `{Clock W} `{ReadPool CycleTables W}
  `{AdvisoryLocks W} (tables : W -> CycleTables) (today : NaiveDate) (w : W)
  (L : ReadLaws tables) (Hclock : clock_apart tables) (Hlocks : locks_apart tables)
  (Hday : forall w, date_of (fst (utc_now w)) = today) :
  (fst (pg_try_advisory_lock PROJECTION_NAME w) = Ok false ->
    fst (run_cycle w) = Done tt /\ tables (snd (run_cycle w)) = tables w) /\
  (fst (pg_try_advisory_lock PROJECTION_NAME w) = Ok true -> fst (get_backfill_state (activity_view (tables w))) = true ->
    let '(o, w') := run_cycle w in
    match o with
    | Done _ => nothing_due today (tables w) (tables w')
    | Failed _ => True
    | Panicked => False
    end).
Proof.
  split.
  - unfold run_cycle. destruct (Hlocks PROJECTION_NAME w) as [Hl _]. destruct (pg_try_advisory_lock PROJECTION_NAME w) as [r w1].
    cbn in *. by intros ->.
  - intros Hlock Hdone. apply (run_cycle_ends tables L Hlocks w (fun o t =>
      match o with Done _ => nothing_due today (tables w) t | Failed _ => True | Panicked => False end)); [done..| |done].
    intros w1 <-. by apply incremental_ends.
Qed.

(** C13 (the affinities follow the changes). Take affinities that were never computed,
    and let position changes arrive and phase 5 run, any number of times in any order, on
    any days, under two conditions: each change is later than the affinity checkpoint at
    the time it arrives, and no run commits affinities and then fails to save their
    checkpoint (one that does is counted twice, [lost_checkpoint_counts_twice]; a run may
    fail before its commit or after its save). Then after a run that succeeds the
    affinities hold, for every account and term with changes, their number, their capital
    and the time of the last of them, and no other rows. Whether the gate chose a recompute
    or an increment makes no difference, as long as no account deals with more than fifty
    terms. *)
Theorem affinities_follow_changes `{DateText} `{PgFunctions} `{Float8} {W} `{Clock W} `{ReadPool CycleTables W}
  (tables : W -> CycleTables) (w0 w w' : W)
  (L : ReadLaws tables) (Hclock : clock_apart tables)
  (Hnever : user_topic_affinity (cy_affinities (tables w0)) = ∅ /\
            date_field "topic_affinity_last_full_recompute_date" (activity_view (tables w0)) = None)
  (Hhistory : history tables w0 w) (Hfew : few_terms (cy_affinities (tables w)))
  (Hrun : affinity_phase w = (Done tt, w')) :
  changes (cy_affinities (tables w')) = changes (cy_affinities (tables w)) /\
  forall k, figures_of <$> user_topic_affinity (cy_affinities (tables w')) !! k = totals k (all_changes (cy_affinities (tables w))).
Proof.
  assert (H0' : in_step (tables w0)).
  { destruct Hnever as [Hnone Hdate]. split; [intros k; rewrite Hnone; by intros [? ?%lookup_empty_Some]|].
    cbn. rewrite Hdate. by intros [? ?]. }
  exact (proj1 (phase_counts tables L Hclock w w' Hrun (history_in_step tables L Hclock w0 w Hhistory H0' Hfew) Hfew)).
Qed.

(** A lost checkpoint counts twice. When an incremental run of phase 5 has committed
    its increments and fails to save its checkpoint, the next run counts the changes since
    the old checkpoint a second time: a topic with such changes has all of them in its
    figures and those once more, until the recompute of another day. *)
Theorem lost_checkpoint_counts_twice `{DateText} `{PgFunctions} `{Float8} {W} `{Clock W} `{ReadPool CycleTables W}
  (tables : W -> CycleTables) (w w1 w2 : W) (e : string) (c : DateTime) (k : string * string) (n capital : Z) (last : option DateTime)
  (n' capital' : Z) (last' : option DateTime)
  (L : ReadLaws tables) (Hclock : clock_apart tables)
  (Hclosed : forall w0, should_run_daily_affinity_recompute (date_of (fst (utc_now w0))) (activity_view (tables w)) = false)
  (Hcheckpoint : get_topic_affinity_checkpoint (activity_view (tables w)) = Some c)
  (Hcounted : counted (Some c) (cy_affinities (tables w))) (Hfew : few_terms (cy_affinities (tables w)))
  (Hfirst : affinity_phase w = (Failed e, w1))
  (Hcommitted : cy_affinities (tables w1) <> cy_affinities (tables w))
  (Hunsaved : observe (activity_view (tables w1)) = observe (activity_view (tables w)))
  (Hsecond : affinity_phase w1 = (Done tt, w2))
  (Hall : totals k (all_changes (cy_affinities (tables w))) = Some (n, capital, last))
  (Hnew : totals k (scanned (Some c) (cy_affinities (tables w))) = Some (n', capital', last')) :
  exists row, user_topic_affinity (cy_affinities (tables w2)) !! k = Some row /\
    interaction_count row = n + n' /\ total_capital_deployed row = capital + capital'.
Proof.
  pose proof (phase_again tables L Hclock w e w1 w2 c Hfirst Hsecond) as Hk.
  assert (Hgate : forall d, reading (W := W) d -> is_before d (m_recompute (observe (activity_view (tables w)))) = false).
  { intros d [w0 ->]. exact (Hclosed w0). }
  specialize (Hk Hgate Hcheckpoint Hunsaved Hcommitted Hcounted Hfew k). rewrite Hall, Hnew in Hk.
  destruct (user_topic_affinity (cy_affinities (tables w2)) !! k) as [row|]; [|done]. cbn in Hk.
  injection Hk as E1 E2 _. by exists row.
Qed.

(** A recorded sweep is not repeated. Once the date of the day's sweep is saved,
    which happens before the segments are classified, a cycle that finds no marks leaves
    every row of the profiles as it is, segments and scores, however it ends: when the
    classification of the day has failed, nothing makes up for it that day. *)
Theorem recorded_sweep_not_repeated `{DateText} `{HashOrder} `{PgFunctions} `{Float8} {W} `{Clock W} `{ReadPool CycleTables W}
  `{AdvisoryLocks W} (tables : W -> CycleTables) (today d : NaiveDate) (w : W)
  (L : ReadLaws tables) (Hclock : clock_apart tables) (Hlocks : locks_apart tables)
  (Hday : forall w, date_of (fst (utc_now w)) = today)
  (Hlock : fst (pg_try_advisory_lock PROJECTION_NAME w) = Ok true)
  (Hdone : fst (get_backfill_state (activity_view (tables w))) = true)
  (Hsaved : get_last_rfm_sweep_date (activity_view (tables w)) = Some d) (Htoday : today <= d)
  (Hmarks : cy_dirty (tables w) = ∅) :
  cy_profiles (tables (snd (run_cycle w))) = cy_profiles (tables w) /\ fst (run_cycle w) <> Panicked.
Proof.
  pose proof (run_cycle_ends tables L Hlocks w (fun o t => cy_profiles t = cy_profiles (tables w) /\ o <> Panicked) Hlock Hdone) as He.
  unfold ends in He. destruct (run_cycle w) as [o w']. apply He; [|done]. intros w1 Hw1.
  pose proof (unmarked_keeps tables L Hclock today Hday w1 d) as Hk. rewrite Hw1 in Hk. by apply Hk.
Qed.

(** ** Concrete tables *)

(** Commits that fail, in order, without effect. *)
Record cycle_world := { cw_tables : CycleTables; cw_failures : list bool }.

#[global] Instance cycle_clock : Clock cycle_world := {| utc_now w := (midnight 3 + DAY / 2, w) |}.
#[global] Instance cycle_pool : ReadPool CycleTables cycle_world := {|
  read_pool := {|
    begin_tx w := (Ok tt, w);
    statement w := (Ok tt, w);
    commit_tx f w :=
      match cw_failures w with
      | true :: bs => (Err "connection reset", {| cw_tables := cw_tables w; cw_failures := bs |})
      | bs => (Ok tt, {| cw_tables := f (cw_tables w); cw_failures := tail bs |})
      end |};
  fetch A q tx w := (Ok (q (tx (cw_tables w))), w) |}.
#[global] Instance cycle_locks : AdvisoryLocks cycle_world := {|
  pg_try_advisory_lock _ w := (Ok true, w); pg_advisory_unlock _ w := (Ok tt, w) |}.

Lemma cycle_laws : ReadLaws cw_tables.
Proof.
  split; [split|..]; try done.
  - intros f w r w' Hc. cbn in Hc. destruct (cw_failures w) as [|[] bs]; injection Hc as <- <-; [by left|by right|by left].
  - intros A q tx w a. cbn. by intros [= <-].
Qed.

(** It is noon of day [3]; the backfill is complete, account [0xa] is marked and has two
    atoms, and a change of day [1]. *)
Definition demo_cycle_tables : CycleTables := {|
  cy_sources := demo_sources; cy_dirty := {["0xa" := "0xa"]}; cy_daily := ∅;
  cy_checkpoint := Some (Some {["backfill_complete" := Bool true]}); cy_profiles := ∅; cy_seen := {["0xa" := midnight 2]};
  cy_affinities := {| changes := {[("e1", midnight 1) := demo_change "7" 5]}; user_topic_affinity := ∅ |}; cy_cohorts := ∅ |}.
Definition demo_world (t : CycleTables) (failures : list bool) : cycle_world :=
  {| cw_tables := t; cw_failures := failures |}.

Lemma cycle_clock_apart : clock_apart cw_tables.
Proof. done. Qed.

Lemma cycle_day (w : cycle_world) : date_of (fst (utc_now w)) = 3.
Proof. by vm_compute. Qed.

Definition demo_cycle : outcome unit * cycle_world := run_cycle (demo_world demo_cycle_tables []).

Example demo_cycle_done :
  (fst demo_cycle, map fst (map_to_list (cy_profiles (cw_tables (snd demo_cycle)))),
   figures_of <$> user_topic_affinity (cy_affinities (cw_tables (snd demo_cycle))) !! ("0xa", "7"),
   cy_cohorts (cw_tables (snd demo_cycle)) !! ("0xa", midnight (-3), 0)) =
  (Done tt, ["0xa"], Some (1, 5, Some (midnight 1)), Some {| was_active := true; action_count := 1 |}).
Proof. vm_compute. reflexivity. Qed.

Lemma cycle_leaves_nothing_due_witness :
  fst demo_cycle = Done tt /\ nothing_due 3 demo_cycle_tables (cw_tables (snd demo_cycle)).
Proof.
  assert (Hdone : fst demo_cycle = Done tt) by (vm_compute; reflexivity). split; [exact Hdone|].
  pose proof (cycle_leaves_nothing_due cw_tables 3 (demo_world demo_cycle_tables []) cycle_laws cycle_clock_apart
    (fun name w => conj eq_refl eq_refl) cycle_day) as [_ Hc].
  specialize (Hc eq_refl ltac:(vm_compute; reflexivity)). unfold demo_cycle in *.
  destruct (run_cycle (demo_world demo_cycle_tables [])) as [o w']. cbn in Hdone. subst o. exact Hc.
Defined.

(** After a recompute; a change that arrives then is counted by an increment. *)
Definition counted_tables : CycleTables := cw_tables (snd (affinity_phase (demo_world demo_cycle_tables []))).
Definition late_tables : CycleTables := {|
  cy_sources := cy_sources counted_tables; cy_dirty := cy_dirty counted_tables; cy_daily := cy_daily counted_tables;
  cy_checkpoint := cy_checkpoint counted_tables; cy_profiles := cy_profiles counted_tables; cy_seen := cy_seen counted_tables;
  cy_affinities := {| changes := <[("e2", midnight 2) := demo_change "7" 8]> (changes (cy_affinities counted_tables));
    user_topic_affinity := user_topic_affinity (cy_affinities counted_tables) |};
  cy_cohorts := cy_cohorts counted_tables |}.

Lemma few_by_count ks : (length ks <= TOP_N_AFFINITIES)%nat -> few ks.
Proof.
  intros Hl a. etransitivity; [apply length_filter|]. etransitivity; [|exact Hl].
  apply submseteq_length, NoDup_submseteq; [apply NoDup_remove_dups|]. intros k. by rewrite elem_of_remove_dups.
Qed.

Lemma late_arrival : arrival counted_tables late_tables.
Proof.
  split; [done|done|..].
  - apply insert_subseteq. vm_compute. reflexivity.
  - intros k row ts Hk Hnone Hts. assert (Hts' : ts = midnight 1) by (vm_compute in Hts; injection Hts as <-; reflexivity).
    subst ts. unfold late_tables in Hk. cbn [cy_affinities changes] in Hk.
    apply lookup_insert_Some in Hk as [[<- _]|[_ Hk]]; [vm_compute; reflexivity|]. rewrite Hnone in Hk. discriminate Hk.
Qed.

Lemma affinities_follow_changes_witness :
  let w' := snd (affinity_phase (demo_world late_tables [])) in
  figures_of <$> user_topic_affinity (cy_affinities (cw_tables w')) !! ("0xa", "7") = Some (2, 13, Some (midnight 2)).
Proof.
  cbv zeta.
  assert (Hrun : affinity_phase (demo_world late_tables []) = (Done tt, snd (affinity_phase (demo_world late_tables []))))
    by (vm_compute; reflexivity).
  assert (Hfew : few_terms (cy_affinities late_tables)) by (apply few_by_count; vm_compute; lia).
  assert (Hh : history cw_tables (demo_world demo_cycle_tables [true]) (demo_world late_tables [])).
  { refine (history_arrival cw_tables _ (demo_world counted_tables []) (demo_world late_tables []) _ late_arrival).
    refine (history_phase cw_tables _ (demo_world demo_cycle_tables []) _ _ _); [|vm_compute; reflexivity].
    refine (history_failed cw_tables _ _ "connection reset" _ (history_begins _ _) _ _); [vm_compute|left]; reflexivity. }
  refine (eq_trans (proj2 (affinities_follow_changes cw_tables (demo_world demo_cycle_tables [true]) (demo_world late_tables []) _
    cycle_laws cycle_clock_apart (conj eq_refl _) Hh Hfew Hrun) ("0xa", "7")) _); vm_compute; reflexivity.
Defined.

(** The increment commits, its checkpoint does not. *)
Definition lost_run : cycle_world := snd (affinity_phase (demo_world late_tables [false; true])).

Lemma late_counted : counted (Some (midnight 1)) (cy_affinities late_tables).
Proof.
  assert (Hs : in_step counted_tables).
  { apply (history_in_step cw_tables cycle_laws cycle_clock_apart (demo_world demo_cycle_tables []) (demo_world counted_tables [])).
    - refine (history_phase cw_tables _ _ _ (history_begins _ _) _). vm_compute. reflexivity.
    - split; [intros k [row Hk]; vm_compute in Hk; discriminate Hk|]. intros [d Hd]. vm_compute in Hd. discriminate Hd.
    - apply few_by_count. vm_compute. lia. }
  apply (arrival_in_step _ _ late_arrival Hs); [by exists 3; vm_compute|vm_compute; reflexivity].
Qed.

Lemma lost_checkpoint_counts_twice_witness :
  let w2 := snd (affinity_phase lost_run) in
  exists row, user_topic_affinity (cy_affinities (cw_tables w2)) !! ("0xa", "7") = Some row /\
    interaction_count row = 3 /\ total_capital_deployed row = 21.
Proof.
  cbv zeta.
  assert (Hfirst : affinity_phase (demo_world late_tables [false; true]) = (Failed "connection reset", lost_run)) by (vm_compute; reflexivity).
  assert (Hsecond : affinity_phase lost_run = (Done tt, snd (affinity_phase lost_run))) by (vm_compute; reflexivity).
  assert (Hclosed : forall w0 : cycle_world,
    should_run_daily_affinity_recompute (date_of (fst (utc_now w0))) (activity_view late_tables) = false).
  { intros w0. rewrite cycle_day. vm_compute. reflexivity. }
  assert (Hcheckpoint : get_topic_affinity_checkpoint (activity_view late_tables) = Some (midnight 1)) by (vm_compute; reflexivity).
  assert (Hfew : few_terms (cy_affinities late_tables)) by (apply few_by_count; vm_compute; lia).
  refine (lost_checkpoint_counts_twice cw_tables (demo_world late_tables [false; true]) lost_run _ "connection reset" (midnight 1)
    ("0xa", "7") 2 13 (Some (midnight 2)) 1 8 (Some (midnight 2)) cycle_laws cycle_clock_apart Hclosed Hcheckpoint late_counted Hfew
    Hfirst _ _ Hsecond _ _); [|vm_compute; reflexivity..].
  intros E. apply (f_equal (fun a => figures_of <$> user_topic_affinity a !! ("0xa", "7"))) in E. vm_compute in E. discriminate E.
Defined.

(** The commits of a cycle are those of the drain, the profiles, the scores, the sweep date
    and the segments: the last of these fails. *)
Definition unclassified : outcome unit * cycle_world :=
  run_cycle (demo_world demo_cycle_tables [false; false; false; false; true]).

Example classification_failed :
  (fst unclassified, get_last_rfm_sweep_date (activity_view (cw_tables (snd unclassified))),
   map (fun kv => user_segment (snd kv)) (map_to_list (cy_profiles (cw_tables (snd unclassified)))),
   map (fun kv => previous_segment (snd kv)) (map_to_list (cy_profiles (cw_tables (snd unclassified))))) =
  (Failed "connection reset", Some 3, [new_user], [None]).
Proof. vm_compute. reflexivity. Qed.

Lemma recorded_sweep_not_repeated_witness :
  let w := snd unclassified in
  fst (run_cycle w) = Done tt /\ cy_profiles (cw_tables (snd (run_cycle w))) = cy_profiles (cw_tables w).
Proof.
  cbv zeta. split; [vm_compute; reflexivity|].
  exact (proj1 (recorded_sweep_not_repeated cw_tables 3 3 (snd unclassified) cycle_laws cycle_clock_apart
    (fun name w => conj eq_refl eq_refl) cycle_day eq_refl ltac:(vm_compute; reflexivity) ltac:(vm_compute; reflexivity)
    ltac:(lia) ltac:(vm_compute; reflexivity))).
Defined.
