(* ===== verification/Funnels.v ===== *)
(** * Funnels

    [crates/projections/src/repo/funnel_repo.rs] and
    [src/projection/timescaledb/funnel_tracker.rs]: the four funnels, each a list of
    [INSERT .. ON CONFLICT DO NOTHING] statements in a transaction of its own, and the
    cycle that runs them. The first insert of a funnel finds an account's first event;
    the others are joined to the rows of the first. Metrics are left out. *)

From stdpp Require Import sorting.
From S2P Require Import Prelude Events Errors PgTx TxCode PgCommon DemoWorld DemoDatabase Ingestion ActivityDaily UserActivity.

Abbreviation Uuid := string.

(** ** The tables *)

(** The key of [funnel_event]: account, funnel, step and completion time. *)
Abbreviation StepKey := (string * Uuid * Z * DateTime)%type.
Record FunnelTables := {
  sources : IngestTables;
  funnel_definition : gmap string Uuid;   (* by their unique name *)
  funnel_event : gmap StepKey Z
}.
Definition with_steps (m : gmap StepKey Z) (t : FunnelTables) : FunnelTables :=
  {| sources := sources t; funnel_definition := funnel_definition t; funnel_event := m |}.

(** A row a query answers: who, when and the number of the event. *)
Record Step := { st_account : string; st_at : DateTime; st_event : Z }.

Definition of_row {R K} `{TypedTable R K} (account : R -> string) (row : Z * R) : Step :=
  {| st_account := account (snd row); st_at := block_timestamp (envelope (snd row)); st_event := fst row |}.
Definition numbered_rows {R K} `{TypedTable R K} (t : IngestTables) : list (Z * R) := map snd (map_to_list (table t)).

Definition sender_of_deposit (r : DepositedTyped) : string := dep_sender (dt_data r).
Definition atom_steps (t : IngestTables) : list Step := map (of_row creator_of_atom) (numbered_rows t).
Definition triple_steps (t : IngestTables) : list Step := map (of_row creator_of_triple) (numbered_rows t).
Definition deposit_steps (t : IngestTables) : list Step := map (of_row sender_of_deposit) (numbered_rows t).

(** ** Queries *)

(** [ORDER BY block_timestamp, sequence_number] *)
Definition earlier (x y : Step) : Prop := st_at x < st_at y \/ (st_at x = st_at y /\ st_event x <= st_event y).
#[global] Instance earlier_dec x y : Decision (earlier x y).
Proof. unfold earlier. apply _. Defined.
Definition of_account (a : string) (l : list Step) : list Step :=
  @merge_sort Step earlier earlier_dec (filter (fun x => st_account x = a) l).
Definition accounts_of (l : list Step) : list string := remove_dups (map st_account l).

(** [DISTINCT ON (account)], and [ROW_NUMBER() .. = n]. *)
Definition nth_of_each (n : nat) (l : list Step) : list Step := omap (fun a => of_account a l !! n) (accounts_of l).
Definition distinct_on (l : list Step) : list Step := nth_of_each 0 l.

(** The join with the rows of step 0 of the funnel: a row for each of them. *)
Definition follows (strict : bool) (window : Z) (x : Step) (first : string * DateTime) : Prop :=
  fst first = st_account x /\ (if strict then snd first < st_at x else snd first <= st_at x) /\ st_at x <= snd first + window.
#[global] Instance follows_dec strict window x first : Decision (follows strict window x first).
Proof. unfold follows. destruct strict; apply _. Defined.
Definition join_step0 (strict : bool) (window : Z) (firsts : list (string * DateTime)) (l : list Step) : list Step :=
  flat_map (fun x => map (fun _ => x) (filter (follows strict window x) firsts)) l.

(** [EXISTS] an atom of the sender, with the deposit's term, made at most a day before. *)
Definition on_own_atom (t : IngestTables) (row : Z * DepositedTyped) : bool :=
  let d := snd row in
  let at_ := block_timestamp (envelope d) in
  existsb (fun a : Z * AtomCreatedTyped =>
    let made := block_timestamp (envelope (snd a)) in
    String.eqb (creator_of_atom (snd a)) (sender_of_deposit d) && (at_term_id (snd a) =? dt_term_id d) &&
    (made <=? at_) && (at_ <=? made + DAY)) (numbered_rows t).

(** ** Funnels *)

Record Insert := { step_index : Z; select : IngestTables -> list (string * DateTime) -> list Step }.

Definition ATOM_FIRST_EVENT : Insert := {| step_index := 0; select t _ := distinct_on (atom_steps t) |}.

Definition onboarding_funnel : list Insert := [
  ATOM_FIRST_EVENT;
  {| step_index := 1; select t firsts := distinct_on (join_step0 false (30 * DAY) firsts (deposit_steps t)) |}].

Definition activation_funnel : list Insert := [
  {| step_index := 0; select t _ := distinct_on (deposit_steps t) |};
  {| step_index := 1; select t firsts := distinct_on (join_step0 true (7 * DAY) firsts (deposit_steps t)) |}].

Definition creator_funnel : list Insert := [
  ATOM_FIRST_EVENT;
  {| step_index := 1; select t firsts := distinct_on (join_step0 true (90 * DAY) firsts (triple_steps t)) |};
  {| step_index := 2; select t firsts := nth_of_each 4 (join_step0 false (90 * DAY) firsts (atom_steps t)) |}].

Definition cross_feature_funnel : list Insert := [
  ATOM_FIRST_EVENT;
  {| step_index := 1; select t firsts :=
       distinct_on (join_step0 false DAY firsts
         (map (of_row sender_of_deposit) (filter (fun r => on_own_atom t r = true) (numbered_rows t)))) |}].

(** The rows of step 0 of a funnel. *)
Definition is_first (funnel : Uuid) (kv : StepKey * Z) : Prop :=
  let '(_, f, step, _) := fst kv in f = funnel /\ step = 0.
#[global] Instance is_first_dec funnel kv : Decision (is_first funnel kv).
Proof. destruct kv as [[[[a f] step] ts] e]. unfold is_first. cbn. apply _. Defined.
Definition firsts_of (funnel : Uuid) (m : gmap StepKey Z) : list (string * DateTime) :=
  map (fun kv : StepKey * Z => let '(a, _, _, ts) := fst kv in (a, ts)) (map_to_list (filter (is_first funnel) m)).

Definition row_of (funnel : Uuid) (step : Z) (x : Step) : StepKey * Z := ((st_account x, funnel, step, st_at x), st_event x).
Definition insert_rows (funnel : Uuid) (t : IngestTables) (i : Insert) (m : gmap StepKey Z) : gmap StepKey Z :=
  insert_all (map (row_of funnel (step_index i)) (select i t (firsts_of funnel m))) m.
Definition insert_step (funnel : Uuid) (i : Insert) (t : FunnelTables) : FunnelTables :=
  with_steps (insert_rows funnel (sources t) i (funnel_event t)) t.

(** ** The cycle *)

Record FunnelIds := { onboarding : Uuid; activation : Uuid; creator : Uuid; cross_feature : Uuid }.

Definition funnel_ids (t : FunnelTables) : option FunnelIds :=
  o ← funnel_definition t !! "onboarding"; a ← funnel_definition t !! "activation";
  c ← funnel_definition t !! "creator"; x ← funnel_definition t !! "cross_feature";
  Some {| onboarding := o; activation := a; creator := c; cross_feature := x |}.

Definition missing_seed (t : FunnelTables) : string :=
  let is_missing name := match funnel_definition t !! name with Some _ => false | None => true end in
  match List.find is_missing ["onboarding"; "activation"; "creator"; "cross_feature"] with
  | Some name => "funnel_definition seed row '" +:+ name +:+ "' is missing"
  | None => ""
  end.

Section Cycle.
Context {W : Type} `{ReadPool FunnelTables W}.

Definition fetch_funnel_ids (w : W) : outcome FunnelIds * W :=
  and_then (fun w => let '(r, w) := fetch (fun t => (funnel_ids t, missing_seed t)) (fun t => t) w in
                     (match r with Ok a => Done a | Err e => Failed e end, w))
    (fun '(ids, missing) w => (match ids with Some ids => Done ids | None => Failed missing end, w)) w.

Definition compute_funnel (funnel : list Insert) (funnel_id : Uuid) : tx_code FunnelTables W unit :=
  for_each (fun i => run_statement (insert_step funnel_id i)) funnel.
Definition compute_onboarding_funnel : Uuid -> tx_code FunnelTables W unit := compute_funnel onboarding_funnel.
Definition compute_activation_funnel : Uuid -> tx_code FunnelTables W unit := compute_funnel activation_funnel.
Definition compute_creator_funnel : Uuid -> tx_code FunnelTables W unit := compute_funnel creator_funnel.
Definition compute_cross_feature_funnel : Uuid -> tx_code FunnelTables W unit := compute_funnel cross_feature_funnel.

Definition run_cycle : W -> outcome unit * W :=
  and_then fetch_funnel_ids (fun ids =>
  and_then (in_transaction (compute_onboarding_funnel (onboarding ids))) (fun _ =>
  and_then (in_transaction (compute_activation_funnel (activation ids))) (fun _ =>
  and_then (in_transaction (compute_creator_funnel (creator ids))) (fun _ =>
  in_transaction (compute_cross_feature_funnel (cross_feature ids)))))).
End Cycle.

(** ** What a funnel inserts *)

Definition funnel_of (k : StepKey) : Uuid := let '(_, f, _, _) := k in f.
Definition step_of (k : StepKey) : Z := let '(_, _, s, _) := k in s.

(** The first insert is of step 0 and looks at the events only; the others are of later
    steps. *)
Definition lawful (funnel : list Insert) : Prop :=
  match funnel with
  | [] => False
  | i :: rest => step_index i = 0 /\ (forall t l l', select i t l = select i t l') /\ Forall (fun i => step_index i <> 0) rest
  end.

Section Funnel.
Context (f : Uuid) (s : IngestTables).

Definition rows_for (i : Insert) (firsts : list (string * DateTime)) : list (StepKey * Z) :=
  map (row_of f (step_index i)) (select i s firsts).
Definition run_inserts (funnel : list Insert) (m : gmap StepKey Z) : gmap StepKey Z :=
  fold_left (fun m i => insert_rows f s i m) funnel m.
Definition later_rows (rest : list Insert) (m : gmap StepKey Z) : list (StepKey * Z) :=
  concat (map (fun i => rows_for i (firsts_of f m)) rest).
Definition funnel_rows (funnel : list Insert) (m : gmap StepKey Z) : list (StepKey * Z) :=
  match funnel with
  | [] => []
  | i :: rest => rows_for i [] ++ later_rows rest (insert_all (rows_for i []) m)
  end.

Lemma insert_all_app {K R} `{Countable K} (a b : list (K * R)) m : insert_all (a ++ b) m = insert_all b (insert_all a m).
Proof. unfold insert_all. apply fold_left_app. Qed.

Lemma rows_for_key i firsts k e : (k, e) ∈ rows_for i firsts -> funnel_of k = f /\ step_of k = step_index i.
Proof. unfold rows_for. intros Hr%list_elem_of_fmap. by destruct Hr as (x & [= -> ->] & _). Qed.

(** Rows of other funnels or of later steps do not change the rows of step 0. *)
Lemma firsts_apart rows m :
  (forall k e, (k, e) ∈ rows -> funnel_of k <> f \/ step_of k <> 0) -> firsts_of f (insert_all rows m) = firsts_of f m.
Proof.
  intros Hr. unfold firsts_of. do 2 f_equal. apply map_eq. intros k. rewrite !map_lookup_filter, insert_all_union, lookup_union.
  destruct (list_to_map rows !! k) as [e|] eqn:Hk; [|by rewrite (right_id_L None union)].
  apply elem_of_list_to_map_2, Hr in Hk. destruct k as [[[a g] n] ts]. cbn in Hk.
  destruct (m !! _) as [e'|] eqn:Hm; [done|]. cbn. rewrite option_guard_False; [done|]. unfold is_first. cbn. tauto.
Qed.

Lemma run_later rest m : Forall (fun i => step_index i <> 0) rest ->
  run_inserts rest m = insert_all (later_rows rest m) m /\ firsts_of f (run_inserts rest m) = firsts_of f m.
Proof.
  intros Hrest. revert m. induction Hrest as [|i rest Hi Hrest IH]; intros m; [done|].
  unfold run_inserts in *. cbn [fold_left]. destruct (IH (insert_rows f s i m)) as [Hr Hf].
  assert (Hsame : firsts_of f (insert_rows f s i m) = firsts_of f m).
  { apply firsts_apart. intros k e Hk. right. by rewrite (proj2 (rows_for_key _ _ _ _ Hk)). }
  split; [|by rewrite Hf]. rewrite Hr. unfold later_rows. rewrite Hsame. cbn [map concat]. by rewrite insert_all_app.
Qed.

Lemma run_inserts_rows funnel m : lawful funnel -> run_inserts funnel m = insert_all (funnel_rows funnel m) m.
Proof.
  destruct funnel as [|i rest]; [done|]. intros (Hi & Hsel & Hrest). unfold run_inserts, funnel_rows. cbn [fold_left].
  rewrite insert_all_app. assert (Hrows : insert_rows f s i m = insert_all (rows_for i []) m).
  { unfold insert_rows, rows_for. by rewrite (Hsel s _ []). }
  rewrite Hrows. by apply run_later.
Qed.

Lemma funnel_rows_key funnel m k e : (k, e) ∈ funnel_rows funnel m -> funnel_of k = f.
Proof.
  destruct funnel as [|i rest]; [by intros ?%not_elem_of_nil|]. cbn. rewrite elem_of_app. intros [Hr|Hr]; [by apply rows_for_key in Hr as [? _]|].
  apply list_elem_of_In, in_concat in Hr as (rows & Hin & Hr). apply list_elem_of_In, list_elem_of_fmap in Hin as (j & -> & _).
  by apply list_elem_of_In, rows_for_key in Hr as [? _].
Qed.

(** Running the inserts again changes nothing. *)
Lemma run_inserts_again funnel m : lawful funnel -> run_inserts funnel (run_inserts funnel m) = run_inserts funnel m.
Proof.
  intros Hl. rewrite (run_inserts_rows funnel (run_inserts funnel m) Hl). pose proof (run_inserts_rows funnel m Hl) as Hrun.
  assert (Hsame : funnel_rows funnel (run_inserts funnel m) = funnel_rows funnel m).
  { destruct funnel as [|i rest]; [done|]. destruct Hl as (Hi & Hsel & Hrest). cbn [funnel_rows]. f_equal. unfold later_rows.
    assert (Hrows : insert_rows f s i m = insert_all (rows_for i []) m) by (unfold insert_rows, rows_for; by rewrite (Hsel s _ [])).
    assert (Hthere : insert_all (rows_for i []) (run_inserts (i :: rest) m) = run_inserts (i :: rest) m).
    { apply insert_all_present. intros k e Hk. rewrite Hrun. apply (insert_all_has _ _ _ e). cbn. apply elem_of_app. by left. }
    rewrite Hthere. unfold run_inserts at 1. cbn [fold_left]. rewrite Hrows. by rewrite (proj2 (run_later rest _ Hrest)). }
  rewrite Hsame. apply insert_all_present. intros k e Hk. rewrite Hrun. by apply (insert_all_has _ _ _ e).
Qed.

(** Rows of other funnels change nothing of what it inserts. *)
Lemma funnel_rows_apart funnel rows m :
  (forall k e, (k, e) ∈ rows -> funnel_of k <> f) -> funnel_rows funnel (insert_all rows m) = funnel_rows funnel m.
Proof.
  intros Hr. destruct funnel as [|i rest]; [done|]. cbn [funnel_rows]. f_equal. unfold later_rows.
  assert (Hf : firsts_of f (insert_all (rows_for i []) (insert_all rows m)) = firsts_of f (insert_all (rows_for i []) m)).
  { rewrite <- insert_all_app. unfold firsts_of. do 2 f_equal. apply map_eq. intros k.
    rewrite !map_lookup_filter, !insert_all_union, !lookup_union, list_to_map_app, lookup_union.
    destruct (list_to_map rows !! k) as [e|] eqn:Hk; [|by rewrite (left_id_L None union)].
    apply elem_of_list_to_map_2, Hr in Hk. destruct k as [[[a g] n] ts]. cbn in Hk.
    assert (Hnone : (list_to_map (rows_for i []) : gmap StepKey Z) !! (a, g, n, ts) = None).
    { apply not_elem_of_list_to_map_1. intros Hin. apply list_elem_of_fmap in Hin as ([k' e'] & Heq & Hin). cbn in Heq. subst k'.
      by apply rows_for_key in Hin as [? _]. }
    rewrite Hnone, !(right_id_L None union). destruct (m !! _) as [e'|]; [done|]. cbn. rewrite option_guard_False; [done|].
    unfold is_first. cbn. tauto. }
  by rewrite Hf.
Qed.
End Funnel.

Lemma run_inserts_commute f g s fs gs m : f <> g -> lawful fs -> lawful gs ->
  run_inserts f s fs (run_inserts g s gs m) = run_inserts g s gs (run_inserts f s fs m).
Proof.
  intros Hne Hf Hg. rewrite !run_inserts_rows by done.
  rewrite (funnel_rows_apart f s fs (funnel_rows g s gs m)) by (intros k e Hk%funnel_rows_key; congruence).
  rewrite (funnel_rows_apart g s gs (funnel_rows f s fs m)) by (intros k e Hk%funnel_rows_key; congruence).
  rewrite !insert_all_union, <- !(assoc_L (∪)). f_equal. apply map_union_comm. apply map_disjoint_spec. intros k x y Hx Hy.
  apply elem_of_list_to_map_2, funnel_rows_key in Hx, Hy. congruence.
Qed.

(** ** What a cycle does *)

Definition funnels (ids : FunnelIds) : list (Uuid * list Insert) := [
  (onboarding ids, onboarding_funnel); (activation ids, activation_funnel);
  (creator ids, creator_funnel); (cross_feature ids, cross_feature_funnel)].
Definition apply_funnel (t : FunnelTables) (p : Uuid * list Insert) : FunnelTables :=
  fold_left (fun t i => insert_step (fst p) i t) (snd p) t.
Definition apply_funnels (ps : list (Uuid * list Insert)) (t : FunnelTables) : FunnelTables := fold_left apply_funnel ps t.

Definition distinct_ids (ids : FunnelIds) : Prop := NoDup (map fst (funnels ids)).

Lemma funnels_lawful ids p : p ∈ funnels ids -> lawful (snd p).
Proof.
  intros Hp. unfold funnels in Hp. rewrite !elem_of_cons in Hp.
  destruct Hp as [->|[->|[->|[->|?%not_elem_of_nil]]]]; [..|done]; cbn; split_and!; try done; repeat constructor; done.
Qed.

Lemma apply_funnel_steps t p :
  apply_funnel t p = with_steps (run_inserts (fst p) (sources t) (snd p) (funnel_event t)) t.
Proof.
  destruct p as [f fs]. unfold apply_funnel, run_inserts. cbn. revert t. induction fs as [|i fs IH]; intros t; [by destruct t|].
  cbn [fold_left]. by rewrite IH.
Qed.

(** Functions that commute and change nothing the second time may be applied before all of
    them are. *)
Lemma fold_absorbs {A B} (g : A -> B -> A) (P : B -> Prop) bs b a :
  (forall a x, P x -> g (g a x) x = g a x) -> (forall a x y, P x -> P y -> g (g a x) y = g (g a y) x) ->
  Forall P bs -> b ∈ bs -> fold_left g bs (g a b) = fold_left g bs a.
Proof.
  intros Hidem Hcomm Hbs. revert a. induction Hbs as [|x bs Hx Hbs IH]; intros a Hb; [by apply not_elem_of_nil in Hb|]. cbn [fold_left].
  destruct (proj1 (elem_of_cons bs b x) Hb) as [->|Hin]; [by rewrite Hidem|].
  rewrite Hcomm; [by apply IH| |done]. rewrite Forall_forall in Hbs. by apply Hbs.
Qed.

Section Converge.
Context (ids : FunnelIds) (Hids : distinct_ids ids).

Lemma funnel_again t p : p ∈ funnels ids -> apply_funnel (apply_funnel t p) p = apply_funnel t p.
Proof. intros Hp%funnels_lawful. rewrite !apply_funnel_steps. unfold with_steps. cbn. by rewrite run_inserts_again. Qed.

Lemma funnels_commute t p q : p ∈ funnels ids -> q ∈ funnels ids ->
  apply_funnel (apply_funnel t p) q = apply_funnel (apply_funnel t q) p.
Proof.
  intros Hp Hq. destruct (decide (fst p = fst q)) as [Heq|Hne].
  - apply list_elem_of_lookup in Hp as [i Hi]. apply list_elem_of_lookup in Hq as [j Hj].
    assert (i = j) as ->; [|congruence].
    apply (NoDup_lookup _ i j (fst p) Hids); rewrite list_lookup_fmap; [by rewrite Hi|by rewrite Hj, Heq].
  - apply funnels_lawful in Hp, Hq. rewrite !apply_funnel_steps. unfold with_steps. cbn.
    f_equal. by apply run_inserts_commute.
Qed.

Lemma part_absorbed n t : apply_funnels (funnels ids) (apply_funnels (take n (funnels ids)) t) = apply_funnels (funnels ids) t.
Proof.
  assert (Hsub : forall pre t, Forall (fun p => p ∈ funnels ids) pre ->
    apply_funnels (funnels ids) (apply_funnels pre t) = apply_funnels (funnels ids) t).
  { intros pre. induction pre as [|p pre IH]; intros t' Hpre; [done|]. apply Forall_cons in Hpre as [Hp Hpre].
    unfold apply_funnels in *. cbn [fold_left]. rewrite IH by done.
    apply (fold_absorbs apply_funnel (fun p => p ∈ funnels ids)); [intros; by apply funnel_again|intros; by apply funnels_commute| |done].
    by apply Forall_forall. }
  apply Hsub. apply Forall_take, Forall_forall. done.
Qed.
End Converge.

Section Runs.
Context {W : Type} `{ReadPool FunnelTables W} (tables : W -> FunnelTables) (L : ReadLaws tables).

Definition first_funnels (ids : FunnelIds) (n : nat) (t : FunnelTables) : FunnelTables := apply_funnels (take n (funnels ids)) t.

(** A run that got to the [n]-th funnel. *)
Definition reaches (ids : FunnelIds) (t : FunnelTables) (n : nat) (o : outcome unit) (w' : W) : Prop :=
  match o with
  | Done _ => tables w' = first_funnels ids n t
  | Failed _ => exists m, tables w' = first_funnels ids m t
  | Panicked => False
  end.

Lemma funnel_tx (p : Uuid * list Insert) w :
  let '(o, w') := in_transaction (compute_funnel (snd p) (fst p)) w in
  match o with
  | Done _ => tables w' = apply_funnel (tables w) p
  | Failed _ => tables w' = tables w \/ tables w' = apply_funnel (tables w) p
  | Panicked => False
  end.
Proof.
  pose proof (in_transaction_outcome tables L _ _ w (yields_each tables L (insert_step (fst p)) (snd p))) as Ho.
  unfold compute_funnel. destruct (in_transaction _ w) as [[u|e|] w'].
  - injection Ho as _ Ht. by symmetry.
  - destruct Ho as [?|[u [= _ Ht]]]; [by left|right]. by symmetry.
  - by destruct Ho.
Qed.

Lemma next_funnel ids t n p w :
  funnels ids !! n = Some p -> tables w = first_funnels ids n t ->
  let '(o, w') := in_transaction (compute_funnel (snd p) (fst p)) w in reaches ids t (S n) o w'.
Proof.
  intros Hp Ht. pose proof (funnel_tx p w) as Ho. destruct (in_transaction _ w) as [o w'].
  assert (Hnext : apply_funnel (tables w) p = first_funnels ids (S n) t).
  { rewrite Ht. unfold first_funnels, apply_funnels. by rewrite (take_S_r _ _ _ Hp), fold_left_app. }
  rewrite Hnext, Ht in Ho. destruct o as [u|e|]; [done| |done]. cbn. destruct Ho as [->| ->]; by eexists.
Qed.

Lemma cycle_reaches w :
  let '(o, w') := run_cycle w in
  match funnel_ids (tables w) with
  | Some ids => reaches ids (tables w) 4 o w'
  | None => (exists e, o = Failed e) /\ tables w' = tables w
  end.
Proof.
  unfold run_cycle, fetch_funnel_ids, and_then at 1 2. set (q := fun t => (funnel_ids t, missing_seed t)).
  pose proof (read_fetch _ L q (fun t => t) w) as Ht. pose proof (read_answer _ L q (fun t => t) w) as Ha.
  destruct (fetch q (fun t => t) w) as [[[r missing]|e] w1]; cbn in Ht.
  2: { destruct (funnel_ids (tables w)) as [ids|]; [by exists 0%nat|]. split; [by eexists|done]. }
  specialize (Ha _ eq_refl). injection Ha as -> _.
  destruct (funnel_ids (tables w)) as [ids|]; [|by split; [eexists|]]. unfold and_then.
  pose proof (next_funnel ids (tables w) 0 _ w1 eq_refl Ht) as H1. unfold compute_onboarding_funnel. cbn [fst snd] in H1.
  destruct (in_transaction _ w1) as [[u1|e|] w2]; [|done..].
  pose proof (next_funnel ids (tables w) 1 _ w2 eq_refl H1) as H2. unfold compute_activation_funnel. cbn [fst snd] in H2.
  destruct (in_transaction _ w2) as [[u2|e|] w3]; [|done..].
  pose proof (next_funnel ids (tables w) 2 _ w3 eq_refl H2) as H3. unfold compute_creator_funnel. cbn [fst snd] in H3.
  destruct (in_transaction _ w3) as [[u3|e|] w4]; [|done..].
  exact (next_funnel ids (tables w) 3 _ w4 eq_refl H3).
Qed.

(** Cycles, one after the other, whatever they return. *)
Fixpoint attempts (n : nat) (w : W) : W :=
  match n with
  | O => w
  | S n => attempts n (snd (run_cycle w))
  end.

Lemma definitions_kept ps t : funnel_definition (apply_funnels ps t) = funnel_definition t.
Proof.
  revert t. unfold apply_funnels. induction ps as [|p ps IH]; intros t; [done|]. cbn [fold_left]. by rewrite IH, apply_funnel_steps.
Qed.

Lemma ids_kept ps t : funnel_ids (apply_funnels ps t) = funnel_ids t.
Proof. unfold funnel_ids. by rewrite definitions_kept. Qed.

Lemma attempts_absorbed ids n w : distinct_ids ids -> funnel_ids (tables w) = Some ids ->
  funnel_ids (tables (attempts n w)) = Some ids /\
  apply_funnels (funnels ids) (tables (attempts n w)) = apply_funnels (funnels ids) (tables w).
Proof.
  intros Hd. revert w. induction n as [|n IH]; intros w Hids; [done|]. cbn [attempts].
  pose proof (cycle_reaches w) as Hc. rewrite Hids in Hc. destruct (run_cycle w) as [o w1]. cbn [snd].
  assert (Hm : exists m, tables w1 = first_funnels ids m (tables w)) by (destruct o; [by exists 4%nat|done|done]).
  destruct Hm as [m Hm]. destruct (IH w1) as [H1 H2]; [by rewrite Hm; unfold first_funnels; rewrite ids_kept|].
  split; [done|]. rewrite H2, Hm. by apply part_absorbed.
Qed.
End Runs.

(** C40 (cycles converge). However many cycles ran before, and wherever each of them stopped,
    a cycle that succeeds leaves the funnel tables a single clean cycle would have left,
    and another one changes nothing. A cycle never panics, and without one of the four
    definitions it fails and writes nothing. *)
Theorem funnel_cycles_converge {W} `{ReadPool FunnelTables W} (tables : W -> FunnelTables) (n : nat) (w : W)
  (L : ReadLaws tables) (Hdistinct : forall ids, funnel_ids (tables w) = Some ids -> distinct_ids ids) :
  let '(o, w') := run_cycle (attempts n w) in
  match funnel_ids (tables w) with
  | None => (exists e, o = Failed e) /\ tables w' = tables w
  | Some ids =>
      match o with
      | Done _ => tables w' = apply_funnels (funnels ids) (tables w) /\
          (fst (run_cycle w') = Done tt -> tables (snd (run_cycle w')) = tables w')
      | Failed _ => True
      | Panicked => False
      end
  end.
Proof.
  destruct (funnel_ids (tables w)) as [ids|] eqn:Hids.
  - destruct (attempts_absorbed tables L ids n w (Hdistinct ids eq_refl) Hids) as [Hn Ha].
    pose proof (cycle_reaches tables L (attempts n w)) as Hc. rewrite Hn in Hc.
    destruct (run_cycle (attempts n w)) as [[u|e|] w']; [|done..]. unfold reaches, first_funnels in Hc.
    change (take 4 (funnels ids)) with (funnels ids) in Hc.
    split; [by rewrite Hc, Ha|]. intros Ho. pose proof (cycle_reaches tables L w') as Hc2. rewrite Hc, ids_kept, Hn in Hc2.
    destruct (run_cycle w') as [o2 w2]. cbn [fst snd] in *. subst o2. unfold reaches in Hc2. rewrite Hc2, Hc.
    unfold first_funnels. change (take 4 (funnels ids)) with (funnels ids).
    exact (part_absorbed ids (Hdistinct ids eq_refl) 4 (tables (attempts n w))).
  - assert (Hsame : tables (attempts n w) = tables w).
    { clear Hdistinct. revert w Hids. induction n as [|n IH]; intros w Hids; [done|]. cbn [attempts].
      pose proof (cycle_reaches tables L w) as Hc. rewrite Hids in Hc. destruct (run_cycle w) as [o w1]. destruct Hc as [_ Ht]. cbn.
      rewrite IH; [done|by rewrite Ht]. }
    pose proof (cycle_reaches tables L (attempts n w)) as Hc. rewrite Hsame, Hids in Hc.
    destruct (run_cycle (attempts n w)) as [o w']. by destruct Hc.
Qed.

(** ** Rows and the events behind them *)

Definition all_steps (s : IngestTables) : list Step := atom_steps s ++ triple_steps s ++ deposit_steps s.

(** How long after its step 0 a later step of a funnel may come, and whether it may come
    at the same time. *)
Definition limits (ids : FunnelIds) : list (Uuid * Z * (bool * Z)) := [
  ((onboarding ids, 1), (false, 30 * DAY)); ((activation ids, 1), (true, 7 * DAY));
  ((creator ids, 1), (true, 90 * DAY)); ((creator ids, 2), (false, 90 * DAY)); ((cross_feature ids, 1), (false, DAY))].

Definition on_time (ids : FunnelIds) (m : gmap StepKey Z) (f : Uuid) (step : Z) (x : Step) : Prop :=
  step = 0 \/ exists strict window first e, ((f, step), (strict, window)) ∈ limits ids /\
    m !! (st_account x, f, 0, first) = Some e /\ follows strict window x (st_account x, first).

(** Every row is an event of the account, and a later step follows a first one. *)
Definition funnel_ok (ids : FunnelIds) (t : FunnelTables) : Prop :=
  forall f step x, funnel_event t !! (st_account x, f, step, st_at x) = Some (st_event x) ->
    x ∈ all_steps (sources t) /\ on_time ids (funnel_event t) f step x.

Lemma nth_of_each_elem n l x : x ∈ nth_of_each n l -> x ∈ l.
Proof.
  unfold nth_of_each. rewrite list_elem_of_omap. intros (a & _ & Hx). apply list_elem_of_lookup_2 in Hx.
  unfold of_account in Hx. rewrite merge_sort_Permutation in Hx. by apply list_elem_of_filter in Hx as [_ ?].
Qed.

Lemma join_elem strict window firsts l x :
  x ∈ join_step0 strict window firsts l -> x ∈ l /\ exists first, first ∈ firsts /\ follows strict window x first.
Proof.
  unfold join_step0. intros (y & Hy & Hx)%list_elem_of_In%in_flat_map. apply list_elem_of_In in Hy.
  apply list_elem_of_In, list_elem_of_fmap in Hx as (first & -> & Hf). apply list_elem_of_filter in Hf as [Hfo Hin].
  split; [done|]. by exists first.
Qed.

Lemma firsts_elem f m a ts : (a, ts) ∈ firsts_of f m -> exists e, m !! (a, f, 0, ts) = Some e.
Proof.
  unfold firsts_of. rewrite list_elem_of_fmap. intros ([[[[b g] k] ts'] e] & [= <- <-] & Hin). apply elem_of_map_to_list in Hin.
  apply map_lookup_filter_Some in Hin as [Hin Hf]. unfold is_first in Hf. cbn in Hf. destruct Hf as [-> ->]. by exists e.
Qed.

(** What an insert answers comes from the events, in time. *)
Definition sound (ids : FunnelIds) (f : Uuid) (i : Insert) : Prop := forall s firsts x, x ∈ select i s firsts ->
  x ∈ all_steps s /\
  (step_index i = 0 \/ exists strict window first, ((f, step_index i), (strict, window)) ∈ limits ids /\
     first ∈ firsts /\ follows strict window x first).

Lemma sound_first ids f l :
  (forall s x, x ∈ l s -> x ∈ all_steps s) -> sound ids f {| step_index := 0; select s _ := distinct_on (l s) |}.
Proof. intros Hl s firsts x Hx. cbn in Hx. split; [|by left]. by apply Hl, (nth_of_each_elem 0). Qed.

Lemma sound_later ids f step n strict window l :
  ((f, step), (strict, window)) ∈ limits ids -> (forall s x, x ∈ l s -> x ∈ all_steps s) ->
  sound ids f {| step_index := step; select s firsts := nth_of_each n (join_step0 strict window firsts (l s)) |}.
Proof.
  intros Hlim Hl s firsts x Hx. cbn in *. apply nth_of_each_elem, join_elem in Hx as (Hx & first & Hin & Hf).
  split; [by apply Hl|]. right. by exists strict, window, first.
Qed.

Lemma funnels_sound ids p : p ∈ funnels ids -> Forall (sound ids (fst p)) (snd p).
Proof.
  assert (Ha : forall s x, x ∈ atom_steps s -> x ∈ all_steps s) by (intros s x; unfold all_steps; rewrite !elem_of_app; tauto).
  assert (Ht : forall s x, x ∈ triple_steps s -> x ∈ all_steps s) by (intros s x; unfold all_steps; rewrite !elem_of_app; tauto).
  assert (Hd : forall s x, x ∈ deposit_steps s -> x ∈ all_steps s) by (intros s x; unfold all_steps; rewrite !elem_of_app; tauto).
  assert (Hlim : forall f k strict window, ((f, k), (strict, window)) ∈ limits ids <-> List.In ((f, k), (strict, window)) (limits ids))
    by (intros; apply list_elem_of_In).
  intros Hp. unfold funnels in Hp. rewrite !elem_of_cons in Hp.
  destruct Hp as [->|[->|[->|[->|?%not_elem_of_nil]]]]; [..|done]; cbn; repeat (apply Forall_cons; split); try apply Forall_nil;
    first [exact I|by apply sound_first|apply sound_later; [apply Hlim; cbn; tauto|try done]].
  intros s x Hx. apply Hd. unfold deposit_steps. apply list_elem_of_fmap in Hx as (r & -> & Hr). apply list_elem_of_fmap.
  exists r. split; [done|]. by apply list_elem_of_filter in Hr as [_ ?].
Qed.

Lemma insert_step_ok ids f i t : sound ids f i -> funnel_ok ids t -> funnel_ok ids (insert_step f i t).
Proof.
  intros Hi Ht g step x. cbn. intros Hx.
  assert (Hkeep : forall g' step', on_time ids (funnel_event t) g' step' x -> on_time ids (insert_rows f (sources t) i (funnel_event t)) g' step' x).
  { intros g' step' [?|(strict & window & first & e & Hlim & Hm & Hf)]; [by left|right].
    exists strict, window, first, e. split_and!; [done| |done]. by apply insert_all_keeps. }
  apply insert_all_from in Hx as [Hx|Hx].
  - destruct (Ht _ _ _ Hx). split; [done|]. by apply Hkeep.
  - apply list_elem_of_fmap in Hx as (y & Heq & Hy). injection Heq as Ha -> -> Hat He.
    assert (x = y) as -> by (destruct x, y; cbn in *; congruence).
    destruct (Hi _ _ _ Hy) as [Hin [H0|(strict & window & [a first] & Hlim & Hfirst & Hf)]]; (split; [done|]); [by left|].
    apply Hkeep. right. destruct (firsts_elem _ _ _ _ Hfirst) as [e He']. pose proof (proj1 Hf) as Hacc. cbn in Hacc. subst a.
    by exists strict, window, first, e.
Qed.

Lemma first_funnels_ok ids n t : funnel_ok ids t -> funnel_ok ids (first_funnels ids n t).
Proof.
  unfold first_funnels, apply_funnels.
  assert (Hall : Forall (fun p => p ∈ funnels ids) (take n (funnels ids))) by (by apply Forall_take, Forall_forall).
  revert t. induction Hall as [|p ps Hp Hps IH]; intros t Ht; [done|]. cbn [fold_left]. apply IH.
  unfold apply_funnel. pose proof (funnels_sound ids p Hp) as Hs. clear IH Hp. revert t Ht.
  induction Hs as [|i rest Hi Hrest IH]; intros t Ht; [done|]. cbn [fold_left]. by apply IH, insert_step_ok.
Qed.

(** Funnel rows. If every row of the funnels is an event of its account, and every
    row of a later step follows, within the funnel's window, a row of step 0 of the same
    account and funnel, then this is still so after a cycle, wherever it stopped. *)
Theorem funnel_rows_backed {W} `{ReadPool FunnelTables W} (tables : W -> FunnelTables) (w : W) (ids : FunnelIds)
  (L : ReadLaws tables) (Hids : funnel_ids (tables w) = Some ids) (Hok : funnel_ok ids (tables w)) :
  funnel_ok ids (tables (snd (run_cycle w))).
Proof.
  pose proof (cycle_reaches tables L w) as Hc. rewrite Hids in Hc. destruct (run_cycle w) as [o w']. cbn [snd].
  assert (Hm : exists m, tables w' = first_funnels ids m (tables w)) by (destruct o; [by exists 4%nat|done|done]).
  destruct Hm as [m ->]. by apply first_funnels_ok.
Qed.

(** ** Concrete tables *)

#[global] Instance no_funnels : EmptyTables FunnelTables := {| sources := empty_tables; funnel_definition := ∅; funnel_event := ∅ |}.

Definition demo_ids : FunnelIds := {| onboarding := "u1"; activation := "u2"; creator := "u3"; cross_feature := "u4" |}.
Definition with_atoms (l : list (DateTime * Z)) : FunnelTables := {|
  sources := set_table (list_to_map (map (fun e => (("0xt", snd e), (snd e, demo_atom_row (fst e) (snd e)))) l)) empty_tables;
  funnel_definition := {["onboarding" := "u1"; "activation" := "u2"; "creator" := "u3"; "cross_feature" := "u4"]};
  funnel_event := ∅ |}.
Definition five_atoms : FunnelTables := with_atoms [(1, 1); (2, 2); (3, 3); (4, 4); (5, 5)].
Definition completed (t : FunnelTables) (f : Uuid) (step : Z) : list (DateTime * Z) :=
  omap (fun kv : StepKey * Z => let '(_, g, k, ts) := fst kv in
          if bool_decide (g = f /\ k = step) then Some (ts, snd kv) else None) (map_to_list (funnel_event t)).

Example five_atoms_counted :
  let t := demo_tables (snd (run_cycle (demo_database five_atoms []))) in
  completed t "u1" 0 = [(1, 1)] /\ completed t "u3" 2 = [(5, 5)] /\ completed t "u3" 1 = [].
Proof. vm_compute. auto. Qed.

(** An atom that is older than the first one and arrives after a cycle is a second first
    step, and the five atoms of the creator funnel are then counted twice over. *)
Example late_first_atom :
  let w := snd (run_cycle (demo_database (with_atoms [(2, 1); (3, 2)]) [])) in
  let t := demo_tables w in
  let late := {| sources := sources (with_atoms [(2, 1); (3, 2); (1, 3)]); funnel_definition := funnel_definition t;
                 funnel_event := funnel_event t |} in
  let t' := demo_tables (snd (run_cycle (demo_database late []))) in
  length (completed t' "u1" 0) = 2%nat /\ completed t' "u3" 2 = [(3, 2)].
Proof. vm_compute. auto. Qed.

Lemma funnel_cycles_converge_witness :
  let '(o, w) := run_cycle (attempts 2 (demo_database five_atoms [ProjectionError.Database "down"])) in
  match o with
  | Done _ => demo_tables w = apply_funnels (funnels demo_ids) five_atoms /\
      (fst (run_cycle w) = Done tt -> demo_tables (snd (run_cycle w)) = demo_tables w)
  | Failed _ => True
  | Panicked => False
  end.
Proof.
  refine (funnel_cycles_converge demo_tables 2 (demo_database five_atoms [ProjectionError.Database "down"]) demo_read_laws _).
  intros ids Hids. vm_compute in Hids. injection Hids as <-. apply (bool_decide_unpack _). vm_compute. exact I.
Defined.

Lemma funnel_rows_backed_witness :
  funnel_ok demo_ids (demo_tables (snd (run_cycle (demo_database five_atoms [])))).
Proof.
  apply (funnel_rows_backed demo_tables (demo_database five_atoms []) demo_ids demo_read_laws eq_refl).
  intros f step x [=].
Defined.
