(* ===== verification/TermAggregates.v ===== *)
(** * Term aggregates

    [crates/projections/src/projection/timescaledb/term_aggregates.rs]: a summary
    row per term, counters of the triples that share a predicate and object or a
    subject and predicate, and the history of market capitalisations. *)

From S2P Require Import Prelude MachineInt Events Errors Retry WorkerWorld DeadLetter PgTx PgCommon DemoWorld DemoDatabase.

Module TermAggregates.

Definition PROJECTION_NAME : string := "term_aggregates".

Record TermRow := { term_type : string; total_assets : Z; total_market_cap : Z }.
Record MarketCapRow := { mc_term_id : string; mc_total_assets : Z; mc_total_market_cap : Z }.

(** Keyed by [term_id], [(predicate_id, object_id)], [(subject_id, predicate_id)]
    and [(event_id, ts)]; the summaries are their [triple_count]. *)
Record TermTables := {
  term_summary : gmap string TermRow;
  predicate_object_summary : gmap (string * string) Z;
  subject_predicate_summary : gmap (string * string) Z;
  term_market_cap_history : gmap (string * DateTime) MarketCapRow
}.

Definition upsert_triple_term (term_id : string) (t : TermTables) : TermTables := {|
  term_summary :=
    insert_new term_id {| term_type := "triple"; total_assets := 0; total_market_cap := 0 |} (term_summary t);
  predicate_object_summary := predicate_object_summary t;
  subject_predicate_summary := subject_predicate_summary t;
  term_market_cap_history := term_market_cap_history t |}.

Definition count_predicate_object (predicate_id object_id : string) (t : TermTables) : TermTables := {|
  term_summary := term_summary t;
  predicate_object_summary := upsert (predicate_id, object_id) 1 (fun n => n + 1) (predicate_object_summary t);
  subject_predicate_summary := subject_predicate_summary t;
  term_market_cap_history := term_market_cap_history t |}.

Definition count_subject_predicate (subject_id predicate_id : string) (t : TermTables) : TermTables := {|
  term_summary := term_summary t;
  predicate_object_summary := predicate_object_summary t;
  subject_predicate_summary := upsert (subject_id, predicate_id) 1 (fun n => n + 1) (subject_predicate_summary t);
  term_market_cap_history := term_market_cap_history t |}.

Definition upsert_term_price (term_id : string) (assets market_cap : Z) (t : TermTables) : TermTables := {|
  term_summary :=
    upsert term_id {| term_type := "atom"; total_assets := assets; total_market_cap := market_cap |}
      (fun row => {| term_type := term_type row; total_assets := assets; total_market_cap := market_cap |})
      (term_summary t);
  predicate_object_summary := predicate_object_summary t;
  subject_predicate_summary := subject_predicate_summary t;
  term_market_cap_history := term_market_cap_history t |}.

Definition insert_market_cap_history (event_id : string) (ts : DateTime) (row : MarketCapRow)
    (t : TermTables) : TermTables := {|
  term_summary := term_summary t;
  predicate_object_summary := predicate_object_summary t;
  subject_predicate_summary := subject_predicate_summary t;
  term_market_cap_history := insert_new (event_id, ts) row (term_market_cap_history t) |}.

Section Handlers.
Context {W : Type} `{TxWorld TermTables W} `{EventCodecs}.

Abbreviation step := (@step TermTables W).

Definition process_triple_created_typed (data : TripleCreatedRecord) : step :=
  exec (upsert_triple_term (tc_term_id data)) >>?
  exec (count_predicate_object (tc_predicate_id data) (tc_object_id data)) >>?
  exec (count_subject_predicate (tc_subject_id data) (tc_predicate_id data)).

Definition process_share_price_changed_typed (metadata : EventMetadata)
    (data : SharePriceChangedRecord) : step :=
  match compute_market_cap (spc_total_shares data) (spc_share_price data) with
  | Err e => fail_step e
  | Ok market_cap =>
      exec (upsert_term_price (spc_term_id data) (spc_total_assets data) market_cap) >>?
      exec (insert_market_cap_history (event_id metadata) (EventMetadata.block_timestamp metadata)
              {| mc_term_id := spc_term_id data; mc_total_assets := spc_total_assets data;
                 mc_total_market_cap := market_cap |})
  end.

Definition process_event (event : ParsedEvent) : step :=
  match event with
  | ParsedEvent.TripleCreated _ data => process_triple_created_typed data
  | ParsedEvent.SharePriceChanged metadata data => process_share_price_changed_typed metadata data
  | _ => done_step
  end.

Definition process_parsed_batch (events : list ParsedEvent) : W -> result unit ProjectionError * W :=
  run_tx (process_events PROJECTION_NAME process_event events).

(** ** What a batch does *)

Definition apply_event (p : ParsedEvent) (t : TermTables) : result TermTables ProjectionError :=
  match p with
  | ParsedEvent.TripleCreated _ data =>
      Ok (count_subject_predicate (tc_subject_id data) (tc_predicate_id data)
            (count_predicate_object (tc_predicate_id data) (tc_object_id data)
               (upsert_triple_term (tc_term_id data) t)))
  | ParsedEvent.SharePriceChanged metadata data =>
      let? market_cap := compute_market_cap (spc_total_shares data) (spc_share_price data) in
      Ok (insert_market_cap_history (event_id metadata) (EventMetadata.block_timestamp metadata)
            {| mc_term_id := spc_term_id data; mc_total_assets := spc_total_assets data;
               mc_total_market_cap := market_cap |}
            (upsert_term_price (spc_term_id data) (spc_total_assets data) market_cap t))
  | _ => Ok t
  end.

Lemma terms_batch_effect (tables : W -> TermTables) (L : TxLaws tables) events :
  batch_implements tables (process_parsed_batch events) (apply_all apply_event events).
Proof.
  apply run_tx_implements; [exact L|]. apply does_events; [apply (tx_records _ L)|]. intros p.
  destruct p; cbn [process_event apply_event]; auto with tx_db.
  - unfold process_triple_created_typed.
    eapply does_ext; [|apply does_seq; [by apply (implements_exec _ L)|];
      apply does_seq; by apply (implements_exec _ L)]. done.
  - unfold process_share_price_changed_typed.
    destruct (compute_market_cap _ _) as [mc|e] eqn:Hmc.
    + eapply does_ext; [|apply does_seq; by apply (implements_exec _ L)].
      intros t. cbn [apply_event]. by rewrite Hmc.
    + eapply does_ext; [|by apply does_fail]. intros t. cbn [apply_event]. by rewrite Hmc.
Qed.

(** The type a term is registered with by an event, and the triples an event
    counts. *)
Definition registers (term : string) (p : ParsedEvent) : option string :=
  match p with
  | ParsedEvent.TripleCreated _ data => if decide (tc_term_id data = term) then Some "triple" else None
  | ParsedEvent.SharePriceChanged _ data => if decide (spc_term_id data = term) then Some "atom" else None
  | _ => None
  end.

Definition counts_po (k : string * string) (p : ParsedEvent) : Z :=
  match p with
  | ParsedEvent.TripleCreated _ data => if decide ((tc_predicate_id data, tc_object_id data) = k) then 1 else 0
  | _ => 0
  end.
Definition counts_sp (k : string * string) (p : ParsedEvent) : Z :=
  match p with
  | ParsedEvent.TripleCreated _ data => if decide ((tc_subject_id data, tc_predicate_id data) = k) then 1 else 0
  | _ => 0
  end.

Definition triple_count (k : string * string) (m : gmap (string * string) Z) : Z := default 0 (m !! k).
Definition type_of (term : string) (t : TermTables) : option string := term_type <$> term_summary t !! term.

Definition sum (f : ParsedEvent -> Z) (ps : list ParsedEvent) : Z := foldr (fun p n => f p + n) 0 ps.

Lemma triple_count_upsert k k' m :
  triple_count k (upsert k' 1 (fun n => n + 1) m) = triple_count k m + (if decide (k' = k) then 1 else 0).
Proof.
  unfold triple_count. rewrite lookup_upsert. case_decide as Hk; [subst|cbn; lia].
  destruct (m !! k); cbn; lia.
Qed.

Lemma term_event_books p t t' : apply_event p t = Ok t' ->
  (forall k, triple_count k (predicate_object_summary t') =
     triple_count k (predicate_object_summary t) + counts_po k p) /\
  (forall k, triple_count k (subject_predicate_summary t') =
     triple_count k (subject_predicate_summary t) + counts_sp k p) /\
  (forall term, type_of term t' = match type_of term t with Some ty => Some ty | None => registers term p end).
Proof.
  intros Ha. assert (Hsame : forall term (t : TermTables),
    type_of term t = match type_of term t with Some ty => Some ty | None => None end)
    by (intros term u; by destruct (type_of term u)).
  destruct p; cbn [apply_event counts_po counts_sp registers] in *;
    try (injection Ha as <-; split_and!; [intros; lia..|done]).
  - injection Ha as <-.
    split_and!; [intros k; apply triple_count_upsert|intros k; apply triple_count_upsert|].
    intros term. unfold type_of, upsert_triple_term, insert_new.
    cbn [term_summary count_subject_predicate count_predicate_object]. rewrite lookup_upsert.
    case_decide as Hk; [subst|by destruct (term_summary t !! term)].
    by destruct (term_summary t !! _).
  - destruct (compute_market_cap _ _) as [mc|e]; [|done]. injection Ha as <-.
    split_and!; [intros; cbn; lia..|]. intros term. unfold type_of, upsert_term_price.
    cbn [term_summary insert_market_cap_history]. rewrite lookup_upsert.
    case_decide as Hk; [subst|by destruct (term_summary t !! term)].
    by destruct (term_summary t !! _).
Qed.

Lemma apply_all_books ps t t' : apply_all apply_event ps t = Ok t' ->
  (forall k, triple_count k (predicate_object_summary t') =
     triple_count k (predicate_object_summary t) + sum (counts_po k) ps) /\
  (forall k, triple_count k (subject_predicate_summary t') =
     triple_count k (subject_predicate_summary t) + sum (counts_sp k) ps) /\
  (forall term, type_of term t' =
     match type_of term t with Some ty => Some ty | None => head (omap (registers term) ps) end).
Proof.
  revert t. induction ps as [|p ps IH]; intros t Ha; cbn [apply_all] in Ha.
  { injection Ha as <-. cbn. split_and!; [intros; lia..|]. intros term. by destruct (type_of term t). }
  apply res_bind_ok in Ha as (t1 & Hp & Hps). destruct (term_event_books _ _ _ Hp) as (P1 & S1 & T1).
  destruct (IH _ Hps) as (P & S & T). cbn [sum foldr omap list_omap].
  split_and!.
  - intros k. rewrite P, P1. fold (sum (counts_po k) ps). lia.
  - intros k. rewrite S, S1. fold (sum (counts_sp k) ps). lia.
  - intros term. rewrite T, T1. destruct (type_of term t); [done|]. by destruct (registers term p).
Qed.
End Handlers.
End TermAggregates.

(** ** Properties *)

(** Term aggregates. After a successful batch every counter has grown by the
    number of the batch's triples with its pair of terms, and a term that was
    registered keeps its type. A new term's type is that of the first event about
    it: a price change that comes before, or without, a [TripleCreated] event
    registers the term as an atom for good. *)
Theorem term_aggregates_books {W} `{TxWorld TermAggregates.TermTables W} `{EventCodecs}
  (tables : W -> TermAggregates.TermTables) (events : list ParsedEvent) (w w1 : W)
  (L : TxLaws tables) (Hok : TermAggregates.process_parsed_batch events w = (Ok tt, w1)) :
  (forall k, TermAggregates.triple_count k (TermAggregates.predicate_object_summary (tables w1)) =
     TermAggregates.triple_count k (TermAggregates.predicate_object_summary (tables w)) +
     TermAggregates.sum (TermAggregates.counts_po k) events) /\
  (forall k, TermAggregates.triple_count k (TermAggregates.subject_predicate_summary (tables w1)) =
     TermAggregates.triple_count k (TermAggregates.subject_predicate_summary (tables w)) +
     TermAggregates.sum (TermAggregates.counts_sp k) events) /\
  (forall term, TermAggregates.type_of term (tables w1) =
     match TermAggregates.type_of term (tables w) with
     | Some ty => Some ty
     | None => head (omap (TermAggregates.registers term) events)
     end).
Proof.
  pose proof (TermAggregates.terms_batch_effect tables L events w) as Hb. rewrite Hok in Hb.
  destruct Hb as [[Ht|[_ ?]] _]; [|done]. by apply TermAggregates.apply_all_books.
Qed.

#[local] Existing Instance sample_codecs.

#[global] Instance no_terms : EmptyTables TermAggregates.TermTables :=
  {| TermAggregates.term_summary := ∅; TermAggregates.predicate_object_summary := ∅;
     TermAggregates.subject_predicate_summary := ∅; TermAggregates.term_market_cap_history := ∅ |}.

Definition term_triple (id : string) : ParsedEvent :=
  ParsedEvent.TripleCreated (demo_metadata 1 "TripleCreated")
    {| tc_creator := "0xs"; tc_term_id := id; tc_subject_id := "s"; tc_predicate_id := "p"; tc_object_id := "o" |}.
Definition term_price (id : string) : ParsedEvent :=
  ParsedEvent.SharePriceChanged (demo_metadata 2 "SharePriceChanged")
    {| spc_term_id := id; spc_curve_id := 1; spc_share_price := 1; spc_total_assets := 1;
       spc_total_shares := 1; spc_vault_type := 0 |}.
Definition term_start : demo TermAggregates.TermTables := demo_database empty_tables [].

Lemma term_aggregates_books_witness :
  let w1 := snd (TermAggregates.process_parsed_batch [term_price "t"; term_triple "t"; term_triple "u"] term_start) in
  TermAggregates.triple_count ("p", "o") (TermAggregates.predicate_object_summary (demo_tables w1)) = 2 /\
  TermAggregates.type_of "t" (demo_tables w1) = Some "atom" /\
  TermAggregates.type_of "u" (demo_tables w1) = Some "triple".
Proof.
  destruct (term_aggregates_books demo_tables [term_price "t"; term_triple "t"; term_triple "u"] term_start _
    demo_tx_laws ltac:(vm_compute; reflexivity)) as (Hpo & _ & Hty).
  split; [exact (Hpo ("p", "o"))|]. split; [exact (Hty "t")|exact (Hty "u")].
Defined.
