(* ===== verification/Metrics.v ===== *)
(** * The metrics of the projections service

    [crates/projections/src/metrics.rs]: the process-wide counters and gauges, the
    calls that record into them, and the health endpoints that answer from them. Any
    number of tasks record at the same time. Most calls are one access to an atomic
    each; [record_status] is three, so its calls interleave. *)

From stdpp Require Import pretty.
From Stdlib Require Import Floats.SpecFloat.
From S2P Require Import Prelude MachineInt Binary64.

(** ** The metrics *)

(** The fields of [Metrics]. *)
Inductive Metric :=
  | events_processed | batch_duration | checkpoint_sequence | errors_total
  | head_sequence | events_behind | sync_progress_percent | status
  | batches_total | last_batch_size | stalls_total | restart_total
  | restart_backoff_seconds | circuit_state | circuit_open_total | surreal_connection_state
  | pg_pool_semaphore_available | user_activity_batch_errors_total | user_activity_backfill_days_remaining | user_activity_accounts_processed_total
  | user_activity_batch_duration_seconds | activity_marker_events_processed_total | activity_marker_accounts_marked_total | funnel_tracker_duration_seconds
  | funnel_tracker_cycles_total | user_activity_batch_last_completion_timestamp | user_activity_marker_lag_seconds | dirty_account_activity_count
  | dirty_account_activity_oldest_timestamp | user_activity_active_account_count | user_topic_affinity_row_count | user_topic_affinity_expected_max
  | user_segment_account_count | user_activity_rfm_sweep_type | parse_errors_total | dual_write_in_flight
  | projection_dead_letter_total.

#[global] Instance metric_eq_dec : EqDecision Metric.
Proof. solve_decision. Defined.

(** The name a field is registered under, and its labels. *)
Definition descriptor (m : Metric) : string * list string :=
  match m with
  | events_processed => ("projection_events_processed_total", ["projection"; "sink"])
  | batch_duration => ("projection_batch_duration_seconds", ["projection"; "sink"])
  | checkpoint_sequence => ("projection_checkpoint_sequence", ["projection"; "sink"])
  | errors_total => ("projection_errors_total", ["projection"; "sink"])
  | head_sequence => ("projection_head_sequence", [])
  | events_behind => ("projection_events_behind", ["projection"; "sink"])
  | sync_progress_percent => ("projection_sync_progress_percent", ["projection"; "sink"])
  | status => ("projection_status", ["projection"; "sink"])
  | batches_total => ("projection_batches_total", ["projection"; "sink"])
  | last_batch_size => ("projection_last_batch_size", ["projection"; "sink"])
  | stalls_total => ("projection_stall_detected_total", ["worker"])
  | restart_total => ("projection_restart_total", ["projection"; "sink"])
  | restart_backoff_seconds => ("projection_restart_backoff_seconds", ["projection"; "sink"])
  | circuit_state => ("projection_circuit_state", ["projection"; "target"])
  | circuit_open_total => ("projection_circuit_open_total", ["projection"; "target"])
  | surreal_connection_state => ("surreal_connection_state", [])
  | pg_pool_semaphore_available => ("projection_pg_pool_semaphore_available", ["projection"])
  | user_activity_batch_errors_total => ("user_activity_batch_errors_total", [])
  | user_activity_backfill_days_remaining => ("user_activity_backfill_days_remaining", [])
  | user_activity_accounts_processed_total => ("user_activity_accounts_processed_total", [])
  | user_activity_batch_duration_seconds => ("user_activity_batch_duration_seconds", [])
  | activity_marker_events_processed_total => ("activity_marker_events_processed_total", [])
  | activity_marker_accounts_marked_total => ("activity_marker_accounts_marked_total", [])
  | funnel_tracker_duration_seconds => ("funnel_tracker_duration_seconds", [])
  | funnel_tracker_cycles_total => ("funnel_tracker_cycles_total", [])
  | user_activity_batch_last_completion_timestamp => ("user_activity_batch_last_completion_timestamp", [])
  | user_activity_marker_lag_seconds => ("user_activity_marker_lag_seconds", [])
  | dirty_account_activity_count => ("dirty_account_activity_count", [])
  | dirty_account_activity_oldest_timestamp => ("dirty_account_activity_oldest_timestamp", [])
  | user_activity_active_account_count => ("user_activity_active_account_count", [])
  | user_topic_affinity_row_count => ("user_topic_affinity_row_count", [])
  | user_topic_affinity_expected_max => ("user_topic_affinity_expected_max", [])
  | user_segment_account_count => ("user_segment_account_count", ["user_segment"])
  | user_activity_rfm_sweep_type => ("user_activity_rfm_sweep_type", [])
  | parse_errors_total => ("projection_parse_error_total", ["projection"; "event_type"])
  | dual_write_in_flight => ("core_entities_dual_write_in_flight", [])
  | projection_dead_letter_total => ("projection_dead_letter_total", ["projection"; "event_type"])
  end.
Definition fq_name (m : Metric) : string := fst (descriptor m).
Definition label_names (m : Metric) : list string := snd (descriptor m).

(** In the order [Metrics::new] registers them. *)
Definition all_metrics : list Metric :=
  [events_processed; batch_duration; checkpoint_sequence; errors_total; head_sequence; events_behind;
   sync_progress_percent; status; batches_total; last_batch_size; stalls_total; restart_total;
   restart_backoff_seconds; circuit_state; circuit_open_total; surreal_connection_state;
   pg_pool_semaphore_available; user_activity_batch_errors_total; user_activity_backfill_days_remaining;
   user_activity_accounts_processed_total; user_activity_batch_duration_seconds;
   activity_marker_events_processed_total; activity_marker_accounts_marked_total;
   funnel_tracker_duration_seconds; funnel_tracker_cycles_total;
   user_activity_batch_last_completion_timestamp; user_activity_marker_lag_seconds;
   dirty_account_activity_count; dirty_account_activity_oldest_timestamp;
   user_activity_active_account_count; user_topic_affinity_row_count; user_topic_affinity_expected_max;
   user_segment_account_count; user_activity_rfm_sweep_type; parse_errors_total; dual_write_in_flight;
   projection_dead_letter_total].

(** The default registry of the [prometheus] crate refuses a name it has. *)
Abbreviation Registry := (gset string).
Definition register (name : string) (registry : Registry) : option Registry :=
  if decide (name ∈ registry) then None else Some ({[name]} ∪ registry).

(** The [reg_*!] macros: the metric, under a fallback name and not exported when it
    could not be registered. *)
Definition reg (m : Metric) (registry : Registry) : string * Registry :=
  match register (fq_name m) registry with
  | Some registry => (fq_name m, registry)
  | None => (fq_name m +:+ "_fallback", registry)
  end.

(** [Metrics::new]: the name each field goes by. *)
Fixpoint new_metrics (ms : list Metric) (registry : Registry) : list (Metric * string) * Registry :=
  match ms with
  | [] => ([], registry)
  | m :: ms =>
      let '(name, registry) := reg m registry in
      let '(rest, registry) := new_metrics ms registry in
      ((m, name) :: rest, registry)
  end.
Definition new (registry : Registry) : list (Metric * string) * Registry := new_metrics all_metrics registry.

(** ** The values

    A child of a vector is its name and its label values; it is 0 until it is
    written. Counters are [u64], gauges [f64], and a histogram keeps what it observed. *)
Record Metrics := {
  counters : gmap (string * list string) Z;
  gauges : gmap (string * list string) f64;
  int_gauges : gmap (string * list string) Z;
  histograms : gmap (string * list string) (list f64);
  STARTUP_COMPLETE : bool;
  HEALTHY_WORKER_COUNT : Z   (* i32 *)
}.

Definition fresh : Metrics := {|
  counters := ∅; gauges := ∅; int_gauges := ∅; histograms := ∅; STARTUP_COMPLETE := false; HEALTHY_WORKER_COUNT := 0 |}.

Abbreviation child m ls := (fq_name m, ls).

Definition counter (m : Metric) (ls : list string) (s : Metrics) : Z := default 0 (counters s !! child m ls).
Definition gauge (m : Metric) (ls : list string) (s : Metrics) : f64 := default (f64_of 0) (gauges s !! child m ls).

(** [inc_by]: an atomic addition wraps. *)
Definition inc_by (m : Metric) (ls : list string) (n : Z) (s : Metrics) : Metrics := {|
  counters := <[child m ls := wrapping_add_u64 (counter m ls s) n]> (counters s); gauges := gauges s;
  int_gauges := int_gauges s; histograms := histograms s; STARTUP_COMPLETE := STARTUP_COMPLETE s;
  HEALTHY_WORKER_COUNT := HEALTHY_WORKER_COUNT s |}.
Definition inc (m : Metric) (ls : list string) : Metrics -> Metrics := inc_by m ls 1.
Definition set_gauge (m : Metric) (ls : list string) (v : f64) (s : Metrics) : Metrics := {|
  counters := counters s; gauges := <[child m ls := v]> (gauges s); int_gauges := int_gauges s;
  histograms := histograms s; STARTUP_COMPLETE := STARTUP_COMPLETE s; HEALTHY_WORKER_COUNT := HEALTHY_WORKER_COUNT s |}.
Definition set_int_gauge (m : Metric) (ls : list string) (v : Z) (s : Metrics) : Metrics := {|
  counters := counters s; gauges := gauges s; int_gauges := <[child m ls := v]> (int_gauges s);
  histograms := histograms s; STARTUP_COMPLETE := STARTUP_COMPLETE s; HEALTHY_WORKER_COUNT := HEALTHY_WORKER_COUNT s |}.
Definition observe (m : Metric) (ls : list string) (v : f64) (s : Metrics) : Metrics := {|
  counters := counters s; gauges := gauges s; int_gauges := int_gauges s;
  histograms := <[child m ls := default [] (histograms s !! child m ls) ++ [v]]> (histograms s);
  STARTUP_COMPLETE := STARTUP_COMPLETE s; HEALTHY_WORKER_COUNT := HEALTHY_WORKER_COUNT s |}.
Definition set_healthy (n : Z) (s : Metrics) : Metrics := {|
  counters := counters s; gauges := gauges s; int_gauges := int_gauges s; histograms := histograms s;
  STARTUP_COMPLETE := STARTUP_COMPLETE s; HEALTHY_WORKER_COUNT := n |}.

(** [with_label_values] alone creates the child. *)
Definition touch_counter (m : Metric) (ls : list string) (s : Metrics) : Metrics := inc_by m ls 0 s.
Definition touch_gauge (m : Metric) (ls : list string) (s : Metrics) : Metrics := set_gauge m ls (gauge m ls s) s.

(** ** Recording *)

Definition record_batch_processed (projection sink : string) (count : Z) (duration_secs : f64) (sequence : Z)
    (s : Metrics) : Metrics :=
  let labels := [projection; sink] in
  let s := inc_by events_processed labels count s in
  let s := observe batch_duration labels duration_secs s in
  let s := set_gauge checkpoint_sequence labels (f64_of sequence) s in
  let s := inc batches_total labels s in
  let s := set_gauge last_batch_size labels (f64_of count) s in
  let head := gauge head_sequence [] s in
  let seq_f64 := f64_of sequence in
  if SFltb (f64_of 0) head then
    let behind := f64_max (f64_sub head seq_f64) (f64_of 0) in
    let s := set_gauge events_behind labels behind s in
    let progress := f64_clamp (percent seq_f64 head) (f64_of 0) (f64_of 100) in
    set_gauge sync_progress_percent labels progress s
  else s.

Definition record_error (projection sink : string) : Metrics -> Metrics := inc errors_total [projection; sink].
Definition record_stall_detected (worker : string) : Metrics -> Metrics := inc stalls_total [worker].
Definition record_restart (projection sink : string) : Metrics -> Metrics := inc restart_total [projection; sink].
Definition set_restart_backoff (projection sink : string) (seconds : f64) : Metrics -> Metrics :=
  set_gauge restart_backoff_seconds [projection; sink] seconds.
Definition set_circuit_state (projection target : string) (state : Z) : Metrics -> Metrics :=
  set_gauge circuit_state [projection; target] (f64_of state).
Definition record_circuit_open (projection target : string) : Metrics -> Metrics :=
  inc circuit_open_total [projection; target].
Definition set_surreal_connection_state (connected : bool) : Metrics -> Metrics :=
  set_gauge surreal_connection_state [] (if connected then f64_of 1 else f64_of 0).
Definition set_semaphore_available (projection : string) (available : Z) : Metrics -> Metrics :=
  set_gauge pg_pool_semaphore_available [projection] (f64_of available).
Definition record_parse_error (projection event_type : string) : Metrics -> Metrics :=
  inc parse_errors_total [projection; event_type].
Definition record_dead_letter (projection event_type : string) : Metrics -> Metrics :=
  inc projection_dead_letter_total [projection; event_type].
Definition set_dual_write_in_flight (in_flight : bool) : Metrics -> Metrics :=
  set_int_gauge dual_write_in_flight [] (Z.b2z in_flight).
Definition mark_startup_complete (s : Metrics) : Metrics := {|
  counters := counters s; gauges := gauges s; int_gauges := int_gauges s; histograms := histograms s;
  STARTUP_COMPLETE := true; HEALTHY_WORKER_COUNT := HEALTHY_WORKER_COUNT s |}.
Definition set_head_sequence (seq : Z) : Metrics -> Metrics := set_gauge head_sequence [] (f64_of seq).

(** [DualWriteGuard]: what runs while it is held, between [enter] and [drop]. *)
Definition with_dual_write_guard (held : Metrics -> Metrics) (s : Metrics) : Metrics :=
  set_dual_write_in_flight false (held (set_dual_write_in_flight true s)).

Definition initialise_pair (s : Metrics) (pair : string * string) : Metrics :=
  let labels := [fst pair; snd pair] in
  let s := touch_counter events_processed labels s in
  let s := touch_gauge checkpoint_sequence labels s in
  let s := touch_counter errors_total labels s in
  let s := touch_gauge events_behind labels s in
  let s := touch_gauge sync_progress_percent labels s in
  let s := touch_gauge status labels s in
  let s := touch_counter batches_total labels s in
  touch_gauge last_batch_size labels s.
Definition initialise_labels (known_pairs : list (string * string)) (s : Metrics) : Metrics :=
  foldl initialise_pair s known_pairs.

(** *** [record_status] *)

Definition is_healthy_status (s : f64) : bool := SFeqb s (f64_of 1) || SFeqb s (f64_of 2).

(** [fetch_add] on an [i32] wraps, [saturating_sub] stops at the least [i32]. *)
Definition wrap_i32 (n : Z) : Z := (n + 2 ^ 31) mod 2 ^ 32 - 2 ^ 31.
Definition adjust_healthy (previous status : f64) (s : Metrics) : Metrics :=
  match is_healthy_status previous, is_healthy_status status with
  | false, true => set_healthy (wrap_i32 (HEALTHY_WORKER_COUNT s + 1)) s
  | true, false => set_healthy (Z.max (HEALTHY_WORKER_COUNT s - 1) (- 2 ^ 31)) s
  | _, _ => s
  end.

Definition record_status (projection sink : string) (v : f64) (s : Metrics) : Metrics :=
  let previous := gauge status [projection; sink] s in
  adjust_healthy previous v (set_gauge status [projection; sink] v s).

(** ** The health endpoints *)

Abbreviation Response := (Z * string)%type.

Definition health_live_handler (s : Metrics) : Response := (200, "OK").

Definition health_ready_handler (s : Metrics) : Response :=
  let healthy := 0 <? HEALTHY_WORKER_COUNT s in
  let fallback := negb healthy && SFltb (f64_of 0) (gauge head_sequence [] s) in
  if healthy || fallback then (200, "OK") else (503, "not ready").

Definition health_startup_handler (s : Metrics) : Response :=
  if STARTUP_COMPLETE s then (200, "started") else (503, "starting").

(** The routes of [start_metrics_server]; the text of [/metrics] is the encoder's. *)
Definition route (metrics_handler : Metrics -> string) (path : string) (s : Metrics) : Response :=
  if String.eqb path "/metrics" then (200, metrics_handler s)
  else if String.eqb path "/health/live" then health_live_handler s
  else if String.eqb path "/health/ready" then health_ready_handler s
  else if String.eqb path "/health/startup" then health_startup_handler s
  else if String.eqb path "/health" then health_live_handler s
  else (404, "").

(** ** Lemmas *)

Lemma all_metrics_complete m : m ∈ all_metrics.
Proof. unfold all_metrics. destruct m; repeat (first [by left|right]). Qed.

Lemma names_distinct : NoDup (map fq_name all_metrics).
Proof. apply (bool_decide_unpack _). by vm_compute. Qed.

Lemma fq_name_inj m m' : fq_name m = fq_name m' -> m = m'.
Proof.
  intros Hn. destruct (proj1 (list_elem_of_lookup _ _) (all_metrics_complete m)) as [i Hi].
  destruct (proj1 (list_elem_of_lookup _ _) (all_metrics_complete m')) as [j Hj].
  assert (i = j) as <- by (eapply (NoDup_lookup (map fq_name all_metrics)); [apply names_distinct|..];
    rewrite list_lookup_fmap; [by rewrite Hi|by rewrite Hj, Hn]).
  congruence.
Qed.

Lemma gauge_set m ls v m' ls' s :
  gauge m' ls' (set_gauge m ls v s) = if decide (m = m' /\ ls = ls') then v else gauge m' ls' s.
Proof.
  unfold gauge. cbn [gauges set_gauge]. case_decide as Hd.
  - destruct Hd as [-> ->]. by rewrite lookup_insert_eq.
  - rewrite lookup_insert_ne; [done|]. intros [= Hn ->]. apply Hd. by apply fq_name_inj in Hn.
Qed.

Lemma gauge_touch m ls m' ls' s : gauge m' ls' (touch_gauge m ls s) = gauge m' ls' s.
Proof. unfold touch_gauge. rewrite gauge_set. case_decide as Hd; [by destruct Hd as [-> ->]|done]. Qed.

(** The calls that leave the gauges alone. *)
Lemma gauge_inc_by m ls n m' ls' s : gauge m' ls' (inc_by m ls n s) = gauge m' ls' s.
Proof. done. Qed.
Lemma gauge_observe m ls v m' ls' s : gauge m' ls' (observe m ls v s) = gauge m' ls' s.
Proof. done. Qed.
Lemma gauge_int m ls v m' ls' s : gauge m' ls' (set_int_gauge m ls v s) = gauge m' ls' s.
Proof. done. Qed.
Lemma gauge_healthy n m' ls' s : gauge m' ls' (set_healthy n s) = gauge m' ls' s.
Proof. done. Qed.
Lemma gauge_startup m' ls' s : gauge m' ls' (mark_startup_complete s) = gauge m' ls' s.
Proof. done. Qed.

Create Rewrite HintDb metrics.
#[export] Hint Rewrite gauge_touch gauge_inc_by gauge_observe gauge_int gauge_healthy gauge_startup : metrics.

(** Reading a gauge after a sequence of calls. *)
Ltac read_gauges :=
  unfold inc, touch_counter; repeat (progress (autorewrite with metrics) || rewrite gauge_set || (rewrite decide_True by done) ||
          (rewrite decide_False by (intros [? ?]; simplify_eq))).

Lemma gauge_initialise pairs m ls s : gauge m ls (initialise_labels pairs s) = gauge m ls s.
Proof.
  unfold initialise_labels. revert s. induction pairs as [|p pairs IH]; intros s; [done|].
  cbn [foldl]. rewrite IH. unfold initialise_pair. cbv zeta. by read_gauges.
Qed.

Lemma healthy_initialise pairs s : HEALTHY_WORKER_COUNT (initialise_labels pairs s) = HEALTHY_WORKER_COUNT s.
Proof. unfold initialise_labels. revert s. induction pairs as [|p pairs IH]; intros s; [done|]. cbn [foldl]. by rewrite IH. Qed.

Lemma wrap_i32_small n : - 2 ^ 31 <= n < 2 ^ 31 -> wrap_i32 n = n.
Proof. intros Hn. unfold wrap_i32. rewrite Z.mod_small; lia. Qed.

(** Nothing is registered twice: on an empty registry no field falls back. *)
Lemma new_metrics_registered ms registry :
  NoDup (map fq_name ms) -> (forall m, m ∈ ms -> fq_name m ∉ registry) ->
  new_metrics ms registry = (map (fun m => (m, fq_name m)) ms, list_to_set (map fq_name ms) ∪ registry).
Proof.
  revert registry. induction ms as [|m ms IH]; intros registry Hnd Hfresh; cbn [new_metrics map list_to_set].
  - f_equal. set_solver.
  - apply NoDup_cons in Hnd as [Hm Hnd]. unfold reg, register. rewrite decide_False by (apply Hfresh; left).
    rewrite IH; [f_equal; set_solver|done|]. intros m' Hm' Hin. apply elem_of_union in Hin as [Hin|Hin].
    + apply elem_of_singleton in Hin. apply Hm. rewrite <- Hin. by apply list_elem_of_fmap_2.
    + by apply (Hfresh m'); [right|].
Qed.

(** Of the gauges a batch derives from the head, below 2^53: the lag is exact and never
    negative, and the progress is a number from 0 to 100 that is 100 exactly at the head. *)
Lemma batch_lag_exact projection sink count duration seq head s :
  0 <= seq < 2 ^ 53 -> 0 < head < 2 ^ 53 -> gauge head_sequence [] s = f64_of head ->
  let s' := record_batch_processed projection sink count duration seq s in
  let progress := gauge sync_progress_percent [projection; sink] s' in
  gauge events_behind [projection; sink] s' = f64_of (Z.max 0 (head - seq)) /\
  SFltb progress (f64_of 0) = false /\ SFltb progress (f64_of 100) = (seq <? head) /\
  SFltb (f64_of 100) progress = false.
Proof.
  intros Hseq Hhead Hg s' progress. subst s' progress. unfold record_batch_processed. cbv zeta.
  read_gauges. rewrite Hg, f64_of_ltb by lia. destruct (Z.ltb_spec 0 head); [|lia]. read_gauges.
  destruct (percent_spec seq head Hseq Hhead) as (Hp & Hp0 & _). split; [by apply f64_behind|].
  unfold f64_clamp. rewrite Hp0. destruct (SFltb (f64_of 100) (percent (f64_of seq) (f64_of head))) eqn:E; [|done].
  split; [done|]. split; [|done]. rewrite <- Hp. symmetry. by apply SFltb_asym.
Qed.
