(* ===== verification/Config.v ===== *)
(** * Configuration

    [crates/projections/src/config.rs], [crates/shared/src/config.rs] and
    [crates/shared/src/graph_flags.rs]: what the processes read from their
    environment. The environment is a map from names to the bytes of their
    values; [std::env::var] reads the values that are Unicode. The parsers of
    Rust's unsigned integers are modelled with the error each reports. *)

From Stdlib Require Import Ascii.
From stdpp Require Import pretty.
From S2P Require Import Prelude MachineInt Text Errors.

(** ** Strings and integers of the standard library *)

(** [u16::from_str], [u32::from_str], ..: an optional [+] and decimal digits. *)
Inductive ParseIntError := Empty | InvalidDigit | PosOverflow.

Definition parse_int_error_to_string (e : ParseIntError) : string :=
  match e with
  | Empty => "cannot parse integer from empty string"
  | InvalidDigit => "invalid digit found in string"
  | PosOverflow => "number too large to fit in target type"
  end.

Fixpoint from_digits (max acc : Z) (s : string) : result Z ParseIntError :=
  match s with
  | EmptyString => Ok acc
  | String c s =>
      match digit c with
      | None => Err InvalidDigit
      | Some d => if max <? acc * 10 + d then Err PosOverflow else from_digits max (acc * 10 + d) s
      end
  end.

Definition from_str (max : Z) (s : string) : result Z ParseIntError :=
  match s with
  | EmptyString => Err Empty
  | String "+" EmptyString => Err InvalidDigit
  | String "+" digits => from_digits max 0 digits
  | digits => from_digits max 0 digits
  end.

Definition U16_MAX : Z := 2 ^ 16 - 1.

(** The characters with the Unicode property White_Space, by their UTF-8 bytes. *)
Definition whitespace1 (a : ascii) : bool := (byte a =? 32) || byte_in 9 13 a.
Definition whitespace2 (a b : ascii) : bool := (byte a =? 194) && ((byte b =? 133) || (byte b =? 160)).
Definition whitespace3 (a b c : ascii) : bool :=
  ((byte a =? 225) && (byte b =? 154) && (byte c =? 128)) ||
  ((byte a =? 226) && (byte b =? 128) &&
   (byte_in 128 138 c || (byte c =? 168) || (byte c =? 169) || (byte c =? 175))) ||
  ((byte a =? 226) && (byte b =? 129) && (byte c =? 159)) ||
  ((byte a =? 227) && (byte b =? 128) && (byte c =? 128)).

Fixpoint trim_start (s : string) : string :=
  match s with
  | String a s1 =>
      if whitespace1 a then trim_start s1
      else match s1 with
           | String b s2 =>
               if whitespace2 a b then trim_start s2
               else match s2 with
                    | String c s3 => if whitespace3 a b c then trim_start s3 else s
                    | EmptyString => s
                    end
           | EmptyString => s
           end
  | EmptyString => s
  end.

Definition is_empty (s : string) : bool := match s with EmptyString => true | _ => false end.

Fixpoint trim_end (s : string) : string :=
  if is_empty (trim_start s) then EmptyString
  else match s with
       | String a s => String a (trim_end s)
       | EmptyString => EmptyString
       end.

(** [s.trim()] *)
Definition trim (s : string) : string := trim_end (trim_start s).

(** [s.to_lowercase()], as far as a comparison with ASCII text can tell: the
    Kelvin sign is the only character outside ASCII whose lower case is in it,
    and the others keep a byte outside ASCII. *)
Fixpoint to_lowercase (s : string) : string :=
  match s with
  | String "226" (String "132" (String "170" s)) => String "k" (to_lowercase s)
  | String c s => String (to_ascii_lowercase_char c) (to_lowercase s)
  | EmptyString => EmptyString
  end.

(** ** The environment *)

Abbreviation Environment := (gmap string string).

(** [std::env::var(key)], its error forgotten. *)
Definition var (env : Environment) (key : string) : option string := value ← env !! key; from_utf8 value.

(** ** The projections service *)

Module ProjectionsConfig.

Record ProjectionsConfig := {
  database_url : string;
  database_kg_url : option string;
  surreal_url : string;
  surreal_user : string;
  surreal_pass : string;
  surreal_namespace : string;
  surreal_database : string;
  metrics_port : Z;
  batch_size : Z;
  poll_interval_ms : Z;
  leaderboard_refresh_interval_secs : Z;
  funnel_tracker_interval_secs : Z;
  user_activity_batch_interval_secs : Z;
  position_tracking_shards : Z;
  enabled_projections : list string;
  disabled_projections : list string;
  pg_pool_max_connections : option Z;
  pg_pool_acquire_timeout_secs : option Z
}.

Section FromEnv.
Context (env : Environment).

Definition require_env (key : string) : result string ProjectionError :=
  ok_or (var env key) (ProjectionError.Config (key +:+ " must be set")).

Definition env_or (key default : string) : string :=
  match var env key with Some value => value | None => default end.

(** [.parse().map_err(|e| ProjectionError::Config(format!("{what}: {e}")))] *)
Definition parse_or (max : Z) (what value : string) : result Z ProjectionError :=
  match from_str max value with
  | Ok n => Ok n
  | Err e => Err (ProjectionError.Config (what +:+ ": " +:+ parse_int_error_to_string e))
  end.

Definition parse_csv_env (key : string) : list string :=
  filter (fun s => negb (is_empty s)) (map trim (split "," (env_or key ""))).

Definition parse_optional_env (max : Z) (key : string) : option Z :=
  value ← var env key; match from_str max value with Ok n => Some n | Err _ => None end.
Definition parse_optional_env_u32 : string -> option Z := parse_optional_env U32_MAX.
Definition parse_optional_env_u64 : string -> option Z := parse_optional_env U64_MAX.

Definition from_env : result ProjectionsConfig ProjectionError :=
  let? database_url := require_env "DATABASE_URL" in
  let? metrics_port := parse_or U16_MAX "Invalid metrics port" (env_or "PROJECTIONS_METRICS_PORT" "9092") in
  let? batch_size := parse_or U64_MAX "Invalid batch size" (env_or "PROJECTIONS_BATCH_SIZE" "500") in
  let? poll_interval_ms :=
    parse_or U64_MAX "Invalid poll interval" (env_or "PROJECTIONS_POLL_INTERVAL_MS" "1000") in
  let? leaderboard_refresh_interval_secs :=
    parse_or U64_MAX "Invalid leaderboard interval" (env_or "LEADERBOARD_REFRESH_INTERVAL_SECS" "30") in
  let? funnel_tracker_interval_secs :=
    parse_or U64_MAX "Invalid funnel tracker interval" (env_or "FUNNEL_TRACKER_INTERVAL_SECS" "3600") in
  let? user_activity_batch_interval_secs :=
    parse_or U64_MAX "Invalid user activity batch interval"
      (env_or "USER_ACTIVITY_BATCH_INTERVAL_SECS" "3600") in
  let? position_tracking_shards :=
    parse_or U32_MAX "Invalid position tracking shards" (env_or "POSITION_TRACKING_SHARDS" "4") in
  Ok {|
    database_url := database_url;
    database_kg_url := var env "DATABASE_KG_URL";
    surreal_url := env_or "SURREAL_DB_URL" "ws://localhost:8000";
    surreal_user := env_or "SURREAL_USER" "root";
    surreal_pass := env_or "SURREAL_PASS" "root";
    surreal_namespace := env_or "SURREAL_NAMESPACE" "intuition";
    surreal_database := env_or "SURREAL_DATABASE" "intuition";
    metrics_port := metrics_port;
    batch_size := batch_size;
    poll_interval_ms := poll_interval_ms;
    leaderboard_refresh_interval_secs := leaderboard_refresh_interval_secs;
    funnel_tracker_interval_secs := funnel_tracker_interval_secs;
    user_activity_batch_interval_secs := user_activity_batch_interval_secs;
    position_tracking_shards := position_tracking_shards;
    enabled_projections := parse_csv_env "ENABLED_PROJECTIONS";
    disabled_projections := parse_csv_env "DISABLED_PROJECTIONS";
    pg_pool_max_connections := parse_optional_env_u32 "PG_POOL_MAX_CONNECTIONS";
    pg_pool_acquire_timeout_secs := parse_optional_env_u64 "PG_POOL_ACQUIRE_TIMEOUT_SECS"
  |}.
End FromEnv.

Definition is_projection_enabled (self : ProjectionsConfig) (name : string) : bool :=
  match enabled_projections self with
  | [] =>
      match disabled_projections self with
      | [] => true
      | disabled => negb (existsb (String.eqb name) disabled)
      end
  | enabled => existsb (String.eqb name) enabled
  end.
End ProjectionsConfig.
Abbreviation ProjectionsConfig := ProjectionsConfig.ProjectionsConfig.

(** ** The shared configuration *)

Module SharedConfig.

Record DatabaseConfig := {
  db_url : string; max_connections : Z; min_connections : Z; acquire_timeout_sec : Z
}.
Record RedisConfig := { redis_url : string; leader_key : string; leader_ttl_sec : Z }.
Record BlockchainConfig := {
  rpc_endpoint : string; contract_address : string; start_block : Z; chain_id : Z
}.
Record ServerConfig := { server_metrics_port : Z; health_port : Z }.

Section FromEnv.
Context (env : Environment).

(** [env::var(key).map_err(|_| IndexerError::Config(..))] *)
Definition get_env (key : string) : result string IndexerError.IndexerError :=
  ok_or (var env key) (IndexerError.Config (key +:+ " not set")).

Definition get_env_or (key default : string) : string :=
  match var env key with Some value => value | None => default end.

Definition invalid {A} (r : result A ParseIntError) (message : ParseIntError -> string)
    : result A IndexerError.IndexerError :=
  match r with Ok n => Ok n | Err e => Err (IndexerError.Config (message e)) end.

(** [get_env_as::<T>], for an unsigned [T]. *)
Definition get_env_as (max : Z) (key : string) : result Z IndexerError.IndexerError :=
  let? value := get_env key in
  invalid (from_str max value) (fun e => "Invalid " +:+ key +:+ ": " +:+ parse_int_error_to_string e).

(** A number of the configuration: [unwrap_or_else], [parse], [map_err]. *)
Definition number_or (max : Z) (key default : string) : result Z IndexerError.IndexerError :=
  invalid (from_str max (get_env_or key default)) (fun _ => "Invalid " +:+ key).

Definition database_from_env : result DatabaseConfig IndexerError.IndexerError :=
  let? url := get_env "DATABASE_URL" in
  let? max_connections := number_or U32_MAX "DB_MAX_CONNECTIONS" "20" in
  let? min_connections := number_or U32_MAX "DB_MIN_CONNECTIONS" "2" in
  let? acquire_timeout_sec := number_or U64_MAX "DB_ACQUIRE_TIMEOUT_SEC" "30" in
  Ok {| db_url := url; max_connections := max_connections; min_connections := min_connections;
        acquire_timeout_sec := acquire_timeout_sec |}.

Definition redis_from_env : result RedisConfig IndexerError.IndexerError :=
  let? url := get_env "REDIS_URL" in
  let? leader_ttl_sec := number_or U64_MAX "REDIS_LEADER_TTL_SEC" "15" in
  Ok {| redis_url := url; leader_key := get_env_or "REDIS_LEADER_KEY" "ingestion_leader_lock";
        leader_ttl_sec := leader_ttl_sec |}.

Definition blockchain_from_env : result BlockchainConfig IndexerError.IndexerError :=
  let? rpc_endpoint :=
    ok_or (match var env "INTUITION_RPC_URL" with
           | Some url => Some url
           | None => var env "RPC_ENDPOINT"
           end) (IndexerError.Config "INTUITION_RPC_URL (or RPC_ENDPOINT) not set") in
  let? contract_address := get_env "MULTIVAULT_CONTRACT_ADDRESS" in
  let? start_block := number_or U64_MAX "MULTIVAULT_START_BLOCK" "0" in
  let? chain_id := number_or U64_MAX "CHAIN_ID" "1" in
  Ok {| rpc_endpoint := rpc_endpoint; contract_address := contract_address;
        start_block := start_block; chain_id := chain_id |}.

Definition server_from_env : result ServerConfig IndexerError.IndexerError :=
  let? metrics_port := number_or U16_MAX "METRICS_PORT" "9091" in
  let? health_port := number_or U16_MAX "HEALTH_PORT" "8080" in
  Ok {| server_metrics_port := metrics_port; health_port := health_port |}.
End FromEnv.
End SharedConfig.

(** ** The graph feature flags *)

Module GraphFlags.

Definition GRAPH_ENTITY_KINDS : gset string :=
  list_to_set ["posts"; "follows"; "artifacts"; "enrichments"; "social_events"; "market_events"].
Definition GRAPH_READ_SURFACES : gset string :=
  list_to_set ["post_detail"; "follow_list"; "recommendations"; "search"; "neighborhood"; "node_detail"].
Definition EVENT_KINDS : gset string := list_to_set ["social"; "market"].

Definition parse_csv_set (raw : string) (valid : gset string) : gset string :=
  let trimmed := to_lowercase (trim raw) in
  if is_empty trimmed then ∅
  else if String.eqb trimmed "*" || String.eqb trimmed "all" then valid
  else foldl (fun result token =>
         let t := to_lowercase (trim token) in
         if is_empty t then result
         else if decide (t ∈ valid) then {[t]} ∪ result
         else result) ∅ (split "," raw).

Definition parse_boolean_env (raw : string) : bool :=
  existsb (String.eqb (to_lowercase (trim raw))) ["1"; "true"; "t"; "yes"; "y"; "on"].

Definition read_env (env : Environment) (key : string) : string := default "" (var env key).

(** The [OnceLock]s: what each cached at its first use. *)
Record Flags := {
  CACHED_WRITES : option (gset string);
  CACHED_READS : option (gset string);
  CACHED_EVENTS : option (gset string);
  CACHED_SEARCH : option bool;
  CACHED_RECS : option bool
}.

Definition unread : Flags := {|
  CACHED_WRITES := None; CACHED_READS := None; CACHED_EVENTS := None;
  CACHED_SEARCH := None; CACHED_RECS := None |}.

Definition graph_writes_enabled (env : Environment) (entity : string) (f : Flags) : bool * Flags :=
  let cached := default (parse_csv_set (read_env env "GRAPH_DB_WRITES_ENABLED") GRAPH_ENTITY_KINDS)
                  (CACHED_WRITES f) in
  (bool_decide (entity ∈ cached),
   {| CACHED_WRITES := Some cached; CACHED_READS := CACHED_READS f; CACHED_EVENTS := CACHED_EVENTS f;
      CACHED_SEARCH := CACHED_SEARCH f; CACHED_RECS := CACHED_RECS f |}).

Definition graph_reads_enabled (env : Environment) (surface : string) (f : Flags) : bool * Flags :=
  let cached := default (parse_csv_set (read_env env "GRAPH_DB_READS_ENABLED") GRAPH_READ_SURFACES)
                  (CACHED_READS f) in
  (bool_decide (surface ∈ cached),
   {| CACHED_WRITES := CACHED_WRITES f; CACHED_READS := Some cached; CACHED_EVENTS := CACHED_EVENTS f;
      CACHED_SEARCH := CACHED_SEARCH f; CACHED_RECS := CACHED_RECS f |}).

Definition graph_search_enabled (env : Environment) (f : Flags) : bool * Flags :=
  let cached := default (parse_boolean_env (read_env env "GRAPH_SEARCH_ENABLED")) (CACHED_SEARCH f) in
  (cached,
   {| CACHED_WRITES := CACHED_WRITES f; CACHED_READS := CACHED_READS f; CACHED_EVENTS := CACHED_EVENTS f;
      CACHED_SEARCH := Some cached; CACHED_RECS := CACHED_RECS f |}).

Definition graph_recommendations_enabled (env : Environment) (f : Flags) : bool * Flags :=
  let cached := default (parse_boolean_env (read_env env "GRAPH_RECOMMENDATIONS_ENABLED")) (CACHED_RECS f) in
  (cached,
   {| CACHED_WRITES := CACHED_WRITES f; CACHED_READS := CACHED_READS f; CACHED_EVENTS := CACHED_EVENTS f;
      CACHED_SEARCH := CACHED_SEARCH f; CACHED_RECS := Some cached |}).

Definition graph_event_recording_enabled (env : Environment) (event_kind : string) (f : Flags)
    : bool * Flags :=
  let cached := default (parse_csv_set (read_env env "GRAPH_EVENT_RECORDING_ENABLED") EVENT_KINDS)
                  (CACHED_EVENTS f) in
  (bool_decide (event_kind ∈ cached),
   {| CACHED_WRITES := CACHED_WRITES f; CACHED_READS := CACHED_READS f; CACHED_EVENTS := Some cached;
      CACHED_SEARCH := CACHED_SEARCH f; CACHED_RECS := CACHED_RECS f |}).
End GraphFlags.

(** ** Lemmas *)

(** *** Integers *)

Lemma from_digits_value max acc s n :
  from_digits max acc s = Ok n -> digits_value acc s = Some n /\ (0 <= acc <= max -> 0 <= n <= max).
Proof.
  revert acc. induction s as [|c s IH]; intros acc; cbn [from_digits digits_value]; [naive_solver|].
  destruct (digit c) as [d|] eqn:Hd; [|done]. destruct (Z.ltb_spec max (acc * 10 + d)); [done|].
  intros [? Hn]%IH. split; [done|]. intros. apply Hn.
  assert (0 <= d) by (unfold digit in Hd; cbv zeta in Hd; case_match; [injection Hd as <-; lia|done]). lia.
Qed.

Lemma from_digits_in_range max acc s n :
  0 <= acc -> digits_value acc s = Some n -> acc <= n /\ (n <= max -> from_digits max acc s = Ok n).
Proof.
  revert acc. induction s as [|c s IH]; intros acc Hacc; cbn [from_digits digits_value].
  - intros [= ->]. split; [lia|done].
  - destruct (digit c) as [d|] eqn:Hd; [|done]. intros Hn.
    assert (0 <= d) by (unfold digit in Hd; cbv zeta in Hd; case_match; [injection Hd as <-; lia|done]).
    destruct (IH (acc * 10 + d)) as [Hle Hok]; [lia|done|]. split; [lia|]. intros Hmax.
    destruct (Z.ltb_spec max (acc * 10 + d)); [lia|]. by apply Hok.
Qed.

Lemma in_range_some lo hi n : lo <= n <= hi -> in_range lo hi (Some n) = Some n.
Proof.
  intros Hn. unfold in_range. destruct (Z.leb_spec lo n), (Z.leb_spec n hi); simpl; first [done|lia].
Qed.

(** The parsers accept the numbers that [parse_unsigned] reads, and no others. *)
Lemma from_str_digits max s n :
  0 <= max -> from_digits max 0 s = Ok n <-> in_range 0 max (digits_value 0 s) = Some n.
Proof.
  intros Hmax. split.
  - intros [-> Hn]%from_digits_value. specialize (Hn ltac:(lia)). by apply in_range_some.
  - unfold in_range. destruct (digits_value 0 s) as [m|] eqn:Hm; [|done]. case_match eqn:Hb; [|done]. intros [= <-].
    apply andb_true_iff in Hb.
    apply (from_digits_in_range max 0 s m); [lia|done|lia].
Qed.

Lemma parse_from_str_ok max s n : 0 <= max -> from_str max s = Ok n <-> parse_unsigned max s = Some n.
Proof.
  intros Hmax. pose proof (from_str_digits max) as Hd. unfold parse_unsigned.
  destruct s as [|c s]; [done|].
  destruct (decide (c = "+"%char)) as [->|Hc].
  - destruct s as [|c s]; [done|]. cbn [from_str natural]. by apply Hd.
  - transitivity (in_range 0 max (digits_value 0 (String c s)) = Some n); [|].
    + rewrite <- Hd by done. destruct c as [[] [] [] [] [] [] [] []]; done.
    + destruct c as [[] [] [] [] [] [] [] []]; done.
Qed.

Lemma from_str_pretty max n : 0 <= n <= max -> from_str max (pretty n) = Ok n.
Proof.
  intros Hn. apply parse_from_str_ok; [lia|]. pose proof (natural_pretty_nonneg n ltac:(lia)) as Hp.
  pose proof (pretty_numeric n) as Hnum. unfold parse_unsigned.
  pose proof (in_range_some 0 max n Hn) as Hr.
  rewrite <- Hp in Hr at 1. destruct (pretty n) as [|c s] eqn:E; [done|].
  cbn [all_chars] in Hnum. apply andb_true_iff in Hnum as [Hc _].
  destruct c as [[] [] [] [] [] [] [] []]; try done.
Qed.

(** *** White space *)

(** *** Lists of names *)

Lemma split_part (c : ascii) (p s : string) :
  contains_char c p = false -> split c (p +:+ String c s) = p :: split c s.
Proof.
  unfold contains_char. rewrite negb_false_iff. induction p as [|a p IH].
  - intros _. rewrite append_nil. cbn [split]. by rewrite Ascii.eqb_refl.
  - cbn [all_chars]. intros [Ha Hp]%andb_true_iff. apply negb_true_iff in Ha.
    rewrite append_cons. cbn [split]. by rewrite Ha, IH.
Qed.

Lemma split_last (c : ascii) (p : string) : contains_char c p = false -> split c p = [p].
Proof.
  unfold contains_char. rewrite negb_false_iff. induction p as [|a p IH]; [done|].
  cbn [all_chars]. intros [Ha Hp]%andb_true_iff. apply negb_true_iff in Ha.
  cbn [split]. by rewrite Ha, IH.
Qed.

Lemma split_join (ps : list string) :
  ps <> [] -> Forall (fun p => contains_char "," p = false) ps -> split "," (join "," ps) = ps.
Proof.
  intros Hne Hps. induction Hps as [|p ps Hp Hps IH]; [done|].
  destruct (decide (ps = [])) as [->|Hps']; [by apply split_last|].
  rewrite join_cons by done. change ("," +:+ join "," ps) with (String "," (join "," ps)).
  by rewrite split_part, IH.
Qed.

(** A name of the lists of projections: not empty, without a comma or white
    space around it. *)
Definition list_name (s : string) : bool :=
  negb (is_empty s) && negb (contains_char "," s) && String.eqb (trim s) s.

Lemma csv_reads_back (names : list string) :
  forallb list_name names = true ->
  filter (fun s => negb (is_empty s)) (map trim (split "," (join "," names))) = names.
Proof.
  intros Hn. destruct (decide (names = [])) as [->|Hne]; [done|].
  assert (Hall : Forall (fun p => list_name p = true) names).
  { apply Forall_forall. intros p Hp. rewrite forallb_forall in Hn. by apply Hn, list_elem_of_In. }
  rewrite split_join; [|done|].
  - rewrite (map_ext_in _ id), map_id.
    + apply filter_all. eapply Forall_impl; [exact Hall|]. unfold list_name. intros p Hp.
      rewrite !andb_true_iff in Hp. by destruct Hp as ((-> & _) & _).
    + intros p Hp%list_elem_of_In. rewrite Forall_forall in Hall. specialize (Hall p Hp).
      unfold list_name in Hall. apply andb_true_iff in Hall as [_ Ht%String.eqb_eq]. done.
  - eapply Forall_impl; [exact Hall|]. unfold list_name. intros p Hp.
    rewrite !andb_true_iff in Hp. destruct Hp as ((_ & Hc) & _). by apply negb_true_iff.
Qed.

(** *** UTF-8 *)

Lemma valid_utf8_ascii (s : string) : all_chars is_numeric s = true -> valid_utf8 s = true.
Proof.
  induction s as [|c s IH]; [done|]. cbn [all_chars]. intros [Hc Hs]%andb_true_iff.
  assert (Hb : (byte c <=? 127) = true).
  { destruct c as [[] [] [] [] [] [] [] []]; try done. }
  cbn [valid_utf8]. rewrite Hb. by apply IH.
Qed.

Lemma var_pretty (env : Environment) key (n : Z) : env !! key = Some (pretty n) -> var env key = Some (pretty n).
Proof. unfold var. intros ->. cbn. unfold from_utf8. by rewrite valid_utf8_ascii by apply pretty_numeric. Qed.

(** ** A configuration written to the environment reads back *)

Module Deployment.
Import ProjectionsConfig.

(** The environment a deployment sets to run the configuration [c]. *)
Definition env_of (c : ProjectionsConfig) : Environment :=
  let optional key value := match value with Some v => [(key, v)] | None => [] end in
  list_to_map (
    [("DATABASE_URL", database_url c);
     ("SURREAL_DB_URL", surreal_url c);
     ("SURREAL_USER", surreal_user c);
     ("SURREAL_PASS", surreal_pass c);
     ("SURREAL_NAMESPACE", surreal_namespace c);
     ("SURREAL_DATABASE", surreal_database c);
     ("PROJECTIONS_METRICS_PORT", pretty (metrics_port c));
     ("PROJECTIONS_BATCH_SIZE", pretty (batch_size c));
     ("PROJECTIONS_POLL_INTERVAL_MS", pretty (poll_interval_ms c));
     ("LEADERBOARD_REFRESH_INTERVAL_SECS", pretty (leaderboard_refresh_interval_secs c));
     ("FUNNEL_TRACKER_INTERVAL_SECS", pretty (funnel_tracker_interval_secs c));
     ("USER_ACTIVITY_BATCH_INTERVAL_SECS", pretty (user_activity_batch_interval_secs c));
     ("POSITION_TRACKING_SHARDS", pretty (position_tracking_shards c));
     ("ENABLED_PROJECTIONS", join "," (enabled_projections c));
     ("DISABLED_PROJECTIONS", join "," (disabled_projections c))] ++
    optional "DATABASE_KG_URL" (database_kg_url c) ++
    optional "PG_POOL_MAX_CONNECTIONS" (pretty <$> pg_pool_max_connections c) ++
    optional "PG_POOL_ACQUIRE_TIMEOUT_SECS" (pretty <$> pg_pool_acquire_timeout_secs c)).

Definition in_bounds (max n : Z) : bool := (0 <=? n) && (n <=? max).

(** What the fields can hold: Unicode text, integers of their width, and names
    the comma-separated lists can carry. *)
Definition well_typed (c : ProjectionsConfig) : bool :=
  forallb valid_utf8
    [database_url c; surreal_url c; surreal_user c; surreal_pass c; surreal_namespace c;
     surreal_database c; default "" (database_kg_url c);
     join "," (enabled_projections c); join "," (disabled_projections c)] &&
  forallb list_name (enabled_projections c) && forallb list_name (disabled_projections c) &&
  in_bounds U16_MAX (metrics_port c) && in_bounds U64_MAX (batch_size c) &&
  in_bounds U64_MAX (poll_interval_ms c) && in_bounds U64_MAX (leaderboard_refresh_interval_secs c) &&
  in_bounds U64_MAX (funnel_tracker_interval_secs c) &&
  in_bounds U64_MAX (user_activity_batch_interval_secs c) &&
  in_bounds U32_MAX (position_tracking_shards c) &&
  in_bounds U32_MAX (default 0 (pg_pool_max_connections c)) &&
  in_bounds U64_MAX (default 0 (pg_pool_acquire_timeout_secs c)).

Lemma in_bounds_spec max n : in_bounds max n = true <-> 0 <= n <= max.
Proof. unfold in_bounds. rewrite andb_true_iff. lia. Qed.

Section Reads.
Context (env : Environment).

Lemma var_text key s : env !! key = Some s -> valid_utf8 s = true -> var env key = Some s.
Proof. unfold var. intros -> Hs. cbn. unfold from_utf8. by rewrite Hs. Qed.

Lemma env_or_text key s d : env !! key = Some s -> valid_utf8 s = true -> env_or env key d = s.
Proof. intros Hk Hs. unfold env_or. by rewrite (var_text key s). Qed.

Lemma parse_reads max what key d n :
  env !! key = Some (pretty n) -> in_bounds max n = true -> parse_or max what (env_or env key d) = Ok n.
Proof.
  intros Hk Hn%in_bounds_spec. unfold parse_or, env_or. by rewrite (var_pretty _ _ n), from_str_pretty.
Qed.

Lemma csv_reads key names :
  env !! key = Some (join "," names) -> valid_utf8 (join "," names) = true ->
  forallb list_name names = true -> parse_csv_env env key = names.
Proof.
  intros Hk Hu Hn. unfold parse_csv_env. rewrite (env_or_text key _ "" Hk Hu). by apply csv_reads_back.
Qed.

Lemma optional_reads max key o :
  env !! key = pretty <$> o -> in_bounds max (default 0 o) = true -> parse_optional_env env max key = o.
Proof.
  intros Hk Hn%in_bounds_spec. unfold parse_optional_env. destruct o as [n|].
  - rewrite (var_pretty _ _ n Hk). cbn. by rewrite from_str_pretty.
  - unfold var. by rewrite Hk.
Qed.

Lemma optional_text key o :
  env !! key = o -> valid_utf8 (default "" o) = true -> var env key = o.
Proof. intros Hk Hu. destruct o as [s|]; [by apply var_text|]. unfold var. by rewrite Hk. Qed.
End Reads.

Ltac reads :=
  match goal with
  | |- env_of ?c !! _ = _ =>
      unfold env_of; destruct (database_kg_url c), (pg_pool_max_connections c),
        (pg_pool_acquire_timeout_secs c); reflexivity
  end.

(** C18 (configuration reads back). Every configuration the service can hold,
    written to environment variables the way a deployment writes them, is what
    [from_env] returns: no setting is dropped, clamped or read from the wrong
    variable, and the lists of projections come back name by name. *)
Theorem config_reads_back (c : ProjectionsConfig) (Hc : well_typed c = true) :
  from_env (env_of c) = Ok c.
Proof.
  unfold well_typed in Hc. cbn [forallb] in Hc. rewrite !andb_true_iff in Hc. destruct_and! Hc.
  unfold from_env, require_env.
  erewrite var_text by (eassumption || reads). cbn [ok_or res_bind].
  repeat (erewrite parse_reads by (eassumption || reads); cbn [res_bind]).
  do 5 erewrite env_or_text by (eassumption || reads).
  do 2 erewrite csv_reads by (eassumption || reads).
  rewrite (optional_text _ _ (database_kg_url c)) by (assumption || reads).
  unfold parse_optional_env_u32, parse_optional_env_u64.
  rewrite (optional_reads _ _ _ (pg_pool_max_connections c)) by (assumption || reads).
  rewrite (optional_reads _ _ _ (pg_pool_acquire_timeout_secs c)) by (assumption || reads).
  by destruct c.
Qed.

Definition demo_config : ProjectionsConfig := {|
  database_url := "postgres://localhost/intuition"; database_kg_url := Some "postgres://localhost/kg";
  surreal_url := ""; surreal_user := "root"; surreal_pass := "root"; surreal_namespace := "intuition";
  surreal_database := "intuition"; metrics_port := 9092; batch_size := 100; poll_interval_ms := 500;
  leaderboard_refresh_interval_secs := 30; funnel_tracker_interval_secs := 3600;
  user_activity_batch_interval_secs := 3600; position_tracking_shards := 2;
  enabled_projections := []; disabled_projections := ["vault_state:dual"; "vault_holders_index:dual"];
  pg_pool_max_connections := None; pg_pool_acquire_timeout_secs := Some 10 |}.

Lemma config_reads_back_witness :
  from_env (env_of demo_config) = Ok demo_config /\
  is_projection_enabled demo_config "vault_state" = true /\
  is_projection_enabled demo_config "vault_state:dual" = false.
Proof. split; [exact (config_reads_back demo_config eq_refl)|by split]. Defined.

(** Only the database has no default. *)
Example from_env_defaults :
  from_env ∅ = Err (ProjectionError.Config "DATABASE_URL must be set") /\
  batch_size <$> match from_env {["DATABASE_URL" := "postgres://db"]} with Ok c => Some c | Err _ => None end
    = Some 500 /\
  from_env {["DATABASE_URL" := "postgres://db"; "POSITION_TRACKING_SHARDS" := "-1"]} =
    Err (ProjectionError.Config "Invalid position tracking shards: invalid digit found in string") /\
  from_env {["DATABASE_URL" := "postgres://db"; "PROJECTIONS_METRICS_PORT" := "65536"]} =
    Err (ProjectionError.Config "Invalid metrics port: number too large to fit in target type").
Proof. by vm_compute. Qed.
End Deployment.

(** ** The flags do not change while the process runs *)

Module FlagUse.
Import GraphFlags.

Inductive Flag :=
  | Writes (entity : string)
  | Reads (surface : string)
  | Search
  | Recommendations
  | Recording (event_kind : string).

Definition read_flag (flag : Flag) (env : Environment) : Flags -> bool * Flags :=
  match flag with
  | Writes entity => graph_writes_enabled env entity
  | Reads surface => graph_reads_enabled env surface
  | Search => graph_search_enabled env
  | Recommendations => graph_recommendations_enabled env
  | Recording event_kind => graph_event_recording_enabled env event_kind
  end.

(** The flags a process reads, each in the environment of that moment. *)
Fixpoint read_flags (reads : list (Flag * Environment)) (f : Flags) : list bool * Flags :=
  match reads with
  | [] => ([], f)
  | (flag, env) :: reads =>
      let '(b, f) := read_flag flag env f in
      let '(bs, f) := read_flags reads f in
      (b :: bs, f)
  end.

(** What is cached stays cached. *)
Definition keeps (f f' : Flags) : Prop :=
  (is_Some (CACHED_WRITES f) -> CACHED_WRITES f' = CACHED_WRITES f) /\
  (is_Some (CACHED_READS f) -> CACHED_READS f' = CACHED_READS f) /\
  (is_Some (CACHED_EVENTS f) -> CACHED_EVENTS f' = CACHED_EVENTS f) /\
  (is_Some (CACHED_SEARCH f) -> CACHED_SEARCH f' = CACHED_SEARCH f) /\
  (is_Some (CACHED_RECS f) -> CACHED_RECS f' = CACHED_RECS f).

Lemma keeps_trans f1 f2 f3 : keeps f1 f2 -> keeps f2 f3 -> keeps f1 f3.
Proof.
  unfold keeps. intros (A1 & A2 & A3 & A4 & A5) (B1 & B2 & B3 & B4 & B5).
  split_and!; intros Hs;
    [rewrite <- A1 by done; apply B1; by rewrite A1|rewrite <- A2 by done; apply B2; by rewrite A2
    |rewrite <- A3 by done; apply B3; by rewrite A3|rewrite <- A4 by done; apply B4; by rewrite A4
    |rewrite <- A5 by done; apply B5; by rewrite A5].
Qed.

Lemma read_flag_keeps flag env f : keeps f (snd (read_flag flag env f)).
Proof.
  destruct f as [[] [] [] [] []], flag; repeat split; intros [? ?]; simpl in *; congruence.
Qed.

Lemma read_flags_keeps reads f : keeps f (snd (read_flags reads f)).
Proof.
  revert f. induction reads as [|[flag env] reads IH]; intros f; cbn [read_flags]; [by repeat split|].
  pose proof (read_flag_keeps flag env f) as H1. destruct (read_flag flag env f) as [b f1].
  specialize (IH f1). destruct (read_flags reads f1) as [bs f2]. by apply (keeps_trans _ f1).
Qed.

Lemma read_flag_again flag env env' f f' :
  keeps (snd (read_flag flag env f)) f' -> fst (read_flag flag env' f') = fst (read_flag flag env f).
Proof.
  unfold keeps. destruct f as [w r e s c], flag; simpl; intros (A1 & A2 & A3 & A4 & A5);
    [rewrite A1|rewrite A2|rewrite A4|rewrite A5|rewrite A3]; done.
Qed.

(** (feature flags are fixed). Whatever is read in between and however the
    environment changes meanwhile, a flag answers the same for as long as the
    process runs. *)
Theorem graph_flags_fixed (flag : Flag) (env env' : Environment) (reads : list (Flag * Environment)) (f : Flags) :
  let '(b, f1) := read_flag flag env f in
  let '(_, f2) := read_flags reads f1 in
  fst (read_flag flag env' f2) = b.
Proof.
  pose proof (read_flag_again flag env env' f) as Ha. destruct (read_flag flag env f) as [b f1].
  pose proof (read_flags_keeps reads f1) as Hk. destruct (read_flags reads f1) as [bs f2].
  by apply Ha.
Qed.

(** No name outside the valid ones is ever enabled. *)
Lemma parse_csv_set_valid raw valid : parse_csv_set raw valid ⊆ valid.
Proof.
  unfold parse_csv_set. repeat (case_match; [set_solver|]).
  assert (Hg : forall ts acc, acc ⊆ valid ->
    foldl (fun result token =>
         let t := to_lowercase (trim token) in
         if is_empty t then result
         else if decide (t ∈ valid) then {[t]} ∪ result
         else result) acc ts ⊆ valid).
  { induction ts as [|t ts IH]; intros acc Hacc; [done|]. cbn [foldl]. apply IH. cbv zeta.
    repeat case_match; set_solver. }
  by apply Hg.
Qed.

Example parse_flags :
  parse_csv_set " Posts , unknown_thing,FOLLOWS, " GRAPH_ENTITY_KINDS = {["posts"; "follows"]} /\
  parse_csv_set " ALL " EVENT_KINDS = EVENT_KINDS /\
  map parse_boolean_env ["TRUE"; " on "; "nope"; ""] = [true; true; false; false].
Proof. split_and!; [|by vm_compute..]. apply set_eq. by vm_compute. Qed.
End FlagUse.
