(* ===== verification/Startup.v ===== *)
(** * Start-up of the projections service

    [crates/projections/src/main.rs]: from the configuration to the pools, the
    sinks and the projections the workers run, the core-entities worker, and the
    end of the process. The databases the service connects to are parameters: what
    each connection attempt answers. *)

From stdpp Require Import pretty.
From S2P Require Import Prelude MachineInt Text Events Errors CircuitBreaker Supervisor.
From S2P Require Import Traits ConnectionManager Config SurrealProjections.
From S2P Require Import PositionTracking VaultState VaultStateDual.

(** ** The projections *)

(** [Box<dyn PgProjection>], by the projection in the box. A KG pool is present
    or absent. *)
Inductive AnyPgProjection :=
  | EventLogProjection
  | AccountRegistryProjection
  | VaultHoldersIndexProjection
  | SignalsAnalyticsProjection
  | TermAggregatesProjection
  | ProtocolStatsProjection
  | ActivityMarkerProjection
  | LeaderboardMarkerProjection
  | VaultStateProjection (p : VaultState.VaultStateProjection)
  | PositionTrackingProjection (p : PositionTracking.PositionTrackingProjection)
  | VaultStateDualProjection (p : VaultStateDual.VaultStateDualProjection)
  | VaultHoldersIndexDualProjection (kg_pool : bool)
  | AtomContextDualProjection.

#[global] Instance vault_state_eq_dec : EqDecision VaultState.VaultStateProjection.
Proof. solve_decision. Defined.
#[global] Instance position_tracking_eq_dec : EqDecision PositionTracking.PositionTrackingProjection.
Proof. solve_decision. Defined.
#[global] Instance vault_state_dual_eq_dec : EqDecision VaultStateDual.VaultStateDualProjection.
Proof. solve_decision. Defined.
#[global] Instance any_pg_projection_eq_dec : EqDecision AnyPgProjection.
Proof. solve_decision. Defined.

(** [PgProjection::name] *)
Definition pg_projection_name (self : AnyPgProjection) : string :=
  match self with
  | EventLogProjection => "event_log"
  | AccountRegistryProjection => "account_registry"
  | VaultHoldersIndexProjection => "vault_holders_index"
  | SignalsAnalyticsProjection => "signals_analytics"
  | TermAggregatesProjection => "term_aggregates"
  | ProtocolStatsProjection => "protocol_stats"
  | ActivityMarkerProjection => "activity_marker"
  | LeaderboardMarkerProjection => "leaderboard_marker"
  | VaultStateProjection _ => VaultState.PROJECTION_NAME
  | PositionTrackingProjection _ => PositionTracking.PROJECTION_NAME
  | VaultStateDualProjection _ => VaultStateDual.PROJECTION_NAME
  | VaultHoldersIndexDualProjection _ => "vault_holders_index:dual"
  | AtomContextDualProjection => "atom_context:dual"
  end.

(** [PgProjection::shard_id] *)
Definition pg_projection_shard_id (self : AnyPgProjection) : option Z :=
  match self with
  | VaultStateProjection p => VaultState.pg_shard_id p
  | PositionTrackingProjection p =>
      if 1 <? PositionTracking.total_shards p then Some (PositionTracking.shard_id p) else None
  | VaultStateDualProjection p => VaultStateDual.pg_shard_id p
  | _ => None
  end.

(** [PgProjection::event_types] *)
Definition pg_projection_event_types (self : AnyPgProjection) : list EventType.EventType :=
  match self with
  | EventLogProjection =>
      [EventType.AtomCreated; EventType.AtomContextRegistered; EventType.TripleCreated;
       EventType.Deposited; EventType.Redeemed; EventType.SharePriceChanged;
       EventType.ProtocolFeeAccrued]
  | AccountRegistryProjection =>
      [EventType.AtomCreated; EventType.AtomContextRegistered; EventType.TripleCreated;
       EventType.Deposited; EventType.Redeemed; EventType.ProtocolFeeAccrued]
  | VaultHoldersIndexProjection => [EventType.Deposited; EventType.Redeemed]
  | SignalsAnalyticsProjection => [EventType.Deposited; EventType.Redeemed]
  | TermAggregatesProjection => [EventType.TripleCreated; EventType.SharePriceChanged]
  | ProtocolStatsProjection =>
      [EventType.AtomCreated; EventType.TripleCreated; EventType.Deposited; EventType.Redeemed;
       EventType.ProtocolFeeAccrued; EventType.SharePriceChanged]
  | ActivityMarkerProjection =>
      [EventType.AtomCreated; EventType.TripleCreated; EventType.Deposited; EventType.Redeemed]
  | LeaderboardMarkerProjection =>
      [EventType.Deposited; EventType.Redeemed; EventType.SharePriceChanged]
  | VaultStateProjection _ => [EventType.Deposited; EventType.Redeemed; EventType.SharePriceChanged]
  | PositionTrackingProjection _ => [EventType.Deposited; EventType.Redeemed]
  | VaultStateDualProjection _ =>
      [EventType.Deposited; EventType.Redeemed; EventType.SharePriceChanged]
  | VaultHoldersIndexDualProjection _ => [EventType.Deposited; EventType.Redeemed]
  | AtomContextDualProjection => [EventType.AtomContextRegistered]
  end.

Inductive AnyBatchProjection :=
  | LeaderboardRefreshProjection
  | FunnelTrackerProjection
  | UserActivityBatchProjection.

#[global] Instance any_batch_projection_eq_dec : EqDecision AnyBatchProjection.
Proof. solve_decision. Defined.

(** [BatchProjection::name] *)
Definition batch_projection_name (self : AnyBatchProjection) : string :=
  match self with
  | LeaderboardRefreshProjection => "leaderboard_refresh"
  | FunnelTrackerProjection => "funnel_tracker"
  | UserActivityBatchProjection => "user_activity_batch"
  end.

(** ** Building them *)

Import ProjectionsConfig.

(** The projectors and their tiers. *)
Definition specs : list (string * ConnectionTier) :=
  [("vault_state", ConnectionTier.Critical);
   ("position_tracking", ConnectionTier.Critical);
   ("core_entities", ConnectionTier.Critical);
   ("event_log", ConnectionTier.Standard);
   ("account_registry", ConnectionTier.Standard);
   ("vault_holders_index", ConnectionTier.Standard);
   ("vault_state:dual", ConnectionTier.Critical);
   ("vault_holders_index:dual", ConnectionTier.Standard);
   ("atom_context:dual", ConnectionTier.Standard);
   ("signals_analytics", ConnectionTier.Standard);
   ("term_aggregates", ConnectionTier.Standard);
   ("protocol_stats", ConnectionTier.Standard);
   ("activity_marker", ConnectionTier.Standard);
   ("leaderboard_marker", ConnectionTier.Standard);
   ("leaderboard_refresh", ConnectionTier.Batch);
   ("funnel_tracker", ConnectionTier.Batch);
   ("user_activity_batch", ConnectionTier.Batch)].

Section Build.
Context (config : ProjectionsConfig).
Abbreviation enabled := (is_projection_enabled config).

Definition active : list (string * ConnectionTier) := filter (fun spec => enabled (fst spec)) specs.

(** [PoolPartitioner::new] reads the overrides from the environment itself. *)
Definition build_pool_partitioner (env : Environment) : PoolPartitioner :=
  ConnectionManager.new active (parse_optional_env_u32 env "PG_POOL_MAX_CONNECTIONS")
    (parse_optional_env_u64 env "PG_POOL_ACQUIRE_TIMEOUT_SECS")
    (pg_pool_max_connections config) (pg_pool_acquire_timeout_secs config).

Definition SURREAL_PROJECTIONS : list string :=
  ["atom"; "triple"; "deposit"; "redeem"; "price"; "fee"; "core_entities"].
Definition needs_surreal : bool := existsb enabled SURREAL_PROJECTIONS.

(** [if config.is_projection_enabled(name) { pg_projections.push(..) }] *)
Definition when {A} (name : string) (projections : list A) : list A :=
  if enabled name then projections else [].

(** The ids of the loop [for shard_id in 0..vault_shards]. *)
Definition shard_ids : list Z := seqZ 0 (position_tracking_shards config).

Definition sharded_pair (shard_id : Z) : list AnyPgProjection :=
  let vault_shards := position_tracking_shards config in
  when "vault_state" [VaultStateProjection {| VaultState.shard_id := shard_id;
                                              VaultState.total_shards := vault_shards |}] ++
  when "position_tracking" [PositionTrackingProjection {| PositionTracking.shard_id := shard_id;
                                                          PositionTracking.total_shards := vault_shards |}].

Definition vault_state_dual (kg_pool : bool) (shard_id : Z) : AnyPgProjection :=
  let proj := VaultStateDual.new shard_id (position_tracking_shards config) in
  VaultStateDualProjection (if kg_pool then VaultStateDual.with_kg_pool proj else proj).

Definition build_pg_projections (kg_pool : bool) : list AnyPgProjection :=
  when "event_log" [EventLogProjection] ++
  when "account_registry" [AccountRegistryProjection] ++
  when "vault_holders_index" [VaultHoldersIndexProjection] ++
  when "signals_analytics" [SignalsAnalyticsProjection] ++
  when "term_aggregates" [TermAggregatesProjection] ++
  when "protocol_stats" [ProtocolStatsProjection] ++
  when "activity_marker" [ActivityMarkerProjection] ++
  when "leaderboard_marker" [LeaderboardMarkerProjection] ++
  concat (map sharded_pair shard_ids) ++
  when "vault_state:dual" (map (vault_state_dual kg_pool) shard_ids) ++
  when "vault_holders_index:dual" [VaultHoldersIndexDualProjection kg_pool] ++
  when "atom_context:dual" (if kg_pool then [AtomContextDualProjection] else []).

Definition build_batch_projections : list AnyBatchProjection :=
  when "leaderboard_refresh" [LeaderboardRefreshProjection] ++
  when "funnel_tracker" [FunnelTrackerProjection] ++
  when "user_activity_batch" [UserActivityBatchProjection].
End Build.

Definition is_typed_reader_enabled (env : Environment) : bool :=
  match var env "USE_TYPED_READER" with
  | Some value => String.eqb value "true" || String.eqb value "1"
  | None => false
  end.

(** ** Connecting *)

(** The sinks: the handle of a connected SurrealDB, or the no-op. *)
Inductive AnySink := SurrealSink | NoopSink.

Definition sink_name (self : AnySink) : string :=
  match self with SurrealSink => "surrealdb" | NoopSink => "noop" end.

(** What the databases answer: a connection pool for a URL with at most so many
    connections, and the [n]th attempt to connect to SurrealDB. *)
Class Databases := {
  pg_connect : string -> Z -> result unit string;
  surreal_connect : ProjectionsConfig -> nat -> result unit ProjectionError
}.

Section Connect.
Context `{Databases} (config : ProjectionsConfig).

Definition connect_postgres (partitioner : PoolPartitioner) : result unit string :=
  pg_connect (database_url config) (total_pool_size partitioner).

Definition connect_kg_if_configured : result bool string :=
  match database_kg_url config with
  | None => Ok false
  | Some kg_url =>
      match pg_connect kg_url 5 with
      | Ok _ => Ok true
      | Err e => Err ("Failed to connect to DATABASE_KG_URL: " +:+ e)
      end
  end.

Definition max_attempts : nat := 10.

(** The loop, from [attempt]; it sleeps 3 s between attempts. *)
Fixpoint surreal_attempts (fuel attempt : nat) : result unit string :=
  match fuel with
  | O => Err ""
  | S fuel =>
      match surreal_connect config attempt with
      | Ok _ => Ok tt
      | Err e =>
          if (max_attempts <=? attempt)%nat
          then Err ("Failed to connect to SurrealDB after " +:+ pretty max_attempts +:+ " attempts: "
                    +:+ ProjectionError.to_string e)
          else surreal_attempts fuel (S attempt)
      end
  end.

Definition connect_surreal_if_needed : result (option AnySink) string :=
  if negb (needs_surreal config) then Ok None
  else if is_empty (trim (surreal_url config)) then Ok (Some NoopSink)
  else match surreal_attempts max_attempts 1 with
       | Ok _ => Ok (Some SurrealSink)
       | Err e => Err e
       end.
End Connect.

(** ** The core-entities worker *)

(** What the closure of its supervisor captured. *)
Record CoreEntitiesSetup := {
  ce_surreal_sink : AnySink;
  ce_kg_pool : bool;
  ce_typed_reader : bool;
  ce_supervisor : Supervisor
}.

Inductive CoreEntitiesSpawn :=
  | CoreEntitiesDisabled
  | CoreEntitiesPanic (message : string)
  | CoreEntitiesSpawned (setup : CoreEntitiesSetup).

Definition spawn_core_entities_worker (config : ProjectionsConfig) (kg_pool : bool)
    (surreal_sink : option AnySink) (use_typed_reader : bool) : CoreEntitiesSpawn :=
  if negb (is_projection_enabled config "core_entities") then CoreEntitiesDisabled
  else
    match surreal_sink with
    | None => CoreEntitiesPanic "SurrealDB must be connected when core_entities is enabled"
    | Some sink =>
        CoreEntitiesSpawned {|
          ce_surreal_sink := sink; ce_kg_pool := kg_pool; ce_typed_reader := use_typed_reader;
          ce_supervisor := Supervisor.new "core_entities:dual" |}
    end.

(** ** [main], up to the spawning of the coordinator *)

Record Service := {
  config : ProjectionsConfig;
  partitioner : PoolPartitioner;
  kg_pool : bool;
  sinks : list AnySink;
  pg_projections : list AnyPgProjection;
  batch_projections : list AnyBatchProjection;
  use_typed_reader : bool;
  core_entities : option CoreEntitiesSetup
}.

Inductive start :=
  | Failed (error : string)
  | Panicked (message : string)
  | Running (service : Service).

Definition or_fail {A} (r : result A string) (k : A -> start) : start :=
  match r with Ok a => k a | Err e => Failed e end.

(** From the connections on: registration, and the core-entities worker. *)
Definition serve (env : Environment) (config : ProjectionsConfig) (partitioner : PoolPartitioner)
    (kg_pool : bool) (surreal_sink : option AnySink) : start :=
  let use_typed_reader := is_typed_reader_enabled env in
  let service core_entities := {|
    config := config; partitioner := partitioner; kg_pool := kg_pool;
    sinks := match surreal_sink with Some sink => [sink] | None => [] end;
    pg_projections := build_pg_projections config kg_pool;
    batch_projections := build_batch_projections config;
    use_typed_reader := use_typed_reader; core_entities := core_entities |} in
  match spawn_core_entities_worker config kg_pool surreal_sink use_typed_reader with
  | CoreEntitiesPanic message => Panicked message
  | CoreEntitiesDisabled => Running (service None)
  | CoreEntitiesSpawned setup => Running (service (Some setup))
  end.

Definition main `{Databases} (env : Environment) : start :=
  match from_env env with
  | Err e => Failed (ProjectionError.to_string e)
  | Ok config =>
      let partitioner := build_pool_partitioner config env in
      or_fail (connect_postgres config partitioner) (fun _ =>
      or_fail (connect_kg_if_configured config) (fun kg_pool =>
      or_fail (connect_surreal_if_needed config) (fun surreal_sink =>
      serve env config partitioner kg_pool surreal_sink)))
  end.

(** ** The end of the process *)

(** How a spawned task ended. *)
Inductive JoinResult := Joined | JoinPanicked.

#[global] Instance join_result_eq_dec : EqDecision JoinResult.
Proof. solve_decision. Defined.

(** The exit status once the critical tasks have ended, [None] while one has
    not: [tokio::join!] waits for both. [ce] is [None] when there is no worker. *)
Definition exit_status (coordinator : option JoinResult) (ce : option (option JoinResult)) : option Z :=
  match ce with
  | Some ce =>
      match coordinator, ce with
      | Some coord_result, Some ce_result =>
          match coord_result with
          | JoinPanicked => Some 1
          | Joined => match ce_result with JoinPanicked => Some 1 | Joined => Some 0 end
          end
      | _, _ => None
      end
  | None =>
      match coordinator with
      | Some JoinPanicked => Some 1
      | Some Joined => Some 0
      | None => None
      end
  end.

(** ** Lemmas *)

Section Built.
Context (config : ProjectionsConfig).
Abbreviation enabled := (is_projection_enabled config).

Lemma elem_of_when {A} (name : string) (projections : list A) p :
  p ∈ when config name projections <-> enabled name = true /\ p ∈ projections.
Proof. unfold when. destruct (enabled name); [tauto|]. rewrite elem_of_nil. naive_solver. Qed.

(** A projection of the right shard: its ids are in range, and a KG pool is
    attached when there is one. *)
Definition well_built (kg_pool : bool) (p : AnyPgProjection) : Prop :=
  let shards := position_tracking_shards config in
  match p with
  | VaultStateProjection q => 0 <= VaultState.shard_id q < shards /\ VaultState.total_shards q = shards
  | PositionTrackingProjection q =>
      0 <= PositionTracking.shard_id q < shards /\ PositionTracking.total_shards q = shards
  | VaultStateDualProjection q =>
      0 <= VaultStateDual.shard_id q < shards /\ VaultStateDual.total_shards q = shards /\
      VaultStateDual.kg_pool q = kg_pool
  | VaultHoldersIndexDualProjection kg => kg = kg_pool
  | AtomContextDualProjection => kg_pool = true
  | _ => True
  end.

Lemma elem_of_sharded s p :
  p ∈ concat (map (sharded_pair config) (shard_ids config)) -> s = position_tracking_shards config ->
  exists i, 0 <= i < s /\
    (enabled "vault_state" = true /\
       p = VaultStateProjection {| VaultState.shard_id := i; VaultState.total_shards := s |} \/
     enabled "position_tracking" = true /\
       p = PositionTrackingProjection {| PositionTracking.shard_id := i; PositionTracking.total_shards := s |}).
Proof.
  intros (l & Hl & Hp)%elem_of_concat ->. apply list_elem_of_In, in_map_iff in Hl as (i & <- & Hi%list_elem_of_In).
  apply elem_of_seqZ in Hi. exists i. split; [lia|]. unfold sharded_pair in Hp.
  rewrite elem_of_app, !elem_of_when, !list_elem_of_singleton in Hp. done.
Qed.

(** What start-up builds is enabled and right for the shard it is given. *)
Lemma built_projections kg p :
  p ∈ build_pg_projections config kg -> enabled (pg_projection_name p) = true /\ well_built kg p.
Proof.
  unfold build_pg_projections. rewrite !elem_of_app. intros Hp.
  repeat (destruct Hp as [Hp|Hp];
    [apply elem_of_when in Hp as [He ->%list_elem_of_singleton]; split; [exact He|exact I]|]).
  destruct Hp as [Hp|Hp].
  { destruct (elem_of_sharded _ _ Hp eq_refl) as (i & Hi & [[? ->]|[? ->]]); (split; [done|by split]). }
  destruct Hp as [Hp|[Hp|Hp]]; apply elem_of_when in Hp as [He Hp].
  - apply list_elem_of_In, in_map_iff in Hp as (i & <- & Hi%list_elem_of_In). apply elem_of_seqZ in Hi.
    unfold vault_state_dual. destruct kg; repeat split; simpl; first [done|lia].
  - apply list_elem_of_singleton in Hp as ->. by split.
  - destruct kg; [|by apply elem_of_nil in Hp]. apply list_elem_of_singleton in Hp as ->. by split.
Qed.

Lemma built_batches b : b ∈ build_batch_projections config -> enabled (batch_projection_name b) = true.
Proof.
  unfold build_batch_projections. rewrite !elem_of_app.
  intros [Hb|[Hb|Hb]]; by apply elem_of_when in Hb as [? ->%list_elem_of_singleton].
Qed.

(** The names of the workers that take permits. *)
Definition permit_names : list string := map fst specs.

Lemma pg_name_has_spec p : pg_projection_name p ∈ permit_names.
Proof. apply (bool_decide_unpack _). by destruct p; vm_compute. Qed.
Lemma batch_name_has_spec b : batch_projection_name b ∈ permit_names.
Proof. apply (bool_decide_unpack _). by destruct b; vm_compute. Qed.

(** *** The partitioner *)

Definition permits_map (projections : list (string * ConnectionTier)) (m : gmap string Z) : gmap string Z :=
  foldl (fun m '(name, tier) => <[name := ConnectionTier.permits tier]> m) m projections.

Lemma permits_map_cons name tier ps m :
  permits_map ((name, tier) :: ps) m = permits_map ps (<[name := ConnectionTier.permits tier]> m).
Proof. done. Qed.

Lemma permits_map_lookup ps m name :
  NoDup (map fst ps) ->
  (forall tier, (name, tier) ∈ ps -> permits_map ps m !! name = Some (ConnectionTier.permits tier)) /\
  (~ name ∈ map fst ps -> permits_map ps m !! name = m !! name).
Proof.
  revert m. induction ps as [|[n t] ps IH]; intros m Hnd.
  { split; [by intros ? ?%elem_of_nil|done]. }
  cbn [map fst] in *. apply NoDup_cons in Hnd as [Hn Hnd]. rewrite permits_map_cons.
  destruct (IH (<[n := ConnectionTier.permits t]> m) Hnd) as [IH1 IH2]. split.
  - intros tier [[= -> ->]|Hin]%elem_of_cons; [|by apply IH1].
    rewrite IH2 by done. by rewrite lookup_insert_eq.
  - intros Hname. apply not_elem_of_cons in Hname as [Hne Hname]. rewrite IH2 by done.
    by rewrite lookup_insert_ne.
Qed.

Lemma specs_distinct : NoDup permit_names.
Proof. apply (bool_decide_unpack _). by vm_compute. Qed.

Lemma active_distinct : NoDup (map fst (active config)).
Proof.
  unfold active. generalize specs_distinct. unfold permit_names.
  induction specs as [|[n t] l IH]; [done|]. cbn [map fst]. intros [Hn Hnd]%NoDup_cons.
  rewrite filter_cons. case_decide; [|by apply IH]. cbn [map fst]. apply NoDup_cons. split; [|by apply IH].
  contradict Hn. apply list_elem_of_In, in_map_iff in Hn as ([n' t'] & E & Hin%list_elem_of_In).
  apply list_elem_of_filter in Hin as [_ Hin]. simpl in E. subst n'.
  apply list_elem_of_In, in_map_iff. exists (n, t'). split; [done|by apply list_elem_of_In].
Qed.

(** An enabled projector has a semaphore with permits. *)
Lemma enabled_has_permits env name :
  enabled name = true -> name ∈ permit_names ->
  exists n, available_permits (build_pool_partitioner config env) name = Some n /\ 2 <= n.
Proof.
  intros He Hin. unfold permit_names in Hin. apply list_elem_of_In, in_map_iff in Hin as ([n t] & E & Hin%list_elem_of_In).
  simpl in E. subst n. exists (ConnectionTier.permits t). split; [|by destruct t].
  apply (permits_map_lookup (active config) ∅ name active_distinct).
  apply list_elem_of_filter. split; [simpl; by rewrite He|done].
Qed.

(** The budgets of a partitioner, over the names that can have one. *)
Definition budget (p : PoolPartitioner) : Z :=
  foldr (fun name acc => default 0 (available_permits p name) + acc) 0 permit_names.
End Built.

(** ** The pool is as large as the budgets *)

Section Budgets.
Context (config : ProjectionsConfig).

Definition is_critical (spec : string * ConnectionTier) : bool :=
  match snd spec with ConnectionTier.Critical => true | _ => false end.

(** The sum of the budgets of a list of projectors. *)
Definition total_permits (ps : list (string * ConnectionTier)) : Z :=
  foldr (fun spec acc => ConnectionTier.permits (snd spec) + acc) 0 ps.

Lemma total_permits_criticals ps :
  total_permits ps = 2 * Z.of_nat (length ps) + 2 * Z.of_nat (length (filter is_critical ps)).
Proof.
  induction ps as [|[n t] ps IH]; [done|]. cbn [total_permits foldr snd]. fold (total_permits ps).
  rewrite IH, filter_cons. destruct t; simpl; lia.
Qed.

Lemma active_criticals : (length (filter is_critical (active config)) <= 4)%nat.
Proof.
  unfold active. transitivity (length (filter is_critical specs)); [|by vm_compute].
  rewrite list_filter_filter. apply length_filter_le_impl. naive_solver.
Qed.
End Budgets.

(** ** Properties *)

Definition surreal_reachable `{Databases} (c : ProjectionsConfig) : Prop :=
  needs_surreal c = false \/ is_empty (trim (surreal_url c)) = true \/
  exists k, (1 <= k <= 10)%nat /\ surreal_connect c k = Ok tt.

Definition service_of (env : Environment) (c : ProjectionsConfig) : Service :=
  let kg_pool := bool_decide (is_Some (database_kg_url c)) in
  let sink := if is_empty (trim (surreal_url c)) then NoopSink else SurrealSink in
  {| config := c;
     partitioner := build_pool_partitioner c env;
     kg_pool := kg_pool;
     sinks := if needs_surreal c then [sink] else [];
     pg_projections := build_pg_projections c kg_pool;
     batch_projections := build_batch_projections c;
     use_typed_reader := is_typed_reader_enabled env;
     core_entities :=
       if is_projection_enabled c "core_entities" then
         Some {| ce_surreal_sink := sink; ce_kg_pool := kg_pool;
                 ce_typed_reader := is_typed_reader_enabled env;
                 ce_supervisor := Supervisor.new "core_entities:dual" |}
       else None |}.

Lemma surreal_attempts_ok `{Databases} c fuel attempt :
  (attempt + fuel = 11)%nat ->
  surreal_attempts c fuel attempt = Ok tt <->
  exists k, (attempt <= k <= 10)%nat /\ surreal_connect c k = Ok tt.
Proof.
  revert attempt. induction fuel as [|fuel IH]; intros attempt Hf; cbn [surreal_attempts].
  { split; [done|]. intros (k & Hk & _). lia. }
  destruct (surreal_connect c attempt) as [[]|e] eqn:Hc.
  { split; [|done]. intros _. exists attempt. split; [lia|done]. }
  assert (Hnot : forall k, surreal_connect c k = Ok tt -> k <> attempt) by congruence.
  unfold max_attempts. destruct (Nat.leb_spec 10 attempt).
  - split; [done|]. intros (k & Hk & E). specialize (Hnot k E). lia.
  - rewrite IH by lia. split; intros (k & Hk & E); exists k; (split; [|done]); [lia|].
    specialize (Hnot k E). lia.
Qed.

Lemma connect_surreal_spec `{Databases} c sink :
  connect_surreal_if_needed c = Ok sink <->
  surreal_reachable c /\
  sink = if needs_surreal c then Some (if is_empty (trim (surreal_url c)) then NoopSink else SurrealSink)
         else None.
Proof.
  unfold connect_surreal_if_needed, surreal_reachable.
  pose proof (surreal_attempts_ok c max_attempts 1 eq_refl) as Ha. revert Ha.
  generalize (surreal_attempts c max_attempts 1). intros attempts <-.
  destruct (needs_surreal c); simpl; [|naive_solver].
  destruct (is_empty _); simpl; [naive_solver|].
  destruct attempts as [[]|e].
  - split; [intros [= <-]; split; [by right; right|done]|by intros [_ ->]].
  - split; [done|]. by intros [[?|[?|?]] _].
Qed.

Lemma core_entities_needs_surreal c : is_projection_enabled c "core_entities" = true -> needs_surreal c = true.
Proof. intros He. unfold needs_surreal, SURREAL_PROJECTIONS. cbn [existsb]. by rewrite He, !orb_true_r. Qed.

Lemma connect_kg_spec `{Databases} c kg :
  connect_kg_if_configured c = Ok kg <->
  (forall url, database_kg_url c = Some url -> pg_connect url 5 = Ok tt) /\
  kg = bool_decide (is_Some (database_kg_url c)).
Proof.
  unfold connect_kg_if_configured. destruct (database_kg_url c) as [url|]; simpl.
  - destruct (pg_connect url 5) as [[]|e] eqn:E.
    + split; [intros [= <-]; split; [congruence|done]|by intros [_ ->]].
    + split; [done|]. intros [Hu _]. specialize (Hu url eq_refl). congruence.
  - split; [by intros [= <-]|by intros [_ ->]].
Qed.

Lemma or_fail_running {A} (r : result A string) k s :
  or_fail r k = Running s <-> exists a, r = Ok a /\ k a = Running s.
Proof. destruct r; simpl; naive_solver. Qed.

(** The sink of a configuration: [None] when nothing needs SurrealDB. *)
Abbreviation sink_for c :=
  (if needs_surreal c then Some (if is_empty (trim (surreal_url c)) then NoopSink else SurrealSink) else None).

Lemma serve_never_panics env c p kg sink message :
  sink = sink_for c -> serve env c p kg sink <> Panicked message.
Proof.
  intros ->. unfold serve, spawn_core_entities_worker. pose proof (core_entities_needs_surreal c) as Hneeds.
  destruct (is_projection_enabled c "core_entities"); [|done]. by rewrite Hneeds.
Qed.

Lemma serve_service env c :
  serve env c (build_pool_partitioner c env) (bool_decide (is_Some (database_kg_url c))) (sink_for c) =
  Running (service_of env c).
Proof.
  unfold serve, service_of, spawn_core_entities_worker. pose proof (core_entities_needs_surreal c) as Hneeds.
  destruct (is_projection_enabled c "core_entities"); [by rewrite Hneeds|by destruct (needs_surreal c)].
Qed.

Lemma main_running `{Databases} (env : Environment) (s : Service) :
  main env = Running s <->
    exists c, from_env env = Ok c /\
      pg_connect (database_url c) (total_pool_size (build_pool_partitioner c env)) = Ok tt /\
      (forall url, database_kg_url c = Some url -> pg_connect url 5 = Ok tt) /\
      surreal_reachable c /\ s = service_of env c.
Proof.
  unfold main. destruct (from_env env) as [c|e]; [|naive_solver].
  pose proof (connect_surreal_spec c) as Hsurreal. pose proof (connect_kg_spec c) as Hkg.
  set (p := build_pool_partitioner c env). rewrite or_fail_running. unfold connect_postgres. split.
  - intros ([] & Hpg & Hs). apply or_fail_running in Hs as (kg & [Hk ->]%Hkg & Hs).
    apply or_fail_running in Hs as (sink & [Hsk ->]%Hsurreal & Hs).
    exists c. split_and!; try done. unfold p in Hs. rewrite serve_service in Hs. by injection Hs.
  - intros (c' & [= <-] & Hpg & Hk & Hsk & ->). exists tt. split; [done|].
    apply or_fail_running. eexists. split; [by apply Hkg|].
    apply or_fail_running. eexists. split; [by apply Hsurreal|]. apply serve_service.
Qed.

(** C16 (the start-up). [main] never panics. It reaches a running service exactly
    when the configuration can be read, both PostgreSQL databases it names accept
    their pools, and SurrealDB is not needed, not configured, or accepts one of the
    first ten attempts; and the service it then runs is the one the configuration
    describes. *)
Theorem start_up `{Databases} (env : Environment) :
  (forall message, main env <> Panicked message) /\
  forall s, main env = Running s <->
    exists c, from_env env = Ok c /\
      pg_connect (database_url c) (total_pool_size (build_pool_partitioner c env)) = Ok tt /\
      (forall url, database_kg_url c = Some url -> pg_connect url 5 = Ok tt) /\
      surreal_reachable c /\ s = service_of env c.
Proof.
  split; [|intros s; apply main_running]. intros message. unfold main, or_fail.
  destruct (from_env env) as [c|]; [|done]. set (p := build_pool_partitioner c env).
  destruct (connect_postgres c p); [|done]. destruct (connect_kg_if_configured c) as [kg|]; [|done].
  destruct (connect_surreal_if_needed c) as [sink|] eqn:Hsink; [|done].
  apply (serve_never_panics env c p kg sink). by apply connect_surreal_spec in Hsink as [_ ?].
Qed.

Lemma active_permits c env name tier :
  (name, tier) ∈ specs ->
  available_permits (build_pool_partitioner c env) name =
    if is_projection_enabled c name then Some (ConnectionTier.permits tier) else None.
Proof.
  intros Hin. destruct (permits_map_lookup (active c) ∅ name (active_distinct c)) as [Hsome Hnone].
  destruct (is_projection_enabled c name) eqn:He.
  - apply Hsome, list_elem_of_filter. split; [simpl; by rewrite He|done].
  - apply Hnone. intros Hn. apply list_elem_of_In, in_map_iff in Hn as ([n t] & E & Ha%list_elem_of_In).
    apply list_elem_of_filter in Ha as [Ha _]. simpl in *. subst n. by rewrite He in Ha.
Qed.

Lemma budget_total c env : budget (build_pool_partitioner c env) = total_permits (active c).
Proof.
  unfold budget, permit_names, active.
  assert (Hl : forall l, (forall spec, spec ∈ l -> spec ∈ specs) ->
    foldr (fun name acc => default 0 (available_permits (build_pool_partitioner c env) name) + acc) 0 (map fst l) =
    total_permits (filter (fun spec => is_projection_enabled c (fst spec)) l)); [|by apply Hl].
  induction l as [|[n t] l IH]; intros Hin; [done|]. cbn [map fst foldr].
  rewrite (active_permits c env n t) by (apply Hin; left).
  rewrite IH by (intros; apply Hin; by right). rewrite filter_cons. simpl.
  by destruct (is_projection_enabled c n).
Qed.

(** The pool is larger than the budgets. Without an override the pool has three
    connections per enabled projector and five more, whatever the configuration
    enables; the permits the semaphores give out are fewer, so that a projection that
    holds a permit is never the reason another waits for a connection, and at least
    one connection is left for the checkpoints and the event readers, which take no
    permit. *)
Theorem pool_covers_budgets (c : ProjectionsConfig) (env : Environment)
  (Hpool : pg_pool_max_connections c = None)
  (Henv : parse_optional_env_u32 env "PG_POOL_MAX_CONNECTIONS" = None) :
  let p := build_pool_partitioner c env in
  let n := Z.of_nat (length (active c)) in
  let critical := Z.of_nat (length (filter is_critical (active c))) in
  total_pool_size p = 3 * n + 5 /\ budget p = 2 * n + 2 * critical /\
  budget p + 1 <= total_pool_size p <= 56.
Proof.
  cbv zeta. rewrite budget_total, total_permits_criticals.
  assert (Hn : (length (active c) <= 17)%nat) by (unfold active; apply (length_filter _ specs)).
  assert (E : total_pool_size (build_pool_partitioner c env) = 3 * Z.of_nat (length (active c)) + 5).
  { unfold total_pool_size, build_pool_partitioner, ConnectionManager.new. cbn [pool_size].
    rewrite Hpool, Henv. cbn [default]. unfold DEFAULT_BASE_PER_PROJECTION, DEFAULT_OVERHEAD.
    apply Z.mod_small. lia. }
  pose proof (active_criticals c). pose proof (length_filter is_critical (active c)).
  rewrite E. lia.
Qed.

(** Permits for every worker. Every PostgreSQL and batch projection the service
    runs, and the core-entities projection when it runs, has a semaphore with permits
    to give: [acquire] never answers that the projection is unknown. *)
Theorem workers_have_permits `{Databases} (env : Environment) (s : Service)
  (Hs : main env = Running s) :
  forall name,
    (exists p, p ∈ pg_projections s /\ name = pg_projection_name p) \/
    (exists b, b ∈ batch_projections s /\ name = batch_projection_name b) \/
    (is_Some (core_entities s) /\ name = "core_entities") ->
  exists n, available_permits (partitioner s) name = Some n /\ 2 <= n /\
    fst (ConnectionManager.acquire (partitioner s) name) = Ok tt.
Proof.
  apply main_running in Hs as (c & _ & _ & _ & _ & ->).
  intros name Hname.
  assert (Hsome : exists n, available_permits (build_pool_partitioner c env) name = Some n /\ 2 <= n).
  { destruct Hname as [(p & Hp & ->)|[(b & Hb & ->)|[Hce ->]]]; apply enabled_has_permits.
    - by apply built_projections in Hp as [? _].
    - apply pg_name_has_spec.
    - by apply built_batches in Hb.
    - apply batch_name_has_spec.
    - unfold service_of in Hce. cbn [core_entities] in Hce. destruct (is_projection_enabled c "core_entities"); [done|].
      by destruct Hce.
    - apply (bool_decide_unpack _). by vm_compute. }
  destruct Hsome as (n & Hn & H2). exists n. split; [done|]. split; [done|].
  unfold ConnectionManager.acquire. unfold available_permits in Hn. cbn [partitioner service_of]. rewrite Hn.
  by rewrite (proj2 (Z.ltb_lt 0 n)) by lia.
Qed.

(** (the process ends with its critical tasks). The process exits only when the
    coordinator has ended and so has the core-entities worker if there is one, with
    status 1 exactly when one of them panicked. *)
Theorem exit_waits_for_all (coordinator : option JoinResult) (ce : option (option JoinResult)) (code : Z) :
  exit_status coordinator ce = Some code <->
  is_Some coordinator /\ (forall h, ce = Some h -> is_Some h) /\
  code = (if decide (coordinator = Some JoinPanicked \/ ce = Some (Some JoinPanicked)) then 1 else 0).
Proof.
  split.
  - destruct coordinator as [[]|], ce as [[[]|]|]; simpl; try done; intros [= <-]; by split_and!; [|naive_solver|].
  - intros ([r ->] & Hce & ->). destruct ce as [h|]; [destruct (Hce h eq_refl) as [r' ->]|];
      destruct r; try destruct r'; by vm_compute.
Qed.

(** ** Witnesses *)

(** Databases that accept every connection, SurrealDB from the third attempt on. *)
Definition demo_databases : Databases := {|
  pg_connect _ _ := Ok tt;
  surreal_connect _ k := if (2 <? k)%nat then Ok tt else Err (ProjectionError.Sink "connection refused")
|}.

Definition demo_env : Environment := Deployment.env_of Deployment.demo_config.

Example demo_start :
  match @main demo_databases demo_env with
  | Running s => (length (pg_projections s), length (batch_projections s), sinks s, total_pool_size (partitioner s))
  | _ => (0%nat, 0%nat, [], 0)
  end = (13%nat, 3%nat, [NoopSink], 50).
Proof. vm_compute. reflexivity. Qed.

(** A database that refuses stops the process; SurrealDB is given up after ten attempts. *)
Example failed_starts :
  @main {| pg_connect _ _ := Err "pool timed out"; surreal_connect _ _ := Ok tt |}
    {["DATABASE_URL" := "postgres://db"]} = Failed "pool timed out" /\
  @main {| pg_connect _ _ := Ok tt; surreal_connect _ _ := Err (ProjectionError.Sink "refused") |}
    {["DATABASE_URL" := "postgres://db"]} =
  Failed ("Failed to connect to SurrealDB after 10 attempts: " +:+ ProjectionError.to_string (ProjectionError.Sink "refused")).
Proof. by vm_compute. Qed.

Lemma pool_covers_budgets_witness :
  let p := build_pool_partitioner Deployment.demo_config demo_env in
  total_pool_size p = 3 * 15 + 5 /\ budget p = 2 * 15 + 2 * 3 /\ budget p + 1 <= total_pool_size p <= 56.
Proof. exact (pool_covers_budgets Deployment.demo_config demo_env eq_refl ltac:(vm_compute; reflexivity)). Defined.

Lemma workers_have_permits_witness :
  exists n, available_permits (partitioner (service_of demo_env Deployment.demo_config)) "vault_state" = Some n /\
    2 <= n /\
    fst (ConnectionManager.acquire (partitioner (service_of demo_env Deployment.demo_config)) "vault_state") = Ok tt.
Proof.
  apply (@workers_have_permits demo_databases demo_env (service_of demo_env Deployment.demo_config)).
  - vm_compute. reflexivity.
  - left. exists (VaultStateProjection {| VaultState.shard_id := 1; VaultState.total_shards := 2 |}).
    split; [|reflexivity]. apply (bool_decide_unpack _). vm_compute. exact I.
Defined.
