(* ===== verification/Coordinator.v ===== *)
(** * The coordinator

    [crates/projections/src/coordinator.rs]: every enabled projection gets a
    worker, every worker a supervisor that rebuilds it from a factory, a heartbeat
    registered with the watchdog, and a token the watchdog may cancel. The
    cancellation tokens of [tokio_util] are an interface: what cancelling one does
    to the others. *)

From stdpp Require Import pretty.
From S2P Require Import Prelude MachineInt Text Events Errors CircuitBreaker Retry.
From S2P Require Import Supervisor Watchdog ConnectionManager WorkerWorld Traits.
From S2P Require Import DemoWorld Config SurrealProjections PgWorker.
From S2P Require Import SurrealWorker BatchWorker PositionTracking VaultState.
From S2P Require Import VaultStateDual Startup.

(** ** Factories *)

Definition create_pg_projection (name : string) (shard_id : option Z) (total_shards : Z) (kg_pool : bool)
    : option AnyPgProjection :=
  let shard := default 0 shard_id in
  if String.eqb name "event_log" then Some EventLogProjection
  else if String.eqb name "account_registry" then Some AccountRegistryProjection
  else if String.eqb name "vault_holders_index" then Some VaultHoldersIndexProjection
  else if String.eqb name "signals_analytics" then Some SignalsAnalyticsProjection
  else if String.eqb name "term_aggregates" then Some TermAggregatesProjection
  else if String.eqb name "protocol_stats" then Some ProtocolStatsProjection
  else if String.eqb name "activity_marker" then Some ActivityMarkerProjection
  else if String.eqb name "leaderboard_marker" then Some LeaderboardMarkerProjection
  else if String.eqb name "vault_state" then
    Some (VaultStateProjection {| VaultState.shard_id := shard; VaultState.total_shards := total_shards |})
  else if String.eqb name "position_tracking" then
    Some (PositionTrackingProjection {| PositionTracking.shard_id := shard;
                                        PositionTracking.total_shards := total_shards |})
  else if String.eqb name "vault_state:dual" then
    let proj := VaultStateDual.new shard total_shards in
    Some (VaultStateDualProjection (if kg_pool then VaultStateDual.with_kg_pool proj else proj))
  else if String.eqb name "vault_holders_index:dual" then Some (VaultHoldersIndexDualProjection kg_pool)
  else if String.eqb name "atom_context:dual" then (if kg_pool then Some AtomContextDualProjection else None)
  else None.

Definition create_batch_projection (name : string) : option AnyBatchProjection :=
  if String.eqb name "leaderboard_refresh" then Some LeaderboardRefreshProjection
  else if String.eqb name "funnel_tracker" then Some FunnelTrackerProjection
  else if String.eqb name "user_activity_batch" then Some UserActivityBatchProjection
  else None.

(** ** Cancellation tokens *)

(** [tokio_util::sync::CancellationToken]: [below s a b] when cancelling [a]
    cancels [b]. A child is cancelled with its parent, never the reverse. *)
Class CancellationTokens (Store Token : Type) := {
  child_token : Token -> Store -> Token * Store;
  cancel_token : Token -> Store -> Store;
  is_cancelled : Token -> Store -> bool;
  issued : Store -> Token -> Prop;
  below : Store -> Token -> Token -> Prop;
  cancel_spec s t u :
    issued s u ->
    is_cancelled u (cancel_token t s) = true <-> is_cancelled u s = true \/ below s t u;
  cancel_below s t a b : below (cancel_token t s) a b <-> below s a b;
  cancel_issued s t u : issued (cancel_token t s) u <-> issued s u;
  child_issued s t u s' : issued s t -> child_token t s = (u, s') ->
    ~ issued s u /\ forall v, issued s' v <-> issued s v \/ v = u;
  child_below s t u s' : issued s t -> child_token t s = (u, s') ->
    forall a b, issued s' a -> issued s' b ->
      below s' a b <-> (issued s a /\ issued s b /\ below s a b) \/ (b = u /\ (a = u \/ (issued s a /\ below s a t)));
  child_cancelled s t u s' : issued s t -> child_token t s = (u, s') ->
    is_cancelled u s' = is_cancelled t s /\ forall v, issued s v -> is_cancelled v s' = is_cancelled v s;
  below_self s t : issued s t -> below s t t
}.

(** ** Spawning *)

Section Spawn.
Context {W : Type} `{WorkerWorld W} `{EventCodecs} `{Encodings}.
Context {Store Token : Type} `{CancellationTokens Store Token}.

(** The behaviour of the boxed projections and sinks. *)
Context (process : AnyPgProjection -> list ParsedEvent -> W -> result unit ProjectionError * W).
Context (cycle : AnyBatchProjection -> W -> result unit ProjectionError * W).
Context (apply : AnySink -> list SinkOperation -> W -> result unit ProjectionError * W).

Definition pg_projection (p : AnyPgProjection) : PgProjection W := {|
  pg_name := pg_projection_name p; pg_event_types := pg_projection_event_types p;
  Traits.shard_id := pg_projection_shard_id p; Traits.process_parsed_batch := process p |}.
Definition batch_projection (b : AnyBatchProjection) : BatchProjection W := {|
  batch_name := batch_projection_name b; Traits.run_cycle := cycle b |}.
Definition projection_sink (s : AnySink) : ProjectionSink W := {|
  Traits.sink_name := Startup.sink_name s; apply_batch := apply s |}.

(** What a factory builds. *)
Inductive AnyWorker :=
  | OnSurreal (worker : SurrealWorker.Worker (W := W))
  | OnPg (worker : PgWorker.PgWorker (W := W))
  | OnBatch (worker : BatchWorker.BatchWorker (W := W)).

(** A supervised task: the closure of its supervisor always builds the same
    worker, or panics with [unreachable!] ([None]). *)
Record Supervised := { supervisor : Supervisor; factory : option AnyWorker }.

(** What spawning changes: the tokens, the watchdog and the token each of its
    workers is registered with, and the handles. *)
Record Spawning := {
  tokens : Store;
  watchdog : Watchdog;
  watch_tokens : list Token;
  handles : list (string * Supervised)
}.

Context (now : Instant) (token : Token).

Definition register_with_watchdog (self : Watchdog) (label : string) (heartbeat : Heartbeat) : Watchdog :=
  Watchdog.register self
    {| Watchdog.ww_name := label; Watchdog.heartbeat := heartbeat; Watchdog.cancel_token := false |}.

(** The steps the three loops share. *)
Definition spawn (label : string) (make : option AnyWorker) (st : Spawning) : Spawning :=
  let heartbeat := heartbeat_new now in
  let '(worker_cancel_token, tokens) := child_token token (tokens st) in
  {| tokens := tokens;
     watchdog := register_with_watchdog (watchdog st) label heartbeat;
     watch_tokens := watch_tokens st ++ [worker_cancel_token];
     handles := handles st ++ [(label, {| supervisor := Supervisor.new label; factory := make |})] |}.

Context (self : Service).
Abbreviation config := (Startup.config self).

Definition worker_config : WorkerConfig := {|
  batch_size := ProjectionsConfig.batch_size config;
  poll_interval_ms := ProjectionsConfig.poll_interval_ms config |}.

Definition surreal_projections : list Projection :=
  filter (fun p => ProjectionsConfig.is_projection_enabled config (name p)) all_projections.

(** [all_projections().into_iter().find(|p| p.name() == name)] *)
Definition find_projection (proj_name : string) : option Projection :=
  List.find (fun p => String.eqb (name p) proj_name) all_projections.

Definition make_surreal_worker (proj_name : string) (sink : AnySink) : option AnyWorker :=
  proj ← find_projection proj_name;
  Some (OnSurreal (SurrealWorker.with_dead_letter_pool (SurrealWorker.with_heartbeat
    (SurrealWorker.new proj (projection_sink sink) worker_config)))).

Definition spawn_surreal_workers (st : Spawning) : Spawning :=
  foldl (fun st projection =>
    foldl (fun st sink =>
      spawn (name projection +:+ ":" +:+ Startup.sink_name sink)
        (make_surreal_worker (name projection) sink) st) st (sinks self)) st surreal_projections.

Definition make_pg_worker (name : string) (shard_id : option Z) : option AnyWorker :=
  proj ← create_pg_projection name shard_id (ProjectionsConfig.position_tracking_shards config)
           (Startup.kg_pool self);
  Some (OnPg (PgWorker.with_heartbeat (PgWorker.new (pg_projection proj) worker_config))).

Definition pg_label (p : AnyPgProjection) : string :=
  match pg_projection_shard_id p with
  | Some id => pg_projection_name p +:+ ":pg:s" +:+ pretty id
  | None => pg_projection_name p +:+ ":pg"
  end.

Definition spawn_pg_workers (st : Spawning) : Spawning :=
  foldl (fun st p =>
    spawn (pg_label p) (make_pg_worker (pg_projection_name p) (pg_projection_shard_id p)) st)
    st (pg_projections self).

Definition batch_interval (name : string) : Z :=
  if String.eqb name "funnel_tracker" then ProjectionsConfig.funnel_tracker_interval_secs config
  else if String.eqb name "user_activity_batch" then ProjectionsConfig.user_activity_batch_interval_secs config
  else ProjectionsConfig.leaderboard_refresh_interval_secs config.

Definition make_batch_worker (name : string) : option AnyWorker :=
  proj ← create_batch_projection name;
  Some (OnBatch (BatchWorker.with_heartbeat
    (BatchWorker.new (batch_projection proj) (batch_interval name)))).

Definition spawn_batch_workers (st : Spawning) : Spawning :=
  foldl (fun st b =>
    spawn (batch_projection_name b +:+ ":batch") (make_batch_worker (batch_projection_name b)) st)
    st (batch_projections self).

(** [Coordinator::run], up to waiting for the handles. *)
Definition run (store : Store) : Spawning :=
  let st := {| tokens := store; watchdog := Watchdog.with_defaults; watch_tokens := []; handles := [] |} in
  spawn_batch_workers (spawn_pg_workers (spawn_surreal_workers st)).

(** [init_metrics_labels] *)
Definition init_metrics_labels : list (string * string) :=
  concat (map (fun p => map (fun s => (name p, Startup.sink_name s)) (sinks self)) surreal_projections) ++
  map (fun p => (match pg_projection_shard_id p with
                 | Some id => pg_projection_name p +:+ "_s" +:+ pretty id
                 | None => pg_projection_name p
                 end, "pg")) (pg_projections self) ++
  map (fun b => (batch_projection_name b, "batch")) (batch_projections self).
End Spawn.

(** [await_worker_handles]: the labels whose supervisor task panicked, logged in order. *)
Definition await_worker_handles (handles : list (string * JoinResult)) : list string :=
  map fst (filter (fun h => snd h = JoinPanicked) handles).

(** ** Rebuilding *)

(** The factory gives back the projection start-up built. *)
Lemma recreated config kg p :
  well_built config kg p ->
  create_pg_projection (pg_projection_name p) (pg_projection_shard_id p)
    (ProjectionsConfig.position_tracking_shards config) kg = Some p.
Proof.
  destruct p as [| | | | | | | |[i n]|[i n]|[i n k]|k|]; cbn [well_built VaultState.shard_id
    VaultState.total_shards PositionTracking.shard_id PositionTracking.total_shards
    VaultStateDual.shard_id VaultStateDual.total_shards VaultStateDual.kg_pool]; intros Hp; try reflexivity.
  - destruct Hp as [Hi ->]. unfold create_pg_projection. cbn [pg_projection_name String.eqb].
    cbn. unfold VaultState.pg_shard_id. cbn.
    destruct (Z.ltb_spec 1 (ProjectionsConfig.position_tracking_shards config)); cbn; [done|].
    do 3 f_equal; lia.
  - destruct Hp as [Hi ->]. unfold create_pg_projection. cbn.
    destruct (Z.ltb_spec 1 (ProjectionsConfig.position_tracking_shards config)); cbn; [done|].
    do 3 f_equal; lia.
  - destruct Hp as (Hi & -> & ->). unfold create_pg_projection. cbn. unfold VaultStateDual.pg_shard_id. cbn.
    destruct (Z.ltb_spec 1 (ProjectionsConfig.position_tracking_shards config)), kg; cbn; try done;
      unfold VaultStateDual.with_kg_pool, VaultStateDual.new; cbn; do 3 f_equal; lia.
  - by subst.
  - by subst.
Qed.

Lemma recreated_batch b : create_batch_projection (batch_projection_name b) = Some b.
Proof. by destruct b. Qed.

Section Spawned.
Context {W : Type} `{WorkerWorld W} `{EventCodecs} `{Encodings}.
Context {Store Token : Type} `{CancellationTokens Store Token}.
Context (process : AnyPgProjection -> list ParsedEvent -> W -> result unit ProjectionError * W).
Context (cycle : AnyBatchProjection -> W -> result unit ProjectionError * W).
Context (apply : AnySink -> list SinkOperation -> W -> result unit ProjectionError * W).
Context (now : Instant) (token : Token).

Abbreviation worker := (@AnyWorker W).
Abbreviation spawning := (@Spawning W Store Token).
Abbreviation spawn := (@spawn W Store Token _ now token).

Lemma find_recreated p : p ∈ all_projections -> find_projection (name p) = Some p.
Proof.
  unfold all_projections. rewrite !elem_of_cons. intros Hp.
  repeat (destruct Hp as [->|Hp]; [reflexivity|]). by apply elem_of_nil in Hp.
Qed.

(** What a loop of [spawn]s appends. *)
Lemma spawn_all {A} (label : A -> string) (make : A -> option worker) (l : list A) (st : spawning) :
  handles (foldl (fun st x => spawn (label x) (make x) st) st l) =
    handles st ++ map (fun x => (label x, {| supervisor := Supervisor.new (label x); factory := make x |})) l.
Proof.
  revert st. induction l as [|x l IH]; intros st; [by rewrite app_nil_r|].
  cbn [foldl map]. rewrite IH. unfold Coordinator.spawn. destruct (child_token _ _). cbn [handles].
  by rewrite <- app_assoc.
Qed.

Context (self : Service).
Abbreviation config := (Startup.config self).

Definition surreal_worker (p : Projection) (s : AnySink) : SurrealWorker.Worker (W := W) :=
  SurrealWorker.with_dead_letter_pool (SurrealWorker.with_heartbeat
    (SurrealWorker.new p (projection_sink apply s) (worker_config self))).
Definition pg_worker (p : AnyPgProjection) : PgWorker.PgWorker (W := W) :=
  PgWorker.with_heartbeat (PgWorker.new (pg_projection process p) (worker_config self)).
Definition batch_worker (b : AnyBatchProjection) : BatchWorker.BatchWorker (W := W) :=
  BatchWorker.with_heartbeat (BatchWorker.new (batch_projection cycle b) (batch_interval self (batch_projection_name b))).

(** The workers of a service, straight from its projections and sinks, each
    under its own label. *)
Definition workers : list (string * worker) :=
  concat (map (fun p => map (fun s =>
    (SurrealWorker.label (surreal_worker p s), OnSurreal (surreal_worker p s))) (sinks self))
    (surreal_projections self)) ++
  map (fun p => (PgWorker.label (pg_worker p), OnPg (pg_worker p))) (pg_projections self) ++
  map (fun b => (BatchWorker.label (batch_worker b), OnBatch (batch_worker b))) (batch_projections self).

Definition supervised (w : string * worker) : string * Supervised (W := W) :=
  (fst w, {| supervisor := Supervisor.new (fst w); factory := Some (snd w) |}).

Lemma surreal_spawned (ps : list Projection) (st : spawning) :
  (forall p, p ∈ ps -> p ∈ all_projections) ->
  handles (foldl (fun st p => foldl (fun st s =>
      spawn (name p +:+ ":" +:+ Startup.sink_name s) (make_surreal_worker apply self (name p) s) st) st (sinks self))
    st ps) =
  handles st ++ map supervised (concat (map (fun p => map (fun s =>
    (SurrealWorker.label (surreal_worker p s), OnSurreal (surreal_worker p s))) (sinks self)) ps)).
Proof.
  revert st. induction ps as [|p ps IH]; intros st Hps; [by rewrite app_nil_r|].
  cbn [foldl map concat]. rewrite IH by (intros; apply Hps; by right).
  rewrite (spawn_all (fun s => name p +:+ ":" +:+ Startup.sink_name s) (fun s => make_surreal_worker apply self (name p) s)).
  rewrite map_app, map_map, <- app_assoc. f_equal. f_equal. apply map_ext. intros s.
  unfold make_surreal_worker. rewrite find_recreated by (apply Hps; left). done.
Qed.

Lemma pg_spawned (st : spawning) :
  (forall p, p ∈ pg_projections self -> well_built config (Startup.kg_pool self) p) ->
  handles (spawn_pg_workers process now token self st) =
  handles st ++ map supervised (map (fun p => (PgWorker.label (pg_worker p), OnPg (pg_worker p))) (pg_projections self)).
Proof.
  intros Hb. unfold spawn_pg_workers.
  rewrite (spawn_all pg_label (fun p => make_pg_worker process self (pg_projection_name p) (pg_projection_shard_id p))).
  f_equal. rewrite map_map. apply map_ext_in. intros p Hp%list_elem_of_In. unfold make_pg_worker.
  by rewrite recreated by by apply Hb.
Qed.

Lemma batch_spawned (st : spawning) :
  handles (spawn_batch_workers cycle now token self st) =
  handles st ++ map supervised (map (fun b => (BatchWorker.label (batch_worker b), OnBatch (batch_worker b))) (batch_projections self)).
Proof.
  unfold spawn_batch_workers.
  rewrite (spawn_all (fun b => batch_projection_name b +:+ ":batch") (fun b => make_batch_worker cycle self (batch_projection_name b))).
  f_equal. rewrite map_map. apply map_ext. intros b. unfold make_batch_worker. by rewrite recreated_batch.
Qed.

Lemma run_handles (store : Store) :
  (forall p, p ∈ pg_projections self -> well_built config (Startup.kg_pool self) p) ->
  handles (run process cycle apply now token self store) = map supervised workers.
Proof.
  intros Hb. unfold run. rewrite batch_spawned, pg_spawned by done. unfold spawn_surreal_workers.
  rewrite surreal_spawned.
  - unfold workers. by rewrite !map_app, <- !app_assoc.
  - intros p Hp. by apply list_elem_of_filter in Hp as [_ ?].
Qed.
End Spawned.

(** A running service's projections are well built. *)
Lemma service_well_built `{Databases} env s :
  main env = Running s ->
  forall p, p ∈ pg_projections s -> well_built (Startup.config s) (Startup.kg_pool s) p.
Proof.
  intros (c & _ & _ & _ & _ & ->)%main_running p Hp.
  by apply built_projections in Hp as [_ ?].
Qed.

(** ** Properties *)

(** C11 (the workers of a service). The coordinator of a running service spawns
    exactly one supervised worker per sink and enabled SurrealDB projection, per PG
    projection and shard, and per batch projection, each under its label. However
    often a supervisor restarts it, the factory rebuilds the very worker over the
    projection start-up built, shard, KG pool and interval included, and the
    [unreachable!] of the factories is never reached. *)
Theorem factories_rebuild {W} `{WorkerWorld W} `{EventCodecs} `{Encodings} {Store Token}
  `{CancellationTokens Store Token} `{Databases}
  (process : AnyPgProjection -> list ParsedEvent -> W -> result unit ProjectionError * W)
  (cycle : AnyBatchProjection -> W -> result unit ProjectionError * W)
  (apply : AnySink -> list SinkOperation -> W -> result unit ProjectionError * W)
  (now : Instant) (token : Token) (store : Store) (env : Environment) (s : Service)
  (Hs : main env = Running s) :
  handles (run process cycle apply now token s store) = map supervised (workers process cycle apply s) /\
  length (handles (run process cycle apply now token s store)) =
    (length (surreal_projections s) * length (sinks s) + length (pg_projections s) +
     length (batch_projections s))%nat.
Proof.
  rewrite run_handles by by apply (service_well_built env). split; [done|].
  unfold workers. rewrite length_map, !length_app, !length_map.
  assert (Hc : forall {A} (f : Projection -> AnySink -> A) ps,
    length (concat (map (fun p => map (f p) (sinks s)) ps)) = (length ps * length (sinks s))%nat).
  { induction ps as [|p ps IH]; [done|]. cbn [map concat length]. rewrite length_app, IH, length_map. lia. }
  rewrite Hc. lia.
Qed.

(** ** Checkpoint keys *)

(** The row of [projection_checkpoint] a worker reads and saves. *)
Definition pg_checkpoint_name (p : AnyPgProjection) : string :=
  match pg_projection_shard_id p with
  | Some id => pg_projection_name p +:+ "_s" +:+ pretty id
  | None => pg_projection_name p
  end.

Definition checkpoint_key {W} `{WorkerWorld W} (w : AnyWorker (W := W)) : option (string * string) :=
  match w with
  | OnSurreal w => Some (name (SurrealWorker.projection w), Traits.sink_name (SurrealWorker.sink w))
  | OnPg w => Some (PgWorker.checkpoint_name w, "pg")
  | OnBatch _ => None
  end.

Lemma pg_checkpoint_inj config kg p q :
  well_built config kg p -> well_built config kg q -> pg_checkpoint_name p = pg_checkpoint_name q -> p = q.
Proof.
  unfold pg_checkpoint_name.
  destruct p as [| | | | | | | |[i n]|[i n]|[i n k]|k|], q as [| | | | | | | |[j m]|[j m]|[j m l]|l|];
    cbn [well_built VaultState.shard_id VaultState.total_shards PositionTracking.shard_id
      PositionTracking.total_shards VaultStateDual.shard_id VaultStateDual.total_shards VaultStateDual.kg_pool
      pg_projection_shard_id pg_projection_name];
    cbv [VaultState.pg_shard_id VaultStateDual.pg_shard_id];
    cbn [VaultState.shard_id VaultState.total_shards VaultStateDual.shard_id VaultStateDual.total_shards];
    intros Hp Hq; destruct_and?; subst;
    try destruct (Z.ltb_spec 1 (ProjectionsConfig.position_tracking_shards config));
    lazy beta iota delta [String.append VaultState.PROJECTION_NAME PositionTracking.PROJECTION_NAME
      VaultStateDual.PROJECTION_NAME];
    intros Hk; try discriminate Hk; try done.
  all: try (injection Hk as Hk%(inj pretty); by subst).
  all: do 2 f_equal; lia.
Qed.

(** Where a projection stands in the list start-up builds. *)
Definition rank (p : AnyPgProjection) : nat :=
  match p with
  | EventLogProjection => 0 | AccountRegistryProjection => 1 | VaultHoldersIndexProjection => 2
  | SignalsAnalyticsProjection => 3 | TermAggregatesProjection => 4 | ProtocolStatsProjection => 5
  | ActivityMarkerProjection => 6 | LeaderboardMarkerProjection => 7
  | VaultStateProjection _ | PositionTrackingProjection _ => 8
  | VaultStateDualProjection _ => 9 | VaultHoldersIndexDualProjection _ => 10
  | AtomContextDualProjection => 11
  end.

Lemma NoDup_ranked n (l1 l2 : list AnyPgProjection) :
  NoDup l1 -> Forall (fun p => rank p = n) l1 -> NoDup l2 -> Forall (fun p => n < rank p)%nat l2 ->
  NoDup (l1 ++ l2).
Proof.
  intros H1 R1 H2 R2. apply NoDup_app. split; [done|]. split; [|done].
  intros x Hx1 Hx2. rewrite Forall_forall in R1, R2. specialize (R1 x Hx1). specialize (R2 x Hx2). lia.
Qed.

Lemma NoDup_shards {A} (f : Z -> list A) (shard : A -> Z) (ids : list Z) :
  (forall i, NoDup (f i)) -> (forall i x, x ∈ f i -> shard x = i) -> NoDup ids -> NoDup (concat (map f ids)).
Proof.
  intros Hf Hs. induction 1 as [|i ids Hi Hnd IH]; [constructor|]. cbn [map concat].
  apply NoDup_app. split; [done|]. split; [|done]. intros x Hx Hc.
  apply elem_of_concat in Hc as (l & Hl & Hx'). apply list_elem_of_In, in_map_iff in Hl as (j & <- & Hj%list_elem_of_In).
  apply Hs in Hx, Hx'. by subst.
Qed.

Definition shard_of (p : AnyPgProjection) : Z :=
  match p with
  | VaultStateProjection q => VaultState.shard_id q
  | PositionTrackingProjection q => PositionTracking.shard_id q
  | _ => 0
  end.

Lemma NoDup_when config {A} name (l : list A) : NoDup l -> NoDup (when config name l).
Proof. intros ?. unfold when. destruct (ProjectionsConfig.is_projection_enabled _ _); [done|constructor]. Qed.

Lemma Forall_when config {A} (P : A -> Prop) name (l : list A) : Forall P l -> Forall P (when config name l).
Proof. intros ?. unfold when. destruct (ProjectionsConfig.is_projection_enabled _ _); [done|constructor]. Qed.

Lemma sharded_ranked config (P : AnyPgProjection -> Prop) ids :
  (forall p, rank p = 8%nat -> P p) -> Forall P (concat (map (sharded_pair config) ids)).
Proof.
  intros HP. apply Forall_concat, Forall_forall. intros l Hl%list_elem_of_In.
  apply in_map_iff in Hl as (i & <- & _). apply Forall_app. by split; apply Forall_when, Forall_singleton, HP.
Qed.

Lemma dual_ranked config (P : AnyPgProjection -> Prop) kg ids :
  (forall p, rank p = 9%nat -> P p) -> Forall P (map (vault_state_dual config kg) ids).
Proof. intros HP. induction ids; constructor; [by apply HP|done]. Qed.

Lemma sharded_distinct config : NoDup (concat (map (sharded_pair config) (shard_ids config))).
Proof.
  apply (NoDup_shards _ shard_of); [| |apply NoDup_seqZ].
  - intros i. unfold sharded_pair, when. repeat case_match; cbn; repeat constructor; set_solver.
  - intros i x Hx. unfold sharded_pair in Hx. rewrite elem_of_app, !elem_of_when, !list_elem_of_singleton in Hx.
    by destruct Hx as [[_ ->]|[_ ->]].
Qed.

Lemma duals_distinct config kg : NoDup (map (vault_state_dual config kg) (shard_ids config)).
Proof. apply NoDup_fmap_2; [|apply NoDup_seqZ]. intros i j. unfold vault_state_dual. destruct kg; by intros [=]. Qed.

(** One segment of the list: it has no duplicates, or its ranks are as asked. *)
Ltac segment :=
  first
    [ apply sharded_distinct
    | apply NoDup_when; first [apply duals_distinct | apply NoDup_singleton | case_match; repeat constructor; set_solver]
    | apply sharded_ranked; intros ? ->; lia
    | apply Forall_when; first [apply dual_ranked; intros ? ->; lia | case_match; repeat constructor; simpl; lia
                               | repeat constructor; simpl; lia] ].

Ltac ranked n := apply (NoDup_ranked n); [segment|segment| |rewrite !Forall_app; split_and!; segment].

Lemma built_distinct config kg : NoDup (build_pg_projections config kg).
Proof.
  unfold build_pg_projections.
  ranked 0%nat; ranked 1%nat; ranked 2%nat; ranked 3%nat; ranked 4%nat; ranked 5%nat; ranked 6%nat;
    ranked 7%nat; ranked 8%nat; ranked 9%nat.
  apply (NoDup_ranked 10); segment.
Qed.

Section Keys.
Context {W : Type} `{WorkerWorld W} `{EventCodecs} `{Encodings}.
Context (process : AnyPgProjection -> list ParsedEvent -> W -> result unit ProjectionError * W).
Context (cycle : AnyBatchProjection -> W -> result unit ProjectionError * W).
Context (apply : AnySink -> list SinkOperation -> W -> result unit ProjectionError * W).

(** The keys of a service's workers, with the core-entities worker's, which
    [main] spawns next to the coordinator. *)
Definition checkpoint_keys (s : Service) : list (string * string) :=
  omap (fun w => checkpoint_key (snd w)) (workers process cycle apply s) ++
  match core_entities s with Some _ => [("core_entities", "dual")] | None => [] end.

Lemma omap_all_some {A B} (f : A -> option B) (g : A -> B) (l : list A) :
  (forall x, f x = Some (g x)) -> omap f l = map g l.
Proof. intros Hf. induction l as [|x l IH]; [done|]. cbn. by rewrite Hf, IH. Qed.

Lemma checkpoint_keys_split s :
  checkpoint_keys s =
    concat (map (fun p => map (fun k => (name p, Startup.sink_name k)) (sinks s)) (surreal_projections s)) ++
    map (fun p => (pg_checkpoint_name p, "pg")) (pg_projections s) ++
    match core_entities s with Some _ => [("core_entities", "dual")] | None => [] end.
Proof.
  unfold checkpoint_keys, workers. rewrite !omap_app, <- !app_assoc. f_equal; [|f_equal].
  - induction (surreal_projections s) as [|p ps IH]; [done|]. cbn [map concat]. rewrite omap_app, IH. f_equal.
    clear IH. induction (sinks s) as [|k ks IH']; [done|]. cbn. by rewrite IH'.
  - induction (pg_projections s) as [|p ps IH]; [done|]. cbn. by rewrite IH.
  - induction (batch_projections s) as [|b bs IH]; [done|]. exact IH.
Qed.

Lemma surreal_names_distinct s : NoDup (map name (surreal_projections s)).
Proof.
  assert (Hall : NoDup (map name all_projections)) by (apply (bool_decide_unpack _); by vm_compute).
  unfold surreal_projections. revert Hall. generalize (all_projections (H := _)).
  induction l as [|p l IH]; [done|]. cbn [map]. intros [Hn Hnd]%NoDup_cons.
  rewrite filter_cons. case_decide; [|by apply IH]. cbn [map]. apply NoDup_cons. split; [|by apply IH].
  contradict Hn. apply list_elem_of_In, in_map_iff in Hn as (q & E & Hq%list_elem_of_In).
  apply list_elem_of_filter in Hq as [_ Hq]. rewrite <- E. apply list_elem_of_In, in_map. by apply list_elem_of_In.
Qed.
End Keys.

(** The SurrealDB pairs of a running service, and its PostgreSQL checkpoint names. *)
Definition surreal_pairs `{EventCodecs} `{Encodings} (s : Service) : list (string * string) :=
  concat (map (fun p => map (fun k => (name p, Startup.sink_name k)) (sinks s)) (surreal_projections s)).
Definition pg_pairs (s : Service) : list (string * string) :=
  map (fun p => (pg_checkpoint_name p, "pg")) (pg_projections s).

Lemma surreal_pairs_distinct `{EventCodecs} `{Encodings} `{Databases} env s : main env = Running s -> NoDup (surreal_pairs s).
Proof.
  intros (c & _ & _ & _ & _ & Es)%main_running. unfold surreal_pairs.
  pose proof (surreal_names_distinct s) as Hn. subst s. cbn [sinks service_of] in *.
  destruct (needs_surreal c); [|clear; induction (surreal_projections _); [constructor|done]].
  induction (surreal_projections _) as [|p ps IH]; [constructor|]. cbn [map concat app] in *.
  apply NoDup_cons in Hn as [Hp Hn]. apply NoDup_cons. split; [|by apply IH]. contradict Hp.
  apply elem_of_concat in Hp as (l & Hl & Hp). apply list_elem_of_In, in_map_iff in Hl as (q & <- & Hq).
  apply list_elem_of_singleton in Hp as [= -> ]. by apply list_elem_of_In, in_map.
Qed.

Lemma pg_pairs_distinct `{Databases} env s : main env = Running s -> NoDup (pg_pairs s).
Proof.
  intros Hs. pose proof (service_well_built env s Hs) as Hb. apply main_running in Hs as (c & _ & _ & _ & _ & Es).
  apply NoDup_fmap_2_strong; [|subst s; apply built_distinct].
  intros p q Hp Hq [=Hk]. eapply pg_checkpoint_inj; eauto.
Qed.

Lemma elem_of_surreal_pairs `{EventCodecs} `{Encodings} s x : x ∈ surreal_pairs s -> exists k, snd x = Startup.sink_name k.
Proof.
  intros Hx. apply elem_of_concat in Hx as (l & Hl & Hx).
  apply list_elem_of_In, in_map_iff in Hl as (p & <- & _). apply list_elem_of_In, in_map_iff in Hx as (k & <- & _). by exists k.
Qed.

Lemma elem_of_pg_pairs s x : x ∈ pg_pairs s -> snd x = "pg".
Proof. intros Hx. by apply list_elem_of_In, in_map_iff in Hx as (p & <- & _). Qed.

(** C19 (one checkpoint per worker). In a running service, whatever the environment
    enables and however many shards it asks for, no two workers read and save the
    same checkpoint row: the SurrealDB projections, the PostgreSQL projections, each
    shard of the sharded ones, and the core-entities worker all have keys of their own. *)
Theorem checkpoint_keys_distinct {W} `{WorkerWorld W} `{EventCodecs} `{Encodings} `{Databases}
  (process : AnyPgProjection -> list ParsedEvent -> W -> result unit ProjectionError * W)
  (cycle : AnyBatchProjection -> W -> result unit ProjectionError * W)
  (apply : AnySink -> list SinkOperation -> W -> result unit ProjectionError * W)
  (env : Environment) (s : Service) (Hs : main env = Running s) :
  NoDup (checkpoint_keys process cycle apply s).
Proof.
  rewrite checkpoint_keys_split. change (NoDup (surreal_pairs s ++ pg_pairs s ++
    match core_entities s with Some _ => [("core_entities", "dual")] | None => [] end)).
  apply NoDup_app. split; [by eapply surreal_pairs_distinct|]. split.
  - intros x [k Hk]%elem_of_surreal_pairs [Hin%elem_of_pg_pairs|Hin]%elem_of_app; [rewrite Hk in Hin; by destruct k|].
    destruct (core_entities s); [|by apply elem_of_nil in Hin]. apply list_elem_of_singleton in Hin as ->. by destruct k.
  - apply NoDup_app. split; [by eapply pg_pairs_distinct|].
    split; [|destruct (core_entities s); repeat constructor; set_solver].
    intros x Hk%elem_of_pg_pairs Hin. destruct (core_entities s); [|by apply elem_of_nil in Hin].
    by apply list_elem_of_singleton in Hin as ->.
Qed.

(** ** What the watchdog can cancel *)

Section Cancellation.
Context {Store Token : Type} `{CancellationTokens Store Token}.

(** What happens to the tokens once the workers are spawned: a supervisor makes a
    token for a run of its worker, a child of the global token; the watchdog cancels
    the token it holds for worker [i]; the service is told to shut down. *)
Inductive token_event :=
  | NewRun
  | WatchdogCancels (i : nat)
  | Shutdown.

Record TokenState := { store : Store; runs : list Token }.

Definition play (token : Token) (watch : list Token) (ev : token_event) (st : TokenState) : TokenState :=
  match ev with
  | NewRun =>
      let '(run_token, s) := child_token token (store st) in
      {| store := s; runs := runs st ++ [run_token] |}
  | WatchdogCancels i =>
      match watch !! i with
      | Some t => {| store := cancel_token t (store st); runs := runs st |}
      | None => st
      end
  | Shutdown => {| store := cancel_token token (store st); runs := runs st |}
  end.

Definition play_all (token : Token) (watch : list Token) (evs : list token_event) (st : TokenState) : TokenState :=
  foldl (fun st ev => play token watch ev st) st evs.

(** The global token [g], the tokens [ws] of the watchdog and those [rs] of the
    runs: [ws] and [rs] hang below [g], and nothing hangs below [ws]. *)
Record token_inv (g : Token) (ws rs : list Token) (shut : bool) (s : Store) : Prop := {
  inv_root : issued s g;
  inv_watch : forall w, w ∈ ws -> issued s w /\ below s g w /\ ~ below s w g;
  inv_runs : forall r, r ∈ rs -> issued s r /\ below s g r /\ forall w, w ∈ ws -> ~ below s w r;
  inv_calm : shut = false ->
    is_cancelled g s = false /\ forall r, r ∈ rs -> is_cancelled r s = false;
  inv_shut : shut = true ->
    is_cancelled g s = true /\ (forall r, r ∈ rs -> is_cancelled r s = true) /\
    forall w, w ∈ ws -> is_cancelled w s = true
}.

Lemma issued_after s t u s' v : issued s t -> child_token t s = (u, s') -> issued s v -> issued s' v.
Proof. intros Ht Hc Hv. apply (child_issued s t u s' Ht Hc). by left. Qed.

Lemma below_after s t u s' a b :
  issued s t -> child_token t s = (u, s') -> issued s a -> issued s b -> below s' a b <-> below s a b.
Proof.
  intros Ht Hc Ha Hb. destruct (child_issued s t u s' Ht Hc) as [Hnew Hiss].
  rewrite (child_below s t u s' Ht Hc a b) by (by apply (issued_after s t u s')). split; [|tauto].
  intros [(_ & _ & ?)|[-> _]]; done.
Qed.

(** The new child hangs below what its parent hangs below, and nothing below it. *)
Lemma below_child s t u s' v :
  issued s t -> child_token t s = (u, s') -> issued s v ->
  (below s' v u <-> below s v t) /\ ~ below s' u v.
Proof.
  intros Ht Hc Hv. destruct (child_issued s t u s' Ht Hc) as [Hnew Hiss].
  assert (Hv' : issued s' v) by by apply (issued_after s t u s'). assert (Hu : issued s' u) by (apply Hiss; by right).
  rewrite !(child_below s t u s' Ht Hc) by done. split.
  - split; [|tauto]. intros [(_ & ? & _)|[_ [->|[_ ?]]]]; done.
  - intros [(? & _)|[-> _]]; done.
Qed.

Lemma new_run_inv g ws rs shut s u s' :
  token_inv g ws rs shut s -> child_token g s = (u, s') -> token_inv g ws (rs ++ [u]) shut s'.
Proof.
  intros [Hg Hw Hr Hcalm Hshut] Hc. destruct (child_cancelled s g u s' Hg Hc) as [Hcu Hcv].
  assert (Hgw : forall w, w ∈ ws -> issued s w) by (intros; by apply Hw).
  assert (Hgr : forall r, r ∈ rs -> issued s r) by (intros; by apply Hr).
  split.
  - by apply (issued_after s g u s').
  - intros w Hin. destruct (Hw w Hin) as (? & ? & ?).
    rewrite !(below_after s g u s' _ _ Hg Hc) by done. split; [by apply (issued_after s g u s')|done].
  - intros r [Hin| ->%list_elem_of_singleton]%elem_of_app.
    + destruct (Hr r Hin) as (? & ? & Hn). split; [by apply (issued_after s g u s')|].
      split; [by rewrite (below_after s g u s' _ _ Hg Hc)|]. intros w Hin'. rewrite (below_after s g u s' _ _ Hg Hc); auto.
    + split; [apply (child_issued s g u s' Hg Hc); by right|].
      split; [apply (below_child s g u s' g Hg Hc Hg), below_self, Hg|].
      intros w Hin'. rewrite (proj1 (below_child s g u s' w Hg Hc (Hgw w Hin'))). by apply Hw.
  - intros E. destruct (Hcalm E) as [Hcg Hcr]. split; [by rewrite Hcv|].
    intros r [Hin| ->%list_elem_of_singleton]%elem_of_app; [rewrite Hcv; auto|congruence].
  - intros E. destruct (Hshut E) as (Hcg & Hcr & Hcw). split; [by rewrite Hcv|]. split.
    + intros r [Hin| ->%list_elem_of_singleton]%elem_of_app; [rewrite Hcv; auto|congruence].
    + intros w Hin. rewrite Hcv; auto.
Qed.

Lemma not_cancelled_by s t v :
  issued s v -> ~ below s t v -> is_cancelled v (cancel_token t s) = is_cancelled v s.
Proof.
  intros Hv Hb. pose proof (cancel_spec s t v Hv) as Hc.
  destruct (is_cancelled v s), (is_cancelled v (cancel_token t s)); try done; naive_solver.
Qed.

Lemma cancelled_stays s t v : issued s v -> is_cancelled v s = true -> is_cancelled v (cancel_token t s) = true.
Proof. intros Hv Hc. apply cancel_spec; [done|by left]. Qed.

(** The watchdog's tokens reach no other. *)
Lemma watch_cancel_inv g ws rs shut s t :
  token_inv g ws rs shut s -> t ∈ ws -> token_inv g ws rs shut (cancel_token t s).
Proof.
  intros [Hg Hw Hr Hcalm Hshut] Ht. split.
  - by apply cancel_issued.
  - intros w Hin. rewrite cancel_issued, !cancel_below. by apply Hw.
  - intros r Hin. rewrite cancel_issued, cancel_below. setoid_rewrite cancel_below. by apply Hr.
  - intros E. destruct (Hcalm E) as [Hcg Hcr]. split.
    + rewrite not_cancelled_by; [done|done|by apply Hw].
    + intros r Hin. rewrite not_cancelled_by; [by apply Hcr|by apply Hr|by apply Hr].
  - intros E. destruct (Hshut E) as (Hcg & Hcr & Hcw). split; [by apply cancelled_stays|].
    split; intros x Hin; apply cancelled_stays; auto; [by apply Hr|by apply Hw].
Qed.

Lemma shutdown_inv g ws rs shut s :
  token_inv g ws rs shut s -> token_inv g ws rs true (cancel_token g s).
Proof.
  intros [Hg Hw Hr _ _]. split.
  - by apply cancel_issued.
  - intros w Hin. rewrite cancel_issued, !cancel_below. by apply Hw.
  - intros r Hin. rewrite cancel_issued, cancel_below. setoid_rewrite cancel_below. by apply Hr.
  - done.
  - intros _. split; [apply cancel_spec; [done|right; by apply below_self]|].
    split; intros x Hin; [destruct (Hr x Hin) as (? & ? & _)|destruct (Hw x Hin) as (? & ? & _)];
      apply cancel_spec; auto.
Qed.

Definition is_shutdown (ev : token_event) : bool := match ev with Shutdown => true | _ => false end.

Lemma play_inv g ws ev shut st :
  token_inv g ws (runs st) shut (store st) ->
  token_inv g ws (runs (play g ws ev st)) (shut || is_shutdown ev) (store (play g ws ev st)).
Proof.
  intros Hi. destruct ev as [|i|]; simpl.
  - rewrite orb_false_r. destruct (child_token g (store st)) as [u s'] eqn:Hc. by eapply new_run_inv.
  - rewrite orb_false_r. destruct (ws !! i) as [t|] eqn:Ht; [|done].
    apply watch_cancel_inv; [done|]. by eapply list_elem_of_lookup_2.
  - rewrite orb_true_r. by eapply shutdown_inv.
Qed.

Lemma play_all_inv g ws evs shut st :
  token_inv g ws (runs st) shut (store st) ->
  token_inv g ws (runs (play_all g ws evs st)) (shut || existsb is_shutdown evs) (store (play_all g ws evs st)).
Proof.
  revert shut st. induction evs as [|ev evs IH]; intros shut st Hi; [by rewrite orb_false_r|].
  cbn [existsb]. rewrite orb_assoc. apply (IH _ (play g ws ev st)), play_inv, Hi.
Qed.
End Cancellation.

Section Registered.
Context {W : Type} `{WorkerWorld W} `{EventCodecs} `{Encodings}.
Context {Store Token : Type} `{CancellationTokens Store Token}.
Context (now : Instant) (token : Token).

(** Every handle has a token of the watchdog's, and the tokens are as [token_inv] says. *)
Definition spawn_inv (st : @Spawning W Store Token) : Prop :=
  token_inv token (watch_tokens st) [] false (tokens st) /\ length (watch_tokens st) = length (handles st).

Lemma spawn_keeps label make st : spawn_inv st -> spawn_inv (spawn now token label make st).
Proof.
  intros [[Hg Hw _ Hcalm _] Hl]. unfold spawn, spawn_inv. destruct (child_token token (tokens st)) as [u s'] eqn:Hc.
  cbn [watch_tokens handles tokens]. split; [|rewrite !length_app; simpl; lia].
  destruct (child_issued _ _ u s' Hg Hc) as [Hnew Hiss].
  destruct (child_cancelled _ token u s' Hg Hc) as [Hcu Hcv]. destruct (Hcalm eq_refl) as [Hcg _].
  split; try done.
  - by apply (issued_after (tokens st) token u s').
  - intros w [Hin| ->%list_elem_of_singleton]%elem_of_app.
    + destruct (Hw w Hin) as (? & ? & ?). rewrite !(below_after _ token u s' _ _ Hg Hc) by done.
      split; [by apply (issued_after (tokens st) token u s')|done].
    + split; [apply Hiss; by right|]. destruct (below_child _ token u s' token Hg Hc Hg) as [Hb Hn].
      split; [apply Hb, below_self, Hg|done].
  - intros r Hr. by apply elem_of_nil in Hr.
  - intros _. split; [by rewrite Hcv|]. intros r Hr. by apply elem_of_nil in Hr.
Qed.

(** A fold of steps that keep a property keeps it. *)
Lemma foldl_keeps {A S} (P : S -> Prop) (f : S -> A -> S) (l : list A) st :
  (forall st x, P st -> P (f st x)) -> P st -> P (foldl f st l).
Proof. intros Hf. revert st. induction l as [|x l IH]; intros st Hst; [done|]. by apply IH, Hf. Qed.

Context (process : AnyPgProjection -> list ParsedEvent -> W -> result unit ProjectionError * W).
Context (cycle : AnyBatchProjection -> W -> result unit ProjectionError * W).
Context (apply : AnySink -> list SinkOperation -> W -> result unit ProjectionError * W).

Lemma run_spawn_inv (s : Service) (store : Store) :
  issued store token -> is_cancelled token store = false ->
  spawn_inv (run process cycle apply now token s store).
Proof.
  intros Hg Hc. unfold run, spawn_batch_workers, spawn_pg_workers, spawn_surreal_workers.
  do 3 (apply foldl_keeps; [intros; try by apply spawn_keeps|]).
  - apply foldl_keeps; [|done]. intros. by apply spawn_keeps.
  - split; [|done]. split; cbn; try done; try (intros ? ?%elem_of_nil; done).
    intros _. split; [done|]. by intros ? ?%elem_of_nil.
Qed.
End Registered.

(** C22 (the watchdog spares the workers, shutdown does not). Whatever workers the
    watchdog declares stalled, however often and in whatever order with the restarts,
    it cancels neither the global token nor the token any run of a worker was given:
    a stalled run is not interrupted, and neither is any other. Once the service is
    told to shut down, every run sees it, the runs started later included. *)
Theorem watchdog_spares_workers {W} `{WorkerWorld W} `{EventCodecs} `{Encodings} {Store Token}
  `{CancellationTokens Store Token}
  (process : AnyPgProjection -> list ParsedEvent -> W -> result unit ProjectionError * W)
  (cycle : AnyBatchProjection -> W -> result unit ProjectionError * W)
  (apply : AnySink -> list SinkOperation -> W -> result unit ProjectionError * W)
  (now : Instant) (token : Token) (s : Service) (store0 : Store) (evs : list token_event)
  (Hissued : issued store0 token) (Hlive : is_cancelled token store0 = false) :
  let st := run process cycle apply now token s store0 in
  let fin := play_all token (watch_tokens st) evs {| store := tokens st; runs := [] |} in
  length (watch_tokens st) = length (handles st) /\
  is_cancelled token (store fin) = existsb is_shutdown evs /\
  forall r, r ∈ runs fin -> is_cancelled r (store fin) = existsb is_shutdown evs.
Proof.
  cbv zeta. destruct (run_spawn_inv now token process cycle apply s store0 Hissued Hlive) as [Hi Hl].
  set (st := run process cycle apply now token s store0) in *. split; [done|].
  pose proof (play_all_inv token (watch_tokens st) evs false {| store := tokens st; runs := [] |} Hi) as [_ _ _ Hcalm Hshut].
  cbn [orb] in *. destruct (existsb is_shutdown evs).
  - by destruct (Hshut eq_refl) as (? & ? & _).
  - by destruct (Hcalm eq_refl) as (? & ?).
Qed.

(** *** Tokens as paths

    An implementation of the interface: a token is the path from the root, a child
    extends it with a number not used before, and cancelling marks a path. *)
Module PathTokens.

Record Store := { created : list (list nat); cancelled : list (list nat) }.

Definition fresh (s : Store) : nat := S (max_list (concat (created s ++ cancelled s))).

Lemma fresh_not_in (s : Store) t : ~ fresh s :: t ∈ created s ++ cancelled s.
Proof.
  intros Hin. assert (Hf : In (fresh s) (concat (created s ++ cancelled s))).
  { apply in_concat. exists (fresh s :: t). split; [by apply list_elem_of_In|by left]. }
  apply list_elem_of_In, max_list_elem_of_le in Hf. unfold fresh in Hf at 1. lia.
Qed.

Lemma fresh_not_below (s : Store) t u : u ∈ created s -> ~ fresh s :: t `suffix_of` u.
Proof.
  intros Hu [k ->]. assert (Hf : In (fresh s) (concat (created s ++ cancelled s))).
  { apply in_concat. exists (k ++ fresh s :: t). split; [apply list_elem_of_In, elem_of_app; by left|].
    apply in_app_iff. right. by left. }
  apply list_elem_of_In, max_list_elem_of_le in Hf. unfold fresh in Hf at 1. lia.
Qed.

Lemma suffix_cons_iff (x : nat) (a t : list nat) : a `suffix_of` x :: t <-> a = x :: t \/ a `suffix_of` t.
Proof.
  split.
  - intros [[|y k] E]; [by left|]. injection E as -> ->. right. by exists k.
  - intros [->|[k ->]]; [done|]. by exists (x :: k).
Qed.

Definition is_cancelled (t : list nat) (s : Store) : bool := existsb (fun c => bool_decide (c `suffix_of` t)) (cancelled s).

Lemma is_cancelled_spec t s : is_cancelled t s = true <-> exists c, c ∈ cancelled s /\ c `suffix_of` t.
Proof.
  unfold is_cancelled. rewrite existsb_exists.
  split; intros (c & Hin & Hs); exists c; rewrite list_elem_of_In in *; (split; [done|]).
  - by apply bool_decide_eq_true_1 in Hs.
  - by apply bool_decide_eq_true_2.
Qed.

Lemma is_cancelled_child t s :
  is_cancelled (fresh s :: t) {| created := (fresh s :: t) :: created s; cancelled := cancelled s |} = is_cancelled t s.
Proof.
  apply eq_true_iff_eq. rewrite !is_cancelled_spec. cbn [cancelled].
  split; intros (c & Hin & Hs); exists c; (split; [done|]).
  - apply suffix_cons_iff in Hs as [->|?]; [|done]. destruct (fresh_not_in s t). apply elem_of_app. by right.
  - apply suffix_cons_iff. by right.
Qed.

#[export] Instance path_tokens : CancellationTokens Store (list nat).
Proof.
  refine {|
    child_token t s := (fresh s :: t, {| created := (fresh s :: t) :: created s; cancelled := cancelled s |});
    cancel_token t s := {| created := created s; cancelled := t :: cancelled s |};
    Coordinator.is_cancelled := is_cancelled;
    issued s t := t ∈ created s;
    below s a b := a `suffix_of` b |}; try done.
  - intros s t u _. rewrite !is_cancelled_spec. cbn [cancelled]. split.
    + intros (c & [->|Hin]%elem_of_cons & Hs); [by right|left; by exists c].
    + intros [(c & Hin & Hs)|Hs]; [exists c; by split; [right|]|exists t; by split; [left|]].
  - intros s t u s' _ [= <- <-]. split.
    + intros Hin. apply (fresh_not_in s t), elem_of_app. by left.
    + intros v. cbn [created]. rewrite elem_of_cons. tauto.
  - intros s t u s' Ht [= <- <-] a b. cbn [created]. rewrite !elem_of_cons.
    intros Ha [->|Hb].
    + rewrite suffix_cons_iff. pose proof (fresh_not_in s t) as Hf. rewrite elem_of_app in Hf.
      destruct Ha as [->|Ha]; [tauto|]. split; [intros [?|?]; subst; tauto|]. intros [(_ & ? & _)|[_ [?|[_ ?]]]]; tauto.
    + split.
      * intros Hs. left. destruct Ha as [->|Ha]; [by apply fresh_not_below in Hs|done].
      * intros [(_ & _ & ?)|[-> _]]; [done|]. destruct (fresh_not_in s t). apply elem_of_app. by left.
  - intros s t u s' _ [= <- <-]. split; [apply is_cancelled_child|done].
Defined.

(** One token, not cancelled. *)
Definition new_token : list nat := [0%nat].
Definition new_store : Store := {| created := [new_token]; cancelled := [] |}.
End PathTokens.

(** ** Witnesses *)

#[local] Existing Instance sample_codecs.
#[local] Existing Instance demo_encodings.
#[local] Existing Instance demo_databases.
#[local] Existing Instance PathTokens.path_tokens.

(** Nothing but the database set: everything runs, on four shards. *)
Definition default_env : Environment := {["DATABASE_URL" := "postgres://localhost/intuition"]}.

Definition default_service : Service :=
  match @main demo_databases default_env with
  | Running s => s
  | _ => service_of default_env Deployment.demo_config
  end.

(** One core-entities worker next to the coordinator's 6 + 21 + 3. *)
Example default_workers :
  (length (sinks default_service), length (pg_projections default_service),
   length (batch_projections default_service), bool_decide (is_Some (core_entities default_service))) =
  (1%nat, 21%nat, 3%nat, true).
Proof. vm_compute. reflexivity. Qed.

Lemma default_service_runs : @main demo_databases default_env = Running default_service.
Proof. vm_compute. reflexivity. Qed.

Abbreviation demo_world := (demo ParsedEvent).
Definition demo_process (_ : AnyPgProjection) : list ParsedEvent -> demo_world -> result unit ProjectionError * demo_world :=
  demo_write.
Definition demo_cycle (_ : AnyBatchProjection) (w : demo_world) : result unit ProjectionError * demo_world := (Ok tt, w).
Definition demo_apply (_ : AnySink) (_ : list SinkOperation) (w : demo_world)
    : result unit ProjectionError * demo_world := (Ok tt, w).

Lemma factories_rebuild_witness :
  handles (run demo_process demo_cycle demo_apply 0 PathTokens.new_token default_service PathTokens.new_store) =
    map supervised (workers demo_process demo_cycle demo_apply default_service) /\
  length (handles (run demo_process demo_cycle demo_apply 0 PathTokens.new_token default_service PathTokens.new_store)) =
    (6 * 1 + 21 + 3)%nat.
Proof.
  exact (factories_rebuild demo_process demo_cycle demo_apply 0 PathTokens.new_token PathTokens.new_store
    default_env default_service default_service_runs).
Defined.

Lemma checkpoint_keys_distinct_witness :
  NoDup (checkpoint_keys demo_process demo_cycle demo_apply default_service) /\
  length (checkpoint_keys demo_process demo_cycle demo_apply default_service) = 28%nat.
Proof.
  split; [exact (checkpoint_keys_distinct demo_process demo_cycle demo_apply default_env default_service
    default_service_runs)|vm_compute; reflexivity].
Defined.

(** Two stalls and two restarts, then shutdown. *)
Lemma watchdog_spares_workers_witness :
  let st := run demo_process demo_cycle demo_apply 0 PathTokens.new_token default_service PathTokens.new_store in
  let evs := [NewRun; WatchdogCancels 3; NewRun; WatchdogCancels 0] in
  let calm := play_all PathTokens.new_token (watch_tokens st) evs {| store := tokens st; runs := [] |} in
  let down := play_all PathTokens.new_token (watch_tokens st) (evs ++ [Shutdown; NewRun]) {| store := tokens st; runs := [] |} in
  (length (runs calm) = 2%nat /\ forall r, r ∈ runs calm -> is_cancelled r (store calm) = false) /\
  (length (runs down) = 3%nat /\ forall r, r ∈ runs down -> is_cancelled r (store down) = true).
Proof.
  assert (Hi : issued PathTokens.new_store PathTokens.new_token) by (left).
  split; (split; [vm_compute; reflexivity|]).
  - apply (watchdog_spares_workers demo_process demo_cycle demo_apply 0 PathTokens.new_token default_service
      PathTokens.new_store [NewRun; WatchdogCancels 3; NewRun; WatchdogCancels 0] Hi eq_refl).
  - apply (watchdog_spares_workers demo_process demo_cycle demo_apply 0 PathTokens.new_token default_service
      PathTokens.new_store ([NewRun; WatchdogCancels 3; NewRun; WatchdogCancels 0] ++ [Shutdown; NewRun]) Hi eq_refl).
Defined.
