(* ===== verification/Composition.v ===== *)
(** * The service as it is deployed

    What the parts prove of themselves, put together: the vault-state workers the
    coordinator supervises never skip an event however often they crash and are restarted,
    the shards start-up makes do the work of the unsharded projection, and the default
    configuration runs two writers on the same legacy vault table. *)

From stdpp Require Import pretty.
From S2P Require Import Prelude MachineInt Text Events Errors CircuitBreaker Retry.
From S2P Require Import WorkerWorld Traits Config SurrealProjections PgWorker.
From S2P Require Import DeadLetter PgTx Crash Shard PgCommon VaultRepo KgMarket VaultState VaultStateDual.
From S2P Require Import Startup Coordinator DemoWorld DemoDatabase.

(** ** Supervised workers *)

(** The handlers of the PostgreSQL projections, that of [vault_state] among them. *)
Definition pg_process {W} `{TxWorld VaultTables W} `{EventCodecs} `{ShardHash}
    (others : AnyPgProjection -> list ParsedEvent -> W -> result unit ProjectionError * W)
    (p : AnyPgProjection) : list ParsedEvent -> W -> result unit ProjectionError * W :=
  match p with
  | VaultStateProjection q => VaultState.process_parsed_batch q
  | _ => others p
  end.

Section VaultWorker.
Context `{EventCodecs} `{ShardHash} (s : Service) (q : VaultState.VaultStateProjection).

(** The worker of a vault-state projection of the service, in any world. *)
Definition vault_worker V (I : TxWorld VaultTables V) : PgWorker.PgWorker (W := V) :=
  pg_worker (fun _ => VaultState.process_parsed_batch q) s (VaultStateProjection q).

(** The events its shard has written: a committed transaction applied a batch with each. *)
Abbreviation vault_written := (written_once (apply_events q)).

Lemma vault_event_writes {W} `{TxWorld VaultTables W} (view : W -> View (Transition VaultTables)) (C : CommitLaws view) p :
  writes view (VaultState.process_event q p) (VaultState.apply_event q p).
Proof.
  unfold VaultState.process_event, VaultState.apply_event, VaultState.process_deposited_typed,
    VaultState.process_redeemed_typed, VaultState.process_share_price_changed_typed.
  destruct p; try apply writes_done; (case_match; [apply writes_done|]); try apply (writes_exec view C).
  destruct (compute_market_cap _ _); cbn [res_bind]; [|apply writes_fail].
  eapply writes_ext; [|eapply writes_seq; apply (writes_exec view C)]. done.
Qed.

(** A batch the handler reports as done has been committed. *)
Lemma vault_batch_settles V (I : TxWorld VaultTables V) (v : V -> View (Transition VaultTables)) :
  CommitLaws v -> (forall m w, moves v w (record m w)) -> forall batch,
  call_settles v (Traits.process_parsed_batch (PgWorker.projection (vault_worker V I)) (map parsed_of batch))
    (committed (apply_events q (map parsed_of batch))).
Proof.
  intros C Hm batch. apply (run_tx_settles v C). apply (writes_events v C Hm). intros p. by apply vault_event_writes.
Qed.
End VaultWorker.

(** C2 (no event is skipped, across restarts and crashes). Take any vault-state worker
    among the handles of a running service, and let its supervisor run and restart it any
    number of times, each run ending by itself or by a crash after any number of calls: between
    two calls, in the middle of a batch, during a commit, during or after the save of the
    checkpoint. Any call may fail, and other tasks write, commit and append rows in between.
    The checkpoint of the worker's shard never passes a canonical event of its types without
    a transaction having been committed that did to the vault tables what applying a batch
    with that event does, and it never moves back: the factory rebuilds a worker with the
    same checkpoint row and the same shard. What is assumed is the environment's: what
    reading and saving a checkpoint and reading the log do, that a commit that reports
    success has taken effect, and that nothing else moves the checkpoint. *)
Theorem supervised_workers_never_skip {W} `{TxWorld VaultTables W} `{EventCodecs} `{Encodings} `{ShardHash}
  {Store Token} `{CancellationTokens Store Token} `{Databases} (msg : CircuitOpen -> string)
  (others : AnyPgProjection -> list ParsedEvent -> W -> result unit ProjectionError * W)
  (cycle : AnyBatchProjection -> W -> result unit ProjectionError * W)
  (apply : AnySink -> list SinkOperation -> W -> result unit ProjectionError * W)
  (now : Instant) (token : Token) (store : Store) (env : Environment) (s : Service)
  (view : W -> View (Transition VaultTables)) (q : VaultState.VaultStateProjection) (w0 w : W)
  (Hs : main env = Running s) (Hq : VaultStateProjection q ∈ pg_projections s)
  (L : WorkerLaws view (pg_checkpoint_name (VaultStateProjection q)) "pg") (C : CommitLaws view)
  (Hbreaker : cb_inv (breaker w0))
  (Hstart : no_skip (written_once (apply_events q)) ["Deposited"; "Redeemed"; "SharePriceChanged"] (view w0))
  (Hlives : lives msg (vault_worker s q) view w0 w) :
  let label := pg_label (VaultStateProjection q) in
  (label, {| supervisor := Supervisor.new label; factory := Some (OnPg (vault_worker s q W _)) |})
    ∈ handles (run (pg_process others) cycle apply now token s store) /\
  no_skip (written_once (apply_events q)) ["Deposited"; "Redeemed"; "SharePriceChanged"] (view w) /\
  saved (view w0) <= saved (view w).
Proof.
  cbv zeta. split.
  - rewrite run_handles by by apply (service_well_built env). apply list_elem_of_In, in_map_iff.
    exists (pg_label (VaultStateProjection q), OnPg (vault_worker s q W _)). split; [done|].
    apply list_elem_of_In. unfold workers. rewrite !elem_of_app. right. left.
    apply list_elem_of_In, in_map_iff. exists (VaultStateProjection q). split; [done|by apply list_elem_of_In].
  - destruct (lives_inv msg (vault_worker s q) (apply_events q) view (pg_checkpoint_name (VaultStateProjection q))
      ["Deposited"; "Redeemed"; "SharePriceChanged"] (fun _ _ => eq_refl) (fun _ _ => eq_refl) (fun _ _ => proj1 policies_ok)
      (vault_batch_settles s q) L C w0 w Hstart Hbreaker Hlives) as (? & _ & ?). by split.
Qed.

(** ** The vault writers of a service *)

(** The projections of a kind, in the order start-up built them. *)
Definition vault_states (s : Service) : list VaultState.VaultStateProjection :=
  omap (fun p => match p with VaultStateProjection q => Some q | _ => None end) (pg_projections s).
Definition vault_state_duals (s : Service) : list VaultStateDual.VaultStateDualProjection :=
  omap (fun p => match p with VaultStateDualProjection q => Some q | _ => None end) (pg_projections s).

Section Writers.
Context (c : ProjectionsConfig) (kg : bool).
Abbreviation enabled := (ProjectionsConfig.is_projection_enabled c).
Abbreviation shards := (ProjectionsConfig.position_tracking_shards c).

Lemma omap_when {A B} (f : A -> option B) name l : omap f (when c name l) = when c name (omap f l).
Proof. unfold when. by destruct (enabled name). Qed.

Lemma when_nil {A} name : @when c A name [] = [].
Proof. unfold when. by destruct (enabled name). Qed.

Lemma omap_nothing {A B} (f : A -> option B) l : (forall x, x ∈ l -> f x = None) -> omap f l = [].
Proof.
  induction l as [|x l IH]; intros Hf; [done|]. cbn. rewrite (Hf x) by left.
  apply IH. intros. apply Hf. by right.
Qed.

Lemma built_vault_states :
  omap (fun p => match p with VaultStateProjection q => Some q | _ => None end) (build_pg_projections c kg) =
  when c "vault_state" (map (VaultState.shard shards) (seqZ 0 shards)).
Proof.
  unfold build_pg_projections. rewrite !omap_app, !omap_when.
  repeat (rewrite (omap_nothing _ [_]) by (by intros ? ->%list_elem_of_singleton)). rewrite !when_nil. cbn [app].
  rewrite (omap_nothing _ (map _ _)), (omap_nothing _ (if kg then _ else _)), !when_nil, !app_nil_r.
  - unfold shard_ids. induction (seqZ 0 shards) as [|i ids IH]; [symmetry; apply when_nil|]. cbn [map concat].
    rewrite omap_app, IH. unfold sharded_pair, when. by destruct (enabled "vault_state"), (enabled "position_tracking").
  - destruct kg; [|by intros ? ?%elem_of_nil]. by intros ? ->%list_elem_of_singleton.
  - intros p Hp. by apply list_elem_of_In, in_map_iff in Hp as (i & <- & _).
Qed.

Lemma built_duals :
  omap (fun p => match p with VaultStateDualProjection q => Some q | _ => None end) (build_pg_projections c kg) =
  when c "vault_state:dual" (map (fun i => {| VaultStateDual.shard_id := i; VaultStateDual.total_shards := shards;
                                              VaultStateDual.kg_pool := kg |}) (seqZ 0 shards)).
Proof.
  unfold build_pg_projections. rewrite !omap_app, !omap_when.
  repeat (rewrite (omap_nothing _ [_]) by (by intros ? ->%list_elem_of_singleton)). rewrite !when_nil. cbn [app].
  rewrite (omap_nothing _ (concat _)), (omap_nothing _ (if kg then _ else _)), !when_nil, !app_nil_r.
  - cbn [app]. f_equal. unfold shard_ids. induction (seqZ 0 shards) as [|i ids IH]; [done|]. cbn. rewrite IH.
    by destruct kg.
  - destruct kg; [|by intros ? ?%elem_of_nil]. by intros ? ->%list_elem_of_singleton.
  - intros p Hp. destruct (elem_of_sharded _ _ _ Hp eq_refl) as (i & _ & [[_ ->]|[_ ->]]); done.
Qed.
End Writers.

(** One projection after the other. *)
Definition in_turn {Q T E} (f : Q -> T -> result T E) (qs : list Q) (t : T) : result T E :=
  foldl (fun r q => let? t := r in f q t) (Ok t) qs.

Lemma in_turn_cons {Q T E} (f : Q -> T -> result T E) q qs t :
  in_turn f (q :: qs) t = let? t := f q t in in_turn f qs t.
Proof.
  unfold in_turn. cbn [foldl res_bind]. destruct (f q t) as [t1|e]; [done|]. cbn [res_bind].
  induction qs as [|q' qs IH]; [done|]. exact IH.
Qed.

Lemma deployed `{Databases} env s :
  main env = Running s -> exists c, ProjectionsConfig.from_env env = Ok c /\ s = service_of env c.
Proof. intros (d & ? & _ & _ & _ & E)%main_running. by exists d. Qed.

Lemma parse_or_in_range max what value n :
  0 <= max -> ProjectionsConfig.parse_or max what value = Ok n -> 0 <= n <= max.
Proof.
  intros Hmax. unfold ProjectionsConfig.parse_or. destruct (from_str max value) as [m|e] eqn:E; [|done].
  intros [= <-]. apply parse_from_str_ok in E; [|done]. unfold parse_unsigned, in_range in E.
  case_match; [|done]. case_match eqn:Hb; [|done]. injection E as <-. apply andb_true_iff in Hb. lia.
Qed.

Lemma shards_in_range env c :
  ProjectionsConfig.from_env env = Ok c -> 0 <= ProjectionsConfig.position_tracking_shards c <= U32_MAX.
Proof.
  unfold ProjectionsConfig.from_env. intros Hc. repeat (apply res_bind_ok in Hc as (? & ? & Hc)).
  injection Hc as <-. cbn [ProjectionsConfig.position_tracking_shards].
  eapply parse_or_in_range; [pose proof U32_MAX_pos; lia|eassumption].
Qed.

Section Shards.
Context `{ShardHash}.

Lemma in_turn_shards n ids events t :
  in_turn (fun q => apply_events q events) (map (VaultState.shard n) ids) t = apply_shards n ids events t.
Proof.
  revert t. induction ids as [|i ids IH]; intros t; [done|]. cbn [map]. rewrite in_turn_cons. cbn [apply_shards].
  by destruct (apply_events _ _ t) as [u|e]; [apply IH|].
Qed.

(** What a list of dual shards does to the money of a vault that has a row: the
    shard that owns it adds the batch's amounts. *)
Definition moved (key : string * string) (events : list ParsedEvent) (by_whom : bool) (row row' : VaultRow) : Prop :=
  let times := if by_whom then 1 else 0 in
  total_deposits row' = total_deposits row + times * (total (deposit_of key) events - total (redemption_of key) events) /\
  total_redemptions row' = total_redemptions row + times * total (redemption_of key) events.

Definition dual (n : Z) (kg : bool) (i : Z) : VaultStateDual.VaultStateDualProjection :=
  {| VaultStateDual.shard_id := i; VaultStateDual.total_shards := n; VaultStateDual.kg_pool := kg |}.

Lemma dual_shard_money hash_order n kg i key events t0 t1 t t' row :
  1 <= n <= U32_MAX -> 0 <= i < n -> apply_events whole events t0 = Ok t1 ->
  VaultStateDual.legacy_batch (dual n kg i) hash_order events t = Ok t' -> vault t !! key = Some row ->
  exists row', vault t' !! key = Some row' /\ moved key events (bool_decide (key_owner n key = i)) row row'.
Proof.
  intros Hn Hi Hok Hb Hrow. apply res_bind_ok in Hb as (t2 & Hev & [= <-]).
  destruct (VaultStateDual.legacy_events_vault (dual n kg i) events t t2 t Hev eq_refl) as (u & Hu & Hv).
  change (apply_events (VaultState.shard n i) events t = Ok u) in Hu.
  pose proof (apply_events_row n i events t u key Hn Hi Hu) as Hr. rewrite Hrow in Hr.
  match goal with |- context [VaultStateDual.refresh_legacy ?ks t2] =>
    pose proof (VaultStateDual.refresh_money ks t2 key) as Hm; rewrite Hv, Hr in Hm;
    destruct (vault (VaultStateDual.refresh_legacy ks t2) !! key) as [row1|] eqn:E end.
  2: { destruct (row_batch_columns key events t0 t1 row Hok) as (row2 & E2 & _). rewrite E2 in Hm. by case_decide. }
  exists row1. split; [done|]. unfold moved. case_decide as Ho.
  - destruct (row_batch_columns key events t0 t1 row Hok) as (row2 & E2 & D & R & _). rewrite E2 in Hm.
    injection Hm as Hd Hr2. rewrite bool_decide_eq_true_2 by done. cbv beta iota zeta. lia.
  - injection Hm as Hd Hr2. rewrite bool_decide_eq_false_2 by done. cbv beta iota zeta. lia.
Qed.

Lemma dual_shards_money hash_order n kg ids key events t0 t1 t t' row :
  1 <= n <= U32_MAX -> (forall i, i ∈ ids -> 0 <= i < n) -> NoDup ids -> apply_events whole events t0 = Ok t1 ->
  in_turn (fun q => VaultStateDual.legacy_batch q hash_order events) (map (dual n kg) ids) t = Ok t' ->
  vault t !! key = Some row ->
  exists row', vault t' !! key = Some row' /\ moved key events (bool_decide (key_owner n key ∈ ids)) row row'.
Proof.
  intros Hn Hids Hnd Hok. revert t row. induction Hnd as [|i ids Hi Hnd IH]; intros t row.
  { cbn. intros [= <-] Hrow. exists row. split; [done|]. unfold moved. cbv beta iota zeta. rewrite bool_decide_eq_false_2 by apply not_elem_of_nil. lia. }
  cbn [map]. rewrite in_turn_cons. intros (u & Hu & Ht)%res_bind_ok Hrow.
  destruct (dual_shard_money hash_order n kg i key events t0 t1 t u row Hn (Hids i ltac:(left)) Hok Hu Hrow)
    as (row1 & E1 & D1 & R1).
  destruct (IH ltac:(intros; apply Hids; by right) u row1 Ht E1) as (row' & E' & D' & R').
  exists row'. split; [done|]. unfold moved. rewrite D', D1, R', R1.
  destruct (decide (key_owner n key = i)) as [<-|Hne].
  - rewrite (bool_decide_eq_true_2 (_ = _)), (bool_decide_eq_false_2 (_ ∈ ids)), bool_decide_eq_true_2 by (done || left). cbv beta iota zeta. lia.
  - rewrite (bool_decide_eq_false_2 (_ = _)) by done.
    rewrite (bool_decide_ext (_ ∈ i :: ids) (key_owner n key ∈ ids)) by (rewrite elem_of_cons; tauto). cbv beta iota zeta. lia.
Qed.
End Shards.

(** ** Properties of the vault writers *)

(** C20 (the shards of a service are the whole). When [vault_state] is enabled with at
    least one shard, the vault-state projections of a running service, run one after
    the other in any order on a batch the unsharded projection accepts, succeed and
    leave the [vault] table the unsharded projection leaves; with no shard, which the
    configuration accepts, there is no vault-state worker at all. *)
Theorem service_shards_equal_whole `{ShardHash} `{Databases} (env : Environment) (s : Service)
  (events : list ParsedEvent) (t t1 : VaultTables)
  (Hs : main env = Running s)
  (Henabled : ProjectionsConfig.is_projection_enabled (Startup.config s) "vault_state" = true)
  (Hwhole : apply_events whole events t = Ok t1) :
  let n := ProjectionsConfig.position_tracking_shards (Startup.config s) in
  (n = 0 -> vault_states s = []) /\
  (1 <= n -> forall qs, qs ≡ₚ vault_states s ->
    exists t', in_turn (fun q => apply_events q events) qs t = Ok t' /\ vault t' = vault t1).
Proof.
  destruct (deployed env s Hs) as (c & Hc & ->). cbn [Startup.config service_of] in *. cbv zeta.
  pose proof (shards_in_range env c Hc) as Hr. unfold vault_states. cbn [pg_projections service_of].
  rewrite built_vault_states. unfold when. rewrite Henabled. split.
  - intros ->. done.
  - intros Hn qs Hqs. apply Permutation_map_inv in Hqs as (ids & -> & Hids). rewrite in_turn_shards.
    apply shards_equal_whole; [lia|by symmetry|done].
Qed.

(** C21 (two writers on one table). With [vault_state] and [vault_state:dual] both
    enabled, as they are when neither list of projections is set, a running service
    applies every batch to the legacy vault table twice: once both have processed a
    batch, a vault that had a row has moved by twice its amounts. *)
Theorem both_vault_writers_count_twice `{ShardHash} `{Databases} (env : Environment) (s : Service)
  (hash_order : gset (string * string) -> list (string * string)) (events : list ParsedEvent)
  (key : string * string) (row : VaultRow) (t t1 t' t2 : VaultTables)
  (Hs : main env = Running s)
  (Hlists : ProjectionsConfig.enabled_projections (Startup.config s) = [] /\
            ProjectionsConfig.disabled_projections (Startup.config s) = [])
  (Hshards : 1 <= ProjectionsConfig.position_tracking_shards (Startup.config s))
  (Hrow : vault t !! key = Some row) (Hwhole : apply_events whole events t = Ok t1)
  (Hlegacy : in_turn (fun q => apply_events q events) (vault_states s) t = Ok t')
  (Hdual : in_turn (fun q => VaultStateDual.legacy_batch q hash_order events) (vault_state_duals s) t' = Ok t2) :
  exists row2, vault t2 !! key = Some row2 /\
    total_deposits row2 = total_deposits row +
      2 * (total (deposit_of key) events - total (redemption_of key) events) /\
    total_redemptions row2 = total_redemptions row + 2 * total (redemption_of key) events.
Proof.
  destruct Hlists as [He Hd].
  assert (Hen : forall name, ProjectionsConfig.is_projection_enabled (Startup.config s) name = true).
  { intros name. unfold ProjectionsConfig.is_projection_enabled. by rewrite He, Hd. }
  destruct (deployed env s Hs) as (c & Hc & ->). cbn [Startup.config service_of] in *.
  unfold vault_states, vault_state_duals in *. cbn [pg_projections service_of] in *.
  rewrite built_vault_states in Hlegacy. rewrite built_duals in Hdual. unfold when in *. rewrite !Hen in *.
  pose proof (shards_in_range env c Hc) as Hr. set (n := ProjectionsConfig.position_tracking_shards c) in *.
  rewrite in_turn_shards in Hlegacy.
  destruct (shards_equal_whole n (seqZ 0 n) events t t1 ltac:(lia) (reflexivity _) Hwhole) as (u & Hu & Hv).
  rewrite Hlegacy in Hu. injection Hu as <-.
  destruct (vault_accounting key events t t1 row Hwhole Hrow) as (row1 & E1 & D1 & R1 & _).
  rewrite <- Hv in E1.
  destruct (dual_shards_money hash_order n _ (seqZ 0 n) key events t t1 t' t2 row1 ltac:(lia)
    ltac:(intros i Hi%elem_of_seqZ; lia) (NoDup_seqZ _ _) Hwhole Hdual E1) as (row2 & E2 & D2 & R2).
  assert (Ho : key_owner n key ∈ seqZ 0 n) by (apply elem_of_seqZ, Z.mod_pos_bound; lia).
  exists row2. split; [done|]. rewrite bool_decide_eq_true_2 in D2, R2 by done. lia.
Qed.

(** ** Witnesses *)

#[local] Existing Instance sample_hash.
#[local] Existing Instance sample_codecs.
#[local] Existing Instance demo_encodings.
#[local] Existing Instance demo_databases.
#[local] Existing Instance PathTokens.path_tokens.

Lemma service_shards_equal_whole_witness :
  exists t', in_turn (fun q => apply_events q demo_batch) (rev (vault_states default_service)) demo_vaults = Ok t' /\
    vault t' = vault (after_demo_batch demo_vaults).
Proof.
  apply (@service_shards_equal_whole sample_hash demo_databases default_env default_service demo_batch
    demo_vaults (after_demo_batch demo_vaults) default_service_runs); [reflexivity|vm_compute; reflexivity|
    vm_compute; discriminate|].
  symmetry. apply Permutation_rev.
Defined.

Definition counted_once : VaultTables :=
  match in_turn (fun q => apply_events q demo_batch) (vault_states default_service) demo_vaults with
  | Ok t => t | Err _ => demo_vaults end.
Definition counted_twice : VaultTables :=
  match in_turn (fun q => VaultStateDual.legacy_batch q elements demo_batch)
          (vault_state_duals default_service) counted_once with
  | Ok t => t | Err _ => demo_vaults end.

Lemma both_vault_writers_count_twice_witness :
  exists row2, vault counted_twice !! ("0x07", "1") = Some row2 /\
    total_deposits row2 = 100 + 2 * (900 - 300) /\ total_redemptions row2 = 0 + 2 * 300.
Proof.
  exact (@both_vault_writers_count_twice sample_hash demo_databases default_env default_service elements
    demo_batch ("0x07", "1") _ demo_vaults (after_demo_batch demo_vaults) counted_once counted_twice
    default_service_runs (conj eq_refl eq_refl) ltac:(vm_compute; discriminate) (lookup_singleton_eq _ _)
    ltac:(vm_compute; reflexivity) ltac:(vm_compute; reflexivity) ltac:(vm_compute; reflexivity)).
Defined.

(** A codec for deposits, amounts as text. *)
Definition deposit_codec : Codec DepositedRecord.
Proof.
  refine {|
    to_value r := Ok (Object [("sender", VString (dep_sender r)); ("receiver", VString (dep_receiver r));
      ("term_id", VString (dep_term_id r)); ("curve_id", VString (pretty (dep_curve_id r : Z)));
      ("assets", VString (pretty (dep_assets r : Z))); ("assets_after_fees", VString (pretty (dep_assets_after_fees r : Z)));
      ("shares", VString (pretty (dep_shares r : Z))); ("total_shares", VString (pretty (dep_total_shares r : Z)));
      ("vault_type", VString (pretty (dep_vault_type r)))]);
    from_value v := match v with
      | Object [("sender", VString s); ("receiver", VString r); ("term_id", VString t); ("curve_id", VString c);
                ("assets", VString a); ("assets_after_fees", VString n); ("shares", VString h);
                ("total_shares", VString k); ("vault_type", VString y)] =>
          match integer c, integer a, integer n, integer h, integer k, integer y with
          | Some c, Some a, Some n, Some h, Some k, Some y =>
              Ok {| dep_sender := s; dep_receiver := r; dep_term_id := t; dep_curve_id := c; dep_assets := a;
                    dep_assets_after_fees := n; dep_shares := h; dep_total_shares := k; dep_vault_type := y |}
          | _, _, _, _, _, _ => Err "not a number"
          end
      | _ => Err "missing field"
      end
  |}.
  intros [] v [= <-]. cbn. by rewrite !integer_pretty.
Defined.
Definition deposit_codecs : EventCodecs :=
  Build_EventCodecs atom_created_codec (no_codec _) (no_codec _) deposit_codec (no_codec _) (no_codec _) (no_codec _).

Definition stored_deposit (seq amount : Z) : StoredEvent := sample_event seq "Deposited"
  (match @to_value _ deposit_codec (demo_deposit amount) with Ok v => v | Err _ => Null end).
Definition deposit_rows : list StoredEvent :=
  [stored_deposit 1 900; sample_event 2 "Redeemed" Null; stored_deposit 4 50].
Definition history_world : demo (Transition VaultTables) := demo_begin deposit_rows [ProjectionError.Database "reset"].

(** The shard of [vault_state] the deposits belong to. *)
Definition demo_shard : VaultState.VaultStateProjection := {| VaultState.shard_id := 3; VaultState.total_shards := 4 |}.
Abbreviation shard_view := (demo_view (A := Transition VaultTables) "vault_state_s3" "pg").
Abbreviation shard_worker := (@vault_worker deposit_codecs sample_hash default_service demo_shard).
Abbreviation crashed fuel n w :=
  (live (snd (@PgWorker.run _ (@crashing_worker _ (@dead_letter_worker _ (@tx_dead_letter _ _ demo_history))) deposit_codecs
    (fun _ => "open") (shard_worker _ (@crashing_tx _ _ demo_history)) fuel {| live := w; calls := n |}))).

(** The crash before the save of the checkpoint, the crash after it, and a run that is left
    alone: the first batch is written again by the second run. *)
Definition before_save := crashed 2 22 history_world.
Definition after_save := crashed 2 22 before_save.
Definition left_alone :=
  snd (@PgWorker.run _ _ deposit_codecs (fun _ => "open") (shard_worker _ demo_history) 2 after_save).

Example deposits_so_far :
  map (fun w => (saved (shard_view w), map (fun p => option_map total_deposits (vault (snd p) !! ("0x07", "1"))) (dw_applied w)))
    [history_world; before_save; after_save; left_alone] =
  [(0, []); (0, [Some 950]); (4, [Some 950; Some 1900]); (4, [Some 950; Some 1900])].
Proof. vm_compute. reflexivity. Qed.

Lemma demo_shard_built : VaultStateProjection demo_shard ∈ pg_projections default_service.
Proof. apply (bool_decide_unpack _). vm_compute. exact I. Qed.

Definition demo_others (_ : AnyPgProjection) (_ : list ParsedEvent) (w : demo (Transition VaultTables))
    : result unit ProjectionError * demo (Transition VaultTables) := (Ok tt, w).
Definition history_cycle (_ : AnyBatchProjection) (w : demo (Transition VaultTables))
    : result unit ProjectionError * demo (Transition VaultTables) := (Ok tt, w).
Definition history_apply (_ : AnySink) (_ : list SinkOperation) (w : demo (Transition VaultTables))
    : result unit ProjectionError * demo (Transition VaultTables) := (Ok tt, w).

Lemma history_start : no_skip (@written_once VaultTables deposit_codecs (apply_events demo_shard))
  ["Deposited"; "Redeemed"; "SharePriceChanged"] (shard_view history_world).
Proof.
  split; [refine (bool_decide_unpack _ _); vm_compute; exact I|]. split; [by left|]. intros e _ (_ & ? & _) Hle. cbn in Hle.
  change (Checkpoint.get_checkpoint ∅ "vault_state_s3" "pg") with 0 in Hle. lia.
Qed.

Lemma supervised_workers_never_skip_witness :
  ("vault_state:pg:s3", {| supervisor := Supervisor.new "vault_state:pg:s3"; factory := Some (OnPg (shard_worker _ demo_history)) |})
    ∈ handles (@run _ deposit_codecs _ _ _ _
        (@pg_process _ demo_history deposit_codecs sample_hash demo_others) history_cycle history_apply 0
        PathTokens.new_token default_service PathTokens.new_store) /\
  no_skip (@written_once VaultTables deposit_codecs (apply_events demo_shard))
    ["Deposited"; "Redeemed"; "SharePriceChanged"] (shard_view left_alone) /\
  0 <= saved (shard_view left_alone).
Proof.
  exact (@supervised_workers_never_skip _ demo_history deposit_codecs _ sample_hash _ _ _ _ (fun _ => "open")
    demo_others history_cycle history_apply 0 PathTokens.new_token PathTokens.new_store default_env default_service
    shard_view demo_shard history_world left_alone default_service_runs demo_shard_built
    (demo_laws "vault_state_s3" "pg" eq_refl) (demo_commit_laws "vault_state_s3" "pg") (with_defaults_inv _) history_start
    (lives_run _ _ _ _ _ 2 (lives_crash _ _ _ _ _ 2 22 (lives_crash _ _ _ _ _ 2 22 (lives_start _ _ _ _))))).
Defined.
