(* ===== verification/SurrealConnect.v ===== *)
(** * Connecting to SurrealDB

    [connect_surreal] and the reconnection of [get_connection]
    ([crates/projections/src/resilience/connection_manager.rs]), and [SurrealSink::new]
    ([sink/surreal.rs]), down to the calls of the client. ConnectionManager has how
    tasks share the connection, Startup the attempts of the process; here is what one
    attempt does, and that the attempts of the process are such. *)

From stdpp Require Import pretty.
From S2P Require Import Prelude MachineInt Text Events Errors CircuitBreaker Retry ConnectionManager SurrealSink Config Startup.

Import ProjectionsConfig.

Record SurrealConfig := { url : string; user : string; pass : string; namespace : string; database : string }.

(** The calls of the client. An error is its text; [connection_error] is how the client
    prints an error the code makes itself, [within] is [tokio::time::timeout], which
    answers nothing when the time has run out. *)
Class SurrealClient (Conn W : Type) := {
  open_ws : string -> W -> result Conn string * W;
  open_wss : string -> W -> result Conn string * W;
  signin : Conn -> string -> string -> W -> result unit string * W;
  use_ns_db : Conn -> string -> string -> W -> result unit string * W;
  health_query : Conn -> string -> W -> result unit string * W;
  within : forall A, Duration -> (W -> A * W) -> W -> option A * W;
  connection_error : string -> string
}.

Definition SURREAL_CONNECT_TIMEOUT_SECS : Z := 5.
Definition HEALTH_CHECK_TIMEOUT_SECS : Z := 2.

Section Connecting.
Context {Conn W : Type} `{SurrealClient Conn W}.

Definition connect_surreal (config : SurrealConfig) (w : W) : result Conn string * W :=
  let scheme := match strip_prefix "wss://" (url config) with
                | Some stripped => Some (stripped, true)
                | None =>
                    match strip_prefix "ws://" (url config) with
                    | Some stripped => Some (stripped, false)
                    | None => None
                    end
                end in
  match scheme with
  | None => (Err (connection_error ("unsupported SurrealDB URL scheme: " +:+ url config)), w)
  | Some (addr, secure) =>
      match (if secure : bool then open_wss addr else open_ws addr) w with
      | (Err e, w) => (Err e, w)
      | (Ok db, w) =>
          match signin db (user config) (pass config) w with
          | (Err e, w) => (Err e, w)
          | (Ok _, w) =>
              match use_ns_db db (namespace config) (database config) w with
              | (Err e, w) => (Err e, w)
              | (Ok _, w) => (Ok db, w)
              end
          end
      end
  end.

(** The slow path of [get_connection], under the write lock with the slot empty. *)
Definition reconnect (config : SurrealConfig) (w : W) : result Conn string * W :=
  match within _ (secs SURREAL_CONNECT_TIMEOUT_SECS) (connect_surreal config) w with
  | (Some (Ok db), w) =>
      match within _ (secs HEALTH_CHECK_TIMEOUT_SECS) (health_query db "RETURN true") w with
      | (Some (Ok _), w) => (Ok db, w)
      | (Some (Err err), w) => (Err err, w)
      | (None, w) => (Err (connection_error ("health-check timed out for " +:+ url config)), w)
      end
  | (Some (Err err), w) => (Err err, w)
  | (None, w) =>
      (Err (connection_error ("reconnection to " +:+ url config +:+ " timed out after " +:+
              pretty SURREAL_CONNECT_TIMEOUT_SECS +:+ "s")), w)
  end.

(** [SurrealSink::new]: the sink holds the connection; its gauge is recorded at once. *)
Definition sink_new (set_connection_state : bool -> W -> W) (c : SurrealConfig) (w : W)
    : result Conn ProjectionError * W :=
  match connect_surreal c w with
  | (Err e, w) => (Err (ProjectionError.Surreal e), w)
  | (Ok db, w) => (Ok db, set_connection_state true w)
  end.

(** ** Lemmas *)

Definition known_scheme (u : string) : bool := starts_with "wss://" u || starts_with "ws://" u.

(** An unknown scheme is refused before anything is sent. *)
Lemma unsupported_scheme config w : known_scheme (url config) = false ->
  connect_surreal config w = (Err (connection_error ("unsupported SurrealDB URL scheme: " +:+ url config)), w).
Proof.
  unfold known_scheme, starts_with, connect_surreal. destruct (strip_prefix "wss://" _); [done|].
  by destruct (strip_prefix "ws://" _).
Qed.

(** A connection is handed out only signed in and with its namespace and database chosen. *)
Lemma connected_ready config w db w' : connect_surreal config w = (Ok db, w') ->
  known_scheme (url config) = true /\
  exists w1 w2, signin db (user config) (pass config) w1 = (Ok tt, w2) /\
    use_ns_db db (namespace config) (database config) w2 = (Ok tt, w').
Proof.
  intros Hc. split.
  { destruct (known_scheme _) eqn:E; [done|]. by rewrite (unsupported_scheme _ _ E) in Hc. }
  unfold connect_surreal in Hc.
  assert (Hopened : forall r : result Conn string * W,
    match r with
    | (Err e, w) => (Err e, w)
    | (Ok db, w) =>
        match signin db (user config) (pass config) w with
        | (Err e, w) => (Err e, w)
        | (Ok _, w) =>
            match use_ns_db db (namespace config) (database config) w with
            | (Err e, w) => (Err e, w)
            | (Ok _, w) => (Ok db, w)
            end
        end
    end = (Ok db, w') ->
    exists w1 w2, signin db (user config) (pass config) w1 = (Ok tt, w2) /\
      use_ns_db db (namespace config) (database config) w2 = (Ok tt, w')).
  { intros [[db'|e] w1]; [|done]. destruct (signin _ _ _ w1) as [[[]|e] w2] eqn:Es; [|done].
    destruct (use_ns_db _ _ _ w2) as [[[]|e] w3] eqn:Eu; [|done]. intros [= <- <-]. by exists w1, w2. }
  destruct (strip_prefix "wss://" _) as [addr|]; [by eapply Hopened|].
  destruct (strip_prefix "ws://" _) as [addr|]; [by eapply Hopened|done].
Qed.

(** A reconnection that succeeds has also answered a query in time. *)
Lemma reconnected_checked config w db w' : reconnect config w = (Ok db, w') ->
  exists w1, within _ (secs SURREAL_CONNECT_TIMEOUT_SECS) (connect_surreal config) w = (Some (Ok db), w1) /\
    within _ (secs HEALTH_CHECK_TIMEOUT_SECS) (health_query db "RETURN true") w1 = (Some (Ok tt), w').
Proof.
  unfold reconnect. destruct (within _ _ (connect_surreal config) w) as [[[db'|e]|] w1]; [|done..].
  destruct (within _ _ (health_query _ _) w1) as [[[[]|e]|] w2] eqn:Eh; [|done..].
  intros [= <- <-]. by exists w1.
Qed.

(** ** The attempts of start-up *)

Context (set_connection_state : bool -> W -> W) (at_attempt : nat -> W).

Definition surreal_config (c : ProjectionsConfig) : SurrealConfig := {|
  url := surreal_url c; user := surreal_user c; pass := surreal_pass c;
  namespace := surreal_namespace c; database := surreal_database c |}.

(** The databases of Startup, with the attempts made by [sink_new] in whatever state the
    world is in by then. *)
Definition databases_with (connect : string -> Z -> result unit string) : Databases := {|
  pg_connect := connect;
  surreal_connect c n :=
    match fst (sink_new set_connection_state (surreal_config c) (at_attempt n)) with
    | Ok _ => Ok tt
    | Err e => Err e
    end
|}.

(** A service that needs SurrealDB and is given an address of another scheme, or one
    with a space before it, tries ten times what cannot succeed, and stops. *)
Lemma unsupported_url_stops connect c :
  needs_surreal c = true -> is_empty (trim (surreal_url c)) = false -> known_scheme (surreal_url c) = false ->
  @connect_surreal_if_needed (databases_with connect) c =
    Err ("Failed to connect to SurrealDB after 10 attempts: SurrealDB error: " +:+
         connection_error ("unsupported SurrealDB URL scheme: " +:+ surreal_url c)).
Proof.
  intros Hneeds Htrim Hscheme. unfold connect_surreal_if_needed. rewrite Hneeds, Htrim. cbn [negb].
  assert (Hatt : forall n, @surreal_connect (databases_with connect) c n =
    Err (ProjectionError.Surreal (connection_error ("unsupported SurrealDB URL scheme: " +:+ surreal_url c)))).
  { intros n. cbn. unfold sink_new. by rewrite unsupported_scheme. }
  unfold max_attempts. cbn [surreal_attempts]. rewrite !Hatt. done.
Qed.
End Connecting.

(** A concrete client: everything answers, in time; an address with a space before it is
    still refused. *)
#[local] Instance answering_client : SurrealClient unit Z := {|
  open_ws _ w := (Ok tt, w + 1); open_wss _ w := (Ok tt, w + 1); signin _ _ _ w := (Ok tt, w + 1);
  use_ns_db _ _ _ w := (Ok tt, w + 1); health_query _ _ w := (Ok tt, w + 1);
  within _ _ call w := let '(r, w) := call w in (Some r, w); connection_error e := e
|}.

Example connects_and_refuses :
  let c u := {| url := u; user := "root"; pass := "root"; namespace := "intuition"; database := "intuition" |} in
  reconnect (c "wss://db:8000") 0 = (Ok tt, 4) /\
  reconnect (c " ws://db:8000") 0 = (Err "unsupported SurrealDB URL scheme:  ws://db:8000", 0).
Proof. vm_compute. done. Qed.
