(* ===== verification/Readiness.v ===== *)
(** * Readiness

    [record_status] of [crates/projections/src/metrics.rs] under concurrency: every
    worker reports its status while the others do, and while anything else is
    recorded. A report is three accesses to two atomics, so reports interleave;
    [/health/ready] answers from the count they keep. The labels are those of the
    workers of a running service. *)

From Stdlib Require Import Floats.SpecFloat.
From S2P Require Import Prelude MachineInt Binary64 Text Events Errors CircuitBreaker Retry WorkerWorld Traits.
From S2P Require Import SurrealProjections Metrics Config Startup Coordinator.

(** ** What is recorded *)

(** The calls that are one access each, as far as the status and the count go. *)
Inductive Call :=
  | BatchProcessed (projection sink : string) (count : Z) (duration_secs : f64) (sequence : Z)
  | Error (projection sink : string)
  | StallDetected (worker : string)
  | Restart (projection sink : string)
  | RestartBackoff (projection sink : string) (seconds : f64)
  | CircuitState (projection target : string) (state : Z)
  | CircuitOpen (projection target : string)
  | SurrealConnection (connected : bool)
  | SemaphoreAvailable (projection : string) (available : Z)
  | ParseError (projection event_type : string)
  | DeadLetter (projection event_type : string)
  | DualWriteInFlight (in_flight : bool)
  | StartupComplete
  | HeadSequence (seq : Z)
  | InitialiseLabels (pairs : list (string * string)).

Definition perform (c : Call) : Metrics -> Metrics :=
  match c with
  | BatchProcessed p s n d q => record_batch_processed p s n d q
  | Error p s => record_error p s
  | StallDetected w => record_stall_detected w
  | Restart p s => record_restart p s
  | RestartBackoff p s d => set_restart_backoff p s d
  | CircuitState p t n => set_circuit_state p t n
  | CircuitOpen p t => record_circuit_open p t
  | SurrealConnection b => set_surreal_connection_state b
  | SemaphoreAvailable p n => set_semaphore_available p n
  | ParseError p t => record_parse_error p t
  | DeadLetter p t => record_dead_letter p t
  | DualWriteInFlight b => set_dual_write_in_flight b
  | StartupComplete => mark_startup_complete
  | HeadSequence n => set_head_sequence n
  | InitialiseLabels pairs => initialise_labels pairs
  end.

(** ** Interleaved reports *)

(** Where a call of [record_status] is: the gauge read, and then written. *)
Inductive report :=
  | Fetched (previous status : f64)
  | Written (previous status : f64).

Record Machine := {
  metrics : Metrics;
  reports : gmap nat report    (* the calls under way, by worker *)
}.

Definition quiet (s : Metrics) : Machine := {| metrics := s; reports := ∅ |}.

Inductive Action :=
  | Report (worker : nat) (status : f64)    (* the worker enters [record_status] *)
  | Resume (worker : nat)                   (* and runs its next access *)
  | Other (c : Call).

Section Interleaving.
Context (labels : list (string * string)).

Abbreviation label_values l := ([fst l; snd l] : list string).

(** [None] for an action that is not enabled: a worker is inside one report at a time. *)
Definition act (m : Machine) (a : Action) : option Machine :=
  match a with
  | Report i v =>
      l ← labels !! i;
      match reports m !! i with
      | Some _ => None
      | None => Some {| metrics := metrics m;
                        reports := <[i := Fetched (gauge status (label_values l) (metrics m)) v]> (reports m) |}
      end
  | Resume i =>
      l ← labels !! i;
      match reports m !! i with
      | None => None
      | Some (Fetched previous v) =>
          Some {| metrics := set_gauge status (label_values l) v (metrics m);
                  reports := <[i := Written previous v]> (reports m) |}
      | Some (Written previous v) =>
          Some {| metrics := adjust_healthy previous v (metrics m); reports := delete i (reports m) |}
      end
  | Other c => Some {| metrics := perform c (metrics m); reports := reports m |}
  end.

Fixpoint acts (m : Machine) (l : list Action) : option Machine :=
  match l with
  | [] => Some m
  | a :: l => m ← act m a; acts m l
  end.
End Interleaving.

(** The last status a worker reported, and the last head polled. *)
Fixpoint last_report (i : nat) (l : list Action) : option f64 :=
  match l with
  | [] => None
  | a :: l =>
      match last_report i l with
      | Some v => Some v
      | None => match a with Report j v => if decide (i = j) then Some v else None | _ => None end
      end
  end.
Fixpoint last_head (l : list Action) : option Z :=
  match l with
  | [] => None
  | a :: l =>
      match last_head l with
      | Some n => Some n
      | None => match a with Other (HeadSequence n) => Some n | _ => None end
      end
  end.

(** ** The head poller

    [spawn_head_sequence_poller]: its query, and what it records of an answer. *)
Definition head_query (event_store : list StoredEvent) : option Z :=
  let canonical := filter (fun e => StoredEvent.is_canonical e = true) event_store in
  match map StoredEvent.sequence_number canonical with
  | [] => Some 0
  | n :: ns => Some (foldr Z.max n ns)
  end.
Definition poll_head (answer : result (option Z) string) : list Call :=
  match answer with
  | Ok (Some max_seq) => [HeadSequence max_seq]
  | Ok None | Err _ => []
  end.

(** The label pairs the workers of a service report under. *)
Definition status_labels `{EventCodecs} `{Encodings} (s : Service) : list (string * string) :=
  surreal_pairs s ++ pg_pairs s ++ map (fun b => (batch_projection_name b, "batch")) (batch_projections s) ++
  match core_entities s with Some _ => [("core_entities", "dual")] | None => [] end.

(** ** Lemmas *)

Lemma foldr_max_pos n ns : 0 < foldr Z.max n ns <-> exists k, k ∈ n :: ns /\ 0 < k.
Proof.
  induction ns as [|m ns IH]; cbn [foldr].
  - split; [intros ?; exists n; split; [by left|done]|]. by intros (k & ->%list_elem_of_singleton & ?).
  - rewrite Z.max_lt_iff, IH. setoid_rewrite elem_of_cons. setoid_rewrite elem_of_cons. naive_solver.
Qed.

(** What is recorded makes the service ready exactly when the log has an event. *)
Lemma polled_head_positive event_store :
  (forall e, e ∈ event_store -> 0 < StoredEvent.sequence_number e) ->
  exists n, poll_head (Ok (head_query event_store)) = [HeadSequence n] /\
    (0 < n <-> exists e, e ∈ event_store /\ StoredEvent.is_canonical e = true).
Proof.
  intros Hpos. unfold head_query. set (canonical := filter _ event_store).
  assert (Hc : forall e, e ∈ canonical <-> StoredEvent.is_canonical e = true /\ e ∈ event_store)
    by (intros e; unfold canonical; by rewrite list_elem_of_filter).
  destruct canonical as [|e es]; cbn [map]; (eexists; split; [reflexivity|]).
  - split; [lia|]. intros (e & He & Hcan). by assert (e ∈ []) as ?%elem_of_nil by by apply Hc.
  - assert (He : e ∈ e :: es) by by left. apply Hc in He as [Hcan He]. rewrite foldr_max_pos. split; [by eauto|].
    intros _. exists (StoredEvent.sequence_number e). split; [by left|by apply Hpos].
Qed.

Lemma perform_status c ls s : gauge status ls (perform c s) = gauge status ls s.
Proof.
  destruct c; cbn [perform]; try (by unfold record_error, record_stall_detected, record_restart, record_circuit_open,
    record_parse_error, record_dead_letter, set_restart_backoff, set_circuit_state, set_surreal_connection_state,
    set_semaphore_available, set_dual_write_in_flight, set_head_sequence; read_gauges).
  - unfold record_batch_processed. cbv zeta. case_match; by read_gauges.
  - apply gauge_initialise.
Qed.

Lemma perform_healthy c s : HEALTHY_WORKER_COUNT (perform c s) = HEALTHY_WORKER_COUNT s.
Proof.
  destruct c; cbn [perform]; try done; [|apply healthy_initialise].
  unfold record_batch_processed. cbv zeta. by case_match.
Qed.

Lemma perform_head c s :
  gauge head_sequence [] (perform c s) = match c with HeadSequence n => f64_of n | _ => gauge head_sequence [] s end.
Proof.
  destruct c; cbn [perform]; try (by unfold record_error, record_stall_detected, record_restart, record_circuit_open,
    record_parse_error, record_dead_letter, set_restart_backoff, set_circuit_state, set_surreal_connection_state,
    set_semaphore_available, set_dual_write_in_flight, set_head_sequence; read_gauges).
  - unfold record_batch_processed. cbv zeta. case_match; by read_gauges.
  - apply gauge_initialise.
Qed.

(** How many of the first [n] satisfy a test. *)
Fixpoint count (f : nat -> bool) (n : nat) : Z :=
  match n with O => 0 | S n => Z.b2z (f n) + count f n end.

Lemma count_bounds f n : 0 <= count f n <= Z.of_nat n.
Proof. induction n as [|n IH]; cbn [count]; [lia|]. destruct (f n); cbn [Z.b2z]; lia. Qed.

Lemma count_ext f g n : (forall j, (j < n)%nat -> f j = g j) -> count f n = count g n.
Proof. induction n as [|n IH]; intros Hfg; cbn [count]; [done|]. rewrite Hfg, IH; [done|auto|lia]. Qed.

Lemma count_update f g i n : (i < n)%nat -> (forall j, j <> i -> f j = g j) ->
  count g n = count f n + Z.b2z (g i) - Z.b2z (f i).
Proof.
  induction n as [|n IH]; intros Hi Hfg; [lia|]. cbn [count]. destruct (decide (i = n)) as [->|Hne].
  - rewrite (count_ext f g n) by (intros; apply Hfg; lia). lia.
  - rewrite IH, (Hfg n) by (done || lia). lia.
Qed.

Lemma count_pos f n : 0 < count f n <-> exists i, (i < n)%nat /\ f i = true.
Proof.
  induction n as [|n IH]; cbn [count]; [split; [lia|intros (? & ? & ?); lia]|].
  pose proof (count_bounds f n). split.
  - intros Hc. destruct (f n) eqn:E; [by exists n; auto|]. destruct IH as [(i & ? & ?) _]; [cbn in Hc; lia|]. exists i. auto with lia.
  - intros (i & Hi & Hf). destruct (decide (i = n)) as [->|Hne]; [rewrite Hf; cbn; lia|].
    assert (0 < count f n) by (apply IH; exists i; split; [lia|done]). destruct (f n); cbn; lia.
Qed.

Lemma last_report_snoc i l a :
  last_report i (l ++ [a]) = match a with Report j v => if decide (i = j) then Some v else last_report i l | _ => last_report i l end.
Proof.
  induction l as [|b l IH]; cbn [last_report app]; [destruct a as [j v| |]; try done; by case_decide|].
  rewrite IH. destruct a as [j v| |]; try done. by case_decide.
Qed.

Lemma last_head_snoc l a :
  last_head (l ++ [a]) = match a with Other (HeadSequence n) => Some n | _ => last_head l end.
Proof.
  induction l as [|b l IH]; cbn [last_head app]; [done|]. rewrite IH. destruct a as [| |[]]; done.
Qed.

Section Counting.
Context (labels : list (string * string)) (Hnd : NoDup labels) (Hn : Z.of_nat (length labels) < 2 ^ 31).

(** What the count holds of a worker: its gauge, or the status it had before the
    report it has written and not yet counted. *)
Definition counted (m : Machine) (i : nat) : bool :=
  match labels !! i with
  | None => false
  | Some l =>
      match reports m !! i with
      | Some (Written previous _) => is_healthy_status previous
      | _ => is_healthy_status (gauge status [fst l; snd l] (metrics m))
      end
  end.

Record counting (hist : list Action) (m : Machine) : Prop := {
  healthy_counts : HEALTHY_WORKER_COUNT (metrics m) = count (counted m) (length labels);
  gauges_report i l : labels !! i = Some l ->
    match reports m !! i with
    | None => gauge status [fst l; snd l] (metrics m) = default (f64_of 0) (last_report i hist)
    | Some (Fetched p v) => last_report i hist = Some v /\ p = gauge status [fst l; snd l] (metrics m)
    | Some (Written p v) => last_report i hist = Some v /\ gauge status [fst l; snd l] (metrics m) = v
    end;
  head_reports : gauge head_sequence [] (metrics m) = f64_of (default 0 (last_head hist))
}.

Lemma label_inj i j l l' : labels !! i = Some l -> labels !! j = Some l' -> [fst l; snd l] = [fst l'; snd l'] -> i = j.
Proof.
  intros Hi Hj [= H1 H2]. assert (l = l') as <- by (destruct l, l'; cbn in *; congruence).
  by apply (NoDup_lookup labels i j l).
Qed.

Lemma counting_start : counting [] (quiet fresh).
Proof.
  split; [|done..]. cbn. clear Hn. induction (length labels) as [|n IH]; [done|]. cbn [count]. rewrite <- IH. unfold counted. cbn.
  by destruct (labels !! n).
Qed.

Lemma report_step hist m i l v : counting hist m -> labels !! i = Some l -> reports m !! i = None ->
  counting (hist ++ [Report i v]) {| metrics := metrics m;
    reports := <[i := Fetched (gauge status [fst l; snd l] (metrics m)) v]> (reports m) |}.
Proof.
  intros [H1 H2 H3] Hl Hr. split; cbn [metrics reports].
  - rewrite H1. apply count_ext. intros j _. unfold counted. cbn [metrics reports].
    destruct (decide (j = i)) as [->|Hne]; [by rewrite Hl, Hr, lookup_insert_eq|by rewrite lookup_insert_ne].
  - intros j l' Hj. rewrite last_report_snoc. specialize (H2 j l' Hj).
    destruct (decide (j = i)) as [->|Hne]; [rewrite lookup_insert_eq; by simplify_eq|by rewrite lookup_insert_ne].
  - by rewrite last_head_snoc.
Qed.

Lemma write_step hist m i l p v : counting hist m -> labels !! i = Some l -> reports m !! i = Some (Fetched p v) ->
  counting (hist ++ [Resume i]) {| metrics := set_gauge status [fst l; snd l] v (metrics m);
    reports := <[i := Written p v]> (reports m) |}.
Proof.
  intros [H1 H2 H3] Hl Hr. pose proof (H2 i l Hl) as Hi. rewrite Hr in Hi. destruct Hi as [Hv Hp].
  assert (Hother : forall j l', labels !! j = Some l' -> j <> i ->
    gauge status [fst l'; snd l'] (set_gauge status [fst l; snd l] v (metrics m)) = gauge status [fst l'; snd l'] (metrics m)).
  { intros j l' Hj Hne. rewrite gauge_set, decide_False; [done|]. intros [_ He]. by apply Hne, (label_inj j i l' l). }
  split; cbn [metrics reports].
  - cbn. rewrite H1. apply count_ext. intros j _. unfold counted. cbn [metrics reports].
    destruct (decide (j = i)) as [->|Hne]; [by rewrite Hl, Hr, lookup_insert_eq, Hp|].
    rewrite lookup_insert_ne by done. destruct (labels !! j) as [l'|] eqn:Hj; [|done]. by rewrite (Hother j).
  - intros j l' Hj. rewrite last_report_snoc. specialize (H2 j l' Hj). destruct (decide (j = i)) as [->|Hne].
    + rewrite lookup_insert_eq. simplify_eq. split; [done|]. by rewrite gauge_set, decide_True.
    + rewrite lookup_insert_ne by done. by rewrite (Hother j).
  - rewrite last_head_snoc. by read_gauges.
Qed.

Lemma gauge_adjust p v m ls s : gauge m ls (adjust_healthy p v s) = gauge m ls s.
Proof. unfold adjust_healthy. by destruct (is_healthy_status p), (is_healthy_status v). Qed.

Lemma adjust_exact p v s n : 0 <= n < 2 ^ 31 -> HEALTHY_WORKER_COUNT s + Z.b2z (is_healthy_status v) - Z.b2z (is_healthy_status p) = n ->
  0 <= HEALTHY_WORKER_COUNT s ->
  HEALTHY_WORKER_COUNT (adjust_healthy p v s) = n.
Proof.
  intros Hb Heq H0. unfold adjust_healthy. destruct (is_healthy_status p), (is_healthy_status v); cbn [Z.b2z] in *;
    cbn [HEALTHY_WORKER_COUNT set_healthy]; rewrite ?wrap_i32_small; lia.
Qed.

Lemma count_step hist m i l p v : counting hist m -> labels !! i = Some l -> reports m !! i = Some (Written p v) ->
  counting (hist ++ [Resume i]) {| metrics := adjust_healthy p v (metrics m); reports := delete i (reports m) |}.
Proof.
  intros [H1 H2 H3] Hl Hr. pose proof (H2 i l Hl) as Hi. rewrite Hr in Hi. destruct Hi as [Hv Hg].
  split; cbn [metrics reports].
  - pose proof (lookup_lt_Some _ _ _ Hl) as Hlt. pose proof (count_bounds (counted m) (length labels)) as Hb.
    set (m' := {| metrics := _; reports := _ |}).
    assert (Hupd : count (counted m') (length labels) =
      count (counted m) (length labels) + Z.b2z (counted m' i) - Z.b2z (counted m i)).
    { apply count_update; [done|]. intros j Hne. unfold counted, m'. cbn [metrics reports].
      destruct (labels !! j); [|done]. by rewrite lookup_delete_ne, gauge_adjust. }
    assert (Hnew : counted m' i = is_healthy_status v) by (unfold counted, m'; cbn [metrics reports];
      by rewrite Hl, lookup_delete_eq, gauge_adjust, Hg).
    assert (Hold : counted m i = is_healthy_status p) by (unfold counted; by rewrite Hl, Hr).
    pose proof (count_bounds (counted m') (length labels)). apply adjust_exact; [lia|rewrite H1, Hupd, Hnew, Hold; lia|lia].
  - intros j l' Hj. rewrite last_report_snoc, gauge_adjust. specialize (H2 j l' Hj). destruct (decide (j = i)) as [->|Hne].
    + rewrite lookup_delete_eq. simplify_eq. by rewrite Hv.
    + by rewrite lookup_delete_ne.
  - by rewrite last_head_snoc, gauge_adjust.
Qed.

Lemma other_step hist m c : counting hist m ->
  counting (hist ++ [Other c]) {| metrics := perform c (metrics m); reports := reports m |}.
Proof.
  intros [H1 H2 H3]. split; cbn [metrics reports].
  - rewrite perform_healthy, H1. apply count_ext. intros j _. unfold counted. cbn [metrics reports].
    destruct (labels !! j) as [l|]; [|done]. by rewrite perform_status.
  - intros j l Hj. specialize (H2 j l Hj). rewrite last_report_snoc. by rewrite perform_status.
  - rewrite perform_head, last_head_snoc. by destruct c.
Qed.

Lemma acts_counting hist m l m' : counting hist m -> acts labels m l = Some m' -> counting (hist ++ l) m'.
Proof.
  revert hist m. induction l as [|a l IH]; intros hist m Hc; cbn [acts]; [intros [= <-]; by rewrite app_nil_r|].
  intros Ha. destruct (act labels m a) as [m1|] eqn:E; [|done]. cbn in Ha.
  replace (hist ++ a :: l) with ((hist ++ [a]) ++ l) by (by rewrite <- app_assoc). apply (IH _ m1); [|done].
  destruct a as [i v|i|c]; cbn [act] in E.
  - destruct (labels !! i) as [lb|] eqn:Hl; [|done]. cbn in E. destruct (reports m !! i) eqn:Hr; [done|].
    injection E as <-. by apply report_step.
  - destruct (labels !! i) as [lb|] eqn:Hl; [|done]. cbn in E.
    destruct (reports m !! i) as [[p v|p v]|] eqn:Hr; [..|done]; injection E as <-; [by apply write_step|by eapply count_step].
  - injection E as <-. by apply other_step.
Qed.

(** Between reports the endpoint answers for the last status of every worker. *)
Lemma ready_spec l m :
  acts labels (quiet fresh) l = Some m -> reports m = ∅ -> 0 <= default 0 (last_head l) < 2 ^ 53 ->
  fst (health_ready_handler (metrics m)) = 200 <->
    (exists i v, (i < length labels)%nat /\ last_report i l = Some v /\ is_healthy_status v = true) \/
    0 < default 0 (last_head l).
Proof.
  intros Ha Hq Hhead. destruct (acts_counting [] (quiet fresh) l m counting_start Ha) as [H1 H2 H3]. cbn [app] in *.
  assert (Hcounted : forall i, (i < length labels)%nat ->
    counted m i = is_healthy_status (default (f64_of 0) (last_report i l))).
  { intros i Hi. destruct (lookup_lt_is_Some_2 _ _ Hi) as [lb Hlb]. specialize (H2 i lb Hlb).
    unfold counted. rewrite Hlb, Hq, lookup_empty in *. by rewrite H2. }
  unfold health_ready_handler. rewrite H3, f64_of_ltb by lia.
  assert (Hex : 0 < HEALTHY_WORKER_COUNT (metrics m) <->
    exists i v, (i < length labels)%nat /\ last_report i l = Some v /\ is_healthy_status v = true).
  { rewrite H1, count_pos. split.
    - intros (i & Hi & Hc). rewrite Hcounted in Hc by done. exists i. destruct (last_report i l) as [v|]; [|done]. by exists v.
    - intros (i & v & Hi & Hv & Hh). exists i. split; [done|]. by rewrite Hcounted, Hv. }
  rewrite <- Hex. destruct (Z.ltb_spec 0 (HEALTHY_WORKER_COUNT (metrics m))), (Z.ltb_spec 0 (default 0 (last_head l)));
    cbn; split; intros; try done; lia.
Qed.
End Counting.

(** ** The workers of a service *)

Lemma built_batch_distinct c : NoDup (build_batch_projections c).
Proof. unfold build_batch_projections, when. repeat case_match; apply (bool_decide_unpack _); by vm_compute. Qed.

Lemma status_labels_distinct `{EventCodecs} `{Encodings} `{Databases} env s : main env = Running s -> NoDup (status_labels s).
Proof.
  intros Hs. unfold status_labels.
  assert (Hb : forall x, x ∈ map (fun b => (batch_projection_name b, "batch")) (batch_projections s) -> snd x = "batch").
  { intros x Hx. by apply list_elem_of_In, in_map_iff in Hx as (b & <- & _). }
  assert (Hc : forall x, x ∈ match core_entities s with Some _ => [("core_entities", "dual")] | None => [] end -> snd x = "dual").
  { intros x Hx. destruct (core_entities s); [|by apply elem_of_nil in Hx]. by apply list_elem_of_singleton in Hx as ->. }
  apply NoDup_app. split; [by eapply surreal_pairs_distinct|]. split.
  { intros x [k Hk]%elem_of_surreal_pairs Hin. rewrite !elem_of_app in Hin.
    destruct Hin as [Hin%elem_of_pg_pairs|[Hin%Hb|Hin%Hc]]; rewrite Hk in Hin; by destruct k. }
  apply NoDup_app. split; [by eapply pg_pairs_distinct|]. split.
  { intros x Hk%elem_of_pg_pairs Hin. rewrite elem_of_app in Hin. destruct Hin as [Hin%Hb|Hin%Hc]; congruence. }
  apply NoDup_app. split; [|split; [|destruct (core_entities s); repeat constructor; set_solver]].
  - apply main_running in Hs as (c & _ & _ & _ & _ & ->). apply NoDup_fmap_2_strong.
    + intros [] [] _ _; done.
    + apply built_batch_distinct.
  - intros x Hx%Hb Hin%Hc. congruence.
Qed.

(** The coordinator seeds the series of its own workers only: those of the
    core-entities worker, which [main] spawns, appear when it first reports. *)
Lemma seeded_labels `{EventCodecs} `{Encodings} s :
  status_labels s = init_metrics_labels s ++
    match core_entities s with Some _ => [("core_entities", "dual")] | None => [] end.
Proof. unfold status_labels, init_metrics_labels. by rewrite <- !app_assoc. Qed.

(** ** Properties *)

(** C23 (readiness). In a running service, however the reports of its workers and the
    rest of what is recorded interleave, whenever no report is under way
    [/health/ready] answers 200 exactly when some worker last reported that it is
    catching up or live, or the head poller has seen an event: a service in which
    every worker last reported an error is ready as long as its log is not empty. *)
Theorem readiness_follows_workers `{EventCodecs} `{Encodings} `{Databases} (env : Environment) (s : Service)
  (l : list Action) (m : Machine)
  (Hs : main env = Running s) (Hn : Z.of_nat (length (status_labels s)) < 2 ^ 31)
  (Ha : acts (status_labels s) (quiet fresh) l = Some m) (Hquiet : reports m = ∅)
  (Hhead : 0 <= default 0 (last_head l) < 2 ^ 53) :
  fst (health_ready_handler (metrics m)) = 200 <->
    (exists i v, (i < length (status_labels s))%nat /\ last_report i l = Some v /\ is_healthy_status v = true) \/
    0 < default 0 (last_head l).
Proof. apply ready_spec; [by eapply status_labels_distinct|done..]. Qed.

(** [record_status] leaves the gauge at zero alone, it does not clamp the count there. *)
Lemma count_goes_below_zero : HEALTHY_WORKER_COUNT (adjust_healthy (f64_of 2) (f64_of 3) fresh) = -1.
Proof. vm_compute. reflexivity. Qed.

(** ** Concrete runs *)

#[local] Existing Instance sample_codecs.
#[local] Existing Instance demo_encodings.
#[local] Existing Instance demo_databases.

(** Two overlapping reports of live workers; then both fail, with an event in the log. *)
Definition demo_reports : list Action :=
  [Report 0 (f64_of 2); Report 1 (f64_of 2); Resume 0; Resume 1; Other (HeadSequence 7); Resume 1; Resume 0].
Definition demo_failures : list Action :=
  demo_reports ++ [Report 1 (f64_of 3); Resume 1; Report 0 (f64_of 3); Resume 0; Resume 1; Resume 0].

Lemma readiness_follows_workers_witness :
  (exists m, acts (status_labels default_service) (quiet fresh) demo_failures = Some m /\
    (forall i v, last_report i demo_failures = Some v -> is_healthy_status v = false) /\
    fst (health_ready_handler (metrics m)) = 200) /\
  forall m, acts (status_labels default_service) (quiet fresh) demo_reports = Some m -> reports m = ∅ ->
    fst (health_ready_handler (metrics m)) = 200 <->
    (exists i v, (i < length (status_labels default_service))%nat /\ last_report i demo_reports = Some v /\
      is_healthy_status v = true) \/ 0 < default 0 (last_head demo_reports).
Proof.
  split.
  - eexists. split; [vm_compute; reflexivity|]. split; [|vm_compute; reflexivity].
    intros i v. unfold demo_failures, demo_reports. cbn [last_report app].
    repeat case_decide; intros Hv; try done; injection Hv as <-; vm_compute; reflexivity.
  - intros m Hm Hq.
    assert (Hn : Z.of_nat (length (status_labels default_service)) < 2 ^ 31) by (vm_compute; reflexivity).
    assert (Hhead : 0 <= default 0 (last_head demo_reports) < 2 ^ 53) by (vm_compute; split; congruence).
    exact (readiness_follows_workers default_env default_service demo_reports m default_service_runs Hn Hm Hq Hhead).
Defined.
