(* ===== verification/IngestMetrics.v ===== *)
(** * The metrics of the ingestion

    [crates/rindexer-ingestion/src/metrics.rs]: the progress of each event type, against
    a latest block kept per type. The callbacks do not know the latest block and pass
    [None], so what progress is measured against is what [main] fetched when the
    process started or, when it could not, the block of the first delivery. *)

From Stdlib Require Import Floats.SpecFloat.
From S2P Require Import Prelude MachineInt Binary64 Text TxCode Config.

(** The gauges and the counter, one value per [event_type], and [LATEST_BLOCKS]. *)
Record IngestMetrics := {
  events_indexed : gmap string Z;
  sync_progress_percent : gmap string f64;
  current_block : gmap string f64;
  latest_block : gmap string f64;
  blocks_behind : gmap string f64;
  indexing_status : gmap string f64;
  LATEST_BLOCKS : gmap string Z
}.

Definition no_metrics : IngestMetrics := {|
  events_indexed := ∅; sync_progress_percent := ∅; current_block := ∅; latest_block := ∅; blocks_behind := ∅;
  indexing_status := ∅; LATEST_BLOCKS := ∅ |}.

(** [start_block]: [None] for the panic of [expect]. The environment does not change,
    so its [OnceLock] shows in nothing but time. *)
Definition start_block (env : Environment) : option Z :=
  v ← var env "MULTIVAULT_START_BLOCK";
  match from_str U64_MAX v with Ok n => Some n | Err _ => None end.

Definition saturating_sub_u64 (a b : Z) : Z := Z.max (a - b) 0.

Definition set_latest_block (event_type : string) (latest : Z) (s : IngestMetrics) : IngestMetrics := {|
  events_indexed := events_indexed s; sync_progress_percent := sync_progress_percent s;
  current_block := current_block s; latest_block := latest_block s; blocks_behind := blocks_behind s;
  indexing_status := indexing_status s; LATEST_BLOCKS := <[event_type := latest]> (LATEST_BLOCKS s) |}.

Definition count_events (event_type : string) (count : Z) (s : IngestMetrics) : IngestMetrics := {|
  events_indexed := <[event_type := wrapping_add_u64 (default 0 (events_indexed s !! event_type)) count]> (events_indexed s);
  sync_progress_percent := sync_progress_percent s; current_block := current_block s; latest_block := latest_block s;
  blocks_behind := blocks_behind s; indexing_status := indexing_status s; LATEST_BLOCKS := LATEST_BLOCKS s |}.

Definition update_progress (event_type : string) (current latest : Z) (progress : f64) (s : IngestMetrics) : IngestMetrics :=
  let behind := saturating_sub_u64 latest current in
  let status := if SFleb (f64_of 100) progress then f64_of 2 else f64_of 1 in
  {| events_indexed := events_indexed s;
     sync_progress_percent := <[event_type := progress]> (sync_progress_percent s);
     current_block := <[event_type := f64_of current]> (current_block s);
     latest_block := <[event_type := f64_of latest]> (latest_block s);
     blocks_behind := <[event_type := f64_of behind]> (blocks_behind s);
     indexing_status := <[event_type := status]> (indexing_status s);
     LATEST_BLOCKS := LATEST_BLOCKS s |}.

Definition progress_of (start block latest : Z) : f64 :=
  let total_blocks := saturating_sub_u64 latest start in
  let processed_blocks := saturating_sub_u64 block start in
  if 0 <? total_blocks then f64_min (percent (f64_of processed_blocks) (f64_of total_blocks)) (f64_of 100)
  else f64_of 100.

Section Recording.
Context (env : Environment).

(** A panic leaves what was recorded before it: the counter and the latest block. *)
Definition record_events_with_block (event_type : string) (count block_number : Z) (latest : option Z)
    (s : IngestMetrics) : outcome unit * IngestMetrics :=
  let s := count_events event_type count s in
  let effective_latest := match latest with
                          | Some latest => latest
                          | None => default block_number (LATEST_BLOCKS s !! event_type)
                          end in
  let s := set_latest_block event_type effective_latest s in
  match start_block env with
  | None => (Panicked, s)
  | Some start =>
      (Done tt, update_progress event_type block_number effective_latest (progress_of start block_number effective_latest) s)
  end.
End Recording.

Definition event_types : list string :=
  ["AtomCreated"; "AtomContextRegistered"; "TripleCreated"; "Deposited"; "Redeemed"; "SharePriceChanged";
   "ProtocolFeeAccrued"].

(** [start_metrics_server], before it serves. *)
Definition initialise (s : IngestMetrics) : IngestMetrics :=
  foldl (fun s event_type => {|
    events_indexed := events_indexed s;
    sync_progress_percent := <[event_type := f64_of 0]> (sync_progress_percent s);
    current_block := current_block s; latest_block := latest_block s; blocks_behind := blocks_behind s;
    indexing_status := <[event_type := f64_of 0]> (indexing_status s);
    LATEST_BLOCKS := LATEST_BLOCKS s |}) s event_types.

(** ** Lemmas *)

Lemma progress_done start block latest : 0 <= start -> start <= block < 2 ^ 53 -> latest < 2 ^ 53 ->
  SFleb (f64_of 100) (progress_of start block latest) = (latest <=? block).
Proof.
  intros Hs Hb Hl. unfold progress_of, saturating_sub_u64. destruct (Z.ltb_spec 0 (Z.max (latest - start) 0)) as [H|H].
  - rewrite percent_done by lia. destruct (Z.leb_spec (Z.max (latest - start) 0) (Z.max (block - start) 0)),
      (Z.leb_spec latest block); done || lia.
  - vm_compute (SFleb _ _). symmetry. apply Z.leb_le. lia.
Qed.

(** The deliveries of one process: event type, number of events and highest block of
    each callback, in the order they are recorded. *)
Abbreviation deliveries := (list (string * Z * Z)).

Definition deliver (env : Environment) (s : IngestMetrics) (l : deliveries) : IngestMetrics :=
  foldl (fun s d => snd (record_events_with_block env (fst (fst d)) (snd (fst d)) (snd d) None s)) s l.

(** The block of the first delivery of a type, and of the last. *)
Definition blocks_of (event_type : string) (l : deliveries) : list Z :=
  omap (fun d => if decide (fst (fst d) = event_type) then Some (snd d) else None) l.

Lemma deliver_snoc env s l d :
  deliver env s (l ++ [d]) = snd (record_events_with_block env (fst (fst d)) (snd (fst d)) (snd d) None (deliver env s l)).
Proof. unfold deliver. by rewrite foldl_app. Qed.

Lemma blocks_snoc ty l d : blocks_of ty (l ++ [d]) =
  blocks_of ty l ++ (if decide (fst (fst d) = ty) then [snd d] else []).
Proof. unfold blocks_of. rewrite omap_app. cbn. by case_decide. Qed.

(** What the latest block of a type is: what was set before, or the first delivery. *)
Lemma latest_kept env s l ty :
  LATEST_BLOCKS (deliver env s l) !! ty =
    match LATEST_BLOCKS s !! ty with Some n => Some n | None => head (blocks_of ty l) end.
Proof.
  induction l as [|d l IH] using rev_ind; [cbn; by destruct (LATEST_BLOCKS s !! ty)|].
  rewrite deliver_snoc, blocks_snoc. unfold record_events_with_block.
  assert (E : forall s', LATEST_BLOCKS s' !! ty = LATEST_BLOCKS (deliver env s l) !! ty ->
    <[fst (fst d) := default (snd d) (LATEST_BLOCKS s' !! fst (fst d))]> (LATEST_BLOCKS s') !! ty =
    match LATEST_BLOCKS s !! ty with
    | Some n => Some n
    | None => head (blocks_of ty l ++ (if decide (fst (fst d) = ty) then [snd d] else []))
    end).
  { intros s' Hs'. destruct (decide (fst (fst d) = ty)) as [E|Hne].
    - rewrite E, lookup_insert_eq, Hs', IH. destruct (LATEST_BLOCKS s !! ty); [done|]. by destruct (blocks_of ty l).
    - rewrite lookup_insert_ne by done. rewrite Hs', IH, app_nil_r. done. }
  destruct (start_block env); by apply (E (count_events (fst (fst d)) (snd (fst d)) (deliver env s l))).
Qed.

(** The gauges of a type after its last delivery. *)
Lemma gauges_of_last env s l ty start b :
  start_block env = Some start -> last (blocks_of ty l) = Some b ->
  let n := default b (LATEST_BLOCKS (deliver env s l) !! ty) in
  blocks_behind (deliver env s l) !! ty = Some (f64_of (saturating_sub_u64 n b)) /\
  latest_block (deliver env s l) !! ty = Some (f64_of n) /\
  indexing_status (deliver env s l) !! ty =
    Some (if SFleb (f64_of 100) (progress_of start b n) then f64_of 2 else f64_of 1).
Proof.
  intros Hstart. induction l as [|d l IH] using rev_ind; [done|].
  rewrite blocks_snoc, deliver_snoc. unfold record_events_with_block. rewrite Hstart.
  set (s' := deliver env s l) in *. cbn [snd]. destruct (decide (fst (fst d) = ty)) as [E|Hne].
  - rewrite E, last_snoc. intros [= <-]. cbn. rewrite !lookup_insert_eq. done.
  - rewrite app_nil_r. intros Hb. specialize (IH Hb). cbn. by rewrite !lookup_insert_ne by done.
Qed.

(** ** Properties *)

(** C29 (progress). However many deliveries there are, the progress of an event type is
    measured against the latest block [main] set when the process started or, without
    one, against the block of the type's first delivery: from its last delivery on, at
    block [b], the type is [b] short of that block and no more, and it is completed
    exactly when it has reached it, wherever the head of the chain has got to. *)
Theorem progress_measured_from_start (env : Environment) (s : IngestMetrics) (l : deliveries) (ty : string)
  (start n b : Z)
  (Hstart : start_block env = Some start) (Hb : last (blocks_of ty l) = Some b)
  (Hn : match LATEST_BLOCKS s !! ty with Some n => Some n | None => head (blocks_of ty l) end = Some n)
  (Hrange : 0 <= start <= b) (Hsmall : b < 2 ^ 53) (Hnsmall : n < 2 ^ 53) :
  blocks_behind (deliver env s l) !! ty = Some (f64_of (Z.max (n - b) 0)) /\
  latest_block (deliver env s l) !! ty = Some (f64_of n) /\
  indexing_status (deliver env s l) !! ty = Some (f64_of (if n <=? b then 2 else 1)).
Proof.
  pose proof (gauges_of_last env s l ty start b Hstart Hb) as Hg. rewrite latest_kept, Hn in Hg. cbn in Hg.
  destruct Hg as (-> & -> & ->). rewrite progress_done by lia. split; [done|]. split; [done|]. by destruct (n <=? b).
Qed.

(** ** A concrete process *)

Definition demo_ingest_env : Environment := {["MULTIVAULT_START_BLOCK" := "100"]}.
(** The head could not be fetched, and the first callback delivers block 150: at block
    9000000 the type has long been completed, and is at 149 again when it is delivered. *)
Definition demo_deliveries : deliveries :=
  [("Deposited", 10, 150); ("AtomCreated", 1, 160); ("Deposited", 5000, 9000000); ("Deposited", 1, 149)].

Lemma progress_measured_from_start_witness :
  (blocks_behind (deliver demo_ingest_env no_metrics (take 3 demo_deliveries)) !! "Deposited" = Some (f64_of 0) /\
   indexing_status (deliver demo_ingest_env no_metrics (take 3 demo_deliveries)) !! "Deposited" = Some (f64_of 2)) /\
  (blocks_behind (deliver demo_ingest_env no_metrics demo_deliveries) !! "Deposited" = Some (f64_of 1) /\
   latest_block (deliver demo_ingest_env no_metrics demo_deliveries) !! "Deposited" = Some (f64_of 150) /\
   indexing_status (deliver demo_ingest_env no_metrics demo_deliveries) !! "Deposited" = Some (f64_of 1)).
Proof.
  split; [vm_compute; done|].
  exact (progress_measured_from_start demo_ingest_env no_metrics demo_deliveries "Deposited" 100 150 149
    eq_refl eq_refl eq_refl ltac:(lia) ltac:(lia) ltac:(lia)).
Defined.
