(* ===== verification/IndexerGlue.v ===== *)
(** * From raw logs to the callbacks

    [typings/be_v_3_indexer/events/multi_vault.rs], [typings/networks.rs] and the
    registration half of [handlers.rs], all of [crates/rindexer-ingestion]: each event is
    registered under its topic with a decoder and a callback; rindexer fetches the logs
    of that topic, decodes each and hands them to the callback, which downcasts them,
    runs the handler of IngestHandlers and records the progress. *)

From S2P Require Import Prelude MachineInt Text Events PgTx TxCode Ingestion.
From S2P Require Import IngestHandlers Config MultiVaultAbi IngestMetrics.

(** ** The types [sol!] generates

    From the values of a log, in the order of the ABI's inputs. *)
Definition atom_created_data (vs : list SolValue) : option AtomCreatedData :=
  match vs with
  | [SAddress creator; SFixed termId; SBytes atomData; SAddress atomWallet] =>
      Some {| ac_creator' := creator; ac_termId := termId; ac_atomData := atomData; ac_atomWallet := atomWallet |}
  | _ => None
  end.
Definition atom_context_registered_data (vs : list SolValue) : option AtomContextRegisteredData :=
  match vs with
  | [SFixed termId; SAddress registrant; SBytesArray uris] =>
      Some {| acr_registrant' := registrant; acr_termId := termId; acr_uris' := uris |}
  | _ => None
  end.
Definition triple_created_data (vs : list SolValue) : option TripleCreatedData :=
  match vs with
  | [SAddress creator; SFixed termId; SFixed subjectId; SFixed predicateId; SFixed objectId] =>
      Some {| tc_creator' := creator; tc_termId := termId; tc_subjectId := subjectId; tc_predicateId := predicateId;
              tc_objectId := objectId |}
  | _ => None
  end.
Definition deposited_data (vs : list SolValue) : option DepositedData :=
  match vs with
  | [SAddress sender; SAddress receiver; SFixed termId; SUint curveId; SUint assets; SUint assetsAfterFees;
     SUint shares; SUint totalShares; SUint vaultType] =>
      Some {| dep_sender' := sender; dep_receiver' := receiver; dep_termId := termId; dep_curveId := curveId;
              dep_assets' := assets; dep_assetsAfterFees := assetsAfterFees; dep_shares' := shares;
              dep_totalShares := totalShares; dep_vaultType := vaultType |}
  | _ => None
  end.
Definition redeemed_data (vs : list SolValue) : option RedeemedData :=
  match vs with
  | [SAddress sender; SAddress receiver; SFixed termId; SUint curveId; SUint shares; SUint totalShares;
     SUint assets; SUint fees; SUint vaultType] =>
      Some {| red_sender' := sender; red_receiver' := receiver; red_termId := termId; red_curveId := curveId;
              red_shares' := shares; red_totalShares := totalShares; red_assets' := assets; red_fees' := fees;
              red_vaultType := vaultType |}
  | _ => None
  end.
Definition share_price_changed_data (vs : list SolValue) : option SharePriceChangedData :=
  match vs with
  | [SFixed termId; SUint curveId; SUint sharePrice; SUint totalAssets; SUint totalShares; SUint vaultType] =>
      Some {| spc_termId := termId; spc_curveId := curveId; spc_sharePrice := sharePrice;
              spc_totalAssets := totalAssets; spc_totalShares := totalShares; spc_vaultType := vaultType |}
  | _ => None
  end.
Definition protocol_fee_accrued_data (vs : list SolValue) : option ProtocolFeeAccruedData :=
  match vs with
  | [SUint epoch; SAddress sender; SUint amount] =>
      Some {| pfa_epoch' := epoch; pfa_sender' := sender; pfa_amount' := amount |}
  | _ => None
  end.

Section Indexer.
Context `{Encodings} `{AlloyFormat} `{Alloy}.

(** ** Decoding

    [Arc<dyn Any>]: the data of one of the events, or the error of its decoder. *)
Inductive Decoded :=
  | AnyAtomCreated (d : AtomCreatedData)
  | AnyAtomContextRegistered (d : AtomContextRegisteredData)
  | AnyTripleCreated (d : TripleCreatedData)
  | AnyDeposited (d : DepositedData)
  | AnyRedeemed (d : RedeemedData)
  | AnySharePriceChanged (d : SharePriceChangedData)
  | AnyProtocolFeeAccrued (d : ProtocolFeeAccruedData)
  | AnyError (e : option SolError).

Definition any_of (self : MultiVaultEventType) (vs : list SolValue) : option Decoded :=
  match self with
  | AtomContextRegistered => AnyAtomContextRegistered <$> atom_context_registered_data vs
  | AtomCreated => AnyAtomCreated <$> atom_created_data vs
  | Deposited => AnyDeposited <$> deposited_data vs
  | ProtocolFeeAccrued => AnyProtocolFeeAccrued <$> protocol_fee_accrued_data vs
  | Redeemed => AnyRedeemed <$> redeemed_data vs
  | SharePriceChanged => AnySharePriceChanged <$> share_price_changed_data vs
  | TripleCreated => AnyTripleCreated <$> triple_created_data vs
  end.

(** [MultiVaultEventType::decoder]. The derived decoder answers values of the declared
    types, so the last case does not arise ([any_of_well_typed]). *)
Definition decoder (self : MultiVaultEventType) (topics : list string) (data : string) : Decoded :=
  match decode_raw_log (event_abi self) topics data with
  | Ok vs => default (AnyError None) (any_of self vs)
  | Err error => AnyError (Some error)
  end.

Record EventResult := { decoded_data : Decoded; tx_information : TxInformation }.

(** ** The callbacks *)

Context {W : Type} `{Clock W} `{ReadPool IngestTables W}.
Context (env : Environment) (handler_chunk_size bulk_chunk_size : nat).

Definition state : Type := W * IngestMetrics.
Definition callback_type : Type := list EventResult -> state -> outcome unit * state.

(** [EventCallback::call], the same for every event. *)
Definition call {D} (downcast : Decoded -> option D)
    (callback : list (TxInformation * D) -> state -> outcome unit * state) (events : list EventResult) (s : state)
    : outcome unit * state :=
  let events_len := length events in
  let result := omap (fun item => arc ← downcast (decoded_data item); Some (tx_information item, arc)) events in
  if decide (length result = events_len) then callback result s
  else (Panicked, s).

(** The closure a handler is built with: convert and store, then record the highest block. *)
Definition custom_logic {D R K} `{TypedTable R K} (name : string) (convert : D -> Envelope -> EventRecord * R)
    (results : list (TxInformation * D)) (s : state) : outcome unit * state :=
  let '(w, m) := s in
  match results with
  | [] => (Done tt, s)
  | _ =>
      let total := Z.of_nat (length results) in
      let '(o, w) := handler handler_chunk_size bulk_chunk_size convert results w in
      match o with
      | Done _ =>
          let max_block := foldr Z.max 0 (map (fun r => tx_block_number (fst r)) results) in
          let '(o, m) := record_events_with_block env name total max_block None m in
          (o, (w, m))
      | Failed e => (Failed e, (w, m))
      | Panicked => (Panicked, (w, m))
      end
  end.

Definition downcast_atom_created (d : Decoded) : option AtomCreatedData :=
  match d with AnyAtomCreated d => Some d | _ => None end.
Definition downcast_atom_context_registered (d : Decoded) : option AtomContextRegisteredData :=
  match d with AnyAtomContextRegistered d => Some d | _ => None end.
Definition downcast_triple_created (d : Decoded) : option TripleCreatedData :=
  match d with AnyTripleCreated d => Some d | _ => None end.
Definition downcast_deposited (d : Decoded) : option DepositedData :=
  match d with AnyDeposited d => Some d | _ => None end.
Definition downcast_redeemed (d : Decoded) : option RedeemedData :=
  match d with AnyRedeemed d => Some d | _ => None end.
Definition downcast_share_price_changed (d : Decoded) : option SharePriceChangedData :=
  match d with AnySharePriceChanged d => Some d | _ => None end.
Definition downcast_protocol_fee_accrued (d : Decoded) : option ProtocolFeeAccruedData :=
  match d with AnyProtocolFeeAccrued d => Some d | _ => None end.

Definition atom_context_registered_event : callback_type :=
  call downcast_atom_context_registered (custom_logic "AtomContextRegistered" atom_context_registered).
Definition atom_created_event : callback_type := call downcast_atom_created (custom_logic "AtomCreated" atom_created).
Definition deposited_event : callback_type := call downcast_deposited (custom_logic "Deposited" deposited).
Definition protocol_fee_accrued_event : callback_type :=
  call downcast_protocol_fee_accrued (custom_logic "ProtocolFeeAccrued" protocol_fee_accrued).
Definition redeemed_event : callback_type := call downcast_redeemed (custom_logic "Redeemed" redeemed).
Definition share_price_changed_event : callback_type :=
  call downcast_share_price_changed (custom_logic "SharePriceChanged" share_price_changed).
Definition triple_created_event : callback_type :=
  call downcast_triple_created (custom_logic "TripleCreated" triple_created).

Definition event_callback (self : MultiVaultEventType) : callback_type :=
  match self with
  | AtomContextRegistered => atom_context_registered_event
  | AtomCreated => atom_created_event
  | Deposited => deposited_event
  | ProtocolFeeAccrued => protocol_fee_accrued_event
  | Redeemed => redeemed_event
  | SharePriceChanged => share_price_changed_event
  | TripleCreated => triple_created_event
  end.
End Indexer.

(** ** Registration

    The manifest of rindexer, as far as it is read here. *)
Record ContractDetails := { network : string; cd_start_block : option Z; cd_end_block : option Z }.
Record Contract := {
  ct_name : string;
  before_modify_name_if_filter_readonly : string;
  details : list ContractDetails;
  index_event_in_order : option (list string);
  abi : string;
  reorg_safe_distance : option Z
}.
Record Network := { nw_name : string; nw_disable_logs_bloom_checks : option bool }.
Record Manifest := {
  manifest_name : string;
  timestamps : option bool;
  timestamp_sample_rate : option Z;
  all_contracts : list Contract;
  networks : list Network
}.

(** What rindexer provides: reading a manifest, connecting to a node, and the set-up of
    a contract. A [None] of the first two is an error the code panics on. *)
Class Rindexer := {
  Provider : Type;
  IndexingContractSetup : Type;
  read_manifest : string -> option Manifest;
  create_client : string -> Z -> option Provider;
  indexing_contract_setup : ContractDetails -> string -> IndexingContractSetup
}.

Section Registration.
Context `{Encodings} `{AlloyFormat} `{Alloy} `{Rindexer} {W : Type} `{Clock W} `{ReadPool IngestTables W}.
Context (env : Environment) (handler_chunk_size bulk_chunk_size : nat).

Abbreviation callback := (@callback_type _ W).

(** [id]s are random and left out, and the block clock is what it is built from. *)
Record NetworkContract := {
  nc_network : string;
  cached_provider : Provider;
  block_clock : option bool * option Z * Provider;
  nc_decoder : list string -> string -> Decoded;
  nc_setup : IndexingContractSetup;
  nc_start_block : option Z;
  nc_end_block : option Z;
  disable_logs_bloom_checks : bool
}.
Record ContractInformation := {
  ci_name : string;
  ci_details : list NetworkContract;
  ci_abi : string;
  ci_reorg_safe_distance : Z
}.
Record EventCallbackRegistryInformation := {
  indexer_name : string;
  info_event_name : string;
  info_index_event_in_order : bool;
  info_topic_id : string;
  contract : ContractInformation;
  info_callback : callback
}.

(** [networks.rs]; [None] for a panic. *)
Definition get_intuition_provider_cache : option Provider :=
  rpc_url ← var env "INTUITION_RPC_URL";
  chain_id ← var env "CHAIN_ID";
  match from_str U64_MAX chain_id with
  | Ok chain_id => create_client rpc_url chain_id
  | Err _ => None
  end.

Definition get_provider_cache_for_network (network : string) : option Provider :=
  if String.eqb network "intuition" then get_intuition_provider_cache else None.

(** [HashMap::insert] of the provider of each network, in order. *)
Fixpoint get_providers (details : list ContractDetails) (providers : gmap string Provider)
    : option (gmap string Provider) :=
  match details with
  | [] => Some providers
  | n :: details =>
      provider ← get_provider_cache_for_network (network n);
      get_providers details (<[network n := provider]> providers)
  end.

Definition network_contract (self : MultiVaultEventType) (manifest : Manifest) (manifest_path : string)
    (providers : gmap string Provider) (c : ContractDetails) : option NetworkContract :=
  provider ← providers !! network c;
  Some {| nc_network := network c; cached_provider := provider;
          block_clock := (timestamps manifest, timestamp_sample_rate manifest, provider);
          nc_decoder := decoder self; nc_setup := indexing_contract_setup c manifest_path;
          nc_start_block := cd_start_block c; nc_end_block := cd_end_block c;
          disable_logs_bloom_checks :=
            match List.find (fun n => String.eqb (nw_name n) (network c)) (networks manifest) with
            | Some n => default false (nw_disable_logs_bloom_checks n)
            | None => false
            end |}.

Definition registered (self : MultiVaultEventType) (manifest_path : string) : option EventCallbackRegistryInformation :=
  manifest ← read_manifest manifest_path;
  contract_details ← List.find (fun c => String.eqb (ct_name c) (contract_name self)) (all_contracts manifest);
  providers ← get_providers (details contract_details) ∅;
  contracts ← mapM (network_contract self manifest manifest_path providers) (details contract_details);
  topic ← parse_b256 (topic_id self);
  Some {| indexer_name := "be_v3_indexer"; info_event_name := event_name self;
          info_index_event_in_order :=
            match index_event_in_order contract_details with
            | Some vec => existsb (String.eqb (event_name self)) vec
            | None => false
            end;
          info_topic_id := topic;
          contract := {| ci_name := before_modify_name_if_filter_readonly contract_details; ci_details := contracts;
                         ci_abi := abi contract_details;
                         ci_reorg_safe_distance := default 0 (reorg_safe_distance contract_details) |};
          info_callback := event_callback env handler_chunk_size bulk_chunk_size self |}.

Abbreviation EventCallbackRegistry := (list EventCallbackRegistryInformation).

(** [MultiVaultEventType::register] *)
Definition register (self : MultiVaultEventType) (manifest_path : string) (registry : EventCallbackRegistry)
    : option EventCallbackRegistry :=
  info ← registered self manifest_path;
  Some (registry ++ [info]).

(** The registrations of [start_indexer], in order. *)
Definition registered_events : list MultiVaultEventType :=
  [AtomCreated; AtomContextRegistered; TripleCreated; Deposited; Redeemed; SharePriceChanged; ProtocolFeeAccrued].

Fixpoint register_all (events : list MultiVaultEventType) (manifest_path : string) (registry : EventCallbackRegistry)
    : option EventCallbackRegistry :=
  match events with
  | [] => Some registry
  | e :: events => registry ← register e manifest_path registry; register_all events manifest_path registry
  end.

(** [start_indexer]: its look at the manifest only logs. [start_rindexer] runs until it
    fails or is told to stop. *)
Definition start_indexer (start_rindexer : string -> EventCallbackRegistry -> result unit string) (manifest_path : string)
    : outcome EventCallbackRegistry :=
  match register_all registered_events manifest_path [] with
  | None => Panicked
  | Some registry =>
      match start_rindexer manifest_path registry with
      | Err e => Failed ("rindexer error: " +:+ e)
      | Ok _ => Done registry
      end
  end.

(** ** Lemmas *)

Lemma get_providers_spec ds providers ps :
  get_providers ds providers = Some ps ->
  (forall n, is_Some (providers !! n) -> is_Some (ps !! n)) /\ (forall d, d ∈ ds -> is_Some (ps !! network d)).
Proof.
  revert providers. induction ds as [|d ds IH]; intros providers; cbn [get_providers].
  - intros [= <-]. split; [done|]. by intros d ?%elem_of_nil.
  - destruct (get_provider_cache_for_network (network d)) as [p|]; [|done]. cbn. intros [Hk Hin]%IH.
    assert (Hd : forall n, is_Some (providers !! n) \/ n = network d -> is_Some (ps !! n)).
    { intros n Hn. apply Hk. destruct (decide (n = network d)) as [->|Hne]; [by rewrite lookup_insert_eq|].
      rewrite lookup_insert_ne by done. by destruct Hn. }
    split; [auto|]. intros d' [->|Hd']%elem_of_cons; [auto|by apply Hin].
Qed.

Lemma get_providers_ok ds providers :
  (exists ps, get_providers ds providers = Some ps) <->
  (forall d, d ∈ ds -> network d = "intuition" /\ is_Some get_intuition_provider_cache).
Proof.
  revert providers. induction ds as [|d ds IH]; intros providers; cbn [get_providers].
  - split; [by intros _ d ?%elem_of_nil|by eexists].
  - unfold get_provider_cache_for_network at 1. split.
    + intros (ps & Hps). destruct (String.eqb_spec (network d) "intuition") as [E|]; [|done].
      destruct get_intuition_provider_cache as [p|] eqn:Ep; [|done]. cbn in Hps.
      intros d' [->|Hd']%elem_of_cons; [by split|]. by apply (proj1 (IH _) (ex_intro _ ps Hps)).
    + intros Hds. destruct (Hds d ltac:(left)) as [-> [p Ep]]. rewrite Ep. cbn. apply IH. intros d' Hd'. apply Hds. by right.
Qed.

(** What one registration needs, and what it stores. *)
Lemma registered_spec (L : AlloyLaws) self path info : registered self path = Some info ->
  info_event_name info = event_name self /\ info_topic_id info = keccak256 (signature (event_abi self)) /\
  info_callback info = event_callback env handler_chunk_size bulk_chunk_size self /\
  forall c, c ∈ ci_details (contract info) -> nc_decoder c = decoder self.
Proof.
  unfold registered. destruct (read_manifest path) as [mf|]; [|done]. cbn.
  destruct (List.find _ _) as [ct|]; [|done]. cbn. destruct (get_providers _ _) as [ps|]; [|done]. cbn.
  destruct (mapM _ _) as [cs|] eqn:Hcs; [|done]. cbn. rewrite topic_hashes, law_parse_b256 by (done || apply topic_length).
  intros [= <-]. cbn. split_and!; try done. intros c Hc. apply mapM_Some in Hcs.
  apply list_elem_of_lookup in Hc as [i Hi]. destruct (Forall2_lookup_r _ _ _ _ _ Hcs Hi) as (d & _ & Hd).
  unfold network_contract in Hd. destruct (ps !! network d); [|done]. by injection Hd as <-.
Qed.

Lemma register_all_spec events path registry registry' :
  register_all events path registry = Some registry' ->
  exists infos, registry' = registry ++ infos /\ Forall2 (fun e info => registered e path = Some info) events infos.
Proof.
  revert registry. induction events as [|e events IH]; intros registry; cbn [register_all].
  - intros [= <-]. exists []. by rewrite app_nil_r.
  - unfold register. destruct (registered e path) as [info|] eqn:E; [|done]. cbn.
    intros (infos & -> & Hinfos)%IH. exists (info :: infos). rewrite <- app_assoc. split; [done|by constructor].
Qed.

(** The registrations succeed when the manifest describes the contract, on this network
    only, and the environment and the node let a client be made. *)
Definition registrable (path : string) : Prop :=
  exists manifest ct, read_manifest path = Some manifest /\
    List.find (fun c => String.eqb (ct_name c) "MultiVault") (all_contracts manifest) = Some ct /\
    forall d, d ∈ details ct -> network d = "intuition" /\ is_Some get_intuition_provider_cache.

Lemma registered_ok (L : AlloyLaws) self path : is_Some (registered self path) <-> registrable path.
Proof.
  unfold registered, registrable, contract_name. destruct (read_manifest path) as [mf|]; cbn.
  2: { split; [by intros [? ?]|by intros (? & ? & ? & _)]. }
  destruct (List.find _ (all_contracts mf)) as [ct|] eqn:Ect; cbn.
  2: { split; [by intros [? ?]|]. intros (? & ? & [= <-] & E & _). congruence. }
  rewrite topic_hashes, law_parse_b256 by (done || apply topic_length). split.
  - destruct (get_providers _ _) as [ps|] eqn:Eps; cbn; [intros _|by intros [? ?]].
    exists mf, ct. split_and!; [done..|]. by apply (proj1 (get_providers_ok _ _) (ex_intro _ ps Eps)).
  - intros (mf' & ct' & [= <-] & E & Hd). assert (ct' = ct) as -> by congruence.
    destruct (proj2 (get_providers_ok (details ct) ∅) Hd) as [ps Hps]. rewrite Hps. cbn.
    destruct (get_providers_spec _ _ _ Hps) as [_ Hin].
    assert (Hm : is_Some (mapM (network_contract self mf path ps) (details ct))).
    { apply mapM_is_Some. apply Forall_forall. intros d Hd'. destruct (Hin d Hd') as [p Hp].
      change (is_Some (network_contract self mf path ps d)). unfold network_contract. rewrite Hp. by eexists. }
    destruct Hm as [cs ->]. by eexists.
Qed.

Lemma register_all_ok (L : AlloyLaws) events path registry : events <> [] ->
  is_Some (register_all events path registry) <-> registrable path.
Proof.
  intros Hne. split.
  - destruct events as [|e events]; [done|]. cbn [register_all]. unfold register.
    destruct (registered e path) as [info|] eqn:E; [intros _; apply (registered_ok L e); by eexists|by intros [? ?]].
  - intros Hr. clear Hne. revert registry. induction events as [|e events IH]; intros registry; [by eexists|].
    cbn [register_all]. unfold register. destruct (proj2 (registered_ok L e path) Hr) as [info ->]. apply IH.
Qed.
End Registration.
