(* ===== verification/IndexedLogs.v ===== *)
(** * The logs of the contract, stored

    The pieces of the ingestion put together: the registry [start_indexer] builds, the
    logs the contract emits under the topic of a registered event, the decoder and the
    callback of that event, and the tables. *)

From S2P Require Import Prelude MachineInt Text Events PgTx TxCode PgCommon DemoWorld DemoDatabase.
From S2P Require Import Ingestion IngestHandlers Config MultiVaultAbi IngestMetrics IndexerGlue.

(** ** Uniform in the event *)

Section Uniform.
Context `{Encodings} `{AlloyFormat}.

(** The [event_store] record of a log with these values. *)
Definition record_of (self : MultiVaultEventType) (vs : list SolValue) (e : Envelope) : option EventRecord :=
  match self with
  | AtomContextRegistered => d ← atom_context_registered_data vs; Some (fst (atom_context_registered d e))
  | AtomCreated => d ← atom_created_data vs; Some (fst (atom_created d e))
  | Deposited => d ← deposited_data vs; Some (fst (deposited d e))
  | ProtocolFeeAccrued => d ← protocol_fee_accrued_data vs; Some (fst (protocol_fee_accrued d e))
  | Redeemed => d ← redeemed_data vs; Some (fst (redeemed d e))
  | SharePriceChanged => d ← share_price_changed_data vs; Some (fst (share_price_changed d e))
  | TripleCreated => d ← triple_created_data vs; Some (fst (triple_created d e))
  end.

Abbreviation row_in R e t := (is_Some (table (R := R) t !! conflict_key (R := R) e)).

(** The typed table of the event has a row for a log with this envelope. *)
Definition typed_row (self : MultiVaultEventType) (e : Envelope) (t : IngestTables) : Prop :=
  match self with
  | AtomContextRegistered => row_in AtomContextRegisteredTyped e t
  | AtomCreated => row_in AtomCreatedTyped e t
  | Deposited => row_in DepositedTyped e t
  | ProtocolFeeAccrued => row_in ProtocolFeeAccruedTyped e t
  | Redeemed => row_in RedeemedTyped e t
  | SharePriceChanged => row_in SharePriceChangedTyped e t
  | TripleCreated => row_in TripleCreatedTyped e t
  end.

Abbreviation log := (TxInformation * list SolValue)%type.

Definition log_stored (self : MultiVaultEventType) (t : IngestTables) (x : log) : Prop :=
  exists e, envelope_for (fst x) e /\ is_Some (canonical_sequence t (full_key e)) /\ typed_row self e t.

Definition log_stuck (t : IngestTables) (x : log) : Prop :=
  to_i32 (tx_log_index (fst x)) = None \/
  exists e row, envelope_for (fst x) e /\ event_store t !! full_key e = Some row /\ sr_is_canonical row = false.

(** The same for a typed table: rows stay; a new one is the typed form of one of the logs,
    under the key of the log, with the number of the log's row in [event_store]; and no
    table but this one and [event_store] is written. *)
Definition typed_adds {D R K} `{TypedTable R K} (data_of : list SolValue -> option D)
    (convert : D -> Envelope -> EventRecord * R) (logs : list log) (t t' : IngestTables) : Prop :=
  (forall k (row : Z * R), table t !! k = Some row -> table t' !! k = Some row) /\
  (forall k s (r : R), table t' !! k = Some (s, r) -> table t !! k = Some (s, r) \/
    exists x e d, x ∈ logs /\ envelope_for (fst x) e /\ data_of (snd x) = Some d /\ k = conflict_key e /\
      r = snd (convert d e) /\ canonical_sequence t' (full_key e) = Some s) /\
  t' = set_table (table t') (with_store (event_store t') (next_sequence t') t).

(** The typed table of the event. *)
Definition typed_only_adds (self : MultiVaultEventType) : list log -> IngestTables -> IngestTables -> Prop :=
  match self with
  | AtomContextRegistered => typed_adds atom_context_registered_data atom_context_registered
  | AtomCreated => typed_adds atom_created_data atom_created
  | Deposited => typed_adds deposited_data deposited
  | ProtocolFeeAccrued => typed_adds protocol_fee_accrued_data protocol_fee_accrued
  | Redeemed => typed_adds redeemed_data redeemed
  | SharePriceChanged => typed_adds share_price_changed_data share_price_changed
  | TripleCreated => typed_adds triple_created_data triple_created
  end.

(** Every row that was there is, and a new one is canonical and what one of the logs
    converts to, under the key of that log; so for the typed table of the event, and the
    other typed tables are not written. *)
Definition only_adds (self : MultiVaultEventType) (logs : list log) (t t' : IngestTables) : Prop :=
  (forall k row, event_store t !! k = Some row -> event_store t' !! k = Some row) /\
  (forall k row, event_store t' !! k = Some row -> event_store t !! k = Some row \/
    exists x e, x ∈ logs /\ envelope_for (fst x) e /\ k = full_key e /\
      record_of self (snd x) e = Some (sr_record row) /\ sr_is_canonical row = true) /\
  typed_only_adds self logs t t'.
End Uniform.

(** ** Lemmas *)

Lemma any_of_well_typed `{Alloy} self vs : well_typed (event_abi self) vs -> is_Some (any_of self vs).
Proof.
  unfold well_typed. intros Hvs. destruct self; cbn [event_abi inputs event atom_context_registered_abi atom_created_abi
    deposited_abi protocol_fee_accrued_abi redeemed_abi share_price_changed_abi triple_created_abi] in Hvs;
    repeat match goal with
    | H : Forall2 _ (_ :: _) _ |- _ => let v := fresh "v" in let Hv := fresh "Hv" in
        apply Forall2_cons_inv_l in H as (v & ? & Hv & H & ->); destruct v; try discriminate Hv
    | H : Forall2 _ [] _ |- _ => apply Forall2_nil_inv_l in H as ->
    end; by eexists.
Qed.

Section Delivered.
Context `{Encodings} `{AlloyFormat} `{Alloy} {W : Type} `{Clock W} `{ReadPool IngestTables W}.
Context (env : Environment) (handler_chunk_size bulk_chunk_size : nat).

Abbreviation log := (TxInformation * list SolValue)%type.

Lemma call_downcast {D} (downcast : Decoded -> option D) (inject : D -> Decoded)
    (callback : list (TxInformation * D) -> state (W := W) -> outcome unit * state (W := W)) results wm :
  (forall d, downcast (inject d) = Some d) ->
  call downcast callback (map (fun x => {| decoded_data := inject (snd x); tx_information := fst x |}) results) wm =
  callback results wm.
Proof.
  intros Hd. unfold call.
  assert (E : omap (fun item => arc ← downcast (decoded_data item); Some (tx_information item, arc))
    (map (fun x => {| decoded_data := inject (snd x); tx_information := fst x |}) results) = results).
  { induction results as [|[tx d] results IH]; [done|]. cbn. by rewrite Hd, IH. }
  rewrite E, length_map. by rewrite decide_True.
Qed.

(** One item of another kind, and nothing of the batch is done. *)
Lemma call_foreign {D} (downcast : Decoded -> option D)
    (callback : list (TxInformation * D) -> state (W := W) -> outcome unit * state (W := W)) events item wm :
  item ∈ events -> downcast (decoded_data item) = None -> call downcast callback events wm = (Panicked, wm).
Proof.
  intros Hin Hn. unfold call. rewrite decide_False; [done|].
  set (f := fun item => arc ← downcast (decoded_data item); Some (tx_information item, arc)).
  assert (Hlt : (length (omap f events) < length events)%nat); [|lia].
  assert (Hle : forall l, (length (omap f l) <= length l)%nat).
  { induction l as [|y l IH]; cbn; [lia|]. destruct (f y); cbn; lia. }
  induction events as [|y events IH]; [by apply elem_of_nil in Hin|].
  apply elem_of_cons in Hin as [->|Hin]; cbn.
  - assert (E : f y = None) by (unfold f; by rewrite Hn). rewrite E. specialize (Hle events). lia.
  - specialize (IH Hin). destruct (f y); cbn; lia.
Qed.

Context (tables : W -> IngestTables) (L : ReadLaws tables) (Hclock : clock_apart tables).
Context (Hsize : (0 < handler_chunk_size)%nat) (Hbulk : (0 < bulk_chunk_size)%nat).

Lemma custom_logic_steps {D R K} `{TypedTable R K} name (convert : D -> Envelope -> EventRecord * R)
    (Hkeeps : keeps_envelope convert) results w m :
  let '(o, (w', _)) := custom_logic env handler_chunk_size bulk_chunk_size name convert results (w, m) in
  extends convert results (tables w) (tables w') /\
  match o with
  | Done _ => forall x, x ∈ results -> stored (R := R) (tables w') x
  | Failed _ => True
  | Panicked => (exists x, x ∈ results /\ stuck (tables w') x) \/
      (start_block env = None /\ forall x, x ∈ results -> stored (R := R) (tables w') x)
  end.
Proof.
  pose proof (handler_steps tables L Hclock convert Hkeeps handler_chunk_size bulk_chunk_size Hbulk results w Hsize) as Hs.
  unfold custom_logic. destruct results as [|x results].
  { split; [apply extends_none|]. by intros x ?%elem_of_nil. }
  destruct (handler _ _ _ _ _) as [o w']. destruct Hs as [Hr Ho].
  assert (Hext : extends convert (x :: results) (tables w) (tables w')) by by apply sub_batches_extend.
  destruct o as [u|e|]; [|by split|split; [done|by left]].
  unfold record_events_with_block. destruct (start_block env) eqn:E; (split; [done|]); [done|by right].
Qed.

(** The log as rindexer hands it to the callback. *)
Definition emitted (decode : list string -> string -> Decoded) (self : MultiVaultEventType) (x : log) : EventResult :=
  let '(topics, data) := encode_log (event_abi self) (snd x) in
  {| decoded_data := decode topics data; tx_information := fst x |}.

Definition delivery (self : MultiVaultEventType) (logs : list log) (t t' : IngestTables) (o : outcome unit) : Prop :=
  only_adds self logs t t' /\
  match o with
  | Done _ => forall x, x ∈ logs -> log_stored self t' x
  | Failed _ => True
  | Panicked => (exists x, x ∈ logs /\ log_stuck t' x) \/
      (start_block env = None /\ forall x, x ∈ logs -> log_stored self t' x)
  end.

(** A callback on decoded logs, in terms of the values they hold. *)
Lemma event_delivers {D R K} `{TypedTable R K} self (downcast : Decoded -> option D) (inject : D -> Decoded)
    (data_of : list SolValue -> option D) name (convert : D -> Envelope -> EventRecord * R) (logs : list log) w m :
  (forall d, downcast (inject d) = Some d) ->
  (forall vs, any_of self vs = inject <$> data_of vs) ->
  (forall vs e, record_of self vs e = (d ← data_of vs; Some (fst (convert d e)))) ->
  (forall e t, typed_row self e t <-> is_Some (table (R := R) t !! conflict_key (R := R) e)) ->
  typed_only_adds self = typed_adds data_of convert ->
  keeps_envelope convert ->
  event_callback env handler_chunk_size bulk_chunk_size self =
    call downcast (custom_logic env handler_chunk_size bulk_chunk_size name convert) ->
  Forall (fun x => is_Some (data_of (snd x))) logs ->
  let '(o, (w', _)) := event_callback env handler_chunk_size bulk_chunk_size self
    (map (fun x => {| decoded_data := default (AnyError None) (any_of self (snd x)); tx_information := fst x |}) logs)
    (w, m) in
  delivery self logs (tables w) (tables w') o.
Proof.
  intros Hdown Hany Hrec Hrow Htyped Hkeeps -> Hdata.
  assert (Hds : exists results, Forall2 (fun x r => fst r = fst x /\ data_of (snd x) = Some (snd r)) logs results).
  { induction Hdata as [|[tx vs] logs [d Hd] _ [results IH]]; [by exists []|]. exists ((tx, d) :: results). by constructor. }
  destruct Hds as [results Hds].
  assert (E : map (fun x => {| decoded_data := default (AnyError None) (any_of self (snd x)); tx_information := fst x |}) logs =
    map (fun r => {| decoded_data := inject (snd r); tx_information := fst r |}) results).
  { clear Hdata. induction Hds as [|x r logs results [Hf Hd] _ IH]; [done|]. cbn [map]. rewrite IH, Hany, Hd, Hf. done. }
  rewrite E, call_downcast by done.
  pose proof (custom_logic_steps name convert Hkeeps results w m) as Hs.
  destruct (custom_logic _ _ _ _ _ _ _) as [o [w' m']]. destruct Hs as [[Hstore Htstore Hnew Htnew Hrest] Ho].
  assert (Hback : forall r, r ∈ results -> exists x, x ∈ logs /\ fst r = fst x /\ data_of (snd x) = Some (snd r)).
  { intros r Hr. apply list_elem_of_lookup in Hr as [i Hi]. destruct (Forall2_lookup_r _ _ _ _ _ Hds Hi) as (x & Hx & Hf & Hd).
    exists x. split; [by eapply list_elem_of_lookup_2|done]. }
  assert (Hstored : (forall r, r ∈ results -> stored (R := R) (tables w') r) -> forall x, x ∈ logs -> log_stored self (tables w') x).
  { intros Hall x Hx. apply list_elem_of_lookup in Hx as [i Hi]. destruct (Forall2_lookup_l _ _ _ _ _ Hds Hi) as (r & Hr & Hf & _).
    destruct (Hall r (list_elem_of_lookup_2 _ _ _ Hr)) as (e & He & Hc & Ht). exists e. rewrite <- Hf, Hrow. done. }
  split; [split; [done|]; split|].
  - intros k row Hk. destruct (Hnew k row Hk) as [?|(r & e & Hr & He & Hkey & Hrow' & Hcan)]; [by left|right].
    destruct (Hback r Hr) as (x & Hx & Hf & Hd). exists x, e. rewrite <- Hf, Hrec, Hd. cbn. by rewrite Hrow'.
  - rewrite Htyped. split; [done|]. split; [|done]. intros k s row Hk.
    destruct (Htnew k s row Hk) as [?|(r & e & Hr & He & Hkey & Hrow' & Hcan)]; [by left|right].
    destruct (Hback r Hr) as (x & Hx & Hf & Hd). exists x, e, (snd r). rewrite <- Hf. done.
  - destruct o as [u|err|]; [by apply Hstored|done|].
    destruct Ho as [(r & Hr & Hst)|[Hn Hall]]; [left|right; auto].
    destruct (Hback r Hr) as (x & Hx & Hf & _). exists x. split; [done|]. unfold log_stuck. rewrite <- Hf. exact Hst.
Qed.

Lemma data_of_any {D} (inject : D -> Decoded) (data_of : list SolValue -> option D) (logs : list log) :
  Forall (fun x => is_Some (inject <$> data_of (snd x))) logs -> Forall (fun x => is_Some (data_of (snd x))) logs.
Proof. intros Hall. eapply Forall_impl; [exact Hall|]. intros x. apply fmap_is_Some. Qed.

Lemma callback_delivers self (logs : list log) w m :
  Forall (fun x => well_typed (event_abi self) (snd x)) logs ->
  let '(o, (w', _)) := event_callback env handler_chunk_size bulk_chunk_size self
    (map (fun x => {| decoded_data := default (AnyError None) (any_of self (snd x)); tx_information := fst x |}) logs)
    (w, m) in
  delivery self logs (tables w) (tables w') o.
Proof.
  intros Hwt. assert (Hany : Forall (fun x => is_Some (any_of self (snd x))) logs).
  { eapply Forall_impl; [exact Hwt|]. intros x. apply any_of_well_typed. }
  destruct conversions_keep as (K1 & K2 & K3 & K4 & K5 & K6 & K7). destruct self.
  - by apply (event_delivers AtomContextRegistered downcast_atom_context_registered AnyAtomContextRegistered
      atom_context_registered_data "AtomContextRegistered" atom_context_registered); [..|by apply data_of_any in Hany].
  - by apply (event_delivers AtomCreated downcast_atom_created AnyAtomCreated atom_created_data "AtomCreated" atom_created);
      [..|by apply data_of_any in Hany].
  - by apply (event_delivers Deposited downcast_deposited AnyDeposited deposited_data "Deposited" deposited);
      [..|by apply data_of_any in Hany].
  - by apply (event_delivers ProtocolFeeAccrued downcast_protocol_fee_accrued AnyProtocolFeeAccrued
      protocol_fee_accrued_data "ProtocolFeeAccrued" protocol_fee_accrued); [..|by apply data_of_any in Hany].
  - by apply (event_delivers Redeemed downcast_redeemed AnyRedeemed redeemed_data "Redeemed" redeemed);
      [..|by apply data_of_any in Hany].
  - by apply (event_delivers SharePriceChanged downcast_share_price_changed AnySharePriceChanged
      share_price_changed_data "SharePriceChanged" share_price_changed); [..|by apply data_of_any in Hany].
  - by apply (event_delivers TripleCreated downcast_triple_created AnyTripleCreated triple_created_data "TripleCreated"
      triple_created); [..|by apply data_of_any in Hany].
Qed.

(** The decoder gives back the values that were emitted. *)
Lemma emitted_values (LA : AlloyLaws) self x : well_typed (event_abi self) (snd x) ->
  emitted (decoder self) self x =
    {| decoded_data := default (AnyError None) (any_of self (snd x)); tx_information := fst x |}.
Proof.
  intros Hwt. unfold emitted, decoder. pose proof (law_decode_encoded LA _ _ (registered_in_contract self) Hwt) as Hd.
  destruct (encode_log _ _) as [topics data]. cbn [fst snd] in Hd. by rewrite Hd.
Qed.

Lemma event_abi_inj e e' : event_abi e = event_abi e' -> e = e'.
Proof. destruct e, e'; done. Qed.
End Delivered.

(** ** Properties *)

(** C9 (from the chain to the tables). Take the registry [start_indexer] builds and, in
    it, what is registered under the topic of an event, that is the hash of its
    signature. Given logs the contract emitted for that event, decoded with the
    decoder of any of the contract's networks, the callback registered there, whatever
    fails, changes no row of [event_store] or of a typed table; a new row of [event_store]
    is the record one of the logs converts to, a new row of the event's own table its typed
    form, each under the log's key and with one sequence number, and no other typed table
    is written. If it succeeds every log is in [event_store] and in the event's own table.
    It panics only when a log's index does not fit, a log is there as non-canonical, or the
    start block is not in the environment, and then with everything stored. A batch with a
    log of another topic panics and stores nothing. *)
Theorem indexed_logs_stored `{Encodings} `{AlloyFormat} `{Alloy} `{Rindexer} {W} `{Clock W} `{ReadPool IngestTables W}
  (env : Environment) (handler_chunk_size bulk_chunk_size : nat) (tables : W -> IngestTables)
  (path : string) registry info c (self : MultiVaultEventType) (logs : list (TxInformation * list SolValue))
  (w : W) (m : IngestMetrics)
  (LA : AlloyLaws) (L : ReadLaws tables) (Hclock : clock_apart tables)
  (Hsize : (0 < handler_chunk_size)%nat) (Hbulk : (0 < bulk_chunk_size)%nat)
  (Hreg : register_all env handler_chunk_size bulk_chunk_size registered_events path [] = Some registry)
  (Hinfo : info ∈ registry) (Htopic : info_topic_id info = keccak256 (signature (event_abi self)))
  (Hc : c ∈ ci_details (contract info))
  (Hlogs : Forall (fun x => well_typed (event_abi self) (snd x)) logs) :
  (let '(o, (w', _)) := info_callback info (map (emitted (nc_decoder c) self) logs) (w, m) in
   delivery env self logs (tables w) (tables w') o) /\
  (forall events topics data tx, {| decoded_data := nc_decoder c topics data; tx_information := tx |} ∈ events ->
     hd_error topics <> Some (info_topic_id info) -> info_callback info events (w, m) = (Panicked, (w, m))).
Proof.
  apply register_all_spec in Hreg as (infos & -> & Hall). cbn [app] in Hinfo.
  apply list_elem_of_lookup in Hinfo as [i Hi]. destruct (Forall2_lookup_r _ _ _ _ _ Hall Hi) as (e & _ & He).
  destruct (registered_spec _ _ _ LA _ _ _ He) as (_ & Ht & -> & Hdec). rewrite (Hdec c Hc). rewrite Ht in Htopic.
  apply signature_topic_inj in Htopic as E; [|apply registered_in_contract..]. apply event_abi_inj in E as ->. split.
  - rewrite (map_ext_in _ (fun x => {| decoded_data := default (AnyError None) (any_of self (snd x)); tx_information := fst x |})).
    + by apply callback_delivers.
    + intros x Hx%list_elem_of_In. apply (emitted_values LA). rewrite Forall_forall in Hlogs. by apply Hlogs.
  - intros events topics data tx Hin Hother. rewrite Ht in Hother.
    destruct (law_other_topic LA _ topics data (registered_in_contract self) Hother) as [err Herr].
    assert (Hany : decoder self topics data = AnyError (Some err)) by (unfold decoder; by rewrite Herr).
    rewrite Hany in Hin. destruct self; by eapply call_foreign.
Qed.

(** ** A concrete deployment *)

Definition demo_manifest : Manifest := {|
  manifest_name := "be_v3_indexer"; timestamps := Some true; timestamp_sample_rate := None;
  all_contracts := [{| ct_name := "MultiVault"; before_modify_name_if_filter_readonly := "MultiVault";
    details := [{| network := "intuition"; cd_start_block := Some 100; cd_end_block := None |}];
    index_event_in_order := None; abi := "./abi/MultiVault.json"; reorg_safe_distance := Some 10 |}];
  networks := [{| nw_name := "intuition"; nw_disable_logs_bloom_checks := None |}] |}.

#[global] Instance demo_rindexer : Rindexer := {|
  Provider := unit; IndexingContractSetup := unit;
  read_manifest path := if String.eqb path "./rindexer.yaml" then Some demo_manifest else None;
  create_client _ _ := Some tt; indexing_contract_setup _ _ := tt |}.

Definition demo_indexer_env : Environment :=
  <["INTUITION_RPC_URL" := "http://localhost:8545"]> (<["CHAIN_ID" := "13579"]> demo_ingest_env).

Definition twenty_bytes : string := String.concat "" (repeat "a" 20).
Definition demo_fee_values (i : Z) : TxInformation * list SolValue :=
  (demo_log i, [SUint 1; SAddress twenty_bytes; SUint 7]).
Definition demo_raw_logs : list EventResult :=
  map (emitted (decoder ProtocolFeeAccrued) ProtocolFeeAccrued) (map demo_fee_values [0; 1; 2]).

#[local] Existing Instance demo_encodings.

Definition fee_callback_run : outcome unit * (demo IngestTables * IngestMetrics) :=
  event_callback demo_indexer_env 2 1 ProtocolFeeAccrued demo_raw_logs (demo_database empty_tables [], no_metrics).

Lemma indexed_logs_stored_witness :
  (fst fee_callback_run = Done tt /\
   is_Some (register_all (W := demo IngestTables) demo_indexer_env 2 1 registered_events "./rindexer.yaml" [])) /\
  forall registry info c,
    register_all (W := demo IngestTables) demo_indexer_env 2 1 registered_events "./rindexer.yaml" [] = Some registry ->
    info ∈ registry -> info_topic_id info = keccak256 (signature protocol_fee_accrued_abi) ->
    c ∈ ci_details (contract info) ->
    let '(o, (w', _)) := info_callback info (map (emitted (nc_decoder c) ProtocolFeeAccrued) (map demo_fee_values [0; 1; 2]))
      (demo_database empty_tables [], no_metrics) in
    delivery demo_indexer_env ProtocolFeeAccrued (map demo_fee_values [0; 1; 2]) empty_tables (demo_tables w') o.
Proof.
  split.
  - split; [vm_compute; reflexivity|]. apply (register_all_ok _ _ _ demo_sol_laws); [done|].
    exists demo_manifest. eexists. split; [reflexivity|]. split; [reflexivity|].
    intros d ->%list_elem_of_singleton. split; [reflexivity|]. eexists. vm_compute. reflexivity.
  - intros registry info c Hreg Hinfo Htopic Hc.
    apply (indexed_logs_stored demo_indexer_env 2 1 demo_tables "./rindexer.yaml" registry info c ProtocolFeeAccrued
      (map demo_fee_values [0; 1; 2]) (demo_database empty_tables []) no_metrics demo_sol_laws demo_read_laws
      demo_clock_apart ltac:(lia) ltac:(lia) Hreg Hinfo Htopic Hc).
    unfold well_typed. repeat constructor.
Defined.
