(* ===== verification/IngestMain.v ===== *)
(** * Start-up of the ingestion

    [crates/rindexer-ingestion/src/main.rs]: the environment, the database, the latest
    block of the chain, the registrations, and rindexer. The node is what it answers to
    [eth_blockNumber], a JSON value when there is one. *)

From Stdlib Require Import Ascii.
From S2P Require Import Prelude MachineInt Text Events PgTx TxCode PgCommon DemoWorld DemoDatabase.
From S2P Require Import Ingestion IngestHandlers Config MultiVaultAbi IngestMetrics IndexerGlue IndexedLogs.

(** [trim_start_matches("0x")] *)
Fixpoint trim_0x (fuel : nat) (s : string) : string :=
  match fuel with
  | O => s
  | S fuel => match strip_prefix "0x" s with Some s' => trim_0x fuel s' | None => s end
  end.

(** [u64::from_str_radix(.., 16)] *)
Fixpoint from_hex_digits (acc : Z) (s : string) : option Z :=
  match s with
  | EmptyString => Some acc
  | String c s =>
      match hex_value c with
      | None => None
      | Some d => let acc := acc * 16 + Z.of_N d in if U64_MAX <? acc then None else from_hex_digits acc s
      end
  end.
Definition from_str_radix_16 (s : string) : option Z :=
  match s with
  | EmptyString => None
  | String "+" EmptyString => None
  | String "+" digits => from_hex_digits 0 digits
  | digits => from_hex_digits 0 digits
  end.

Definition json_get (key : string) (json : Value) : option Value :=
  match json with
  | Object fields => snd <$> List.find (fun kv => String.eqb (fst kv) key) fields
  | _ => None
  end.
Definition as_str (v : Value) : option string := match v with VString s => Some s | _ => None end.

Definition fetch_latest_block (response : option Value) : option Z :=
  json ← response;
  result ← json_get "result" json;
  hex_str ← as_str result;
  from_str_radix_16 (trim_0x (String.length hex_str) hex_str).

(** How [main] ends, or the registry rindexer indexes with. *)
Inductive ingestion (Registry : Type) :=
  | Exit (error : string)
  | Crash
  | Indexing (registry : Registry) (metrics : IngestMetrics).
Arguments Exit {Registry}.
Arguments Crash {Registry}.
Arguments Indexing {Registry}.

Section Main.
Context `{Encodings} `{AlloyFormat} `{Alloy} `{Rindexer} {W : Type} `{Clock W} `{ReadPool IngestTables W}.
Context (pool_connect : string -> result unit string) (eth_block_number : string -> option Value).
Abbreviation Registry := (list (@EventCallbackRegistryInformation _ _ W)).
Context (start_rindexer : string -> Registry -> result unit string).
Context (env : Environment) (handler_chunk_size bulk_chunk_size : nat).

Definition manifest_path : string := default "./rindexer.yaml" (var env "RINDEXER_MANIFEST_PATH").

Definition set_latest (latest : option Z) (m : IngestMetrics) : IngestMetrics :=
  match latest with
  | Some latest_block => foldl (fun m event_type => set_latest_block event_type latest_block m) m event_types
  | None => m
  end.

Definition main : ingestion Registry :=
  match var env "DATABASE_URL" with
  | None => Exit "DATABASE_URL environment variable must be set"
  | Some database_url =>
      match pool_connect database_url with
      | Err e => Exit e
      | Ok _ =>
          match from_str U16_MAX (default "9091" (var env "METRICS_PORT")) with
          | Err _ => Exit "METRICS_PORT must be a valid port number"
          | Ok _ =>
              match var env "INTUITION_RPC_URL" with
              | None => Exit "INTUITION_RPC_URL environment variable must be set"
              | Some rpc_url =>
                  let m := set_latest (fetch_latest_block (eth_block_number rpc_url)) no_metrics in
                  match start_indexer env handler_chunk_size bulk_chunk_size start_rindexer manifest_path with
                  | Done registry => Indexing registry (initialise m)
                  | Failed e => Exit e
                  | Panicked => Crash
                  end
              end
          end
      end
  end.

(** ** Lemmas *)

(** What [main] checks itself. *)
Definition environment_reads : Prop :=
  (exists url, var env "DATABASE_URL" = Some url /\ pool_connect url = Ok tt) /\
  is_ok (from_str U16_MAX (default "9091" (var env "METRICS_PORT"))) = true /\
  is_Some (var env "INTUITION_RPC_URL").

Lemma latest_set latest ty : ty ∈ event_types ->
  LATEST_BLOCKS (initialise (set_latest latest no_metrics)) !! ty = latest.
Proof.
  intros Hty. destruct latest as [n|]; [|by cbn; rewrite lookup_empty].
  unfold event_types in Hty. rewrite !elem_of_cons in Hty.
  repeat (destruct Hty as [->|Hty]; [vm_compute; reflexivity|]). by apply elem_of_nil in Hty.
Qed.

Lemma start_indexer_spec (L : AlloyLaws) path :
  match start_indexer env handler_chunk_size bulk_chunk_size start_rindexer path with
  | Done registry => registrable env path /\ start_rindexer path registry = Ok tt /\
      register_all env handler_chunk_size bulk_chunk_size registered_events path [] = Some registry
  | Failed _ => registrable env path
  | Panicked => ~ registrable env path
  end.
Proof.
  unfold start_indexer. pose proof (register_all_ok env handler_chunk_size bulk_chunk_size L registered_events path [] ltac:(done)) as Hok.
  destruct (register_all _ _ _ _ _ _) as [registry|].
  - assert (Hr : registrable env path) by (apply Hok; by eexists).
    destruct (start_rindexer path registry) as [[]|e] eqn:E; done.
  - intros Hr. apply Hok in Hr as [? ?]. done.
Qed.
End Main.

(** ** Properties *)

(** C17 (ingestion start-up). The ingestion indexes exactly when the database URL reads
    and connects, the metrics port is one, the node's URL is set, the manifest describes
    the contract on this network for a client that can be made, and rindexer starts; it
    panics exactly when only the manifest or the client is missing. The registry has the
    seven events under the hashes of their signatures, and progress is measured from
    the block the node gave. The start block is never looked at. *)
Theorem ingestion_start_up `{Encodings} `{AlloyFormat} `{Alloy} `{Rindexer} {W} `{Clock W} `{ReadPool IngestTables W}
  (pool_connect : string -> result unit string) (eth_block_number : string -> option Value) start_rindexer
  (env : Environment) (handler_chunk_size bulk_chunk_size : nat) (L : AlloyLaws) :
  match main (W := W) pool_connect eth_block_number start_rindexer env handler_chunk_size bulk_chunk_size with
  | Indexing registry m =>
      environment_reads pool_connect env /\ registrable env (manifest_path env) /\
      start_rindexer (manifest_path env) registry = Ok tt /\
      map info_topic_id registry = map (fun e => keccak256 (signature (event_abi e))) registered_events /\
      map info_event_name registry = map event_name registered_events /\
      forall url e, var env "INTUITION_RPC_URL" = Some url ->
        LATEST_BLOCKS m !! event_name e = fetch_latest_block (eth_block_number url)
  | Crash => environment_reads pool_connect env /\ ~ registrable env (manifest_path env)
  | Exit e => environment_reads pool_connect env ->
      registrable env (manifest_path env) /\
      exists registry err, start_rindexer (manifest_path env) registry = Err err
  end.
Proof.
  unfold main, environment_reads. destruct (var env "DATABASE_URL") as [url|]; [|by intros ((? & ? & _) & _)].
  destruct (pool_connect url) as [[]|e] eqn:Epool; [|intros ((? & [= <-] & ?) & _); congruence].
  destruct (from_str _ _) as [port|e]; [|by intros (_ & ? & _)].
  destruct (var env "INTUITION_RPC_URL") as [rpc|]; [|intros (_ & _ & [? ?]); done].
  pose proof (start_indexer_spec start_rindexer env handler_chunk_size bulk_chunk_size L (manifest_path env)) as Hs.
  destruct (start_indexer _ _ _ _ _) as [registry|e|] eqn:Estart.
  - destruct Hs as (Hr & Hstart & Hreg). apply register_all_spec in Hreg as (infos & -> & Hall). cbn [app] in *.
    assert (Hmap : map info_topic_id infos = map (fun e => keccak256 (signature (event_abi e))) registered_events /\
      map info_event_name infos = map event_name registered_events).
    { clear -Hall L. induction Hall as [|e info es infos He _ [IH1 IH2]]; [done|]. cbn [map]. rewrite IH1, IH2.
      destruct (registered_spec _ _ _ L _ _ _ He) as (-> & -> & _). done. }
    destruct Hmap as [Htopics Hnames]. split; [split; [by eexists|split; [done|by eexists]]|]. do 4 (split; [done|]).
    intros u e Hu. injection Hu as <-. apply latest_set. destruct e; unfold event_types; cbn; set_solver.
  - intros _. split; [done|]. unfold start_indexer in Estart. destruct (register_all _ _ _ _ _ _) as [registry|]; [|done].
    destruct (start_rindexer (manifest_path env) registry) as [u|err] eqn:Er; [done|]. by exists registry, err.
  - split; [|done]. split; [by eexists|split; [done|by eexists]].
Qed.

(** ** A concrete process *)

#[local] Existing Instance demo_encodings.

Definition demo_answer : option Value := Some (Object [("jsonrpc", VString "2.0"); ("result", VString "0x89d5f3")]).

Example demo_latest : fetch_latest_block demo_answer = Some 9033203.
Proof. vm_compute. reflexivity. Qed.

(** No [MULTIVAULT_START_BLOCK]: it starts all the same, and its first callback stores
    the logs and panics. *)
Definition unset_start_env : Environment :=
  {["DATABASE_URL" := "postgres://localhost/intuition"; "INTUITION_RPC_URL" := "http://localhost:8545";
    "CHAIN_ID" := "13579"]}.

Definition demo_main : ingestion (list (@EventCallbackRegistryInformation _ _ (demo IngestTables))) :=
  main (fun _ => Ok tt) (fun _ => demo_answer) (fun _ _ => Ok tt) unset_start_env 2 1.

Lemma ingestion_start_up_witness :
  (exists registry m, demo_main = Indexing registry m) /\
  fst (event_callback unset_start_env 2 1 ProtocolFeeAccrued demo_raw_logs (demo_database empty_tables [], no_metrics)) = Panicked /\
  match demo_main with
  | Indexing registry m =>
      environment_reads (fun _ => Ok tt) unset_start_env /\ registrable unset_start_env (manifest_path unset_start_env) /\
      Ok (E := string) tt = Ok tt /\
      map info_topic_id registry = map (fun e => keccak256 (signature (event_abi e))) registered_events /\
      map info_event_name registry = map event_name registered_events /\
      forall url e, var unset_start_env "INTUITION_RPC_URL" = Some url ->
        LATEST_BLOCKS m !! event_name e = fetch_latest_block demo_answer
  | _ => False
  end.
Proof.
  pose proof (ingestion_start_up (W := demo IngestTables) (fun _ => Ok tt) (fun _ => demo_answer) (fun _ _ => Ok tt)
    unset_start_env 2 1 demo_sol_laws) as Hmain.
  assert (Hreg : registrable unset_start_env (manifest_path unset_start_env)).
  { exists demo_manifest. eexists. split; [vm_compute; reflexivity|]. split; [vm_compute; reflexivity|].
    intros d ->%list_elem_of_singleton. split; [reflexivity|]. eexists. vm_compute. reflexivity. }
  fold demo_main in Hmain. destruct demo_main as [e| |registry m].
  - exfalso. destruct Hmain as (_ & ? & ? & ?); [|done].
    split_and!; [eexists; split; [vm_compute; reflexivity|done]|vm_compute; reflexivity|eexists; vm_compute; reflexivity].
  - exfalso. by destruct Hmain.
  - split; [by exists registry, m|]. split; [vm_compute; reflexivity|]. exact Hmain.
Defined.
